(* ===== verification/_CoqProject ===== *)
-Q . S2P
Prelude.v
State.v
Spinlock.v
Mem.v
Bytes.v
Riscv.v
Kalloc.v
Vm.v
PageTable.v
Uvm.v
UvmAlloc.v
UvmFree.v
UvmCopy.v
Sched.v
SleepWakeup.v
Scheduler.v
Sleeplock.v
Uart.v
Printf.v
Bio.v
Bcache.v
Log.v
LogSpec.v
Crash.v
Txn.v
Pipe.v
Sem.v
Proc.v
ProcVm.v
Kvm.v
Board.v
ProcAlloc.v
ProcGrow.v
Fs.v
FsPath.v
FsBlock.v
FsInode.v
FsDir.v
Mkfs.v
MkfsSpec.v
MkfsImage.v
File.v
Console.v
Process.v
UserInit.v
Fork.v
Exec.v
Syscall.v
Sysproc.v
Sysfile.v
Shm.v
Dispatch.v
Trap.v
Virtio.v
Boot.v
DiskInit.v
BootSpec.v
VirtioSpec.v
VirtioDisk.v
Machine.v
Uprintf.v
Ulib.v
Utils.v
Umalloc.v
Grep.v
Sh.v
ShPrint.v
ShRun.v
FsMachine.v
Witnesses.v
UserWitnesses.v
DevWitnesses.v
