(* ===== verification/Prelude.v ===== *)
(** * Verification of the xv6-mod kernel

    xv6-mod is the xv6 teaching kernel for RISC-V, with waitpid(), sysinfo(), signals,
    semaphores and shared memory segments added.  This library models the C code of
    src/kernel/, the library, the shell and some programs of src/user/, and mkfs, as Rocq
    functions and step relations, and proves what makes their parts correct.

    ** The model

    A kernel function is a function of the state monad [M kernel] (below): it returns
    a value and a new state ([Ok]), panics ([Panic], also for a pointer that points to
    nothing), gives up the CPU ([Sleep], with the continuation that runs when the
    process is scheduled again), or runs out of fuel ([Timeout]).  [kernel] (State.v)
    is the record of the kernel's global variables: physical memory as bytes, the free
    list, the process table, pipes, open files, the inode table, the buffer cache, the
    log, the console, the disk.  C integers are [Z] with the wrap-around of their width
    written out ([u8], [u32], [u64], [s16], [s32]); pointers to table entries are
    indices; memory pages, page tables and trapframes are bytes of physical memory at
    their addresses.  A spinlock is held or not ([held]); Spinlock.v, which models the
    code of spinlock.c with its CPUs, interrupts and atomic swap, proves that acquire()
    and release() implement that view and exclude each other.

    The code whose difficulty is its interleavings is a step relation as well, with an
    invariant over every reachable state: acquire() and release() (Spinlock.v), sleep()
    and wakeup() (SleepWakeup.v), scheduler() on several CPUs (Scheduler.v), and the disk
    driver with its interrupts and its device (Virtio.v).  The disk that the buffer cache
    uses, a request being the completed transfer of a block, is the one that VirtioDisk.v
    proves the driver and the device to implement.  The steps of the processes are the code
    of the modelled functions: sleep() and wakeup() are lists of statements that Sched.v runs
    in the monad and SleepWakeup.v one at a time, the loops of pipe.c turn by turn are the
    steps of the history in Pipe.v, and the steps of Virtio.v run virtio_disk_rw() from one
    control point to the next.

    Start-up is code of the monad [M board] (Board.v), whose state holds the control
    registers of the hart, the memory-mapped accesses made to the devices, the device
    switch and the kernel state.  What main() prints goes to the output of the uart in the
    kernel state ([dev_out]), and is not in the list of accesses.

    Loops are structural recursion, or take fuel.  The fuel is computed by the function
    from its arguments and is enough for every run: a loop over pages takes the number
    of pages plus two, readi() and writei() the number of blocks plus three, namex() the
    length of the path plus one, freewalk() the three levels of a table, the parser of the
    shell five times the length of the line plus ten.  Loops that wait for other processes
    or devices (acquiresleep(), begin_op(), wait(), the full or empty pipe, console and
    uart) have no such bound; they take [patience], a parameter, or the readings of the
    status register that the state lists, and the theorems hold for every value of it.

    ** Files

    - Prelude.v: integers, the monad, its Hoare-style rules ([wp]), C loops, tactics.
    - State.v: the kernel's data types (proc.h, file.h, fs.h, buf.h, ...) and its state.
    - Spinlock.v: spinlock.c; mutual exclusion by an invariant over all interleavings.
    - Mem.v, Bytes.v: memory and string.c; little-endian data in byte buffers.
    - Riscv.v: riscv.h and memlayout.h, the arithmetic of pages and page table entries.
    - Kalloc.v: kalloc.c; free and allocated pages partition RAM.
    - Vm.v: vm.c.  PageTable.v: walk() and mappages() on a well-formed Sv39 tree.
      Uvm.v: copyout(), copyin(), copyinstr().  UvmAlloc.v: uvmalloc(), uvmdealloc().
      UvmFree.v: uvmunmap(), freewalk(), uvmfree().  UvmCopy.v: uvmcopy().
      Kvm.v: kvmmake() and the kernel's own page table.
    - Sched.v: sched(), sleep(), wakeup(), kill().  SleepWakeup.v: a step relation for
      any number of processes that wait for, change and wake up for conditions under
      their locks, with kill() and the scheduler; no wakeup is lost.  It is about callers
      that test their condition again after sleep(), which sem_wait() does not.
      Scheduler.v: scheduler() on several CPUs; a process runs on one CPU at most and none
      is passed over.
    - Uart.v: uart.c and consputc().  Printf.v: printf.c; [kprint] is printf() as the
      other files call it.
    - Sleeplock.v, Bio.v: sleeplock.c and bio.c.  Bcache.v: the invariant of the buffer
      cache and the specifications of its functions.
    - Log.v: log.c.  LogSpec.v: the disk writes of its procedures.  Crash.v: a
      transaction is atomic under crashes, recovery under crashes of its own.  Txn.v:
      begin_op(), log_write() and end_op() as the file system uses them.
    - Pipe.v: pipe.c; a pipe is a bounded FIFO, however the turns of its readers and writers
      interleave.  Sem.v: semaphore.c.
    - Proc.v: proc.c without fork() and exit().  ProcVm.v, ProcAlloc.v, ProcGrow.v:
      what proc_pagetable(), allocproc(), freeproc() and growproc() do to a process.
      Process.v: fork(), exit(), userinit().  UserInit.v, Fork.v: what userinit() and
      fork() do.
    - Fs.v: fs.c.  FsPath.v: path names.  FsBlock.v: the free bitmap, balloc() and
      bfree().  FsInode.v: the bytes of a file, bmap(), readi(), writei() and the disk
      inode.  FsDir.v: the inode table and dirlookup().
    - File.v: file.c.  Console.v: console.c.  Exec.v: exec.c.  Syscall.v, Sysproc.v,
      Sysfile.v, Shm.v, Dispatch.v: the system calls and their table.  Trap.v: trap.c.
    - Virtio.v: virtio_disk.c, its device, its callers and the interrupt as a step
      relation.  VirtioSpec.v: its invariant.  VirtioDisk.v: safety, with a device that may
      fail requests; progress and the refinement of an atomic disk, with one that serves
      them all.  The device ends a request in one step.
    - Board.v: start.c, the control registers of riscv.h, plic.c and uartinit().  Boot.v:
      main.c, virtio_disk_init() and the other initializers.  DiskInit.v: what
      virtio_disk_init() does.  BootSpec.v: what start() and main() do.
    - Mkfs.v: mkfs.c.  MkfsSpec.v: where ialloc() and iappend() put the bytes of the files.
      MkfsImage.v: the image that main() makes is one the kernel's functions can read.
    - Ulib.v: ulib.c.  Uprintf.v: the printf() of user programs.  Umalloc.v: umalloc.c.
      Utils.v: cat.c, echo.c and wc.c.  Grep.v: grep.c.
      Sh.v: the parser of sh.c.  ShPrint.v: parsing is the inverse of printing.  ShRun.v:
      runcmd(), the processes it makes, their descriptors, and what happens when a system
      call fails.
    - Machine.v, FsMachine.v: concrete machines that boot; Witnesses.v, UserWitnesses.v,
      DevWitnesses.v: the theorems applied to them.

    ** Parameters

    [Linker], [Symbols], [Text], [Vectors] and [Entries] are addresses the linker chooses,
    with the facts the linker script ensures.  [Devices] is what the registers of the
    devices answer while they are set up.  [Hart] is what a hart keeps of a value written
    to a register some of whose fields it may leave alone.  [Devsw] is the device
    switch (Console.v gives the instance that consoleinit() makes).  [Storage] is the interface of the disk, with
    its laws.  [Stack] is what an uninitialised local variable holds.  [Jump] is what
    calling a user address from the kernel does.  [Host] is the machine that mkfs runs on, with
    the files it reads; [Syscalls] is what the system calls of a small program return.

    ** Not modelled

    - The assembly files and swtch(): machine code.  A context switch is the [Sleep]
      outcome, or a step of Scheduler.v.
    - Interleaving of processes inside the file system: its theorems are for one process
      at a time, as far as the locks of the other processes are not held.
    - The theorems about readi() and writei() are for kernel buffers and for blocks that are
      allocated; both functions are modelled for user addresses and unallocated blocks too.
    - Reference counts are unbounded integers: the references to an inode, a file or a buffer
      are held by entries of tables of fixed size, far fewer than an int can count.
    - The other user programs: usertests, grind and the small tests exercise the kernel,
      and the remaining commands only make system calls. *)

From stdpp Require Export base tactics option list numbers gmap sets strings.
From Stdlib Require Export ZArith Lia.

#[global] Open Scope Z_scope.

(** ** Machine integers

    C integers are kept as [Z]; the wrap-around of each width is explicit. *)

Definition u8 (z : Z) : Z := z mod 2 ^ 8.
Definition u32 (z : Z) : Z := z mod 2 ^ 32.
Definition u64 (z : Z) : Z := z mod 2 ^ 64.
(** Conversion to a 32-bit [int] (two's complement). *)
Definition s32 (z : Z) : Z := (z + 2 ^ 31) mod 2 ^ 32 - 2 ^ 31.

Lemma u8_small z : 0 <= z < 2 ^ 8 -> u8 z = z.
Proof. apply Z.mod_small. Qed.
Lemma u32_small z : 0 <= z < 2 ^ 32 -> u32 z = z.
Proof. apply Z.mod_small. Qed.
Lemma u64_small z : 0 <= z < 2 ^ 64 -> u64 z = z.
Proof. apply Z.mod_small. Qed.
Lemma s32_small z : - 2 ^ 31 <= z < 2 ^ 31 -> s32 z = z.
Proof. intros. unfold s32. rewrite Z.mod_small; lia. Qed.
Lemma u8_range z : 0 <= u8 z < 2 ^ 8.
Proof. apply Z.mod_pos_bound. lia. Qed.
Lemma u32_range z : 0 <= u32 z < 2 ^ 32.
Proof. apply Z.mod_pos_bound. lia. Qed.
Lemma u64_range z : 0 <= u64 z < 2 ^ 64.
Proof. apply Z.mod_pos_bound. lia. Qed.
Lemma s32_range z : - 2 ^ 31 <= s32 z < 2 ^ 31.
Proof. unfold s32. pose proof (Z.mod_pos_bound (z + 2 ^ 31) (2 ^ 32)). lia. Qed.

(** ** Kernel computations

    A kernel function is a state transformer.  It returns a value ([Ok]), stops
    the machine ([Panic]), gives up the CPU in [sleep()] and continues with the
    state it finds when it is scheduled again ([Sleep]), or exhausts the fuel of
    a loop that has no bound of its own ([Timeout]). *)

Inductive outcome (S A : Type) : Type :=
| Ok (a : A) (s : S)
| Panic (msg : string)
| Sleep (s : S) (k : S -> outcome S A)
| Timeout.
Arguments Ok {S A} a s.
Arguments Panic {S A} msg.
Arguments Sleep {S A} s k.
Arguments Timeout {S A}.

Fixpoint obind {S A B : Type} (o : outcome S A) (f : A -> S -> outcome S B) : outcome S B :=
  match o with
  | Ok a s => f a s
  | Panic msg => Panic msg
  | Sleep s k => Sleep s (fun s' => obind (k s') f)
  | Timeout => Timeout
  end.

Definition M (S A : Type) : Type := S -> outcome S A.

#[export] Instance M_ret S : MRet (M S) := fun A a s => Ok a s.
#[export] Instance M_bind S : MBind (M S) := fun A B f m s => obind (m s) f.

Definition panic {S A} (msg : string) : M S A := fun _ => Panic msg.
Definition gets {S A} (f : S -> A) : M S A := fun s => Ok (f s) s.
Definition modify {S} (f : S -> S) : M S unit := fun s => Ok tt (f s).
(** [if(b) m] *)
Definition when {S} (b : bool) (m : M S unit) : M S unit := if b then m else mret tt.

Section monad.
Context {S A B : Type}.
Implicit Types (m : M S A) (f : A -> M S B).

Lemma bind_Ok m f s a s' : m s = Ok a s' -> (m ≫= f) s = f a s'.
Proof. intros H. unfold mbind, M_bind. by rewrite H. Qed.

Lemma bind_Panic m f s msg : m s = Panic msg -> (m ≫= f) s = Panic msg.
Proof. intros H. unfold mbind, M_bind. by rewrite H. Qed.

Lemma bind_Sleep m f s s' k :
  m s = Sleep s' k -> (m ≫= f) s = Sleep s' (fun s'' => obind (k s'') f).
Proof. intros H. unfold mbind, M_bind. by rewrite H. Qed.

Lemma bind_Ok_inv m f s b s' :
  (m ≫= f) s = Ok b s' -> exists a s1, m s = Ok a s1 /\ f a s1 = Ok b s'.
Proof. unfold mbind, M_bind. destruct (m s); simpl; naive_solver. Qed.
End monad.

(** ** Weakest preconditions

    [wp m Q s]: run from [s], [m] returns (it neither panics, nor sleeps, nor
    runs out of fuel) and the result and final state satisfy [Q]. *)

Definition wp {S A} (m : M S A) (Q : A -> S -> Prop) (s : S) : Prop :=
  match m s with Ok a s' => Q a s' | _ => False end.

Section wp.
Context {S A B : Type}.

Lemma wp_ret (a : A) (Q : A -> S -> Prop) s : Q a s -> wp (mret a) Q s.
Proof. done. Qed.

Lemma wp_bind (m : M S A) (f : A -> M S B) Q s :
  wp m (fun a s' => wp (f a) Q s') s -> wp (m ≫= f) Q s.
Proof. unfold wp, mbind, M_bind. by destruct (m s). Qed.

Lemma wp_assoc {C} (m : M S A) (f : A -> M S B) (g : B -> M S C) Q s :
  wp ((m ≫= f) ≫= g) Q s -> wp (m ≫= fun x => f x ≫= g) Q s.
Proof. unfold wp, mbind, M_bind. by destruct (m s). Qed.

Lemma wp_mono (m : M S A) (P Q : A -> S -> Prop) s :
  wp m P s -> (forall a s', P a s' -> Q a s') -> wp m Q s.
Proof. unfold wp. destruct (m s); auto. Qed.

Lemma wp_gets (f : S -> A) (Q : A -> S -> Prop) s : Q (f s) s -> wp (gets f) Q s.
Proof. done. Qed.

Lemma wp_modify (f : S -> S) (Q : unit -> S -> Prop) s : Q tt (f s) -> wp (modify f) Q s.
Proof. done. Qed.

Lemma wp_Ok (m : M S A) Q s a s' : m s = Ok a s' -> Q a s' -> wp m Q s.
Proof. unfold wp. intros ->. done. Qed.

Lemma wp_inv (m : M S A) Q s : wp m Q s -> exists a s', m s = Ok a s' /\ Q a s'.
Proof. unfold wp. destruct (m s); naive_solver. Qed.

Lemma wp_use (m : M S A) Q s a s' : wp m Q s -> m s = Ok a s' -> Q a s'.
Proof. unfold wp. intros H E. by rewrite E in H. Qed.
End wp.

(** ** C loops *)

(** [for (i = 0; i < n; i++)] over a fixed range. *)
Fixpoint for_range {S} (n : nat) (i : nat) (body : nat -> M S unit) : M S unit :=
  match n with
  | O => mret tt
  | Datatypes.S n' => body i;; for_range n' (i + 1)%nat body
  end.

(** Rule for a counted loop: an invariant indexed by the loop counter. *)
Lemma wp_for_range {S} (body : nat -> M S unit) (I : nat -> S -> Prop) n : forall i Q s,
  I i s ->
  (forall j s, (i <= j < i + n)%nat -> I j s -> wp (body j) (fun _ s' => I (j + 1)%nat s') s) ->
  (forall s', I (i + n)%nat s' -> Q tt s') ->
  wp (for_range n i body) Q s.
Proof.
  induction n as [|n IH]; intros i Q s HI Hb HQ; simpl.
  - apply wp_ret, HQ. by replace (i + 0)%nat with i by lia.
  - apply wp_bind. eapply wp_mono; [apply Hb; [lia | done] |].
    intros [] s' HI'. apply IH; [done | |].
    + intros j s1 Hj. apply Hb. lia.
    + intros s1 H1. apply HQ. by replace (i + Datatypes.S n)%nat with (i + 1 + n)%nat by lia.
Qed.

(** A counted loop whose body may return from the function ([Some]). *)
Fixpoint for_return {S A} (n : nat) (i : nat) (body : nat -> M S (option A)) : M S (option A) :=
  match n with
  | O => mret None
  | Datatypes.S n' =>
      r ← body i;
      match r with Some a => mret (Some a) | None => for_return n' (i + 1)%nat body end
  end.

(** The body leaves the state alone and goes on up to some index: skip there. *)
Lemma for_return_skip {S A} (body : nat -> M S (option A)) k : forall n i s,
  (forall j, (i <= j < i + k)%nat -> body j s = Ok None s) ->
  for_return (k + n) i body s = for_return n (i + k)%nat body s.
Proof.
  induction k as [|k IH]; intros n i s H; simpl; [by rewrite Nat.add_0_r |].
  erewrite bind_Ok by (apply H; lia). cbv iota. rewrite IH by (intros; apply H; lia). f_equal. lia.
Qed.

(** The loop returns from its first iteration that does. *)
Lemma for_return_first {S A} (body : nat -> M S (option A)) n i k a s s' :
  (k < n)%nat -> (forall j, (i <= j < i + k)%nat -> body j s = Ok None s) ->
  body (i + k)%nat s = Ok (Some a) s' -> for_return n i body s = Ok (Some a) s'.
Proof.
  intros Hk Hs Hb. replace n with (k + Datatypes.S (n - k - 1))%nat by lia.
  rewrite for_return_skip by done. simpl. by erewrite bind_Ok by exact Hb.
Qed.

(** No iteration returns. *)
Lemma for_return_none {S A} (body : nat -> M S (option A)) n i s :
  (forall j, (i <= j < i + n)%nat -> body j s = Ok None s) -> for_return n i body s = Ok None s.
Proof.
  intros H. rewrite <- (Nat.add_0_r n), for_return_skip by done. done.
Qed.

(** Case split on the boolean tests of the C code. *)
Ltac case_Z :=
  match goal with
  | |- context [Z.eqb ?a ?b] => destruct (Z.eqb_spec a b)
  | |- context [Z.ltb ?a ?b] => destruct (Z.ltb_spec a b)
  | |- context [Z.leb ?a ?b] => destruct (Z.leb_spec a b)
  | H : context [Z.eqb ?a ?b] |- _ => destruct (Z.eqb_spec a b)
  | H : context [Z.ltb ?a ?b] |- _ => destruct (Z.ltb_spec a b)
  | H : context [Z.leb ?a ?b] |- _ => destruct (Z.leb_spec a b)
  end.

(** [lia] for goals with constant divisions and remainders. *)
Ltac dlia := Z.to_euclidean_division_equations; lia.

Lemma alter_lookup_insert {A} (f : A -> A) i (l : list A) x : l !! i = Some x -> alter f i l = <[i := f x]> l.
Proof.
  intros Hx. apply list_eq. intros j. destruct (decide (j = i)) as [->|].
  - rewrite list_lookup_alter_eq, list_lookup_insert_eq by (by eapply lookup_lt_Some). by rewrite Hx.
  - by rewrite list_lookup_alter_ne, list_lookup_insert_ne.
Qed.
