(* ===== verification/State.v ===== *)
(** * Kernel state

    The data types of the kernel's global objects (kernel/proc.h, semaphore.h,
    shm.h, pipe.c, file.h, param.h), the record that gathers the globals every
    kernel function reads and writes, and the view of spinlocks the kernel code
    relies on: the set of locks the executing CPU holds ([Spinlock] proves that
    the real [acquire]/[release] implement it). *)

From S2P Require Import Prelude.

(** ** param.h *)

Definition NPROC : nat := 64.
Definition NOFILE : nat := 16.
Definition NFILE : nat := 100.

(** ** Locks and wait channels

    A lock or a channel is identified in C by the address of a kernel object;
    distinct objects have distinct addresses. *)

Inductive slockid := SlBuf (i : nat) | SlInode (i : nat).

#[export] Instance slockid_eq_dec : EqDecision slockid.
Proof. solve_decision. Defined.

#[export] Instance slockid_countable : Countable slockid.
Proof.
  refine (inj_countable' (fun l => match l with SlBuf i => inl i | SlInode i => inr i end)
    (fun c => match c with inl i => SlBuf i | inr i => SlInode i end) _).
  by intros [].
Defined.

Inductive lockid :=
| LkKmem | LkPid | LkWait | LkTicks | LkSem | LkFtable | LkBcache | LkLog | LkItable | LkCons | LkUart | LkPr | LkVdisk
| LkProc (i : nat)
| LkPipe (pi : Z)
| LkSleep (l : slockid).   (* the spinlock inside a sleep lock *)

#[export] Instance lockid_eq_dec : EqDecision lockid.
Proof. solve_decision. Defined.

Definition lockid_code (l : lockid) : nat + nat + Z + slockid :=
  match l with
  | LkKmem => inl (inl (inl 0%nat)) | LkPid => inl (inl (inl 1%nat)) | LkWait => inl (inl (inl 2%nat))
  | LkTicks => inl (inl (inl 3%nat)) | LkSem => inl (inl (inl 4%nat)) | LkFtable => inl (inl (inl 5%nat))
  | LkBcache => inl (inl (inl 6%nat)) | LkLog => inl (inl (inl 7%nat)) | LkItable => inl (inl (inl 8%nat))
  | LkCons => inl (inl (inl 9%nat)) | LkUart => inl (inl (inl 10%nat))
  | LkPr => inl (inl (inl 11%nat)) | LkVdisk => inl (inl (inl 12%nat))
  | LkProc i => inl (inl (inr i))
  | LkPipe a => inl (inr a)
  | LkSleep l => inr l
  end.

Definition lockid_decode (c : nat + nat + Z + slockid) : lockid :=
  match c with
  | inl (inl (inl 0%nat)) => LkKmem | inl (inl (inl 1%nat)) => LkPid | inl (inl (inl 2%nat)) => LkWait
  | inl (inl (inl 3%nat)) => LkTicks | inl (inl (inl 4%nat)) => LkSem | inl (inl (inl 5%nat)) => LkFtable
  | inl (inl (inl 6%nat)) => LkBcache | inl (inl (inl 7%nat)) => LkLog | inl (inl (inl 8%nat)) => LkItable
  | inl (inl (inl 9%nat)) => LkCons | inl (inl (inl 10%nat)) => LkUart
  | inl (inl (inl 11%nat)) => LkPr | inl (inl (inl _)) => LkVdisk
  | inl (inl (inr i)) => LkProc i
  | inl (inr a) => LkPipe a
  | inr l => LkSleep l
  end.

#[export] Instance lockid_countable : Countable lockid.
Proof. refine (inj_countable' lockid_code lockid_decode _). by intros []. Defined.

(** Channels: a process ([wait], [sem_wait]), the tick counter, the two channels of
    a pipe, the log, the console, the uart, and the sleep locks. *)
Inductive chan :=
| ChProc (i : nat)
| ChTicks
| ChNread (pi : Z)
| ChNwrite (pi : Z)
| ChLog
| ChCons   (* &cons.r *)
| ChUart   (* &uart_tx_r *)
| ChSleep (l : slockid).

#[export] Instance chan_eq_dec : EqDecision chan.
Proof. solve_decision. Defined.

(** ** proc.h *)

Inductive procstate := UNUSED | USED | SLEEPING | RUNNABLE | RUNNING | ZOMBIE.

#[export] Instance procstate_eq_dec : EqDecision procstate.
Proof. solve_decision. Defined.

(** Saved registers for kernel context switches; [ctx_s] holds s0..s11. *)
Record context := mkContext { ctx_ra : Z; ctx_sp : Z; ctx_s : list Z }.

Record proc := mkProc {
  p_state : procstate;   (* Process state *)
  p_chan : option chan;   (* If non-zero, sleeping on chan *)
  p_killed : Z;   (* If non-zero, have been killed *)
  p_xstate : Z;   (* Exit status to be returned to parent's wait *)
  p_pid : Z;   (* Process ID *)
  p_parent : option nat;   (* Parent process *)
  p_kstack : Z;   (* Virtual address of kernel stack *)
  p_sz : Z;   (* Size of process memory (bytes) *)
  p_pagetable : Z;   (* User page table *)
  p_trapframe : Z;   (* data page for trampoline.S *)
  p_context : context;   (* swtch() here to run process *)
  p_ofile : list (option nat);   (* Open files, indices of ftable *)
  p_cwd : option nat;   (* Current directory, an index of itable *)
  p_name : list Z;   (* Process name (debugging) *)
  p_pending_signals : Z;
  p_sig_handlers : list Z;
}.

Definition set_p_state (x : procstate) (p : proc) : proc :=
  mkProc x p.(p_chan) p.(p_killed) p.(p_xstate) p.(p_pid) p.(p_parent) p.(p_kstack) p.(p_sz)
    p.(p_pagetable) p.(p_trapframe) p.(p_context) p.(p_ofile) p.(p_cwd) p.(p_name)
    p.(p_pending_signals) p.(p_sig_handlers).
Definition set_p_chan (x : option chan) (p : proc) : proc :=
  mkProc p.(p_state) x p.(p_killed) p.(p_xstate) p.(p_pid) p.(p_parent) p.(p_kstack) p.(p_sz)
    p.(p_pagetable) p.(p_trapframe) p.(p_context) p.(p_ofile) p.(p_cwd) p.(p_name)
    p.(p_pending_signals) p.(p_sig_handlers).
Definition set_p_killed (x : Z) (p : proc) : proc :=
  mkProc p.(p_state) p.(p_chan) x p.(p_xstate) p.(p_pid) p.(p_parent) p.(p_kstack) p.(p_sz)
    p.(p_pagetable) p.(p_trapframe) p.(p_context) p.(p_ofile) p.(p_cwd) p.(p_name)
    p.(p_pending_signals) p.(p_sig_handlers).
Definition set_p_xstate (x : Z) (p : proc) : proc :=
  mkProc p.(p_state) p.(p_chan) p.(p_killed) x p.(p_pid) p.(p_parent) p.(p_kstack) p.(p_sz)
    p.(p_pagetable) p.(p_trapframe) p.(p_context) p.(p_ofile) p.(p_cwd) p.(p_name)
    p.(p_pending_signals) p.(p_sig_handlers).
Definition set_p_pid (x : Z) (p : proc) : proc :=
  mkProc p.(p_state) p.(p_chan) p.(p_killed) p.(p_xstate) x p.(p_parent) p.(p_kstack) p.(p_sz)
    p.(p_pagetable) p.(p_trapframe) p.(p_context) p.(p_ofile) p.(p_cwd) p.(p_name)
    p.(p_pending_signals) p.(p_sig_handlers).
Definition set_p_parent (x : option nat) (p : proc) : proc :=
  mkProc p.(p_state) p.(p_chan) p.(p_killed) p.(p_xstate) p.(p_pid) x p.(p_kstack) p.(p_sz)
    p.(p_pagetable) p.(p_trapframe) p.(p_context) p.(p_ofile) p.(p_cwd) p.(p_name)
    p.(p_pending_signals) p.(p_sig_handlers).
Definition set_p_kstack (x : Z) (p : proc) : proc :=
  mkProc p.(p_state) p.(p_chan) p.(p_killed) p.(p_xstate) p.(p_pid) p.(p_parent) x p.(p_sz)
    p.(p_pagetable) p.(p_trapframe) p.(p_context) p.(p_ofile) p.(p_cwd) p.(p_name)
    p.(p_pending_signals) p.(p_sig_handlers).
Definition set_p_sz (x : Z) (p : proc) : proc :=
  mkProc p.(p_state) p.(p_chan) p.(p_killed) p.(p_xstate) p.(p_pid) p.(p_parent) p.(p_kstack)
    x p.(p_pagetable) p.(p_trapframe) p.(p_context) p.(p_ofile) p.(p_cwd) p.(p_name)
    p.(p_pending_signals) p.(p_sig_handlers).
Definition set_p_pagetable (x : Z) (p : proc) : proc :=
  mkProc p.(p_state) p.(p_chan) p.(p_killed) p.(p_xstate) p.(p_pid) p.(p_parent) p.(p_kstack)
    p.(p_sz) x p.(p_trapframe) p.(p_context) p.(p_ofile) p.(p_cwd) p.(p_name)
    p.(p_pending_signals) p.(p_sig_handlers).
Definition set_p_trapframe (x : Z) (p : proc) : proc :=
  mkProc p.(p_state) p.(p_chan) p.(p_killed) p.(p_xstate) p.(p_pid) p.(p_parent) p.(p_kstack)
    p.(p_sz) p.(p_pagetable) x p.(p_context) p.(p_ofile) p.(p_cwd) p.(p_name)
    p.(p_pending_signals) p.(p_sig_handlers).
Definition set_p_context (x : context) (p : proc) : proc :=
  mkProc p.(p_state) p.(p_chan) p.(p_killed) p.(p_xstate) p.(p_pid) p.(p_parent) p.(p_kstack)
    p.(p_sz) p.(p_pagetable) p.(p_trapframe) x p.(p_ofile) p.(p_cwd) p.(p_name)
    p.(p_pending_signals) p.(p_sig_handlers).
Definition set_p_ofile (x : list (option nat)) (p : proc) : proc :=
  mkProc p.(p_state) p.(p_chan) p.(p_killed) p.(p_xstate) p.(p_pid) p.(p_parent) p.(p_kstack)
    p.(p_sz) p.(p_pagetable) p.(p_trapframe) p.(p_context) x p.(p_cwd) p.(p_name)
    p.(p_pending_signals) p.(p_sig_handlers).
Definition set_p_cwd (x : option nat) (p : proc) : proc :=
  mkProc p.(p_state) p.(p_chan) p.(p_killed) p.(p_xstate) p.(p_pid) p.(p_parent) p.(p_kstack)
    p.(p_sz) p.(p_pagetable) p.(p_trapframe) p.(p_context) p.(p_ofile) x p.(p_name)
    p.(p_pending_signals) p.(p_sig_handlers).
Definition set_p_name (x : list Z) (p : proc) : proc :=
  mkProc p.(p_state) p.(p_chan) p.(p_killed) p.(p_xstate) p.(p_pid) p.(p_parent) p.(p_kstack)
    p.(p_sz) p.(p_pagetable) p.(p_trapframe) p.(p_context) p.(p_ofile) p.(p_cwd) x
    p.(p_pending_signals) p.(p_sig_handlers).
Definition set_p_pending_signals (x : Z) (p : proc) : proc :=
  mkProc p.(p_state) p.(p_chan) p.(p_killed) p.(p_xstate) p.(p_pid) p.(p_parent) p.(p_kstack)
    p.(p_sz) p.(p_pagetable) p.(p_trapframe) p.(p_context) p.(p_ofile) p.(p_cwd) p.(p_name) x
    p.(p_sig_handlers).
Definition set_p_sig_handlers (x : list Z) (p : proc) : proc :=
  mkProc p.(p_state) p.(p_chan) p.(p_killed) p.(p_xstate) p.(p_pid) p.(p_parent) p.(p_kstack)
    p.(p_sz) p.(p_pagetable) p.(p_trapframe) p.(p_context) p.(p_ofile) p.(p_cwd) p.(p_name)
    p.(p_pending_signals) x.

(** ** semaphore.h *)

Record semaphore := mkSem {
  sem_value : Z;
  sem_queue : list (option nat);
  sem_head : Z;
  sem_tail : Z;
}.

Definition set_sem_value (x : Z) (m : semaphore) : semaphore :=
  mkSem x m.(sem_queue) m.(sem_head) m.(sem_tail).
Definition set_sem_queue (x : list (option nat)) (m : semaphore) : semaphore :=
  mkSem m.(sem_value) x m.(sem_head) m.(sem_tail).
Definition set_sem_head (x : Z) (m : semaphore) : semaphore :=
  mkSem m.(sem_value) m.(sem_queue) x m.(sem_tail).
Definition set_sem_tail (x : Z) (m : semaphore) : semaphore :=
  mkSem m.(sem_value) m.(sem_queue) m.(sem_head) x.

(** ** shm.h *)

Record shmseg := mkSeg {
  seg_key : Z;
  seg_size : Z;
  seg_addr : Z;
  seg_shmflag : Z;
  seg_refcount : Z;
  seg_id : Z;
  seg_pids : list Z;
}.

Definition set_seg_key (x : Z) (g : shmseg) : shmseg :=
  mkSeg x g.(seg_size) g.(seg_addr) g.(seg_shmflag) g.(seg_refcount) g.(seg_id) g.(seg_pids).
Definition set_seg_size (x : Z) (g : shmseg) : shmseg :=
  mkSeg g.(seg_key) x g.(seg_addr) g.(seg_shmflag) g.(seg_refcount) g.(seg_id) g.(seg_pids).
Definition set_seg_addr (x : Z) (g : shmseg) : shmseg :=
  mkSeg g.(seg_key) g.(seg_size) x g.(seg_shmflag) g.(seg_refcount) g.(seg_id) g.(seg_pids).
Definition set_seg_shmflag (x : Z) (g : shmseg) : shmseg :=
  mkSeg g.(seg_key) g.(seg_size) g.(seg_addr) x g.(seg_refcount) g.(seg_id) g.(seg_pids).
Definition set_seg_refcount (x : Z) (g : shmseg) : shmseg :=
  mkSeg g.(seg_key) g.(seg_size) g.(seg_addr) g.(seg_shmflag) x g.(seg_id) g.(seg_pids).
Definition set_seg_id (x : Z) (g : shmseg) : shmseg :=
  mkSeg g.(seg_key) g.(seg_size) g.(seg_addr) g.(seg_shmflag) g.(seg_refcount) x g.(seg_pids).
Definition set_seg_pids (x : list Z) (g : shmseg) : shmseg :=
  mkSeg g.(seg_key) g.(seg_size) g.(seg_addr) g.(seg_shmflag) g.(seg_refcount) g.(seg_id) x.

(** ** pipe.c *)

Record pipe := mkPipe {
  pi_data : list Z;   (* data[PIPESIZE] *)
  pi_nread : Z;   (* number of bytes read *)
  pi_nwrite : Z;   (* number of bytes written *)
  pi_readopen : Z;   (* read fd is still open *)
  pi_writeopen : Z;   (* write fd is still open *)
}.

Definition set_pi_data (x : list Z) (pi : pipe) : pipe :=
  mkPipe x pi.(pi_nread) pi.(pi_nwrite) pi.(pi_readopen) pi.(pi_writeopen).
Definition set_pi_nread (x : Z) (pi : pipe) : pipe :=
  mkPipe pi.(pi_data) x pi.(pi_nwrite) pi.(pi_readopen) pi.(pi_writeopen).
Definition set_pi_nwrite (x : Z) (pi : pipe) : pipe :=
  mkPipe pi.(pi_data) pi.(pi_nread) x pi.(pi_readopen) pi.(pi_writeopen).
Definition set_pi_readopen (x : Z) (pi : pipe) : pipe :=
  mkPipe pi.(pi_data) pi.(pi_nread) pi.(pi_nwrite) x pi.(pi_writeopen).
Definition set_pi_writeopen (x : Z) (pi : pipe) : pipe :=
  mkPipe pi.(pi_data) pi.(pi_nread) pi.(pi_nwrite) pi.(pi_readopen) x.

(** ** file.h *)

Inductive filetype := FD_NONE | FD_PIPE | FD_INODE | FD_DEVICE.

#[export] Instance filetype_eq_dec : EqDecision filetype.
Proof. solve_decision. Defined.

Record file := mkFile {
  f_type : filetype;
  f_ref : Z;   (* reference count *)
  f_readable : Z;
  f_writable : Z;
  f_pipe : Z;   (* FD_PIPE *)
  f_ip : option nat;   (* FD_INODE and FD_DEVICE *)
  f_off : Z;   (* FD_INODE *)
  f_major : Z;   (* FD_DEVICE *)
}.

Definition set_f_type (x : filetype) (f : file) : file :=
  mkFile x f.(f_ref) f.(f_readable) f.(f_writable) f.(f_pipe) f.(f_ip) f.(f_off) f.(f_major).
Definition set_f_ref (x : Z) (f : file) : file :=
  mkFile f.(f_type) x f.(f_readable) f.(f_writable) f.(f_pipe) f.(f_ip) f.(f_off) f.(f_major).
Definition set_f_readable (x : Z) (f : file) : file :=
  mkFile f.(f_type) f.(f_ref) x f.(f_writable) f.(f_pipe) f.(f_ip) f.(f_off) f.(f_major).
Definition set_f_writable (x : Z) (f : file) : file :=
  mkFile f.(f_type) f.(f_ref) f.(f_readable) x f.(f_pipe) f.(f_ip) f.(f_off) f.(f_major).
Definition set_f_pipe (x : Z) (f : file) : file :=
  mkFile f.(f_type) f.(f_ref) f.(f_readable) f.(f_writable) x f.(f_ip) f.(f_off) f.(f_major).
Definition set_f_ip (x : option nat) (f : file) : file :=
  mkFile f.(f_type) f.(f_ref) f.(f_readable) f.(f_writable) f.(f_pipe) x f.(f_off)
    f.(f_major).
Definition set_f_off (x : Z) (f : file) : file :=
  mkFile f.(f_type) f.(f_ref) f.(f_readable) f.(f_writable) f.(f_pipe) f.(f_ip) x f.(f_major).
Definition set_f_major (x : Z) (f : file) : file :=
  mkFile f.(f_type) f.(f_ref) f.(f_readable) f.(f_writable) f.(f_pipe) f.(f_ip) f.(f_off) x.

(** ** buf.h, sleeplock.h, log.c, fs.h: the file system's state *)

Definition BSIZE : Z := 1024.
Definition MAXOPBLOCKS : Z := 10.
Definition LOGSIZE : Z := MAXOPBLOCKS * 3.
Definition NBUF : nat := 30.
Definition NINODE : nat := 50.
Definition NDIRECT : Z := 12.

(** Long-term locks for processes; [sl_pid] is the process holding the lock. *)
Record sleeplock := mkSleeplock { sl_locked : Z; sl_pid : Z }.

Record buf := mkBuf {
  b_valid : Z;   (* has data been read from disk? *)
  b_dev : Z;
  b_blockno : Z;
  b_refcnt : Z;
  b_data : list Z;   (* data[BSIZE] *)
}.

Definition set_b_valid (x : Z) (b : buf) : buf :=
  mkBuf x b.(b_dev) b.(b_blockno) b.(b_refcnt) b.(b_data).
Definition set_b_dev (x : Z) (b : buf) : buf :=
  mkBuf b.(b_valid) x b.(b_blockno) b.(b_refcnt) b.(b_data).
Definition set_b_blockno (x : Z) (b : buf) : buf :=
  mkBuf b.(b_valid) b.(b_dev) x b.(b_refcnt) b.(b_data).
Definition set_b_refcnt (x : Z) (b : buf) : buf :=
  mkBuf b.(b_valid) b.(b_dev) b.(b_blockno) x b.(b_data).
Definition set_b_data (x : list Z) (b : buf) : buf :=
  mkBuf b.(b_valid) b.(b_dev) b.(b_blockno) b.(b_refcnt) x.

Record logstate := mkLog {
  log_start : Z;
  log_size : Z;
  log_outstanding : Z;   (* how many FS sys calls are executing *)
  log_committing : Z;   (* in commit(), please wait *)
  log_dev : Z;
  lh_n : Z;   (* lh.n *)
  lh_block : list Z;   (* lh.block[LOGSIZE] *)
}.

Definition set_log_start (x : Z) (g : logstate) : logstate :=
  mkLog x g.(log_size) g.(log_outstanding) g.(log_committing) g.(log_dev) g.(lh_n)
    g.(lh_block).
Definition set_log_size (x : Z) (g : logstate) : logstate :=
  mkLog g.(log_start) x g.(log_outstanding) g.(log_committing) g.(log_dev) g.(lh_n)
    g.(lh_block).
Definition set_log_outstanding (x : Z) (g : logstate) : logstate :=
  mkLog g.(log_start) g.(log_size) x g.(log_committing) g.(log_dev) g.(lh_n) g.(lh_block).
Definition set_log_committing (x : Z) (g : logstate) : logstate :=
  mkLog g.(log_start) g.(log_size) g.(log_outstanding) x g.(log_dev) g.(lh_n) g.(lh_block).
Definition set_log_dev (x : Z) (g : logstate) : logstate :=
  mkLog g.(log_start) g.(log_size) g.(log_outstanding) g.(log_committing) x g.(lh_n)
    g.(lh_block).
Definition set_lh_n (x : Z) (g : logstate) : logstate :=
  mkLog g.(log_start) g.(log_size) g.(log_outstanding) g.(log_committing) g.(log_dev) x
    g.(lh_block).
Definition set_lh_block (x : list Z) (g : logstate) : logstate :=
  mkLog g.(log_start) g.(log_size) g.(log_outstanding) g.(log_committing) g.(log_dev) g.(lh_n)
    x.

Record superblock := mkSb {
  sb_magic : Z;   (* must be FSMAGIC *)
  sb_size : Z;   (* size of file system image (blocks) *)
  sb_nblocks : Z;   (* number of data blocks *)
  sb_ninodes : Z;   (* number of inodes *)
  sb_nlog : Z;   (* number of log blocks *)
  sb_logstart : Z;   (* block number of first log block *)
  sb_inodestart : Z;   (* block number of first inode block *)
  sb_bmapstart : Z;   (* block number of first free map block *)
}.

Record inode := mkInode {
  i_dev : Z;   (* device number *)
  i_inum : Z;   (* inode number *)
  i_ref : Z;   (* reference count *)
  i_valid : Z;   (* inode has been read from disk? *)
  i_type : Z;   (* copy of disk inode *)
  i_major : Z;
  i_minor : Z;
  i_nlink : Z;
  i_size : Z;
  i_addrs : list Z;   (* addrs[NDIRECT+1] *)
}.

Definition set_i_dev (x : Z) (ip : inode) : inode :=
  mkInode x ip.(i_inum) ip.(i_ref) ip.(i_valid) ip.(i_type) ip.(i_major) ip.(i_minor)
    ip.(i_nlink) ip.(i_size) ip.(i_addrs).
Definition set_i_inum (x : Z) (ip : inode) : inode :=
  mkInode ip.(i_dev) x ip.(i_ref) ip.(i_valid) ip.(i_type) ip.(i_major) ip.(i_minor)
    ip.(i_nlink) ip.(i_size) ip.(i_addrs).
Definition set_i_ref (x : Z) (ip : inode) : inode :=
  mkInode ip.(i_dev) ip.(i_inum) x ip.(i_valid) ip.(i_type) ip.(i_major) ip.(i_minor)
    ip.(i_nlink) ip.(i_size) ip.(i_addrs).
Definition set_i_valid (x : Z) (ip : inode) : inode :=
  mkInode ip.(i_dev) ip.(i_inum) ip.(i_ref) x ip.(i_type) ip.(i_major) ip.(i_minor)
    ip.(i_nlink) ip.(i_size) ip.(i_addrs).
Definition set_i_type (x : Z) (ip : inode) : inode :=
  mkInode ip.(i_dev) ip.(i_inum) ip.(i_ref) ip.(i_valid) x ip.(i_major) ip.(i_minor)
    ip.(i_nlink) ip.(i_size) ip.(i_addrs).
Definition set_i_major (x : Z) (ip : inode) : inode :=
  mkInode ip.(i_dev) ip.(i_inum) ip.(i_ref) ip.(i_valid) ip.(i_type) x ip.(i_minor)
    ip.(i_nlink) ip.(i_size) ip.(i_addrs).
Definition set_i_minor (x : Z) (ip : inode) : inode :=
  mkInode ip.(i_dev) ip.(i_inum) ip.(i_ref) ip.(i_valid) ip.(i_type) ip.(i_major) x
    ip.(i_nlink) ip.(i_size) ip.(i_addrs).
Definition set_i_nlink (x : Z) (ip : inode) : inode :=
  mkInode ip.(i_dev) ip.(i_inum) ip.(i_ref) ip.(i_valid) ip.(i_type) ip.(i_major) ip.(i_minor)
    x ip.(i_size) ip.(i_addrs).
Definition set_i_size (x : Z) (ip : inode) : inode :=
  mkInode ip.(i_dev) ip.(i_inum) ip.(i_ref) ip.(i_valid) ip.(i_type) ip.(i_major) ip.(i_minor)
    ip.(i_nlink) x ip.(i_addrs).
Definition set_i_addrs (x : list Z) (ip : inode) : inode :=
  mkInode ip.(i_dev) ip.(i_inum) ip.(i_ref) ip.(i_valid) ip.(i_type) ip.(i_major) ip.(i_minor)
    ip.(i_nlink) ip.(i_size) x.

(** ** console.c, uart.c *)

Record console := mkCons {
  cons_buf : list Z;   (* cons.buf[INPUT_BUF_SIZE] *)
  cons_r : Z;   (* read index *)
  cons_w : Z;   (* write index *)
  cons_e : Z;   (* edit index *)
  tx_buf : list Z;   (* uart_tx_buf[UART_TX_BUF_SIZE] *)
  tx_w : Z;   (* uart_tx_w *)
  tx_r : Z;   (* uart_tx_r *)
  dev_in : list Z;   (* the device: input bytes waiting in RHR *)
  dev_out : list Z;   (* the device: bytes written to THR *)
  dev_idle : list bool;   (* the device: the coming readings of LSR_TX_IDLE *)
}.

Definition set_cons_buf (x : list Z) (k : console) : console :=
  mkCons x k.(cons_r) k.(cons_w) k.(cons_e) k.(tx_buf) k.(tx_w) k.(tx_r) k.(dev_in)
    k.(dev_out) k.(dev_idle).
Definition set_cons_r (x : Z) (k : console) : console :=
  mkCons k.(cons_buf) x k.(cons_w) k.(cons_e) k.(tx_buf) k.(tx_w) k.(tx_r) k.(dev_in)
    k.(dev_out) k.(dev_idle).
Definition set_cons_w (x : Z) (k : console) : console :=
  mkCons k.(cons_buf) k.(cons_r) x k.(cons_e) k.(tx_buf) k.(tx_w) k.(tx_r) k.(dev_in)
    k.(dev_out) k.(dev_idle).
Definition set_cons_e (x : Z) (k : console) : console :=
  mkCons k.(cons_buf) k.(cons_r) k.(cons_w) x k.(tx_buf) k.(tx_w) k.(tx_r) k.(dev_in)
    k.(dev_out) k.(dev_idle).
Definition set_tx_buf (x : list Z) (k : console) : console :=
  mkCons k.(cons_buf) k.(cons_r) k.(cons_w) k.(cons_e) x k.(tx_w) k.(tx_r) k.(dev_in)
    k.(dev_out) k.(dev_idle).
Definition set_tx_w (x : Z) (k : console) : console :=
  mkCons k.(cons_buf) k.(cons_r) k.(cons_w) k.(cons_e) k.(tx_buf) x k.(tx_r) k.(dev_in)
    k.(dev_out) k.(dev_idle).
Definition set_tx_r (x : Z) (k : console) : console :=
  mkCons k.(cons_buf) k.(cons_r) k.(cons_w) k.(cons_e) k.(tx_buf) k.(tx_w) x k.(dev_in)
    k.(dev_out) k.(dev_idle).
Definition set_dev_in (x : list Z) (k : console) : console :=
  mkCons k.(cons_buf) k.(cons_r) k.(cons_w) k.(cons_e) k.(tx_buf) k.(tx_w) k.(tx_r) x
    k.(dev_out) k.(dev_idle).
Definition set_dev_out (x : list Z) (k : console) : console :=
  mkCons k.(cons_buf) k.(cons_r) k.(cons_w) k.(cons_e) k.(tx_buf) k.(tx_w) k.(tx_r) k.(dev_in)
    x k.(dev_idle).
Definition set_dev_idle (x : list bool) (k : console) : console :=
  mkCons k.(cons_buf) k.(cons_r) k.(cons_w) k.(cons_e) k.(tx_buf) k.(tx_w) k.(tx_r) k.(dev_in)
    k.(dev_out) x.

(** ** The kernel's globals *)

Record kernel := mkKernel {
  held : gset lockid;   (* the spinlocks this CPU holds *)
  mem : gmap Z Z;   (* physical memory, a byte per address *)
  freelist : Z;   (* kmem.freelist *)
  procs : list proc;   (* the process table proc[NPROC] *)
  cur : option nat;   (* mycpu()->proc, an index of proc[] *)
  nextpid : Z;
  initproc : option nat;
  ticks : Z;
  all_sem : semaphore;   (* the kernel semaphore of semaphore.c *)
  shm_segments : list shmseg;
  pipes : gmap Z pipe;   (* the pipe objects, by address *)
  ftable : list file;   (* ftable.file[NFILE] *)
  disk : gmap Z (list Z);   (* the disk, BSIZE bytes per block *)
  dwrites : list (Z * list Z);   (* history: the blocks written to the disk, oldest first *)
  bufs : list buf;   (* bcache.buf[NBUF] *)
  blru : list nat;   (* the list through next from bcache.head, most recently used first *)
  slocks : gmap slockid sleeplock;   (* the sleep locks of buffers and inodes *)
  log : logstate;   (* struct log of log.c *)
  sb : superblock;   (* the super block *)
  itable : list inode;   (* itable.inode[NINODE] *)
  cons : console;   (* the console and the uart *)
}.

Definition set_held (x : gset lockid) (s : kernel) : kernel :=
  mkKernel x s.(mem) s.(freelist) s.(procs) s.(cur) s.(nextpid) s.(initproc) s.(ticks)
    s.(all_sem) s.(shm_segments) s.(pipes) s.(ftable) s.(disk) s.(dwrites) s.(bufs) s.(blru)
    s.(slocks) s.(log) s.(sb) s.(itable) s.(cons).
Definition set_mem (x : gmap Z Z) (s : kernel) : kernel :=
  mkKernel s.(held) x s.(freelist) s.(procs) s.(cur) s.(nextpid) s.(initproc) s.(ticks)
    s.(all_sem) s.(shm_segments) s.(pipes) s.(ftable) s.(disk) s.(dwrites) s.(bufs) s.(blru)
    s.(slocks) s.(log) s.(sb) s.(itable) s.(cons).
Definition set_freelist (x : Z) (s : kernel) : kernel :=
  mkKernel s.(held) s.(mem) x s.(procs) s.(cur) s.(nextpid) s.(initproc) s.(ticks) s.(all_sem)
    s.(shm_segments) s.(pipes) s.(ftable) s.(disk) s.(dwrites) s.(bufs) s.(blru) s.(slocks)
    s.(log) s.(sb) s.(itable) s.(cons).
Definition set_procs (x : list proc) (s : kernel) : kernel :=
  mkKernel s.(held) s.(mem) s.(freelist) x s.(cur) s.(nextpid) s.(initproc) s.(ticks)
    s.(all_sem) s.(shm_segments) s.(pipes) s.(ftable) s.(disk) s.(dwrites) s.(bufs) s.(blru)
    s.(slocks) s.(log) s.(sb) s.(itable) s.(cons).
Definition set_cur (x : option nat) (s : kernel) : kernel :=
  mkKernel s.(held) s.(mem) s.(freelist) s.(procs) x s.(nextpid) s.(initproc) s.(ticks)
    s.(all_sem) s.(shm_segments) s.(pipes) s.(ftable) s.(disk) s.(dwrites) s.(bufs) s.(blru)
    s.(slocks) s.(log) s.(sb) s.(itable) s.(cons).
Definition set_nextpid (x : Z) (s : kernel) : kernel :=
  mkKernel s.(held) s.(mem) s.(freelist) s.(procs) s.(cur) x s.(initproc) s.(ticks)
    s.(all_sem) s.(shm_segments) s.(pipes) s.(ftable) s.(disk) s.(dwrites) s.(bufs) s.(blru)
    s.(slocks) s.(log) s.(sb) s.(itable) s.(cons).
Definition set_initproc (x : option nat) (s : kernel) : kernel :=
  mkKernel s.(held) s.(mem) s.(freelist) s.(procs) s.(cur) s.(nextpid) x s.(ticks) s.(all_sem)
    s.(shm_segments) s.(pipes) s.(ftable) s.(disk) s.(dwrites) s.(bufs) s.(blru) s.(slocks)
    s.(log) s.(sb) s.(itable) s.(cons).
Definition set_ticks (x : Z) (s : kernel) : kernel :=
  mkKernel s.(held) s.(mem) s.(freelist) s.(procs) s.(cur) s.(nextpid) s.(initproc) x
    s.(all_sem) s.(shm_segments) s.(pipes) s.(ftable) s.(disk) s.(dwrites) s.(bufs) s.(blru)
    s.(slocks) s.(log) s.(sb) s.(itable) s.(cons).
Definition set_all_sem (x : semaphore) (s : kernel) : kernel :=
  mkKernel s.(held) s.(mem) s.(freelist) s.(procs) s.(cur) s.(nextpid) s.(initproc) s.(ticks)
    x s.(shm_segments) s.(pipes) s.(ftable) s.(disk) s.(dwrites) s.(bufs) s.(blru) s.(slocks)
    s.(log) s.(sb) s.(itable) s.(cons).
Definition set_shm_segments (x : list shmseg) (s : kernel) : kernel :=
  mkKernel s.(held) s.(mem) s.(freelist) s.(procs) s.(cur) s.(nextpid) s.(initproc) s.(ticks)
    s.(all_sem) x s.(pipes) s.(ftable) s.(disk) s.(dwrites) s.(bufs) s.(blru) s.(slocks) s.(log)
    s.(sb) s.(itable) s.(cons).
Definition set_pipes (x : gmap Z pipe) (s : kernel) : kernel :=
  mkKernel s.(held) s.(mem) s.(freelist) s.(procs) s.(cur) s.(nextpid) s.(initproc) s.(ticks)
    s.(all_sem) s.(shm_segments) x s.(ftable) s.(disk) s.(dwrites) s.(bufs) s.(blru) s.(slocks)
    s.(log) s.(sb) s.(itable) s.(cons).
Definition set_ftable (x : list file) (s : kernel) : kernel :=
  mkKernel s.(held) s.(mem) s.(freelist) s.(procs) s.(cur) s.(nextpid) s.(initproc) s.(ticks)
    s.(all_sem) s.(shm_segments) s.(pipes) x s.(disk) s.(dwrites) s.(bufs) s.(blru) s.(slocks)
    s.(log) s.(sb) s.(itable) s.(cons).
Definition set_disk (x : gmap Z (list Z)) (s : kernel) : kernel :=
  mkKernel s.(held) s.(mem) s.(freelist) s.(procs) s.(cur) s.(nextpid) s.(initproc) s.(ticks)
    s.(all_sem) s.(shm_segments) s.(pipes) s.(ftable) x s.(dwrites) s.(bufs) s.(blru) s.(slocks)
    s.(log) s.(sb) s.(itable) s.(cons).
Definition set_dwrites (x : list (Z * list Z)) (s : kernel) : kernel :=
  mkKernel s.(held) s.(mem) s.(freelist) s.(procs) s.(cur) s.(nextpid) s.(initproc) s.(ticks)
    s.(all_sem) s.(shm_segments) s.(pipes) s.(ftable) s.(disk) x s.(bufs) s.(blru) s.(slocks)
    s.(log) s.(sb) s.(itable) s.(cons).
Definition set_bufs (x : list buf) (s : kernel) : kernel :=
  mkKernel s.(held) s.(mem) s.(freelist) s.(procs) s.(cur) s.(nextpid) s.(initproc) s.(ticks)
    s.(all_sem) s.(shm_segments) s.(pipes) s.(ftable) s.(disk) s.(dwrites) x s.(blru) s.(slocks)
    s.(log) s.(sb) s.(itable) s.(cons).
Definition set_blru (x : list nat) (s : kernel) : kernel :=
  mkKernel s.(held) s.(mem) s.(freelist) s.(procs) s.(cur) s.(nextpid) s.(initproc) s.(ticks)
    s.(all_sem) s.(shm_segments) s.(pipes) s.(ftable) s.(disk) s.(dwrites) s.(bufs) x s.(slocks)
    s.(log) s.(sb) s.(itable) s.(cons).
Definition set_slocks (x : gmap slockid sleeplock) (s : kernel) : kernel :=
  mkKernel s.(held) s.(mem) s.(freelist) s.(procs) s.(cur) s.(nextpid) s.(initproc) s.(ticks)
    s.(all_sem) s.(shm_segments) s.(pipes) s.(ftable) s.(disk) s.(dwrites) s.(bufs) s.(blru) x
    s.(log) s.(sb) s.(itable) s.(cons).
Definition set_log (x : logstate) (s : kernel) : kernel :=
  mkKernel s.(held) s.(mem) s.(freelist) s.(procs) s.(cur) s.(nextpid) s.(initproc) s.(ticks)
    s.(all_sem) s.(shm_segments) s.(pipes) s.(ftable) s.(disk) s.(dwrites) s.(bufs) s.(blru)
    s.(slocks) x s.(sb) s.(itable) s.(cons).
Definition set_sb (x : superblock) (s : kernel) : kernel :=
  mkKernel s.(held) s.(mem) s.(freelist) s.(procs) s.(cur) s.(nextpid) s.(initproc) s.(ticks)
    s.(all_sem) s.(shm_segments) s.(pipes) s.(ftable) s.(disk) s.(dwrites) s.(bufs) s.(blru)
    s.(slocks) s.(log) x s.(itable) s.(cons).
Definition set_itable (x : list inode) (s : kernel) : kernel :=
  mkKernel s.(held) s.(mem) s.(freelist) s.(procs) s.(cur) s.(nextpid) s.(initproc) s.(ticks)
    s.(all_sem) s.(shm_segments) s.(pipes) s.(ftable) s.(disk) s.(dwrites) s.(bufs) s.(blru)
    s.(slocks) s.(log) s.(sb) x s.(cons).
Definition set_cons (x : console) (s : kernel) : kernel :=
  mkKernel s.(held) s.(mem) s.(freelist) s.(procs) s.(cur) s.(nextpid) s.(initproc) s.(ticks)
    s.(all_sem) s.(shm_segments) s.(pipes) s.(ftable) s.(disk) s.(dwrites) s.(bufs) s.(blru)
    s.(slocks) s.(log) s.(sb) s.(itable) x.

(** Equality of kernel states, field by field. *)
Ltac kstate :=
  repeat match goal with s : kernel |- _ => destruct s end;
  cbv [set_held set_mem set_freelist set_procs set_cur set_nextpid set_initproc set_ticks
       set_all_sem set_shm_segments set_pipes set_ftable set_disk set_dwrites set_bufs
       set_blru set_slocks set_log set_sb set_itable set_cons held mem freelist procs cur
       nextpid initproc ticks all_sem shm_segments pipes ftable disk dwrites bufs blru
       slocks log sb itable cons];
  try reflexivity.

(** ** Spinlocks as the kernel code uses them *)

(** The lock is free afterwards. *)
Definition initlock (l : lockid) : M kernel unit := modify (fun s => set_held (s.(held) ∖ {[l]}) s).

Definition acquire (l : lockid) : M kernel unit := fun s =>
  if decide (l ∈ s.(held)) then Panic "acquire"
  else Ok tt (set_held ({[l]} ∪ s.(held)) s).

Definition release (l : lockid) : M kernel unit := fun s =>
  if decide (l ∈ s.(held)) then Ok tt (set_held (s.(held) ∖ {[l]}) s)
  else Panic "release".

Lemma acquire_Ok l s :
  l ∉ s.(held) -> acquire l s = Ok tt (set_held ({[l]} ∪ s.(held)) s).
Proof. intros. unfold acquire. by rewrite decide_False. Qed.

Lemma release_Ok l s :
  l ∈ s.(held) -> release l s = Ok tt (set_held (s.(held) ∖ {[l]}) s).
Proof. intros. unfold release. by rewrite decide_True. Qed.

Lemma held_drop (l : lockid) (H : gset lockid) : l ∉ H -> ({[l]} ∪ H) ∖ {[l]} = H.
Proof. intros. apply set_eq. intros x. set_solver. Qed.

Lemma set_held_held (s : kernel) : set_held s.(held) s = s.
Proof. by destruct s. Qed.

Lemma set_held_twice x y (s : kernel) : set_held x (set_held y s) = set_held x s.
Proof. done. Qed.

Lemma initlock_Ok l s : l ∉ s.(held) -> initlock l s = Ok tt s.
Proof.
  intros Hl. unfold initlock, modify. f_equal. replace (s.(held) ∖ {[l]}) with s.(held); [apply set_held_held |].
  apply set_eq. intros x. set_solver.
Qed.

(** A critical section whose body keeps the set of held locks: the lock is free
    again afterwards and only the body's effect remains. *)
Lemma critical_section {A} l (body : M kernel A) Q s :
  l ∉ s.(held) ->
  wp body (fun a s' => s'.(held) = {[l]} ∪ s.(held) /\ Q a (set_held s.(held) s'))
    (set_held ({[l]} ∪ s.(held)) s) ->
  wp (acquire l;; a ← body; release l;; mret a) Q s.
Proof.
  intros Hl Hb. apply wp_bind. eapply wp_Ok; [by apply acquire_Ok |].
  apply wp_bind. eapply wp_mono; [exact Hb |]. intros a s' [Hh HQ].
  apply wp_bind. eapply wp_Ok; [apply release_Ok; set_solver |].
  apply wp_ret. by rewrite Hh, held_drop.
Qed.

(** ** The process table *)

(** [proc[i]] and an update of it. *)
Definition get_proc (i : nat) : M kernel proc := fun s =>
  match s.(procs) !! i with Some p => Ok p s | None => Panic "proc" end.

Definition upd_proc (i : nat) (f : proc -> proc) : M kernel unit :=
  modify (fun s => set_procs (alter f i s.(procs)) s).

(** myproc() where the code goes on to dereference the result. *)
Definition myproc : M kernel nat := fun s =>
  match s.(cur) with Some i => Ok i s | None => Panic "null proc" end.

(** ** Frames *)

(** [s'] differs from [s] in memory and the free list only. *)
Definition only_mem (s s' : kernel) : Prop := s' = set_mem s'.(mem) (set_freelist s'.(freelist) s).

Lemma only_mem_refl (s : kernel) : only_mem s s.
Proof. unfold only_mem. by kstate. Qed.
Lemma only_mem_trans s1 s2 s3 : only_mem s1 s2 -> only_mem s2 s3 -> only_mem s1 s3.
Proof. unfold only_mem. intros H1 ->. rewrite H1. by kstate. Qed.
Lemma only_mem_set s m : only_mem s (set_mem m s).
Proof. unfold only_mem. by kstate. Qed.
Lemma only_mem_held s s' : only_mem s s' -> s'.(held) = s.(held).
Proof. unfold only_mem. intros ->. done. Qed.
