(* ===== verification/Spinlock.v ===== *)
(** * Spinlocks (kernel/spinlock.c)

    The lock word, the per-CPU interrupt state and [push_off]/[pop_off] in full
    detail.  Three groups of results:
    - interrupt nesting: matched [push_off]/[pop_off] restore the interrupt flag;
    - mutual exclusion, for any number of CPUs whose accesses to the lock words
      interleave one memory operation at a time;
    - refinement: the code implements the set-of-held-locks view of [State]. *)

From stdpp Require Import functions.
From Stdlib Require FunctionalExtensionality.
From S2P Require Import Prelude State.

Module Spinlock.

(** struct cpu (the fields spinlock.c uses) and the SIE bit of sstatus. *)
Record cpu := mkCpu { noff : Z; intena : bool; sie : bool }.

(** struct spinlock *)
Record spinlock := mkLock { locked : Z; name : string; lcpu : option nat }.

Record machine := mkMachine { cpus : nat -> cpu; locks : lockid -> spinlock }.

Definition set_cpu (c : nat) (f : cpu -> cpu) : M machine unit :=
  modify (fun s => mkMachine (<[c := f (cpus s c)]> (cpus s)) (locks s)).
Definition set_lock (l : lockid) (f : spinlock -> spinlock) : M machine unit :=
  modify (fun s => mkMachine (cpus s) (<[l := f (locks s l)]> (locks s))).

Definition initlock (l : lockid) (nm : string) : M machine unit :=
  set_lock l (fun _ => mkLock 0 nm None).

(** riscv.h: the SIE bit *)
Definition intr_get (c : nat) : M machine bool := gets (fun s => sie (cpus s c)).
Definition intr_off (c : nat) : M machine unit :=
  set_cpu c (fun x => mkCpu (noff x) (intena x) false).
Definition intr_on (c : nat) : M machine unit :=
  set_cpu c (fun x => mkCpu (noff x) (intena x) true).

Definition push_off (c : nat) : M machine unit :=
  old ← intr_get c;
  intr_off c;;
  n ← gets (fun s => noff (cpus s c));
  when (n =? 0) (set_cpu c (fun x => mkCpu (noff x) old (sie x)));;
  set_cpu c (fun x => mkCpu (noff x + 1) (intena x) (sie x)).

Definition pop_off (c : nat) : M machine unit :=
  i ← intr_get c;
  if (i : bool) then panic "pop_off - interruptible" else
  n ← gets (fun s => noff (cpus s c));
  if n <? 1 then panic "pop_off" else
  set_cpu c (fun x => mkCpu (noff x - 1) (intena x) (sie x));;
  x ← gets (fun s => cpus s c);
  when ((noff x =? 0) && intena x) (intr_on c).

Definition holding (c : nat) (l : lockid) : M machine bool :=
  lk ← gets (fun s => locks s l);
  mret (negb (locked lk =? 0) && bool_decide (lcpu lk = Some c)).

(** __sync_lock_test_and_set(&lk->locked, 1): an atomic swap. *)
Definition test_and_set (l : lockid) : M machine Z :=
  old ← gets (fun s => locked (locks s l));
  set_lock l (fun k => mkLock 1 (name k) (lcpu k));;
  mret old.

(** while(__sync_lock_test_and_set(&lk->locked, 1) != 0) ; *)
Fixpoint spin (fuel : nat) (l : lockid) : M machine unit :=
  match fuel with
  | O => fun _ => Timeout
  | S fuel' => old ← test_and_set l; if old =? 0 then mret tt else spin fuel' l
  end.

Definition acquire (fuel : nat) (c : nat) (l : lockid) : M machine unit :=
  push_off c;;
  h ← holding c l;
  if (h : bool) then panic "acquire" else
  spin fuel l;;
  set_lock l (fun k => mkLock (locked k) (name k) (Some c)).

Definition release (c : nat) (l : lockid) : M machine unit :=
  h ← holding c l;
  if negb h then panic "release" else
  set_lock l (fun k => mkLock (locked k) (name k) None);;
  set_lock l (fun k => mkLock 0 (name k) (lcpu k));;
  pop_off c.

(** ** Effect of push_off and pop_off *)

(** A CPU's interrupt state is consistent: no interrupts inside a section. *)
Definition cpu_ok (x : cpu) : Prop := 0 <= noff x /\ (0 < noff x -> sie x = false).

Definition pushed (x : cpu) : cpu :=
  mkCpu (noff x + 1) (if noff x =? 0 then sie x else intena x) false.

Definition popped (x : cpu) : cpu :=
  mkCpu (noff x - 1) (intena x) ((noff x =? 1) && intena x).

Lemma push_off_eq c s :
  push_off c s = Ok tt (mkMachine (<[c := pushed (cpus s c)]> (cpus s)) (locks s)).
Proof.
  unfold push_off, intr_get, intr_off, set_cpu, gets, modify, when, mbind, M_bind, pushed; simpl.
  rewrite !fn_lookup_insert; simpl.
  destruct (noff (cpus s c) =? 0) eqn:E; simpl; rewrite !fn_lookup_insert; simpl;
    unfold insert, fn_insert; do 2 f_equal; apply FunctionalExtensionality.functional_extensionality;
    intros k; by repeat case_decide.
Qed.

Lemma pop_off_eq c s :
  sie (cpus s c) = false -> 1 <= noff (cpus s c) ->
  pop_off c s = Ok tt (mkMachine (<[c := popped (cpus s c)]> (cpus s)) (locks s)).
Proof.
  intros Hs Hn.
  unfold pop_off, intr_get, intr_on, set_cpu, gets, modify, when, mbind, M_bind, popped; simpl.
  rewrite Hs. destruct (Z.ltb_spec (noff (cpus s c)) 1); [lia |]. simpl.
  rewrite !fn_lookup_insert; simpl.
  replace (noff (cpus s c) - 1 =? 0) with (noff (cpus s c) =? 1) by (repeat case_Z; lia).
  destruct ((noff (cpus s c) =? 1) && intena (cpus s c)) eqn:E; simpl;
    rewrite ?fn_lookup_insert, ?Hs; simpl; try done.
  unfold insert, fn_insert; do 2 f_equal; apply FunctionalExtensionality.functional_extensionality;
    intros k; by repeat case_decide.
Qed.

(** [n] nested sections entered, then [k] of them left. *)
Fixpoint pushes (n : nat) (c : nat) : M machine unit :=
  match n with O => mret tt | S n' => push_off c;; pushes n' c end.
Fixpoint pops (n : nat) (c : nat) : M machine unit :=
  match n with O => mret tt | S n' => pop_off c;; pops n' c end.

Definition only_cpu (c : nat) (s s' : machine) : Prop :=
  locks s' = locks s /\ forall c', c' <> c -> cpus s' c' = cpus s c'.

Lemma only_cpu_step c s s1 s2 : only_cpu c s s1 -> only_cpu c s1 s2 -> only_cpu c s s2.
Proof. intros [? E1] [? E2]. split; [congruence |]. intros c' ?. by rewrite E2, E1. Qed.

Lemma only_cpu_insert c x s : only_cpu c s (mkMachine (<[c := x]> (cpus s)) (locks s)).
Proof. split; [done |]. intros c' ?. by apply fn_lookup_insert_ne. Qed.

Lemma pushes_spec c n : forall s,
  cpu_ok (cpus s c) ->
  wp (pushes n c) (fun _ s' =>
      noff (cpus s' c) = noff (cpus s c) + Z.of_nat n /\
      intena (cpus s' c) = (if (noff (cpus s c) =? 0) && (0 <? Z.of_nat n)
                            then sie (cpus s c) else intena (cpus s c)) /\
      sie (cpus s' c) = (if 0 <? Z.of_nat n then false else sie (cpus s c)) /\
      only_cpu c s s') s.
Proof.
  induction n as [|n IH]; intros s [H0 H1].
  - apply wp_ret. rewrite andb_false_r. by split_and!; [lia | | |].
  - simpl pushes. apply wp_bind. eapply wp_Ok; [apply push_off_eq |].
    set (s1 := mkMachine _ _).
    assert (cpus s1 c = pushed (cpus s c)) as E1 by apply fn_lookup_insert.
    eapply wp_mono; [apply IH; rewrite E1; split; simpl; [lia | done] |].
    intros [] s' (En & Ei & Es & Ho). rewrite E1 in *; simpl in *.
    replace (noff (cpus s c) + 1 =? 0) with false in Ei by (case_Z; lia). simpl in Ei.
    replace (0 <? Z.of_nat (S n)) with true by (case_Z; lia). rewrite andb_true_r.
    split_and!; [lia | done | by destruct (0 <? Z.of_nat n) |].
    eapply only_cpu_step; [apply only_cpu_insert | exact Ho].
Qed.

Lemma pops_spec c n : forall s,
  sie (cpus s c) = false -> Z.of_nat n <= noff (cpus s c) ->
  wp (pops n c) (fun _ s' =>
      noff (cpus s' c) = noff (cpus s c) - Z.of_nat n /\
      sie (cpus s' c) = (0 <? Z.of_nat n) && (noff (cpus s c) =? Z.of_nat n) && intena (cpus s c) /\
      only_cpu c s s') s.
Proof.
  induction n as [|n IH]; intros s Hs Hn.
  - apply wp_ret. by split_and!; [lia | |].
  - simpl pops. apply wp_bind. eapply wp_Ok; [apply pop_off_eq; [done | lia] |].
    set (s1 := mkMachine _ _).
    assert (cpus s1 c = popped (cpus s c)) as E1 by apply fn_lookup_insert.
    replace (0 <? Z.of_nat (S n)) with true by (case_Z; lia).
    destruct n as [|n].
    + apply wp_ret. rewrite E1; simpl. split_and!; [lia | done | apply only_cpu_insert].
    + assert (sie (cpus s1 c) = false) as Hs1.
      { rewrite E1; simpl. replace (noff (cpus s c) =? 1) with false; [done | case_Z; lia]. }
      eapply wp_mono; [apply IH; [done | rewrite E1; simpl; lia] |].
      intros [] s' (En & Es & Ho). rewrite E1 in *; simpl in *.
      split_and!; [lia | | eapply only_cpu_step; [apply only_cpu_insert | exact Ho]].
      rewrite Es. f_equal. repeat case_Z; simpl; lia.
Qed.

(** Matched nesting: after [n] push_off()s and [k <= n] pop_off()s the depth is
    [n - k] above the start, interrupts are off as long as a section is open,
    and once all are closed the interrupt flag is what it was before. *)
Theorem push_pop_nesting (c n k : nat) (s : machine) :
  cpu_ok (cpus s c) -> (1 <= n)%nat -> (k <= n)%nat ->
  wp (pushes n c;; pops k c) (fun _ s' =>
      noff (cpus s' c) = noff (cpus s c) + Z.of_nat n - Z.of_nat k /\
      sie (cpus s' c) = (if decide (k = n) then sie (cpus s c) else false) /\
      locks s' = locks s /\ (forall c', c' <> c -> cpus s' c' = cpus s c')) s.
Proof.
  intros [H0 H1] Hn Hk. apply wp_bind. eapply wp_mono; [by apply pushes_spec |].
  intros [] s1 (En & Ei & Es & Ho).
  replace (0 <? Z.of_nat n) with true in * by (case_Z; lia).
  eapply wp_mono; [apply pops_spec; [done | lia] |].
  intros [] s2 (En2 & Es2 & Ho2). pose proof (only_cpu_step _ _ _ _ Ho Ho2) as [? ?].
  split_and!; [lia | | done | done].
  rewrite Es2, Ei, En, andb_true_r. destruct (sie (cpus s c)), (intena (cpus s c));
    case_decide; repeat case_Z; simpl; try done; try lia; discriminate H1; lia.
Qed.

(** ** Interleaved execution

    Each CPU runs kernel code that acquires and releases locks.  A step is the
    work of one CPU up to and including one access to a lock word that other
    CPUs can see; steps of different CPUs interleave freely. *)

(** Where a CPU is inside acquire()/release(). *)
Inductive pc :=
| Run                    (* outside acquire() and release() *)
| Spin (l : lockid)      (* in the test-and-set loop *)
| Got (l : lockid)       (* the swap returned 0, lk->cpu not yet set *)
| Unlock (l : lockid)    (* lk->cpu cleared, lk->locked not yet *)
| Pop                    (* lock word released, before pop_off() *)
| Dead.                  (* panic() *)

(** [hold c] records the acquire()s of [c] that have completed and whose
    release() has not begun. *)
Record mp := mkMp { mach : machine; pcs : nat -> pc; hold : nat -> gset lockid }.

Definition at_pc (c : nat) (p : pc) (s : mp) (m : machine) (h : gset lockid) : mp :=
  mkMp m (<[c := p]> (pcs s)) (<[c := h]> (hold s)).

Inductive step (s : mp) : mp -> Prop :=
| step_acquire c l m : pcs s c = Run ->
    (push_off c;; holding c l) (mach s) = Ok false m ->
    step s (at_pc c (Spin l) s m (hold s c))
| step_acquire_panic c l m : pcs s c = Run ->
    (push_off c;; holding c l) (mach s) = Ok true m ->
    step s (at_pc c Dead s m (hold s c))
| step_spin c l old m : pcs s c = Spin l -> test_and_set l (mach s) = Ok old m ->
    step s (at_pc c (if old =? 0 then Got l else Spin l) s m (hold s c))
| step_set_cpu c l m : pcs s c = Got l ->
    set_lock l (fun k => mkLock (locked k) (name k) (Some c)) (mach s) = Ok tt m ->
    step s (at_pc c Run s m ({[l]} ∪ hold s c))
| step_release c l m : pcs s c = Run -> holding c l (mach s) = Ok true (mach s) ->
    set_lock l (fun k => mkLock (locked k) (name k) None) (mach s) = Ok tt m ->
    step s (at_pc c (Unlock l) s m (hold s c ∖ {[l]}))
| step_release_panic c l : pcs s c = Run -> holding c l (mach s) = Ok false (mach s) ->
    step s (at_pc c Dead s (mach s) (hold s c))
| step_unlock c l m : pcs s c = Unlock l ->
    set_lock l (fun k => mkLock 0 (name k) (lcpu k)) (mach s) = Ok tt m ->
    step s (at_pc c Pop s m (hold s c))
| step_pop c m : pcs s c = Pop -> pop_off c (mach s) = Ok tt m ->
    step s (at_pc c Run s m (hold s c))
| step_pop_panic c msg : pcs s c = Pop -> pop_off c (mach s) = Panic msg ->
    step s (at_pc c Dead s (mach s) (hold s c)).

(** All locks initialised by initlock(), no CPU in a section. *)
Definition initial (s : mp) : Prop :=
  (forall c, pcs s c = Run /\ hold s c = ∅ /\ noff (cpus (mach s) c) = 0) /\
  (forall l, locked (locks (mach s) l) = 0 /\ lcpu (locks (mach s) l) = None).

(** The lock is [c]'s from the successful swap to the store that frees it. *)
Definition owns (s : mp) (c : nat) (l : lockid) : Prop :=
  l ∈ hold s c \/ pcs s c = Got l \/ pcs s c = Unlock l.

Definition pending (p : pc) : Z :=
  match p with Run | Dead => 0 | _ => 1 end.

Record inv (s : mp) : Prop := {
  inv_excl c c' l : owns s c l -> owns s c' l -> c = c';
  inv_free c l : owns s c l -> locked (locks (mach s) l) <> 0;
  inv_hold c l : l ∈ hold s c <-> lcpu (locks (mach s) l) = Some c;
  inv_mid c l : pcs s c = Got l \/ pcs s c = Unlock l -> l ∉ hold s c;
  inv_noff c : pcs s c <> Dead ->
    noff (cpus (mach s) c) = Z.of_nat (size (hold s c)) + pending (pcs s c);
  inv_sie c : cpu_ok (cpus (mach s) c);
}.

Lemma holding_eq c l m :
  holding c l m = Ok (negb (locked (locks m l) =? 0) && bool_decide (lcpu (locks m l) = Some c)) m.
Proof. done. Qed.

Lemma inv_initial s : initial s -> inv s.
Proof.
  intros [Hc Hl]. constructor.
  - intros c c' l [H|[H|H]]; destruct (Hc c) as (E1 & E2 & E3); rewrite ?E1, ?E2 in H; set_solver.
  - intros c l [H|[H|H]]; destruct (Hc c) as (E1 & E2 & E3); rewrite ?E1, ?E2 in H; set_solver.
  - intros c l. destruct (Hc c) as (_ & -> & _), (Hl l) as [_ ->]. set_solver.
  - intros c l _. destruct (Hc c) as (_ & -> & _). set_solver.
  - intros c _. destruct (Hc c) as (-> & -> & ->). done.
  - intros c. destruct (Hc c) as (_ & _ & E). unfold cpu_ok. rewrite E. lia.
Qed.

Lemma owns_at_pc c c' p s m h l :
  owns (at_pc c p s m h) c' l <->
  if decide (c = c') then l ∈ h \/ p = Got l \/ p = Unlock l else owns s c' l.
Proof.
  unfold owns, at_pc; simpl. case_decide as E.
  - subst. by rewrite !fn_lookup_insert.
  - by rewrite !fn_lookup_insert_ne by done.
Qed.

(** What a step of CPU [c] has to establish for the invariant to be kept. *)
Lemma inv_at_pc c p s m h :
  inv s ->
  (forall c', c' <> c -> cpus m c' = cpus (mach s) c') -> cpu_ok (cpus m c) ->
  (p <> Dead -> noff (cpus m c) = Z.of_nat (size h) + pending p) ->
  (forall l, l ∈ h \/ p = Got l \/ p = Unlock l ->
     locked (locks m l) <> 0 /\ (owns s c l \/ locked (locks (mach s) l) = 0)) ->
  (forall c' l, c' <> c -> owns s c' l -> locked (locks m l) <> 0) ->
  (forall l, l ∈ h <-> lcpu (locks m l) = Some c) ->
  (forall c' l, c' <> c -> lcpu (locks m l) = Some c' <-> lcpu (locks (mach s) l) = Some c') ->
  (forall l, p = Got l \/ p = Unlock l -> l ∉ h) ->
  inv (at_pc c p s m h).
Proof.
  intros [Iex Ifr Iho Imi Ino Isi] Hcpu Hok Hn Hown Hoth Hh Hlc Hmid. constructor.
  - intros c1 c2 l. rewrite !owns_at_pc. repeat case_decide; subst; try done.
    + intros H1 H2. destruct (Hown l H1) as [_ [?|?]]; [by eapply Iex | by destruct (Ifr _ _ H2)].
    + intros H1 H2. destruct (Hown l H2) as [_ [?|?]]; [by eapply Iex | by destruct (Ifr _ _ H1)].
    + apply Iex.
  - intros c' l. rewrite owns_at_pc. case_decide; subst; [apply Hown | by apply Hoth].
  - intros c' l. unfold at_pc; simpl. destruct (decide (c = c')) as [<-|].
    + by rewrite fn_lookup_insert.
    + rewrite fn_lookup_insert_ne by done. rewrite Hlc by done. apply Iho.
  - intros c' l. unfold at_pc; simpl. destruct (decide (c = c')) as [<-|].
    + rewrite !fn_lookup_insert. apply Hmid.
    + rewrite !fn_lookup_insert_ne by done. apply Imi.
  - intros c'. unfold at_pc; simpl. destruct (decide (c = c')) as [<-|].
    + rewrite !fn_lookup_insert. apply Hn.
    + rewrite !fn_lookup_insert_ne by done. rewrite Hcpu by done. apply Ino.
  - intros c'. unfold at_pc; simpl. destruct (decide (c = c')) as [<-|]; [done |].
    rewrite Hcpu by done. apply Isi.
Qed.

Lemma pushed_ok x : cpu_ok x -> cpu_ok (pushed x).
Proof. intros [? ?]. split; simpl; [lia | done]. Qed.

Lemma popped_ok x : 1 <= noff x -> cpu_ok (popped x).
Proof. intros ?. split; simpl; [lia |]. destruct (Z.eqb_spec (noff x) 1); simpl; [lia | done]. Qed.

(** acquire() up to the spin loop touches only the CPU's own state. *)
Lemma push_holding_inv c l m b m' :
  (push_off c;; holding c l) m = Ok b m' ->
  m' = mkMachine (<[c := pushed (cpus m c)]> (cpus m)) (locks m) /\
  b = negb (locked (locks m l) =? 0) && bool_decide (lcpu (locks m l) = Some c).
Proof. erewrite bind_Ok by apply push_off_eq. rewrite holding_eq. naive_solver. Qed.

Lemma inv_push c p s :
  inv s -> pcs s c = Run -> (p = Dead \/ exists l, p = Spin l) ->
  inv (at_pc c p s (mkMachine (<[c := pushed (cpus (mach s) c)]> (cpus (mach s))) (locks (mach s)))
         (hold s c)).
Proof.
  intros I Hpc Hp. pose proof I as [Iex Ifr Iho Imi Ino Isi].
  apply inv_at_pc; simpl; try done.
  - intros c' ?. by apply fn_lookup_insert_ne.
  - rewrite fn_lookup_insert. by apply pushed_ok.
  - intros Hd. rewrite fn_lookup_insert. simpl. rewrite Ino, Hpc by (by rewrite Hpc).
    destruct Hp as [->|[l ->]]; [done | simpl; lia].
  - intros l [H|H]; [|destruct Hp as [->|[? ->]]; naive_solver].
    split; [apply (Ifr c); by left | by left; left].
  - intros c' l _ H. by apply (Ifr c').
  - intros l [H|H]; destruct Hp as [->|[? ->]]; naive_solver.
Qed.

(** A step that rewrites the word of one lock and nothing else of the machine. *)
Lemma inv_lock c p s l f h :
  inv s -> let m := mkMachine (cpus (mach s)) (<[l := f (locks (mach s) l)]> (locks (mach s))) in
  (p <> Dead -> noff (cpus (mach s) c) = Z.of_nat (size h) + pending p) ->
  (forall l', l' ∈ h \/ p = Got l' \/ p = Unlock l' ->
     locked (locks m l') <> 0 /\ (owns s c l' \/ locked (locks (mach s) l') = 0)) ->
  (forall c', c' <> c -> owns s c' l -> locked (f (locks (mach s) l)) <> 0) ->
  (forall l', l' ∈ h <-> lcpu (locks m l') = Some c) ->
  (forall c', c' <> c -> lcpu (f (locks (mach s) l)) = Some c' <-> lcpu (locks (mach s) l) = Some c') ->
  (forall l', p = Got l' \/ p = Unlock l' -> l' ∉ h) ->
  inv (at_pc c p s m h).
Proof.
  intros I m Hn Hown Hoth Hh Hlc Hmid. pose proof I as [_ Ifr _ _ _ Isi].
  apply inv_at_pc; try done.
  - apply Isi.
  - intros c' l' Hc Ho. simpl. destruct (decide (l = l')) as [<-|].
    + rewrite fn_lookup_insert. eauto.
    + rewrite fn_lookup_insert_ne by done. by apply (Ifr c').
  - intros c' l' Hc. simpl. destruct (decide (l = l')) as [<-|].
    + rewrite fn_lookup_insert. auto.
    + by rewrite fn_lookup_insert_ne by done.
Qed.

Lemma inv_spin c l s :
  inv s -> pcs s c = Spin l ->
  let old := locked (locks (mach s) l) in
  inv (at_pc c (if old =? 0 then Got l else Spin l) s
         (mkMachine (cpus (mach s))
            (<[l := mkLock 1 (name (locks (mach s) l)) (lcpu (locks (mach s) l))]> (locks (mach s))))
         (hold s c)).
Proof.
  intros I Hpc old. pose proof I as [Iex Ifr Iho Imi Ino Isi].
  assert (forall k, lcpu (<[l := mkLock 1 (name (locks (mach s) l)) (lcpu (locks (mach s) l))]>
            (locks (mach s)) k) = lcpu (locks (mach s) k)) as Elc.
  { intros k. destruct (decide (l = k)) as [<-|].
    - by rewrite fn_lookup_insert.
    - by rewrite fn_lookup_insert_ne by done. }
  assert (forall k, locked (locks (mach s) k) <> 0 \/ k = l ->
    locked (<[l := mkLock 1 (name (locks (mach s) l)) (lcpu (locks (mach s) l))]>
            (locks (mach s)) k) <> 0) as Elk.
  { intros k Hk. destruct (decide (l = k)) as [<-|].
    - by rewrite fn_lookup_insert.
    - rewrite fn_lookup_insert_ne by done. naive_solver. }
  apply (inv_lock c _ s l (fun k => mkLock 1 (name k) (lcpu k))); simpl; try done.
  - intros _. rewrite Ino by (by rewrite Hpc). rewrite Hpc. by destruct (old =? 0).
  - intros l' [H|H].
    + split; [apply Elk; left; apply (Ifr c); by left | by left; left].
    + destruct (Z.eqb_spec old 0); [|naive_solver].
      destruct H; simplify_eq. split; [apply Elk; by right | by right].
  - intros l'. rewrite Elc. apply Iho.
  - intros l' H Hin. destruct (Z.eqb_spec old 0); [|naive_solver].
    destruct H; simplify_eq. destruct (Ifr c l'); [by left | done].
Qed.

Lemma inv_set_cpu c l s :
  inv s -> pcs s c = Got l ->
  inv (at_pc c Run s
         (mkMachine (cpus (mach s))
            (<[l := mkLock (locked (locks (mach s) l)) (name (locks (mach s) l)) (Some c)]> (locks (mach s))))
         ({[l]} ∪ hold s c)).
Proof.
  intros I H. pose proof I as [Iex Ifr Iho Imi Ino Isi].
  apply (inv_lock c _ s l (fun k => mkLock (locked k) (name k) (Some c))); simpl; try done.
  - intros _. rewrite Ino by (by rewrite H). rewrite H. simpl.
    rewrite size_union, size_singleton; [lia |]. specialize (Imi c l). set_solver.
  - intros l' [Hl|[|]]; [|done..]. destruct (decide (l = l')) as [<-|].
    + rewrite fn_lookup_insert. split; [apply (Ifr c); right; by left | left; right; by left].
    + rewrite fn_lookup_insert_ne by done. assert (l' ∈ hold s c) by set_solver.
      split; [apply (Ifr c); by left | by left; left].
  - intros c' Hc Ho. by apply (Ifr c').
  - intros l'. destruct (decide (l = l')) as [<-|].
    + rewrite fn_lookup_insert. set_solver.
    + rewrite fn_lookup_insert_ne by done. rewrite <- Iho. set_solver.
  - intros c' Hc. split; [naive_solver |]. intros E. apply Iho in E.
    destruct Hc. eapply Iex; [by left | right; by left].
  - naive_solver.
Qed.

Lemma inv_clear_cpu c l s :
  inv s -> pcs s c = Run -> lcpu (locks (mach s) l) = Some c ->
  inv (at_pc c (Unlock l) s
         (mkMachine (cpus (mach s))
            (<[l := mkLock (locked (locks (mach s) l)) (name (locks (mach s) l)) None]> (locks (mach s))))
         (hold s c ∖ {[l]})).
Proof.
  intros I H Hh. pose proof I as [Iex Ifr Iho Imi Ino Isi].
  assert (l ∈ hold s c) as Hin by (by apply Iho).
  apply (inv_lock c _ s l (fun k => mkLock (locked k) (name k) None)); simpl; try done.
  - intros _. rewrite Ino by (by rewrite H). rewrite H. simpl.
    rewrite size_difference, size_singleton by set_solver.
    assert (size (hold s c) <> 0)%nat by (intros E; apply size_empty_inv in E; set_solver). lia.
  - intros l' Hl. destruct (decide (l = l')) as [<-|].
    + rewrite fn_lookup_insert. split; [apply (Ifr c); by left | by left; left].
    + rewrite fn_lookup_insert_ne by done. assert (l' ∈ hold s c) by set_solver.
      split; [apply (Ifr c); by left | by left; left].
  - intros c' Hc Ho. by apply (Ifr c').
  - intros l'. destruct (decide (l = l')) as [<-|].
    + rewrite fn_lookup_insert. set_solver.
    + rewrite fn_lookup_insert_ne by done. rewrite <- Iho. set_solver.
  - intros c' Hc. split; [done |]. intros E. congruence.
  - intros l' [|]; [done |]. set_solver.
Qed.

Lemma inv_unlock c l s :
  inv s -> pcs s c = Unlock l ->
  inv (at_pc c Pop s
         (mkMachine (cpus (mach s))
            (<[l := mkLock 0 (name (locks (mach s) l)) (lcpu (locks (mach s) l))]> (locks (mach s))))
         (hold s c)).
Proof.
  intros I H. pose proof I as [Iex Ifr Iho Imi Ino Isi].
  assert (forall c', owns s c' l -> c' = c) as Hu
    by (intros c' Ho; eapply Iex; [exact Ho | right; by right]).
  apply (inv_lock c _ s l (fun k => mkLock 0 (name k) (lcpu k))); simpl; try done.
  - intros _. rewrite Ino by (by rewrite H). by rewrite H.
  - intros l' [Hl|[|]]; [|done..]. rewrite fn_lookup_insert_ne.
    + split; [apply (Ifr c); by left | by left; left].
    + intros <-. eapply Imi; [right; exact H | exact Hl].
  - intros c' Hc Ho. by destruct Hc; apply Hu.
  - intros l'. destruct (decide (l = l')) as [<-|].
    + rewrite fn_lookup_insert. apply Iho.
    + rewrite fn_lookup_insert_ne by done. apply Iho.
  - naive_solver.
Qed.

(** A step that leaves the lock words alone. *)
Lemma inv_cpu c p x s :
  inv s -> (p = Run \/ p = Dead) -> cpu_ok x ->
  (p <> Dead -> noff x = Z.of_nat (size (hold s c))) ->
  inv (at_pc c p s (mkMachine (<[c := x]> (cpus (mach s))) (locks (mach s))) (hold s c)).
Proof.
  intros I Hp Hx Hn. pose proof I as [Iex Ifr Iho Imi Ino Isi].
  apply inv_at_pc; simpl; try done.
  - intros c' ?. by apply fn_lookup_insert_ne.
  - by rewrite fn_lookup_insert.
  - intros Hd. rewrite fn_lookup_insert. rewrite Hn by done. destruct Hp as [->| ->]; [simpl; lia | done].
  - intros l [Hl|[|]]; [|naive_solver..]. split; [apply (Ifr c); by left | by left; left].
  - intros c' l _ Ho. by apply (Ifr c').
  - naive_solver.
Qed.

Lemma fn_insert_id {A B} `{EqDecision A} (f : A -> B) a : <[a := f a]> f = f.
Proof.
  apply FunctionalExtensionality.functional_extensionality. intros b. unfold insert, fn_insert.
  case_decide; by subst.
Qed.

(** pop_off() at the end of release() finds a section to close. *)
Lemma inv_pop_ready c s :
  inv s -> pcs s c = Pop ->
  sie (cpus (mach s) c) = false /\ noff (cpus (mach s) c) = Z.of_nat (size (hold s c)) + 1.
Proof.
  intros [_ _ _ _ Ino Isi] H.
  assert (noff (cpus (mach s) c) = Z.of_nat (size (hold s c)) + 1) as En
    by (rewrite Ino by (by rewrite H); by rewrite H).
  split; [apply Isi; lia | done].
Qed.

Lemma inv_step s s' : inv s -> step s s' -> inv s'.
Proof.
  intros I Hst. destruct Hst as
    [c l m H E|c l m H E|c l old m H E|c l m H E|c l m H E0 E|c l H E|c l m H E|c m H E|c msg H E].
  - apply push_holding_inv in E as [-> _]. apply inv_push; eauto.
  - apply push_holding_inv in E as [-> _]. apply inv_push; eauto.
  - injection E as <- <-. by apply inv_spin.
  - injection E as <-. by apply inv_set_cpu.
  - injection E as <-. rewrite holding_eq in E0. injection E0 as Hh.
    apply andb_true_iff in Hh as [_ Hh%bool_decide_eq_true_1]. by apply inv_clear_cpu.
  - assert (mach s = mkMachine (<[c := cpus (mach s) c]> (cpus (mach s))) (locks (mach s))) as ->
      by (rewrite fn_insert_id; by destruct (mach s)).
    apply inv_cpu; auto; [apply (inv_sie s I) | done].
  - injection E as <-. by apply inv_unlock.
  - destruct (inv_pop_ready c s I H) as [Hs Hn].
    rewrite pop_off_eq in E by (done || lia). injection E as <-.
    apply inv_cpu; auto; [apply popped_ok; lia | simpl; lia].
  - destruct (inv_pop_ready c s I H) as [Hs Hn]. rewrite pop_off_eq in E by (done || lia). done.
Qed.

Lemma inv_reachable s s' : initial s -> rtc step s s' -> inv s'.
Proof.
  intros Hi%inv_initial Hr. induction Hr; eauto using inv_step.
Qed.

(** C1. Mutual exclusion: in every state reachable from freshly initialised locks,
    no two CPUs own the same lock, a CPU that owns a lock runs with interrupts
    off, and pop_off() at the end of release() never panics. *)
Theorem mutual_exclusion (s s' : mp) :
  initial s -> rtc step s s' ->
  (forall c1 c2 l, owns s' c1 l -> owns s' c2 l -> c1 = c2) /\
  (forall c l, owns s' c l -> pcs s' c <> Dead -> sie (cpus (mach s') c) = false) /\
  (forall c, pcs s' c = Pop -> exists m, pop_off c (mach s') = Ok tt m).
Proof.
  intros Hi Hr. pose proof (inv_reachable _ _ Hi Hr) as I.
  pose proof I as [Iex Ifr Iho Imi Ino Isi]. split_and!; [apply Iex | |].
  - intros c l Ho Hd. apply Isi. rewrite Ino by done. destruct Ho as [Ho|[Ho|Ho]].
    + assert (size (hold s' c) <> 0)%nat by (intros E; apply size_empty_inv in E; set_solver).
      destruct (pcs s' c); simpl; lia.
    + rewrite Ho; simpl; lia.
    + rewrite Ho; simpl; lia.
  - intros c Hp. destruct (inv_pop_ready c s' I Hp). eexists. apply pop_off_eq; [done | lia].
Qed.

(** ** Refinement: the set-of-held-locks view *)

(** CPU [c] of machine [m] holds exactly the locks [H]. *)
Record abs (c : nat) (m : machine) (H : gset lockid) : Prop := {
  abs_held l : l ∈ H <-> locked (locks m l) <> 0 /\ lcpu (locks m l) = Some c;
  abs_noff : noff (cpus m c) = Z.of_nat (size H);
  abs_sie : cpu_ok (cpus m c);
}.

Lemma abs_holding c m H l :
  abs c m H -> holding c l m = Ok (bool_decide (l ∈ H)) m.
Proof.
  intros [Hh _ _]. rewrite holding_eq. f_equal. specialize (Hh l).
  destruct (Z.eqb_spec (locked (locks m l)) 0); simpl; repeat case_bool_decide; naive_solver.
Qed.

Lemma abs_pushed c m H l :
  abs c m H ->
  holding c l (mkMachine (<[c := pushed (cpus m c)]> (cpus m)) (locks m)) =
  Ok (bool_decide (l ∈ H)) (mkMachine (<[c := pushed (cpus m c)]> (cpus m)) (locks m)).
Proof. intros A. pose proof (abs_holding c m H l A) as E. rewrite holding_eq in *. simpl. by injection E as ->. Qed.

(** A lock word held by another CPU is never obtained. *)
Lemma spin_held fuel l m :
  locked (locks m l) <> 0 -> spin fuel l m = Timeout.
Proof.
  revert m. induction fuel as [|fuel IH]; intros m Hl; [done |]. simpl.
  unfold test_and_set, set_lock, gets, modify, mbind, M_bind. simpl.
  case_Z; [done |]. apply IH. simpl. by rewrite fn_lookup_insert.
Qed.

Lemma acquire_abs c m H l fuel :
  abs c m H -> l ∉ H -> locked (locks m l) = 0 ->
  exists m', acquire (S fuel) c l m = Ok tt m' /\ abs c m' ({[l]} ∪ H).
Proof.
  intros A Hl Hf. pose proof A as [Hh Hn Hs]. unfold acquire.
  erewrite bind_Ok by apply push_off_eq. erewrite bind_Ok by (by apply (abs_pushed c m H)).
  rewrite bool_decide_eq_false_2 by done.
  unfold spin, test_and_set, set_lock, gets, modify, mbind, M_bind. simpl. rewrite Hf. simpl.
  eexists. split; [done |]. constructor; simpl.
  - intros l'. destruct (decide (l = l')) as [<-|Hne].
    + rewrite !fn_lookup_insert. set_solver.
    + rewrite !fn_lookup_insert_ne by done. rewrite <- Hh. set_solver.
  - rewrite fn_lookup_insert. simpl. rewrite size_union, size_singleton by set_solver. lia.
  - rewrite fn_lookup_insert. by apply pushed_ok.
Qed.

Lemma release_abs c m H l :
  abs c m H -> l ∈ H -> exists m', release c l m = Ok tt m' /\ abs c m' (H ∖ {[l]}) /\ locked (locks m' l) = 0.
Proof.
  intros A Hl. pose proof A as [Hh Hn Hs]. unfold release.
  erewrite bind_Ok by (by apply abs_holding). rewrite bool_decide_eq_true_2 by done. simpl.
  assert (size H <> 0)%nat by (intros E; apply size_empty_inv in E; set_solver).
  unfold set_lock, modify, mbind, M_bind. simpl.
  assert (sie (cpus m c) = false) as Hsie by (apply Hs; lia).
  rewrite pop_off_eq by (simpl; done || lia). simpl.
  eexists. split; [done |]. split; [constructor; simpl |].
  - intros l'. destruct (decide (l = l')) as [<-|Hne].
    + rewrite !fn_lookup_insert. set_solver.
    + rewrite !fn_lookup_insert_ne by done. set_solver.
  - rewrite fn_lookup_insert. simpl. rewrite size_difference, size_singleton by set_solver. lia.
  - rewrite fn_lookup_insert. apply popped_ok. lia.
  - simpl. by rewrite !fn_lookup_insert.
Qed.

(** Refinement: run on a CPU that holds the locks [held k], the code of acquire()
    panics exactly when the abstract acquire does, otherwise takes a free lock and
    leads to related states, and spins for ever on a lock another CPU holds. *)
Theorem acquire_refines (c : nat) (m : machine) (k : kernel) (l : lockid) (fuel : nat) :
  abs c m (held k) ->
  match State.acquire l k with
  | Ok _ k' =>
      if locked (locks m l) =? 0
      then exists m', acquire (S fuel) c l m = Ok tt m' /\ abs c m' (held k')
      else acquire fuel c l m = Timeout
  | o => o = Panic "acquire" /\ acquire fuel c l m = Panic "acquire"
  end.
Proof.
  intros A. unfold State.acquire. case_decide as Hl.
  - split; [done |]. unfold acquire. erewrite bind_Ok by apply push_off_eq.
    erewrite bind_Ok by (by apply (abs_pushed c m (held k))). by rewrite bool_decide_eq_true_2.
  - case_Z; [by apply acquire_abs |].
    unfold acquire. erewrite bind_Ok by apply push_off_eq.
    erewrite bind_Ok by (by apply (abs_pushed c m (held k))). rewrite bool_decide_eq_false_2 by done.
    unfold mbind, M_bind. by rewrite spin_held.
Qed.

(** Refinement: release() panics exactly when the CPU does not hold the lock, and
    otherwise frees the lock word and leads to related states. *)
Theorem release_refines (c : nat) (m : machine) (k : kernel) (l : lockid) :
  abs c m (held k) ->
  match State.release l k with
  | Ok _ k' => exists m', release c l m = Ok tt m' /\ abs c m' (held k') /\ locked (locks m' l) = 0
  | o => o = Panic "release" /\ release c l m = Panic "release"
  end.
Proof.
  intros A. unfold State.release. case_decide as Hl; [by apply release_abs |].
  split; [done |]. unfold release. erewrite bind_Ok by (by apply abs_holding).
  by rewrite bool_decide_eq_false_2.
Qed.
End Spinlock.
