(* ===== verification/Mem.v ===== *)
(** * Byte memory and the string routines (kernel/string.c)

    Physical memory is a finite map from addresses to bytes; an address without
    an entry reads as 0 and every cell reads as its low eight bits, so a read is
    total and yields a byte whatever the memory is.  Multi-byte words are little
    endian, as on RISC-V. *)

From S2P Require Import Prelude.

Definition load8 (m : gmap Z Z) (a : Z) : Z := u8 (default 0 (m !! a)).
Definition store8 (m : gmap Z Z) (a v : Z) : gmap Z Z := <[a := u8 v]> m.

(** [n]-byte little-endian words *)
Fixpoint load_le (n : nat) (m : gmap Z Z) (a : Z) : Z :=
  match n with O => 0 | S n' => load8 m a + 256 * load_le n' m (a + 1) end.
Fixpoint store_le (n : nat) (m : gmap Z Z) (a v : Z) : gmap Z Z :=
  match n with O => m | S n' => store_le n' (store8 m a v) (a + 1) (v / 256) end.

Definition load64 (m : gmap Z Z) (a : Z) : Z := load_le 8 m a.
Definition store64 (m : gmap Z Z) (a v : Z) : gmap Z Z := store_le 8 m a v.

(** The little-endian bytes of an integer object. *)
Fixpoint le_bytes (n : nat) (v : Z) : list Z :=
  match n with O => [] | S n' => u8 v :: le_bytes n' (v / 256) end.

(** ** kernel/string.c *)

(** for(i = 0; i < n; i++) cdst[i] = c; *)
Fixpoint memset_loop (n : nat) (m : gmap Z Z) (cdst i c : Z) : gmap Z Z :=
  match n with O => m | S n' => memset_loop n' (store8 m (cdst + i) c) cdst (i + 1) c end.
Definition memset (m : gmap Z Z) (dst c n : Z) : gmap Z Z :=
  memset_loop (Z.to_nat n) m dst 0 c.

Fixpoint memcmp_loop (n : nat) (m : gmap Z Z) (s1 s2 : Z) : Z :=
  match n with
  | O => 0
  | S n' => if load8 m s1 =? load8 m s2 then memcmp_loop n' m (s1 + 1) (s2 + 1)
            else load8 m s1 - load8 m s2
  end.
Definition memcmp (m : gmap Z Z) (v1 v2 n : Z) : Z := memcmp_loop (Z.to_nat n) m v1 v2.

(** while(n-- > 0) *--d = *--s; *)
Fixpoint move_back (n : nat) (m : gmap Z Z) (d s : Z) : gmap Z Z :=
  match n with
  | O => m
  | S n' => move_back n' (store8 m (d - 1) (load8 m (s - 1))) (d - 1) (s - 1)
  end.
(** while(n-- > 0) *d++ = *s++; *)
Fixpoint move_fwd (n : nat) (m : gmap Z Z) (d s : Z) : gmap Z Z :=
  match n with
  | O => m
  | S n' => move_fwd n' (store8 m d (load8 m s)) (d + 1) (s + 1)
  end.
Definition memmove (m : gmap Z Z) (dst src n : Z) : gmap Z Z :=
  if n =? 0 then m
  else if (src <? dst) && (dst <? src + n)
       then move_back (Z.to_nat n) m (dst + n) (src + n)
       else move_fwd (Z.to_nat n) m dst src.

Definition memcpy (m : gmap Z Z) (dst src n : Z) : gmap Z Z := memmove m dst src n.

(** while(n > 0 && *p && *p == *q) n--, p++, q++; *)
Fixpoint strncmp (m : gmap Z Z) (p q : Z) (n : nat) : Z :=
  match n with
  | O => 0
  | S n' =>
      if negb (load8 m p =? 0) && (load8 m p =? load8 m q)
      then strncmp m (p + 1) (q + 1) n'
      else load8 m p - load8 m q
  end.

(** while(n-- > 0 && ( *s++ = *t++) != 0) ;  yields s and the n left over *)
Fixpoint strncpy_copy (n : nat) (m : gmap Z Z) (s t : Z) : gmap Z Z * Z * nat :=
  match n with
  | O => (m, s, O)
  | S n' =>
      let m' := store8 m s (load8 m t) in
      if load8 m t =? 0 then (m', s + 1, n') else strncpy_copy n' m' (s + 1) (t + 1)
  end.
Definition strncpy (m : gmap Z Z) (s t n : Z) : gmap Z Z :=
  let '(m', s', n') := strncpy_copy (Z.to_nat n) m s t in
  memset_loop n' m' s' 0 0.

Definition safestrcpy (m : gmap Z Z) (s t n : Z) : gmap Z Z :=
  if n <=? 0 then m
  else let '(m', s', _) := strncpy_copy (Z.to_nat (n - 1)) m s t in store8 m' s' 0.

(** for(n = 0; s[n]; n++) ;  [None]: no NUL within [fuel] bytes *)
Fixpoint strlen_loop (fuel : nat) (m : gmap Z Z) (s n : Z) : option Z :=
  match fuel with
  | O => None
  | S fuel' => if load8 m (s + n) =? 0 then Some n else strlen_loop fuel' m s (n + 1)
  end.
Definition strlen (fuel : nat) (m : gmap Z Z) (s : Z) : option Z := strlen_loop fuel m s 0.

Arguments load64 : simpl never.
Arguments store64 : simpl never.
Arguments memset : simpl never.
Arguments memmove : simpl never.

(** ** Lemmas: bytes and words *)

Lemma u8_idemp v : u8 (u8 v) = u8 v.
Proof. unfold u8. by rewrite Z.mod_mod. Qed.

Lemma load8_range m a : 0 <= load8 m a < 256.
Proof. apply u8_range. Qed.

Lemma load8_store8 m a v b : load8 (store8 m a v) b = if decide (a = b) then u8 v else load8 m b.
Proof.
  unfold load8, store8. rewrite lookup_insert. case_decide; [|done]. simpl. apply u8_idemp.
Qed.
Lemma load8_store8_eq m a v : load8 (store8 m a v) a = u8 v.
Proof. rewrite load8_store8. by rewrite decide_True. Qed.
Lemma load8_store8_ne m a v b : a <> b -> load8 (store8 m a v) b = load8 m b.
Proof. intros. rewrite load8_store8. by rewrite decide_False. Qed.

Lemma load_le_ext n m m' : forall a,
  (forall i, 0 <= i < Z.of_nat n -> load8 m' (a + i) = load8 m (a + i)) ->
  load_le n m' a = load_le n m a.
Proof.
  induction n as [|n IH]; intros a H; simpl; [done |]. f_equal.
  - specialize (H 0). rewrite Z.add_0_r in H. apply H. lia.
  - f_equal. apply IH. intros i Hi. replace (a + 1 + i) with (a + (1 + i)) by lia. apply H. lia.
Qed.

Lemma load_le_range n m : forall a, 0 <= load_le n m a < 256 ^ Z.of_nat n.
Proof.
  induction n as [|n IH]; intros a; simpl load_le; [simpl; lia |].
  replace (Z.of_nat (S n)) with (1 + Z.of_nat n) by lia. rewrite Z.pow_add_r by lia.
  pose proof (load8_range m a). specialize (IH (a + 1)). lia.
Qed.

Lemma load64_range m a : 0 <= load64 m a < 2 ^ 64.
Proof. pose proof (load_le_range 8 m a). unfold load64. lia. Qed.

Lemma load8_store_le n : forall m a v b,
  load8 (store_le n m a v) b =
  if decide (a <= b < a + Z.of_nat n) then u8 (v / 256 ^ (b - a)) else load8 m b.
Proof.
  induction n as [|n IH]; intros m a v b; simpl store_le.
  - by rewrite decide_False by lia.
  - rewrite IH. destruct (decide (a = b)) as [<-|Hne].
    + rewrite decide_False by lia. rewrite decide_True by lia. rewrite load8_store8_eq.
      rewrite Z.sub_diag. by rewrite Z.div_1_r.
    + rewrite load8_store8_ne by done. repeat case_decide; try lia.
      rewrite Z.div_div by lia. do 2 f_equal. rewrite <- Z.pow_succ_r by lia. f_equal. lia.
Qed.

Lemma load_store_le n : forall m a v, load_le n (store_le n m a v) a = v mod 256 ^ Z.of_nat n.
Proof.
  induction n as [|n IH]; intros m a v; simpl load_le; simpl store_le.
  - by rewrite Z.mod_1_r.
  - rewrite IH. rewrite load8_store_le, decide_False by lia. rewrite load8_store8_eq.
    replace (Z.of_nat (S n)) with (1 + Z.of_nat n) by lia. rewrite Z.pow_add_r by lia.
    change (256 ^ 1) with 256. rewrite Z.rem_mul_r by lia. done.
Qed.

Lemma load64_store64_eq m a v : load64 (store64 m a v) a = u64 v.
Proof. apply load_store_le. Qed.

Lemma load64_store64_ne m a v b : a + 8 <= b \/ b + 8 <= a -> load64 (store64 m a v) b = load64 m b.
Proof.
  intros H. apply load_le_ext. intros i Hi. unfold store64. rewrite load8_store_le.
  by rewrite decide_False by lia.
Qed.

Lemma load8_store64_ne m a v b : b < a \/ a + 8 <= b -> load8 (store64 m a v) b = load8 m b.
Proof. intros H. unfold store64. rewrite load8_store_le. by rewrite decide_False by lia. Qed.

Lemma load64_ext m m' a :
  (forall i, 0 <= i < 8 -> load8 m' (a + i) = load8 m (a + i)) -> load64 m' a = load64 m a.
Proof. apply (load_le_ext 8). Qed.

(** Two memories agree on a range. *)
Definition agree (m m' : gmap Z Z) (lo hi : Z) : Prop :=
  forall a, lo <= a < hi -> load8 m' a = load8 m a.

Lemma load64_agree m m' lo hi a : agree m m' lo hi -> lo <= a -> a + 8 <= hi -> load64 m' a = load64 m a.
Proof. intros H ? ?. apply load_le_ext. intros i Hi. apply H. lia. Qed.

(** ** Specifications of the string routines *)

Lemma load8_memset_loop n : forall m d i c b,
  load8 (memset_loop n m d i c) b =
  if decide (d + i <= b < d + i + Z.of_nat n) then u8 c else load8 m b.
Proof.
  induction n as [|n IH]; intros m d i c b; simpl.
  - by rewrite decide_False by lia.
  - rewrite IH, load8_store8. repeat case_decide; try lia.
Qed.

Lemma load8_memset m dst c n b :
  load8 (memset m dst c n) b = if decide (dst <= b < dst + n) then u8 c else load8 m b.
Proof. unfold memset. rewrite load8_memset_loop. repeat case_decide; try lia. Qed.

Lemma load64_memset0 m dst n a : dst <= a -> a + 8 <= dst + n -> load64 (memset m dst 0 n) a = 0.
Proof.
  intros H1 H2. unfold load64, load_le. rewrite !load8_memset.
  by rewrite !decide_True by lia.
Qed.

Lemma load64_memset_ne m dst c n a :
  0 <= n -> a + 8 <= dst \/ dst + n <= a -> load64 (memset m dst c n) a = load64 m a.
Proof.
  intros Hn H. apply load_le_ext. intros i Hi. rewrite load8_memset. by rewrite decide_False by lia.
Qed.

Lemma load8_move_fwd n : forall m d s b,
  (d <= s \/ s + Z.of_nat n <= d) ->
  load8 (move_fwd n m d s) b =
  if decide (d <= b < d + Z.of_nat n) then load8 m (s + (b - d)) else load8 m b.
Proof.
  induction n as [|n IH]; intros m d s b H; simpl.
  - by rewrite decide_False by lia.
  - rewrite IH by lia. destruct (decide (d = b)) as [<-|Hne].
    + rewrite decide_False by lia. rewrite decide_True by lia.
      rewrite load8_store8_eq. replace (s + (d - d)) with s by lia. apply u8_idemp.
    + rewrite (load8_store8_ne m d _ b) by done. repeat case_decide; try lia.
      rewrite load8_store8_ne by lia. f_equal. lia.
Qed.

Lemma load8_move_back n : forall m d s b,
  (s <= d \/ d <= s - Z.of_nat n) ->
  load8 (move_back n m d s) b =
  if decide (d - Z.of_nat n <= b < d) then load8 m (s + (b - d)) else load8 m b.
Proof.
  induction n as [|n IH]; intros m d s b H; simpl.
  - by rewrite decide_False by lia.
  - rewrite IH by lia. destruct (decide (d - 1 = b)) as [<-|Hne].
    + rewrite decide_False by lia. rewrite decide_True by lia.
      rewrite load8_store8_eq. replace (s + (d - 1 - d)) with (s - 1) by lia. apply u8_idemp.
    + rewrite (load8_store8_ne m (d - 1) _ b) by done. repeat case_decide; try lia.
      rewrite load8_store8_ne by lia. f_equal. lia.
Qed.

Lemma load8_memmove m dst src n b :
  0 <= n ->
  load8 (memmove m dst src n) b =
  if decide (dst <= b < dst + n) then load8 m (src + (b - dst)) else load8 m b.
Proof.
  intros Hn. unfold memmove. case_Z; [by rewrite decide_False by lia |].
  destruct (Z.ltb_spec src dst), (Z.ltb_spec dst (src + n)); simpl;
    rewrite ?load8_move_back, ?load8_move_fwd by lia; repeat case_decide; try lia; f_equal; lia.
Qed.

Lemma memcmp_loop_spec m n : forall s1 s2,
  (memcmp_loop n m s1 s2 = 0 /\ forall i, 0 <= i < Z.of_nat n -> load8 m (s1 + i) = load8 m (s2 + i)) \/
  (exists k, 0 <= k < Z.of_nat n /\ (forall i, 0 <= i < k -> load8 m (s1 + i) = load8 m (s2 + i)) /\
     load8 m (s1 + k) <> load8 m (s2 + k) /\
     memcmp_loop n m s1 s2 = load8 m (s1 + k) - load8 m (s2 + k)).
Proof.
  induction n as [|n IH]; intros s1 s2; simpl; [left; split; [done | lia] |].
  destruct (Z.eqb_spec (load8 m s1) (load8 m s2)) as [E|E].
  - destruct (IH (s1 + 1) (s2 + 1)) as [[H0 Heq]|(k & Hk & Heq & Hne & Hr)].
    + left. split; [done |]. intros i Hi. destruct (decide (i = 0)) as [->|].
      * by rewrite !Z.add_0_r.
      * replace (s1 + i) with (s1 + 1 + (i - 1)) by lia.
        replace (s2 + i) with (s2 + 1 + (i - 1)) by lia. apply Heq. lia.
    + right. exists (k + 1). replace (s1 + (k + 1)) with (s1 + 1 + k) by lia.
      replace (s2 + (k + 1)) with (s2 + 1 + k) by lia. split_and!; [lia | lia | | done | done].
      intros i Hi. destruct (decide (i = 0)) as [->|]; [by rewrite !Z.add_0_r |].
      replace (s1 + i) with (s1 + 1 + (i - 1)) by lia.
      replace (s2 + i) with (s2 + 1 + (i - 1)) by lia. apply Heq. lia.
  - right. exists 0. rewrite !Z.add_0_r. split_and!; [lia | lia | lia | done | done].
Qed.

(** The copy loop of strncpy() and safestrcpy(): it copies [k] bytes, stopping
    after a NUL or when the count runs out. *)
Lemma strncpy_copy_spec n : forall m s t m' s' n',
  strncpy_copy n m s t = (m', s', n') ->
  s + Z.of_nat n <= t \/ t + Z.of_nat n <= s ->
  exists k : nat, (n = k + n')%nat /\ s' = s + Z.of_nat k /\
    (forall b, load8 m' b = if decide (s <= b < s + Z.of_nat k) then load8 m (t + (b - s)) else load8 m b) /\
    (forall i, 0 <= i < Z.of_nat k - 1 -> load8 m (t + i) <> 0) /\
    ((n' = 0%nat /\ forall i, 0 <= i < Z.of_nat k -> load8 m (t + i) <> 0) \/
     ((1 <= k)%nat /\ load8 m (t + (Z.of_nat k - 1)) = 0)).
Proof.
  induction n as [|n IH]; intros m s t m' s' n' E Hd; simpl in E.
  - simplify_eq. exists 0%nat. split_and!; [done | lia | | lia | left; split; [done | lia]].
    intros b. by rewrite decide_False by lia.
  - destruct (Z.eqb_spec (load8 m t) 0) as [E0|E0].
    + simplify_eq. exists 1%nat. split_and!; [done | lia | | lia |].
      * intros b. rewrite load8_store8. repeat case_decide; try lia.
        subst. replace (t + (b - b)) with t by lia. apply u8_idemp.
      * right. split; [lia |]. replace (t + (Z.of_nat 1 - 1)) with t by lia. done.
    + apply IH in E as (k & Hn & Hs & Hm & Hnz & Hend); [|lia].
      assert (forall i, 0 <= i < Z.of_nat n -> load8 (store8 m s (load8 m t)) (t + 1 + i) = load8 m (t + (i + 1)))
        as Hne by (intros i Hi; rewrite load8_store8_ne by lia; f_equal; lia).
      assert (forall j, (j <= S n)%nat -> (forall i, 0 <= i < Z.of_nat j - 1 -> load8 (store8 m s (load8 m t)) (t + 1 + i) <> 0) ->
        forall i, 0 <= i < Z.of_nat j -> load8 m (t + i) <> 0) as Hsh.
      { intros j Hj H i Hi. destruct (decide (i = 0)) as [->|]; [by rewrite Z.add_0_r |].
        replace (t + i) with (t + (i - 1 + 1)) by lia. rewrite <- Hne by lia. apply H. lia. }
      exists (S k). split_and!; [lia | lia | | |].
      * intros b. rewrite Hm. destruct (decide (s = b)) as [<-|].
        -- rewrite decide_False by lia. rewrite decide_True by lia. rewrite load8_store8_eq.
           replace (t + (s - s)) with t by lia. apply u8_idemp.
        -- rewrite (load8_store8_ne m s _ b) by done. repeat case_decide; try lia.
           replace (t + 1 + (b - (s + 1))) with (t + 1 + (b - s - 1)) by lia.
           rewrite Hne by lia. f_equal. lia.
      * intros i Hi. apply (Hsh k); [lia | done | lia].
      * destruct Hend as [[-> H]|[Hk H]].
        -- left. split; [done |]. apply (Hsh (S k)); [lia |]. intros i Hi. apply H. lia.
        -- right. split; [lia |]. rewrite Hne in H by lia. rewrite <- H. f_equal. lia.
Qed.

(** safestrcpy() into a buffer of [n > 0] bytes that does not overlap the source
    leaves a NUL-terminated prefix of the source string (the whole string when it
    fits) and writes nothing outside the buffer. *)
Theorem safestrcpy_spec m s t n :
  0 < n -> s + n <= t \/ t + n <= s ->
  let m' := safestrcpy m s t n in
  exists k, 0 <= k < n /\
    (forall i, 0 <= i < k -> load8 m' (s + i) = load8 m (t + i) /\ load8 m (t + i) <> 0) /\
    load8 m' (s + k) = 0 /\ (k = n - 1 \/ load8 m (t + k) = 0) /\
    (forall b, b < s \/ s + n <= b -> load8 m' b = load8 m b).
Proof.
  intros Hn Hd m'. subst m'. unfold safestrcpy. destruct (Z.leb_spec n 0); [lia |].
  destruct (strncpy_copy (Z.to_nat (n - 1)) m s t) as [[m1 s1] n1] eqn:E.
  apply strncpy_copy_spec in E as (k & Hk & -> & Hm & Hnz & Hend); [|lia].
  assert (forall b, load8 (store8 m1 (s + Z.of_nat k) 0) b =
    if decide (s <= b < s + Z.of_nat k) then load8 m (t + (b - s))
    else if decide (b = s + Z.of_nat k) then 0 else load8 m b) as Hl.
  { intros b. rewrite load8_store8, Hm. repeat case_decide; try lia; done. }
  destruct Hend as [[-> Hz]|[Hk1 Hz]].
  - exists (Z.of_nat k). split_and!; [lia | lia | | | left; lia |].
    + intros i Hi. split; [|by apply Hz]. rewrite Hl, decide_True by lia. f_equal. lia.
    + rewrite Hl, decide_False, decide_True by lia. done.
    + intros b Hb. rewrite Hl, !decide_False by lia. done.
  - exists (Z.of_nat k - 1). split_and!; [lia | lia | | | by right |].
    + intros i Hi. split; [|by apply Hnz]. rewrite Hl, decide_True by lia. f_equal. lia.
    + rewrite Hl, decide_True by lia. by replace (s + (Z.of_nat k - 1) - s) with (Z.of_nat k - 1) by lia.
    + intros b Hb. rewrite Hl, !decide_False by lia. done.
Qed.

(** strlen() of a string whose first NUL is at offset [n]. *)
Lemma strlen_loop_spec m s n : forall fuel i,
  0 <= i <= n -> load8 m (s + n) = 0 -> (forall j, i <= j < n -> load8 m (s + j) <> 0) ->
  n - i < Z.of_nat fuel -> strlen_loop fuel m s i = Some n.
Proof.
  induction fuel as [|fuel IH]; intros i Hi H0 Hnz Hf; [lia |]. simpl.
  destruct (decide (i = n)) as [->|].
  - by rewrite H0.
  - case_Z; [by destruct (Hnz i); [lia |] |]. apply IH; try lia. intros j Hj. apply Hnz. lia.
Qed.

(** Conversion compares calls of these by their arguments. *)
#[global] Opaque memset memmove store64 load64.
