(* ===== verification/Bytes.v ===== *)
(** * Byte buffers

    Disk blocks, on-disk structures and user buffers are lists of bytes.  Reads and
    writes at an offset, and the little-endian integers stored there. *)

From S2P Require Import Prelude Mem.

(** [n] bytes from offset [off] on, and the bytes [bs] written there.  In range these
    are memmove() out of and into the buffer. *)
Definition get_bytes (d : list Z) (off n : Z) : list Z := take (Z.to_nat n) (drop (Z.to_nat off) d).
Definition put_bytes (d : list Z) (off : Z) (bs : list Z) : list Z :=
  take (Z.to_nat off) d ++ bs ++ drop (Z.to_nat off + length bs) d.

Fixpoint le_value (bs : list Z) : Z :=
  match bs with [] => 0 | b :: r => u8 b + 256 * le_value r end.

(** The string in a char array: the bytes before the first NUL. *)
Fixpoint cstr (s : list Z) : list Z := match s with [] => [] | c :: s' => if c =? 0 then [] else c :: cstr s' end.

(** Signed 16-bit integers (short). *)
Definition s16 (z : Z) : Z := (z + 2 ^ 15) mod 2 ^ 16 - 2 ^ 15.

Definition get_u8 (d : list Z) (off : Z) : Z := le_value (get_bytes d off 1).
Definition get_u16 (d : list Z) (off : Z) : Z := le_value (get_bytes d off 2).
Definition get_u32 (d : list Z) (off : Z) : Z := le_value (get_bytes d off 4).
Definition put_u8 (d : list Z) (off v : Z) : list Z := put_bytes d off (le_bytes 1 v).
Definition put_u16 (d : list Z) (off v : Z) : list Z := put_bytes d off (le_bytes 2 v).
Definition put_u32 (d : list Z) (off v : Z) : list Z := put_bytes d off (le_bytes 4 v).

Lemma length_le_bytes n v : length (le_bytes n v) = n.
Proof. revert v. induction n as [|n IH]; intros v; simpl; [done | by rewrite IH]. Qed.

Lemma le_value_le_bytes n v : le_value (le_bytes n v) = v mod 256 ^ Z.of_nat n.
Proof.
  revert v. induction n as [|n IH]; intros v; cbn [le_bytes le_value]; [by rewrite Z.mod_1_r |].
  rewrite IH, Nat2Z.inj_succ, Z.pow_succ_r by lia. rewrite Z.rem_mul_r by lia.
  unfold u8. by rewrite Z.mod_mod by done.
Qed.

Lemma length_put_bytes d off bs :
  0 <= off -> off + Z.of_nat (length bs) <= Z.of_nat (length d) -> length (put_bytes d off bs) = length d.
Proof. intros. unfold put_bytes. rewrite !length_app, length_take, length_drop. lia. Qed.

Lemma get_put_bytes_eq d off bs n :
  0 <= off -> off + Z.of_nat (length bs) <= Z.of_nat (length d) -> n = Z.of_nat (length bs) ->
  get_bytes (put_bytes d off bs) off n = bs.
Proof.
  intros Ho Hl ->. unfold get_bytes, put_bytes. rewrite drop_app_length' by (rewrite length_take; lia).
  rewrite Nat2Z.id. by apply take_app_length'.
Qed.

(** Reading bytes the write did not touch. *)
Lemma get_put_bytes_ne d off bs o n :
  0 <= off -> 0 <= o -> 0 <= n -> off + Z.of_nat (length bs) <= Z.of_nat (length d) ->
  o + n <= off \/ off + Z.of_nat (length bs) <= o ->
  get_bytes (put_bytes d off bs) o n = get_bytes d o n.
Proof.
  intros Ho Ho' Hn Hl Hd. unfold get_bytes. apply list_eq. intros i.
  destruct (decide (i < Z.to_nat n)%nat); [|rewrite !lookup_take_ge by lia; done].
  rewrite !lookup_take_lt by lia. rewrite !lookup_drop. unfold put_bytes.
  destruct Hd as [Hd|Hd].
  - rewrite lookup_app_l by (rewrite length_take; lia). by rewrite lookup_take_lt by lia.
  - rewrite lookup_app_r by (rewrite length_take; lia). rewrite length_take, lookup_app_r by lia.
    rewrite lookup_drop. f_equal. lia.
Qed.

Lemma get_put_u32_eq d off v : 0 <= off -> off + 4 <= Z.of_nat (length d) -> get_u32 (put_u32 d off v) off = u32 v.
Proof.
  intros. unfold get_u32, put_u32. rewrite get_put_bytes_eq by (rewrite ?length_le_bytes; lia).
  by rewrite le_value_le_bytes.
Qed.

Lemma get_put_u16_eq d off v : 0 <= off -> off + 2 <= Z.of_nat (length d) -> get_u16 (put_u16 d off v) off = v mod 2 ^ 16.
Proof.
  intros. unfold get_u16, put_u16. rewrite get_put_bytes_eq by (rewrite ?length_le_bytes; lia).
  by rewrite le_value_le_bytes.
Qed.

Lemma get_put_u8_eq d off v : 0 <= off -> off + 1 <= Z.of_nat (length d) -> get_u8 (put_u8 d off v) off = u8 v.
Proof.
  intros. unfold get_u8, put_u8. rewrite get_put_bytes_eq by (rewrite ?length_le_bytes; lia).
  by rewrite le_value_le_bytes.
Qed.

Lemma get_put_u32_ne d off v o : 0 <= off -> 0 <= o -> off + 4 <= Z.of_nat (length d) ->
  o + 4 <= off \/ off + 4 <= o -> get_u32 (put_u32 d off v) o = get_u32 d o.
Proof. intros. unfold get_u32, put_u32. rewrite get_put_bytes_ne; rewrite ?length_le_bytes; lia || done. Qed.

Lemma length_put_u32 d off v : 0 <= off -> off + 4 <= Z.of_nat (length d) -> length (put_u32 d off v) = length d.
Proof. intros. apply length_put_bytes; rewrite ?length_le_bytes; lia. Qed.

Lemma length_put_u16 d off v : 0 <= off -> off + 2 <= Z.of_nat (length d) -> length (put_u16 d off v) = length d.
Proof. intros. apply length_put_bytes; rewrite ?length_le_bytes; lia. Qed.

Lemma length_put_u8 d off v : 0 <= off -> off + 1 <= Z.of_nat (length d) -> length (put_u8 d off v) = length d.
Proof. intros. apply length_put_bytes; rewrite ?length_le_bytes; lia. Qed.

Lemma get_put_u8_ne d off v o : 0 <= off -> 0 <= o -> off + 1 <= Z.of_nat (length d) -> o <> off ->
  get_u8 (put_u8 d off v) o = get_u8 d o.
Proof. intros. unfold get_u8, put_u8. rewrite get_put_bytes_ne; rewrite ?length_le_bytes; lia || done. Qed.

Lemma length_get_bytes d off n :
  0 <= off -> 0 <= n -> off + n <= Z.of_nat (length d) -> length (get_bytes d off n) = Z.to_nat n.
Proof. intros. unfold get_bytes. rewrite length_take, length_drop. lia. Qed.

Lemma le_value_range bs : 0 <= le_value bs < 256 ^ Z.of_nat (length bs).
Proof.
  induction bs as [|b bs IH]; [by vm_compute |]. cbn [le_value length].
  rewrite Nat2Z.inj_succ, Z.pow_succ_r by lia. pose proof (u8_range b). lia.
Qed.
