(* ===== verification/Riscv.v ===== *)
(** * Page and page-table arithmetic (kernel/riscv.h, kernel/memlayout.h)

    The macros, with the 64-bit wrap-around of their operands, and the
    arithmetic facts about them that the page-table code relies on. *)

From S2P Require Import Prelude.

Definition PGSIZE : Z := 4096.
Definition PGSHIFT : Z := 12.
Definition PGROUNDUP (sz : Z) : Z := Z.land (u64 (sz + PGSIZE - 1)) (Z.lnot (PGSIZE - 1)).
Definition PGROUNDDOWN (a : Z) : Z := Z.land a (Z.lnot (PGSIZE - 1)).

Definition PTE_V : Z := Z.shiftl 1 0.
Definition PTE_R : Z := Z.shiftl 1 1.
Definition PTE_W : Z := Z.shiftl 1 2.
Definition PTE_X : Z := Z.shiftl 1 3.
Definition PTE_U : Z := Z.shiftl 1 4.

Definition PA2PTE (pa : Z) : Z := u64 (Z.shiftl (Z.shiftr pa 12) 10).
Definition PTE2PA (pte : Z) : Z := u64 (Z.shiftl (Z.shiftr pte 10) 12).
Definition PTE_FLAGS (pte : Z) : Z := Z.land pte 1023.

Definition PXMASK : Z := 511.
Definition PXSHIFT (level : Z) : Z := PGSHIFT + 9 * level.
Definition PX (level va : Z) : Z := Z.land (Z.shiftr va (PXSHIFT level)) PXMASK.

Definition MAXVA : Z := Z.shiftl 1 (9 + 9 + 9 + 12 - 1).

Definition KERNBASE : Z := 2147483648.
Definition PHYSTOP : Z := KERNBASE + 128 * 1024 * 1024.
Definition UART0 : Z := 0x10000000.
Definition UART0_IRQ : Z := 10.
Definition VIRTIO0 : Z := 0x10001000.
Definition VIRTIO0_IRQ : Z := 1.
Definition PLIC : Z := 0x0c000000.
Definition SATP_SV39 : Z := Z.shiftl 8 60.
Definition MAKE_SATP (pagetable : Z) : Z := Z.lor SATP_SV39 (Z.shiftr pagetable 12).
Definition TRAMPOLINE : Z := MAXVA - PGSIZE.
Definition KSTACK (p : Z) : Z := TRAMPOLINE - (p + 1) * 2 * PGSIZE.
Definition TRAPFRAME : Z := TRAMPOLINE - PGSIZE.

(** ** Bit-level facts *)

Lemma land_lnot_ones a n : 0 <= n -> Z.land a (Z.lnot (Z.ones n)) = a / 2 ^ n * 2 ^ n.
Proof.
  intros Hn. rewrite <- Z.ldiff_land, Z.ldiff_ones_r, Z.shiftl_mul_pow2, Z.shiftr_div_pow2 by lia. done.
Qed.

Lemma lor_disjoint x n f : 0 <= n -> 0 <= f < 2 ^ n -> Z.lor (x * 2 ^ n) f = x * 2 ^ n + f.
Proof.
  intros Hn Hf. assert (Z.land (x * 2 ^ n) f = 0) as Hl.
  { destruct (decide (f = 0)) as [->|]; [apply Z.land_0_r |].
    rewrite <- Z.shiftl_mul_pow2 by lia. apply Z.bits_inj'. intros i Hi.
    rewrite Z.land_spec, Z.bits_0. destruct (Z.ltb_spec i n).
    - by rewrite Z.shiftl_spec_low.
    - rewrite (Z.bits_above_log2 f), andb_false_r; [done | lia |].
      apply Z.log2_lt_pow2; [lia |].
      eapply Z.lt_le_trans; [apply Hf |]. by apply Z.pow_le_mono_r. }
  rewrite <- Z.lxor_lor by done. by rewrite Z.add_nocarry_lxor.
Qed.

Lemma PGROUNDDOWN_eq a : PGROUNDDOWN a = a / 4096 * 4096.
Proof. apply (land_lnot_ones a 12). lia. Qed.

Lemma PGROUNDUP_eq sz : 0 <= sz -> sz + 4095 < 2 ^ 64 -> PGROUNDUP sz = (sz + 4095) / 4096 * 4096.
Proof.
  intros. unfold PGROUNDUP. rewrite u64_small by (unfold PGSIZE; lia).
  unfold PGSIZE. replace (sz + 4096 - 1) with (sz + 4095) by lia. apply (land_lnot_ones (sz + 4095) 12). lia.
Qed.

Lemma PGROUNDUP_spec sz :
  0 <= sz -> sz + 4095 < 2 ^ 64 ->
  PGROUNDUP sz mod 4096 = 0 /\ sz <= PGROUNDUP sz < sz + 4096.
Proof. intros. rewrite PGROUNDUP_eq by done. split; [apply Z_mod_mult | dlia]. Qed.

Lemma PGROUNDUP_aligned sz : 0 <= sz -> sz + 4095 < 2 ^ 64 -> sz mod 4096 = 0 -> PGROUNDUP sz = sz.
Proof. intros. rewrite PGROUNDUP_eq by done. dlia. Qed.

Lemma PX_eq level va : 0 <= level -> PX level va = (va / 2 ^ (12 + 9 * level)) mod 512.
Proof.
  intros. unfold PX, PXSHIFT, PGSHIFT, PXMASK. change 511 with (Z.ones 9).
  rewrite Z.land_ones by lia. rewrite Z.shiftr_div_pow2 by lia. done.
Qed.

Lemma PX_range level va : 0 <= level -> 0 <= PX level va < 512.
Proof. intros. rewrite PX_eq by done. by apply Z.mod_pos_bound. Qed.

Lemma PX2_range va : 0 <= va < MAXVA -> PX 2 va < 256.
Proof.
  intros [H0 H1]. rewrite PX_eq by lia. change (12 + 9 * 2) with 30. change MAXVA with (2 ^ 38) in H1. dlia.
Qed.

(** The address with given indices. *)
Lemma PX_of i2 i1 i0 :
  0 <= i2 < 256 -> 0 <= i1 < 512 -> 0 <= i0 < 512 ->
  let va := i2 * 2 ^ 30 + i1 * 2 ^ 21 + i0 * 2 ^ 12 in
  0 <= va < MAXVA /\ va mod 4096 = 0 /\ PX 2 va = i2 /\ PX 1 va = i1 /\ PX 0 va = i0.
Proof.
  intros H2 H1 H0 va. change MAXVA with (2 ^ 38). rewrite !PX_eq by lia.
  change (12 + 9 * 2) with 30. change (12 + 9 * 1) with 21. change (12 + 9 * 0) with 12. unfold va. dlia.
Qed.

(** A virtual address below MAXVA is determined by its three indices and offset. *)
Lemma PX_split va :
  0 <= va < MAXVA ->
  va = PX 2 va * 2 ^ 30 + PX 1 va * 2 ^ 21 + PX 0 va * 2 ^ 12 + va mod 4096.
Proof.
  intros [H0 H1]. rewrite !PX_eq by lia.
  change (12 + 9 * 2) with 30. change (12 + 9 * 1) with 21. change (12 + 9 * 0) with 12.
  change MAXVA with (2 ^ 38) in H1. dlia.
Qed.

Lemma PX_inj va va' :
  0 <= va < MAXVA -> 0 <= va' < MAXVA -> va mod 4096 = 0 -> va' mod 4096 = 0 ->
  PX 2 va = PX 2 va' -> PX 1 va = PX 1 va' -> PX 0 va = PX 0 va' -> va = va'.
Proof.
  intros H H' A A' E2 E1 E0. rewrite (PX_split va), (PX_split va') by done.
  by rewrite E2, E1, E0, A, A'.
Qed.

Lemma PTE2PA_eq pte : 0 <= pte < 2 ^ 62 -> PTE2PA pte = pte / 1024 * 4096.
Proof.
  intros. unfold PTE2PA. rewrite Z.shiftl_mul_pow2, Z.shiftr_div_pow2 by lia.
  change (2 ^ 10) with 1024. change (2 ^ 12) with 4096. apply u64_small. dlia.
Qed.

Lemma PA2PTE_eq pa : 0 <= pa < 2 ^ 56 -> PA2PTE pa = pa / 4096 * 1024.
Proof.
  intros. unfold PA2PTE. rewrite Z.shiftl_mul_pow2, Z.shiftr_div_pow2 by lia.
  change (2 ^ 10) with 1024. change (2 ^ 12) with 4096. apply u64_small. dlia.
Qed.

(** A PTE built from a page-aligned physical address and ten flag bits. *)
Lemma mk_pte_eq pa f :
  0 <= pa < 2 ^ 56 -> 0 <= f < 1024 -> Z.lor (PA2PTE pa) f = pa / 4096 * 1024 + f.
Proof. intros. rewrite PA2PTE_eq by done. apply (lor_disjoint _ 10); lia. Qed.

Lemma mk_pte_range pa f : 0 <= pa < 2 ^ 56 -> 0 <= f < 1024 -> 0 <= Z.lor (PA2PTE pa) f < 2 ^ 54.
Proof. intros. rewrite mk_pte_eq by done. dlia. Qed.

Lemma PTE2PA_mk_pte pa f :
  0 <= pa < 2 ^ 56 -> pa mod 4096 = 0 -> 0 <= f < 1024 -> PTE2PA (Z.lor (PA2PTE pa) f) = pa.
Proof.
  intros. pose proof (mk_pte_range pa f). rewrite PTE2PA_eq by lia. rewrite mk_pte_eq by done. dlia.
Qed.

Lemma PTE_FLAGS_eq pte : PTE_FLAGS pte = pte mod 1024.
Proof. unfold PTE_FLAGS. change 1023 with (Z.ones 10). by rewrite Z.land_ones by lia. Qed.

Lemma PTE_FLAGS_mk_pte pa f :
  0 <= pa < 2 ^ 56 -> 0 <= f < 1024 -> PTE_FLAGS (Z.lor (PA2PTE pa) f) = f.
Proof. intros. rewrite PTE_FLAGS_eq, mk_pte_eq by done. dlia. Qed.

(** A flag test only looks at the flag bits. *)
Lemma land_flags pte b : 0 <= b < 1024 -> Z.land pte b = Z.land (PTE_FLAGS pte) b.
Proof.
  intros Hb. unfold PTE_FLAGS. rewrite <- Z.land_assoc. f_equal.
  change 1023 with (Z.ones 10). rewrite Z.land_comm, Z.land_ones by lia.
  symmetry. by apply Z.mod_small.
Qed.

(** The numeric values of the constants. *)
Ltac consts :=
  change PTE_V with 1 in *; change PTE_R with 2 in *; change PTE_W with 4 in *;
  change PTE_X with 8 in *; change PTE_U with 16 in *; change PGSIZE with 4096 in *;
  change MAXVA with 274877906944 in *.
