(* ===== verification/Kalloc.v ===== *)
(** * Physical page allocator (kernel/kalloc.c)

    The free list is threaded through the free pages themselves: [r->next] is the
    first word of the page.  [kmem_inv s l] says that the list the kernel would
    traverse from [kmem.freelist] is [l]; the operations refine push and pop. *)

From S2P Require Import Prelude State Mem Riscv.

(** Symbols the linker script defines: [end], the first address after the kernel. *)
Class Linker := {
  end_ : Z;
  end_range : KERNBASE <= end_ < PHYSTOP;
}.

Section kalloc.
Context {L : Linker}.

(** r->next *)
Definition run_next (r : Z) : M kernel Z := gets (fun s => load64 s.(mem) r).

Definition kfree (pa : Z) : M kernel unit :=
  if negb (pa mod PGSIZE =? 0) || (pa <? end_) || (PHYSTOP <=? pa) then panic "kfree" else
  modify (fun s => set_mem (memset s.(mem) pa 1 PGSIZE) s);;
  acquire LkKmem;;
  modify (fun s => set_mem (store64 s.(mem) pa s.(freelist)) s);;
  modify (fun s => set_freelist pa s);;
  release LkKmem.

(** for(; p + PGSIZE <= (char* )pa_end; p += PGSIZE) kfree(p); *)
Fixpoint freerange_loop (fuel : nat) (p pa_end : Z) : M kernel unit :=
  match fuel with
  | O => fun _ => Timeout
  | S fuel' =>
      if p + PGSIZE <=? pa_end then kfree p;; freerange_loop fuel' (p + PGSIZE) pa_end
      else mret tt
  end.
Definition freerange (fuel : nat) (pa_start pa_end : Z) : M kernel unit :=
  freerange_loop fuel (PGROUNDUP pa_start) pa_end.

Definition kinit (fuel : nat) : M kernel unit :=
  initlock LkKmem;;
  freerange fuel end_ PHYSTOP.

Definition kalloc : M kernel Z :=
  acquire LkKmem;;
  r ← gets freelist;
  when (negb (r =? 0)) (n ← run_next r; modify (fun s => set_freelist n s));;
  release LkKmem;;
  when (negb (r =? 0)) (modify (fun s => set_mem (memset s.(mem) r 5 PGSIZE) s));;
  mret r.

(** while(r){ count += PGSIZE; r = r->next; } *)
Fixpoint memfree_loop (fuel : nat) (r count : Z) : M kernel Z :=
  match fuel with
  | O => fun _ => Timeout
  | S fuel' =>
      if r =? 0 then mret count
      else n ← run_next r; memfree_loop fuel' n (u64 (count + PGSIZE))
  end.
Definition memfree (fuel : nat) : M kernel Z :=
  acquire LkKmem;;
  r ← gets freelist;
  count ← memfree_loop fuel r 0;
  release LkKmem;;
  mret count.

(** ** The free list as a list of pages *)

Definition page_ok (p : Z) : Prop := p mod 4096 = 0 /\ end_ <= p < PHYSTOP.

Fixpoint freelist_is (m : gmap Z Z) (h : Z) (l : list Z) : Prop :=
  match l with
  | [] => h = 0
  | p :: l' => h = p /\ page_ok p /\ freelist_is m (load64 m p) l'
  end.

Definition kmem_inv (s : kernel) (l : list Z) : Prop :=
  freelist_is s.(mem) s.(freelist) l /\ NoDup l.

Lemma page_pos p : page_ok p -> 0 < p < 2 ^ 40.
Proof. intros [_ H]. pose proof end_range. unfold KERNBASE, PHYSTOP, KERNBASE in *. lia. Qed.

(** Distinct pages do not overlap. *)
Lemma page_disjoint p q : p mod 4096 = 0 -> q mod 4096 = 0 -> p <> q -> p + 4096 <= q \/ q + 4096 <= p.
Proof. dlia. Qed.

Lemma freelist_pages m l : forall h, freelist_is m h l -> Forall page_ok l.
Proof. induction l as [|p l IH]; intros h H; constructor; naive_solver. Qed.

(** The list only depends on the first word of its pages. *)
Lemma freelist_ext m m' l : forall h,
  (forall p, p ∈ l -> load64 m' p = load64 m p) -> freelist_is m h l -> freelist_is m' h l.
Proof.
  induction l as [|p l IH]; intros h He H; [done |]. destruct H as (-> & Hp & Hl).
  split_and!; [done | done |]. rewrite He by set_solver. apply IH; [|done]. intros q Hq. apply He. set_solver.
Qed.

Lemma kmem_inv_frame s s' l :
  kmem_inv s l -> s'.(freelist) = s.(freelist) ->
  (forall q, q ∈ l -> agree s.(mem) s'.(mem) q (q + 4096)) -> kmem_inv s' l.
Proof.
  intros [Hf Hn] Ef Ha. split; [|done]. rewrite Ef. eapply freelist_ext; [|exact Hf].
  intros q Hq. eapply load64_agree; [by apply Ha | lia | lia].
Qed.

(** Writes confined to a page that is not free keep the free list. *)
Lemma freelist_frame m m' l h p :
  p mod 4096 = 0 -> p ∉ l ->
  (forall a, a < p \/ p + 4096 <= a -> load8 m' a = load8 m a) ->
  freelist_is m h l -> freelist_is m' h l.
Proof.
  intros Hp Hl Hm H. eapply freelist_ext; [|exact H]. intros q Hq.
  pose proof (freelist_pages _ _ _ H) as Hpg. rewrite Forall_forall in Hpg.
  destruct (Hpg q Hq) as [Hq4 _].
  destruct (page_disjoint p q); [done | done | set_solver | |];
    apply load64_ext; intros i Hi; apply Hm; lia.
Qed.

Lemma memset_outside m p c a : a < p \/ p + 4096 <= a -> load8 (memset m p c PGSIZE) a = load8 m a.
Proof. intros H. rewrite load8_memset. by rewrite decide_False by (unfold PGSIZE; lia). Qed.

(** ** Specifications *)

(** kalloc() pops the free list and fills the page with 5s; with an empty list it
    returns 0 and changes nothing. *)
Lemma kalloc_spec s l :
  kmem_inv s l -> LkKmem ∉ s.(held) ->
  match l with
  | [] => kalloc s = Ok 0 s
  | p :: l' =>
      exists s', kalloc s = Ok p s' /\ kmem_inv s' l' /\
        s' = set_mem (memset s.(mem) p 5 PGSIZE) (set_freelist (load64 s.(mem) p) s)
  end.
Proof.
  intros [Hf Hnd] Hh. unfold kalloc. erewrite bind_Ok by (by apply acquire_Ok).
  erewrite bind_Ok by done. simpl.
  destruct l as [|p l']; simpl in Hf.
  - rewrite Hf. simpl. erewrite bind_Ok by done. erewrite bind_Ok by (apply release_Ok; set_solver).
    simpl. rewrite held_drop by done. rewrite set_held_twice, set_held_held. done.
  - destruct Hf as (-> & Hp & Hl). pose proof (page_pos p Hp).
    replace (p =? 0) with false by (case_Z; lia). simpl.
    erewrite bind_Ok by done. erewrite bind_Ok by (apply release_Ok; set_solver).
    erewrite bind_Ok by done. simpl. rewrite held_drop by done.
    eexists. split; [done |]. split; [|by kstate].
    apply NoDup_cons in Hnd as [Hin Hnd]. split; simpl; [|done].
    eapply (freelist_frame s.(mem) _ _ _ p); [apply Hp | done | | exact Hl]. intros a Ha. by apply memset_outside.
Qed.

(** kfree() of a page that is not free pushes it. *)
Lemma kfree_spec s l p :
  kmem_inv s l -> LkKmem ∉ s.(held) -> page_ok p -> p ∉ l ->
  exists s', kfree p s = Ok tt s' /\ kmem_inv s' (p :: l) /\
    s' = set_mem (store64 (memset s.(mem) p 1 PGSIZE) p s.(freelist)) (set_freelist p s).
Proof.
  intros [Hf Hnd] Hh Hp Hin. pose proof (page_pos p Hp). pose proof Hp as [Ha [He1 He2]]. unfold kfree.
  replace (negb (p mod PGSIZE =? 0) || (p <? end_) || (PHYSTOP <=? p)) with false
    by (unfold PGSIZE; rewrite Ha; simpl; repeat case_Z; simpl; lia).
  erewrite bind_Ok by done. erewrite bind_Ok by (by apply acquire_Ok).
  erewrite bind_Ok by done. erewrite bind_Ok by done.
  rewrite release_Ok by (simpl; set_solver). simpl. rewrite held_drop by done.
  eexists. split; [done |]. split; [|by kstate].
  split; simpl; [|by constructor]. split_and!; [done | done |].
  assert (0 <= freelist s < 2 ^ 64) as Hr.
  { destruct l as [|q l']; simpl in Hf; [lia |]. destruct Hf as (-> & Hq & _). pose proof (page_pos q Hq). lia. }
  rewrite load64_store64_eq, u64_small by done.
  eapply (freelist_frame s.(mem) _ _ _ p); [done | done | | exact Hf].
  intros a Ha'. rewrite load8_store64_ne by lia. by apply memset_outside.
Qed.

Lemma memfree_loop_spec s l : forall fuel r count,
  freelist_is s.(mem) r l -> (length l < fuel)%nat -> 0 <= count ->
  count + 4096 * Z.of_nat (length l) < 2 ^ 64 ->
  memfree_loop fuel r count s = Ok (count + 4096 * Z.of_nat (length l)) s.
Proof.
  induction l as [|p l IH]; intros fuel r count Hl Hf Hc Hb; (destruct fuel as [|fuel]; [simpl in Hf; lia |]); simpl in *.
  - subst. simpl. unfold mret, M_ret. f_equal. lia.
  - destruct Hl as (-> & Hp & Hl). pose proof (page_pos p Hp).
    replace (p =? 0) with false by (case_Z; lia). erewrite bind_Ok by done.
    rewrite u64_small by (unfold PGSIZE; lia).
    rewrite IH by (done || unfold PGSIZE; lia). f_equal. unfold PGSIZE. lia.
Qed.

(** memfree() returns the number of free bytes. *)
Lemma memfree_spec s l fuel :
  kmem_inv s l -> LkKmem ∉ s.(held) -> (length l < fuel)%nat ->
  4096 * Z.of_nat (length l) < 2 ^ 64 ->
  memfree fuel s = Ok (4096 * Z.of_nat (length l)) s.
Proof.
  intros [Hf Hnd] Hh Hfu Hb. unfold memfree. erewrite bind_Ok by (by apply acquire_Ok).
  erewrite bind_Ok by done. simpl.
  erewrite bind_Ok by (apply (memfree_loop_spec (set_held ({[LkKmem]} ∪ held s) s) l); done || lia).
  erewrite bind_Ok by (apply release_Ok; set_solver). simpl. rewrite held_drop by done.
  rewrite set_held_twice, set_held_held. unfold mret, M_ret. f_equal.
Qed.

(** The [n] pages from [p] on. *)
Definition page_seq (p : Z) (n : nat) : list Z := (fun i => p + 4096 * Z.of_nat i) <$> seq 0 n.

Lemma page_seq_S p n : page_seq p (S n) = p :: page_seq (p + 4096) n.
Proof.
  unfold page_seq. simpl. f_equal; [lia |]. rewrite <- fmap_S_seq, <- list_fmap_compose.
  apply list_fmap_ext. intros i x _. simpl. lia.
Qed.

Lemma elem_of_page_seq p n q : q ∈ page_seq p n -> p <= q < p + 4096 * Z.of_nat n /\ (q - p) mod 4096 = 0.
Proof.
  unfold page_seq. intros (i & -> & Hi)%list_elem_of_fmap. apply elem_of_seq in Hi. dlia.
Qed.

Lemma freerange_loop_spec pa_end n : forall fuel p s l,
  kmem_inv s l -> LkKmem ∉ s.(held) -> p mod 4096 = 0 -> end_ <= p -> pa_end <= PHYSTOP ->
  (forall q, q ∈ l -> q < p) ->
  p + 4096 * Z.of_nat n <= pa_end < p + 4096 * (Z.of_nat n + 1) -> (n < fuel)%nat ->
  exists s', freerange_loop fuel p pa_end s = Ok tt s' /\
    kmem_inv s' (rev (page_seq p n) ++ l) /\ only_mem s s'.
Proof.
  induction n as [|n IH]; intros fuel p s l Hi Hh Hp He Hend Hlt Hn Hf;
    (destruct fuel as [|fuel]; [lia |]); simpl freerange_loop; unfold PGSIZE.
  - destruct (Z.leb_spec (p + 4096) pa_end); [lia |]. exists s. auto using only_mem_refl.
  - destruct (Z.leb_spec (p + 4096) pa_end); [|lia].
    destruct (kfree_spec s l p) as (s1 & E1 & Hi1 & Es); [done | done | | |].
    { split; [done | lia]. }
    { intros Hin. specialize (Hlt p Hin). lia. }
    erewrite bind_Ok by exact E1.
    destruct (IH fuel (p + 4096) s1 (p :: l)) as (s' & E' & Hi' & Hh'); try done; try lia.
    + by subst.
    + dlia.
    + intros q [->|Hq]%elem_of_cons; [lia |]. specialize (Hlt q Hq). lia.
    + exists s'. split; [done |]. split; [|eapply only_mem_trans; [|exact Hh']; rewrite Es; unfold only_mem; reflexivity].
      rewrite page_seq_S. simpl. by rewrite <- app_assoc.
Qed.

(** Number of whole pages between the end of the kernel and PHYSTOP. *)
Definition npages : nat := Z.to_nat ((PHYSTOP - PGROUNDUP end_) / 4096).
Definition all_pages : list Z := page_seq (PGROUNDUP end_) npages.

(** kinit() puts exactly the whole pages between [end] and PHYSTOP on the free
    list, whatever memory contains, and terminates. *)
Lemma kinit_run (s : kernel) (fuel : nat) :
  s.(freelist) = 0 -> LkKmem ∉ s.(held) -> (npages < fuel)%nat ->
  exists s', kinit fuel s = Ok tt s' /\ kmem_inv s' (rev all_pages) /\ only_mem s s'.
Proof.
  intros H0 Hh Hf. pose proof end_range as Hr. unfold KERNBASE, PHYSTOP, KERNBASE in Hr.
  destruct (PGROUNDUP_spec end_) as [Ha Hb]; [lia | lia |].
  unfold kinit, freerange. erewrite bind_Ok by (by apply initlock_Ok).
  destruct (freerange_loop_spec PHYSTOP npages fuel (PGROUNDUP end_) s []) as (s' & E & Hi & Hh');
    try done; try lia.
  - split; [done | constructor].
  - set_solver.
  - unfold npages, PHYSTOP, KERNBASE in *. dlia.
  - exists s'. rewrite app_nil_r in Hi. done.
Qed.

(** ** Clients of the allocator

    A history of calls: [kalloc], [kfree] of a page the clients own, and writes of
    the clients to pages they own.  [a] lists the pages handed out. *)
Inductive client : kernel * list Z -> kernel * list Z -> Prop :=
| client_alloc s a p s' : kalloc s = Ok p s' -> p <> 0 -> client (s, a) (s', p :: a)
| client_nomem s a s' : kalloc s = Ok 0 s' -> client (s, a) (s', a)
| client_free s a1 p a2 s' : kfree p s = Ok tt s' -> client (s, a1 ++ p :: a2) (s', a1 ++ a2)
| client_write s a m' :
    (forall x, (forall p, p ∈ a -> x < p \/ p + 4096 <= x) -> load8 m' x = load8 s.(mem) x) ->
    client (s, a) (set_mem m' s, a).

Definition client_inv (sa : kernel * list Z) : Prop :=
  exists l, kmem_inv sa.1 l /\ LkKmem ∉ sa.1.(held) /\ (l ++ sa.2) ≡ₚ all_pages.

Lemma all_pages_ok : NoDup all_pages /\ Forall page_ok all_pages.
Proof.
  pose proof end_range as Hr. unfold KERNBASE, PHYSTOP, KERNBASE in Hr.
  destruct (PGROUNDUP_spec end_) as [Ha Hb]; [lia | lia |]. split.
  - unfold all_pages, page_seq. apply NoDup_fmap_2; [|apply NoDup_seq]. intros i j. lia.
  - apply Forall_forall. intros q Hq. apply elem_of_page_seq in Hq.
    unfold page_ok, npages, PHYSTOP, KERNBASE in *. dlia.
Qed.

Lemma client_inv_step sa sa' : client_inv sa -> client sa sa' -> client_inv sa'.
Proof.
  intros (l & Hi & Hh & Hp) Hst. destruct all_pages_ok as [Hnd Hok].
  destruct Hst as [s a p s' E Hp0|s a s' E|s a1 p a2 s' E|s a m' Hm]; simpl in *.
  - pose proof (kalloc_spec s l Hi Hh) as Hk. destruct l as [|q l]; [congruence |].
    destruct Hk as (s1 & E1 & Hi1 & Es). rewrite E in E1. simplify_eq. exists l.
    split_and!; [done | done |]. simpl. rewrite <- Hp. simpl. by rewrite Permutation_middle.
  - pose proof (kalloc_spec s l Hi Hh) as Hk. destruct l as [|q l]; [exists []; rewrite E in Hk; by simplify_eq |].
    destruct Hk as (s1 & E1 & Hi1 & Es). rewrite E in E1. simplify_eq.
    assert (0 ∈ all_pages) as H0 by (rewrite <- Hp; set_solver).
    rewrite Forall_forall in Hok. pose proof (page_pos _ (Hok _ H0)). lia.
  - assert (p ∈ all_pages) as Hpa by (rewrite <- Hp; set_solver).
    rewrite Forall_forall in Hok.
    assert (p ∉ l) as Hnl.
    { intros Hin. rewrite <- Hp in Hnd. apply NoDup_app in Hnd as (_ & Hd & _).
      apply (Hd p Hin). set_solver. }
    destruct (kfree_spec s l p) as (s1 & E1 & Hi1 & Es); auto. rewrite E in E1. simplify_eq.
    exists (p :: l). split_and!; [done | done |]. simpl. rewrite <- Hp. solve_Permutation.
  - exists l. split_and!; [|done | done]. destruct Hi as [Hf Hn]. split; [simpl | done].
    eapply freelist_ext; [|exact Hf]. intros q Hq. apply load64_ext. intros i Hii. apply Hm. intros p Hpa.
    rewrite Forall_forall in Hok.
    assert (p mod 4096 = 0 /\ q mod 4096 = 0) as [? ?]
      by (split; apply Hok; rewrite <- Hp; set_solver).
    assert (p <> q).
    { intros ->. rewrite <- Hp in Hnd. apply NoDup_app in Hnd as (_ & Hd & _). by apply (Hd q). }
    destruct (page_disjoint p q); [done.. | lia | lia].
Qed.

(** C2. No page is lost or handed out twice: after any history of calls, the free
    pages and the pages the clients own together are exactly the pages kinit()
    found, each once, and memfree() reports the difference. *)
Theorem allocator_partition (s0 s1 s : kernel) (a : list Z) (fuel : nat) :
  s0.(freelist) = 0 -> LkKmem ∉ s0.(held) -> kinit (S npages) s0 = Ok tt s1 ->
  rtc client (s1, []) (s, a) -> (npages < fuel)%nat ->
  NoDup a /\ a ⊆+ all_pages /\
  memfree fuel s = Ok (4096 * (Z.of_nat npages - Z.of_nat (length a))) s.
Proof.
  intros H0 Hh E Hr Hf. destruct all_pages_ok as [Hnd Hok].
  assert (client_inv (s1, [])) as Hi1.
  { destruct (kinit_run s0 (S npages)) as (s' & E' & Hi & Hh'); [done | done | lia |].
    rewrite E in E'. simplify_eq. exists (rev all_pages). simpl. rewrite (only_mem_held _ _ Hh'), app_nil_r.
    split_and!; [done | done |]. symmetry. apply Permutation_rev. }
  assert (client_inv (s, a)) as (l & Hi & Hh2 & Hp).
  { remember (s1, []) as x. remember (s, a) as y. clear - Hr Hi1 Hok.
    induction Hr; eauto using client_inv_step. }
  simpl in *. pose proof Hp as Hlen. apply Permutation_length in Hlen.
  unfold all_pages, page_seq in Hlen. rewrite length_app, length_fmap, length_seq in Hlen.
  split_and!.
  - rewrite <- Hp in Hnd. by apply NoDup_app in Hnd as (_ & _ & ?).
  - rewrite <- Hp. by apply submseteq_inserts_l.
  - rewrite (memfree_spec s l fuel); [f_equal; lia | done | done | lia |].
    assert (Z.of_nat npages <= 32768); [|lia]. pose proof end_range as Hr'. unfold KERNBASE, PHYSTOP, KERNBASE in Hr'.
    destruct (PGROUNDUP_spec end_) as [? ?]; [lia | lia |]. unfold npages, PHYSTOP, KERNBASE. dlia.
Qed.
End kalloc.
