(* ===== verification/Vm.v ===== *)
(** * Virtual memory (kernel/vm.c): the code

    Sv39 page tables live in physical memory: a table is the address of a page of
    512 little-endian 64-bit entries.  Loops whose bound the code computes carry
    the fuel that bound gives; running out of it is the outcome [Timeout]. *)

From S2P Require Import Prelude State Mem Riscv Kalloc.

Section vm.
Context {L : Linker}.

Definition rd64 (a : Z) : M kernel Z := gets (fun s => load64 s.(mem) a).
Definition wr64 (a v : Z) : M kernel unit := modify (fun s => set_mem (store64 s.(mem) a v) s).
Definition do_memset (dst c n : Z) : M kernel unit := modify (fun s => set_mem (memset s.(mem) dst c n) s).
Definition do_memmove (dst src n : Z) : M kernel unit := modify (fun s => set_mem (memmove s.(mem) dst src n) s).

(** [*pte & flag], as a truth value *)
Definition has (pte flag : Z) : bool := negb (Z.land pte flag =? 0).

(** for(int level = 2; level > 0; level--) ...; return &pagetable[PX(0, va)]; *)
Fixpoint walk_levels (level : nat) (pagetable va : Z) (alloc : bool) : M kernel Z :=
  match level with
  | O => mret (pagetable + 8 * PX 0 va)
  | S level' =>
      let pte := pagetable + 8 * PX (Z.of_nat level) va in
      e ← rd64 pte;
      if has e PTE_V then walk_levels level' (PTE2PA e) va alloc
      else if negb alloc then mret 0 else
      pg ← kalloc;
      if pg =? 0 then mret 0 else
      do_memset pg 0 PGSIZE;;
      wr64 pte (Z.lor (PA2PTE pg) PTE_V);;
      walk_levels level' pg va alloc
  end.

Definition walk (pagetable va : Z) (alloc : bool) : M kernel Z :=
  if MAXVA <=? va then panic "walk" else walk_levels 2 pagetable va alloc.

Definition walkaddr (pagetable va : Z) : M kernel Z :=
  if MAXVA <=? va then mret 0 else
  pte ← walk pagetable va false;
  if pte =? 0 then mret 0 else
  e ← rd64 pte;
  if negb (has e PTE_V) then mret 0 else
  if negb (has e PTE_U) then mret 0 else
  mret (PTE2PA e).

(** for(;;){ ... if(a == last) break; a += PGSIZE; pa += PGSIZE; } *)
Fixpoint mappages_loop (fuel : nat) (pagetable a last pa perm : Z) : M kernel Z :=
  match fuel with
  | O => fun _ => Timeout
  | S fuel' =>
      pte ← walk pagetable a true;
      if pte =? 0 then mret (-1) else
      e ← rd64 pte;
      if has e PTE_V then panic "mappages: remap" else
      wr64 pte (Z.lor (Z.lor (PA2PTE pa) perm) PTE_V);;
      if a =? last then mret 0
      else mappages_loop fuel' pagetable (u64 (a + PGSIZE)) last (u64 (pa + PGSIZE)) perm
  end.

Definition mappages (pagetable va size pa perm : Z) : M kernel Z :=
  if negb (va mod PGSIZE =? 0) then panic "mappages: va not aligned" else
  if negb (size mod PGSIZE =? 0) then panic "mappages: size not aligned" else
  if size =? 0 then panic "mappages: size" else
  mappages_loop (S (Z.to_nat (size / PGSIZE))) pagetable va (u64 (va + size - PGSIZE)) pa perm.

Definition kvmmap (kpgtbl va pa sz perm : Z) : M kernel unit :=
  r ← mappages kpgtbl va sz pa perm;
  if negb (r =? 0) then panic "kvmmap" else mret tt.

(** for(a = va; a < va + npages*PGSIZE; a += PGSIZE) ... *)
Fixpoint uvmunmap_loop (fuel : nat) (pagetable a aend : Z) (do_free : bool) : M kernel unit :=
  match fuel with
  | O => fun _ => Timeout
  | S fuel' =>
      if a <? aend then
        pte ← walk pagetable a false;
        if pte =? 0 then panic "uvmunmap: walk" else
        e ← rd64 pte;
        if negb (has e PTE_V) then panic "uvmunmap: not mapped" else
        if PTE_FLAGS e =? PTE_V then panic "uvmunmap: not a leaf" else
        when do_free (kfree (PTE2PA e));;
        wr64 pte 0;;
        uvmunmap_loop fuel' pagetable (u64 (a + PGSIZE)) aend do_free
      else mret tt
  end.

Definition uvmunmap (pagetable va npages : Z) (do_free : bool) : M kernel unit :=
  if negb (va mod PGSIZE =? 0) then panic "uvmunmap: not aligned" else
  uvmunmap_loop (S (Z.to_nat npages)) pagetable va (u64 (va + u64 (npages * PGSIZE))) do_free.

Definition uvmcreate : M kernel Z :=
  pagetable ← kalloc;
  if pagetable =? 0 then mret 0 else
  do_memset pagetable 0 PGSIZE;;
  mret pagetable.

(** [src]: the bytes of the initcode array *)
Fixpoint store_bytes (m : gmap Z Z) (a : Z) (bs : list Z) : gmap Z Z :=
  match bs with [] => m | b :: bs' => store_bytes (store8 m a b) (a + 1) bs' end.
Definition do_store_bytes (a : Z) (bs : list Z) : M kernel unit :=
  modify (fun s => set_mem (store_bytes s.(mem) a bs) s).

Definition uvmfirst (pagetable : Z) (src : list Z) : M kernel unit :=
  if PGSIZE <=? Z.of_nat (length src) then panic "uvmfirst: more than a page" else
  mem ← kalloc;
  do_memset mem 0 PGSIZE;;
  mappages pagetable 0 PGSIZE mem (Z.lor (Z.lor (Z.lor PTE_W PTE_R) PTE_X) PTE_U);;
  do_store_bytes mem src.

(** npages is an int in the C code *)
Definition uvmdealloc (pagetable oldsz newsz : Z) : M kernel Z :=
  if oldsz <=? newsz then mret oldsz else
  when (PGROUNDUP newsz <? PGROUNDUP oldsz)
    (let npages := s32 ((PGROUNDUP oldsz - PGROUNDUP newsz) / PGSIZE) in
     uvmunmap pagetable (PGROUNDUP newsz) (u64 npages) true);;
  mret newsz.

(** for(a = oldsz; a < newsz; a += PGSIZE) ... ; [oldsz] is already rounded up *)
Fixpoint uvmalloc_loop (fuel : nat) (pagetable a oldsz newsz xperm : Z) : M kernel Z :=
  match fuel with
  | O => fun _ => Timeout
  | S fuel' =>
      if a <? newsz then
        mem ← kalloc;
        if mem =? 0 then uvmdealloc pagetable a oldsz;; mret 0 else
        do_memset mem 0 PGSIZE;;
        r ← mappages pagetable a PGSIZE mem (Z.lor (Z.lor PTE_R PTE_U) xperm);
        if negb (r =? 0) then kfree mem;; uvmdealloc pagetable a oldsz;; mret 0 else
        uvmalloc_loop fuel' pagetable (u64 (a + PGSIZE)) oldsz newsz xperm
      else mret newsz
  end.

Definition uvmalloc (pagetable oldsz newsz xperm : Z) : M kernel Z :=
  if newsz <? oldsz then mret oldsz else
  uvmalloc_loop (S (S (Z.to_nat (newsz / PGSIZE)))) pagetable (PGROUNDUP oldsz) (PGROUNDUP oldsz) newsz xperm.

(** [depth] bounds the recursion: a table has three levels. *)
Fixpoint freewalk (depth : nat) (pagetable : Z) : M kernel unit :=
  match depth with
  | O => fun _ => Timeout
  | S depth' =>
      for_range 512 0 (fun i =>
        let a := pagetable + 8 * Z.of_nat i in
        pte ← rd64 a;
        if has pte PTE_V && (Z.land pte (Z.lor (Z.lor PTE_R PTE_W) PTE_X) =? 0) then
          freewalk depth' (PTE2PA pte);; wr64 a 0
        else if has pte PTE_V then panic "freewalk: leaf" else mret tt);;
      kfree pagetable
  end.

Definition uvmfree (pagetable sz : Z) : M kernel unit :=
  when (0 <? sz) (uvmunmap pagetable 0 (PGROUNDUP sz / PGSIZE) true);;
  freewalk 3 pagetable.

Fixpoint uvmcopy_loop (fuel : nat) (old new i sz : Z) : M kernel Z :=
  match fuel with
  | O => fun _ => Timeout
  | S fuel' =>
      if i <? sz then
        pte ← walk old i false;
        if pte =? 0 then panic "uvmcopy: pte should exist" else
        e ← rd64 pte;
        if negb (has e PTE_V) then panic "uvmcopy: page not present" else
        mem ← kalloc;
        if mem =? 0 then uvmunmap new 0 (i / PGSIZE) true;; mret (-1) else
        do_memmove mem (PTE2PA e) PGSIZE;;
        r ← mappages new i PGSIZE mem (PTE_FLAGS e);
        if negb (r =? 0) then kfree mem;; uvmunmap new 0 (i / PGSIZE) true;; mret (-1) else
        uvmcopy_loop fuel' old new (u64 (i + PGSIZE)) sz
      else mret 0
  end.
Definition uvmcopy (old new sz : Z) : M kernel Z :=
  uvmcopy_loop (S (S (Z.to_nat (sz / PGSIZE)))) old new 0 sz.

Definition uvmclear (pagetable va : Z) : M kernel unit :=
  pte ← walk pagetable va false;
  if pte =? 0 then panic "uvmclear" else
  e ← rd64 pte;
  wr64 pte (Z.land e (Z.lnot PTE_U)).

(** [src]: the bytes at the kernel address the C code passes; len is their number. *)
Fixpoint copyout_loop (fuel : nat) (pagetable dstva : Z) (src : list Z) : M kernel Z :=
  match fuel with
  | O => fun _ => Timeout
  | S fuel' =>
      let len := Z.of_nat (length src) in
      if 0 <? len then
        let va0 := PGROUNDDOWN dstva in
        if MAXVA <=? va0 then mret (-1) else
        pte ← walk pagetable va0 false;
        if pte =? 0 then mret (-1) else
        e ← rd64 pte;
        if negb (has e PTE_V) || negb (has e PTE_U) || negb (has e PTE_W) then mret (-1) else
        let pa0 := PTE2PA e in
        let n := Z.min (PGSIZE - (dstva - va0)) len in
        do_store_bytes (pa0 + (dstva - va0)) (take (Z.to_nat n) src);;
        copyout_loop fuel' pagetable (va0 + PGSIZE) (drop (Z.to_nat n) src)
      else mret 0
  end.
Definition copyout (pagetable dstva : Z) (src : list Z) : M kernel Z :=
  copyout_loop (S (S (length src))) pagetable dstva src.

(** The bytes [a, a+n) of memory. *)
Definition load_bytes (m : gmap Z Z) (a : Z) (n : nat) : list Z :=
  (fun i => load8 m (a + Z.of_nat i)) <$> seq 0 n.

(** Returns the C result and the bytes written to dst. *)
Fixpoint copyin_loop (fuel : nat) (pagetable srcva : Z) (len : Z) : M kernel (Z * list Z) :=
  match fuel with
  | O => fun _ => Timeout
  | S fuel' =>
      if 0 <? len then
        let va0 := PGROUNDDOWN srcva in
        pa0 ← walkaddr pagetable va0;
        if pa0 =? 0 then mret (-1, []) else
        let n := Z.min (PGSIZE - (srcva - va0)) len in
        bs ← gets (fun s => load_bytes s.(mem) (pa0 + (srcva - va0)) (Z.to_nat n));
        rest ← copyin_loop fuel' pagetable (va0 + PGSIZE) (len - n);
        mret (rest.1, bs ++ rest.2)
      else mret (0, [])
  end.
Definition copyin (pagetable srcva len : Z) : M kernel (Z * list Z) :=
  copyin_loop (S (S (Z.to_nat len))) pagetable srcva len.

(** while(n > 0){ if( *p == 0){ ... break; } ... }: the bytes stored and got_null *)
Fixpoint copyinstr_chunk (n : nat) (m : gmap Z Z) (p : Z) : list Z * bool :=
  match n with
  | O => ([], false)
  | S n' =>
      if load8 m p =? 0 then ([0], true)
      else let '(bs, g) := copyinstr_chunk n' m (p + 1) in (load8 m p :: bs, g)
  end.

Fixpoint copyinstr_loop (fuel : nat) (pagetable srcva max : Z) : M kernel (Z * list Z) :=
  match fuel with
  | O => fun _ => Timeout
  | S fuel' =>
      if 0 <? max then
        let va0 := PGROUNDDOWN srcva in
        pa0 ← walkaddr pagetable va0;
        if pa0 =? 0 then mret (-1, []) else
        let n := Z.min (PGSIZE - (srcva - va0)) max in
        chunk ← gets (fun s => copyinstr_chunk (Z.to_nat n) s.(mem) (pa0 + (srcva - va0)));
        if (chunk.2 : bool) then mret (0, chunk.1) else
        rest ← copyinstr_loop fuel' pagetable (va0 + PGSIZE) (max - n);
        mret (rest.1, chunk.1 ++ rest.2)
      else mret (-1, [])
  end.
Definition copyinstr (pagetable srcva max : Z) : M kernel (Z * list Z) :=
  copyinstr_loop (S (S (Z.to_nat max))) pagetable srcva max.
End vm.
