(* ===== verification/PageTable.v ===== *)
(** * Page tables as finite maps

    The tree of page-table pages reachable from a root is described by a map [N]
    from index paths to pages; [lookup_pte] is the abstract contents of the table,
    a function from virtual pages to entries.  [walk] and [mappages] refine lookup
    and update of that function. *)

From S2P Require Import Prelude State Mem Riscv Kalloc Vm.

(** The level-2 and level-1 indices of an address. *)
Fixpoint path (level : nat) (va : Z) : list Z :=
  match level with O => [] | S level' => PX (Z.of_nat level) va :: path level' va end.

(** Address of the level-0 entry, when its table exists. *)
Definition slot (N : gmap (list Z) Z) (va : Z) : option Z :=
  (fun q => q + 8 * PX 0 va) <$> N !! path 2 va.

(** The entry for [va]; 0 (invalid) when there is no table for it. *)
Definition lookup_pte (m : gmap Z Z) (N : gmap (list Z) Z) (va : Z) : Z :=
  match slot N va with Some a => load64 m a | None => 0 end.

Section pagetable.
Context {L : Linker}.
Implicit Types (N : gmap (list Z) Z) (m : gmap Z Z) (s : kernel) (k : list Z) (l : list Z).

Record pt_wf m (root : Z) N : Prop := {
  wf_root : N !! [] = Some root;
  wf_page k p : N !! k = Some p -> page_ok p;
  wf_inj k k' p : N !! k = Some p -> N !! k' = Some p -> k = k';
  wf_path k i p : N !! (k ++ [i]) = Some p -> is_Some (N !! k) /\ 0 <= i < 512 /\ (length k < 2)%nat /\ (k = [] -> i < 256);
  wf_pte k p i : N !! k = Some p -> (length k < 2)%nat -> 0 <= i < 512 ->
    match N !! (k ++ [i]) with
    | Some q => load64 m (p + 8 * i) = Z.lor (PA2PTE q) PTE_V
    | None => has (load64 m (p + 8 * i)) PTE_V = false
    end;
}.

(** ** Entries *)

Lemma page_56 p : page_ok p -> 0 <= p < 2 ^ 56.
Proof. intros H. pose proof (page_pos p H). lia. Qed.

Lemma has_V_mk pa f : 0 <= pa < 2 ^ 56 -> 0 <= f < 1024 -> has (Z.lor (PA2PTE pa) f) PTE_V = has f PTE_V.
Proof.
  intros. unfold has. rewrite land_flags by (consts; lia).
  by rewrite PTE_FLAGS_mk_pte.
Qed.

Lemma table_entry p : page_ok p -> has (Z.lor (PA2PTE p) PTE_V) PTE_V = true /\ PTE2PA (Z.lor (PA2PTE p) PTE_V) = p.
Proof.
  intros Hp. pose proof (page_56 p Hp). split.
  - by rewrite has_V_mk.
  - rewrite PTE2PA_mk_pte; [done | done | apply Hp | done].
Qed.

Lemma entry_store p : page_ok p -> u64 (Z.lor (PA2PTE p) PTE_V) = Z.lor (PA2PTE p) PTE_V.
Proof. intros Hp. apply u64_small. pose proof (mk_pte_range p PTE_V (page_56 p Hp)). consts. lia. Qed.

(** Two entries in distinct pages, or at distinct indices, do not overlap. *)
Lemma entry_disjoint p q i j :
  p mod 4096 = 0 -> q mod 4096 = 0 -> 0 <= i < 512 -> 0 <= j < 512 -> p <> q \/ i <> j ->
  p + 8 * i + 8 <= q + 8 * j \/ q + 8 * j + 8 <= p + 8 * i.
Proof. dlia. Qed.

(** ** The tree only depends on its own pages *)

Lemma pt_wf_agree m m' root N :
  pt_wf m root N -> (forall k p, N !! k = Some p -> agree m m' p (p + 4096)) -> pt_wf m' root N.
Proof.
  intros [Hr Hp Hi Hpa He] Ha. constructor; [done.. |].
  intros k p i Hk Hl Hi'. specialize (He k p i Hk Hl Hi').
  rewrite (load64_agree m m' p (p + 4096)); [done | by eapply Ha | lia | lia].
Qed.

Lemma lookup_agree m m' root N va :
  pt_wf m root N -> (forall k p, N !! k = Some p -> agree m m' p (p + 4096)) ->
  lookup_pte m' N va = lookup_pte m N va.
Proof.
  intros Hw Ha. unfold lookup_pte, slot. destruct (N !! path 2 va) as [q|] eqn:E; simpl; [|done].
  pose proof (PX_range 0 va). eapply load64_agree; [by eapply Ha | lia | lia].
Qed.

Lemma path_ranges va : path 2 va = [PX 2 va; PX 1 va].
Proof. done. Qed.

(** No entry below a missing table. *)
Lemma pt_missing m root N k i l :
  pt_wf m root N -> N !! (k ++ [i]) = None -> N !! (k ++ i :: l) = None.
Proof.
  intros Hw H0. induction l as [|j l IH] using rev_ind; [done |].
  destruct (N !! (k ++ i :: l ++ [j])) as [p|] eqn:E; [|done].
  replace (k ++ i :: l ++ [j]) with ((k ++ i :: l) ++ [j]) in E by by rewrite <- app_assoc.
  apply (wf_path _ _ _ Hw) in E as [[? E] _]. congruence.
Qed.

(** ** walk() without allocation is lookup *)

Lemma walk_levels_lookup s root N va level : forall k p,
  pt_wf s.(mem) root N -> N !! k = Some p -> (length k + level = 2)%nat ->
  walk_levels level p va false s =
  Ok (match N !! (k ++ path level va) with Some q => q + 8 * PX 0 va | None => 0 end) s.
Proof.
  induction level as [|level IH]; intros k p Hw Hk Hl.
  - simpl. rewrite app_nil_r, Hk. done.
  - cbn [walk_levels path]. erewrite bind_Ok by done. cbv beta.
    pose proof (PX_range (Z.of_nat (S level)) va) as Hr.
    pose proof (wf_pte _ _ _ Hw k p (PX (Z.of_nat (S level)) va) Hk) as He.
    destruct (N !! (k ++ [PX (Z.of_nat (S level)) va])) as [q|] eqn:Eq.
    + rewrite He by lia. destruct (table_entry q) as [-> ->]; [by eapply wf_page |].
      rewrite (IH (k ++ [PX (Z.of_nat (S level)) va])); [|done | done | rewrite length_app; simpl; lia].
      by rewrite <- app_assoc.
    + rewrite He by lia. cbn [negb].
      by rewrite (pt_missing _ _ _ _ _ _ Hw Eq).
Qed.

Lemma walk_lookup s root N va :
  pt_wf s.(mem) root N -> va < MAXVA -> walk root va false s = Ok (default 0 (slot N va)) s.
Proof.
  intros Hw Hva. unfold walk. destruct (Z.leb_spec MAXVA va); [lia |].
  erewrite walk_levels_lookup; [|done | apply Hw | done]. unfold slot. simpl.
  by destruct (N !! _).
Qed.

Lemma slot_pos m root N va a : pt_wf m root N -> slot N va = Some a -> 0 < a.
Proof.
  intros Hw. unfold slot. destruct (N !! path 2 va) as [q|] eqn:E; [|done]. intros [= <-].
  pose proof (page_pos q (wf_page _ _ _ Hw _ _ E)). pose proof (PX_range 0 va). lia.
Qed.

(** What a caller of walk(pagetable, va, 0) learns: no entry, or its address. *)
Lemma walk_entry s root N va :
  pt_wf s.(mem) root N -> va < MAXVA ->
  exists a, walk root va false s = Ok a s /\
    ((a = 0 /\ slot N va = None /\ lookup_pte s.(mem) N va = 0) \/
     (a <> 0 /\ slot N va = Some a /\ load64 s.(mem) a = lookup_pte s.(mem) N va)).
Proof.
  intros Hw Hva. exists (default 0 (slot N va)). split; [by apply walk_lookup |].
  unfold lookup_pte. destruct (slot N va) as [a|] eqn:E; [right | by left].
  pose proof (slot_pos _ _ _ _ _ Hw E). simpl. split_and!; [lia | done | done].
Qed.

(** ** Updates *)

(** Storing a level-0 entry updates the abstract table at that page only. *)
Lemma pt_set m root N va a v :
  pt_wf m root N -> slot N va = Some a -> 0 <= va < MAXVA -> va mod 4096 = 0 ->
  pt_wf (store64 m a v) root N /\
  forall va', 0 <= va' < MAXVA -> va' mod 4096 = 0 ->
    lookup_pte (store64 m a v) N va' = if decide (va' = va) then u64 v else lookup_pte m N va'.
Proof.
  intros Hw Hs Hva Hal. pose proof Hw as [Hr Hp Hi Hpa He].
  unfold slot in Hs. destruct (N !! path 2 va) as [q|] eqn:Eq; [|done]. injection Hs as <-.
  pose proof (PX_range 0 va) as Hx. destruct (Hp _ _ Eq) as [Hq _]. split.
  - constructor; [done.. |]. intros k p i Hk Hl Hi'. rewrite load64_store64_ne; [by apply He |].
    apply entry_disjoint; try lia; [by apply Hp in Hk as [? _] |].
    left. intros ->. pose proof (Hi _ _ _ Eq Hk) as <-. simpl in Hl. lia.
  - intros va' Hva' Hal'. case_decide as Hd; unfold lookup_pte, slot.
    + subst va'. rewrite Eq. simpl. apply load64_store64_eq.
    + destruct (N !! path 2 va') as [q'|] eqn:Eq'; [|done]. simpl.
      pose proof (PX_range 0 va') as Hx'. apply load64_store64_ne.
      apply entry_disjoint; try lia; [by apply Hp in Eq' as [? _] |].
      destruct (decide (q = q')) as [<-|]; [right | by left]. intros E0.
      pose proof (Hi _ _ _ Eq Eq') as [=]. apply Hd. symmetry. by apply PX_inj.
Qed.

(** Hanging a zeroed page below entry [i] of node [k]. *)
Lemma pt_extend m root N k p i pg :
  pt_wf m root N -> N !! k = Some p -> (length k < 2)%nat -> 0 <= i < 512 -> (k = [] -> i < 256) -> N !! (k ++ [i]) = None ->
  page_ok pg -> (forall k', N !! k' <> Some pg) -> (forall j, 0 <= j < 512 -> load64 m (pg + 8 * j) = 0) ->
  let m' := store64 m (p + 8 * i) (Z.lor (PA2PTE pg) PTE_V) in
  let N' := <[k ++ [i] := pg]> N in
  pt_wf m' root N' /\ forall va, lookup_pte m' N' va = lookup_pte m N va.
Proof.
  intros Hw Hk Hl Hi Hi0 Hn Hpg Hfr Hz m' N'. pose proof Hw as [Hr Hp Hin Hpa He].
  assert (forall q j, page_ok q -> 0 <= j < 512 -> p <> q \/ i <> j -> load64 m' (q + 8 * j) = load64 m (q + 8 * j)) as Hne.
  { intros q j [Hq _] Hj Hd. apply load64_store64_ne. apply entry_disjoint; try done. by apply (Hp k). }
  assert (p <> pg) as Hppg by (intros ->; by eapply Hfr).
  split; [constructor|].
  - unfold N'. rewrite lookup_insert_ne; [done |]. by destruct k.
  - unfold N'. intros k' q. rewrite lookup_insert. case_decide; [by intros [= <-] | apply Hp].
  - unfold N'. intros k1 k2 q. rewrite !lookup_insert. case_decide as E1; case_decide as E2; [congruence | | | apply Hin].
    + intros [= <-] H2. by apply Hfr in H2.
    + intros H1 [= <-]. by apply Hfr in H1.
  - unfold N'. intros k' j q. rewrite !lookup_insert. case_decide as E.
    + apply app_inj_tail in E as [<- <-]. intros _. case_decide as E; [by apply (f_equal length) in E; rewrite length_app in E; simpl in E; lia |].
      rewrite Hk. eauto.
    + intros H. apply Hpa in H as ([q' Hq'] & ? & ?). split; [|done]. case_decide; eauto.
  - intros k' q j Hk' Hl' Hj. unfold N' in *. rewrite lookup_insert in Hk'. case_decide as E.
    + injection Hk' as <-. subst k'. rewrite lookup_insert_ne.
      * rewrite <- app_assoc. change ([i] ++ [j]) with [i; j]. rewrite (pt_missing _ _ _ _ i [j] Hw Hn). rewrite Hne; [by rewrite Hz | done | done | by left].
      * intros Ek. apply (f_equal length) in Ek. rewrite !length_app in Ek. simpl in Ek. lia.
    + rewrite lookup_insert. case_decide as E'.
      * apply app_inj_tail in E' as [-> ->]. rewrite Hk in Hk'. injection Hk' as <-.
        unfold m'. rewrite load64_store64_eq. by apply entry_store.
      * rewrite Hne; [by apply He | by eapply Hp | done |].
        destruct (decide (p = q)) as [<-|]; [right | by left].
        intros <-. apply E'. f_equal. by eapply Hin.
  - intros va. unfold lookup_pte, slot, N'. pose proof (PX_range 0 va) as Hx.
    rewrite lookup_insert. case_decide as E.
    + rewrite <- E, Hn. simpl. rewrite Hne; [apply Hz; lia | done | lia | by left].
    + destruct (N !! path 2 va) as [q|] eqn:Eq; simpl; [|done].
      apply Hne; [by eapply Hp | lia |]. left. intros ->.
      pose proof (Hin _ _ _ Hk Eq) as ->. simpl in Hl. lia.
Qed.

(** ** Page tables and the allocator *)

Definition outside (a p : Z) : Prop := a < p \/ p + 4096 <= a.

Record pt_inv s (root : Z) N l : Prop := {
  pi_wf : pt_wf s.(mem) root N;
  pi_kmem : kmem_inv s l;
  pi_lock : LkKmem ∉ s.(held);
  pi_sep k p : N !! k = Some p -> p ∉ l;
}.

(** The tree has grown from [N] to [N'] using pages [l1] of the free list; memory
    outside the pages of [N] and [l1] is untouched. *)
Record grows s s' N N' l1 : Prop := {
  g_only : only_mem s s';
  g_sub : N ⊆ N';
  g_new k p : N' !! k = Some p -> N !! k = Some p \/ p ∈ l1;
  g_used p : p ∈ l1 -> exists k, N' !! k = Some p;
  g_frame a : (forall k p, N !! k = Some p -> outside a p) -> (forall p, p ∈ l1 -> outside a p) ->
    load8 s'.(mem) a = load8 s.(mem) a;
}.

(** The tables that are new are those of [P]. *)
Definition new_on N N' (P : list Z -> Prop) : Prop := forall k, is_Some (N' !! k) -> N !! k = None -> P k.
(** The tables of an address below the root. *)
Definition table_of (va : Z) k : Prop := k = [PX 2 va] \/ k = [PX 2 va; PX 1 va].

Lemma new_on_refl N P : new_on N N P.
Proof. intros k [p Hp] Hn. congruence. Qed.

Lemma new_on_trans N1 N2 N3 (P Q : list Z -> Prop) : new_on N1 N2 P -> new_on N2 N3 Q -> new_on N1 N3 (fun k => P k \/ Q k).
Proof. intros H1 H2 k Hk Hn. destruct (N2 !! k) as [p|] eqn:E; [left; apply H1; [by eexists | done] | right; by apply H2]. Qed.

Lemma new_on_mono N N' (P Q : list Z -> Prop) : new_on N N' P -> (forall k, P k -> Q k) -> new_on N N' Q.
Proof. intros H HPQ k Hk Hn. by apply HPQ, H. Qed.

Lemma grows_refl s N : grows s s N N [].
Proof. constructor; auto using only_mem_refl. set_solver +. Qed.

Lemma grows_trans s1 s2 s3 N1 N2 N3 l1 l2 :
  grows s1 s2 N1 N2 l1 -> grows s2 s3 N2 N3 l2 -> grows s1 s3 N1 N3 (l1 ++ l2).
Proof.
  intros [O1 S1 W1 U1 F1] [O2 S2 W2 U2 F2]. constructor.
  - by eapply only_mem_trans.
  - by trans N2.
  - intros k p H. destruct (W2 k p H) as [H'|H']; [|set_solver]. destruct (W1 k p H'); set_solver.
  - intros p [H|H]%elem_of_app; [|auto]. destruct (U1 p H) as [k Hk]. exists k. by eapply lookup_weaken.
  - intros a HN Hl. rewrite F2; [apply F1; set_solver | | set_solver].
    intros k p H. destruct (W1 k p H); [by eapply HN | set_solver].
Qed.

Lemma outside_pages a p q : p mod 4096 = 0 -> q mod 4096 = 0 -> p <> q -> q <= a < q + 4096 -> outside a p.
Proof. unfold outside. dlia. Qed.

(** kalloc(), memset(), and the store of the new table's entry, as walk() does. *)
Lemma walk_new_table s root N pg l k p i :
  pt_inv s root N (pg :: l) -> N !! k = Some p -> (length k < 2)%nat -> 0 <= i < 512 ->
  (k = [] -> i < 256) -> N !! (k ++ [i]) = None ->
  exists s1 s2, kalloc s = Ok pg s1 /\ pg <> 0 /\
    s2 = set_mem (store64 (memset s1.(mem) pg 0 PGSIZE) (p + 8 * i) (Z.lor (PA2PTE pg) PTE_V)) s1 /\
    pt_inv s2 root (<[k ++ [i] := pg]> N) l /\ grows s s2 N (<[k ++ [i] := pg]> N) [pg] /\
    forall va, lookup_pte s2.(mem) (<[k ++ [i] := pg]> N) va = lookup_pte s.(mem) N va.
Proof.
  intros [Hw Hkm Hlk Hsep] Hk Hl Hi Hi0 Hn. pose proof (wf_page _ _ _ Hw) as Hpg.
  destruct (kalloc_spec s (pg :: l) Hkm Hlk) as (s1 & E1 & Hkm1 & Es1).
  pose proof Hkm as [Hfl Hnd]. apply freelist_pages in Hfl. apply Forall_cons in Hfl as [Hpgok Hlok].
  apply NoDup_cons in Hnd as [Hpgl Hndl]. rewrite Forall_forall in Hlok.
  set (m2 := memset s1.(mem) pg 0 PGSIZE).
  assert (forall a, outside a pg -> load8 m2 a = load8 s.(mem) a) as Hm2.
  { intros a Ha. unfold m2. rewrite memset_outside, Es1 by done. simpl. by rewrite memset_outside. }
  assert (forall k' q, N !! k' = Some q -> q <> pg) as Hne by (intros k' q Hq ->; apply (Hsep k' pg Hq); set_solver +).
  assert (forall k' q, N !! k' = Some q -> agree s.(mem) m2 q (q + 4096)) as Hag.
  { intros k' q Hq a Ha. apply Hm2. eapply outside_pages; [apply Hpgok | apply (Hpg k' q Hq) | | exact Ha].
    specialize (Hne k' q Hq). congruence. }
  destruct (pt_extend m2 root N k p i pg) as [Hw' Hlk']; try done.
  { by eapply pt_wf_agree. }
  { intros k' Hk'. by apply Hne in Hk'. }
  { intros j Hj. apply load64_memset0; consts; lia. }
  assert (forall a, outside a p -> load8 (store64 m2 (p + 8 * i) (Z.lor (PA2PTE pg) PTE_V)) a = load8 m2 a) as Hst
    by (intros a Ha; unfold outside in Ha; apply load8_store64_ne; lia).
  exists s1. eexists. split_and!; [done | pose proof (page_pos pg Hpgok); lia | done | | |].
  - constructor; simpl; [done | | by rewrite Es1 |].
    + eapply kmem_inv_frame; [exact Hkm1 | done |]. intros q Hq a Ha. simpl.
      rewrite Hst by (eapply outside_pages; [apply (Hpg k p Hk) | apply (Hlok q Hq) | | exact Ha];
        intros ->; apply (Hsep k q Hk); set_solver + Hq).
      unfold m2. apply memset_outside. apply (outside_pages a pg q); [apply Hpgok | apply (Hlok q Hq) | set_solver + Hq Hpgl | done].
    + intros k' q. rewrite lookup_insert. case_decide; [intros [= <-]; done |].
      intros Hq. specialize (Hsep k' q Hq). set_solver + Hsep.
  - constructor; simpl.
    + rewrite Es1. unfold only_mem. by kstate.
    + by apply insert_subseteq.
    + intros k' q. rewrite lookup_insert. case_decide; [intros [= <-]; set_solver + | by left].
    + intros q ->%list_elem_of_singleton. exists (k ++ [i]). apply lookup_insert_eq.
    + intros a HN H1. rewrite Hst by (by eapply HN). apply Hm2. apply H1. set_solver +.
  - intros va. simpl. rewrite Hlk'. by eapply lookup_agree.
Qed.

Lemma walk_levels_alloc root va level : 0 <= va < MAXVA -> forall k p s N l,
  pt_inv s root N l -> N !! k = Some p -> (length k + level = 2)%nat ->
  exists r s' N' l1 l2, walk_levels level p va true s = Ok r s' /\ l = l1 ++ l2 /\
    pt_inv s' root N' l2 /\ grows s s' N N' l1 /\
    (forall va', lookup_pte s'.(mem) N' va' = lookup_pte s.(mem) N va') /\
    new_on N N' (fun k' => exists j, (1 <= j <= level)%nat /\ k' = k ++ take j (path level va)) /\
    ((r = 0 /\ l2 = [] /\ (length l1 < level)%nat) \/
     (length l1 <= level)%nat /\ exists q, N' !! (k ++ path level va) = Some q /\ r = q + 8 * PX 0 va).
Proof.
  intros Hva. induction level as [|level IH]; intros k p s N l Hinv Hk Hlen.
  - exists (p + 8 * PX 0 va), s, N, [], l. split_and!; auto using grows_refl, new_on_refl.
    right. split; [simpl; lia |]. exists p. simpl. by rewrite app_nil_r.
  - cbn [walk_levels path]. erewrite bind_Ok by done. cbv beta. set (i := PX (Z.of_nat (S level)) va).
    pose proof (PX_range (Z.of_nat (S level)) va) as Hr. fold i in Hr.
    pose proof (wf_pte _ _ _ (pi_wf _ _ _ _ Hinv) k p i Hk) as He.
    destruct (N !! (k ++ [i])) as [q|] eqn:Eq.
    + rewrite He by lia. destruct (table_entry q) as [-> ->]; [by eapply wf_page; [apply Hinv|] |].
      destruct (IH (k ++ [i]) q s N l) as (r & s' & N' & l1 & l2 & E & H1 & H2 & H3 & H4 & Hnew & H5);
        [done | done | rewrite length_app; simpl; lia |].
      exists r, s', N', l1, l2. rewrite <- app_assoc in H5. split_and!; try done.
      { eapply new_on_mono; [exact Hnew |]. intros k' (j & Hj & ->). exists (S j). split; [lia |]. by rewrite <- app_assoc. }
      destruct H5 as [(? & ? & ?)|[? ?]]; [left | right]; split_and!; done || lia.
    + rewrite He by lia. cbn [negb]. destruct l as [|pg l].
      * erewrite bind_Ok by (apply (kalloc_spec s []); apply Hinv). simpl.
        exists 0, s, N, [], []. split_and!; auto using grows_refl, new_on_refl. left. split_and!; [done | done | simpl; lia].
      * destruct (walk_new_table s root N pg l k p i) as (s1 & s2 & E1 & Hpg0 & E2 & Hinv2 & Hg & Hlk); try done; try lia.
        { intros ->. simpl in Hlen. assert (level = 1%nat) as -> by lia. unfold i. by apply PX2_range. }
        erewrite bind_Ok by exact E1. destruct (Z.eqb_spec pg 0); [lia |].
        erewrite bind_Ok by done. erewrite bind_Ok by done. 
        match goal with |- context [walk_levels level pg va true ?st] => replace st with s2 by (rewrite E2; reflexivity) end.
        destruct (IH (k ++ [i]) pg s2 (<[k ++ [i] := pg]> N) l) as (r & s' & N' & l1 & l2 & E & -> & H3 & H4 & H5 & Hnew & H6);
          [done | apply lookup_insert_eq | rewrite length_app; simpl; lia |].
        exists r, s', N', (pg :: l1), l2. split_and!; [done | done | done | | | |].
        -- change (pg :: l1) with ([pg] ++ l1). by eapply grows_trans.
        -- intros va'. rewrite H5. apply Hlk.
        -- intros k' Hk' Hn'. destruct (decide (k' = k ++ [i])) as [->|Hne]; [exists 1%nat; split; [lia | done] |].
           destruct (Hnew k' Hk') as (j & Hj & ->); [by rewrite lookup_insert_ne |]. exists (S j). split; [lia |]. by rewrite <- app_assoc.
        -- rewrite <- app_assoc in H6. destruct H6 as [(? & ? & ?)|[? ?]]; [left | right]; split_and!; done || (simpl; lia).
Qed.

Lemma walk_alloc s root N l va :
  pt_inv s root N l -> 0 <= va < MAXVA ->
  exists r s' N' l1 l2, walk root va true s = Ok r s' /\ l = l1 ++ l2 /\
    pt_inv s' root N' l2 /\ grows s s' N N' l1 /\
    (forall va', lookup_pte s'.(mem) N' va' = lookup_pte s.(mem) N va') /\ new_on N N' (table_of va) /\
    ((r = 0 /\ l2 = [] /\ (length l1 < 2)%nat) \/ ((length l1 <= 2)%nat /\ slot N' va = Some r)).
Proof.
  intros Hi Hva. unfold walk. destruct (Z.leb_spec MAXVA va); [lia |].
  destruct (walk_levels_alloc root va 2 Hva [] root s N l) as (r & s' & N' & l1 & l2 & E & H1 & H2 & H3 & H4 & Hnew & H5);
    [done | apply Hi | done |].
  exists r, s', N', l1, l2. split_and!; try done.
  { eapply new_on_mono; [exact Hnew |]. intros k (j & Hj & ->). destruct j as [|[|[|j]]]; try lia; [by left | by right]. }
  destruct H5 as [?|(? & q & Hq & ->)]; [by left |].
  right. split; [done |]. unfold slot. simpl in *. by rewrite Hq.
Qed.

(** Storing an entry at the slot walk() found. *)
Lemma pt_store s root N l va a v :
  pt_inv s root N l -> slot N va = Some a -> 0 <= va < MAXVA -> va mod 4096 = 0 ->
  let s' := set_mem (store64 s.(mem) a v) s in
  pt_inv s' root N l /\ grows s s' N N [] /\
  forall va', 0 <= va' < MAXVA -> va' mod 4096 = 0 ->
    lookup_pte s'.(mem) N va' = if decide (va' = va) then u64 v else lookup_pte s.(mem) N va'.
Proof.
  intros [Hw Hkm Hlk Hsep] Hs Hva Hal s'.
  destruct (pt_set s.(mem) root N va a v Hw Hs Hva Hal) as [Hw' Hlk'].
  unfold slot in Hs. destruct (N !! path 2 va) as [q|] eqn:Eq; [|done]. injection Hs as <-.
  pose proof (PX_range 0 va) as Hx. pose proof (wf_page _ _ _ Hw _ _ Eq) as [Hq _].
  assert (forall x, outside x q -> load8 s'.(mem) x = load8 s.(mem) x) as Hst
    by (intros x Ho; unfold outside in Ho; simpl; apply load8_store64_ne; lia).
  split_and!; [constructor; try done | constructor; try done | done].
  - eapply kmem_inv_frame; [exact Hkm | done |]. intros p Hp x Hx'. apply Hst.
    pose proof Hkm as [Hf _]. apply freelist_pages in Hf. rewrite Forall_forall in Hf. destruct (Hf p Hp) as [Hp4 _].
    eapply outside_pages; [done | exact Hp4 | | exact Hx']. intros ->. by eapply Hsep.
  - by left.
  - set_solver +.
  - intros x HN _. apply Hst. by eapply HN.
Qed.

(** The table [m', N'] is [m, N] with the [n] pages from [a] mapped to the pages
    from [pa], with flag bits [f]. *)
Definition mapped (m : gmap Z Z) N (m' : gmap Z Z) N' (a n pa f : Z) : Prop :=
  forall va, 0 <= va < MAXVA -> va mod 4096 = 0 ->
    lookup_pte m' N' va =
    if decide (a <= va < a + 4096 * n) then Z.lor (PA2PTE (pa + (va - a))) f else lookup_pte m N va.

(** One iteration of mappages(): walk() either runs out of memory, having changed
    nothing in the abstract table, or yields the slot at which the entry is stored. *)
Lemma mappages_step s root N l a pa perm :
  pt_inv s root N l -> 0 <= a < MAXVA -> a mod 4096 = 0 -> 0 <= pa < 2 ^ 56 ->
  0 <= Z.lor perm PTE_V < 1024 -> has (lookup_pte s.(mem) N a) PTE_V = false ->
  exists r s1 N1 l1 l2, walk root a true s = Ok r s1 /\ l = l1 ++ l2 /\ new_on N N1 (table_of a) /\
    ((r = 0 /\ l2 = [] /\ (length l1 < 2)%nat /\ pt_inv s1 root N1 [] /\ grows s s1 N N1 l1 /\
      mapped s.(mem) N s1.(mem) N1 a 0 pa (Z.lor perm PTE_V)) \/
     (r <> 0 /\ (length l1 <= 2)%nat /\ has (load64 s1.(mem) r) PTE_V = false /\
      let s2 := set_mem (store64 s1.(mem) r (Z.lor (Z.lor (PA2PTE pa) perm) PTE_V)) s1 in
      pt_inv s2 root N1 l2 /\ grows s s2 N N1 l1 /\
      mapped s.(mem) N s2.(mem) N1 a 1 pa (Z.lor perm PTE_V))).
Proof.
  intros Hi Ha Hal Hpa Hperm Hv.
  destruct (walk_alloc s root N l a) as (r & s1 & N1 & l1 & l2 & E & -> & Hi1 & Hg1 & Hk1 & Hnew & Hr); [done | lia |].
  exists r, s1, N1, l1, l2. split; [done |]. split; [done |]. split; [done |]. destruct Hr as [(-> & -> & Hc)|[Hc Hs]].
  - left. split_and!; try done. intros va _ _. rewrite decide_False by lia. apply Hk1.
  - right. pose proof (slot_pos _ _ _ _ _ (pi_wf _ _ _ _ Hi1) Hs) as Hpos. split; [lia |]. split; [done |].
    assert (load64 s1.(mem) r = lookup_pte s.(mem) N a) as ->
      by (rewrite <- Hk1; unfold lookup_pte; by rewrite Hs).
    split; [done |]. set (v := Z.lor (Z.lor (PA2PTE pa) perm) PTE_V). intros s2.
    destruct (pt_store s1 root N1 l2 a r v) as (Hi2 & Hg2 & Hk2); [done | done | lia | done |].
    fold s2 in Hi2, Hg2, Hk2. split_and!; [done | rewrite <- (app_nil_r l1); by eapply grows_trans |].
    intros va Hva Hva4. rewrite Hk2, Hk1 by done. destruct (decide (va = a)) as [->|].
    + rewrite decide_True by lia. unfold v. rewrite <- Z.lor_assoc.
      replace (pa + (a - a)) with pa by lia. apply u64_small.
      pose proof (mk_pte_range pa (Z.lor perm PTE_V)). lia.
    + rewrite decide_False by dlia. done.
Qed.

Lemma mapped_compose m N m1 N1 m2 N2 a j pa f :
  a mod 4096 = 0 -> 0 <= j ->
  mapped m N m1 N1 a 1 pa f -> mapped m1 N1 m2 N2 (a + 4096) j (pa + 4096) f ->
  mapped m N m2 N2 a (j + 1) pa f.
Proof.
  intros Ha Hj H1 H2 va Hva Hva4. rewrite H2, H1 by done.
  destruct (decide (a + 4096 <= va < a + 4096 + 4096 * j)), (decide (a <= va < a + 4096 * 1)),
    (decide (a <= va < a + 4096 * (j + 1))); try lia; try dlia. do 2 f_equal. lia.
Qed.

Lemma mappages_loop_spec root perm last n : forall fuel a pa s N l,
  pt_inv s root N l -> 0 <= a -> a mod 4096 = 0 -> a + 4096 * Z.of_nat n = last -> last < MAXVA ->
  0 <= pa -> pa + 4096 * Z.of_nat n < 2 ^ 56 -> 0 <= Z.lor perm PTE_V < 1024 ->
  (forall i, 0 <= i <= Z.of_nat n -> has (lookup_pte s.(mem) N (a + 4096 * i)) PTE_V = false) ->
  (n < fuel)%nat ->
  exists r s' N' l1 l2 j, mappages_loop fuel root a last pa perm s = Ok r s' /\ l = l1 ++ l2 /\
    pt_inv s' root N' l2 /\ grows s s' N N' l1 /\ 0 <= j /\
    mapped s.(mem) N s'.(mem) N' a j pa (Z.lor perm PTE_V) /\
    new_on N N' (fun k => exists i, 0 <= i <= Z.of_nat n /\ table_of (a + 4096 * i) k) /\
    ((r = 0 /\ j = Z.of_nat n + 1 /\ (length l1 <= 2 * n + 2)%nat) \/
     (r = -1 /\ j <= Z.of_nat n /\ l2 = [] /\ (length l1 < 2 * n + 2)%nat)).
Proof.
  induction n as [|n IH]; intros fuel a pa s N l Hi Ha Hal Hlast Hmax Hpa Hpe Hperm Hinvld Hf;
    (destruct fuel as [|fuel]; [lia |]); cbn [mappages_loop].
  all: pose proof (Hinvld 0) as Hv0; rewrite Z.mul_0_r, Z.add_0_r in Hv0.
  all: destruct (mappages_step s root N l a pa perm) as (r & s1 & N1 & l1 & l2 & E & -> & Hnew & Hr);
    [done | lia | done | lia | done | apply Hv0; lia |]; erewrite bind_Ok by exact E.
  all: assert (forall hi : Z, 0 <= hi -> new_on N N1 (fun k => exists i, 0 <= i <= hi /\ table_of (a + 4096 * i) k)) as Hnew1
    by (intros hi Hhi; eapply new_on_mono; [exact Hnew |]; intros k Hk; exists 0; split; [lia | by replace (a + 4096 * 0) with a by lia]).
  all: destruct Hr as [(-> & -> & Hc & Hi1 & Hg1 & Hm1)|(Hr0 & Hc & Hnv & Hi2 & Hg & Hm1)];
    [exists (-1), s1, N1, l1, [], 0; split_and!; try done; [apply Hnew1; lia | right; split_and!; [done | lia | done | lia]] |].
  all: destruct (Z.eqb_spec r 0); [lia |]; erewrite bind_Ok by done; cbv beta; rewrite Hnv;
    erewrite bind_Ok by done; set (s2 := set_mem _ s1) in *.
  - destruct (Z.eqb_spec a last); [|lia].
    exists 0, s2, N1, l1, l2, 1. split_and!; try done; [by apply Hnew1 |]. left. split_and!; done || lia.
  - destruct (Z.eqb_spec a last); [lia |]. consts.
    rewrite (u64_small (a + 4096)), (u64_small (pa + 4096)) by lia.
    destruct (IH fuel (a + 4096) (pa + 4096) s2 N1 l2) as (r' & s3 & N3 & l3 & l4 & j & E3 & -> & Hi3 & Hg3 & Hj & Hm3 & Hnew3 & Hr3);
      try done; try lia; try dlia.
    { intros i Hii. rewrite Hm1 by (consts; dlia). rewrite decide_False by lia.
      replace (a + 4096 + 4096 * i) with (a + 4096 * (i + 1)) by lia. apply Hinvld. lia. }
    exists r', s3, N3, (l1 ++ l3), l4, (j + 1).
    split_and!; try done; try lia; [by rewrite app_assoc | by eapply grows_trans | by eapply mapped_compose | |].
    { eapply new_on_mono; [eapply new_on_trans; [apply (Hnew1 0); lia | exact Hnew3] |]. intros k [(i & Hii & Hk)|(i & Hii & Hk)]; [exists i; split; [lia | done] |].
      exists (i + 1). split; [lia |]. by replace (a + 4096 * (i + 1)) with (a + 4096 + 4096 * i) by lia. }
    destruct Hr3 as [(-> & -> & ?)|(-> & ? & -> & ?)]; [left | right]; split_and!; done || (rewrite ?length_app; lia).
Qed.

Lemma lor_1024 a b : 0 <= a < 1024 -> 0 <= b < 1024 -> 0 <= Z.lor a b < 1024.
Proof.
  intros Ha Hb. split; [apply Z.lor_nonneg; lia |].
  assert (Z.log2 a < 10 /\ Z.log2 b < 10) as [? ?].
  { change 10 with (Z.succ (Z.log2 512)). rewrite !Z.lt_succ_r. split;
      (change (Z.log2 512) with (Z.log2 1023); apply Z.log2_le_mono; lia). }
  apply Z.log2_lt_cancel. rewrite Z.log2_lor by lia. change (Z.log2 1024) with 10. lia.
Qed.

Lemma flags_V_range perm : 0 <= perm < 1024 -> 0 <= Z.lor perm PTE_V < 1024.
Proof. intros. apply lor_1024; consts; lia. Qed.

(** mappages() on a range no page of which is mapped, with the tables it makes. *)
Lemma mappages_run s root N l va size pa perm :
  pt_inv s root N l ->
  0 <= va -> va mod 4096 = 0 -> 0 < size -> size mod 4096 = 0 -> va + size <= MAXVA ->
  0 <= pa -> pa + size <= 2 ^ 56 -> 0 <= perm < 1024 ->
  (forall v, va <= v < va + size -> v mod 4096 = 0 -> has (lookup_pte s.(mem) N v) PTE_V = false) ->
  exists r s' N' (used rest : list Z) done_pages,
    mappages root va size pa perm s = Ok r s' /\ l = used ++ rest /\
    pt_inv s' root N' rest /\ grows s s' N N' used /\
    mapped s.(mem) N s'.(mem) N' va done_pages pa (Z.lor perm PTE_V) /\
    new_on N N' (fun k => exists v, va <= v < va + size /\ table_of v k) /\
    ((r = 0 /\ done_pages = size / 4096) \/
     (r = -1 /\ 0 <= done_pages < size / 4096 /\ rest = [] /\ Z.of_nat (length l) < 2 * (size / 4096))).
Proof.
  intros Hi Hva Hva4 Hsz Hsz4 Hmax Hpa Hpe Hperm Hfree. unfold mappages. consts.
  rewrite Hva4, Hsz4. simpl negb. cbn iota. destruct (Z.eqb_spec size 0); [lia |].
  rewrite u64_small by (consts; dlia).
  destruct (mappages_loop_spec root perm (va + size - 4096) (Z.to_nat (size / 4096 - 1))
    (S (Z.to_nat (size / 4096))) va pa s N l)
    as (r & s' & N' & l1 & l2 & j & E & Hl & Hi' & Hg & Hj & Hm & Hnew & Hr); try done; try (consts; dlia).
  - by apply flags_V_range.
  - intros i Hii. apply Hfree; dlia.
  - exists r, s', N', l1, l2, j. split_and!; try done.
    + eapply new_on_mono; [exact Hnew |]. intros k (i & Hii & Hk). exists (va + 4096 * i). split; [dlia | done].
    + destruct Hr as [(-> & -> & ?)|(-> & ? & -> & ?)]; [left | right]; split_and!; try done; try dlia.
      rewrite Hl, app_nil_r. dlia.
Qed.

(** C3. mappages() on a well-formed tree, for a page-aligned range no page of
    which is mapped yet.  It returns 0 having mapped exactly the pages of the range,
    or -1 having mapped a proper prefix of it, which happens only when the allocator
    is exhausted and had fewer than two free pages for each page to map.  Every other translation is kept, the tree stays well formed, the
    pages taken from the free list are new tables of the tree, and memory outside
    the old and new tables is not written. *)
Theorem mappages_spec s root N l va size pa perm :
  pt_inv s root N l ->
  0 <= va -> va mod 4096 = 0 -> 0 < size -> size mod 4096 = 0 -> va + size <= MAXVA ->
  0 <= pa -> pa + size <= 2 ^ 56 -> 0 <= perm < 1024 ->
  (forall v, va <= v < va + size -> v mod 4096 = 0 -> has (lookup_pte s.(mem) N v) PTE_V = false) ->
  exists r s' N' (used rest : list Z) done_pages,
    mappages root va size pa perm s = Ok r s' /\ l = used ++ rest /\
    pt_inv s' root N' rest /\ grows s s' N N' used /\
    mapped s.(mem) N s'.(mem) N' va done_pages pa (Z.lor perm PTE_V) /\
    ((r = 0 /\ done_pages = size / 4096) \/ 
     (r = -1 /\ 0 <= done_pages < size / 4096 /\ rest = [] /\ Z.of_nat (length l) < 2 * (size / 4096))).
Proof.
  intros Hi Hva Hva4 Hsz Hsz4 Hmax Hpa Hpe Hperm Hfree.
  destruct (mappages_run s root N l va size pa perm) as (r & s' & N' & used & rest & j & E & Hl & Hi' & Hg & Hm & _ & Hr); try done.
  exists r, s', N', used, rest, j. done.
Qed.
End pagetable.
