(* ===== verification/Uvm.v ===== *)
(** * User address spaces

    [as_inv] describes the address space of one process: a well-formed page-table
    tree [N], the user pages [D] (virtual page to physical page), and the free
    list [l], all disjoint.  On top of it: what the kernel can read and write
    through copyin()/copyout(), and how uvmalloc()/uvmunmap() change the space. *)

From S2P Require Import Prelude State Mem Riscv Kalloc Vm PageTable.

(** Flag tests on an entry *)
Definition readable (e : Z) : bool := has e PTE_V && has e PTE_U.
Definition writable (e : Z) : bool := has e PTE_V && has e PTE_U && has e PTE_W.

(** The byte a user program sees at [va]. *)
Definition ubyte (m : gmap Z Z) (D : gmap Z Z) (va : Z) : option Z :=
  (fun pa => load8 m (pa + va mod 4096)) <$> D !! PGROUNDDOWN va.

Section uvm.
Context {L : Linker}.
Implicit Types (N : gmap (list Z) Z) (m D : gmap Z Z) (s : kernel) (l : list Z).

Record as_inv s (root : Z) N D l : Prop := {
  as_pt : pt_inv s root N l;
  as_va va pa : D !! va = Some pa -> 0 <= va < MAXVA /\ va mod 4096 = 0 /\ page_ok pa;
  as_ent va pa : D !! va = Some pa ->
    exists f, lookup_pte s.(mem) N va = Z.lor (PA2PTE pa) f /\ 0 <= f < 1024 /\ has f PTE_V = true /\ f <> PTE_V;
  as_user va : 0 <= va < MAXVA -> va mod 4096 = 0 -> readable (lookup_pte s.(mem) N va) = true -> is_Some (D !! va);
  as_inj va va' pa : D !! va = Some pa -> D !! va' = Some pa -> va = va';
  as_sepN va pa k : D !! va = Some pa -> N !! k <> Some pa;
  as_sepl va pa : D !! va = Some pa -> pa ∉ l;
}.

Lemma PGROUNDDOWN_spec va : 0 <= va -> PGROUNDDOWN va mod 4096 = 0 /\ PGROUNDDOWN va <= va < PGROUNDDOWN va + 4096.
Proof. intros. rewrite PGROUNDDOWN_eq. dlia. Qed.

Lemma PGROUNDDOWN_in va0 va : va0 mod 4096 = 0 -> va0 <= va < va0 + 4096 -> PGROUNDDOWN va = va0.
Proof. intros. rewrite PGROUNDDOWN_eq. dlia. Qed.

Lemma mod_page va0 va : va0 mod 4096 = 0 -> va0 <= va < va0 + 4096 -> va mod 4096 = va - va0.
Proof. intros. dlia. Qed.

(** The entry of a user page leads to its physical page. *)
Lemma as_entry s root N D l va pa :
  as_inv s root N D l -> D !! va = Some pa ->
  has (lookup_pte s.(mem) N va) PTE_V = true /\ PTE2PA (lookup_pte s.(mem) N va) = pa /\
  PTE_FLAGS (lookup_pte s.(mem) N va) <> PTE_V /\ exists a, slot N va = Some a.
Proof.
  intros Hi Hd. destruct (as_ent _ _ _ _ _ Hi va pa Hd) as (f & E & Hf & Hv & Hne).
  destruct (as_va _ _ _ _ _ Hi va pa Hd) as (_ & _ & Hp). pose proof (page_56 pa Hp).
  rewrite E. split_and!.
  - by rewrite has_V_mk.
  - by rewrite PTE2PA_mk_pte by (done || apply Hp).
  - by rewrite PTE_FLAGS_mk_pte.
  - unfold lookup_pte in E. destruct (slot N va); [eauto |]. exfalso.
    rewrite <- has_V_mk with (pa := pa) in Hv by done. by rewrite <- E in Hv.
Qed.

(** Writing inside one user page keeps the address space. *)
Lemma as_write s root N D l va pa m' :
  as_inv s root N D l -> D !! va = Some pa ->
  (forall a, outside a pa -> load8 m' a = load8 s.(mem) a) ->
  as_inv (set_mem m' s) root N D l /\ forall va', lookup_pte m' N va' = lookup_pte s.(mem) N va'.
Proof.
  intros Hi Hd Hm. pose proof Hi as [[Hw Hkm Hlk Hsep] Hva Hent Hus Hin HsN Hsl].
  destruct (Hva va pa Hd) as (_ & _ & [Hpa4 Hpa]).
  assert (forall k p, N !! k = Some p -> agree s.(mem) m' p (p + 4096)) as Hag.
  { intros k p Hk a Ha. apply Hm. eapply outside_pages; [done | apply (wf_page _ _ _ Hw k p Hk) | | exact Ha].
    intros ->. by eapply HsN. }
  assert (forall va', lookup_pte m' N va' = lookup_pte s.(mem) N va') as Hlk' by (intros; by eapply lookup_agree).
  split; [|done]. constructor; simpl; try done.
  - constructor; simpl; [by eapply pt_wf_agree | | done | done].
    eapply kmem_inv_frame; [exact Hkm | done |]. intros q Hq a Ha. simpl. apply Hm.
    pose proof Hkm as [Hf _]. apply freelist_pages in Hf. rewrite Forall_forall in Hf.
    eapply outside_pages; [done | apply (Hf q Hq) | | exact Ha]. intros ->. by eapply Hsl.
  - intros va' pa' Hd'. rewrite Hlk'. by apply Hent.
  - intros va' H1 H2. rewrite Hlk'. by apply Hus.
Qed.

(** ** Copying to user space *)

Lemma load8_store_bytes bs : forall m a b,
  load8 (store_bytes m a bs) b =
  if decide (a <= b < a + Z.of_nat (length bs)) then u8 (default 0 (bs !! Z.to_nat (b - a))) else load8 m b.
Proof.
  induction bs as [|x bs IH]; intros m a b; simpl store_bytes; simpl length.
  - by rewrite decide_False by lia.
  - rewrite IH. destruct (decide (a = b)) as [<-|].
    + rewrite decide_False by lia. rewrite decide_True by lia. rewrite load8_store8_eq.
      by rewrite Z.sub_diag.
    + rewrite load8_store8_ne by done. repeat case_decide; try lia.
      replace (Z.to_nat (b - a)) with (S (Z.to_nat (b - (a + 1)))) by lia. done.
Qed.

(** One page of copyout(): the address space is kept and the bytes appear at [va]. *)
Lemma copyout_page s root N D l va pa bs :
  as_inv s root N D l -> 0 <= va -> D !! PGROUNDDOWN va = Some pa ->
  va + Z.of_nat (length bs) <= PGROUNDDOWN va + 4096 ->
  let s' := set_mem (store_bytes s.(mem) (pa + (va - PGROUNDDOWN va)) bs) s in
  as_inv s' root N D l /\ (forall va', lookup_pte s'.(mem) N va' = lookup_pte s.(mem) N va') /\
  (forall a, outside a pa -> load8 s'.(mem) a = load8 s.(mem) a) /\
  (forall x, 0 <= x -> ubyte s'.(mem) D x =
     if decide (va <= x < va + Z.of_nat (length bs)) then u8 <$> bs !! Z.to_nat (x - va) else ubyte s.(mem) D x).
Proof.
  intros Hi Hva Hd Hlen s'. destruct (PGROUNDDOWN_spec va Hva) as [H4 Hin].
  assert (forall a, outside a pa -> load8 s'.(mem) a = load8 s.(mem) a) as Hout.
  { intros a Ha. unfold outside in Ha. simpl. rewrite load8_store_bytes. by rewrite decide_False by lia. }
  destruct (as_write s root N D l (PGROUNDDOWN va) pa s'.(mem) Hi Hd Hout) as [Hi' Hlk'].
  split_and!; [done | done | done |].
  intros x Hx. destruct (PGROUNDDOWN_spec x Hx) as [Hx4 Hxin]. unfold ubyte. case_decide as Hr.
  - rewrite (PGROUNDDOWN_in (PGROUNDDOWN va) x), Hd by (done || lia). simpl. rewrite load8_store_bytes.
    rewrite (mod_page (PGROUNDDOWN va) x) by (done || lia).
    rewrite decide_True by lia.
    replace (pa + (x - PGROUNDDOWN va) - (pa + (va - PGROUNDDOWN va))) with (x - va) by lia.
    destruct (bs !! Z.to_nat (x - va)) eqn:E; [done |]. apply lookup_ge_None in E. lia.
  - destruct (D !! PGROUNDDOWN x) as [pa'|] eqn:Ex; [|done]. simpl. f_equal. rewrite load8_store_bytes.
    assert (0 <= x mod 4096 < 4096) by (apply Z.mod_pos_bound; lia).
    destruct (decide (PGROUNDDOWN x = PGROUNDDOWN va)) as [E|E].
    + rewrite E, Hd in Ex. injection Ex as <-.
      rewrite (mod_page (PGROUNDDOWN va) x) by (done || lia).
      by rewrite decide_False by lia.
    + destruct (as_va _ _ _ _ _ Hi _ _ Hd) as (_ & _ & [? _]).
      destruct (as_va _ _ _ _ _ Hi _ _ Ex) as (_ & _ & [? _]).
      assert (pa <> pa') by (intros ->; apply E; by eapply as_inj).
      rewrite decide_False; [done |]. destruct (page_disjoint pa pa'); [done.. | lia | lia].
Qed.

(** The user may write at [va]. *)
Definition uwritable m N (va : Z) : Prop :=
  PGROUNDDOWN va < MAXVA /\ writable (lookup_pte m N (PGROUNDDOWN va)) = true.
Definition ureadable m N (va : Z) : Prop :=
  PGROUNDDOWN va < MAXVA /\ readable (lookup_pte m N (PGROUNDDOWN va)) = true.

Lemma writable_readable e : writable e = true -> readable e = true.
Proof. unfold writable, readable. by destruct (has e PTE_V), (has e PTE_U). Qed.

(** Effect of writing the bytes [bs] at user address [va]. *)
Record user_write s s' root N D l (va : Z) (bs : list Z) : Prop := {
  uw_inv : as_inv s' root N D l;
  uw_only : s' = set_mem s'.(mem) s;
  uw_pte va' : lookup_pte s'.(mem) N va' = lookup_pte s.(mem) N va';
  uw_byte x : 0 <= x -> ubyte s'.(mem) D x =
    if decide (va <= x < va + Z.of_nat (length bs)) then u8 <$> bs !! Z.to_nat (x - va) else ubyte s.(mem) D x;
  uw_frame a : (forall v pa, D !! v = Some pa -> writable (lookup_pte s.(mem) N v) = true -> outside a pa) ->
    load8 s'.(mem) a = load8 s.(mem) a;
  uw_perm i : (i < length bs)%nat -> uwritable s.(mem) N (va + Z.of_nat i);
}.

Lemma user_write_nil s root N D l va : as_inv s root N D l -> user_write s s root N D l va [].
Proof.
  intros H. constructor; try done; [by kstate | |].
  - intros x Hx. by rewrite decide_False by (simpl; lia).
  - simpl. lia.
Qed.

Lemma user_write_app s1 s2 s3 root N D l va bs1 bs2 :
  user_write s1 s2 root N D l va bs1 -> user_write s2 s3 root N D l (va + Z.of_nat (length bs1)) bs2 ->
  user_write s1 s3 root N D l va (bs1 ++ bs2).
Proof.
  intros [I1 O1 P1 B1 F1 W1] [I2 O2 P2 B2 F2 W2]. constructor; [done | | | | |].
  - rewrite O2, O1. done.
  - intros va'. by rewrite P2, P1.
  - intros x Hx. rewrite B2, B1 by done. rewrite length_app. repeat case_decide; try lia.
    + rewrite lookup_app_r by lia. do 2 f_equal. lia.
    + rewrite lookup_app_l by lia. done.
    + done.
  - intros a Ha. rewrite F2, F1; [done | done |]. intros v pa Hv Hwr. rewrite P1 in Hwr. by eapply Ha.
  - intros i Hii. rewrite length_app in Hii. destruct (decide (i < length bs1)%nat); [by apply W1 |].
    replace (va + Z.of_nat i) with (va + Z.of_nat (length bs1) + Z.of_nat (i - length bs1)) by lia.
    destruct (W2 (i - length bs1)%nat) as [Hx1 Hx2]; [lia |]. split; [done |]. by rewrite <- P1.
Qed.

(** The three tests of copyout() on the entry it finds. *)
Lemma writable_test e :
  negb (has e PTE_V) || negb (has e PTE_U) || negb (has e PTE_W) = negb (writable e).
Proof. unfold writable. by destruct (has e PTE_V), (has e PTE_U), (has e PTE_W). Qed.

(** A writable page is one of the user pages. *)
Lemma writable_page s root N D l va :
  as_inv s root N D l -> 0 <= va -> uwritable s.(mem) N va ->
  exists pa, D !! PGROUNDDOWN va = Some pa /\ PTE2PA (lookup_pte s.(mem) N (PGROUNDDOWN va)) = pa.
Proof.
  intros Hi Hva [Hm Hw]. destruct (PGROUNDDOWN_spec va Hva) as [H4 Hin].
  assert (0 <= PGROUNDDOWN va) by (rewrite PGROUNDDOWN_eq; dlia).
  destruct (as_user _ _ _ _ _ Hi (PGROUNDDOWN va)) as [pa Hd]; [lia | done | by apply writable_readable |].
  exists pa. split; [done |]. by eapply as_entry.
Qed.

Definition copyout_post s r s' root N D l va (src : list Z) (k : nat) : Prop :=
  user_write s s' root N D l va (take k src) /\
  ((r = 0 /\ k = length src) \/
   (r = -1 /\ (k < length src)%nat /\ ~ uwritable s.(mem) N (va + Z.of_nat k))).

Lemma copyout_stop s root N D l va src :
  as_inv s root N D l -> 0 < Z.of_nat (length src) -> ~ uwritable s.(mem) N va ->
  exists r s' k, @Ok kernel Z (-1) s = Ok r s' /\ copyout_post s r s' root N D l va src k.
Proof.
  intros. exists (-1), s, 0%nat. split; [done |]. split; [by apply user_write_nil |].
  right. rewrite Z.add_0_r. split_and!; [done | lia | done].
Qed.

Lemma copyout_loop_spec root N D l : forall fuel src va s,
  as_inv s root N D l -> 0 <= va -> (length src < fuel)%nat ->
  exists r s' k, copyout_loop fuel root va src s = Ok r s' /\ copyout_post s r s' root N D l va src k.
Proof.
  induction fuel as [|fuel IH]; intros src va s Hi Hva Hf; [lia |]. cbn [copyout_loop]. cbv zeta.
  destruct (Z.ltb_spec 0 (Z.of_nat (length src))) as [Hl|Hl].
  2: { exists 0, s, 0%nat. split; [done |]. split; [by apply user_write_nil | left; split; [done | lia]]. }
  destruct (PGROUNDDOWN_spec va Hva) as [H4 Hin].
  destruct (Z.leb_spec MAXVA (PGROUNDDOWN va)) as [Hm|Hm].
  { apply copyout_stop; [done | done |]. intros [? _]. lia. }
  destruct (walk_entry s root N (PGROUNDDOWN va)) as (a & E & Ha); [apply Hi | done |].
  erewrite bind_Ok by exact E. destruct Ha as [(-> & _ & Hlk)|(Ha & _ & Hlk)].
  { apply copyout_stop; [done | done |]. intros [_ H]. rewrite Hlk in H. done. }
  destruct (Z.eqb_spec a 0) as [|_]; [lia |]. erewrite bind_Ok by done. cbv beta. rewrite Hlk, writable_test.
  destruct (writable (lookup_pte (mem s) N (PGROUNDDOWN va))) eqn:Hw; cbn [negb].
  2: { apply copyout_stop; [done | done |]. intros [_ H]. congruence. }
  destruct (writable_page s root N D l va) as (pa & Hd & ->); [done | done | by split |].
  erewrite bind_Ok by done. consts. set (n := Z.min (4096 - (va - PGROUNDDOWN va)) (Z.of_nat (length src))).
  assert (length (take (Z.to_nat n) src) = Z.to_nat n) as Hlen by (rewrite length_take; lia).
  destruct (copyout_page s root N D l va pa (take (Z.to_nat n) src)) as (Hi1 & Hpte1 & Hout1 & Hb1); [done | done | done | lia |].
  set (s1 := set_mem _ s) in *.
  assert (user_write s s1 root N D l va (take (Z.to_nat n) src)) as Hu1.
  { constructor; [done | done | done | done | |].
    - intros x Hx. apply Hout1. by eapply Hx.
    - intros i Hii. unfold uwritable. by rewrite (PGROUNDDOWN_in (PGROUNDDOWN va)) by (done || lia). }
  destruct (decide (n = Z.of_nat (length src))) as [En|En].
  - rewrite drop_ge by lia. destruct fuel as [|fuel]; [lia |]. simpl.
    exists 0, s1, (length src). split; [done |]. split; [|by left].
    by replace (Z.to_nat n) with (length src) in Hu1 by lia.
  - replace (PGROUNDDOWN va + 4096) with (va + Z.of_nat (length (take (Z.to_nat n) src))) by lia.
    destruct (IH (drop (Z.to_nat n) src) (va + Z.of_nat (length (take (Z.to_nat n) src))) s1)
      as (r & s' & k & E' & Hu2 & Hr); [done | lia | rewrite length_drop; lia |].
    exists r, s', (Z.to_nat n + k)%nat. split; [done |]. rewrite length_drop in Hr. split.
    + rewrite <- take_take_drop. by eapply user_write_app.
    + destruct Hr as [[-> ->]|(-> & Hk & Hnw)]; [left; split; [done | lia] | right].
      split_and!; [done | lia |]. intros [Hx1 Hx2]. apply Hnw.
      rewrite Hlen. replace (va + Z.of_nat (Z.to_nat n) + Z.of_nat k) with (va + Z.of_nat (Z.to_nat n + k)) by lia.
      split; [done |]. by rewrite Hpte1.
Qed.

(** ** Copying from user space *)

(** walkaddr() finds the physical page of a readable user page, and nothing else. *)
Lemma walkaddr_spec s root N D l va :
  as_inv s root N D l -> 0 <= va -> va mod 4096 = 0 ->
  (ureadable s.(mem) N va /\ exists pa, D !! va = Some pa /\ pa <> 0 /\ walkaddr root va s = Ok pa s) \/
  (~ ureadable s.(mem) N va /\ walkaddr root va s = Ok 0 s).
Proof.
  intros Hi Hva H4. assert (PGROUNDDOWN va = va) as Ed by (apply PGROUNDDOWN_in; lia).
  unfold walkaddr, ureadable. rewrite Ed. destruct (Z.leb_spec MAXVA va) as [Hm|Hm].
  { right. split; [|done]. intros [? _]. lia. }
  destruct (walk_entry s root N va) as (a & E & Ha); [apply Hi | done |].
  erewrite bind_Ok by exact E. destruct Ha as [(-> & _ & Hlk)|(Ha & _ & Hlk)].
  { right. split; [|done]. rewrite Hlk. by intros [_ ?]. }
  destruct (Z.eqb_spec a 0) as [|_]; [lia |]. erewrite bind_Ok by done. cbv beta. rewrite Hlk.
  unfold readable. destruct (has (lookup_pte (mem s) N va) PTE_V) eqn:HV; cbn [negb andb].
  2: { right. split; [|done]. by intros [_ ?]. }
  destruct (has (lookup_pte (mem s) N va) PTE_U) eqn:HU; cbn [negb].
  2: { right. split; [|done]. by intros [_ ?]. }
  left. split; [done |]. destruct (as_user _ _ _ _ _ Hi va) as [pa Hd]; [lia | done | unfold readable; by rewrite HV, HU |].
  exists pa. destruct (as_va _ _ _ _ _ Hi va pa Hd) as (_ & _ & Hp). pose proof (page_pos pa Hp).
  split_and!; [done | lia |]. destruct (as_entry _ _ _ _ _ _ _ Hi Hd) as (_ & -> & _). done.
Qed.

Lemma lookup_load_bytes m a n i :
  load_bytes m a n !! i = if decide (i < n)%nat then Some (load8 m (a + Z.of_nat i)) else None.
Proof.
  unfold load_bytes. rewrite list_lookup_fmap. case_decide.
  - rewrite lookup_seq_lt by done. done.
  - rewrite lookup_seq_ge by lia. done.
Qed.

Lemma length_load_bytes m a n : length (load_bytes m a n) = n.
Proof. unfold load_bytes. by rewrite length_fmap, length_seq. Qed.

(** [bs] are the user's bytes from [va] on. *)
Definition user_bytes m D (va : Z) (bs : list Z) : Prop :=
  forall i, (i < length bs)%nat -> ubyte m D (va + Z.of_nat i) = bs !! i.

Lemma user_bytes_app m D va bs1 bs2 :
  user_bytes m D va bs1 -> user_bytes m D (va + Z.of_nat (length bs1)) bs2 -> user_bytes m D va (bs1 ++ bs2).
Proof.
  intros H1 H2 i Hi. rewrite length_app in Hi. destruct (decide (i < length bs1)%nat).
  - rewrite lookup_app_l by done. by apply H1.
  - rewrite lookup_app_r by lia. rewrite <- H2 by lia. f_equal. lia.
Qed.

(** The bytes of one user page. *)
Lemma user_bytes_page s root N D l va pa n :
  as_inv s root N D l -> 0 <= va -> D !! PGROUNDDOWN va = Some pa -> va + Z.of_nat n <= PGROUNDDOWN va + 4096 ->
  user_bytes s.(mem) D va (load_bytes s.(mem) (pa + (va - PGROUNDDOWN va)) n).
Proof.
  intros Hi Hva Hd Hn i Hii. rewrite length_load_bytes in Hii. destruct (PGROUNDDOWN_spec va Hva) as [H4 Hin].
  rewrite lookup_load_bytes, decide_True by done. unfold ubyte.
  rewrite (PGROUNDDOWN_in (PGROUNDDOWN va)), Hd by (done || lia). simpl.
  rewrite (mod_page (PGROUNDDOWN va)) by (done || lia). do 2 f_equal. lia.
Qed.

Definition copyin_post s N D (va len r : Z) (bs : list Z) : Prop :=
  user_bytes s.(mem) D va bs /\ (forall i, (i < length bs)%nat -> ureadable s.(mem) N (va + Z.of_nat i)) /\
  ((r = 0 /\ Z.of_nat (length bs) = len) \/
   (r = -1 /\ Z.of_nat (length bs) < len /\ ~ ureadable s.(mem) N (va + Z.of_nat (length bs)))).

Lemma ureadable_page m N va : 0 <= va -> ureadable m N (PGROUNDDOWN va) <-> ureadable m N va.
Proof.
  intros Hva. destruct (PGROUNDDOWN_spec va Hva). unfold ureadable.
  by rewrite (PGROUNDDOWN_in (PGROUNDDOWN va) (PGROUNDDOWN va)) by (done || lia).
Qed.

Lemma copyin_loop_spec s root N D l : forall fuel va len,
  as_inv s root N D l -> 0 <= va -> 0 <= len < Z.of_nat fuel ->
  exists r bs, copyin_loop fuel root va len s = Ok (r, bs) s /\ copyin_post s N D va len r bs.
Proof.
  induction fuel as [|fuel IH]; intros va len Hi Hva Hf; [lia |]. cbn [copyin_loop]. cbv zeta.
  destruct (Z.ltb_spec 0 len) as [Hl|Hl].
  2: { exists 0, []. split; [done |]. split_and!; [intros i Hii; simpl in Hii; lia | simpl; lia | left; split; [done | simpl; lia]]. }
  destruct (PGROUNDDOWN_spec va Hva) as [H4 Hin].
  assert (0 <= PGROUNDDOWN va) by (rewrite PGROUNDDOWN_eq; dlia).
  destruct (walkaddr_spec s root N D l (PGROUNDDOWN va)) as [(Hr & pa & Hd & Hp0 & E)|[Hr E]]; [done | done | done | |].
  2: { rewrite ureadable_page in Hr by done. erewrite bind_Ok by exact E. exists (-1), []. split; [done |].
       split_and!; [intros i Hii; simpl in Hii; lia | simpl; lia | right]. simpl. rewrite Z.add_0_r. done. }
  erewrite bind_Ok by exact E. destruct (Z.eqb_spec pa 0) as [|_]; [lia |]. erewrite bind_Ok by done. cbv beta.
  consts. set (n := Z.min (4096 - (va - PGROUNDDOWN va)) len).
  pose proof (user_bytes_page s root N D l va pa (Z.to_nat n) Hi Hva Hd ltac:(lia)) as Hub.
  set (bs := load_bytes _ _ _) in *.
  assert (length bs = Z.to_nat n) as Hlen by apply length_load_bytes.
  assert (forall i, (i < length bs)%nat -> ureadable s.(mem) N (va + Z.of_nat i)) as Hrd.
  { intros i Hii. apply ureadable_page; [lia |]. by rewrite (PGROUNDDOWN_in (PGROUNDDOWN va) (va + Z.of_nat i)) by (done || lia). }
  destruct (decide (n = len)) as [En|En].
  - replace (len - n) with 0 by lia. destruct fuel as [|fuel]; [lia |].
    exists 0, bs. erewrite bind_Ok by done. simpl. rewrite app_nil_r. split; [done |].
    split_and!; [done | done | left; split; [done | lia]].
  - replace (PGROUNDDOWN va + 4096) with (va + Z.of_nat (length bs)) by lia.
    destruct (IH (va + Z.of_nat (length bs)) (len - n)) as (r & bs2 & E2 & Hub2 & Hrd2 & Hr2); [done | lia | lia |].
    erewrite bind_Ok by exact E2. exists r, (bs ++ bs2). split; [done |].
    split_and!; [by apply user_bytes_app | |].
    { intros i Hii. rewrite length_app in Hii. destruct (decide (i < length bs)%nat); [by apply Hrd |].
      replace (va + Z.of_nat i) with (va + Z.of_nat (length bs) + Z.of_nat (i - length bs)) by lia. apply Hrd2. lia. }
    rewrite length_app.
    destruct Hr2 as [[-> ?]|(-> & ? & Hnr)]; [left; split; [done | lia] | right].
    split_and!; [done | lia |]. by replace (va + Z.of_nat (length bs + length bs2))
      with (va + Z.of_nat (length bs) + Z.of_nat (length bs2)) by lia.
Qed.

(** ** Main results about user access *)

(** C21. copyout() returns, keeps the address space and the page table, writes a prefix
    of [src] at [va] and nothing else the user can see, never touches memory
    outside the user's writable pages, and fails exactly at the first byte that
    is not writable by the user. *)
Theorem copyout_spec (s : kernel) (root : Z) N D l (va : Z) (src : list Z) :
  as_inv s root N D l -> 0 <= va ->
  exists r s' k, copyout root va src s = Ok r s' /\
    as_inv s' root N D l /\ s' = set_mem s'.(mem) s /\
    (forall v, lookup_pte s'.(mem) N v = lookup_pte s.(mem) N v) /\
    (forall x, 0 <= x -> ubyte s'.(mem) D x =
       if decide (va <= x < va + Z.of_nat k) then u8 <$> src !! Z.to_nat (x - va) else ubyte s.(mem) D x) /\
    (forall a, (forall v pa, D !! v = Some pa -> writable (lookup_pte s.(mem) N v) = true -> outside a pa) ->
       load8 s'.(mem) a = load8 s.(mem) a) /\
    (forall i, (i < k)%nat -> uwritable s.(mem) N (va + Z.of_nat i)) /\
    ((r = 0 /\ k = length src) \/
     (r = -1 /\ (k < length src)%nat /\ ~ uwritable s.(mem) N (va + Z.of_nat k))).
Proof.
  intros Hi Hva. unfold copyout.
  destruct (copyout_loop_spec root N D l (S (S (length src))) src va s) as (r & s' & k & E & [I O P B F W] & Hr); [done | done | lia |].
  assert (length (take k src) = k) as Hk
    by (rewrite length_take; destruct Hr as [[_ ->]|(_ & ? & _)]; lia). rewrite Hk in *.
  exists r, s', k. split_and!; try done.
  intros x Hx. rewrite B by done. case_decide; [|done]. by rewrite lookup_take_lt by lia.
Qed.

(** copyin() reads the user's bytes without changing anything, and fails exactly
    at the first byte the user cannot read. *)
Theorem copyin_spec (s : kernel) (root : Z) N D l (va len : Z) :
  as_inv s root N D l -> 0 <= va -> 0 <= len ->
  exists r bs, copyin root va len s = Ok (r, bs) s /\
    (forall i, (i < length bs)%nat ->
       ureadable s.(mem) N (va + Z.of_nat i) /\ ubyte s.(mem) D (va + Z.of_nat i) = bs !! i) /\
    ((r = 0 /\ Z.of_nat (length bs) = len) \/
     (r = -1 /\ Z.of_nat (length bs) < len /\ ~ ureadable s.(mem) N (va + Z.of_nat (length bs)))).
Proof.
  intros Hi Hva Hl. unfold copyin.
  destruct (copyin_loop_spec s root N D l (S (S (Z.to_nat len))) va len) as (r & bs & E & H1 & H2 & H3); [done | done | lia |].
  exists r, bs. split_and!; auto.
Qed.

(** Round trip: what copyout() stored, copyin() reads back. *)
Theorem copyout_copyin (s s' : kernel) (root : Z) N D l (va : Z) (src : list Z) :
  as_inv s root N D l -> 0 <= va -> copyout root va src s = Ok 0 s' ->
  copyin root va (Z.of_nat (length src)) s' = Ok (0, u8 <$> src) s'.
Proof.
  intros Hi Hva E. unfold copyout in E.
  destruct (copyout_loop_spec root N D l (S (S (length src))) src va s) as (r & s1 & k & E1 & Hu & Hr); [done | done | lia |].
  rewrite E in E1. injection E1 as <- <-. destruct Hr as [[_ ->]|[? _]]; [|lia]. rewrite firstn_all in Hu.
  destruct Hu as [I O P B F W]. unfold copyin.
  destruct (copyin_loop_spec s' root N D l (S (S (Z.to_nat (Z.of_nat (length src))))) va (Z.of_nat (length src)))
    as (r & bs & E2 & Hub & _ & Hr2); [done | done | lia |].
  assert (forall i, (i < length src)%nat -> ubyte s'.(mem) D (va + Z.of_nat i) = u8 <$> src !! i) as Hb.
  { intros i Hii. rewrite B by lia. rewrite decide_True by lia. do 2 f_equal. lia. }
  assert (Z.of_nat (length bs) = Z.of_nat (length src) /\ r = 0) as [Hlen ->].
  { destruct Hr2 as [[-> ?]|(_ & Hlt & Hnr)]; [done |]. exfalso. apply Hnr.
    destruct (W (length bs)) as [Hx1 Hx2]; [lia |]. split; [done |]. rewrite P. by apply writable_readable. }
  rewrite E2. do 2 f_equal. apply list_eq. intros i. rewrite list_lookup_fmap.
  destruct (decide (i < length src)%nat).
  - rewrite <- Hub by lia. by apply Hb.
  - rewrite !lookup_ge_None_2 by lia. done.
Qed.
End uvm.
