(* ===== verification/UvmAlloc.v ===== *)
(** * Growing and shrinking user address spaces

    uvmunmap(), uvmdealloc() and uvmalloc() (kernel/vm.c) as operations on the
    address space described by [as_inv]: which pages are mapped afterwards, what
    the user sees, and which pages are free again, on success and on failure. *)

From S2P Require Import Prelude State Mem Riscv Kalloc Vm PageTable Uvm.

Section uvmalloc.
Context {L : Linker}.
Implicit Types (N : gmap (list Z) Z) (m D : gmap Z Z) (s : kernel) (l : list Z).

(** ** The allocator seen from an address space *)

Lemma free_page_ok s l p : kmem_inv s l -> p ∈ l -> page_ok p.
Proof. intros [Hf _] Hp. apply freelist_pages in Hf. rewrite Forall_forall in Hf. auto. Qed.

(** Memory may change anywhere but in the pages of the tree, of the user and of
    the free list. *)
Lemma as_frame s s' root N D l :
  as_inv s root N D l -> s'.(held) = s.(held) -> kmem_inv s' l ->
  (forall k p, N !! k = Some p -> agree s.(mem) s'.(mem) p (p + 4096)) -> as_inv s' root N D l.
Proof.
  intros [[Hw Hkm Hlk Hsep] Hva Hent Hus Hin HsN Hsl] Hh Hkm' Hag.
  assert (forall va, lookup_pte s'.(mem) N va = lookup_pte s.(mem) N va) as Hl by (intros; by eapply lookup_agree).
  constructor; try done.
  - constructor; [by eapply pt_wf_agree | done | by rewrite Hh | done].
  - intros va pa Hd. rewrite Hl. by apply Hent.
  - intros va H1 H2. rewrite Hl. by apply Hus.
Qed.

(** A smaller free list (pages taken out of it are nobody's yet). *)
Lemma as_take s root N D p l :
  as_inv s root N D (p :: l) -> (forall k, N !! k <> Some p) /\ (forall va, D !! va <> Some p) /\ p ∉ l /\ page_ok p.
Proof.
  intros [[Hw Hkm Hlk Hsep] Hva Hent Hus Hin HsN Hsl]. split_and!.
  - intros k Hk. apply (Hsep k p Hk). set_solver +.
  - intros va Hd. apply (Hsl va p Hd). set_solver +.
  - destruct Hkm as [_ Hnd]. by apply NoDup_cons in Hnd as [? _].
  - eapply free_page_ok; [exact Hkm | set_solver +].
Qed.

Lemma as_shrink s root N D p l :
  as_inv s root N D (p :: l) -> forall s', s'.(mem) = s.(mem) -> s'.(held) = s.(held) -> kmem_inv s' l ->
  as_inv s' root N D l.
Proof.
  intros [[Hw Hkm Hlk Hsep] Hva Hent Hus Hin HsN Hsl] s' Em Eh Hkm'.
  constructor; rewrite ?Em; try done.
  - constructor; rewrite ?Em, ?Eh; try done. intros k q Hq. specialize (Hsep k q Hq). set_solver + Hsep.
  - intros va pa Hd. specialize (Hsl va pa Hd). set_solver + Hsl.
Qed.

(** kalloc() followed by memset(mem, 0, PGSIZE). *)
Lemma as_kalloc s root N D p l :
  as_inv s root N D (p :: l) ->
  exists s1, kalloc s = Ok p s1 /\ p <> 0 /\
    let s2 := set_mem (memset s1.(mem) p 0 PGSIZE) s1 in
    as_inv s2 root N D l /\ only_mem s s2 /\
    (forall a, outside a p -> load8 s2.(mem) a = load8 s.(mem) a) /\
    (forall va, lookup_pte s2.(mem) N va = lookup_pte s.(mem) N va) /\
    (forall i, 0 <= i < 4096 -> load8 s2.(mem) (p + i) = 0).
Proof.
  intros Hi. destruct (as_take _ _ _ _ _ _ Hi) as (HN & HD & Hpl & Hp). pose proof Hi as [[Hw Hkm Hlk Hsep] _ _ _ _ _ _].
  destruct (kalloc_spec s (p :: l) Hkm Hlk) as (s1 & E1 & Hkm1 & Es1). exists s1. split; [done |].
  split; [pose proof (page_pos p Hp); lia |]. intros s2.
  assert (forall a, outside a p -> load8 s2.(mem) a = load8 s.(mem) a) as Hout.
  { intros a Ha. unfold s2. simpl. rewrite memset_outside, Es1 by done. simpl. by rewrite memset_outside. }
  assert (forall q, q mod 4096 = 0 -> q <> p -> agree s.(mem) s2.(mem) q (q + 4096)) as Hag.
  { intros q Hq Hne a Ha. apply Hout. eapply outside_pages; [apply Hp | exact Hq | done | exact Ha]. }
  assert (forall k q, N !! k = Some q -> agree s.(mem) s2.(mem) q (q + 4096)) as HagN.
  { intros k q Hk. apply Hag; [apply (wf_page _ _ _ Hw k q Hk) | intros ->; by eapply HN]. }
  assert (kmem_inv s2 l) as Hkm2.
  { eapply kmem_inv_frame; [exact Hkm1 | done |]. intros q Hq a Ha. unfold s2. simpl. apply memset_outside.
    eapply (outside_pages a p q); [apply Hp | | set_solver + Hq Hpl | exact Ha].
    eapply (free_page_ok s (p :: l)); [done | set_solver + Hq]. }
  split_and!; [| unfold s2, only_mem; rewrite Es1; reflexivity | done | intros; by eapply lookup_agree |].
  - set (s3 := set_mem s.(mem) s2).
    assert (as_inv s3 root N D l) as Hi3.
    { eapply as_shrink; [exact Hi | done | by unfold s3, s2; rewrite Es1 |].
      eapply kmem_inv_frame; [exact Hkm2 | done |]. intros q Hq a Ha. symmetry. unfold s3. simpl.
      apply (Hag q); [|set_solver + Hq Hpl | done].
      eapply (free_page_ok s (p :: l)); [done | set_solver + Hq]. }
    eapply as_frame; [exact Hi3 | done | done | done].
  - intros i Hii. unfold s2. simpl. rewrite load8_memset. by rewrite decide_True by (consts; lia).
Qed.

(** kfree() of a page that belongs to nobody. *)
Lemma as_kfree s root N D p l :
  as_inv s root N D l -> page_ok p -> p ∉ l -> (forall k, N !! k <> Some p) -> (forall va, D !! va <> Some p) ->
  exists s1, kfree p s = Ok tt s1 /\ as_inv s1 root N D (p :: l) /\ only_mem s s1 /\
    (forall a, outside a p -> load8 s1.(mem) a = load8 s.(mem) a) /\
    (forall va, lookup_pte s1.(mem) N va = lookup_pte s.(mem) N va).
Proof.
  intros Hi Hp Hl HN HD. pose proof Hi as [[Hw Hkm Hlk Hsep] Hva Hent Hus Hin HsN Hsl].
  destruct (kfree_spec s l p Hkm Hlk Hp Hl) as (s1 & E1 & Hkm1 & Es1).
  assert (forall a, outside a p -> load8 s1.(mem) a = load8 s.(mem) a) as Hout.
  { intros a Ha. rewrite Es1. simpl. unfold outside in Ha. rewrite load8_store64_ne by lia. by apply memset_outside. }
  assert (forall k q, N !! k = Some q -> agree s.(mem) s1.(mem) q (q + 4096)) as HagN.
  { intros k q Hk a Ha. apply Hout. eapply outside_pages; [apply Hp | apply (wf_page _ _ _ Hw k q Hk) | | exact Ha].
    intros ->. by eapply HN. }
  assert (forall va, lookup_pte s1.(mem) N va = lookup_pte s.(mem) N va) as Hl' by (intros; by eapply lookup_agree).
  exists s1. split_and!; [done | | unfold only_mem; rewrite Es1; reflexivity | done | done].
  constructor; try done.
  - constructor; [by eapply pt_wf_agree | done | by rewrite Es1 |].
    intros k q Hk. apply not_elem_of_cons. split; [intros ->; by eapply HN | by eapply Hsep].
  - intros va pa Hd. rewrite Hl'. by apply Hent.
  - intros va H1 H2. rewrite Hl'. by apply Hus.
  - intros va pa Hd. apply not_elem_of_cons. split; [intros ->; by eapply HD | by eapply Hsl].
Qed.

(** [p] is a page neither free, nor a table, nor mapped. *)
Definition fresh_page N D l (p : Z) : Prop :=
  page_ok p /\ p ∉ l /\ (forall k, N !! k <> Some p) /\ (forall va, D !! va <> Some p).

(** A write to a page that is not part of the space. *)
Lemma as_other_write s root N D l q m' : as_inv s root N D l -> fresh_page N D l q ->
  (forall a, outside a q -> load8 m' a = load8 s.(mem) a) -> as_inv (set_mem m' s) root N D l /\ forall va, lookup_pte m' N va = lookup_pte s.(mem) N va.
Proof.
  intros Hi (Hq & Hql & HqN & _) Hm. pose proof (as_pt _ _ _ _ _ Hi) as [Hw Hkm _ _].
  assert (forall p, page_ok p -> p <> q -> agree s.(mem) m' p (p + 4096)) as Hag.
  { intros p Hp Hne a Ha. apply Hm. eapply (outside_pages a q p); [apply Hq | apply Hp | congruence | exact Ha]. }
  assert (forall k p, N !! k = Some p -> agree s.(mem) m' p (p + 4096)) as HagN.
  { intros k p Hk. apply Hag; [by apply (wf_page _ _ _ Hw k) |]. intros ->. by eapply HqN. }
  split; [|intros va; by eapply lookup_agree]. eapply as_frame; [exact Hi | done | | exact HagN].
  eapply kmem_inv_frame; [exact Hkm | done |]. intros p Hp. apply Hag; [by eapply free_page_ok |]. congruence.
Qed.

(** The other variables do not matter. *)
Lemma as_inv_ext s s' root N D l : as_inv s root N D l -> s'.(mem) = s.(mem) -> s'.(freelist) = s.(freelist) -> LkKmem ∉ s'.(held) -> as_inv s' root N D l.
Proof.
  intros [[Hw Hkm _ Hsep] Hva Hent Hus Hin HsN Hsl] Em Ef Hlk. constructor; rewrite ?Em; try done. constructor; rewrite ?Em; try done.
  unfold kmem_inv in *. by rewrite Em, Ef.
Qed.

(** Clearing the entry of a user page removes it from the address space. *)
Lemma as_delete s s' root N D l l' va :
  as_inv s root N D l -> pt_inv s' root N l' ->
  (forall v, 0 <= v < MAXVA -> v mod 4096 = 0 ->
     lookup_pte s'.(mem) N v = if decide (v = va) then 0 else lookup_pte s.(mem) N v) ->
  (forall v p, v <> va -> D !! v = Some p -> p ∉ l') ->
  as_inv s' root N (delete va D) l'.
Proof.
  intros [Hpt Hva Hent Hus Hin HsN Hsl] Hpt' Hlk' Hsep'. constructor; try done.
  - intros va' pa' H. apply lookup_delete_Some in H as [_ H]. by apply Hva.
  - intros va' pa' H. apply lookup_delete_Some in H as [Hne H]. destruct (Hva va' pa' H) as (? & ? & _).
    rewrite Hlk', decide_False by done || congruence. by apply Hent.
  - intros va' H1 H2. rewrite Hlk' by done. case_decide; [done |]. rewrite lookup_delete_ne by congruence. by apply Hus.
  - intros v v' q H1 H2. apply lookup_delete_Some in H1 as [_ H1], H2 as [_ H2]. by eapply Hin.
  - intros v q k H. apply lookup_delete_Some in H as [_ H]. by eapply HsN.
  - intros v q H. apply lookup_delete_Some in H as [Hne H]. eapply Hsep'; [|exact H]. congruence.
Qed.

(** One iteration of uvmunmap(): the page is freed if asked, its entry cleared. *)
Lemma unmap_step s root N D l va a pa (do_free : bool) :
  as_inv s root N D l -> D !! va = Some pa -> slot N va = Some a ->
  exists s1, when do_free (kfree pa) s = Ok tt s1 /\
    let s2 := set_mem (store64 s1.(mem) a 0) s1 in
    as_inv s2 root N (delete va D) (if do_free then pa :: l else l) /\ only_mem s s2 /\
    (forall x, (forall k p, N !! k = Some p -> outside x p) -> outside x pa -> load8 s2.(mem) x = load8 s.(mem) x) /\
    (forall v, 0 <= v < MAXVA -> v mod 4096 = 0 ->
       lookup_pte s2.(mem) N v = if decide (v = va) then 0 else lookup_pte s.(mem) N v).
Proof.
  intros Hi Hd Hs. pose proof Hi as [[Hw Hkm Hlk Hsep] Hva Hent Hus Hin HsN Hsl].
  destruct (Hva va pa Hd) as (Hr & H4 & Hp).
  assert (exists s1, when do_free (kfree pa) s = Ok tt s1 /\ pt_inv s1 root N (if do_free then pa :: l else l) /\
    only_mem s s1 /\ (forall x, outside x pa -> load8 s1.(mem) x = load8 s.(mem) x) /\
    (forall v, lookup_pte s1.(mem) N v = lookup_pte s.(mem) N v)) as (s1 & E1 & Hpt1 & Ho1 & Hx1 & Hk1).
  { destruct do_free; [|exists s; split_and!; auto using only_mem_refl; apply Hi].
    destruct (kfree_spec s l pa Hkm Hlk Hp) as (s1 & E1 & Hkm1 & Es1); [by eapply Hsl |].
    assert (forall x, outside x pa -> load8 s1.(mem) x = load8 s.(mem) x) as Hout.
    { intros x Hx. rewrite Es1. simpl. unfold outside in Hx. rewrite load8_store64_ne by lia. by apply memset_outside. }
    assert (forall k q, N !! k = Some q -> agree s.(mem) s1.(mem) q (q + 4096)) as HagN.
    { intros k q Hk x Hx. apply Hout. eapply outside_pages; [apply Hp | apply (wf_page _ _ _ Hw k q Hk) | | exact Hx].
      intros ->. by eapply HsN. }
    exists s1. split_and!; [done | | unfold only_mem; rewrite Es1; reflexivity | done | intros; by eapply lookup_agree].
    constructor; [by eapply pt_wf_agree | done | by rewrite Es1 |].
    intros k q Hk. apply not_elem_of_cons. split; [intros ->; by eapply HsN | by eapply Hsep]. }
  exists s1. split; [done |]. intros s2.
  destruct (pt_store s1 root N (if do_free then pa :: l else l) va a 0) as (Hpt2 & Hg2 & Hlk2); [done.. |].
  fold s2 in Hpt2, Hg2, Hlk2. change (u64 0) with 0 in Hlk2.
  assert (forall v, 0 <= v < MAXVA -> v mod 4096 = 0 ->
    lookup_pte s2.(mem) N v = if decide (v = va) then 0 else lookup_pte s.(mem) N v) as Hlk3
    by (intros v ? ?; rewrite Hlk2, Hk1 by done; done).
  split_and!; [| by eapply only_mem_trans; [|apply Hg2] | | done].
  - eapply as_delete; [exact Hi | done | done |]. intros v p Hv Hdv. specialize (Hsl v p Hdv).
    destruct do_free; [|done]. apply not_elem_of_cons. split; [|done]. intros ->. apply Hv. by eapply Hin.
  - intros x HN Hxp. rewrite (g_frame _ _ _ _ _ Hg2); [by apply Hx1 | done | set_solver +].
Qed.

(** [D'] is [D] without the pages in [a, aend). *)
Definition without D (a aend : Z) D' : Prop :=
  forall va, D' !! va = if decide (a <= va < aend) then None else D !! va.

Lemma uvmunmap_loop_spec root N (do_free : bool) n : forall fuel a s D l,
  as_inv s root N D l -> 0 <= a -> a mod 4096 = 0 -> a + 4096 * Z.of_nat n <= MAXVA -> (n < fuel)%nat ->
  (forall i, 0 <= i < Z.of_nat n -> is_Some (D !! (a + 4096 * i))) ->
  exists s' D' freed, uvmunmap_loop fuel root a (a + 4096 * Z.of_nat n) do_free s = Ok tt s' /\
    as_inv s' root N D' ((if do_free then freed else []) ++ l) /\ only_mem s s' /\ without D a (a + 4096 * Z.of_nat n) D' /\
    (forall p, p ∈ freed <-> exists va, a <= va < a + 4096 * Z.of_nat n /\ D !! va = Some p) /\
    (forall x, (forall k p, N !! k = Some p -> outside x p) -> (forall p, p ∈ freed -> outside x p) ->
       load8 s'.(mem) x = load8 s.(mem) x) /\
    (forall v, 0 <= v < MAXVA -> v mod 4096 = 0 ->
       lookup_pte s'.(mem) N v = if decide (a <= v < a + 4096 * Z.of_nat n) then 0 else lookup_pte s.(mem) N v).
Proof.
  induction n as [|n IH]; intros fuel a s D l Hi Ha H4 Hm Hf HD;
    (destruct fuel as [|fuel]; [lia |]); cbn [uvmunmap_loop].
  - destruct (Z.ltb_spec a (a + 4096 * Z.of_nat 0)); [lia |].
    exists s, D, []. split_and!; [done | by destruct do_free | by apply only_mem_refl | | | done |].
    + intros va. by rewrite decide_False by lia.
    + intros p. split; [set_solver + | intros (va & ? & _); lia].
    + intros v _ _. by rewrite decide_False by lia.
  - destruct (Z.ltb_spec a (a + 4096 * Z.of_nat (S n))); [|lia].
    destruct (HD 0) as [pa Hd]; [lia |]. rewrite Z.mul_0_r, Z.add_0_r in Hd.
    destruct (as_entry _ _ _ _ _ _ _ Hi Hd) as (HV & HPA & HFL & slt & Hs).
    destruct (walk_entry s root N a) as (x & E & Hx); [apply Hi | lia |].
    destruct Hx as [(_ & Hx & _)|(Hx0 & Hx & Hlk)]; [congruence |].
    erewrite bind_Ok by exact E. destruct (Z.eqb_spec x 0) as [|_]; [lia |]. erewrite bind_Ok by done. cbv beta.
    rewrite Hlk, HV, HPA. cbn [negb]. destruct (Z.eqb_spec (PTE_FLAGS (lookup_pte (mem s) N a)) PTE_V) as [|_]; [done |].
    destruct (unmap_step s root N D l a x pa do_free) as (s1 & E1 & Hi2 & Ho2 & Hx2 & Hk2); [done.. |].
    erewrite bind_Ok by exact E1. erewrite bind_Ok by done. set (s2 := set_mem _ s1) in *. consts.
    rewrite u64_small by lia. replace (a + 4096 * Z.of_nat (S n)) with (a + 4096 + 4096 * Z.of_nat n) in * by lia.
    destruct (IH fuel (a + 4096) s2 (delete a D) (if do_free then pa :: l else l))
      as (s' & D' & fr & E' & Hi' & Ho' & Hwo & Hfr & Hx' & Hk'); [done | lia | dlia | lia | lia | |].
    { intros i Hii. rewrite lookup_delete_ne by lia. replace (a + 4096 + 4096 * i) with (a + 4096 * (i + 1)) by lia.
      apply HD. lia. }
    exists s', D', (fr ++ [pa]). split_and!; [done | | by eapply only_mem_trans | | | |].
    + destruct do_free; [|done]. by rewrite <- app_assoc.
    + intros va. rewrite Hwo, lookup_delete. repeat case_decide; try lia; try done; subst.
      destruct (D !! va) eqn:Ev; [|done]. destruct (as_va _ _ _ _ _ Hi _ _ Ev) as (_ & ? & _). dlia.
    + intros p. rewrite elem_of_app, list_elem_of_singleton, Hfr. split.
      * intros [(va & ? & [_ ?]%lookup_delete_Some)| ->]; [exists va | exists a]; split; done || lia.
      * intros (va & Hva & Hdv). destruct (decide (va = a)) as [->|Hne]; [right; congruence | left].
        exists va. rewrite lookup_delete_ne by done. split; [|done].
        destruct (as_va _ _ _ _ _ Hi _ _ Hdv) as (_ & ? & _). dlia.
    + intros y HN Hy. rewrite Hx', Hx2; [done | done | apply Hy; set_solver + | done | intros p Hp; apply Hy; set_solver + Hp].
    + intros v Hv Hv4. rewrite Hk', Hk2 by done. repeat case_decide; try done; try dlia.
Qed.

(** ** uvmdealloc() *)

(** From [s] to [s'] exactly the user pages in [a, b) were unmapped and freed. *)
Record shrunk s s' root N D D' l l' (a b : Z) : Prop := {
  sh_inv : as_inv s' root N D' l';
  sh_only : only_mem s s';
  sh_D : without D a b D';
  sh_freed : exists freed, l' = freed ++ l /\ forall p, p ∈ freed <-> exists va, a <= va < b /\ D !! va = Some p;
  sh_bytes va pa i : D' !! va = Some pa -> 0 <= i < 4096 -> load8 s'.(mem) (pa + i) = load8 s.(mem) (pa + i);
  sh_pte va : 0 <= va < MAXVA -> va mod 4096 = 0 ->
    lookup_pte s'.(mem) N va = if decide (a <= va < b) then 0 else lookup_pte s.(mem) N va;
}.

(** All page addresses of [a, b) are mapped. *)
Definition all_mapped D (a b : Z) : Prop :=
  forall va, a <= va < b -> va mod 4096 = 0 -> is_Some (D !! va).

Lemma unmap_shrunk s root N D l a b fuel :
  as_inv s root N D l -> 0 <= a <= b -> a mod 4096 = 0 -> b mod 4096 = 0 -> b <= MAXVA ->
  all_mapped D a b -> (Z.to_nat ((b - a) / 4096) < fuel)%nat ->
  exists s' D' l', uvmunmap_loop fuel root a b true s = Ok tt s' /\ shrunk s s' root N D D' l l' a b.
Proof.
  intros Hi Hab Ha4 Hb4 Hb HD Hf. set (n := Z.to_nat ((b - a) / 4096)) in *.
  assert (b = a + 4096 * Z.of_nat n) as Eb by (unfold n; dlia).
  destruct (uvmunmap_loop_spec root N true n fuel a s D l) as (s' & D' & fr & E & Hi' & Ho & Hwo & Hfr & Hx & Hk);
    try done; try lia.
  { intros i Hii. apply HD; [lia | dlia]. }
  rewrite <- Eb in *. exists s', D', (fr ++ l). split; [done |]. constructor; eauto.
  intros va pa i Hd Hii. pose proof Hi' as [[Hw' Hkm' _ _] Hva' _ _ _ HsN' Hsl'].
  destruct (Hva' va pa Hd) as (_ & _ & [Hp4 _]). apply Hx.
  - intros k q Hq. eapply outside_pages; [apply (wf_page _ _ _ Hw' k q Hq) | exact Hp4 | | lia].
    intros ->. by eapply HsN'.
  - intros q Hq. eapply outside_pages; [apply (free_page_ok s' (fr ++ l)); [done | set_solver + Hq] | exact Hp4 | | lia].
    intros ->. apply (Hsl' va pa Hd). set_solver + Hq.
Qed.

Lemma shrunk_none s root N D l a b : as_inv s root N D l -> b <= a -> shrunk s s root N D D l l a b.
Proof.
  intros Hi Hab. constructor; auto using only_mem_refl.
  - intros va. by rewrite decide_False by lia.
  - exists []. split; [done |]. intros p. split; [set_solver + | intros (va & ? & _); lia].
  - intros va _ _. by rewrite decide_False by lia.
Qed.

Lemma PGROUNDUP_mono x y : 0 <= x <= y -> y + 4095 < 2 ^ 64 -> PGROUNDUP x <= PGROUNDUP y.
Proof. intros. rewrite !PGROUNDUP_eq by lia. dlia. Qed.

Lemma PGROUNDUP_max x : 0 <= x <= MAXVA -> 0 <= PGROUNDUP x <= MAXVA.
Proof. intros. consts. rewrite PGROUNDUP_eq by lia. dlia. Qed.

Lemma uvmdealloc_shrunk s root N D l oldsz newsz :
  as_inv s root N D l -> 0 <= newsz <= MAXVA -> 0 <= oldsz <= MAXVA ->
  all_mapped D (PGROUNDUP newsz) (PGROUNDUP oldsz) ->
  exists s' D' l', uvmdealloc root oldsz newsz s = Ok (Z.min oldsz newsz) s' /\
    shrunk s s' root N D D' l l' (PGROUNDUP newsz) (PGROUNDUP oldsz).
Proof.
  intros Hi Hn Ho HD. unfold uvmdealloc.
  pose proof (PGROUNDUP_max newsz Hn). pose proof (PGROUNDUP_max oldsz Ho). consts.
  destruct (PGROUNDUP_spec newsz) as [Hn4 _]; [lia.. |]. destruct (PGROUNDUP_spec oldsz) as [Ho4 _]; [lia.. |].
  destruct (Z.leb_spec oldsz newsz) as [Hle|Hle].
  - exists s, D, l. split; [by rewrite Z.min_l by lia |]. apply shrunk_none; [done |]. apply PGROUNDUP_mono; lia.
  - rewrite Z.min_r by lia. destruct (Z.ltb_spec (PGROUNDUP newsz) (PGROUNDUP oldsz)) as [Hlt|Hlt].
    + set (a := PGROUNDUP newsz) in *. set (b := PGROUNDUP oldsz) in *. cbn [when].
      rewrite s32_small by dlia. unfold uvmunmap. consts. rewrite Hn4. cbn [negb Z.eqb]. cbn iota.
      rewrite (u64_small ((b - a) / 4096)) by dlia. rewrite (u64_small (_ * 4096)) by dlia.
      replace (a + (b - a) / 4096 * 4096) with b by dlia. rewrite u64_small by lia.
      destruct (unmap_shrunk s root N D l a b (S (Z.to_nat ((b - a) / 4096)))) as (s' & D' & l' & E & Hs);
        try done; try (consts; lia).
      erewrite bind_Ok by exact E. eauto.
    + exists s, D, l. split; [done |]. by apply shrunk_none.
Qed.

(** ** Adding a page *)

(** The tree grew by tables only: the address space is the same. *)
Lemma as_grow s s' root N N' D l1 l2 :
  as_inv s root N D (l1 ++ l2) -> pt_inv s' root N' l2 -> grows s s' N N' l1 ->
  (forall v, 0 <= v < MAXVA -> v mod 4096 = 0 -> lookup_pte s'.(mem) N' v = lookup_pte s.(mem) N v) ->
  as_inv s' root N' D l2.
Proof.
  intros [_ Hva Hent Hus Hin HsN Hsl] Hpt' Hg Hlk. constructor; try done.
  - intros va pa Hd. destruct (Hva va pa Hd) as (? & ? & _). rewrite Hlk by done. by apply Hent.
  - intros va H1 H2. rewrite Hlk by done. by apply Hus.
  - intros va pa k Hd Hk. destruct (g_new _ _ _ _ _ Hg k pa Hk) as [Hk'|Hk']; [by eapply HsN |].
    apply (Hsl va pa Hd). set_solver + Hk'.
  - intros va pa Hd H. apply (Hsl va pa Hd). set_solver + H.
Qed.

(** As above, with the entry of [a] now mapping the fresh page [p]. *)
Lemma as_map s s' root N N' D l1 l2 a p f :
  as_inv s root N D (l1 ++ l2) -> pt_inv s' root N' l2 -> grows s s' N N' l1 ->
  fresh_page N D (l1 ++ l2) p -> 0 <= a < MAXVA -> a mod 4096 = 0 ->
  0 <= f < 1024 -> has f PTE_V = true -> f <> PTE_V ->
  (forall v, 0 <= v < MAXVA -> v mod 4096 = 0 ->
     lookup_pte s'.(mem) N' v = if decide (v = a) then Z.lor (PA2PTE p) f else lookup_pte s.(mem) N v) ->
  as_inv s' root N' (<[a := p]> D) l2.
Proof.
  intros [_ Hva Hent Hus Hin HsN Hsl] Hpt' Hg (Hp & Hpl & HpN & HpD) Ha Ha4 Hf HfV HfN Hlk. constructor; try done.
  - intros va pa [[-> ->]|[_ Hd]]%lookup_insert_Some; [done | by apply Hva].
  - intros va pa [[-> ->]|[Hne Hd]]%lookup_insert_Some.
    + exists f. by rewrite Hlk, decide_True by done.
    + destruct (Hva va pa Hd) as (? & ? & _). rewrite Hlk, decide_False by done || congruence. by apply Hent.
  - intros va H1 H2. rewrite Hlk by done. case_decide as E.
    + intros _. subst. rewrite lookup_insert_eq. eauto.
    + rewrite lookup_insert_ne by congruence. by apply Hus.
  - intros v v' q [[<- <-]|[_ H1]]%lookup_insert_Some [[E1 E2]|[_ H2]]%lookup_insert_Some; try congruence.
    by eapply Hin.
  - intros va pa k Hd Hk. destruct (g_new _ _ _ _ _ Hg k pa Hk) as [Hk'|Hk'];
      apply lookup_insert_Some in Hd as [[-> ->]|[_ Hd]].
    + by eapply HpN.
    + by eapply HsN.
    + apply Hpl. set_solver + Hk'.
    + apply (Hsl va pa Hd). set_solver + Hk'.
  - intros va pa [[-> ->]|[_ Hd]]%lookup_insert_Some H; [apply Hpl | apply (Hsl va pa Hd)]; set_solver + H.
Qed.

(** mappages() of one fresh page. *)
Lemma mappages_one s root N D l a p perm :
  as_inv s root N D l -> fresh_page N D l p -> 0 <= a < MAXVA -> a mod 4096 = 0 ->
  0 <= perm < 1024 -> has (Z.lor perm PTE_V) PTE_V = true -> Z.lor perm PTE_V <> PTE_V ->
  has (lookup_pte s.(mem) N a) PTE_V = false ->
  exists r s' N' l1 l2, mappages root a PGSIZE p perm s = Ok r s' /\ l = l1 ++ l2 /\ grows s s' N N' l1 /\
    ((r = 0 /\ (length l1 <= 2)%nat /\ as_inv s' root N' (<[a := p]> D) l2 /\
      forall v, 0 <= v < MAXVA -> v mod 4096 = 0 -> lookup_pte s'.(mem) N' v =
        if decide (v = a) then Z.lor (PA2PTE p) (Z.lor perm PTE_V) else lookup_pte s.(mem) N v) \/
     (r = -1 /\ l2 = [] /\ (length l1 < 2)%nat /\ as_inv s' root N' D [] /\ fresh_page N' D [] p /\
      forall v, 0 <= v < MAXVA -> v mod 4096 = 0 -> lookup_pte s'.(mem) N' v = lookup_pte s.(mem) N v)).
Proof.
  intros Hi Hfr Ha Ha4 Hperm HV HnV Hinv. pose proof Hfr as (Hp & Hpl & HpN & HpD). pose proof (page_56 p Hp).
  unfold mappages. consts. rewrite Ha4. change (negb (4096 mod 4096 =? 0)) with false. cbn [negb Z.eqb].
  cbn iota. rewrite u64_small by lia.
  destruct (mappages_loop_spec root perm (a + 4096 - 4096) 0 (S (Z.to_nat (4096 / 4096))) a p s N l)
    as (r & s' & N' & l1 & l2 & j & E & -> & Hpt' & Hg & Hj & Hm & _ & Hr); try (consts; lia); try done.
  { apply Hi. }
  { by apply flags_V_range. }
  { intros i Hii. by replace (a + 4096 * i) with a by lia. }
  exists r, s', N', l1, l2. split_and!; [exact E | done | done |].
  destruct Hr as [(-> & -> & Hc)|(-> & Hj' & -> & Hc)]; [left | right; assert (j = 0) as -> by lia].
  - assert (forall v, 0 <= v < MAXVA -> v mod 4096 = 0 -> lookup_pte s'.(mem) N' v =
      if decide (v = a) then Z.lor (PA2PTE p) (Z.lor perm PTE_V) else lookup_pte s.(mem) N v) as Hlk.
    { intros v Hv Hv4. rewrite Hm by done. destruct (decide (v = a)) as [->|].
      - rewrite decide_True by lia. do 2 f_equal. lia.
      - by rewrite decide_False by dlia. }
    split_and!; [done | lia | | exact Hlk]. eapply (as_map s s' _ _ _ _ _ _ _ _ (Z.lor perm PTE_V)); try done. by apply flags_V_range.
  - assert (forall v, 0 <= v < MAXVA -> v mod 4096 = 0 -> lookup_pte s'.(mem) N' v = lookup_pte s.(mem) N v) as Hlk
      by (intros v Hv Hv4; rewrite Hm by done; by rewrite decide_False by lia).
    split_and!; [done | done | lia | by eapply as_grow | | done].
    split_and!; [done | set_solver + | | done]. intros k Hk.
    destruct (g_new _ _ _ _ _ Hg k p Hk) as [Hk'|Hk']; [by eapply HpN | apply Hpl; set_solver + Hk'].
Qed.

(** The user's bytes are outside everything the tree growth touches. *)
Lemma as_bytes s s' root N N' D l1 l2 x pa i :
  as_inv s root N D (l1 ++ l2) -> grows s s' N N' l1 -> D !! x = Some pa -> 0 <= i < 4096 ->
  load8 s'.(mem) (pa + i) = load8 s.(mem) (pa + i).
Proof.
  intros [[Hw Hkm _ _] Hva _ _ _ HsN Hsl] Hg Hd Hi. destruct (Hva x pa Hd) as (_ & _ & [Hp4 _]).
  apply (g_frame _ _ _ _ _ Hg).
  - intros k q Hk. eapply outside_pages; [apply (wf_page _ _ _ Hw k q Hk) | exact Hp4 | | lia].
    intros ->. by eapply HsN.
  - intros q Hq. eapply outside_pages; [apply (free_page_ok s (l1 ++ l2)); [done | set_solver + Hq] | exact Hp4 | | lia].
    intros ->. apply (Hsl x pa Hd). set_solver + Hq.
Qed.

(** ** uvmalloc() *)

(** The pages under the control of the address space and the allocator. *)
Definition owned N D l (p : Z) : Prop :=
  p ∈ l \/ (exists k, N !! k = Some p) \/ (exists va, D !! va = Some p).

(** From [s] to [s'] zeroed pages were mapped at [a, b) with flags [f]; everything
    the user had before is kept, and no page is lost. *)
Record grown s s' root N N' D D' l l' (a b f : Z) : Prop := {
  gr_inv : as_inv s' root N' D' l';
  gr_only : only_mem s s';
  gr_sub : N ⊆ N';
  gr_D va : ~ (a <= va < b) -> D' !! va = D !! va;
  gr_new va : a <= va < b -> va mod 4096 = 0 -> exists p, D' !! va = Some p /\
    lookup_pte s'.(mem) N' va = Z.lor (PA2PTE p) f /\ forall i, 0 <= i < 4096 -> load8 s'.(mem) (p + i) = 0;
  gr_pte va : 0 <= va < MAXVA -> va mod 4096 = 0 -> ~ (a <= va < b) ->
    lookup_pte s'.(mem) N' va = lookup_pte s.(mem) N va;
  gr_bytes va pa i : D !! va = Some pa -> 0 <= i < 4096 -> load8 s'.(mem) (pa + i) = load8 s.(mem) (pa + i);
  gr_pages p : owned N D l p <-> owned N' D' l' p;
}.

(** From [s] to [s'] the user pages in [a, b) were unmapped and freed; nothing is
    mapped in [a, c); the rest of the address space is kept and no page is lost. *)
Record undone s s' root N N' D D' l l' (a b c : Z) : Prop := {
  un_inv : as_inv s' root N' D' l';
  un_only : only_mem s s';
  un_sub : N ⊆ N';
  un_D : without D a b D';
  un_new va : a <= va < c -> va mod 4096 = 0 -> has (lookup_pte s'.(mem) N' va) PTE_V = false;
  un_pte va : 0 <= va < MAXVA -> va mod 4096 = 0 -> ~ (a <= va < c) ->
    lookup_pte s'.(mem) N' va = lookup_pte s.(mem) N va;
  un_bytes va pa i : D' !! va = Some pa -> 0 <= i < 4096 -> load8 s'.(mem) (pa + i) = load8 s.(mem) (pa + i);
  un_pages p : owned N D l p <-> owned N' D' l' p;
}.

Lemma grown_refl s root N D l a f : as_inv s root N D l -> grown s s root N N D D l l a a f.
Proof. intros. constructor; auto using only_mem_refl; done || lia. Qed.

Lemma grown_trans s1 s2 s3 root N1 N2 N3 D1 D2 D3 l1 l2 l3 a b c f :
  grown s1 s2 root N1 N2 D1 D2 l1 l2 a b f -> grown s2 s3 root N2 N3 D2 D3 l2 l3 b c f ->
  a <= b <= c -> 0 <= a -> c <= MAXVA -> (forall va, a <= va < c -> D1 !! va = None) ->
  grown s1 s3 root N1 N3 D1 D3 l1 l3 a c f.
Proof.
  intros [I1 O1 S1 D12 W1 P1 B1 G1] [I2 O2 S2 D23 W2 P2 B2 G2] Hab Ha Hc Hd. constructor; try done.
  - by eapply only_mem_trans.
  - by trans N2.
  - intros va Hva. rewrite D23, D12 by lia. done.
  - intros va Hva H4. destruct (decide (b <= va)); [apply W2; done || lia |].
    destruct (W1 va) as (p & Hp & E & Hz); [lia | done |]. exists p.
    rewrite D23, P2 by lia || done. split_and!; try done.
    intros i Hi. rewrite (B2 va p i Hp Hi). by apply Hz.
  - intros va Hva H4 Hn. rewrite P2, P1 by done || lia. done.
  - intros va pa i Hp Hi. rewrite <- (B1 va pa i Hp Hi). apply (B2 va); [|done]. rewrite D12; [done |].
    intros ?. rewrite Hd in Hp; done || lia.
  - intros p. by rewrite G1, G2.
Qed.

Lemma grown_undone s1 s2 s3 root N1 N2 N3 D1 D2 D3 l1 l2 l3 o a b c f :
  grown s1 s2 root N1 N2 D1 D2 l1 l2 a b f -> undone s2 s3 root N2 N3 D2 D3 l2 l3 o b c ->
  0 <= o <= a -> a <= b <= c -> c <= MAXVA -> (forall va, a <= va < c -> D1 !! va = None) ->
  undone s1 s3 root N1 N3 D1 D3 l1 l3 o a c.
Proof.
  intros [I1 O1 S1 D12 W1 P1 B1 G1] [I2 O2 S2 D23 W2 P2 B2 G2] Ho Hab Hc Hd. constructor; try done.
  - by eapply only_mem_trans.
  - by trans N2.
  - intros va. rewrite D23. destruct (decide (a <= va < b)).
    + rewrite decide_True by lia. rewrite Hd by lia. by case_decide.
    + rewrite D12 by done. repeat case_decide; done || lia.
  - intros va Hva H4 Hn. rewrite P2, P1 by done || lia. done.
  - intros va pa i Hp Hi. rewrite (B2 va pa i Hp Hi). rewrite D23 in Hp. case_decide; [done |].
    rewrite D12 in Hp by lia. by eapply B1.
  - intros p. by rewrite G1, G2.
Qed.

Lemma shrunk_undone s s' root N D D' l l' a b c :
  shrunk s s' root N D D' l l' a b -> 0 <= a -> a <= b <= c -> c <= MAXVA ->
  (forall va, b <= va < c -> va mod 4096 = 0 -> has (lookup_pte s.(mem) N va) PTE_V = false) ->
  undone s s' root N N D D' l l' a b c.
Proof.
  intros [Hi Ho Hwo (fr & -> & Hfr) HB HP] Ha Hab Hc Hinv. constructor; try done.
  - intros va Hva H4. rewrite HP by done || lia. case_decide; [done |]. apply Hinv; done || lia.
  - intros va Hva H4 Hn. rewrite HP by done. by rewrite decide_False by lia.
  - intros p. unfold owned. rewrite elem_of_app, Hfr. split.
    + intros [?|[?|[va Hd]]]; [tauto | tauto |]. destruct (decide (a <= va < b)); [eauto |].
      right; right. exists va. rewrite Hwo. by rewrite decide_False.
    + intros [[(va & _ & Hd)|?]|[?|[va Hd]]]; [eauto | tauto | tauto |].
      rewrite Hwo in Hd. case_decide; [done | eauto].
Qed.

(** The entry of an unmapped page belongs to no user page. *)
Lemma as_unmapped s root N D l va :
  as_inv s root N D l -> has (lookup_pte s.(mem) N va) PTE_V = false -> D !! va = None.
Proof.
  intros Hi Hv. destruct (D !! va) eqn:E; [|done]. destruct (as_entry _ _ _ _ _ _ _ Hi E) as [H _]. congruence.
Qed.

Lemma owned_tables s s' N N' D p l :
  grows s s' N N' l -> forall q, owned N D (p :: l) q <-> owned N' D [p] q.
Proof.
  intros [_ Hsub Hnew Hused _] q. unfold owned. rewrite elem_of_cons, list_elem_of_singleton. split.
  - intros [[?|Hq]|[[k Hk]|?]]; [tauto | right; left; eauto | right; left; exists k; by eapply lookup_weaken | tauto].
  - intros [?|[[k Hk]|?]]; [tauto | destruct (Hnew k q Hk); eauto | tauto].
Qed.

Lemma owned_map s s' N N' D p l1 l2 a :
  grows s s' N N' l1 -> D !! a = None -> forall q, owned N D (p :: l1 ++ l2) q <-> owned N' (<[a := p]> D) l2 q.
Proof.
  intros [_ Hsub Hnew Hused _] Ha q. unfold owned. rewrite elem_of_cons, elem_of_app. split.
  - intros [[->|[Hq|Hq]]|[[k Hk]|[va Hd]]].
    + right; right. exists a. apply lookup_insert_eq.
    + right; left. eauto.
    + tauto.
    + right; left. exists k. by eapply lookup_weaken.
    + right; right. exists va. rewrite lookup_insert_ne by congruence. done.
  - intros [?|[[k Hk]|[va [[_ ->]|[_ Hd]]%lookup_insert_Some]]]; [tauto | | tauto | eauto].
    destruct (Hnew k q Hk); eauto.
Qed.

Lemma alloc_perm xperm (perm := Z.lor (Z.lor PTE_R PTE_U) xperm) :
  0 <= xperm < 1024 ->
  0 <= perm < 1024 /\ has (Z.lor perm PTE_V) PTE_V = true /\ Z.lor perm PTE_V <> PTE_V.
Proof.
  intros Hx. unfold perm. consts. change (Z.lor 2 16) with 18. split; [|split].
  - apply lor_1024; lia.
  - unfold has. apply negb_true_iff, Z.eqb_neq. intros E. apply (f_equal (fun z => Z.testbit z 0)) in E.
    by rewrite Z.land_spec, !Z.lor_spec, orb_true_r in E.
  - intros E. apply (f_equal (fun z => Z.testbit z 1)) in E. by rewrite !Z.lor_spec in E.
Qed.

(** One iteration of uvmalloc() with a free page at hand: kalloc() and memset(),
    then mappages(), which maps the page or fails; in the latter case kfree()
    returns it. *)
Lemma uvmalloc_step s root N D p l a perm :
  as_inv s root N D (p :: l) -> 0 <= a < MAXVA -> a mod 4096 = 0 ->
  0 <= perm < 1024 -> has (Z.lor perm PTE_V) PTE_V = true -> Z.lor perm PTE_V <> PTE_V ->
  has (lookup_pte s.(mem) N a) PTE_V = false ->
  exists s1 r s3 N3, kalloc s = Ok p s1 /\ p <> 0 /\
    mappages root a PGSIZE p perm (set_mem (memset s1.(mem) p 0 PGSIZE) s1) = Ok r s3 /\
    ((r = 0 /\ exists l3, (length l <= length l3 + 2)%nat /\ grown s s3 root N N3 D (<[a := p]> D) (p :: l) l3 a (a + 4096) (Z.lor perm PTE_V)) \/
     (r = -1 /\ (length l < 2)%nat /\ exists s4, kfree p s3 = Ok tt s4 /\ grown s s4 root N N3 D D (p :: l) [p] a a (Z.lor perm PTE_V))).
Proof.
  intros Hi Ha Ha4 Hperm HV HnV Hinv.
  destruct (as_take _ _ _ _ _ _ Hi) as (HpN & HpD & Hpl & Hp).
  destruct (as_kalloc _ _ _ _ _ _ Hi) as (s1 & E1 & Hp0 & Hi2 & Ho2 & Hx2 & Hk2 & Hz2). set (s2 := set_mem _ s1) in *.
  destruct (mappages_one s2 root N D l a p perm) as (r & s3 & N3 & l1 & l2 & E3 & -> & Hg & Hr);
    [exact Hi2 | exact (conj Hp (conj Hpl (conj HpN HpD))) | assumption.. | rewrite Hk2; exact Hinv |].
  exists s1, r, s3, N3. split; [exact E1 |]. split; [exact Hp0 |]. split; [exact E3 |]. clearbody s2. clear E1 E3.
  assert (forall va pa i, D !! va = Some pa -> 0 <= i < 4096 -> load8 s3.(mem) (pa + i) = load8 s.(mem) (pa + i)) as HB.
  { intros va pa i Hd Hii. rewrite (as_bytes s2 s3 root N N3 D l1 l2 va pa i) by done. apply Hx2.
    eapply (outside_pages _ _ pa); [apply Hp | apply (as_va _ _ _ _ _ Hi va pa Hd) | | lia].
    intros <-. by eapply HpD. }
  assert (forall i, 0 <= i < 4096 -> load8 s3.(mem) (p + i) = 0) as HZ.
  { intros i Hii. rewrite (g_frame _ _ _ _ _ Hg); [by apply Hz2 | |].
    - intros k q Hq. eapply (outside_pages _ _ p); [apply (wf_page _ _ _ (pi_wf _ _ _ _ (as_pt _ _ _ _ _ Hi)) k q Hq) | apply Hp | | lia].
      intros ->. by eapply HpN.
    - intros q Hq. eapply (outside_pages _ _ p); [|apply Hp | set_solver + Hq Hpl | lia].
      eapply (free_page_ok s2 (l1 ++ l2)); [apply Hi2 | set_solver + Hq]. }
  pose proof (as_unmapped _ _ _ _ _ _ Hi Hinv) as HDa.
  destruct Hr as [(-> & Hc & Hi3 & Hk3)|(-> & -> & Hc & Hi3 & (_ & _ & HpN3 & _) & Hk3)]; [left | right]; (split; [done |]).
  - exists l2. split; [rewrite length_app; lia |]. constructor; try done.
    + eapply only_mem_trans; [exact Ho2 | apply Hg].
    + apply Hg.
    + intros va Hva. apply lookup_insert_ne. lia.
    + intros va Hva Hva4. assert (va = a) as -> by dlia. exists p. rewrite lookup_insert_eq, Hk3, decide_True by done. done.
    + intros va Hva Hva4 Hn. rewrite Hk3, decide_False, Hk2 by done || lia. done.
    + by apply (owned_map s2 s3).
  - split; [rewrite length_app; simpl; lia |].
    destruct (as_kfree s3 root N3 D p []) as (s4 & E4 & Hi4 & Ho4 & Hx4 & Hk4); try done; [set_solver + |].
    exists s4. split; [done |]. constructor; try done; try lia.
    + eapply only_mem_trans; [exact Ho2 |]. eapply only_mem_trans; [apply Hg | done].
    + apply Hg.
    + intros va Hva Hva4 _. by rewrite Hk4, Hk3, Hk2 by done.
    + intros va pa i Hd Hii. rewrite Hx4; [by eapply HB |].
      eapply (outside_pages _ _ pa); [apply Hp | apply (as_va _ _ _ _ _ Hi va pa Hd) | | lia].
      intros <-. by eapply HpD.
    + rewrite app_nil_r in *. by apply (owned_tables s2 s3).
Qed.

Lemma unmapped_range s root N D l a e :
  as_inv s root N D l -> (forall va, a <= va < e -> va mod 4096 = 0 -> has (lookup_pte s.(mem) N va) PTE_V = false) ->
  forall va, a <= va < e -> D !! va = None.
Proof.
  intros Hi Hinv va Hva. destruct (D !! va) eqn:E; [|done].
  destruct (as_va _ _ _ _ _ Hi _ _ E) as (_ & H4 & _). pose proof (as_unmapped _ _ _ _ _ va Hi (Hinv va Hva H4)). congruence.
Qed.

(** The failure path: uvmdealloc(pagetable, a, oldsz). *)
Lemma uvmalloc_undo s s2 root N N2 D l l2 old a e f :
  as_inv s root N D l -> 0 <= old <= a -> old mod 4096 = 0 -> a mod 4096 = 0 -> a <= e <= MAXVA ->
  all_mapped D old a ->
  (forall va, a <= va < e -> va mod 4096 = 0 -> has (lookup_pte s.(mem) N va) PTE_V = false) ->
  grown s s2 root N N2 D D l l2 a a f ->
  exists s' D' l', uvmdealloc root a old s2 = Ok old s' /\ undone s s' root N N2 D D' l l' old a e.
Proof.
  intros Hi Ho Ho4 Ha4 He HD Hinv Hg.
  destruct (uvmdealloc_shrunk s2 root N2 D l2 a old) as (s' & D' & l' & E & Hs); try (consts; lia); [apply Hg | |].
  - rewrite !PGROUNDUP_aligned by (done || consts; lia). done.
  - rewrite !PGROUNDUP_aligned in Hs by (done || consts; lia). rewrite Z.min_r in E by lia.
    exists s', D', l'. split; [done |]. eapply grown_undone; [exact Hg | | done | lia | lia | by eapply unmapped_range].
    apply shrunk_undone; [done | lia | lia | lia |]. intros va Hva Hva4.
    rewrite (gr_pte _ _ _ _ _ _ _ _ _ _ _ _ Hg) by done || lia. apply Hinv; done || lia.
Qed.

Lemma uvmalloc_loop_spec root xperm old newsz n : forall fuel a s N D l,
  as_inv s root N D l -> 0 <= old <= a -> old mod 4096 = 0 -> a mod 4096 = 0 ->
  let e := a + 4096 * Z.of_nat n in
  newsz <= e < newsz + 4096 -> e <= MAXVA -> (n < fuel)%nat -> 0 <= xperm < 1024 ->
  all_mapped D old a ->
  (forall va, a <= va < e -> va mod 4096 = 0 -> has (lookup_pte s.(mem) N va) PTE_V = false) ->
  exists r s' N' D' l', uvmalloc_loop fuel root a old newsz xperm s = Ok r s' /\
    ((r = newsz /\ grown s s' root N N' D D' l l' a e (Z.lor (Z.lor (Z.lor PTE_R PTE_U) xperm) PTE_V)) \/
     (r = 0 /\ (length l < 3 * n)%nat /\ undone s s' root N N' D D' l l' old a e)).
Proof.
  induction n as [|n IH]; intros fuel a s N D l Hi Ho Ho4 Ha4 e He Hm Hf Hx HD Hinv;
    (destruct fuel as [|fuel]; [lia |]); cbn [uvmalloc_loop].
  { destruct (Z.ltb_spec a newsz); [lia |]. exists newsz, s, N, D, l. split; [done |]. left. split; [done |].
    replace e with a by lia. by apply grown_refl. }
  destruct (Z.ltb_spec a newsz); [|lia].
  destruct (alloc_perm xperm Hx) as (Hperm & HV & HnV). set (perm := Z.lor (Z.lor PTE_R PTE_U) xperm) in *.
  assert (forall va, a <= va < e -> D !! va = None) as HDn by (by apply (unmapped_range s root N D l)).
  assert (forall s2 N2 l2, grown s s2 root N N2 D D l l2 a a (Z.lor perm PTE_V) ->
    exists s' D' l', uvmdealloc root a old s2 = Ok old s' /\ undone s s' root N N2 D D' l l' old a e) as Hundo.
  { intros s2 N2 l2 Hg. apply (uvmalloc_undo s s2 root N N2 D l l2 old a e (Z.lor perm PTE_V)); done || lia. }
  destruct l as [|p l].
  - erewrite bind_Ok by (apply (kalloc_spec s []); apply Hi). cbn [Z.eqb].
    destruct (Hundo s N []) as (s' & D' & l' & E & Hu); [by apply grown_refl | done.. |].
    erewrite bind_Ok by exact E. exists 0, s', N, D', l'. split; [done |]. right. split_and!; [done | simpl; lia | done].
  - destruct (uvmalloc_step s root N D p l a perm) as (s1 & r & s3 & N3 & E1 & Hp0 & E3 & Hr); try done; try lia.
    { apply Hinv; [lia | done]. }
    erewrite bind_Ok by exact E1. destruct (Z.eqb_spec p 0) as [|_]; [done |]. erewrite bind_Ok by done.
    erewrite bind_Ok by exact E3. destruct Hr as [(-> & l3 & Hc & Hg)|(-> & Hc & s4 & E4 & Hg)]; cbn [negb Z.eqb]; cbn iota.
    + rewrite u64_small by (consts; lia).
      destruct (IH fuel (a + 4096) s3 N3 (<[a := p]> D) l3) as (r & s' & N' & D' & l' & E & Hr); try lia; try done.
      * apply Hg.
      * dlia.
      * intros va Hva Hva4. destruct (decide (va = a)) as [->|]; [rewrite lookup_insert_eq; eauto |].
        rewrite lookup_insert_ne by done. apply HD; [dlia | done].
      * intros va Hva Hva4. rewrite (gr_pte _ _ _ _ _ _ _ _ _ _ _ _ Hg) by (done || lia). apply Hinv; done || lia.
      * replace (a + 4096 + 4096 * Z.of_nat n) with e in Hr by lia.
        exists r, s', N', D', l'. split; [done |]. destruct Hr as [[-> Hg']|(-> & Hc' & Hu)]; [left; split; [done |] | right; split; [done |]; split; [simpl; lia |]].
        -- eapply grown_trans; [exact Hg | exact Hg' | lia | lia | done | done].
        -- eapply grown_undone; [exact Hg | exact Hu | lia | lia | done | done].
    + erewrite bind_Ok by exact E4. destruct (Hundo s4 N3 [p]) as (s' & D' & l' & E & Hu); [done.. |].
      erewrite bind_Ok by exact E. exists 0, s', N3, D', l'. split; [done |]. right. split_and!; [done | simpl; lia | done].
Qed.

Lemma uvmalloc_run s root N D l oldsz newsz xperm :
  as_inv s root N D l -> 0 <= oldsz <= newsz -> newsz <= MAXVA -> 0 <= xperm < 1024 ->
  (forall va, PGROUNDUP oldsz <= va < PGROUNDUP newsz -> va mod 4096 = 0 ->
     has (lookup_pte s.(mem) N va) PTE_V = false) ->
  exists r s' N' D' l', uvmalloc root oldsz newsz xperm s = Ok r s' /\
    ((r = newsz /\ grown s s' root N N' D D' l l' (PGROUNDUP oldsz) (PGROUNDUP newsz)
        (Z.lor (Z.lor (Z.lor PTE_R PTE_U) xperm) PTE_V)) \/
     (r = 0 /\ D' = D /\ Z.of_nat (length l) < 3 * ((PGROUNDUP newsz - PGROUNDUP oldsz) / 4096) /\
        undone s s' root N N' D D' l l' (PGROUNDUP oldsz) (PGROUNDUP oldsz) (PGROUNDUP newsz))).
Proof.
  intros Hi Ho Hn Hx Hinv. unfold uvmalloc. destruct (Z.ltb_spec newsz oldsz); [lia |].
  pose proof (PGROUNDUP_max newsz). pose proof (PGROUNDUP_max oldsz). consts.
  destruct (PGROUNDUP_spec newsz) as [Hn4 Hnr]; [lia.. |]. destruct (PGROUNDUP_spec oldsz) as [Ho4 Hor]; [lia.. |].
  pose proof (PGROUNDUP_mono oldsz newsz).
  set (a := PGROUNDUP oldsz) in *. set (e := PGROUNDUP newsz) in *.
  assert (e = a + 4096 * Z.of_nat (Z.to_nat ((e - a) / 4096))) as Ee by dlia.
  destruct (uvmalloc_loop_spec root xperm a newsz (Z.to_nat ((e - a) / 4096)) (S (S (Z.to_nat (newsz / 4096)))) a s N D l)
    as (r & s' & N' & D' & l' & E & Hr); try done; try (consts; lia).
  - dlia.
  - intros va Hva. lia.
  - rewrite <- Ee. done.
  - rewrite <- Ee in Hr. exists r, s', N', D', l'. split; [done |].
    destruct Hr as [?|(-> & Hc & Hu)]; [by left | right]. split; [done |]. split; [|split; [dlia | done]].
    apply map_eq. intros va. rewrite (un_D _ _ _ _ _ _ _ _ _ _ _ _ Hu). by rewrite decide_False by lia.
Qed.

(** C18. uvmalloc() from [oldsz] up to [newsz] bytes, where no page between the two
    sizes is mapped.  It always terminates without panicking.  Either it returns
    [newsz] with zero-filled pages mapped user-readable with the extra permissions
    [xperm] over the new range, or it returns 0 with the mapping of every user page
    as before, which happens only when there were fewer than three free pages for
    each page to add (a page and at most two tables).  In both cases the user's bytes and the other translations are
    unchanged, and the pages owned by the free list, the page-table tree and the
    address space together are the same as before: nothing leaks. *)
Theorem uvmalloc_spec s root N D l oldsz newsz xperm :
  as_inv s root N D l -> 0 <= oldsz <= newsz -> newsz <= MAXVA -> 0 <= xperm < 1024 ->
  (forall va, PGROUNDUP oldsz <= va < PGROUNDUP newsz -> va mod 4096 = 0 ->
     has (lookup_pte s.(mem) N va) PTE_V = false) ->
  exists r s' N' D' l', uvmalloc root oldsz newsz xperm s = Ok r s' /\
    ((r = newsz /\ grown s s' root N N' D D' l l' (PGROUNDUP oldsz) (PGROUNDUP newsz)
        (Z.lor (Z.lor (Z.lor PTE_R PTE_U) xperm) PTE_V)) \/
     (r = 0 /\ D' = D /\ Z.of_nat (length l) < 3 * ((PGROUNDUP newsz - PGROUNDUP oldsz) / 4096) /\
        undone s s' root N N' D D' l l' (PGROUNDUP oldsz) (PGROUNDUP oldsz) (PGROUNDUP newsz))).
Proof. apply uvmalloc_run. Qed.

(** Growing and shrinking are inverse: when uvmalloc() from [oldsz] to [newsz]
    succeeds, uvmdealloc() back to [oldsz] returns [oldsz] and restores the set of
    mapped user pages, their physical pages and their contents; all pages
    allocated in between are free again or tables of the tree. *)
Theorem uvmalloc_uvmdealloc s root N D l oldsz newsz xperm s1 :
  as_inv s root N D l -> 0 <= oldsz < newsz -> newsz <= MAXVA -> 0 <= xperm < 1024 ->
  (forall va, PGROUNDUP oldsz <= va < PGROUNDUP newsz -> va mod 4096 = 0 ->
     has (lookup_pte s.(mem) N va) PTE_V = false) ->
  uvmalloc root oldsz newsz xperm s = Ok newsz s1 ->
  exists s2 N2 l2, uvmdealloc root newsz oldsz s1 = Ok oldsz s2 /\
    as_inv s2 root N2 D l2 /\ N ⊆ N2 /\ only_mem s s2 /\
    (forall va pa i, D !! va = Some pa -> 0 <= i < 4096 -> load8 s2.(mem) (pa + i) = load8 s.(mem) (pa + i)) /\
    (forall p, owned N D l p <-> owned N2 D l2 p).
Proof.
  intros Hi Ho Hn Hx Hinv E.
  destruct (uvmalloc_run s root N D l oldsz newsz xperm) as (r & s' & N' & D' & l' & E' & Hr); try done; try lia.
  rewrite E in E'. injection E' as <- <-. destruct Hr as [[_ Hg]|(? & _)]; [|lia].
  pose proof (PGROUNDUP_mono oldsz newsz) as Hmono. pose proof (PGROUNDUP_max oldsz) as Hmo.
  pose proof (PGROUNDUP_max newsz) as Hmn.
  destruct (uvmdealloc_shrunk s1 root N' D' l' newsz oldsz) as (s2 & D2 & l2 & E2 & Hs); try lia.
  - apply Hg.
  - intros va Hva H4. destruct (gr_new _ _ _ _ _ _ _ _ _ _ _ _ Hg va Hva H4) as (p & Hp & _). eauto.
  - rewrite Z.min_r in E2 by lia.
    assert (undone s1 s2 root N' N' D' D2 l' l2 (PGROUNDUP oldsz) (PGROUNDUP newsz) (PGROUNDUP newsz)) as Hu0.
    { apply shrunk_undone; [done | lia | consts; lia | lia |]. intros; lia. }
    assert (undone s s2 root N N' D D2 l l2 (PGROUNDUP oldsz) (PGROUNDUP oldsz) (PGROUNDUP newsz)) as Hu.
    { eapply grown_undone; [exact Hg | exact Hu0 | lia | consts; lia | lia | by eapply unmapped_range]. }
    assert (D2 = D) as ->.
    { apply map_eq. intros va. rewrite (un_D _ _ _ _ _ _ _ _ _ _ _ _ Hu). by rewrite decide_False by lia. }
    exists s2, N', l2. destruct Hu. done.
Qed.
End uvmalloc.
