(* ===== verification/UvmFree.v ===== *)
(** * Freeing address spaces

    freewalk() and uvmfree() (kernel/vm.c) return every page of a page-table tree,
    and every user page, to the allocator; uvmcreate() makes an empty address
    space. *)

From S2P Require Import Prelude State Mem Riscv Kalloc Vm PageTable Uvm UvmAlloc.

Section uvmfree.
Context {L : Linker}.
Implicit Types (N : gmap (list Z) Z) (m D : gmap Z Z) (s : kernel) (l k : list Z).

(** The tables of the subtree at [k] hold, in memory [m], the entries the tree [N]
    says, and no leaf entry is valid. *)
Definition subtree m N k : Prop :=
  forall k' p i, N !! (k ++ k') = Some p -> 0 <= i < 512 ->
    if decide (length (k ++ k') < 2)%nat then
      match N !! (k ++ k' ++ [i]) with
      | Some q => load64 m (p + 8 * i) = Z.lor (PA2PTE q) PTE_V
      | None => has (load64 m (p + 8 * i)) PTE_V = false
      end
    else has (load64 m (p + 8 * i)) PTE_V = false.

(** [q] is a table of the subtree at [k]. *)
Definition in_sub N k (q : Z) : Prop := exists k', N !! (k ++ k') = Some q.

(** Facts about the tree that do not depend on memory. *)
Record tree_ok N : Prop := {
  t_page k p : N !! k = Some p -> page_ok p;
  t_inj k k' p : N !! k = Some p -> N !! k' = Some p -> k = k';
  t_path k i p : N !! (k ++ [i]) = Some p -> is_Some (N !! k) /\ 0 <= i < 512 /\ (length k < 2)%nat;
}.

Lemma tree_ok_wf m root N : pt_wf m root N -> tree_ok N.
Proof.
  intros [Hr Hp Hi Hpa He]. constructor; [done.. |]. intros k i p H. apply Hpa in H. tauto.
Qed.

(** Paths are closed under prefixes. *)
Lemma sub_prefix N k k' : tree_ok N -> is_Some (N !! (k ++ k')) -> is_Some (N !! k).
Proof.
  intros Ht. induction k' as [|j k' IH] using rev_ind; [by rewrite app_nil_r |]. intros [p H]. apply IH.
  rewrite app_assoc in H. by apply (t_path _ Ht) in H as [? _].
Qed.

Lemma in_sub_split N k q :
  tree_ok N -> in_sub N k q -> N !! k = Some q \/ exists i, 0 <= i < 512 /\ in_sub N (k ++ [i]) q.
Proof.
  intros Ht [k' Hk]. destruct k' as [|i k']; [left; by rewrite app_nil_r in Hk | right]. exists i. split.
  - destruct (sub_prefix N (k ++ [i]) k' Ht) as [p Hp]; [rewrite <- app_assoc; eauto |]. by apply (t_path _ Ht) in Hp as (_ & ? & _).
  - exists k'. by rewrite <- app_assoc.
Qed.

Lemma in_sub_child N k i q : in_sub N (k ++ [i]) q -> in_sub N k q.
Proof. intros [k' H]. exists (i :: k'). by rewrite <- app_assoc in H. Qed.

(** Distinct subtrees are disjoint, and a table is not inside its own children. *)
Lemma in_sub_disjoint N k i j q : tree_ok N -> in_sub N (k ++ [i]) q -> in_sub N (k ++ [j]) q -> i = j.
Proof.
  intros Ht [k1 H1] [k2 H2]. pose proof (t_inj _ Ht _ _ _ H1 H2) as E. rewrite <- !app_assoc in E.
  apply app_inv_head in E. by simplify_eq/=.
Qed.

Lemma in_sub_root N k i q : tree_ok N -> N !! k = Some q -> ~ in_sub N (k ++ [i]) q.
Proof.
  intros Ht H [k1 H1]. pose proof (t_inj _ Ht _ _ _ H H1) as E. apply (f_equal length) in E.
  rewrite !length_app in E. simpl in E. lia.
Qed.

Lemma in_sub_page N k q : tree_ok N -> in_sub N k q -> page_ok q.
Proof. intros Ht [k' H]. by eapply t_page. Qed.

(** A subtree is untouched by writes outside its tables. *)
Lemma subtree_agree m m' N k :
  subtree m N k -> (forall q, in_sub N k q -> agree m m' q (q + 4096)) -> subtree m' N k.
Proof.
  intros Hs Ha k' p i Hk Hi. specialize (Hs k' p i Hk Hi).
  rewrite (load64_agree m m' p (p + 4096)); [done | by apply Ha; exists k' | lia | lia].
Qed.

Lemma subtree_child m N k i : subtree m N k -> subtree m N (k ++ [i]).
Proof.
  intros Hs k' p j Hk Hj. rewrite <- !app_assoc in *. simpl in *. specialize (Hs (i :: k') p j Hk Hj). simpl in Hs. done.
Qed.

(** What freewalk() on the subtree [k] does. *)
Record freed_sub s s' N k l l' : Prop := {
  fs_kmem : kmem_inv s' l';
  fs_only : only_mem s s';
  fs_list q : q ∈ l' <-> q ∈ l \/ in_sub N k q;
  fs_frame a : (forall q, in_sub N k q -> outside a q) -> load8 s'.(mem) a = load8 s.(mem) a;
}.

(** Loop invariant: the children below [i] have been freed. *)
Record freed_upto s s' N k p l l' (i : nat) : Prop := {
  fu_kmem : kmem_inv s' l';
  fu_only : only_mem s s';
  fu_list q : q ∈ l' <-> q ∈ l \/ exists j, 0 <= j < Z.of_nat i /\ in_sub N (k ++ [j]) q;
  fu_frame a : outside a p -> (forall j q, 0 <= j < Z.of_nat i -> in_sub N (k ++ [j]) q -> outside a q) ->
    load8 s'.(mem) a = load8 s.(mem) a;
  fu_entry a : p + 8 * Z.of_nat i <= a < p + 4096 -> load8 s'.(mem) a = load8 s.(mem) a;
}.

Lemma freed_upto_0 s N k p l : kmem_inv s l -> freed_upto s s N k p l l 0.
Proof.
  intros. constructor; auto using only_mem_refl. intros q. split; [tauto |]. intros [?|(j & ? & _)]; [done | lia].
Qed.

Lemma table_not_leaf q : page_ok q -> Z.land (Z.lor (PA2PTE q) PTE_V) (Z.lor (Z.lor PTE_R PTE_W) PTE_X) = 0.
Proof.
  intros Hq. rewrite land_flags by (consts; done). by rewrite PTE_FLAGS_mk_pte by (done || by apply page_56).
Qed.

(** A child that has been freed, and its entry cleared. *)
Lemma freed_upto_child s s1 s2 N k p l l1 l2 (i : nat) :
  tree_ok N -> N !! k = Some p -> (forall q, in_sub N k q -> q ∉ l) -> Z.of_nat i < 512 ->
  freed_upto s s1 N k p l l1 i -> freed_sub s1 s2 N (k ++ [Z.of_nat i]) l1 l2 ->
  freed_upto s (set_mem (store64 s2.(mem) (p + 8 * Z.of_nat i) 0) s2) N k p l l2 (i + 1).
Proof.
  intros Ht Hk Hsep Hi [K1 O1 Q1 F1 E1] [K2 O2 Q2 F2]. pose proof (t_page _ Ht k p Hk) as Hp.
  assert (forall q, in_sub N (k ++ [Z.of_nat i]) q -> q <> p) as Hne.
  { intros q Hq ->. by eapply in_sub_root. }
  assert (p ∉ l2) as Hpl.
  { rewrite Q2, Q1. intros [[Hin|(j & _ & Hs)]|Hs]; [|by eapply in_sub_root..].
    apply (Hsep p); [|done]. exists []. by rewrite app_nil_r. }
  constructor; simpl.
  - eapply kmem_inv_frame; [exact K2 | done |]. intros q Hq a Ha. simpl. apply load8_store64_ne.
    pose proof (free_page_ok _ _ _ K2 Hq) as [Hq4 _]. destruct Hp as [Hp4 _].
    destruct (page_disjoint p q); [done | done | by intros -> | lia | lia].
  - eapply only_mem_trans; [exact O1 |]. eapply only_mem_trans; [exact O2 |]. unfold only_mem. reflexivity.
  - intros q. rewrite Q2, Q1. split.
    + intros [[?|(j & ? & ?)]|?]; [by left | right; exists j; split; [lia | done] | right; exists (Z.of_nat i); split; [lia | done]].
    + intros [?|(j & Hj & Hs)]; [tauto |]. destruct (decide (j = Z.of_nat i)) as [->|]; [tauto |].
      left; right. exists j. split; [lia | done].
  - intros a Ha Hs. unfold outside in Ha. rewrite load8_store64_ne by lia. rewrite F2, F1; [done | done | |].
    + intros j q Hj. apply Hs. lia.
    + intros q. apply Hs. lia.
  - intros a Ha. rewrite load8_store64_ne by lia. rewrite F2; [apply E1; lia |].
    intros q Hq. eapply (outside_pages _ _ p); [apply (in_sub_page _ _ _ Ht Hq) | apply Hp | by apply Hne | lia].
Qed.

(** An entry without a table below it. *)
Lemma freed_upto_skip s s1 N k p l l1 (i : nat) :
  tree_ok N -> N !! (k ++ [Z.of_nat i]) = None ->
  freed_upto s s1 N k p l l1 i -> freed_upto s s1 N k p l l1 (i + 1).
Proof.
  intros Ht Hn [K1 O1 Q1 F1 E1].
  assert (forall q, ~ in_sub N (k ++ [Z.of_nat i]) q) as Hno.
  { intros q [k' Hq]. destruct (sub_prefix N (k ++ [Z.of_nat i]) k' Ht) as [x Hx]; [eauto | congruence]. }
  constructor; try done.
  - intros q. rewrite Q1. split; intros [?|(j & Hj & Hs)]; [by left | right; exists j; split; [lia | done] | by left |].
    destruct (decide (j = Z.of_nat i)) as [->|]; [by apply Hno in Hs |]. right. exists j. split; [lia | done].
  - intros a Ha Hs. apply F1; [done |]. intros j q Hj. apply Hs. lia.
  - intros a Ha. apply E1. lia.
Qed.

(** The tables of a child are still intact when its turn comes. *)
Lemma freed_upto_intact s s1 N k p l l1 (i : nat) :
  tree_ok N -> N !! k = Some p -> subtree s.(mem) N k -> freed_upto s s1 N k p l l1 i ->
  subtree s1.(mem) N (k ++ [Z.of_nat i]).
Proof.
  intros Ht Hk Hs [K1 O1 Q1 F1 E1]. eapply subtree_agree; [by apply subtree_child |].
  intros q Hq a Ha. pose proof (in_sub_page _ _ _ Ht Hq) as [Hq4 _]. apply F1.
  - eapply outside_pages; [apply (t_page _ Ht k p Hk) | exact Hq4 | | exact Ha]. intros ->. by eapply in_sub_root.
  - intros j q' Hj Hq'. eapply outside_pages; [apply (in_sub_page _ _ _ Ht Hq') | exact Hq4 | | exact Ha].
    intros ->. assert (j = Z.of_nat i) by (by eapply in_sub_disjoint). lia.
Qed.

(** The final kfree() of the table itself. *)
Lemma freewalk_last s s1 N k p l l1 :
  tree_ok N -> N !! k = Some p -> LkKmem ∉ s.(held) -> (forall q, in_sub N k q -> q ∉ l) ->
  freed_upto s s1 N k p l l1 512 ->
  wp (kfree p) (fun _ s' => exists l', freed_sub s s' N k l l') s1.
Proof.
  intros Ht Hk Hlk Hsep [K1 O1 Q1 F1 E1]. pose proof (t_page _ Ht k p Hk) as Hp.
  assert (p ∉ l1) as Hpl.
  { rewrite Q1. intros [Hin|(j & _ & Hs)]; [|by eapply in_sub_root].
    apply (Hsep p); [|done]. exists []. by rewrite app_nil_r. }
  destruct (kfree_spec s1 l1 p) as (s2 & E2 & K2 & Es2); [done | by rewrite (only_mem_held _ _ O1) | done | done |].
  eapply wp_Ok; [exact E2 |]. exists (p :: l1). constructor; [done | | |].
  - eapply only_mem_trans; [exact O1 |]. unfold only_mem. rewrite Es2. reflexivity.
  - intros q. rewrite elem_of_cons, Q1. split.
    + intros [->|[?|(j & _ & Hs)]]; [right; exists []; by rewrite app_nil_r | by left | right; by eapply in_sub_child].
    + intros [?|Hs]; [tauto |]. apply in_sub_split in Hs as [Hs|(j & Hj & Hs)]; [left; congruence | | done].
      right; right. exists j. split; [lia | done].
  - intros a Ha. assert (outside a p) as Hap by (apply Ha; exists []; by rewrite app_nil_r).
    rewrite Es2. simpl. unfold outside in Hap. rewrite load8_store64_ne by lia. rewrite memset_outside by done.
    apply F1; [done |]. intros j q _ Hq. apply Ha. by eapply in_sub_child.
Qed.

Lemma freewalk_sub N d : tree_ok N -> forall k p s l,
  N !! k = Some p -> (length k + d = 2)%nat -> subtree s.(mem) N k -> kmem_inv s l -> LkKmem ∉ s.(held) ->
  (forall q, in_sub N k q -> q ∉ l) ->
  exists s' l', freewalk (S d) p s = Ok tt s' /\ freed_sub s s' N k l l'.
Proof.
  intros Ht. induction d as [|d IH]; intros k p s l Hk Hlen Hsub Hkm Hlk Hsep.
  all: pose proof (t_page _ Ht k p Hk) as Hp.
  all: assert (forall i s1 l1, (0 <= i < 512)%nat -> freed_upto s s1 N k p l l1 i ->
    load64 s1.(mem) (p + 8 * Z.of_nat i) = load64 s.(mem) (p + 8 * Z.of_nat i)) as Hent
    by (intros i s1 l1 Hi Hu; apply load64_ext; intros j Hj; apply (fu_entry _ _ _ _ _ _ _ _ Hu); lia).
  all: match goal with |- context [freewalk (S ?d)] =>
    assert (wp (freewalk (S d) p) (fun _ s' => exists l', freed_sub s s' N k l l') s) as Hw;
      [|apply wp_inv in Hw as ([] & s' & E & l' & H); by exists s', l'] end.
  all: cbn [freewalk]; apply wp_bind;
    apply (wp_for_range _ (fun i s1 => exists l1, freed_upto s s1 N k p l l1 i));
    [exists l; by apply freed_upto_0 | |
     intros s1 [l1 Hu]; by apply (freewalk_last s s1 N k p l l1)].
  - intros i s1 Hi [l1 Hu]. apply wp_bind, wp_gets. rewrite (Hent i s1 l1) by (done || lia).
    specialize (Hsub [] p (Z.of_nat i)) as He. rewrite app_nil_r in He. specialize (He Hk ltac:(lia)).
    rewrite decide_False in He by lia. rewrite He. simpl. apply wp_ret. exists l1.
    apply freed_upto_skip; [done | | done]. destruct (N !! (k ++ [Z.of_nat i])) eqn:E; [|done].
    apply (t_path _ Ht) in E as (_ & _ & ?). lia.
  - intros i s1 Hi [l1 Hu]. apply wp_bind, wp_gets. rewrite (Hent i s1 l1) by (done || lia).
    specialize (Hsub [] p (Z.of_nat i)) as He. rewrite app_nil_r in He. specialize (He Hk ltac:(lia)).
    rewrite decide_True in He by lia. simpl in He. destruct (N !! (k ++ [Z.of_nat i])) as [q|] eqn:Eq.
    + pose proof (t_page _ Ht _ _ Eq) as Hq. rewrite He. destruct (table_entry q Hq) as [-> ->].
      rewrite (table_not_leaf q Hq). cbn [andb Z.eqb]. apply wp_bind.
      destruct (IH (k ++ [Z.of_nat i]) q s1 l1) as (s2 & l2 & E2 & Hf).
      * done.
      * rewrite length_app. simpl. lia.
      * by eapply freed_upto_intact.
      * apply Hu.
      * by rewrite (only_mem_held _ _ (fu_only _ _ _ _ _ _ _ _ Hu)).
      * intros x Hx. rewrite (fu_list _ _ _ _ _ _ _ _ Hu). intros [Hl|(j & Hj & Hs)].
        -- apply (Hsep x); [by eapply in_sub_child | done].
        -- assert (j = Z.of_nat i) by (by eapply in_sub_disjoint). lia.
      * eapply wp_Ok; [exact E2 |]. apply wp_modify. exists l2. eapply freed_upto_child; try done. lia.
    + rewrite He. simpl. apply wp_ret. exists l1. by apply freed_upto_skip.
Qed.

(** A tree in which no address is mapped has no valid leaf entry. *)
Lemma subtree_root m root N :
  pt_wf m root N ->
  (forall va, 0 <= va < MAXVA -> va mod 4096 = 0 -> has (lookup_pte m N va) PTE_V = false) -> subtree m N [].
Proof.
  intros Hw Hno k' p i Hk Hi. simpl in *. case_decide as Hl; [by apply (wf_pte _ _ _ Hw) |].
  assert (exists i2 i1, k' = [i2; i1] /\ 0 <= i2 < 256 /\ 0 <= i1 < 512) as (i2 & i1 & -> & H2 & H1).
  { destruct k' as [|i2 [|i1 k']]; simpl in Hl; try lia.
    destruct k' as [|i0 k' _] using rev_ind.
    - destruct (wf_path _ _ _ Hw [i2] i1 p Hk) as ([q Hq] & H1 & _).
      destruct (wf_path _ _ _ Hw [] i2 q Hq) as (_ & H2 & _ & Hlt). exists i2, i1. specialize (Hlt eq_refl). auto with lia.
    - destruct (wf_path _ _ _ Hw (i2 :: i1 :: k') i0 p) as (_ & _ & Hlt & _); [done |]. simpl in Hlt. lia. }
  destruct (PX_of i2 i1 i H2 H1 Hi) as (Hva & H4 & E2 & E1 & E0). set (va := i2 * 2 ^ 30 + i1 * 2 ^ 21 + i * 2 ^ 12) in *.
  specialize (Hno va Hva H4). unfold lookup_pte, slot in Hno. rewrite path_ranges, E2, E1, Hk in Hno. simpl in Hno.
  by rewrite E0 in Hno.
Qed.

(** freewalk() of a tree without mappings returns all its tables. *)
Lemma freewalk_run s root N l :
  pt_inv s root N l ->
  (forall va, 0 <= va < MAXVA -> va mod 4096 = 0 -> has (lookup_pte s.(mem) N va) PTE_V = false) ->
  exists s' l', freewalk 3 root s = Ok tt s' /\ freed_sub s s' N [] l l'.
Proof.
  intros [Hw Hkm Hlk Hsep] Hno. apply (freewalk_sub N 2); try done.
  - by eapply tree_ok_wf.
  - apply Hw.
  - by eapply subtree_root.
  - intros q [k' Hk]. by eapply Hsep.
Qed.

(** What is left of an address space after it has been freed: its pages are all on
    the free list, and nothing else changed. *)
Record released s s' N D l l' : Prop := {
  rl_kmem : kmem_inv s' l';
  rl_only : only_mem s s';
  rl_list q : q ∈ l' <-> owned N D l q;
  rl_frame a : (forall q, owned N D [] q -> outside a q) -> load8 s'.(mem) a = load8 s.(mem) a;
}.

(** The pages of the user's memory are exactly those below [sz], and nothing else is
    mapped in the table. *)
Definition only_user s N D (sz : Z) : Prop :=
  all_mapped D 0 (PGROUNDUP sz) /\ (forall va pa, D !! va = Some pa -> va < PGROUNDUP sz) /\
  (forall va, 0 <= va < MAXVA -> va mod 4096 = 0 -> PGROUNDUP sz <= va -> has (lookup_pte s.(mem) N va) PTE_V = false).

Lemma unmap_all s root N D l sz :
  as_inv s root N D l -> 0 <= sz <= MAXVA -> only_user s N D sz ->
  exists s1 l1, when (0 <? sz) (uvmunmap root 0 (PGROUNDUP sz / PGSIZE) true) s = Ok tt s1 /\
    as_inv s1 root N ∅ l1 /\ only_mem s s1 /\
    (forall q, q ∈ l1 <-> q ∈ l \/ exists va, D !! va = Some q) /\
    (forall a, (forall q, owned N D [] q -> outside a q) -> load8 s1.(mem) a = load8 s.(mem) a) /\
    (forall va, 0 <= va < MAXVA -> va mod 4096 = 0 -> has (lookup_pte s1.(mem) N va) PTE_V = false).
Proof.
  intros Hi Hsz (Hall & Hbelow & Hno). pose proof (PGROUNDUP_max sz Hsz) as Hmx.
  destruct (PGROUNDUP_spec sz) as [H4 Hr]; [lia | consts; lia |].
  assert (exists s1 D1 l1 fr, when (0 <? sz) (uvmunmap root 0 (PGROUNDUP sz / PGSIZE) true) s = Ok tt s1 /\
    as_inv s1 root N D1 (fr ++ l) /\ only_mem s s1 /\ without D 0 (PGROUNDUP sz) D1 /\ l1 = fr ++ l /\
    (forall p, p ∈ fr <-> exists va, 0 <= va < PGROUNDUP sz /\ D !! va = Some p) /\
    (forall x, (forall k p, N !! k = Some p -> outside x p) -> (forall p, p ∈ fr -> outside x p) ->
       load8 s1.(mem) x = load8 s.(mem) x) /\
    (forall v, 0 <= v < MAXVA -> v mod 4096 = 0 ->
       lookup_pte s1.(mem) N v = if decide (0 <= v < PGROUNDUP sz) then 0 else lookup_pte s.(mem) N v))
    as (s1 & D1 & l1 & fr & E & Hi1 & Ho & Hwo & -> & Hfr & Hx & Hk).
  { destruct (Z.ltb_spec 0 sz) as [Hpos|Hz]; cbn [when].
    - unfold uvmunmap. change (0 mod PGSIZE) with 0. cbn [Z.eqb negb]. cbn iota. consts.
      set (e := PGROUNDUP sz) in *. rewrite (u64_small (e / 4096 * 4096)) by dlia.
      replace (0 + e / 4096 * 4096) with e by dlia. rewrite u64_small by lia.
      destruct (uvmunmap_loop_spec root N true (Z.to_nat (e / 4096)) (S (Z.to_nat (e / 4096))) 0 s D l)
        as (s1 & D1 & fr & E & H); try done; try (consts; dlia).
      { intros i Hii. apply Hall; dlia. }
      replace (0 + 4096 * Z.of_nat (Z.to_nat (e / 4096))) with e in * by dlia.
      exists s1, D1, (fr ++ l), fr. destruct H as (H1 & H2 & H3 & H5 & H6 & H7). split_and!; done.
    - replace sz with 0 in * by lia. change (PGROUNDUP 0) with 0 in *.
      exists s, D, l, []. split_and!; auto using only_mem_refl.
      + intros va. by rewrite decide_False by lia.
      + intros p. split; [set_solver + | intros (va & ? & _); lia].
      + intros v _ _. by rewrite decide_False by lia. }
  assert (D1 = ∅) as ->.
  { apply map_eq. intros va. rewrite Hwo, lookup_empty. case_decide; [done |].
    destruct (D !! va) eqn:Ed; [|done]. destruct (as_va _ _ _ _ _ Hi _ _ Ed) as (? & _ & _).
    apply Hbelow in Ed. lia. }
  exists s1, (fr ++ l). split_and!; try done.
  - intros q. rewrite elem_of_app, Hfr. split.
    + intros [(va & _ & ?)|?]; [right; eauto | by left].
    + intros [?|[va Hd]]; [by right | left]. exists va. split; [|done].
      destruct (as_va _ _ _ _ _ Hi _ _ Hd) as (? & _ & _). apply Hbelow in Hd. lia.
  - intros a Ha. apply Hx.
    + intros k p Hp. apply Ha. right; left; eauto.
    + intros p Hp. apply Hfr in Hp as (va & _ & Hd). apply Ha. right; right; eauto.
  - intros va Hva Hva4. rewrite Hk by done. case_decide; [done |]. apply Hno; done || lia.
Qed.

Lemma uvmfree_run s root N D l sz :
  as_inv s root N D l -> 0 <= sz <= MAXVA -> only_user s N D sz ->
  exists s' l', uvmfree root sz s = Ok tt s' /\ released s s' N D l l'.
Proof.
  intros Hi Hsz Hu. destruct (unmap_all s root N D l sz) as (s1 & l1 & E1 & Hi1 & Ho1 & Hl1 & Hx1 & Hno1); try done.
  destruct (freewalk_run s1 root N l1) as (s2 & l2 & E2 & [K2 O2 Q2 F2]); [apply Hi1 | done |].
  exists s2, l2. split; [unfold uvmfree; by erewrite bind_Ok by exact E1 |]. constructor; [done | by eapply only_mem_trans | |].
  - intros q. unfold owned. rewrite Q2, Hl1. unfold in_sub. simpl. tauto.
  - intros a Ha. rewrite F2; [by apply Hx1 |]. intros q [k' Hk]. apply Ha. right; left. eauto.
Qed.

(** C19. uvmfree() of an address space whose only mappings are the user pages below
    [sz] terminates without panicking and returns every page to the allocator: the
    free list afterwards holds exactly the pages that were free, the user's pages
    and the tables of the page-table tree, each once, and memory outside the freed
    pages is unchanged. *)
Theorem uvmfree_spec s root N D l sz :
  as_inv s root N D l -> 0 <= sz <= MAXVA -> only_user s N D sz ->
  exists s' l', uvmfree root sz s = Ok tt s' /\ released s s' N D l l'.
Proof. apply uvmfree_run. Qed.
End uvmfree.
