(* ===== verification/UvmCopy.v ===== *)
(** * Copying an address space (kernel/vm.c: uvmcopy)

    fork() copies the memory of the parent with uvmcopy(): the child gets pages of its own with
    the same bytes and permissions, the parent keeps its own, and when memory runs out the child
    gets nothing and no page is lost. *)

From S2P Require Import Prelude State Mem Riscv Kalloc Vm PageTable Uvm UvmAlloc UvmFree.

Section uvmcopy.
Context {L : Linker}.
Implicit Types (N : gmap (list Z) Z) (m D : gmap Z Z) (s : kernel) (l : list Z).

(** Between [s] and [s'] memory changed only in pages of the address space and of the free list, which
    together stay the same. *)
Record moved s s' N N' D D' l l' : Prop := {
  mv_only : only_mem s s';
  mv_frame x : (forall p, owned N D l p -> outside x p) -> load8 s'.(mem) x = load8 s.(mem) x;
  mv_pages p : owned N D l p <-> owned N' D' l' p;
}.

Lemma moved_refl s N D l : moved s s N N D D l l.
Proof. split; [apply only_mem_refl | done | done]. Qed.

Lemma moved_trans s1 s2 s3 N1 N2 N3 D1 D2 D3 l1 l2 l3 : moved s1 s2 N1 N2 D1 D2 l1 l2 -> moved s2 s3 N2 N3 D2 D3 l2 l3 -> moved s1 s3 N1 N3 D1 D3 l1 l3.
Proof.
  intros [O1 F1 G1] [O2 F2 G2]. split; [by eapply only_mem_trans | | intros p; by rewrite G1, G2].
  intros x Hx. rewrite F2; [by apply F1 |]. intros p Hp. apply Hx. by apply G1.
Qed.

Lemma owned_page s root N D l p : as_inv s root N D l -> owned N D l p -> page_ok p.
Proof.
  intros Hi [Hp|[[k Hk]|[va Hd]]]; [|by apply (wf_page _ _ _ (pi_wf _ _ _ _ (as_pt _ _ _ _ _ Hi)) k) | by apply (as_va _ _ _ _ _ Hi va)].
  eapply free_page_ok; [apply Hi | done].
Qed.

(** Another address space, with no page in common but the free list they share. *)
Definition apart N0 D0 (P : Z -> Prop) : Prop := (forall k p, N0 !! k = Some p -> ~ P p) /\ (forall va p, D0 !! va = Some p -> ~ P p).

(** Memory changes elsewhere, and the free list may be another one. *)
Lemma as_elsewhere s s' root N D l l' : as_inv s root N D l -> kmem_inv s' l' -> LkKmem ∉ s'.(held) -> (forall k p i, N !! k = Some p -> 0 <= i < 4096 -> load8 s'.(mem) (p + i) = load8 s.(mem) (p + i)) ->
  apart N D (fun p => p ∈ l') -> as_inv s' root N D l' /\ forall va, lookup_pte s'.(mem) N va = lookup_pte s.(mem) N va.
Proof.
  intros [[Hw Hkm Hlk Hsep] Hva Hent Hus Hin HsN Hsl] Hkm' Hlk' Hb [HN HD].
  assert (forall k p, N !! k = Some p -> agree s.(mem) s'.(mem) p (p + 4096)) as Hag by (intros k p Hk x Hx; replace x with (p + (x - p)) by lia; apply (Hb k); [done | lia]).
  assert (forall va, lookup_pte s'.(mem) N va = lookup_pte s.(mem) N va) as Hl by (intros; by eapply lookup_agree).
  split; [|done]. constructor; try done.
  - constructor; [by eapply pt_wf_agree | done | done | done].
  - intros va pa Hd. rewrite Hl. by apply Hent.
  - intros va H1 H2. rewrite Hl. by apply Hus.
Qed.

(** A page that is not among those that change. *)
Lemma bytes_elsewhere s s' (P : Z -> Prop) p i : (forall q, P q -> page_ok q) -> (forall x, (forall q, P q -> outside x q) -> load8 s'.(mem) x = load8 s.(mem) x) -> page_ok p -> ~ P p -> 0 <= i < 4096 ->
  load8 s'.(mem) (p + i) = load8 s.(mem) (p + i).
Proof. intros HP Hf Hp Hno Hi. apply Hf. intros q Hq. eapply outside_pages; [by apply HP | apply Hp | congruence | lia]. Qed.

Lemma moved_other s s' root N N' D D' l l' root0 N0 D0 : as_inv s root N D l -> as_inv s' root N' D' l' -> moved s s' N N' D D' l l' -> as_inv s root0 N0 D0 l -> apart N0 D0 (owned N D l) ->
  as_inv s' root0 N0 D0 l' /\ (forall va, lookup_pte s'.(mem) N0 va = lookup_pte s.(mem) N0 va) /\
  forall p i, page_ok p -> ~ owned N D l p -> 0 <= i < 4096 -> load8 s'.(mem) (p + i) = load8 s.(mem) (p + i).
Proof.
  intros Hi Hi' [Ho Hf Hp] H0 [HN HD].
  assert (forall p i, page_ok p -> ~ owned N D l p -> 0 <= i < 4096 -> load8 s'.(mem) (p + i) = load8 s.(mem) (p + i)) as Hb.
  { intros p i. apply (bytes_elsewhere s s' (owned N D l)); [|done]. intros q. by apply (owned_page s root). }
  destruct (as_elsewhere s s' root0 N0 D0 l l' H0) as [H1 H2]; [apply Hi' | rewrite (only_mem_held _ _ Ho); apply Hi | | |done].
  - intros k p i Hk. apply Hb; [by apply (wf_page _ _ _ (pi_wf _ _ _ _ (as_pt _ _ _ _ _ H0)) k) | by eapply HN].
  - split; [intros k p Hk Hl; apply (HN k p Hk) | intros va p Hd Hl; apply (HD va p Hd)]; apply Hp; by left.
Qed.

Lemma apart_moved s s' N N' D D' l l' N0 D0 : moved s s' N N' D D' l l' -> apart N0 D0 (owned N D l) -> apart N0 D0 (owned N' D' l').
Proof. intros [_ _ Hp] [HN HD]. split; intros k p Hk Ho; [apply (HN k p Hk) | apply (HD k p Hk)]; by apply Hp. Qed.

(** ** One page *)

(** kalloc() and memmove() of a page. *)
Lemma as_kalloc_copy s root N D p l pa : as_inv s root N D (p :: l) -> page_ok pa -> pa <> p ->
  exists s1, kalloc s = Ok p s1 /\ p <> 0 /\ let s2 := set_mem (memmove s1.(mem) p pa PGSIZE) s1 in
    as_inv s2 root N D l /\ only_mem s s2 /\ (forall a, outside a p -> load8 s2.(mem) a = load8 s.(mem) a) /\
    (forall va, lookup_pte s2.(mem) N va = lookup_pte s.(mem) N va) /\ forall i, 0 <= i < 4096 -> load8 s2.(mem) (p + i) = load8 s.(mem) (pa + i).
Proof.
  intros Hi Hpa Hne. destruct (as_take _ _ _ _ _ _ Hi) as (HN & HD & Hpl & Hp). destruct (as_kalloc _ _ _ _ _ _ Hi) as (s1 & E1 & Hp0 & Hi2 & Ho2 & Hx2 & Hk2 & _). exists s1. split; [done |]. split; [done |].
  intros s2. assert (forall a, outside a p -> load8 s1.(mem) a = load8 s.(mem) a) as Hx1.
  { intros a Ha. rewrite <- Hx2 by done. symmetry. by apply memset_outside. }
  assert (forall a, load8 s2.(mem) a = if decide (p <= a < p + 4096) then load8 s1.(mem) (pa + (a - p)) else load8 s1.(mem) a) as Hm by (intros a; apply load8_memmove; done).
  set (t := set_mem (memset s1.(mem) p 0 PGSIZE) s1) in *. assert (forall a, outside a p -> load8 s2.(mem) a = load8 t.(mem) a) as Ht.
  { intros a Ha. rewrite Hm, decide_False by (unfold outside in Ha; lia). symmetry. by apply memset_outside. }
  destruct (as_other_write t root N D l p s2.(mem) Hi2 (conj Hp (conj Hpl (conj HN HD))) Ht) as [Hi3 Hk3]. change (set_mem s2.(mem) t) with s2 in Hi3.
  split_and!; [done | eapply only_mem_trans; [exact Ho2 |]; unfold only_mem, s2, t; destruct s1; reflexivity | intros a Ha; rewrite Ht, Hx2 by done; done | intros va; by rewrite Hk3 |].
  intros i Hii. rewrite Hm, decide_True by lia. rewrite Hx1; [f_equal; lia |]. eapply (outside_pages _ p pa); [apply Hp | apply Hpa | congruence | lia].
Qed.

Lemma lor_V f : has f PTE_V = true -> Z.lor f PTE_V = f.
Proof.
  intros Hf%negb_true_iff%Z.eqb_neq. change PTE_V with (Z.ones 1) in *. apply Z.bits_inj'. intros b Hb. rewrite Z.lor_spec. destruct (decide (b = 0)) as [->|Hne].
  - destruct (Z.testbit f 0) eqn:E; [done |]. exfalso. apply Hf. apply Z.bits_inj'. intros c Hc. rewrite Z.land_spec, Z.bits_0. destruct (decide (c = 0)) as [->|]; [by rewrite E |]. rewrite Z.ones_spec_high by lia. apply andb_false_r.
  - rewrite Z.ones_spec_high by lia. apply orb_false_r.
Qed.

(** The entries of the new address space: those of [i, i + 4096) is now [e]. *)
Definition entry_set s s' N N' (i : Z) (e : option Z) : Prop :=
  forall v, 0 <= v < MAXVA -> v mod 4096 = 0 -> lookup_pte s'.(mem) N' v = if decide (v = i) then default (lookup_pte s.(mem) N v) e else lookup_pte s.(mem) N v.

(** The bytes of the pages in [D] stay. *)
Definition keeps_bytes s s' D : Prop := forall va pa k, D !! va = Some pa -> 0 <= k < 4096 -> load8 s'.(mem) (pa + k) = load8 s.(mem) (pa + k).

(** An iteration of uvmcopy() with a free page at hand. *)
Lemma copy_step s root N D p l i pa f : as_inv s root N D (p :: l) -> page_ok pa -> ~ owned N D (p :: l) pa -> 0 <= i < MAXVA -> i mod 4096 = 0 ->
  0 <= f < 1024 -> has f PTE_V = true -> f <> PTE_V -> has (lookup_pte s.(mem) N i) PTE_V = false ->
  exists s1 r s3 N3, kalloc s = Ok p s1 /\ p <> 0 /\ mappages root i PGSIZE p f (set_mem (memmove s1.(mem) p pa PGSIZE) s1) = Ok r s3 /\
    ((r = 0 /\ exists l3, (length l <= length l3 + 2)%nat /\ as_inv s3 root N3 (<[i := p]> D) l3 /\ moved s s3 N N3 D (<[i := p]> D) (p :: l) l3 /\ keeps_bytes s s3 D /\
        (forall k, 0 <= k < 4096 -> load8 s3.(mem) (p + k) = load8 s.(mem) (pa + k)) /\ entry_set s s3 N N3 i (Some (Z.lor (PA2PTE p) f))) \/
     (r = -1 /\ (length l < 2)%nat /\ exists s4, kfree p s3 = Ok tt s4 /\ as_inv s4 root N3 D [p] /\ moved s s4 N N3 D D (p :: l) [p] /\ entry_set s s4 N N3 i None)).
Proof.
  intros Hi Hpa Hno Ha Ha4 Hf HV HnV Hinv. destruct (as_take _ _ _ _ _ _ Hi) as (HpN & HpD & Hpl & Hp).
  assert (Z.lor f PTE_V = f) as Ef by (by apply lor_V). assert (pa <> p) as Hne by (intros ->; apply Hno; left; apply list_elem_of_here).
  destruct (as_kalloc_copy s root N D p l pa Hi Hpa Hne) as (s1 & E1 & Hp0 & Hi2 & Ho2 & Hx2 & Hk2 & Hc2). set (s2 := set_mem _ s1) in *.
  destruct (mappages_one s2 root N D l i p f) as (r & s3 & N3 & l1 & l2 & E3 & -> & Hg & Hr); [exact Hi2 | exact (conj Hp (conj Hpl (conj HpN HpD))) | assumption.. | by rewrite Ef | by rewrite Ef | by rewrite Hk2 |].
  exists s1, r, s3, N3. split; [exact E1 |]. split; [exact Hp0 |]. split; [exact E3 |]. clearbody s2. clear E1 E3. rewrite Ef in Hr.
  assert (forall x, (forall q, owned N D (p :: l1 ++ l2) q -> outside x q) -> load8 s3.(mem) x = load8 s.(mem) x) as HF.
  { intros x Hx. rewrite (g_frame _ _ _ _ _ Hg); [apply Hx2, Hx; left; apply list_elem_of_here | intros k q Hq; apply Hx; right; left; eauto |].
    intros q Hq. apply Hx. left. apply list_elem_of_further, elem_of_app. by left. }
  assert (forall va q k, D !! va = Some q -> 0 <= k < 4096 -> load8 s3.(mem) (q + k) = load8 s.(mem) (q + k)) as HB.
  { intros va q k Hd Hii. rewrite (as_bytes s2 s3 root N N3 D l1 l2 va q k) by done. apply Hx2. eapply (outside_pages _ _ q); [apply Hp | apply (as_va _ _ _ _ _ Hi va q Hd) | | lia]. intros <-. by eapply HpD. }
  pose proof (as_unmapped _ _ _ _ _ _ Hi Hinv) as HDa.
  destruct Hr as [(-> & Hc & Hi3 & Hk3)|(-> & -> & Hc & Hi3 & (_ & _ & HpN3 & _) & Hk3)]; [left | right]; (split; [done |]).
  - exists l2. split; [rewrite length_app; lia |]. split_and!; [done | | done | |].
    + split; [eapply only_mem_trans; [exact Ho2 | apply Hg] | done |]. by apply (owned_map s2 s3).
    + intros k Hk. rewrite (g_frame _ _ _ _ _ Hg); [by apply Hc2 | |].
      * intros k' q Hq. eapply (outside_pages _ _ p); [apply (wf_page _ _ _ (pi_wf _ _ _ _ (as_pt _ _ _ _ _ Hi)) k' q Hq) | apply Hp | | lia]. intros ->. by eapply HpN.
      * intros q Hq. eapply (outside_pages _ _ p); [|apply Hp | set_solver + Hq Hpl | lia]. eapply (free_page_ok s2 (l1 ++ l2)); [apply Hi2 | set_solver + Hq].
    + intros v Hv Hv4. rewrite Hk3 by done. by rewrite Hk2.
  - split; [rewrite length_app; simpl; lia |]. destruct (as_kfree s3 root N3 D p []) as (s4 & E4 & Hi4 & Ho4 & Hx4 & Hk4); try done; [set_solver + |].
    exists s4. split_and!; [done | done | |].
    + split; [eapply only_mem_trans; [exact Ho2 |]; eapply only_mem_trans; [apply Hg | done] | |].
      * intros x Hx. rewrite Hx4; [by apply HF |]. apply Hx. left. apply list_elem_of_here.
      * rewrite app_nil_r in *. by apply (owned_tables s2 s3).
    + intros v Hv Hv4. rewrite Hk4, Hk3, Hk2 by done. by case_decide.
Qed.

(** ** The loop *)

(** The user pages of [D] are those of [0, i). *)
Definition exactly D (i : Z) : Prop := all_mapped D 0 i /\ forall va pa, D !! va = Some pa -> 0 <= va < i.

(** uvmunmap(new, 0, i / PGSIZE, 1) *)
Lemma copy_undo s root N D l i : as_inv s root N D l -> 0 <= i <= MAXVA -> i mod 4096 = 0 -> exactly D i ->
  exists s' l', uvmunmap root 0 (i / PGSIZE) true s = Ok tt s' /\ as_inv s' root N ∅ l' /\ moved s s' N N D ∅ l l' /\
    forall v, 0 <= v < MAXVA -> v mod 4096 = 0 -> lookup_pte s'.(mem) N v = if decide (0 <= v < i) then 0 else lookup_pte s.(mem) N v.
Proof.
  intros Hi Hr H4 [HD Hdom]. set (n := Z.to_nat (i / 4096)). assert (i = 0 + 4096 * Z.of_nat n) as En by (unfold n; dlia).
  destruct (uvmunmap_loop_spec root N true n (S n) 0 s D l) as (s' & D' & fr & E & Hi' & Ho & Hw & Hfr & Hx & Hk); try done; try lia.
  { intros j Hj. apply HD; dlia. }
  rewrite <- En in *. assert (D' = ∅) as ->.
  { apply map_eq. intros va. rewrite Hw, lookup_empty. case_decide as Hn; [done |]. destruct (D !! va) eqn:Ed; [|done]. by apply Hdom in Ed. }
  exists s', (fr ++ l). split_and!; [|done | | done].
  - unfold uvmunmap. change (0 mod PGSIZE =? 0) with true. cbn [negb]. consts. replace (i / 4096 * 4096) with i by dlia. rewrite (u64_small i), Z.add_0_l, (u64_small i) by lia. exact E.
  - split; [done | |].
    + intros x Hout. apply Hx; [intros k q Hq; apply Hout; right; left; eauto |]. intros q Hq. apply Hfr in Hq as (va & _ & Hd). apply Hout. right; right. eauto.
    + intros q. unfold owned. rewrite elem_of_app, Hfr. split.
      * intros [Hq|[Hq|[va Hd]]]; [tauto | tauto |]. left. left. exists va. split; [by eapply Hdom | done].
      * intros [[(va & _ & Hd)|Hq]|[Hq|[va Hd]]]; [eauto | tauto | tauto | done].
Qed.

(** The pages of [i, e) have been copied: bytes and permissions are those of the other space. *)
Record copied s s' N0 D0 N N' D D' (i e : Z) : Prop := {
  cd_old va pa : D !! va = Some pa -> D' !! va = Some pa;
  cd_dom va pa : D' !! va = Some pa -> D !! va = Some pa \/ i <= va < e;
  cd_new va : i <= va < e -> va mod 4096 = 0 -> exists p pa f, D' !! va = Some p /\ D0 !! va = Some pa /\ 0 <= f < 1024 /\ lookup_pte s.(mem) N0 va = Z.lor (PA2PTE pa) f /\
    lookup_pte s'.(mem) N' va = Z.lor (PA2PTE p) f /\ forall k, 0 <= k < 4096 -> load8 s'.(mem) (p + k) = load8 s.(mem) (pa + k);
  cd_bytes : keeps_bytes s s' D;
  cd_pte v : 0 <= v < MAXVA -> v mod 4096 = 0 -> ~ i <= v < e -> lookup_pte s'.(mem) N' v = lookup_pte s.(mem) N v;
}.

Lemma copied_refl s N0 D0 N D i : copied s s N0 D0 N N D D i i.
Proof. split; try done; [by left | lia]. Qed.

(** A page, and then the others. *)
Lemma copied_step s s1 s' N0 D0 N N1 N' D D' i e p pa f : i mod 4096 = 0 -> 0 <= i < MAXVA -> i + 4096 <= e -> D !! i = None -> D0 !! i = Some pa -> 0 <= f < 1024 -> lookup_pte s.(mem) N0 i = Z.lor (PA2PTE pa) f ->
  keeps_bytes s s1 D -> (forall k, 0 <= k < 4096 -> load8 s1.(mem) (p + k) = load8 s.(mem) (pa + k)) -> entry_set s s1 N N1 i (Some (Z.lor (PA2PTE p) f)) ->
  (forall va, lookup_pte s1.(mem) N0 va = lookup_pte s.(mem) N0 va) -> keeps_bytes s s1 D0 ->
  copied s1 s' N0 D0 N1 N' (<[i := p]> D) D' (i + 4096) e -> copied s s' N0 D0 N N' D D' i e.
Proof.
  intros Hi4 Hi He HDi H0 Hf Hl0 Hb Hp He1 Hl Hb0 [C1 C2 C3 C4 C5]. split.
  - intros va q Hd. apply C1. rewrite lookup_insert_ne by congruence. done.
  - intros va q Hd. apply C2 in Hd as [[[-> ->]|[_ Hd]]%lookup_insert_Some|Hd]; [right; lia | by left | right; lia].
  - intros va Hva Hva4. destruct (decide (va = i)) as [->|Hne].
    + exists p, pa, f. split_and!; try done; [apply C1, lookup_insert_eq | lia | lia | |].
      * rewrite C5 by (done || lia). rewrite He1 by done. by rewrite decide_True.
      * intros k Hk. rewrite (C4 i p k) by (done || apply lookup_insert_eq). by apply Hp.
    + destruct (C3 va) as (q & qa & g & Hq & Hq0 & Hg & El & El' & Hbq); [dlia | done |]. exists q, qa, g. split_and!; try done; try lia; [by rewrite <- Hl |].
      intros k Hk. rewrite Hbq by done. by apply (Hb0 va).
  - intros va q k Hd Hk. rewrite (C4 va q k) by (done || (rewrite lookup_insert_ne by congruence; done)). by apply (Hb va).
  - intros v Hv Hv4 Hn. rewrite C5 by (done || lia). rewrite He1 by done. by rewrite decide_False by lia.
Qed.

Lemma exactly_insert D i p : exactly D i -> 0 <= i -> i mod 4096 = 0 -> exactly (<[i := p]> D) (i + 4096).
Proof.
  intros [HD Hdom] Hi Hi4. split.
  - intros va Hva Hva4. destruct (decide (va = i)) as [->|]; [rewrite lookup_insert_eq; eauto |]. rewrite lookup_insert_ne by congruence. apply HD; [dlia | done].
  - intros va q [[-> ->]|[_ Hd]]%lookup_insert_Some; [lia |]. apply Hdom in Hd. lia.
Qed.

(** What uvmcopy() leaves when there is no memory. *)
Record given_up s s' root N N' D l l' (e : Z) : Prop := {
  gu_inv : as_inv s' root N' ∅ l';
  gu_moved : moved s s' N N' D ∅ l l';
  gu_pte v : 0 <= v < MAXVA -> v mod 4096 = 0 -> if decide (0 <= v < e) then has (lookup_pte s'.(mem) N' v) PTE_V = false else lookup_pte s'.(mem) N' v = lookup_pte s.(mem) N v;
}.

Section loop.
Variables (old new : Z) (N0 : gmap (list Z) Z) (D0 : gmap Z Z) (sz e : Z).

(** What holds when the loop is at [i]. *)
Record at_page s N D l (i : Z) : Prop := {
  ap_new : as_inv s new N D l;
  ap_old : as_inv s old N0 D0 l;
  ap_apart : apart N0 D0 (owned N D l);
  ap_done : exactly D i;
  ap_clear va : i <= va < e -> va mod 4096 = 0 -> has (lookup_pte s.(mem) N va) PTE_V = false;
}.

(** The error path, from a state that differs from [s] in tables only. *)
Lemma copy_fails s s2 N N2 D l l2 i : at_page s N D l i -> as_inv s2 new N2 D l2 -> moved s s2 N N2 D D l l2 -> (forall v, 0 <= v < MAXVA -> v mod 4096 = 0 -> lookup_pte s2.(mem) N2 v = lookup_pte s.(mem) N v) ->
  0 <= i <= e -> e <= MAXVA -> i mod 4096 = 0 -> exists s' l', (uvmunmap new 0 (i / PGSIZE) true;; mret (-1)) s2 = Ok (-1) s' /\ given_up s s' new N N2 D l l' e.
Proof.
  intros [An _ _ Ad Ac] Hi2 Hm Hk Hi He Hi4. destruct (copy_undo s2 new N2 D l2 i Hi2) as (s' & l' & E & Hi' & Hm' & Hk'); [lia | done | done |].
  exists s', l'. split; [by erewrite bind_Ok by exact E |]. split; [done | by eapply moved_trans |].
  intros v Hv Hv4. rewrite Hk', Hk by done. repeat case_decide; try done; try lia. apply Ac; [lia | done].
Qed.

Lemma uvmcopy_loop_spec n : forall fuel i s N D l, at_page s N D l i -> 0 <= i -> i mod 4096 = 0 -> e = i + 4096 * Z.of_nat n -> sz <= e < sz + 4096 -> e <= MAXVA -> (n < fuel)%nat -> all_mapped D0 i e ->
  exists r s' N' D' l', uvmcopy_loop fuel old new i sz s = Ok r s' /\
    ((r = 0 /\ as_inv s' new N' D' l' /\ moved s s' N N' D D' l l' /\ copied s s' N0 D0 N N' D D' i e) \/
     (r = -1 /\ D' = ∅ /\ (length l < 3 * n)%nat /\ given_up s s' new N N' D l l' e)).
Proof.
  induction n as [|n IH]; intros fuel i s N D l A Hi Hi4 Ee Hsz Hmax Hf H0; (destruct fuel as [|fuel]; [lia |]); cbn [uvmcopy_loop].
  { destruct (Z.ltb_spec i sz); [lia |]. exists 0, s, N, D, l. split; [done |]. left. replace e with i by lia. split_and!; [done | apply A | apply moved_refl | apply copied_refl]. }
  destruct (Z.ltb_spec i sz); [|lia]. pose proof A as [An Ao Aa Ad Ac]. destruct (H0 i) as [pa Hpa]; [lia | done |].
  destruct (as_ent _ _ _ _ _ Ao i pa Hpa) as (f & Ef & Hf1 & HfV & HfN). destruct (as_va _ _ _ _ _ Ao i pa Hpa) as (Hir & _ & Hpk). pose proof (page_56 pa Hpk).
  destruct (walk_entry s old N0 i) as (x & E & Hx); [apply Ao | lia |]. destruct (as_entry _ _ _ _ _ _ _ Ao Hpa) as (HV & HPA & _ & slt & Hslt).
  destruct Hx as [(_ & Hx & _)|(Hx0 & Hx & Hlk)]; [congruence |]. erewrite bind_Ok by exact E. destruct (Z.eqb_spec x 0); [done |]. erewrite bind_Ok by done. cbv beta. rewrite Hlk, HV, HPA. cbn [negb].
  assert (PTE_FLAGS (lookup_pte s.(mem) N0 i) = f) as -> by (rewrite Ef; by apply PTE_FLAGS_mk_pte). assert (has (lookup_pte s.(mem) N i) PTE_V = false) as Hinv by (apply Ac; [lia | done]).
  pose proof (as_unmapped _ _ _ _ _ _ An Hinv) as HDi. destruct l as [|p l].
  - erewrite bind_Ok by (apply (kalloc_spec s []); apply An). cbn [Z.eqb]. destruct (copy_fails s s N N D [] [] i A An (moved_refl _ _ _ _)) as (s' & l' & E' & Hg); [done | lia | done | done |].
    exists (-1), s', N, ∅, l'. split; [done |]. right. split_and!; [done | done | simpl; lia | done].
  - assert (~ owned N D (p :: l) pa) as Hno by (by apply (proj2 Aa i)).
    destruct (copy_step s new N D p l i pa f An Hpk Hno Hir Hi4 Hf1 HfV HfN Hinv) as (s1 & r & s3 & N3 & E1 & Hp0 & E3 & Hr).
    erewrite bind_Ok by exact E1. destruct (Z.eqb_spec p 0); [done |]. erewrite bind_Ok by done. erewrite bind_Ok by exact E3.
    destruct Hr as [(-> & l3 & Hc & Hi3 & Hm & Hb & Hcp & He3)|(-> & Hc & s4 & E4 & Hi4' & Hm & He4)]; cbn [negb Z.eqb]; cbn iota.
    + destruct (moved_other _ _ _ _ _ _ _ _ _ old N0 D0 An Hi3 Hm Ao Aa) as (Ao3 & Hl3 & Hb3). consts. rewrite u64_small by lia.
      destruct (IH fuel (i + 4096) s3 N3 (<[i := p]> D) l3) as (r & s' & N' & D' & l' & E' & Hr); try lia; [| dlia | intros va Hva; apply H0; lia |].
      { split; [done | done | by eapply apart_moved | by apply exactly_insert |]. intros va Hva Hva4. rewrite He3 by (consts; done || lia). rewrite decide_False by lia. apply Ac; [lia | done]. }
      assert (keeps_bytes s s3 D0) as Hb0. { intros va q k Hd Hk. apply Hb3; [by apply (as_va _ _ _ _ _ Ao va) | by apply (proj2 Aa va) | done]. }
      exists r, s', N', D', l'. split; [done |]. destruct Hr as [(-> & Hi' & Hm' & Hcd)|(-> & -> & Hlen & Hg)]; [left | right]; (split; [done |]).
      * split_and!; [done | by eapply moved_trans |]. eapply (copied_step s s3 s' N0 D0 N N3 N' D D' i e p pa f); try done; consts; lia.
      * split; [done |]. split; [cbn; lia |]. destruct Hg as [G1 G2 G3]. split; [done | by eapply moved_trans |]. intros v Hv Hv4. specialize (G3 v Hv Hv4). case_decide; [done |]. rewrite G3, He3 by done. by rewrite decide_False by lia.
    + erewrite bind_Ok by exact E4. destruct (copy_fails s s4 N N3 D (p :: l) [p] i A Hi4' Hm) as (s' & l' & E' & Hg); [|lia | done | done |].
      { intros v Hv Hv4. rewrite He4 by done. by case_decide. }
      exists (-1), s', N3, ∅, l'. split; [done |]. right. split_and!; [done | done | simpl; lia | done].
Qed.
End loop.

Lemma uvmcopy_run s old N0 D0 new N l sz : as_inv s new N ∅ l -> as_inv s old N0 D0 l -> apart N0 D0 (owned N ∅ l) -> 0 <= sz <= MAXVA -> all_mapped D0 0 (PGROUNDUP sz) ->
  (forall va, 0 <= va < PGROUNDUP sz -> va mod 4096 = 0 -> has (lookup_pte s.(mem) N va) PTE_V = false) ->
  exists r s' N' D' l', uvmcopy old new sz s = Ok r s' /\ as_inv s' new N' D' l' /\ moved s s' N N' ∅ D' l l' /\
    ((r = 0 /\ copied s s' N0 D0 N N' ∅ D' 0 (PGROUNDUP sz)) \/
     (r = -1 /\ D' = ∅ /\ Z.of_nat (length l) < 3 * (PGROUNDUP sz / 4096) /\ given_up s s' new N N' ∅ l l' (PGROUNDUP sz))).
Proof.
  intros Hn Ho Ha Hsz H0 Hc. pose proof (PGROUNDUP_max sz Hsz). destruct (PGROUNDUP_spec sz) as [He4 Her]; [consts; lia.. |]. set (e := PGROUNDUP sz) in *. set (n := Z.to_nat (e / 4096)).
  assert (e = 0 + 4096 * Z.of_nat n) as Ee by (unfold n; dlia).
  destruct (uvmcopy_loop_spec old new N0 D0 sz e n (S (S (Z.to_nat (sz / PGSIZE)))) 0 s N ∅ l) as (r & s' & N' & D' & l' & E & Hr); try done; try lia.
  { split; try done. split; [intros va Hva; lia | done]. }
  { unfold n. consts. dlia. }
  exists r, s', N', D', l'. split; [exact E |]. destruct Hr as [(-> & Hi' & Hm & Hcd)|(-> & -> & Hlen & Hg)].
  - split_and!; [done | done | by left].
  - split_and!; [apply Hg | apply Hg |]. right. split_and!; [done | done | unfold n in Hlen; dlia | done].
Qed.

(** uvmcopy() on the [sz] bytes of a process, all mapped, and an empty address space that shares no page with it.
    Either it returns 0 and the new process sees the same bytes, at the same addresses, with the same
    permissions; or it returns -1 and has mapped nothing, which happens only when there were fewer than
    three free pages for each page to copy.  In both cases the pages, permissions and bytes of the parent are
    unchanged, the two spaces still share no page, and none is lost. *)
Theorem uvmcopy_spec s old N0 D0 new N l sz : as_inv s new N ∅ l -> as_inv s old N0 D0 l -> apart N0 D0 (owned N ∅ l) -> 0 <= sz <= MAXVA -> all_mapped D0 0 (PGROUNDUP sz) ->
  (forall va, 0 <= va < PGROUNDUP sz -> va mod 4096 = 0 -> has (lookup_pte s.(mem) N va) PTE_V = false) ->
  exists r s' N' D' l', uvmcopy old new sz s = Ok r s' /\ as_inv s' new N' D' l' /\ as_inv s' old N0 D0 l' /\
    (forall va, lookup_pte s'.(mem) N0 va = lookup_pte s.(mem) N0 va) /\ (forall va, ubyte s'.(mem) D0 va = ubyte s.(mem) D0 va) /\
    apart N0 D0 (owned N' D' l') /\ (forall p, owned N ∅ l p <-> owned N' D' l' p) /\
    if decide (r = 0) then
      (forall va, 0 <= va -> ubyte s'.(mem) D' va = if decide (va < PGROUNDUP sz) then ubyte s.(mem) D0 va else None) /\
      (forall va, 0 <= va < PGROUNDUP sz -> va mod 4096 = 0 -> PTE_FLAGS (lookup_pte s'.(mem) N' va) = PTE_FLAGS (lookup_pte s.(mem) N0 va))
    else r = -1 /\ D' = ∅ /\ Z.of_nat (length l) < 3 * (PGROUNDUP sz / 4096).
Proof.
  intros Hn Ho Ha Hsz H0 Hc. destruct (uvmcopy_run s old N0 D0 new N l sz) as (r & s' & N' & D' & l' & E & Hi' & Hm & Hr); try done.
  destruct (moved_other _ _ _ _ _ _ _ _ _ old N0 D0 Hn Hi' Hm Ho Ha) as (Ho' & Hl & Hb).
  assert (keeps_bytes s s' D0) as Hk. { intros va q k Hd Hk. apply Hb; [by apply (as_va _ _ _ _ _ Ho va) | by apply (proj2 Ha va) | done]. }
  exists r, s', N', D', l'. split_and!; [done | done | done | done | | by eapply apart_moved | by apply Hm |].
  - intros va. unfold ubyte. destruct (D0 !! PGROUNDDOWN va) as [q|] eqn:Ed; [|done]. cbn. f_equal. apply (Hk _ _ _ Ed). dlia.
  - destruct Hr as [(-> & [C1 C2 C3 C4 C5])|(-> & -> & Hlen & _)]; [rewrite decide_True by done | by rewrite decide_False]. pose proof (PGROUNDUP_max sz Hsz). destruct (PGROUNDUP_spec sz) as [He4 _]; [consts; lia.. |]. split.
    + intros va Hva. destruct (PGROUNDDOWN_spec va Hva) as [Hd4 Hdr]. unfold ubyte. case_decide as Hlt.
      * destruct (C3 (PGROUNDDOWN va)) as (p & pa & f & -> & -> & _ & _ & _ & Hbb); [dlia | done |]. cbn. f_equal. apply Hbb. dlia.
      * destruct (D' !! PGROUNDDOWN va) as [q|] eqn:Ed; [|done]. apply C2 in Ed as [Ed|Ed]; [done | dlia].
    + intros va Hva Hva4. destruct (C3 va Hva Hva4) as (p & pa & f & Hp & Hpa & Hf & -> & -> & _). rewrite !PTE_FLAGS_mk_pte; try done; apply page_56; [by apply (as_va _ _ _ _ _ Ho va) | by apply (as_va _ _ _ _ _ Hi' va)].
Qed.
End uvmcopy.
