(* ===== verification/Sched.v ===== *)
(** * Scheduling primitives (kernel/proc.c)

    sched(), sleep(), wakeup(), yield(), kill(), killed(), setkilled() on the
    process table, and their exact effect. *)

From S2P Require Import Prelude State.

(** ** The code *)

(** swtch() to the scheduler is where the process stops running: [Sleep].  The
    depth [noff] of interrupt-disabling sections is the number of spinlocks held
    ([Spinlock.abs]), and interrupts are off while one is. *)
Definition sched : M kernel unit :=
  i ← myproc;
  p ← get_proc i;
  h ← gets held;
  if negb (bool_decide (LkProc i ∈ (h : gset lockid))) then panic "sched p->lock" else
  if negb (size (h : gset lockid) =? 1)%nat then panic "sched locks" else
  if bool_decide (p.(p_state) = RUNNING) then panic "sched running" else
  fun s => Sleep s (fun s' => Ok tt s').

(** The statements of sleep() and wakeup(), as data: the functions below run them one
    after the other, and SleepWakeup.v runs those of several threads in any order.
    [SRouse] is if(p->state == SLEEPING && p->chan == chan) p->state = RUNNABLE. *)
Inductive stmt :=
| SAcquire (l : lockid)
| SRelease (l : lockid)
| SChan (i : nat) (c : option chan)
| SState (i : nat) (x : procstate)
| SRouse (i : nat) (c : option chan)
| SSched.

Definition do_stmt (x : stmt) : M kernel unit :=
  match x with
  | SAcquire l => acquire l
  | SRelease l => release l
  | SChan i c => upd_proc i (set_p_chan c)
  | SState i x => upd_proc i (set_p_state x)
  | SRouse i c =>
      p ← get_proc i;
      when (bool_decide (p.(p_state) = SLEEPING) && bool_decide (p.(p_chan) = c))
        (upd_proc i (set_p_state RUNNABLE))
  | SSched => sched
  end.

Fixpoint do_code (k : list stmt) : M kernel unit :=
  match k with
  | [] => mret tt
  | [x] => do_stmt x
  | x :: k => do_stmt x;; do_code k
  end.

(** sleep(chan, lk) in the process of slot [i] *)
Definition sleep_code (i : nat) (c : option chan) (lk : lockid) : list stmt :=
  [SAcquire (LkProc i); SRelease lk;
   SChan i c; SState i SLEEPING;
   SSched;
   SChan i None;
   SRelease (LkProc i); SAcquire lk].

Definition sleep (c : option chan) (lk : lockid) : M kernel unit :=
  i ← myproc;
  do_code (sleep_code i c lk).

(** the body of the loop of wakeup(chan) for slot [i], called by [me] *)
Definition wake_slot (me : option nat) (c : option chan) (i : nat) : list stmt :=
  if bool_decide (Some i = me) then [] else
  [SAcquire (LkProc i);
   SRouse i c;
   SRelease (LkProc i)].

Definition wakeup (c : option chan) : M kernel unit :=
  for_range NPROC 0 (fun i =>
    me ← gets cur;
    do_code (wake_slot me c i)).

Definition yield : M kernel unit :=
  i ← myproc;
  acquire (LkProc i);;
  upd_proc i (set_p_state RUNNABLE);;
  sched;;
  release (LkProc i).

Definition kill (pid : Z) : M kernel Z :=
  r ← for_return NPROC 0 (fun i =>
    acquire (LkProc i);;
    p ← get_proc i;
    if p.(p_pid) =? pid then
      upd_proc i (set_p_killed 1);;
      when (bool_decide (p.(p_state) = SLEEPING)) (upd_proc i (set_p_state RUNNABLE));;
      release (LkProc i);;
      mret (Some 0)
    else
      release (LkProc i);;
      mret None);
  mret (default (-1) r).

Definition setkilled (i : nat) : M kernel unit :=
  acquire (LkProc i);;
  upd_proc i (set_p_killed 1);;
  release (LkProc i).

Definition killed (i : nat) : M kernel Z :=
  acquire (LkProc i);;
  p ← get_proc i;
  release (LkProc i);;
  mret p.(p_killed).

(** One round of scheduler() at slot [i]: the process is entered with its lock
    held; [run] is what it does until it switches back. *)
Definition schedule_slot (i : nat) (run : M kernel unit) : M kernel bool :=
  acquire (LkProc i);;
  p ← get_proc i;
  if bool_decide (p.(p_state) = RUNNABLE) then
    upd_proc i (set_p_state RUNNING);;
    modify (set_cur (Some i));;
    run;;
    modify (set_cur None);;
    release (LkProc i);;
    mret true
  else
    release (LkProc i);;
    mret false.

(** ** Exact effects *)

(** The process table has its fixed size. *)
Definition procs_ok (s : kernel) : Prop := length s.(procs) = NPROC.

Lemma get_proc_Ok i s p : s.(procs) !! i = Some p -> get_proc i s = Ok p s.
Proof. unfold get_proc. by intros ->. Qed.

Lemma myproc_Ok i s : s.(cur) = Some i -> myproc s = Ok i s.
Proof. unfold myproc. by intros ->. Qed.

Lemma held_back (l : lockid) s x : l ∉ s.(held) -> set_held (({[l]} ∪ s.(held)) ∖ {[l]}) (set_held x s) = s.
Proof. intros H. rewrite held_drop by done. rewrite set_held_twice. apply set_held_held. Qed.

(** A test under p->lock that changes nothing. *)
Lemma killed_Ok i s p :
  s.(procs) !! i = Some p -> LkProc i ∉ s.(held) -> killed i s = Ok p.(p_killed) s.
Proof.
  intros Hp Hh. unfold killed. erewrite bind_Ok by (by apply acquire_Ok).
  erewrite bind_Ok by (apply get_proc_Ok; simpl; exact Hp). erewrite bind_Ok by (apply release_Ok; set_solver +).
  unfold mret, M_ret. f_equal. by apply held_back.
Qed.

Definition wake (me : option nat) (c : option chan) (i : nat) (p : proc) : proc :=
  if bool_decide (Some i = me) then p else
  if bool_decide (p.(p_state) = SLEEPING) && bool_decide (p.(p_chan) = c) then set_p_state RUNNABLE p else p.

(** Updating an entry that has been looked up. *)
Lemma alter_lookup {A} (f g : A -> A) (l : list A) i x : l !! i = Some x -> f x = g x -> alter f i l = alter g i l.
Proof.
  intros Hi Hfg. apply list_eq. intros j. destruct (decide (i = j)) as [->|].
  - rewrite !list_lookup_alter_eq, Hi. simpl. by rewrite Hfg.
  - by rewrite !list_lookup_alter_ne.
Qed.

Lemma alter_id {A} (l : list A) i (f : A -> A) x : l !! i = Some x -> f x = x -> alter f i l = l.
Proof.
  intros Hi Hf. apply list_eq. intros j. destruct (decide (i = j)) as [->|].
  - rewrite list_lookup_alter_eq, Hi. simpl. by rewrite Hf.
  - by rewrite list_lookup_alter_ne.
Qed.

(** The first [k] entries have been through [f]. *)
Definition upto {A} (f : nat -> A -> A) (k : nat) (l : list A) : list A :=
  imap (fun j x => if decide (j < k)%nat then f j x else x) l.

Lemma upto_step {A} (f : nat -> A -> A) k l : alter (f k) k (upto f k l) = upto f (k + 1) l.
Proof.
  apply list_eq. intros j. unfold upto. destruct (decide (k = j)) as [->|].
  - rewrite list_lookup_alter_eq, !list_lookup_imap. destruct (l !! j); simpl; [|done].
    by rewrite decide_False, decide_True by lia.
  - rewrite list_lookup_alter_ne, !list_lookup_imap by done. destruct (l !! j); simpl; [|done].
    f_equal. repeat case_decide; done || lia.
Qed.

Lemma upto_all {A} (f : nat -> A -> A) k l : (length l <= k)%nat -> upto f k l = imap f l.
Proof.
  intros H. unfold upto. apply list_eq. intros j. rewrite !list_lookup_imap.
  destruct (l !! j) eqn:E; simpl; [|done]. apply lookup_lt_Some in E. by rewrite decide_True by lia.
Qed.

Lemma upto_0 {A} (f : nat -> A -> A) l : upto f 0 l = l.
Proof.
  unfold upto. apply list_eq. intros j. rewrite list_lookup_imap. by destruct (l !! j).
Qed.

(** wakeup() is one pass of [wake] over the table, and nothing else. *)
Lemma wakeup_run c s :
  procs_ok s -> (forall i, Some i <> s.(cur) -> LkProc i ∉ s.(held)) ->
  wakeup c s = Ok tt (set_procs (imap (wake s.(cur) c) s.(procs)) s).
Proof.
  intros Hlen Hh.
  assert (wp (wakeup c) (fun _ s' => s' = set_procs (imap (wake s.(cur) c) s.(procs)) s) s) as Hw.
  { unfold wakeup.
    apply (wp_for_range _ (fun k s' => s' = set_procs (upto (wake s.(cur) c) k s.(procs)) s)).
    - by rewrite upto_0; destruct s.
    - intros k s' Hk ->. set (l := upto _ k _). apply wp_bind, wp_gets. simpl.
      rewrite <- upto_step. fold l.
      destruct (lookup_lt_is_Some_2 l k) as [p Hp].
      { unfold l, upto. rewrite length_imap, Hlen. lia. }
      unfold wake_slot. case_bool_decide as Hme; cbn [do_code do_stmt].
      + apply wp_ret. rewrite (alter_id l k _ p Hp); [done |]. unfold wake. by rewrite bool_decide_eq_true_2.
      + apply wp_bind. eapply wp_Ok; [apply acquire_Ok; by apply Hh |].
        apply wp_bind, wp_bind. eapply wp_Ok; [apply get_proc_Ok; simpl; exact Hp |]. unfold when.
        destruct (bool_decide (p.(p_state) = SLEEPING) && bool_decide (p.(p_chan) = c)) eqn:E.
        * apply wp_modify. eapply wp_Ok; [apply release_Ok; set_solver + |]. simpl.
          rewrite held_drop by (by apply Hh).
          rewrite (alter_lookup _ (wake (cur s) c k) l k p Hp); [by destruct s |].
          unfold wake. by rewrite bool_decide_eq_false_2, E by done.
        * apply wp_ret. eapply wp_Ok; [apply release_Ok; set_solver + |]. simpl.
          rewrite held_drop by (by apply Hh).
          rewrite (alter_id l k _ p Hp); [by destruct s |].
          unfold wake. by rewrite bool_decide_eq_false_2, E by done.
    - intros s' ->. rewrite upto_all; [done |]. unfold procs_ok in Hlen. simpl. lia. }
  apply wp_inv in Hw as ([] & s' & E & ->). done.
Qed.

(** kill() as a pure function of the table: the first process with the pid. *)
Definition kill_proc (p : proc) : proc :=
  let p := set_p_killed 1 p in if bool_decide (p.(p_state) = SLEEPING) then set_p_state RUNNABLE p else p.

Lemma kill_slot pid i s p :
  s.(procs) !! i = Some p -> LkProc i ∉ s.(held) ->
  (acquire (LkProc i);;
    p ← get_proc i;
    if p.(p_pid) =? pid then
      upd_proc i (set_p_killed 1);;
      when (bool_decide (p.(p_state) = SLEEPING)) (upd_proc i (set_p_state RUNNABLE));;
      release (LkProc i);;
      mret (Some 0)
    else
      release (LkProc i);;
      mret None) s =
  if p.(p_pid) =? pid then Ok (Some 0) (set_procs (alter kill_proc i s.(procs)) s) else Ok None s.
Proof.
  intros Hp Hh. erewrite bind_Ok by (by apply acquire_Ok).
  erewrite bind_Ok by (apply get_proc_Ok; simpl; exact Hp).
  destruct (Z.eqb_spec p.(p_pid) pid).
  - erewrite bind_Ok by done. unfold when.
    assert (kill_proc p = if bool_decide (p.(p_state) = SLEEPING) then set_p_state RUNNABLE (set_p_killed 1 p)
      else set_p_killed 1 p) as Hk by done.
    case_bool_decide.
    + erewrite bind_Ok by done. erewrite bind_Ok by (apply release_Ok; set_solver +). simpl.
      unfold mret, M_ret. f_equal. rewrite held_drop by done. rewrite list_alter_alter_eq.
      rewrite (alter_lookup _ kill_proc _ i p Hp) by (symmetry; exact Hk). by destruct s.
    + erewrite bind_Ok by done. erewrite bind_Ok by (apply release_Ok; set_solver +). simpl.
      unfold mret, M_ret. f_equal. rewrite held_drop by done.
      rewrite (alter_lookup _ kill_proc _ i p Hp) by (symmetry; exact Hk). by destruct s.
  - erewrite bind_Ok by (apply release_Ok; set_solver +). unfold mret, M_ret. f_equal. by apply held_back.
Qed.

Lemma kill_run pid s :
  procs_ok s -> (forall i, LkProc i ∉ s.(held)) ->
  kill pid s = match list_find (fun p => p.(p_pid) = pid) s.(procs) with
               | Some (i, _) => Ok 0 (set_procs (alter kill_proc i s.(procs)) s)
               | None => Ok (-1) s
               end.
Proof.
  intros Hlen Hh. unfold kill, procs_ok in *. destruct (list_find _ _) as [[i p]|] eqn:Ef.
  - apply list_find_Some in Ef as (Hp & Hpid & Hbefore). pose proof (lookup_lt_Some _ _ _ Hp).
    erewrite bind_Ok; [|apply (for_return_first _ NPROC 0 i 0); [lia | |]].
    + done.
    + intros j Hj. destruct (lookup_lt_is_Some_2 s.(procs) j) as [q Hq]; [lia |].
      rewrite (kill_slot pid j s q) by auto. destruct (Z.eqb_spec q.(p_pid) pid) as [E|]; [|done].
      exfalso. eapply Hbefore; [exact Hq | lia | done].
    + simpl. rewrite (kill_slot pid i s p) by auto. by rewrite (proj2 (Z.eqb_eq _ _) Hpid).
  - erewrite (bind_Ok _ _ s None s); [done |]. apply for_return_none. intros j Hj.
    destruct (lookup_lt_is_Some_2 s.(procs) j) as [q Hq]; [lia |].
    rewrite (kill_slot pid j s q) by auto. destruct (Z.eqb_spec q.(p_pid) pid) as [E|]; [|done].
    apply list_find_None in Ef. rewrite Forall_lookup in Ef. by eapply Ef in Hq.
Qed.

(** kill() marks exactly the first process of the table with the given pid,
    makes it runnable if it was sleeping, and returns 0; if there is none it
    returns -1 and changes nothing. *)
Theorem kill_spec pid s :
  procs_ok s -> (forall i, LkProc i ∉ s.(held)) ->
  kill pid s = match list_find (fun p => p.(p_pid) = pid) s.(procs) with
               | Some (i, _) => Ok 0 (set_procs (alter kill_proc i s.(procs)) s)
               | None => Ok (-1) s
               end.
Proof. apply kill_run. Qed.

(** ** sleep() *)

Lemma sched_run i s p :
  s.(cur) = Some i -> s.(procs) !! i = Some p -> LkProc i ∈ s.(held) -> p.(p_state) <> RUNNING ->
  sched s = if decide (size s.(held) = 1%nat) then Sleep s (fun s' => Ok tt s') else Panic "sched locks".
Proof.
  intros Hc Hp Hh Hr. unfold sched. erewrite bind_Ok by (by apply myproc_Ok).
  erewrite bind_Ok by (apply get_proc_Ok; exact Hp). erewrite bind_Ok by done. cbv beta.
  rewrite bool_decide_eq_true_2 by done. cbn [negb]. cbn iota.
  case_decide as Hs; [|destruct (Nat.eqb_spec (size s.(held)) 1); done].
  rewrite Hs. cbn [negb Nat.eqb]. cbn iota. by rewrite bool_decide_eq_false_2.
Qed.

(** The state in which a process that called sleep(c, lk) leaves the CPU. *)
Definition sleeping (i : nat) (c : option chan) (s : kernel) : kernel :=
  set_held {[LkProc i]} (set_procs (alter (fun p => set_p_state SLEEPING (set_p_chan c p)) i s.(procs)) s).

Lemma sleep_run i p c lk s :
  s.(cur) = Some i -> s.(procs) !! i = Some p -> lk ∈ s.(held) -> LkProc i ∉ s.(held) ->
  if decide (s.(held) = {[lk]}) then
    exists k, sleep c lk s = Sleep (sleeping i c s) k /\
      forall s2, s2.(held) = {[LkProc i]} ->
        k s2 = Ok tt (set_held {[lk]} (set_procs (alter (set_p_chan None) i s2.(procs)) s2))
  else sleep c lk s = Panic "sched locks".
Proof.
  intros Hc Hp Hlk Hh. unfold sleep. erewrite bind_Ok by (by apply myproc_Ok). cbn [sleep_code do_code do_stmt].
  erewrite bind_Ok by (by apply acquire_Ok). erewrite bind_Ok by (apply release_Ok; set_solver).
  erewrite bind_Ok by done. erewrite bind_Ok by done. simpl. rewrite list_alter_alter_eq.
  set (s1 := set_procs _ _).
  assert (held s1 = {[LkProc i]} ∪ (s.(held) ∖ {[lk]})) as Eh by (apply set_eq; intros x; set_solver).
  assert (sched s1 = if decide (size (held s1) = 1%nat) then Sleep s1 (fun s' => Ok tt s') else Panic "sched locks") as Hs.
  { apply (sched_run i s1 (set_p_state SLEEPING (set_p_chan c p)));
      [done | by unfold s1; simpl; rewrite list_lookup_alter_eq, Hp | set_solver | done]. }
  destruct (decide (s.(held) = {[lk]})) as [Hone|Hone].
  - assert (s1 = sleeping i c s) as Es.
    { unfold sleeping, s1, set_held, set_procs. simpl. f_equal. rewrite Hone. apply set_eq. intros x. set_solver. }
    rewrite decide_True in Hs by (rewrite Eh, Hone, difference_diag_L, union_empty_r_L; apply size_singleton).
    eexists. split; [erewrite bind_Sleep by exact Hs; by rewrite Es |]. intros s2 H2. simpl. erewrite bind_Ok by done.
    erewrite bind_Ok by (apply release_Ok; simpl; set_solver). rewrite acquire_Ok by (simpl; set_solver).
    f_equal. simpl. unfold set_held, set_procs. simpl. f_equal. rewrite H2. apply set_eq. intros x. set_solver.
  - rewrite decide_False in Hs; [by erewrite bind_Panic by exact Hs |]. rewrite Eh. intros Hsz. apply Hone.
    rewrite size_union in Hsz by set_solver. rewrite size_singleton in Hsz.
    assert (size (s.(held) ∖ {[lk]}) = 0%nat) as H0 by lia. apply size_empty_inv in H0.
    apply set_eq. intros x. destruct (decide (x = lk)) as [->|Hx]; [set_solver + Hlk | set_solver + H0 Hx].
Qed.

(** sleep(c, lk) called with [lk] as the only spinlock held gives up the CPU with
    the process SLEEPING on [c], its own lock held (the scheduler releases it) and
    [lk] released; when the scheduler switches back with the process lock held, it
    clears the channel and returns holding [lk] again.  With a second spinlock
    held it panics instead of sleeping with the lock. *)
Theorem sleep_spec i p c lk s :
  s.(cur) = Some i -> s.(procs) !! i = Some p -> lk ∈ s.(held) -> LkProc i ∉ s.(held) ->
  if decide (s.(held) = {[lk]}) then
    exists k, sleep c lk s = Sleep (sleeping i c s) k /\
      forall s2, s2.(held) = {[LkProc i]} ->
        k s2 = Ok tt (set_held {[lk]} (set_procs (alter (set_p_chan None) i s2.(procs)) s2))
  else sleep c lk s = Panic "sched locks".
Proof. apply sleep_run. Qed.

(** wakeup() seen from the process that calls it. *)
Definition woken (me : option nat) (c : option chan) (s : kernel) : kernel :=
  set_procs (imap (wake me c) s.(procs)) s.

Lemma woken_me i c s p : s.(procs) !! i = Some p -> (woken (Some i) c s).(procs) !! i = Some p.
Proof.
  intros Hp. simpl. rewrite list_lookup_imap, Hp. simpl. unfold wake. by rewrite bool_decide_eq_true_2.
Qed.

Lemma woken_ok me c s : procs_ok s -> procs_ok (woken me c s).
Proof. unfold procs_ok, woken. simpl. by rewrite length_imap. Qed.

(** sleep() holding only [lk], by a running process. *)
Lemma sleep_only i c lk s :
  s.(cur) = Some i -> is_Some (s.(procs) !! i) -> s.(held) = {[lk]} -> lk <> LkProc i ->
  exists k, sleep c lk s = Sleep (sleeping i c s) k /\
    forall s2, s2.(held) = {[LkProc i]} ->
      k s2 = Ok tt (set_held {[lk]} (set_procs (alter (set_p_chan None) i s2.(procs)) s2)).
Proof.
  intros Hc [p Hp] Hh Hne. pose proof (sleep_run i p c lk s Hc Hp) as H.
  rewrite decide_True in H by done. apply H; rewrite Hh; set_solver + Hne.
Qed.
