(* ===== verification/SleepWakeup.v ===== *)
(** * No lost wakeups: sleep() and wakeup() interleaved (kernel/proc.c)

    Any number of threads (the processes, and interrupt handlers on CPUs that run no
    process) run critical sections of the form in which the kernel uses sleep() and
    wakeup(): under a lock [l] they wait for conditions, change them, and wake up
      acquire(l); ... while(!cond) sleep(chan, l); ... cond = b; ... wakeup(chan); ... release(l);
    as piperead() and pipewrite(), acquiresleep() and releasesleep(), begin_op() and
    end_op(), sys_sleep() and clockintr() do.  (sem_wait() does not test its condition
    again, and exit() calls wakeup() before it makes the condition of wait() true,
    under the same lock: they are not of this form.)  The threads interleave statement
    by statement: the statements are those of [sleep_code] and [wake_slot] of Sched.v,
    of which sleep() and wakeup() consist, and each is executed by [do_stmt], on the
    locks of its thread.  A condition is a ghost variable that goes with a channel. *)

From stdpp Require Import functions.
From S2P Require Import Prelude State Sched.

Module SleepWakeup.

(** A thread below NPROC is the process of that slot; myproc() of the others is 0. *)
Definition me (t : nat) : option nat := if decide (t < NPROC)%nat then Some t else None.

(** What a critical section does: while(!cond) sleep(c, l); cond = b; and what is left
    of wakeup(c) from slot [j] on, which is wakeup(c) for [j] = 0. *)
Inductive act :=
| Wait (c : chan)
| Assign (c : chan) (b : bool)
| Wakeup (c : chan) (j : nat).

(** A thread is on a CPU, off it, or examined by the scheduler, which holds p->lock. *)
Inductive mode := On | Off | Polled.

(** The statements left of the call in progress, and what is left of the section. *)
Record thread := mkThread { md : mode; code : list stmt; todo : option (lockid * list act) }.

Record st := mkSt {
  kern : kernel;
  lkm : gmap nat (gset lockid);   (* the spinlocks each thread holds *)
  cond : chan -> bool;          (* the condition that goes with a channel *)
  thr : nat -> thread;
}.

Definition locks (s : st) (t : nat) : gset lockid := lkm s !!! t.
Definition free (s : st) (l : lockid) : Prop := forall t, l ∉ locks s t.

(** The kernel as thread [t] sees it: its locks, its process. *)
Definition view (s : st) (t : nat) : kernel := set_held (locks s t) (set_cur (me t) (kern s)).

Definition set_thr (t : nat) (th : thread) (s : st) : st := mkSt (kern s) (lkm s) (cond s) (<[t := th]> (thr s)).

(** Thread [t] goes on as [th] with the locks [L]. *)
Definition move (t : nat) (th : thread) (L : gset lockid) (k : kernel) (s : st) : st :=
  mkSt k (<[t := L]> (lkm s)) (cond s) (<[t := th]> (thr s)).

Section protocol.
(** The lock that protects the condition of each channel. *)
Context (lock_of : chan -> lockid).

(** wakeup(c) for the process of slot [i] is still to come before the section sleeps
    or ends, and the condition is not taken back before that. *)
Fixpoint wakes (c : chan) (i : nat) (acts : list act) : Prop :=
  match acts with
  | [] | Wait _ :: _ => False
  | Assign c' b :: r => (c' = c -> b = true) /\ wakes c i r
  | Wakeup c' j :: r => (c' = c /\ (j <= i)%nat) \/ wakes c i r
  end.

(** The discipline of a section: conditions are used under their lock, only processes
    sleep, and who makes a condition true calls wakeup() before giving up the lock. *)
Fixpoint disciplined (t : nat) (l : lockid) (acts : list act) : Prop :=
  match acts with
  | [] => True
  | Wait c :: r => lock_of c = l /\ (t < NPROC)%nat /\ disciplined t l r
  | Assign c b :: r => lock_of c = l /\ (b = true -> wakes c 0 r) /\ disciplined t l r
  | Wakeup _ _ :: r => disciplined t l r
  end.

Definition section_ok (t : nat) (l : lockid) (acts : list act) : Prop :=
  (forall j, l <> LkProc j) /\ disciplined t l acts.

Inductive step : st -> st -> Prop :=
(* critical sections *)
| st_enter s t l acts : thr s t = mkThread On [] None -> section_ok t l acts ->
    step s (set_thr t (mkThread On [SAcquire l] (Some (l, acts))) s)
| st_wait s t l c acts : thr s t = mkThread On [] (Some (l, Wait c :: acts)) ->
    step s (set_thr t (if cond s c then mkThread On [] (Some (l, acts))
                       else mkThread On (sleep_code t (Some c) l) (Some (l, Wait c :: acts))) s)
| st_assign s t l c b acts : thr s t = mkThread On [] (Some (l, Assign c b :: acts)) ->
    step s (mkSt (kern s) (lkm s) (<[c := b]> (cond s)) (<[t := mkThread On [] (Some (l, acts))]> (thr s)))
| st_slot s t l c j acts : thr s t = mkThread On [] (Some (l, Wakeup c j :: acts)) ->
    step s (set_thr t (if decide (j < NPROC)%nat
                       then mkThread On (wake_slot (me t) (Some c) j) (Some (l, Wakeup c (S j) :: acts))
                       else mkThread On [] (Some (l, acts))) s)
| st_leave s t l : thr s t = mkThread On [] (Some (l, [])) ->
    step s (set_thr t (mkThread On [SRelease l] None) s)
(* a statement; acquire() spins until the lock is free *)
| st_run s t x k todo s' : thr s t = mkThread On (x :: k) todo ->
    (forall l, x = SAcquire l -> free s l) -> do_stmt x (view s t) = Ok tt s' ->
    step s (move t (mkThread On k todo) s'.(held) s' s)
(* swtch() to the scheduler, which releases p->lock *)
| st_swtch s t x k todo s' cont : thr s t = mkThread On (x :: k) todo ->
    do_stmt x (view s t) = Sleep s' cont ->
    step s (move t (mkThread Off k todo) (s'.(held) ∖ {[LkProc t]}) s' s)
(* scheduler(): acquire(&p->lock), and if(p->state == RUNNABLE) or release(&p->lock) *)
| st_poll s t k todo : thr s t = mkThread Off k todo -> free s (LkProc t) ->
    step s (move t (mkThread Polled k todo) ({[LkProc t]} ∪ locks s t) (kern s) s)
| st_idle s t k todo p : thr s t = mkThread Polled k todo ->
    (kern s).(procs) !! t = Some p -> p.(p_state) <> RUNNABLE ->
    step s (move t (mkThread Off k todo) (locks s t ∖ {[LkProc t]}) (kern s) s)
| st_resume s t k todo p : thr s t = mkThread Polled k todo ->
    (kern s).(procs) !! t = Some p -> p.(p_state) = RUNNABLE ->
    step s (move t (mkThread On k todo) (locks s t)
              (set_procs (alter (set_p_state RUNNING) t (kern s).(procs)) (kern s)) s)
(* kill() of the process of slot j, under its lock *)
| st_kill s j : free s (LkProc j) ->
    step s (mkSt (set_procs (alter kill_proc j (kern s).(procs)) (kern s)) (lkm s) (cond s) (thr s)).

(** Nobody is in a critical section and no process sleeps. *)
Definition initial (s : st) : Prop :=
  procs_ok (kern s) /\ (forall i p, (kern s).(procs) !! i = Some p -> p.(p_state) <> SLEEPING) /\
  lkm s = ∅ /\ (forall t, thr s t = mkThread On [] None).

(** Process [i] sleeps on [c]. *)
Definition asleep (s : st) (i : nat) (c : chan) : Prop :=
  exists p, (kern s).(procs) !! i = Some p /\ p.(p_state) = SLEEPING /\ p.(p_chan) = Some c.

(** A thread with the locks [L] has still to examine process [i] in a wakeup(c): in the
    loop of wakeup(), or later in its critical section. *)
Definition waking (th : thread) (L : gset lockid) (i : nat) (c : chan) : Prop :=
  SRouse i (Some c) ∈ code th \/ exists l acts, todo th = Some (l, acts) /\ l ∈ L /\ wakes c i acts.

(** ** Where a thread can be *)

Inductive pos :=
| PIdle
| PEnter (l : lockid) (acts : list act)
| PNext (l : lockid) (acts : list act)
| PLeave (l : lockid)
| PSlot (l : lockid) (acts : list act) (c : chan) (j k : nat)      (* in wake_slot *)
| PSleep (l : lockid) (acts : list act) (c : chan) (k : nat) (m : mode).   (* in sleep() *)

Definition slot_code (c : chan) (j : nat) : list stmt :=
  [SAcquire (LkProc j); SRouse j (Some c); SRelease (LkProc j)].

Definition thread_of (t : nat) (q : pos) : thread :=
  match q with
  | PIdle => mkThread On [] None
  | PEnter l acts => mkThread On [SAcquire l] (Some (l, acts))
  | PNext l acts => mkThread On [] (Some (l, acts))
  | PLeave l => mkThread On [SRelease l] None
  | PSlot l acts c j k => mkThread On (drop k (slot_code c j)) (Some (l, acts))
  | PSleep l acts c k m => mkThread m (drop k (sleep_code t (Some c) l)) (Some (l, Wait c :: acts))
  end.

Definition locks_of (t : nat) (q : pos) : gset lockid :=
  match q with
  | PIdle | PEnter _ _ => ∅
  | PNext l _ | PLeave l => {[l]}
  | PSlot l _ _ j k => if decide (k = 0%nat) then {[l]} else {[l; LkProc j]}
  | PSleep l _ _ k m =>
      match k with
      | 0 => {[l]}
      | 1 => {[l; LkProc t]}
      | 2 | 3 | 4 | 6 => {[LkProc t]}
      | 5 => match m with Off => ∅ | _ => {[LkProc t]} end
      | _ => ∅
      end%nat
  end.

Definition pos_ok (t : nat) (q : pos) : Prop :=
  match q with
  | PIdle => True
  | PEnter l acts | PNext l acts => section_ok t l acts
  | PLeave l => forall j, l <> LkProc j
  | PSlot l acts c j k => section_ok t l acts /\ (j < NPROC)%nat /\ me t <> Some j /\ (k < 3)%nat
  | PSleep l acts c k m => section_ok t l (Wait c :: acts) /\ (k < 8)%nat /\ (m = On \/ k = 5%nat)
  end.

(** Process [i] has given up the lock of its condition in order to sleep. *)
Definition down (ps : list proc) (i k : nat) (m : mode) : Prop :=
  (2 <= k <= 4)%nat \/ k = 5%nat /\ m <> On /\ exists p, ps !! i = Some p /\ p.(p_state) = SLEEPING.

(** The entry of process [i] in the table, when its thread is at [q]. *)
Record entry_ok (ps : list proc) (cd : chan -> bool) (i : nat) (q : pos) : Prop := {
  n_asleep p : ps !! i = Some p -> p.(p_state) = SLEEPING -> exists l acts c k m,
    q = PSleep l acts c k m /\ (k = 4%nat \/ k = 5%nat /\ m <> On) /\ p.(p_chan) = Some c;
  n_tested l acts c k m : q = PSleep l acts c k m -> (k <= 1)%nat -> cd c = false;
  n_chan l acts c m : q = PSleep l acts c 3 m -> exists p, ps !! i = Some p /\ p.(p_chan) = Some c;
  n_state l acts c m : q = PSleep l acts c 4 m ->
    exists p, ps !! i = Some p /\ p.(p_state) = SLEEPING /\ p.(p_chan) = Some c;
}.

Record inv (s : st) (f : nat -> pos) : Prop := {
  v_len : length (kern s).(procs) = NPROC;
  v_thr t : thr s t = thread_of t (f t);
  v_locks t : locks s t = locks_of t (f t);
  v_ok t : pos_ok t (f t);
  v_excl t u l : l ∈ locks s t -> l ∈ locks s u -> t = u;
  v_entry i : entry_ok (kern s).(procs) (cond s) i (f i);
  v_pending i l acts c k m : f i = PSleep l acts c k m -> down (kern s).(procs) i k m -> cond s c = true ->
    exists t, t <> i /\ waking (thr s t) (locks s t) i c;
}.

Lemma fn_insert_eq {A} (f : nat -> A) t x : (<[t := x]> f) t = x.
Proof. apply fn_lookup_insert. Qed.
Lemma fn_insert_ne {A} (f : nat -> A) t u x : t <> u -> (<[t := x]> f) u = f u.
Proof. apply fn_lookup_insert_ne. Qed.

Lemma locks_move t th L k s u : locks (move t th L k s) u = if decide (u = t) then L else locks s u.
Proof.
  unfold locks, move. simpl. case_decide; [subst; apply lookup_total_insert_eq | by apply lookup_total_insert_ne].
Qed.

Lemma thr_move t th L k s u : thr (move t th L k s) u = if decide (u = t) then th else thr s u.
Proof. simpl. case_decide; [subst; apply fn_insert_eq | by apply fn_insert_ne]. Qed.

(** A lock that is not free has a holder. *)
Lemma free_or_held s l : free s l \/ exists t, l ∈ locks s t.
Proof.
  destruct (decide (map_Exists (fun (_ : nat) L => l ∈ L) (lkm s))) as [(t & L & Ht & Hl)|Hn].
  - right. exists t. unfold locks. by rewrite (lookup_total_correct _ _ _ Ht).
  - left. intros t Ht. apply Hn. unfold locks in Ht. destruct (lkm s !! t) as [L|] eqn:E.
    + exists t, L. by rewrite (lookup_total_correct _ _ _ E) in Ht.
    + rewrite lookup_total_alt, E in Ht. by apply not_elem_of_empty in Ht.
Qed.

(** A step of thread [t] from [f t] to [q]. *)
Record moved (t : nat) (q : pos) (s s' : st) (f : nat -> pos) : Prop := {
  mv_len : length (kern s').(procs) = length (kern s).(procs);
  mv_thr u : thr s' u = if decide (u = t) then thread_of t q else thr s u;
  mv_locks u : locks s' u = if decide (u = t) then locks_of t q else locks s u;
  mv_ok : pos_ok t q;
  mv_held l : l ∈ locks_of t q -> l ∈ locks_of t (f t) \/ free s l;
}.

Lemma inv_moved t q s s' f :
  inv s f -> moved t q s s' f ->
  (forall i, entry_ok (kern s').(procs) (cond s') i ((<[t := q]> f) i)) ->
  (forall i l acts c k m, (<[t := q]> f) i = PSleep l acts c k m -> down (kern s').(procs) i k m -> cond s' c = true ->
     exists u, u <> i /\ waking (thr s' u) (locks s' u) i c) ->
  inv s' (<[t := q]> f).
Proof.
  intros I [Ml Mt Mk Mo Mh] He Hp. constructor; [by rewrite Ml; apply I | | | | | done | done].
  - intros u. rewrite Mt. case_decide as E; [subst; by rewrite fn_insert_eq | rewrite fn_insert_ne by done; apply I].
  - intros u. rewrite Mk. case_decide as E; [subst; by rewrite fn_insert_eq | rewrite fn_insert_ne by done; apply I].
  - intros u. destruct (decide (t = u)) as [<-|]; [by rewrite fn_insert_eq | rewrite fn_insert_ne by done; apply I].
  - assert (forall u l, l ∈ locks_of t q -> l ∈ locks s u -> u = t) as Hx.
    { intros u l H1 H2. apply Mh in H1 as [H1|H1]; [|by destruct (H1 u)]. rewrite <- (v_locks _ _ I) in H1. by eapply I. }
    intros u v l. rewrite !Mk. repeat case_decide; subst; intros H1 H2; [done | | | by eapply I].
    + symmetry. eauto.
    + eauto.
Qed.

(** A step that changes neither the table nor a condition. *)
Lemma sw_inv_still t q s s' f :
  inv s f -> moved t q s s' f -> (kern s').(procs) = (kern s).(procs) -> cond s' = cond s ->
  entry_ok (kern s).(procs) (cond s) t q ->
  (forall l acts c k m, q = PSleep l acts c k m -> down (kern s).(procs) t k m -> cond s c = true ->
     exists u, u <> t /\ waking (thr s u) (locks s u) t c) ->
  (forall i c, i <> t -> (i < NPROC)%nat -> waking (thread_of t (f t)) (locks_of t (f t)) i c -> waking (thread_of t q) (locks_of t q) i c) ->
  inv s' (<[t := q]> f).
Proof.
  intros I M Ep Ec He Hp Hw. eapply inv_moved; [done | done | |].
  - intros i. rewrite Ep, Ec. destruct (decide (t = i)) as [<-|]; [by rewrite fn_insert_eq | rewrite fn_insert_ne by done; apply I].
  - intros i l acts c k m Ei Hd Hc. rewrite Ep in Hd. rewrite Ec in Hc.
    assert (exists u, u <> i /\ waking (thr s u) (locks s u) i c) as (u & Hu & Hwk).
    { destruct (decide (t = i)) as [<-|]; [rewrite fn_insert_eq in Ei; eauto |].
      rewrite fn_insert_ne in Ei by done. by eapply I. }
    exists u. split; [done |]. rewrite (mv_thr _ _ _ _ _ M), (mv_locks _ _ _ _ _ M). case_decide as E; [|done]. subst u.
    rewrite fn_insert_ne in Ei by done. apply Hw; [done | | by rewrite <- (v_thr _ _ I), <- (v_locks _ _ I)].
    pose proof (v_ok _ _ I i) as Ho. rewrite Ei in Ho. destruct Ho as [[_ (_ & Hi & _)] _]. done.
Qed.

Lemma section_tail t l a acts : section_ok t l (a :: acts) -> section_ok t l acts.
Proof. intros [H1 H2]. split; [done |]. destruct a; simpl in H2; tauto. Qed.

(** A thread outside sleep() has no entry to speak of, and nothing pending. *)
Definition awake (q : pos) : Prop := match q with PSleep _ _ _ _ _ => False | _ => True end.

Lemma entry_awake ps cd i q q' : entry_ok ps cd i q -> awake q -> awake q' -> entry_ok ps cd i q'.
Proof.
  intros [Ha _ _ _] Hq Hq'. constructor; [|by intros; subst..].
  intros p Hp Hs. destruct (Ha p Hp Hs) as (l & acts & c & k & m & -> & _). done.
Qed.

(** From one position outside sleep() to another. *)
Lemma inv_awake t q s s' f :
  inv s f -> moved t q s s' f -> (kern s').(procs) = (kern s).(procs) -> cond s' = cond s ->
  awake (f t) -> awake q ->
  (forall i c, i <> t -> (i < NPROC)%nat -> waking (thread_of t (f t)) (locks_of t (f t)) i c -> waking (thread_of t q) (locks_of t q) i c) ->
  inv s' (<[t := q]> f).
Proof.
  intros I M Ep Ec Hf Hq Hw. eapply sw_inv_still; try done; [eapply entry_awake; [apply I | done..] |].
  intros l acts c k m ->. done.
Qed.

Lemma set_thr_moved t q s f :
  inv s f -> pos_ok t q -> locks_of t q = locks_of t (f t) -> moved t q s (set_thr t (thread_of t q) s) f.
Proof.
  intros I Ho El. constructor; [done | | | done | rewrite El; by left].
  - intros u. simpl. case_decide; [subst; by rewrite fn_insert_eq | by rewrite fn_insert_ne].
  - intros u. case_decide; [subst; by rewrite El, <- (v_locks _ _ I) | done].
Qed.

Lemma move_moved t q s f k :
  length k.(procs) = length (kern s).(procs) -> pos_ok t q ->
  (forall l, l ∈ locks_of t q -> l ∈ locks_of t (f t) \/ free s l) ->
  moved t q s (move t (thread_of t q) (locks_of t q) k s) f.
Proof.
  intros Hk Ho Hl. constructor; try done; intros u; [apply thr_move | apply locks_move].
Qed.

(** What the statements do. *)
Lemma acquire_inv l s t k :
  do_stmt (SAcquire l) (view s t) = Ok tt k -> k.(procs) = (kern s).(procs) /\ k.(held) = {[l]} ∪ locks s t.
Proof. simpl. unfold acquire. case_decide; [done |]. by intros [= <-]. Qed.

Lemma release_inv l s t k :
  do_stmt (SRelease l) (view s t) = Ok tt k -> k.(procs) = (kern s).(procs) /\ k.(held) = locks s t ∖ {[l]}.
Proof. simpl. unfold release. case_decide; [|done]. by intros [= <-]. Qed.

Lemma sched_inv s t k c :
  do_stmt SSched (view s t) = Sleep k c -> k = view s t.
Proof.
  generalize (view s t). intros v. cbn [do_stmt]. unfold sched, myproc, get_proc, gets, mbind, M_bind, panic, obind.
  repeat case_match; naive_solver.
Qed.

Lemma sched_not_Ok s t k : do_stmt SSched (view s t) <> Ok tt k.
Proof.
  generalize (view s t). intros v. cbn [do_stmt]. unfold sched, myproc, get_proc, gets, mbind, M_bind, panic, obind.
  repeat case_match; naive_solver.
Qed.

Lemma only_sched_sleeps x s t k c : do_stmt x (view s t) = Sleep k c -> x = SSched.
Proof.
  generalize (view s t). intros v.
  destruct x; cbn [do_stmt]; unfold acquire, release, upd_proc, modify, get_proc, when, mbind, M_bind, obind; try done;
    repeat case_match; naive_solver.
Qed.

Lemma rouse_inv i c s t k p :
  (kern s).(procs) !! i = Some p -> do_stmt (SRouse i c) (view s t) = Ok tt k ->
  k.(procs) = alter (wake None c i) i (kern s).(procs) /\ k.(held) = locks s t.
Proof.
  intros Hp. simpl. erewrite bind_Ok by (by apply get_proc_Ok). unfold when. intros E.
  destruct (bool_decide (p.(p_state) = SLEEPING) && bool_decide (p.(p_chan) = c)) eqn:Eb.
  - injection E as <-. simpl. split; [|done]. eapply alter_lookup; [done |]. unfold wake. simpl. by rewrite Eb.
  - injection E as <-. simpl. split; [|done]. symmetry. eapply alter_id; [done |]. unfold wake. simpl. by rewrite Eb.
Qed.

Lemma moved_run t q s f k td s' :
  thread_of t q = mkThread On k td -> s'.(held) = locks_of t q ->
  length s'.(procs) = length (kern s).(procs) -> pos_ok t q ->
  (forall l, l ∈ locks_of t q -> l ∈ locks_of t (f t) \/ free s l) ->
  moved t q s (move t (mkThread On k td) s'.(held) s' s) f.
Proof. intros <- ->. apply move_moved. Qed.

(** acquire(l) at the start and release(l) at the end of a section. *)
Lemma inv_enter_leave s f t x k td s' :
  inv s f -> (exists l acts, f t = PEnter l acts) \/ (exists l, f t = PLeave l) ->
  thr s t = mkThread On (x :: k) td -> (forall l, x = SAcquire l -> free s l) -> do_stmt x (view s t) = Ok tt s' ->
  exists g, inv (move t (mkThread On k td) s'.(held) s' s) g.
Proof.
  intros I Hf Et Hfree E. pose proof (v_ok _ _ I t) as Ho. pose proof (v_locks _ _ I t) as Hl.
  rewrite (v_thr _ _ I t) in Et. destruct Hf as [(l & acts & Ef)|(l & Ef)]; rewrite Ef in *; simpl in Et; injection Et as <- <- <-.
  - apply acquire_inv in E as [Ep Eh]. simpl in Hl. rewrite Hl, union_empty_r_L in Eh.
    exists (<[t := PNext l acts]> f). eapply inv_awake; [done | | done | done | by rewrite Ef | done |].
    + apply moved_run; [done | done | by rewrite Ep | done |]. intros l'. simpl. intros ->%elem_of_singleton. eauto.
    + intros i c _ _. rewrite Ef. intros [H|(? & ? & _ & H & _)]; set_solver + H.
  - apply release_inv in E as [Ep Eh]. simpl in Hl. rewrite Hl, difference_diag_L in Eh.
    exists (<[t := PIdle]> f). eapply inv_awake; [done | | done | done | by rewrite Ef | done |].
    + apply moved_run; [done | done | by rewrite Ep | done |]. intros l'. simpl. set_solver +.
    + intros i c _ _. rewrite Ef. intros [H|(? & ? & ? & _)]; [set_solver + H | done].
Qed.

Lemma me_ne t j : (j < NPROC)%nat -> me t <> Some j -> t <> j.
Proof. intros Hj H ->. apply H. unfold me. by rewrite decide_True. Qed.

Lemma entry_ext ps ps' cd i q : ps' !! i = ps !! i -> entry_ok ps cd i q -> entry_ok ps' cd i q.
Proof. intros E [H1 H2 H3 H4]. constructor; rewrite ?E; eauto. Qed.

Lemma down_ext ps ps' i k m : ps' !! i = ps !! i -> down ps' i k m -> down ps i k m.
Proof. unfold down. by intros ->. Qed.

(** Nobody else is at a point of sleep() where it holds its own lock. *)
Lemma lock_other s f t j l acts c k m :
  inv s f -> t <> j -> LkProc j ∈ locks s t -> f j = PSleep l acts c k m -> (k = 0 \/ k = 5 /\ m = Off \/ k = 7)%nat.
Proof.
  intros I Hne Hl Ef. pose proof (v_ok _ _ I j) as Ho. rewrite Ef in Ho. destruct Ho as ([Hm _] & Hk & _).
  assert (LkProc j ∉ locks_of j (f j)) as Hn.
  { intros H. rewrite <- (v_locks _ _ I) in H. destruct Hne. by eapply I. }
  rewrite Ef in Hn. destruct k as [|[|[|[|[|[|[|[|k]]]]]]]]; simpl in Hn; try (set_solver + Hn); try lia.
  destruct m; [set_solver + Hn | by auto | set_solver + Hn].
Qed.

(** if(p->state == SLEEPING && p->chan == chan) p->state = RUNNABLE *)
Lemma inv_wake_one s f t l acts c j td s' :
  inv s f -> f t = PSlot l acts c j 1 -> thr s t = mkThread On (drop 1 (slot_code c j)) td ->
  do_stmt (SRouse j (Some c)) (view s t) = Ok tt s' ->
  inv (move t (mkThread On [SRelease (LkProc j)] td) s'.(held) s' s) (<[t := PSlot l acts c j 2]> f).
Proof.
  intros I Ef Et E. pose proof (v_ok _ _ I t) as Ho. rewrite Ef in Ho. destruct Ho as (Hs & Hj & Hme & _).
  pose proof (me_ne t j Hj Hme) as Hne. pose proof (v_locks _ _ I t) as Hl. rewrite Ef in Hl. simpl in Hl.
  assert (LkProc j ∈ locks s t) as Hlj by (rewrite Hl; set_solver +).
  destruct (lookup_lt_is_Some_2 (kern s).(procs) j) as [p Hp]; [by rewrite (v_len _ _ I) |].
  destruct (rouse_inv _ _ _ _ _ p Hp E) as [Ep Eh]. rewrite Hl in Eh.
  rewrite (v_thr _ _ I), Ef in Et. injection Et as <-.
  assert (forall i k m l acts c', f i = PSleep l acts c' k m -> down s'.(procs) i k m ->
    down (kern s).(procs) i k m /\ (i = j -> c' <> c)) as Hdown.
  { intros i k m l' acts' c' Ei Hd. destruct (decide (i = j)) as [->|Hij].
    2: { split; [|done]. eapply down_ext; [|done]. by rewrite Ep, list_lookup_alter_ne. }
    pose proof (lock_other _ _ _ _ _ _ _ _ _ I Hne Hlj Ei) as Hk. destruct Hd as [?|(-> & Hm & p' & Hp' & Hs')]; [lia |].
    rewrite Ep, list_lookup_alter_eq, Hp in Hp'. injection Hp' as <-. unfold wake in Hs'. simpl in Hs'.
    destruct (bool_decide_reflect (p.(p_state) = SLEEPING)) as [H1|H1]; simpl in Hs'; [|done].
    destruct (bool_decide_reflect (p.(p_chan) = Some c)) as [H2|H2]; simpl in Hs'; [done |].
    split; [right; eauto |]. intros _ ->. destruct (n_asleep _ _ _ _ (v_entry _ _ I j) p Hp H1) as (? & ? & ? & ? & ? & E1 & _ & E2).
    rewrite Ei in E1. injection E1 as <- <- <- <- <-. done. }
  eapply inv_moved; [done | | |].
  - apply (moved_run t (PSlot l acts c j 2)); [done | done | by rewrite Ep, length_alter | split_and!; [done | done | done | lia] |].
    rewrite Ef. by left.
  - intros i. simpl. destruct (decide (t = i)) as [<-|Hti].
    { rewrite fn_insert_eq. eapply entry_ext; [by rewrite Ep, list_lookup_alter_ne |].
      eapply entry_awake; [apply (v_entry _ _ I t) | by rewrite Ef | done]. }
    rewrite fn_insert_ne by done. destruct (decide (i = j)) as [->|Hij].
    2: { eapply entry_ext; [by rewrite Ep, list_lookup_alter_ne | apply I]. }
    destruct (v_entry _ _ I j) as [N1 N2 N3 N4]. constructor; [|done | |].
    + intros p' Hp' Hs'. rewrite Ep, list_lookup_alter_eq, Hp in Hp'. injection Hp' as <-. unfold wake in *. simpl in *.
      destruct (_ && _) in *; [done | by apply N1].
    + intros l' acts' c' m Ei. pose proof (lock_other _ _ _ _ _ _ _ _ _ I Hne Hlj Ei). lia.
    + intros l' acts' c' m Ei. pose proof (lock_other _ _ _ _ _ _ _ _ _ I Hne Hlj Ei). lia.
  - intros i l' acts' c' k m Ei Hd Hc. destruct (decide (t = i)) as [<-|Hti]; [by rewrite fn_insert_eq in Ei |].
    rewrite fn_insert_ne in Ei by done. destruct (Hdown _ _ _ _ _ _ Ei Hd) as [Hd' Hcc].
    destruct (v_pending _ _ I i _ _ _ _ _ Ei Hd' Hc) as (u & Hu & Hw). exists u. split; [done |].
    rewrite thr_move, locks_move. case_decide; [subst u | done]. rewrite (v_thr _ _ I), Hl, Ef in Hw. rewrite Eh. destruct Hw as [Hw|Hw]; [|by right]. simpl in Hw.
    apply elem_of_cons in Hw as [[= -> ->]|Hw]; [by destruct Hcc | set_solver + Hw].
Qed.

(** A statement of wakeup() for one slot. *)
Lemma inv_slot s f t l acts c j k x r td s' :
  inv s f -> f t = PSlot l acts c j k -> thr s t = mkThread On (x :: r) td ->
  (forall l, x = SAcquire l -> free s l) -> do_stmt x (view s t) = Ok tt s' ->
  exists g, inv (move t (mkThread On r td) s'.(held) s' s) g.
Proof.
  intros I Ef Et Hfree E. pose proof (v_ok _ _ I t) as Ho. rewrite Ef in Ho. destruct Ho as (Hs & Hj & Hme & Hk).
  pose proof (v_locks _ _ I t) as Hl. rewrite Ef in Hl. simpl in Hl. pose proof Et as Et'. rewrite (v_thr _ _ I), Ef in Et.
  destruct k as [|[|[|k]]]; [| | |lia]; simpl in Et, Hl; injection Et as <- <- <-.
  - apply acquire_inv in E as [Ep Eh]. rewrite Hl in Eh. exists (<[t := PSlot l acts c j 1]> f).
    eapply inv_awake; [done | | done | done | by rewrite Ef | done |].
    + apply moved_run; [done | rewrite Eh; simpl; set_solver + | by rewrite Ep | split_and!; [done | done | done | lia] |].
      rewrite Ef. simpl. intros l' [?%elem_of_singleton|?%elem_of_singleton]%elem_of_union; subst; [set_solver + | right; eauto].
    + intros i c' _ _. rewrite Ef. intros [H|(? & ? & E1 & _ & H)]; [left; set_solver + H |].
      right. injection E1 as <- <-. eexists _, _. split_and!; [done | set_solver + | done].
  - eexists. by eapply inv_wake_one.
  - apply release_inv in E as [Ep Eh]. rewrite Hl in Eh. exists (<[t := PNext l acts]> f).
    assert (l <> LkProc j) as Hne by apply Hs.
    eapply inv_awake; [done | | done | done | by rewrite Ef | done |].
    + apply moved_run; [done | rewrite Eh; simpl; set_solver + Hne | by rewrite Ep | done |]. rewrite Ef. simpl. set_solver +.
    + intros i c' _ _. rewrite Ef. intros [H|(? & ? & [= <- <-] & _ & H)]; [set_solver + H |].
      right. eexists _, _. split_and!; [done | set_solver + | done].
Qed.

Lemma sleep_not_waking t l acts c k m L i c' : ~ waking (thread_of t (PSleep l acts c k m)) L i c'.
Proof.
  intros [H|(l' & acts' & [= <- <-] & _ & [])]. simpl code in H.
  assert (SRouse i (Some c') ∈ sleep_code t (Some c) l) as H' by (rewrite <- (take_drop k (sleep_code _ _ _)); set_solver + H).
  clear H. rename H' into H. repeat (apply elem_of_cons in H as [?|H]; [done |]). by apply elem_of_nil in H.
Qed.

(** A step of thread [t] in sleep() that changes no other entry of the table. *)
Lemma inv_own t q s s' f g l acts c k m :
  inv s f -> f t = PSleep l acts c k m -> moved t q s s' f ->
  (kern s').(procs) = alter g t (kern s).(procs) -> cond s' = cond s ->
  entry_ok (kern s').(procs) (cond s) t q ->
  (forall l acts c k m, q = PSleep l acts c k m -> down (kern s').(procs) t k m -> cond s c = true ->
     exists u, u <> t /\ waking (thr s u) (locks s u) t c) ->
  inv s' (<[t := q]> f).
Proof.
  intros I Ef M Ep Ec He Hp. eapply inv_moved; [done | done | |].
  - intros i. rewrite Ec. destruct (decide (t = i)) as [<-|]; [by rewrite fn_insert_eq | rewrite fn_insert_ne by done].
    eapply entry_ext; [by rewrite Ep, list_lookup_alter_ne | apply I].
  - intros i l' acts' c' k' m' Ei Hd Hc. rewrite Ec in Hc.
    assert (exists u, u <> i /\ waking (thr s u) (locks s u) i c') as (u & Hu & Hw).
    { destruct (decide (t = i)) as [<-|]; [rewrite fn_insert_eq in Ei; by eapply Hp |].
      rewrite fn_insert_ne in Ei by done. eapply (v_pending _ _ I); [done | | done].
      eapply down_ext; [|done]. by rewrite Ep, list_lookup_alter_ne. }
    exists u. split; [done |]. rewrite (mv_thr _ _ _ _ _ M), (mv_locks _ _ _ _ _ M). case_decide as E; [|done]. subst u.
    rewrite (v_thr _ _ I), Ef in Hw. by apply sleep_not_waking in Hw.
Qed.

Lemma sleep_awake s f t l acts c k m p :
  inv s f -> f t = PSleep l acts c k m -> (k <> 4 -> k <> 5 \/ m = On)%nat -> k <> 4%nat ->
  (kern s).(procs) !! t = Some p -> p.(p_state) <> SLEEPING.
Proof.
  intros I Ef Hk H4 Hp Hs. destruct (n_asleep _ _ _ _ (v_entry _ _ I t) p Hp Hs) as (? & ? & ? & ? & ? & E & Hk' & _).
  rewrite Ef in E. injection E as <- <- <- <- <-. destruct Hk' as [|[? Hm]]; [done |]. destruct (Hk H4); done.
Qed.

(** The entry of a process that does not sleep yet or any more. *)
Lemma entry_early ps cd t l acts c k m :
  (forall p, ps !! t = Some p -> p.(p_state) <> SLEEPING) -> ((k <= 1)%nat -> cd c = false) ->
  k <> 3%nat -> k <> 4%nat -> entry_ok ps cd t (PSleep l acts c k m).
Proof.
  intros Ha Hc H3 H4. constructor.
  - intros p Hp Hs. by destruct (Ha p Hp).
  - intros ? ? ? ? ? [= <- <- <- <- <-]. done.
  - by intros ? ? ? ? [= <- <- <- -> <-].
  - by intros ? ? ? ? [= <- <- <- -> <-].
Qed.

(** acquire(&p->lock) and release(lk) *)
Lemma inv_sleep_locks s f t l acts c k x r td s' :
  inv s f -> f t = PSleep l acts c k On -> (k <= 1)%nat -> thr s t = mkThread On (x :: r) td ->
  (forall l, x = SAcquire l -> free s l) -> do_stmt x (view s t) = Ok tt s' ->
  inv (move t (mkThread On r td) s'.(held) s' s) (<[t := PSleep l acts c (S k) On]> f).
Proof.
  intros I Ef Hk Et Hfree E. pose proof (v_ok _ _ I t) as Ho. rewrite Ef in Ho. destruct Ho as (Hs & _).
  pose proof (v_locks _ _ I t) as Hl. rewrite Ef in Hl. simpl in Hl. rewrite (v_thr _ _ I), Ef in Et.
  pose proof (n_tested _ _ _ _ (v_entry _ _ I t) _ _ _ _ _ Ef Hk) as Hc. assert (l <> LkProc t) as Hne by apply Hs.
  assert (entry_ok (kern s).(procs) (cond s) t (PSleep l acts c (S k) On)) as He.
  { apply entry_early; [|done | lia | lia]. intros p Hp. eapply sleep_awake; [done | done | lia | lia | done]. }
  destruct k as [|[|k]]; [| |lia]; simpl in Et, Hl; injection Et as <- <- <-.
  - apply acquire_inv in E as [Ep Eh]. rewrite Hl in Eh. eapply sw_inv_still; [done | | done | done | done | |].
    + apply moved_run; [done | rewrite Eh; simpl; set_solver + | by rewrite Ep | split_and!; [done | lia | by left] |].
      rewrite Ef. simpl. intros l' [?%elem_of_singleton|?%elem_of_singleton]%elem_of_union; subst; [set_solver + | right; eauto].
    + intros ? ? ? ? ? [= <- <- <- <- <-] ?. congruence.
    + intros i c' _ _. rewrite Ef. by intros ?%sleep_not_waking.
  - apply release_inv in E as [Ep Eh]. rewrite Hl in Eh. eapply sw_inv_still; [done | | done | done | done | |].
    + apply moved_run; [done | rewrite Eh; simpl; set_solver + Hne | by rewrite Ep | split_and!; [done | lia | by left] |].
      rewrite Ef. simpl. set_solver +.
    + intros ? ? ? ? ? [= <- <- <- <- <-] ?. congruence.
    + intros i c' _ _. rewrite Ef. by intros ?%sleep_not_waking.
Qed.

(** p->chan = chan, p->state = SLEEPING, and p->chan = 0 after the switch *)
Lemma inv_sleep_own s f t l acts c k x r td s' :
  inv s f -> f t = PSleep l acts c k On -> (k = 2 \/ k = 3 \/ k = 5)%nat -> thr s t = mkThread On (x :: r) td ->
  do_stmt x (view s t) = Ok tt s' ->
  inv (move t (mkThread On r td) s'.(held) s' s) (<[t := PSleep l acts c (S k) On]> f).
Proof.
  intros I Ef Hk Et E. pose proof (v_ok _ _ I t) as Ho. rewrite Ef in Ho. destruct Ho as (Hs & _).
  assert (t < NPROC)%nat as Ht by (destruct Hs as [_ Hs]; simpl in Hs; tauto).
  destruct (lookup_lt_is_Some_2 (kern s).(procs) t) as [p Hp]; [by rewrite (v_len _ _ I) |].
  pose proof (v_locks _ _ I t) as Hl. rewrite Ef in Hl. simpl in Hl. rewrite (v_thr _ _ I), Ef in Et.
  assert (p.(p_state) <> SLEEPING) as Hns by (eapply sleep_awake; [done | done | lia || by auto.. | done]).
  destruct Hk as [->|[->| ->]]; simpl in Et, Hl; injection Et as <- <- <-; injection E as <-;
    (eapply (inv_own _ _ _ _ _ _ _ _ _ _ _ I Ef); [| done | done | |]).
  all: try (apply moved_run; [done | done | simpl; by rewrite length_alter | split_and!; [done | lia | by left] |];
    rewrite Ef; simpl; set_solver +).
  - simpl. constructor; rewrite ?list_lookup_alter_eq, ?Hp; simpl; naive_solver lia.
  - intros ? ? ? ? ? [= <- <- <- <- <-] _. eapply (v_pending _ _ I); [done | left; lia].
  - destruct (n_chan _ _ _ _ (v_entry _ _ I t) _ _ _ _ Ef) as (p' & Hp' & Hch). rewrite Hp in Hp'. injection Hp' as <-.
    simpl. constructor; rewrite ?list_lookup_alter_eq, ?Hp; simpl; naive_solver lia.
  - intros ? ? ? ? ? [= <- <- <- <- <-] _. eapply (v_pending _ _ I); [done | left; lia].
  - simpl. apply entry_early; [|lia..]. rewrite list_lookup_alter_eq, Hp. by intros ? [= <-].
  - intros ? ? ? ? ? [= <- <- <- <- <-] [?|[? _]]; lia.
Qed.

(** release(&p->lock) and acquire(lk) *)
Lemma inv_sleep_end s f t l acts c k x r td s' :
  inv s f -> f t = PSleep l acts c k On -> (6 <= k)%nat -> thr s t = mkThread On (x :: r) td ->
  (forall l, x = SAcquire l -> free s l) -> do_stmt x (view s t) = Ok tt s' ->
  exists g, inv (move t (mkThread On r td) s'.(held) s' s) g.
Proof.
  intros I Ef Hk Et Hfree E. pose proof (v_ok _ _ I t) as Ho. rewrite Ef in Ho. destruct Ho as (Hs & Hk8 & _).
  pose proof (v_locks _ _ I t) as Hl. rewrite Ef in Hl. rewrite (v_thr _ _ I), Ef in Et.
  assert (forall p, (kern s).(procs) !! t = Some p -> p.(p_state) <> SLEEPING) as Hns.
  { intros p. eapply sleep_awake; [done | done | lia | lia]. }
  destruct k as [|[|[|[|[|[|[|[|k]]]]]]]]; try lia; simpl in Et, Hl; injection Et as <- <- <-.
  - apply release_inv in E as [Ep Eh]. rewrite Hl, difference_diag_L in Eh. exists (<[t := PSleep l acts c 7 On]> f).
    eapply sw_inv_still; [done | | done | done | by apply entry_early; [|lia..] | |].
    + apply moved_run; [done | done | by rewrite Ep | split_and!; [done | lia | by left] |]. simpl. set_solver +.
    + intros ? ? ? ? ? [= <- <- <- <- <-] [?|[? _]]; lia.
    + intros i c' _ _. rewrite Ef. by intros ?%sleep_not_waking.
  - apply acquire_inv in E as [Ep Eh]. rewrite Hl, union_empty_r_L in Eh. exists (<[t := PNext l (Wait c :: acts)]> f).
    eapply sw_inv_still; [done | | done | done | | done |].
    + apply moved_run; [done | done | by rewrite Ep | done |]. simpl. intros l' ->%elem_of_singleton. right. eauto.
    + constructor; [|done..]. intros p Hp Hsl. by destruct (Hns p Hp).
    + intros i c' _ _. rewrite Ef. by intros ?%sleep_not_waking.
Qed.

Lemma sw_inv_run s f t x k td s' :
  inv s f -> thr s t = mkThread On (x :: k) td -> (forall l, x = SAcquire l -> free s l) ->
  do_stmt x (view s t) = Ok tt s' -> exists g, inv (move t (mkThread On k td) s'.(held) s' s) g.
Proof.
  intros I Et Hfree E. pose proof (v_ok _ _ I t) as Ho. pose proof (v_thr _ _ I t) as Ht. rewrite Et in Ht.
  destruct (f t) as [|l acts|l acts|l|l acts c j n|l acts c n m] eqn:Ef; simpl in Ht; try done.
  - eapply inv_enter_leave; eauto.
  - eapply inv_enter_leave; eauto.
  - by eapply inv_slot.
  - injection Ht as <- Hc _. destruct Ho as (_ & Hn & _).
    destruct (decide (n <= 1)%nat); [eexists; by eapply inv_sleep_locks |].
    destruct (decide (n = 2 \/ n = 3 \/ n = 5)%nat); [eexists; by eapply inv_sleep_own |].
    destruct (decide (n = 4%nat)) as [->|]; [|eapply inv_sleep_end; eauto; lia].
    injection Hc as -> _. by apply sched_not_Ok in E.
Qed.

Lemma inv_swtch s f t x k td s' cont :
  inv s f -> thr s t = mkThread On (x :: k) td -> do_stmt x (view s t) = Sleep s' cont ->
  exists g, inv (move t (mkThread Off k td) (s'.(held) ∖ {[LkProc t]}) s' s) g.
Proof.
  intros I Et E. pose proof (only_sched_sleeps _ _ _ _ _ E) as ->. apply sched_inv in E as ->.
  pose proof (v_ok _ _ I t) as Ho. pose proof (v_thr _ _ I t) as Ht. rewrite Et in Ht. pose proof (v_locks _ _ I t) as Hl.
  destruct (f t) as [|l acts|l acts|l|l acts c j n|l acts c n m] eqn:Ef; simpl in Ht; try done.
  { destruct Ho as (_ & _ & _ & Hn). by destruct n as [|[|[|n]]]; [| | |lia]. }
  destruct Ho as (Hs & Hn & _). injection Ht as <- Hc ->.
  destruct n as [|[|[|[|[|[|[|[|n]]]]]]]]; try done; try lia. injection Hc as ->. simpl in Hl.
  destruct (n_state _ _ _ _ (v_entry _ _ I t) _ _ _ _ Ef) as (p & Hp & Hsl & Hch).
  exists (<[t := PSleep l acts c 5 Off]> f). simpl held. rewrite Hl, difference_diag_L.
  eapply sw_inv_still; [done | | done | done | | |].
  - apply (move_moved t (PSleep l acts c 5 Off)); [done | split_and!; [done | lia | by right] |]. simpl. set_solver +.
  - constructor; [|naive_solver lia..]. intros p' Hp' _. rewrite Hp in Hp'. injection Hp' as <-. naive_solver.
  - intros ? ? ? ? ? [= <- <- <- <- <-] _. eapply (v_pending _ _ I); [done | left; lia].
  - intros i c' _ _. rewrite Ef. by intros ?%sleep_not_waking.
Qed.

(** A thread that is not on a CPU is in the sched() of sleep(). *)
Lemma off_cpu s f t m k td :
  inv s f -> thr s t = mkThread m k td -> m <> On ->
  exists l acts c, f t = PSleep l acts c 5 m /\ section_ok t l (Wait c :: acts) /\
    forall m', mkThread m' k td = thread_of t (PSleep l acts c 5 m').
Proof.
  intros I Et Hm. pose proof (v_ok _ _ I t) as Ho. pose proof (v_thr _ _ I t) as Ht. rewrite Et in Ht.
  destruct (f t) as [|l acts|l acts|l|l acts c j n|l acts c n m'] eqn:Ef; simpl in Ht; try (by injection Ht as ->).
  injection Ht as <- -> ->. destruct Ho as (Hs & Hn & [|Hk]); [done |]. subst n. exists l, acts, c. by split_and!.
Qed.

(** The scheduler takes p->lock of a process, and gives it back. *)
Lemma inv_poll s f t k td (m m' : mode) L :
  inv s f -> thr s t = mkThread m k td -> m <> On -> m' <> On ->
  L = match m' with Off => ∅ | _ => {[LkProc t]} end -> (m = Off -> free s (LkProc t)) ->
  exists g, inv (move t (mkThread m' k td) L (kern s) s) g.
Proof.
  intros I Et Hm Hm' -> Hfree. destruct (off_cpu _ _ _ _ _ _ I Et Hm) as (l & acts & c & Ef & Hs & Ek).
  exists (<[t := PSleep l acts c 5 m']> f). rewrite Ek.
  eapply sw_inv_still; [done | | done | done | | |].
  - apply (move_moved t (PSleep l acts c 5 m')); [done | split_and!; [done | lia | by right] |]. rewrite Ef. simpl.
    destruct m'; [done | set_solver +|]. destruct m; [done | | by left]. intros ? ->%elem_of_singleton. right. by apply Hfree.
  - destruct (v_entry _ _ I t) as [N1 N2 N3 N4]. constructor; [|naive_solver lia..]. intros p Hp Hsl.
    destruct (N1 p Hp Hsl) as (? & ? & ? & ? & ? & E & _ & Hch). rewrite Ef in E. naive_solver.
  - intros ? ? ? ? ? [= <- <- <- <- <-] [?|(_ & _ & Hd)]; [lia |]. eapply (v_pending _ _ I); [done |]. right. by split_and!.
  - intros i c' _ _. rewrite Ef. by intros ?%sleep_not_waking.
Qed.

Lemma inv_resume s f t k td p :
  inv s f -> thr s t = mkThread Polled k td -> (kern s).(procs) !! t = Some p ->
  exists g, inv (move t (mkThread On k td) (locks s t)
    (set_procs (alter (set_p_state RUNNING) t (kern s).(procs)) (kern s)) s) g.
Proof.
  intros I Et Hp. destruct (off_cpu _ _ _ _ _ _ I Et) as (l & acts & c & Ef & Hs & Ek); [done |].
  exists (<[t := PSleep l acts c 5 On]> f). rewrite Ek, (v_locks _ _ I t), Ef.
  eapply (inv_own _ _ _ _ _ _ _ _ _ _ _ I Ef); [| done | done | |].
  - apply (move_moved t (PSleep l acts c 5 On)); [simpl; by rewrite length_alter | split_and!; [done | lia | by left] |].
    rewrite Ef. by left.
  - simpl. apply entry_early; [|lia..]. rewrite list_lookup_alter_eq, Hp. by intros ? [= <-].
  - intros ? ? ? ? ? [= <- <- <- <- <-] [?|(_ & ? & _)]; [lia | done].
Qed.

Lemma sw_inv_kill s f j : inv s f -> free s (LkProc j) ->
  inv (mkSt (set_procs (alter kill_proc j (kern s).(procs)) (kern s)) (lkm s) (cond s) (thr s)) f.
Proof.
  intros I Hfree.
  assert (forall k l acts c m, f j = PSleep l acts c k m -> (k = 0 \/ k = 5 /\ m = Off \/ k = 7)%nat) as Hk.
  { intros k l acts c m Ef. pose proof (v_ok _ _ I j) as Ho. rewrite Ef in Ho. destruct Ho as (_ & Ho & _).
    pose proof (Hfree j) as Hn. rewrite (v_locks _ _ I), Ef in Hn.
    destruct k as [|[|[|[|[|[|[|[|k]]]]]]]]; simpl in Hn; try (set_solver + Hn); try lia.
    destruct m; [set_solver + Hn | by auto | set_solver + Hn]. }
  assert (forall i p, alter kill_proc j (kern s).(procs) !! i = Some p -> p.(p_state) = SLEEPING ->
    i <> j /\ (kern s).(procs) !! i = Some p) as Hs.
  { intros i p. destruct (decide (i = j)) as [->|]; [|by rewrite list_lookup_alter_ne].
    rewrite list_lookup_alter_eq. intros (p' & -> & ->)%fmap_Some_1. unfold kill_proc. simpl. by case_bool_decide. }
  constructor; simpl; [by rewrite length_alter; apply I | apply I.. | |].
  - intros i. destruct (v_entry _ _ I i) as [N1 N2 N3 N4]. constructor; [|done | |].
    + intros p Hp Hsl. destruct (Hs i p Hp Hsl) as [_ Hp']. eauto.
    + intros l acts c m Ef. destruct (decide (i = j)) as [->|]; [destruct (Hk _ _ _ _ _ Ef); lia |].
      rewrite list_lookup_alter_ne by done. eauto.
    + intros l acts c m Ef. destruct (decide (i = j)) as [->|]; [destruct (Hk _ _ _ _ _ Ef); lia |].
      rewrite list_lookup_alter_ne by done. eauto.
  - intros i l acts c k m Ef Hd. apply (v_pending _ _ I i l acts c k m Ef).
    destruct Hd as [?|(? & ? & p & Hp & Hsl)]; [by left | right]. split_and!; [done | done |]. exists p.
    split; [|done]. by apply Hs.
Qed.

(** ** The critical sections *)

Lemma at_action s f t l acts :
  inv s f -> thr s t = mkThread On [] (Some (l, acts)) -> f t = PNext l acts /\ section_ok t l acts.
Proof.
  intros I Et. pose proof (v_ok _ _ I t) as Ho. pose proof (v_thr _ _ I t) as Ht. rewrite Et in Ht.
  destruct (f t) as [|l' acts'|l' acts'|l'|l' acts' c j n|l' acts' c n m] eqn:Ef; simpl in Ht; try done.
  - by injection Ht as -> ->.
  - destruct Ho as (_ & _ & _ & Hn). destruct n as [|[|[|n]]]; [done.. | lia].
  - destruct Ho as (_ & Hn & _). destruct n as [|[|[|[|[|[|[|[|n]]]]]]]]; done || lia.
Qed.

Lemma wakes_mono c i i' acts : (i <= i')%nat -> wakes c i acts -> wakes c i' acts.
Proof. intros Hi. induction acts as [|[] acts IH]; simpl; [done | done | tauto |]. intros [[-> ?]|?]; [left; lia || by split; [|lia] | tauto]. Qed.

Lemma inv_wait s f t l c acts : inv s f -> thr s t = mkThread On [] (Some (l, Wait c :: acts)) ->
  exists g, inv (set_thr t (if cond s c then mkThread On [] (Some (l, acts))
                            else mkThread On (sleep_code t (Some c) l) (Some (l, Wait c :: acts))) s) g.
Proof.
  intros I Et. destruct (at_action _ _ _ _ _ I Et) as [Ef Ho]. destruct (cond s c) eqn:Hc.
  - exists (<[t := PNext l acts]> f). eapply inv_awake; [done | | done | done | by rewrite Ef | done |].
    + apply (set_thr_moved t (PNext l acts)); [done | by eapply section_tail | by rewrite Ef].
    + intros i c' _ _. rewrite Ef. intros [H|(l' & acts' & [= <- <-] & _ & [])]. set_solver + H.
  - exists (<[t := PSleep l acts c 0 On]> f). eapply sw_inv_still; [done | | done | done | | |].
    + apply (set_thr_moved t (PSleep l acts c 0 On)); [done | split_and!; [done | lia | by left] | by rewrite Ef].
    + apply entry_early; [|done..]. intros p Hp Hs.
      destruct (n_asleep _ _ _ _ (v_entry _ _ I t) p Hp Hs) as (? & ? & ? & ? & ? & E & _). by rewrite Ef in E.
    + intros ? ? ? ? ? [= <- <- <- <- <-]. congruence.
    + intros i c' _ _. rewrite Ef. intros [H|(l' & acts' & [= <- <-] & _ & [])]. set_solver + H.
Qed.

Lemma inv_assign s f t l c b acts : inv s f -> thr s t = mkThread On [] (Some (l, Assign c b :: acts)) ->
  exists g, inv (mkSt (kern s) (lkm s) (<[c := b]> (cond s)) (<[t := mkThread On [] (Some (l, acts))]> (thr s))) g.
Proof.
  intros I Et. destruct (at_action _ _ _ _ _ I Et) as [Ef Ho]. pose proof (section_tail _ _ _ _ Ho) as Ho'.
  destruct Ho as [Hm (Hlk & Hw & _)].
  assert (forall x, (<[c := b]> (cond s)) x = if decide (x = c) then b else cond s x) as Hcd.
  { intros x. unfold insert, fn_insert. repeat case_decide; congruence. }
  assert (forall i l' acts' c' k m, f i = PSleep l' acts' c' k m -> i <> t) as Hne by (intros ? ? ? ? ? ? Ei ->; congruence).
  exists (<[t := PNext l acts]> f). eapply inv_moved; [done | | |].
  - destruct (set_thr_moved t (PNext l acts) s f I) as [M1 M2 M3 M4 M5]; [done | by rewrite Ef | by constructor].
  - intros i. simpl. destruct (decide (t = i)) as [<-|Hti].
    { rewrite fn_insert_eq. constructor; [|done..]. intros p Hp Hs.
      destruct (n_asleep _ _ _ _ (v_entry _ _ I t) p Hp Hs) as (? & ? & ? & ? & ? & E & _). by rewrite Ef in E. }
    rewrite fn_insert_ne by done. destruct (v_entry _ _ I i) as [N1 N2 N3 N4]. constructor; [done | | done | done].
    intros l' acts' c' k m Ei Hk. rewrite Hcd. case_decide as Hcc; [|by eapply N2]. exfalso. subst c'.
    pose proof (v_ok _ _ I i) as Hoi. rewrite Ei in Hoi. destruct Hoi as ([_ [Hl' _]] & _).
    destruct Hti. apply (v_excl _ _ I t i l); rewrite (v_locks _ _ I), ?Ef, ?Ei; simpl; [set_solver + |].
    rewrite <- Hlk, Hl'. destruct k as [|[|k]]; [set_solver + | set_solver + | lia].
  - intros i l' acts' c' k m Ei Hd Hc. simpl in *. rewrite Hcd in Hc.
    destruct (decide (t = i)) as [<-|Hti]; [by rewrite fn_insert_eq in Ei |]. rewrite fn_insert_ne in Ei by done.
    destruct (decide (c' = c)) as [->|Hcc].
    + exists t. split; [done |]. rewrite fn_insert_eq. right. exists l, acts.
      split_and!; [done | change (l ∈ locks s t); rewrite (v_locks _ _ I), Ef; set_solver + |]. apply (wakes_mono _ 0); [lia | auto].
    + destruct (v_pending _ _ I i _ _ _ _ _ Ei Hd Hc) as (u & Hu & Hwk). exists u. split; [done |].
      destruct (decide (t = u)) as [<-|]; [rewrite fn_insert_eq | by rewrite fn_insert_ne]. rewrite Et in Hwk.
      destruct Hwk as [H|(? & ? & [= <- <-] & ? & [_ H])]; [set_solver + H | right; eauto 6].
Qed.

Lemma inv_wakeup s f t l c j acts : inv s f -> thr s t = mkThread On [] (Some (l, Wakeup c j :: acts)) ->
  exists g, inv (set_thr t (if decide (j < NPROC)%nat
                            then mkThread On (wake_slot (me t) (Some c) j) (Some (l, Wakeup c (S j) :: acts))
                            else mkThread On [] (Some (l, acts))) s) g.
Proof.
  intros I Et. destruct (at_action _ _ _ _ _ I Et) as [Ef Ho]. pose proof (section_tail _ _ _ _ Ho) as Ho'.
  assert (forall i c', waking (thread_of t (PNext l (Wakeup c j :: acts))) {[l]} i c' -> (c = c' /\ (j <= i)%nat) \/ wakes c' i acts) as Hwk.
  { intros i c' [H|(l' & acts' & [= <- <-] & _ & H)]; [set_solver + H | done]. }
  assert (forall i c' q, todo (thread_of t q) = Some (l, Wakeup c (S j) :: acts) -> l ∈ locks_of t q ->
    (c = c' /\ (S j <= i)%nat) \/ wakes c' i acts -> waking (thread_of t q) (locks_of t q) i c') as Hwk'.
  { intros i c' q Hq Hl H. right. eexists _, _. split_and!; [exact Hq | done | done]. }
  case_decide as Hj; [unfold wake_slot; case_bool_decide as Hme |].
  - exists (<[t := PNext l (Wakeup c (S j) :: acts)]> f). eapply inv_awake; [done | | done | done | by rewrite Ef | done |].
    + apply (set_thr_moved t (PNext l (Wakeup c (S j) :: acts))); [done | done | by rewrite Ef].
    + intros i c' Hi _. rewrite Ef. intros [[-> Hji]|H]%Hwk; (apply Hwk'; [done | set_solver + |]); [left | by right].
      split; [done |]. assert (i <> j); [|lia]. intros ->. unfold me in Hme. case_decide; congruence.
  - exists (<[t := PSlot l (Wakeup c (S j) :: acts) c j 0]> f). eapply inv_awake; [done | | done | done | by rewrite Ef | done |].
    + apply (set_thr_moved t (PSlot l (Wakeup c (S j) :: acts) c j 0)); [done | split_and!; [done | done | done | lia] | by rewrite Ef].
    + intros i c' Hi _. rewrite Ef. intros [[-> Hji]|H]%Hwk; [|apply Hwk'; [done | set_solver + | by right]].
      destruct (decide (i = j)) as [->|]; [left; simpl; set_solver + |]. apply Hwk'; [done | set_solver + |]. left. split; [done | lia].
  - exists (<[t := PNext l acts]> f). eapply inv_awake; [done | | done | done | by rewrite Ef | done |].
    + apply (set_thr_moved t (PNext l acts)); [done | done | by rewrite Ef].
    + intros i c' Hi Hn. rewrite Ef. intros [[-> Hji]|H]%Hwk; [lia |].
      right; eexists _, _; split_and!; [done | set_solver + | done].
Qed.

Lemma sw_inv_step s f s' : inv s f -> step s s' -> exists g, inv s' g.
Proof.
  intros I Hst. destruct Hst as [s t l acts Et Ho|s t l c acts Et|s t l c b acts Et|s t l c j acts Et|s t l Et
    |s t x k td s' Et Hfree E|s t x k td s' cont Et E|s t k td Et Hfree|s t k td p Et Hp Hr|s t k td p Et Hp Hr|s j Hfree].
  - pose proof (v_thr _ _ I t) as Ht. rewrite Et in Ht. pose proof (v_ok _ _ I t) as Ho'.
    destruct (f t) as [|l' acts'|l' acts'|l'|l' acts' c j n|l' acts' c n m] eqn:Ef; simpl in Ht; try done.
    exists (<[t := PEnter l acts]> f). eapply inv_awake; [done | | done | done | by rewrite Ef | done |].
    + apply (set_thr_moved t (PEnter l acts)); [done | done | by rewrite Ef].
    + intros i c _ _. rewrite Ef. intros [H|(? & ? & ? & _)]; [set_solver + H | done].
  - by eapply inv_wait.
  - by eapply inv_assign.
  - by eapply inv_wakeup.
  - destruct (at_action _ _ _ _ _ I Et) as [Ef [Hm _]]. exists (<[t := PLeave l]> f).
    eapply inv_awake; [done | | done | done | by rewrite Ef | done |].
    + apply (set_thr_moved t (PLeave l)); [done | done | by rewrite Ef].
    + intros i c _ _. rewrite Ef. intros [H|(? & ? & [= <- <-] & _ & [])]. set_solver + H.
  - by eapply sw_inv_run.
  - by eapply inv_swtch.
  - destruct (off_cpu _ _ _ _ _ _ I Et) as (l & acts & c & Ef & _); [done |].
    eapply inv_poll; [done | done | done | done | | done]. rewrite (v_locks _ _ I), Ef. simpl. set_solver +.
  - destruct (off_cpu _ _ _ _ _ _ I Et) as (l & acts & c & Ef & _); [done |].
    eapply inv_poll; [done | done | done | done | | done]. rewrite (v_locks _ _ I), Ef. simpl. set_solver +.
  - by eapply inv_resume.
  - eexists. by eapply sw_inv_kill.
Qed.

Lemma sw_inv_initial s : initial s -> inv s (fun _ => PIdle).
Proof.
  intros (Hlen & Hs & Hl & Ht). constructor; try done.
  - intros t. unfold locks. rewrite Hl. by rewrite lookup_total_empty.
  - intros t u l H1. unfold locks in H1. rewrite Hl, lookup_total_empty in H1. by apply not_elem_of_empty in H1.
  - intros i. constructor; [|done..]. intros p Hp Hsl. by destruct (Hs i p Hp).
Qed.

Lemma sw_inv_reachable s s' : initial s -> rtc step s s' -> exists f, inv s' f.
Proof.
  intros Hi Hr. assert (exists f, inv s f) as Hf by (eexists; by apply sw_inv_initial). clear Hi.
  induction Hr as [|x y z Hst _ IH]; [done |]. destruct Hf as [f I]. apply IH. by eapply sw_inv_step.
Qed.

(** ** Progress *)

Definition runnable (s : st) (i : nat) : Prop :=
  exists p, (kern s).(procs) !! i = Some p /\ p.(p_state) = RUNNABLE.

(** A step of thread [u] alone, after which process [i] still sleeps or is runnable. *)
Record only (u i : nat) (c : chan) (s s' : st) : Prop := {
  o_step : step s s';
  o_cond : cond s' = cond s;
  o_thr t : t <> u -> thr s' t = thr s t;
  o_locks t : t <> u -> locks s' t = locks s t;
  o_asleep : asleep s' i c \/ runnable s' i;
}.

Lemma asleep_ext s s' i c : (kern s').(procs) !! i = (kern s).(procs) !! i -> asleep s i c -> asleep s' i c.
Proof. unfold asleep. by intros ->. Qed.

(** The process that sleeps is off its CPU, or about to be. *)
Lemma asleep_pos s f i c : inv s f -> asleep s i c ->
  exists l acts k m, f i = PSleep l acts c k m /\ (k = 4%nat \/ k = 5%nat /\ m <> On).
Proof.
  intros I (p & Hp & Hs & Hc). destruct (n_asleep _ _ _ _ (v_entry _ _ I i) p Hp Hs) as (l & acts & c' & k & m & Ef & Hk & Hc').
  rewrite Hc in Hc'. injection Hc' as <-. by exists l, acts, k, m.
Qed.

Lemma only_run u i c s x k td s' :
  thr s u = mkThread On (x :: k) td -> (forall l, x = SAcquire l -> free s l) -> do_stmt x (view s u) = Ok tt s' ->
  (asleep (move u (mkThread On k td) s'.(held) s' s) i c \/ runnable (move u (mkThread On k td) s'.(held) s' s) i) ->
  only u i c s (move u (mkThread On k td) s'.(held) s' s).
Proof.
  intros Et Hf E Hi. constructor; [by eapply st_run | done | | | done].
  - intros t Ht. by rewrite thr_move, decide_False.
  - intros t Ht. by rewrite locks_move, decide_False.
Qed.

Lemma only_release u i c s l k td :
  thr s u = mkThread On (SRelease l :: k) td -> l ∈ locks s u -> asleep s i c ->
  exists s', only u i c s s' /\ thr s' u = mkThread On k td /\ locks s' u = locks s u ∖ {[l]}.
Proof.
  intros Et Hl Ha. pose proof (release_Ok l (view s u) Hl) as E.
  eexists. split; [eapply only_run; [done | done | exact E | left; exact Ha] |]. by rewrite thr_move, locks_move, !decide_True.
Qed.

Lemma only_acquire u i c s l k td :
  thr s u = mkThread On (SAcquire l :: k) td -> free s l -> asleep s i c ->
  exists s', only u i c s s' /\ thr s' u = mkThread On k td /\ locks s' u = {[l]} ∪ locks s u.
Proof.
  intros Et Hl Ha. pose proof (acquire_Ok l (view s u) (Hl u)) as E.
  eexists. split; [eapply only_run; [done | naive_solver | exact E | left; exact Ha] |]. by rewrite thr_move, locks_move, !decide_True.
Qed.

(** A change of another entry of the table. *)
Lemma only_upd u i c s x j k td :
  thr s u = mkThread On (x :: k) td -> (exists y, x = SChan j y) \/ (exists y, x = SState j y) -> asleep s i c -> i <> j ->
  exists s', only u i c s s' /\ thr s' u = mkThread On k td /\ locks s' u = locks s u.
Proof.
  intros Et Hx Ha Hij.
  assert (exists g, do_stmt x (view s u) = Ok tt (set_procs (alter g j (kern s).(procs)) (view s u))) as [g E].
  { destruct Hx as [[y ->]|[y ->]]; by eexists. }
  eexists. split; [eapply only_run; [done | naive_solver | exact E | left] |].
  - eapply asleep_ext; [|exact Ha]. simpl. by rewrite list_lookup_alter_ne.
  - by rewrite thr_move, locks_move, !decide_True.
Qed.

Lemma only_rouse u i c s j c' k td :
  thr s u = mkThread On (SRouse j c' :: k) td -> (j < length (kern s).(procs))%nat -> asleep s i c ->
  exists s', only u i c s s' /\ thr s' u = mkThread On k td /\ locks s' u = locks s u /\
    (j = i -> c' = Some c -> runnable s' i).
Proof.
  intros Et [p Hp]%lookup_lt_is_Some_2 Ha.
  assert (exists s', do_stmt (SRouse j c') (view s u) = Ok tt s') as [s' E].
  { simpl. erewrite bind_Ok by (by apply get_proc_Ok). unfold when. case_match; by eexists. }
  destruct (rouse_inv _ _ _ _ _ p Hp E) as [Ep Eh]. exists (move u (mkThread On k td) s'.(held) s' s).
  assert (let s1 := move u (mkThread On k td) s'.(held) s' s in
    (asleep s1 i c \/ runnable s1 i) /\ (j = i -> c' = Some c -> runnable s1 i)) as [H1 H2].
  { cbv zeta. destruct (decide (j = i)) as [->|Hij].
    2: { split; [left | done]. eapply asleep_ext; [|exact Ha]. simpl. by rewrite Ep, list_lookup_alter_ne. }
    destruct Ha as (p' & Hp' & Hs & Hc). rewrite Hp in Hp'. injection Hp' as <-.
    unfold asleep, runnable. simpl. rewrite Ep, list_lookup_alter_eq, Hp. simpl. unfold wake. simpl.
    rewrite Hs, Hc, bool_decide_eq_true_2 by done. simpl. case_bool_decide; naive_solver. }
  split_and!; [eapply only_run; [done | naive_solver | done | done] | by rewrite thr_move, decide_True | by rewrite locks_move, decide_True | done].
Qed.

(** sched() by a process that has set its state. *)
Lemma only_sched u i c s f k td :
  inv s f -> (exists l acts c', f u = PSleep l acts c' 4 On) -> thr s u = mkThread On (SSched :: k) td -> asleep s i c ->
  exists s', only u i c s s' /\ locks s' u = ∅.
Proof.
  intros I (l & acts & c' & Ef) Et Ha. pose proof (v_locks _ _ I u) as Hl. rewrite Ef in Hl. simpl in Hl.
  pose proof (v_ok _ _ I u) as Ho. rewrite Ef in Ho. destruct Ho as [[_ (_ & Hu & _)] _].
  destruct (n_state _ _ _ _ (v_entry _ _ I u) _ _ _ _ Ef) as (p & Hp & Hs & _).
  assert (do_stmt SSched (view s u) = Sleep (view s u) (fun s' => Ok tt s')) as E.
  { cbn [do_stmt]. rewrite (sched_run u _ p).
    - by rewrite decide_True by (simpl; rewrite Hl; apply size_singleton).
    - simpl. unfold me. by rewrite decide_True.
    - done.
    - simpl. rewrite Hl. set_solver +.
    - by rewrite Hs. }
  eexists. split; [constructor; [by eapply st_swtch | done | | | left; exact Ha] |].
  - intros t Ht. by rewrite thr_move, decide_False.
  - intros t Ht. by rewrite locks_move, decide_False.
  - rewrite locks_move, decide_True by done. simpl. rewrite Hl. set_solver +.
Qed.

(** The scheduler gives up p->lock, or the process that it resumes goes on to do so. *)
Lemma only_polled u i c s f k td :
  inv s f -> thr s u = mkThread Polled k td -> asleep s i c ->
  exists s', only u i c s s' /\ (locks s' u = ∅ \/ thr s' u = mkThread On k td /\ locks s' u = locks s u).
Proof.
  intros I Et Ha. destruct (off_cpu _ _ _ _ _ _ I Et) as (l & acts & c' & Ef & [_ (_ & Hu & _)] & _); [done |].
  pose proof (v_locks _ _ I u) as Hl. rewrite Ef in Hl. simpl in Hl.
  destruct (lookup_lt_is_Some_2 (kern s).(procs) u) as [p Hp]; [by rewrite (v_len _ _ I) |].
  destruct (decide (p.(p_state) = RUNNABLE)) as [Hr|Hr].
  - eexists. split; [constructor; [by eapply st_resume | done | | | left] |].
    + intros t Ht. by rewrite thr_move, decide_False.
    + intros t Ht. by rewrite locks_move, decide_False.
    + eapply asleep_ext; [|exact Ha]. simpl. rewrite list_lookup_alter_ne; [done |]. intros ->.
      destruct Ha as (p' & Hp' & Hs & _). congruence.
    + right. by rewrite thr_move, locks_move, !decide_True.
  - eexists. split; [constructor; [by eapply st_idle | done | | | left; exact Ha] |].
    + intros t Ht. by rewrite thr_move, decide_False.
    + intros t Ht. by rewrite locks_move, decide_False.
    + left. rewrite locks_move, decide_True, Hl by done. set_solver +.
Qed.

Definition weight (th : thread) : nat := 2 * length (code th) + match md th with Polled => 1 | _ => 0 end.

(** Who holds a process lock can go on, towards its release. *)
Lemma holder_step u i c s f j :
  inv s f -> asleep s i c -> LkProc j ∈ locks s u ->
  exists s', only u i c s s' /\ (LkProc j ∉ locks s' u \/ (weight (thr s' u) < weight (thr s u))%nat).
Proof.
  intros I Ha Hj. destruct (asleep_pos _ _ _ _ I Ha) as (li & ai & ki & mi & Ei & Hki).
  pose proof (v_locks _ _ I u) as Hl. pose proof (v_ok _ _ I u) as Ho. pose proof (v_thr _ _ I u) as Et.
  assert (forall th k s', thr s u = mkThread On (th :: k) (todo (thr s u)) -> thr s' u = mkThread On k (todo (thr s u)) ->
    (weight (thr s' u) < weight (thr s u))%nat) as Hw.
  { intros th k s' E1 E2. rewrite E1, E2. unfold weight. simpl. lia. }
  destruct (f u) as [|l acts|l acts|l|l acts c' j' n|l acts c' n m] eqn:Ef; rewrite Hl in Hj; simpl in Hj, Et;
    try (set_solver + Hj).
  - apply elem_of_singleton in Hj. by destruct (proj1 Ho j).
  - apply elem_of_singleton in Hj. by destruct (Ho j).
  - destruct Ho as ([Hm _] & Hj' & _ & Hn). destruct n as [|[|[|n]]]; simpl in *; [| | |lia].
    + apply elem_of_singleton in Hj. by destruct (Hm j).
    + destruct (only_rouse u i c s j' (Some c') _ _ Et) as (s' & H1 & H2 & _); [by rewrite (v_len _ _ I) | done |].
      exists s'. split; [done | right]. eapply Hw; rewrite Et; [done | exact H2].
    + destruct (only_release u i c s (LkProc j') _ _ Et) as (s' & H1 & _ & H3); [rewrite Hl; set_solver + | done |].
      exists s'. split; [done | left]. rewrite H3, Hl. pose proof (Hm j). set_solver.
  - destruct Ho as ([Hm _] & Hn & Hmn). destruct n as [|[|[|[|[|[|[|[|n]]]]]]]]; simpl in *; try (set_solver + Hj); try lia;
      try (destruct Hmn as [->|]; [|lia]).
    + apply elem_of_singleton in Hj. by destruct (Hm j).
    + destruct (only_release u i c s l _ _ Et) as (s' & H1 & H2 & _); [rewrite Hl; set_solver + | done |].
      exists s'. split; [done | right]. eapply Hw; rewrite Et; [done | exact H2].
    + destruct (only_upd u i c s _ u _ _ Et) as (s' & H1 & H2 & _); [eauto | done | intros ->; rewrite Ei in Ef; simplify_eq; naive_solver |].
      exists s'. split; [done | right]. eapply Hw; rewrite Et; [done | exact H2].
    + destruct (only_upd u i c s _ u _ _ Et) as (s' & H1 & H2 & _); [eauto | done | intros ->; rewrite Ei in Ef; simplify_eq; naive_solver |].
      exists s'. split; [done | right]. eapply Hw; rewrite Et; [done | exact H2].
    + destruct (only_sched u i c s f _ _ I ltac:(eauto) Et Ha) as (s' & H1 & H2). exists s'. split; [done | left]. rewrite H2. set_solver +.
    + destruct m; [| set_solver + Hj |].
      * destruct (only_upd u i c s _ u _ _ Et) as (s' & H1 & H2 & _); [eauto | done | intros ->; rewrite Ei in Ef; simplify_eq; naive_solver |].
        exists s'. split; [done | right]. eapply Hw; rewrite Et; [done | exact H2].
      * destruct (only_polled u i c s f _ _ I Et Ha) as (s' & H1 & H2). exists s'. split; [done |].
        destruct H2 as [H2|[H2 _]]; [left; rewrite H2; set_solver + | right]. rewrite H2, Et. unfold weight. simpl. lia.
    + destruct (only_release u i c s (LkProc u) _ _ Et) as (s' & H1 & _ & H3); [rewrite Hl; set_solver + | done |].
      exists s'. split; [done | left]. rewrite H3, Hl. set_solver +.
Qed.

(** So a process lock can become free, with every other thread where it was. *)
Lemma holder_run u i c j : forall w s f,
  (weight (thr s u) <= w)%nat -> inv s f -> asleep s i c -> LkProc j ∈ locks s u ->
  exists s' g, rtc step s s' /\ inv s' g /\ cond s' = cond s /\ (forall t, t <> u -> thr s' t = thr s t /\ locks s' t = locks s t) /\
    (runnable s' i \/ asleep s' i c /\ free s' (LkProc j)).
Proof.
  induction w as [w IH] using lt_wf_ind. intros s f Hw I Ha Hj.
  destruct (holder_step u i c s f j I Ha Hj) as (s1 & [O1 O2 O3 O4 O5] & Hs1). destruct (sw_inv_step _ _ _ I O1) as [g1 I1].
  destruct O5 as [Ha1|Hr]; [|exists s1, g1; split_and!; auto using rtc_once].
  destruct (decide (LkProc j ∈ locks s1 u)) as [Hj1|Hj1].
  - destruct Hs1 as [?|Hs1]; [done |].
    destruct (IH (weight (thr s1 u)) ltac:(lia) s1 g1) as (s2 & g2 & R & I2 & C2 & T2 & H2); try done.
    exists s2, g2. split_and!; [by eapply rtc_l | done | congruence | | done].
    intros t Ht. destruct (T2 t Ht) as [-> ->]. auto.
  - exists s1, g1. split_and!; auto using rtc_once. right. split; [done |]. intros t Ht.
    destruct (decide (t = u)) as [->|Hne]; [done |]. rewrite O4 in Ht by done. destruct Hne. by eapply I.
Qed.

Definition act_weight (a : act) : nat := match a with Wakeup _ j => 1 + 4 * (S NPROC - j) | _ => 1 end.
Definition ahead (th : thread) : nat :=
  length (code th) + match todo th with Some (_, acts) => sum_list (act_weight <$> acts) | None => 0 end.

(** A waker in the loop of wakeup() can go on when the lock it wants is free. *)
Lemma waker_slot t i c s f l acts c' j k :
  inv s f -> asleep s i c -> f t = PSlot l acts c' j k -> waking (thr s t) (locks s t) i c ->
  (k = 0%nat -> free s (LkProc j)) ->
  exists s', only t i c s s' /\ (runnable s' i \/ waking (thr s' t) (locks s' t) i c /\ (ahead (thr s' t) < ahead (thr s t))%nat).
Proof.
  intros I Ha Ef Hwk Hfree. pose proof (v_locks _ _ I t) as Hl. pose proof (v_ok _ _ I t) as Ho. pose proof (v_thr _ _ I t) as Et.
  rewrite Ef in Hl, Ho, Et. destruct Ho as ([Hm _] & Hj & _ & Hk). rewrite Et, Hl in Hwk.
  destruct k as [|[|[|k]]]; [| | |lia]; simpl in Hl, Et, Hwk.
  - destruct (only_acquire t i c s (LkProc j) _ _ Et) as (s' & H1 & H2 & H3); [auto | done |].
    exists s'. split; [done | right]. rewrite H2, H3, Hl, Et. split; [|unfold ahead; simpl; lia].
    destruct Hwk as [Hwk|(l' & acts' & [= <- <-] & _ & Hwk)]; [left; set_solver + Hwk |].
    right. exists l, acts. split_and!; [done | set_solver + | done].
  - destruct (only_rouse t i c s j (Some c') _ _ Et) as (s' & H1 & H2 & H3 & H4); [by rewrite (v_len _ _ I) | done |].
    exists s'. split; [done |]. rewrite H2, H3, Hl, Et. destruct Hwk as [Hwk|Hwk].
    + simpl in Hwk. apply elem_of_cons in Hwk as [[= -> ->]|Hwk]; [left; by apply H4 | set_solver + Hwk].
    + right. split; [by right | unfold ahead; simpl; lia].
  - destruct (only_release t i c s (LkProc j) _ _ Et) as (s' & H1 & H2 & H3); [rewrite Hl; set_solver + | done |].
    exists s'. split; [done | right]. rewrite H2, H3, Hl, Et. split; [|unfold ahead; simpl; lia].
    destruct Hwk as [Hwk|(l' & acts' & [= <- <-] & _ & Hwk)]; [set_solver + Hwk |].
    right. exists l, acts. split_and!; [done | pose proof (Hm j); set_solver | done].
Qed.

(** A waker between two calls of its critical section can go on. *)
Lemma waker_next t i c s f l acts :
  inv s f -> asleep s i c -> cond s c = true -> t <> i -> f t = PNext l acts -> waking (thr s t) (locks s t) i c ->
  exists s', step s s' /\ cond s' c = true /\ asleep s' i c /\
    waking (thr s' t) (locks s' t) i c /\ (ahead (thr s' t) < ahead (thr s t))%nat.
Proof.
  intros I Ha Hc Hti Ef Hwk. destruct (asleep_pos _ _ _ _ I Ha) as (li & ai & ki & mi & Ei & _).
  pose proof (v_ok _ _ I i) as Hoi. rewrite Ei in Hoi. destruct Hoi as [[_ (_ & Hi & _)] _].
  pose proof (v_locks _ _ I t) as Hl. pose proof (v_thr _ _ I t) as Et. rewrite Ef in Hl, Et. simpl in Hl, Et.
  rewrite Et, Hl in Hwk. destruct Hwk as [Hwk|(l' & acts' & [= <- <-] & _ & Hwk)]; [set_solver + Hwk |].
  assert (forall r, wakes c i r -> waking (mkThread On [] (Some (l, r))) (locks s t) i c) as Hend.
  { intros r Hr. right. exists l, r. split_and!; [done | rewrite Hl; set_solver + | done]. }
  destruct acts as [|[c'|c' b|c' j] acts]; simpl in Hwk; try done.
  - destruct Hwk as [Hb Hwk]. eexists. split; [by eapply st_assign |]. simpl. rewrite fn_insert_eq.
    split_and!; [|done | auto | rewrite Et; unfold ahead; csimpl; lia].
    unfold insert, fn_insert. case_decide; auto.
  - eexists. split; [by eapply st_slot |]. simpl. rewrite fn_insert_eq. split; [done |]. split; [exact Ha |].
    rewrite Et. case_decide as Hj.
    2: { split; [|unfold ahead; csimpl; lia]. apply Hend. destruct Hwk as [[_ ?]|]; [lia | done]. }
    assert (length (wake_slot (me t) (Some c') j) <= 3)%nat as Hlen by (unfold wake_slot; case_bool_decide; simpl; lia).
    split; [|unfold ahead; csimpl in *; lia].
    destruct (decide (c' = c /\ i = j)) as [[-> ->]|Hne].
    + left. simpl. unfold wake_slot. rewrite bool_decide_eq_false_2; [set_solver + |].
      unfold me. case_decide; congruence.
    + right. exists l, (Wakeup c' (S j) :: acts). split_and!; [done | change (l ∈ locks s t); rewrite Hl; set_solver + |]. simpl.
      destruct Hwk as [[-> ?]|]; [left | by right]. split; [done |]. destruct (decide (i = j)); [tauto | lia].
Qed.

(** So it can go on until process [i] is runnable. *)
Lemma waker_run t i c : forall w s f,
  (ahead (thr s t) <= w)%nat -> inv s f -> asleep s i c -> cond s c = true -> t <> i -> waking (thr s t) (locks s t) i c ->
  exists s', rtc step s s' /\ cond s' c = true /\ runnable s' i.
Proof.
  induction w as [w IH] using lt_wf_ind. intros s f Hw I Ha Hc Hti Hwk.
  assert (forall s1, rtc step s s1 -> cond s1 c = true -> asleep s1 i c -> waking (thr s1 t) (locks s1 t) i c ->
    (ahead (thr s1 t) < ahead (thr s t))%nat -> exists s', rtc step s s' /\ cond s' c = true /\ runnable s' i) as Hgo.
  { intros s1 R1 C1 A1 W1 L1.
    assert (exists g, inv s1 g) as [g I1].
    { assert (exists g, inv s g) as Hx by eauto. clear -R1 Hx. induction R1 as [|x y z Hst _ IH]; [done |].
      destruct Hx as [g I]. apply IH. by eapply sw_inv_step. }
    destruct (IH (ahead (thr s1 t)) ltac:(lia) s1 g) as (s' & R & H); try done. exists s'. split; [by etrans | done]. }
  assert (forall s1, only t i c s s1 -> runnable s1 i \/ waking (thr s1 t) (locks s1 t) i c /\ (ahead (thr s1 t) < ahead (thr s t))%nat ->
    exists s', rtc step s s' /\ cond s' c = true /\ runnable s' i) as Hgo1.
  { intros s1 [O1 O2 _ _ O5] H.
    destruct H as [H|[H1 H2]]; [exists s1; split_and!; [by apply rtc_once | by rewrite O2 | done] |].
    destruct O5 as [O5|O5]; [|exists s1; split_and!; [by apply rtc_once | by rewrite O2 | done]].
    apply (Hgo s1); [by apply rtc_once | by rewrite O2 | done..]. }
  pose proof (v_thr _ _ I t) as Et. pose proof (v_locks _ _ I t) as Hl.
  destruct (f t) as [|l acts|l acts|l|l acts c' j n|l acts c' n m] eqn:Ef; rewrite Et, Hl in Hwk.
  - destruct Hwk as [Hwk|(? & ? & ? & _)]; [set_solver + Hwk | done].
  - destruct Hwk as [Hwk|(? & ? & _ & Hwk & _)]; set_solver + Hwk.
  - destruct (waker_next t i c s f l acts) as (s1 & H1 & H2 & H3 & H4 & H5); try done; [by rewrite Et, Hl |].
    apply (Hgo s1); [by apply rtc_once | done..].
  - destruct Hwk as [Hwk|(? & ? & ? & _)]; [set_solver + Hwk | done].
  - rewrite <- Hl, <- Et in Hwk. destruct (free_or_held s (LkProc j)) as [Hf|[u Hu]].
    { destruct (waker_slot t i c s f l acts c' j n) as (s1 & H1 & H2); eauto. }
    destruct (decide (n = 0%nat)) as [->|Hn]; [|destruct (waker_slot t i c s f l acts c' j n) as (s1 & H1 & H2); eauto; done].
    assert (t <> u) as Htu.
    { intros <-. rewrite Hl in Hu. simpl in Hu. apply elem_of_singleton in Hu. pose proof (v_ok _ _ I t) as Ho. rewrite Ef in Ho.
      destruct Ho as [[Hm _] _]. by destruct (Hm j). }
    destruct (holder_run u i c j _ s f (le_n _) I Ha Hu) as (s1 & g & R1 & I1 & C1 & T1 & H1).
    destruct H1 as [H1|[A1 F1]]; [exists s1; split_and!; [done | by rewrite C1 | done] |].
    destruct (T1 t Htu) as [E1 E2].
    assert (thr s1 t = mkThread On (slot_code c' j) (Some (l, acts))) as Et1 by (by rewrite E1, Et).
    destruct (only_acquire t i c s1 (LkProc j) _ _ Et1 F1 A1) as (s2 & [O1 O2 _ _ O5] & T2 & L2).
    destruct O5 as [A2|H2]; [|exists s2; split_and!; [by eapply rtc_r | by rewrite O2, C1 | done]].
    apply (Hgo s2); [by eapply rtc_r | by rewrite O2, C1 | done | | rewrite T2, Et; unfold ahead; simpl; lia].
    rewrite T2, L2, E2. rewrite Et in Hwk. destruct Hwk as [Hwk|(? & ? & [= <- <-] & Hll & Hwk)]; [left; set_solver + Hwk |].
    right. exists l, acts. split_and!; [done | set_solver + Hll | done].
  - by apply sleep_not_waking in Hwk.
Qed.

(** C22. No wakeup is lost.  Any number of processes and interrupt handlers run critical
    sections in which they wait for conditions with sleep(), change them and call
    wakeup(), interleaved statement by statement, with schedulers and with kill().
    Whenever a process sleeps on a channel although its condition holds, another thread
    has still to examine that process in a wakeup() on the channel, in the critical
    section it is in; and from there a run exists that makes the process RUNNABLE with
    the condition still true: no lock stands in the way. *)
Theorem no_lost_wakeup s s' i c :
  initial s -> rtc step s s' -> asleep s' i c -> cond s' c = true ->
  (exists t, t <> i /\ waking (thr s' t) (locks s' t) i c) /\
  (exists s'', rtc step s' s'' /\ cond s'' c = true /\ runnable s'' i).
Proof.
  intros Hi Hr Ha Hc. destruct (sw_inv_reachable _ _ Hi Hr) as [f I].
  destruct (asleep_pos _ _ _ _ I Ha) as (l & acts & k & m & Ef & Hk).
  assert (down (kern s').(procs) i k m) as Hd.
  { destruct Hk as [->|[-> Hm]]; [left; lia | right]. destruct Ha as (p & Hp & Hs & _). by eauto. }
  destruct (v_pending _ _ I i l acts c k m Ef Hd Hc) as (t & Ht & Hw). split; [by eauto |].
  by eapply waker_run.
Qed.
End protocol.
End SleepWakeup.
