(* ===== verification/Scheduler.v ===== *)
(** * The scheduler on several CPUs (scheduler(), sched() and the other users of p->lock of
    kernel/proc.c)

    Each CPU runs scheduler(), one statement at a time; when it has switched to a process it
    runs the process, of which the model keeps what it does to p->lock and p->state: yield(),
    sleep(), exit(), wakeup(), kill(), fork() and wait().  Interrupts that come while a CPU is
    in scheduler() wake processes too.  In every interleaving a process is on one CPU at most,
    and no process that can run waits for more than a round of any CPU. *)

From stdpp Require Import functions.
From S2P Require Import Prelude State.

Module Scheduler.

(** What a process does to another one, under the other one's lock. *)
Inductive act :=
| Look    (* killed(), setkilled(), and the scans that change nothing *)
| Rouse   (* wakeup(), kill(): if(p->state == SLEEPING) p->state = RUNNABLE *)
| Alloc   (* allocproc() from fork(): if(p->state == UNUSED) p->state = USED *)
| Fork    (* fork(): np->state = RUNNABLE *)
| Reap.   (* wait(): if(pp->state == ZOMBIE) freeproc(pp) *)

(** Control points of a process that is on a CPU. *)
Inductive ppc :=
| Resumed                         (* back from swtch() in sched(), or in forkret(): release(&p->lock) *)
| Free                            (* anywhere, no process lock held *)
| Leaving (st : procstate)        (* yield(), sleep(), exit(): own lock held, p->state = st *)
| Switching                       (* sched(): swtch(&p->context, &c->context) *)
| Acting (j : nat) (a : act)      (* the lock of j held *)
| Unlocking (j : nat).            (* release(&q->lock) *)

#[export] Instance act_eq_dec : EqDecision act.
Proof. solve_decision. Defined.
#[export] Instance ppc_eq_dec : EqDecision ppc.
Proof. solve_decision. Defined.

(** Control points of scheduler(). *)
Inductive pc :=
| Top                             (* found = 0; p = proc *)
| AtLock (i : nat)                (* acquire(&p->lock) *)
| AtTest (i : nat)                (* if(p->state == RUNNABLE) *)
| AtRunning (i : nat)             (* p->state = RUNNING *)
| AtProc (i : nat)                (* c->proc = p *)
| AtSwtch (i : nat)               (* swtch(&c->context, &p->context) *)
| InProc (i : nat) (k : ppc)
| AtBack (i : nat)                (* c->proc = 0; found = 1 *)
| AtRelease (i : nat)             (* release(&p->lock); p++ *)
| AtFound                         (* if(found == 0) *)
| Wfi                             (* wfi *)
| Intr (j : nat) (back : nat)     (* an interrupt at AtLock back: wakeup() has the lock of j *)
| IntrUnlock (j : nat) (back : nat).

Record cpu := mkCpu {
  at_ : pc;
  c_proc : option nat;   (* c->proc *)
  found : bool;
  rounds : nat;          (* how often the for loop has started *)
}.

Record st := mkSt {
  cpus : nat -> cpu;
  plock : nat -> option nat;       (* which CPU holds p->lock *)
  pstate : nat -> procstate;       (* p->state *)
  np : nat -> option nat;          (* the local np of a process inside fork() *)
}.

Definition set_pc (x : pc) (c : cpu) : cpu := mkCpu x c.(c_proc) c.(found) c.(rounds).

(** CPU [c] goes to [x]. *)
Definition go (c : nat) (x : pc) (s : st) : st := mkSt (<[c := set_pc x (s.(cpus) c)]> s.(cpus)) s.(plock) s.(pstate) s.(np).
Definition put (c : nat) (x : cpu) (s : st) : st := mkSt (<[c := x]> s.(cpus)) s.(plock) s.(pstate) s.(np).
Definition lock (i : nat) (o : option nat) (s : st) : st := mkSt s.(cpus) (<[i := o]> s.(plock)) s.(pstate) s.(np).
Definition store (i : nat) (x : procstate) (s : st) : st := mkSt s.(cpus) s.(plock) (<[i := x]> s.(pstate)) s.(np).
Definition set_np (i : nat) (o : option nat) (s : st) : st := mkSt s.(cpus) s.(plock) s.(pstate) (<[i := o]> s.(np)).

(** acquire(): [None] while another CPU holds the lock. *)
Definition take (c i : nat) (x : pc) (s : st) : option st :=
  match s.(plock) i with None => Some (go c x (lock i (Some c) s)) | Some _ => None end.

(** What process [i] does to [j] under the lock of [j]. *)
Definition act_on (i j : nat) (a : act) (s : st) : st :=
  match a, s.(pstate) j with
  | Rouse, SLEEPING => store j RUNNABLE s
  | Alloc, UNUSED => set_np i (Some j) (store j USED s)
  | Fork, _ => set_np i None (store j RUNNABLE s)
  | Reap, ZOMBIE => store j UNUSED s
  | _, _ => s
  end.

(** The next statement of the process on [c]. *)
Definition proc_step (c i : nat) (k : ppc) (s : st) : option st :=
  match k with
  | Resumed => Some (go c (InProc i Free) (lock i None s))
  | Free => None
  | Leaving x => Some (go c (InProc i Switching) (store i x s))
  | Switching => Some (go c (AtBack i) s)
  | Acting j a => Some (go c (InProc i (Unlocking j)) (act_on i j a s))
  | Unlocking j => Some (go c (InProc i Free) (lock j None s))
  end.

(** The next statement of CPU [c], in scheduler() or in a process. *)
Definition sched_step (c : nat) (s : st) : option st :=
  let x := s.(cpus) c in
  match x.(at_) with
  | Top => Some (put c (mkCpu (AtLock 0) x.(c_proc) false (S x.(rounds))) s)
  | AtLock i => if (i <? NPROC)%nat then take c i (AtTest i) s else Some (go c AtFound s)
  | AtTest i => Some (go c (if bool_decide (s.(pstate) i = RUNNABLE) then AtRunning i else AtRelease i) s)
  | AtRunning i => Some (go c (AtProc i) (store i RUNNING s))
  | AtProc i => Some (put c (mkCpu (AtSwtch i) (Some i) x.(found) x.(rounds)) s)
  | AtSwtch i => Some (go c (InProc i Resumed) s)
  | InProc i k => proc_step c i k s
  | AtBack i => Some (put c (mkCpu (AtRelease i) None true x.(rounds)) s)
  | AtRelease i => Some (go c (AtLock (S i)) (lock i None s))
  | AtFound => Some (go c (if x.(found) then Top else Wfi) s)
  | Wfi => Some (go c Top s)
  | Intr j b => Some (go c (IntrUnlock j b) (act_on 0 j Rouse s))
  | IntrUnlock j b => Some (go c (AtLock b) (lock j None s))
  end.

Inductive label :=
| Next (c : nat)                     (* the next statement *)
| Leave (c : nat) (x : procstate)    (* the process calls yield(), sleep() or exit(), and acquires its lock *)
| Do (c : nat) (j : nat) (a : act)   (* the process acquires the lock of [j] *)
| Interrupt (c : nat) (j : nat).     (* an interrupt in scheduler(), where no lock is held *)

(** fork() allocates one process at a time, and stores RUNNABLE only in the one it allocated. *)
Definition allowed (i j : nat) (a : act) (s : st) : bool :=
  match a with
  | Alloc => bool_decide (s.(np) i = None)
  | Fork => bool_decide (s.(np) i = Some j)
  | _ => true
  end.

Definition exec (l : label) (s : st) : option st :=
  match l with
  | Next c => sched_step c s
  | Leave c x =>
      match (s.(cpus) c).(at_), x with
      | InProc i Free, (RUNNABLE | SLEEPING) => take c i (InProc i (Leaving x)) s
      | InProc i Free, ZOMBIE => if bool_decide (s.(np) i = None) then take c i (InProc i (Leaving x)) s else None
      | _, _ => None
      end
  | Do c j a => match (s.(cpus) c).(at_) with InProc i Free => if allowed i j a s then take c j (InProc i (Acting j a)) s else None | _ => None end
  | Interrupt c j => match (s.(cpus) c).(at_) with AtLock b => take c j (Intr j b) s | _ => None end
  end.

Definition step (s s' : st) : Prop := exists l, exec l s = Some s'.

(** What main() leaves: process 0 can run, the other slots are unused, every CPU calls scheduler(). *)
Definition initial : st :=
  mkSt (fun _ => mkCpu Top None false 0) (fun _ => None) (fun i => if decide (i = 0%nat) then RUNNABLE else UNUSED) (fun _ => None).

(** ** The invariant *)

(** The process lock a CPU holds. *)
Definition holds (x : pc) : option nat :=
  match x with
  | AtTest i | AtRunning i | AtProc i | AtSwtch i | AtBack i | AtRelease i => Some i
  | InProc i (Resumed | Leaving _ | Switching) => Some i
  | InProc _ (Acting j _ | Unlocking j) => Some j
  | Intr j _ | IntrUnlock j _ => Some j
  | _ => None
  end.

(** The process a CPU runs: it uses its stack and its saved registers. *)
Definition runs (x : pc) : option nat :=
  match x with AtProc i | AtSwtch i | InProc i _ => Some i | _ => None end.

(** c->proc *)
Definition current (x : pc) : option nat :=
  match x with AtSwtch i | InProc i _ | AtBack i => Some i | _ => None end.

(** Its state: RUNNING, until it has stored another one, which only happens under its lock. *)
Definition state_ok (x : pc) (st : procstate) : Prop :=
  match x with
  | InProc _ Switching => st <> RUNNING
  | AtProc _ | AtSwtch _ | InProc _ _ => st = RUNNING
  | AtRunning _ => st = RUNNABLE
  | _ => True
  end.

Definition leaving_ok (x : pc) : Prop := match x with InProc _ (Leaving y) => y <> RUNNING | _ => True end.
Definition fork_ok (x : pc) (s : st) : Prop :=
  match x with InProc i (Acting j Fork) => s.(np) i = Some j | InProc i (Acting j Alloc) => s.(np) i = None | _ => True end.

Notation pc_of s c := ((s.(cpus) c).(at_)).

Record inv (s : st) : Prop := {
  i_lock c j : holds (pc_of s c) = Some j <-> s.(plock) j = Some c;
  i_one c c' i : runs (pc_of s c) = Some i -> runs (pc_of s c') = Some i -> c = c';
  i_state c i : runs (pc_of s c) = Some i -> state_ok (pc_of s c) (s.(pstate) i);
  i_test c i : pc_of s c = AtRunning i -> s.(pstate) i = RUNNABLE;
  i_running i : s.(pstate) i = RUNNING -> exists c, runs (pc_of s c) = Some i;
  i_current c : (s.(cpus) c).(c_proc) = current (pc_of s c);
  i_leaving c : leaving_ok (pc_of s c);
  i_fork c : fork_ok (pc_of s c) s;
  i_np i j : s.(np) i = Some j -> s.(pstate) j = USED;
  i_np1 i i' j : s.(np) i = Some j -> s.(np) i' = Some j -> i = i';
}.

Lemma upd_eq {A} (f : nat -> A) i x j : (<[i := x]> f) j = if decide (i = j) then x else f j.
Proof. unfold insert, fn_insert. by repeat case_decide. Qed.

Lemma sched_inv_initial : inv initial.
Proof. constructor; cbn; try done. intros i. by case_decide. Qed.

(** Only one CPU holds a lock. *)
Lemma held_once s c c' j : inv s -> holds (pc_of s c) = Some j -> holds (pc_of s c') = Some j -> c = c'.
Proof. intros I H1 H2. apply (i_lock s I) in H1, H2. congruence. Qed.

(** A process that is not RUNNING, under its lock, is on no other CPU. *)
Lemma not_elsewhere s c c' j : inv s -> holds (pc_of s c) = Some j -> s.(pstate) j <> RUNNING -> runs (pc_of s c') = Some j -> c' = c.
Proof.
  intros I Hh Hn Hr. pose proof (i_state s I c' j Hr) as Hs. apply (held_once s c' c j I); [|done].
  destruct (pc_of s c') as [| | | | | |? []| | | | | |]; cbn in *; congruence.
Qed.

(** Case analysis on which CPU, process or lock a fact is about. *)
Ltac upd := cbn [cpus plock pstate np go put lock store set_np at_ c_proc set_pc found rounds] in *; rewrite ?upd_eq in *; repeat case_decide; subst; cbn [at_ c_proc set_pc found rounds] in *.

(** A CPU whose lock and process stay the same moves on. *)
Lemma inv_move s c x : inv s -> holds x.(at_) = holds (pc_of s c) -> runs x.(at_) = runs (pc_of s c) -> x.(c_proc) = current x.(at_) ->
  (forall i, runs x.(at_) = Some i -> state_ok x.(at_) (s.(pstate) i)) -> (forall i, x.(at_) = AtRunning i -> s.(pstate) i = RUNNABLE) -> leaving_ok x.(at_) -> fork_ok x.(at_) s ->
  inv (put c x s).
Proof.
  intros I Hh Hr Hc Hs Ht Hl Hf. constructor.
  - intros c' j. upd; [rewrite Hh|]; apply (i_lock s I).
  - intros c1 c2 i. upd; rewrite ?Hr; intros; by eapply (i_one s I).
  - intros c' i. upd; [apply Hs | apply (i_state s I)].
  - intros c' i. upd; [apply Ht | apply (i_test s I)].
  - intros i Hi. destruct (i_running s I i Hi) as [c' Hc']. exists c'. upd; congruence.
  - intros c'. upd; [done | apply (i_current s I)].
  - intros c'. upd; [done | apply (i_leaving s I)].
  - intros c'. upd; [done | apply (i_fork s I)].
  - apply (i_np s I).
  - apply (i_np1 s I).
Qed.

(** acquire() and release(). *)
Lemma inv_relock s c j x (o : bool) : inv s -> holds (pc_of s c) = (if o then None else Some j) -> holds x = (if o then Some j else None) -> (if o then s.(plock) j = None else True) ->
  runs x = runs (pc_of s c) -> current x = current (pc_of s c) -> (forall i, runs x = Some i -> state_ok x (s.(pstate) i)) -> (forall i, x <> AtRunning i) ->
  leaving_ok x -> fork_ok x s -> inv (go c x (lock j (if o then Some c else None) s)).
Proof.
  intros I Ho Hx Hp Hr Hc Hs Ht Hl Hf. constructor.
  - intros c' k. pose proof (i_lock s I c' k) as Hk. pose proof (i_lock s I c k) as Hck. upd; destruct o; rewrite ?Hx, ?Ho in *; naive_solver.
  - intros c1 c2 i. upd; rewrite ?Hr; intros; by eapply (i_one s I).
  - intros c' i. upd; [apply Hs | apply (i_state s I)].
  - intros c' i. upd; [intros E; by destruct (Ht i) | apply (i_test s I)].
  - intros i Hi. destruct (i_running s I i Hi) as [c' Hc']. exists c'. upd; congruence.
  - intros c'. upd; [rewrite Hc|]; apply (i_current s I).
  - intros c'. upd; [done | apply (i_leaving s I)].
  - intros c'. upd; [done | apply (i_fork s I)].
  - apply (i_np s I).
  - apply (i_np1 s I).
Qed.

(** The scheduler has found a process to run. *)
Lemma inv_run s c i : inv s -> pc_of s c = AtRunning i -> inv (go c (AtProc i) (store i RUNNING s)).
Proof.
  intros I E. pose proof (i_test s I c i E) as Hst. assert (forall c', runs (pc_of s c') <> Some i) as Hno.
  { intros c' Hr. assert (c' = c) as -> by (eapply not_elsewhere; [done | by rewrite E | by rewrite Hst | done]). by rewrite E in Hr. }
  constructor.
  - intros c' j. pose proof (i_lock s I c' j) as Hk. upd; [by rewrite E in Hk | done].
  - intros c1 c2 k. pose proof (i_one s I c1 c2 k). pose proof (Hno c1). pose proof (Hno c2). upd; naive_solver.
  - intros c' k. pose proof (i_state s I c' k) as Hs. pose proof (Hno c'). upd; naive_solver.
  - intros c' k Hc. assert (i = k -> c = c') as Hik by (intros ->; upd; [done | apply (held_once s c c' k I); [by rewrite E | by rewrite Hc]]). pose proof (i_test s I c' k). upd; try done; naive_solver.
  - intros k Hk. destruct (decide (i = k)) as [<-|Hne]; [exists c; by upd |]. upd; [done |]. destruct (i_running s I k Hk) as [c' Hc']. exists c'. upd; [|done]. by rewrite E in Hc'.
  - intros c'. pose proof (i_current s I c') as Hc. upd; [by rewrite E in Hc | done].
  - intros c'. pose proof (i_leaving s I c'). by upd.
  - intros c'. pose proof (i_fork s I c'). by upd.
  - intros k j Hk. pose proof (i_np s I k j Hk). upd; congruence.
  - apply (i_np1 s I).
Qed.

(** The process stores another state, under its lock. *)
Lemma inv_leave s c i y : inv s -> pc_of s c = InProc i (Leaving y) -> inv (go c (InProc i Switching) (store i y s)).
Proof.
  intros I E. assert (runs (pc_of s c) = Some i) as Hr by (by rewrite E). pose proof (i_leaving s I c) as Hy. rewrite E in Hy. cbn in Hy. pose proof (i_state s I c i Hr) as Hst. rewrite E in Hst. cbn in Hst.
  constructor.
  - intros c' j. pose proof (i_lock s I c' j) as Hk. upd; [by rewrite E in Hk | done].
  - intros c1 c2 k. pose proof (i_one s I c1 c2 k). upd; rewrite ?E in *; naive_solver.
  - intros c' k Hc. destruct (decide (c = c')) as [<-|Hne]; upd; try congruence; try naive_solver; [exfalso; apply Hne; by eapply (i_one s I) | by apply (i_state s I)].
  - intros c' k Hc. assert (i = k -> c = c') as Hik by (intros ->; upd; [done | apply (held_once s c c' k I); [by rewrite E | by rewrite Hc]]). pose proof (i_test s I c' k). upd; try done; naive_solver.
  - intros k Hk. upd; [done |]. destruct (i_running s I k Hk) as [c' Hc']. exists c'. upd; [|done]. rewrite E in Hc'. naive_solver.
  - intros c'. pose proof (i_current s I c') as Hc. upd; [by rewrite E in Hc | done].
  - intros c'. pose proof (i_leaving s I c'). by upd.
  - intros c'. pose proof (i_fork s I c'). by upd.
  - intros k j Hk. pose proof (i_np s I k j Hk). upd; congruence.
  - apply (i_np1 s I).
Qed.

(** It switches back to the scheduler. *)
Lemma inv_back s c i : inv s -> pc_of s c = InProc i Switching -> inv (go c (AtBack i) s).
Proof.
  intros I E. assert (runs (pc_of s c) = Some i) as Hr by (by rewrite E). pose proof (i_state s I c i Hr) as Hst. rewrite E in Hst. cbn in Hst. constructor.
  - intros c' j. pose proof (i_lock s I c' j) as Hk. upd; [by rewrite E in Hk | done].
  - intros c1 c2 k. pose proof (i_one s I c1 c2 k). upd; naive_solver.
  - intros c' k. pose proof (i_state s I c' k). upd; naive_solver.
  - intros c' k. pose proof (i_test s I c' k). upd; naive_solver.
  - intros k Hk. destruct (i_running s I k Hk) as [c' Hc']. exists c'. upd; [|done]. rewrite E in Hc'. naive_solver.
  - intros c'. pose proof (i_current s I c') as Hc. upd; [by rewrite E in Hc | done].
  - intros c'. pose proof (i_leaving s I c'). by upd.
  - intros c'. pose proof (i_fork s I c'). by upd.
  - apply (i_np s I).
  - apply (i_np1 s I).
Qed.

(** A process that is not running gets another state, from a CPU that does not run it. *)
Lemma inv_idle s c x j y (n : nat -> option nat) : inv s -> holds (pc_of s c) = Some j -> holds x = Some j -> runs (pc_of s c) <> Some j -> runs x = runs (pc_of s c) ->
  current x = current (pc_of s c) -> (forall i, runs x = Some i -> state_ok x (s.(pstate) i)) -> pc_of s c <> AtRunning j -> (forall i, x <> AtRunning i) -> leaving_ok x -> (forall s', fork_ok x s') ->
  s.(pstate) j <> RUNNING -> y <> RUNNING -> (forall i, Some i <> runs x -> n i = s.(np) i) -> (forall i k, n i = Some k -> (<[j := y]> s.(pstate)) k = USED) ->
  (forall i i' k, n i = Some k -> n i' = Some k -> i = i') -> inv (go c x (mkSt s.(cpus) s.(plock) (<[j := y]> s.(pstate)) n)).
Proof.
  intros I Hh Hx Hnr Hr Hc Hs Hp Ht Hl Hf Hst Hy Hn Hn1 Hn2.
  assert (forall c', runs (pc_of s c') <> Some j) as Hno by (intros c' Hj; assert (c' = c) as -> by (by eapply not_elsewhere); done).
  constructor.
  - intros c' k. pose proof (i_lock s I c' k) as Hk. upd; congruence.
  - intros c1 c2 i. upd; rewrite ?Hr; intros; by eapply (i_one s I).
  - intros c' i Hi. pose proof (i_state s I c' i). pose proof (Hno c'). upd; try congruence; auto.
  - intros c' i Hi. destruct (decide (c = c')) as [<-|]; upd; try (by destruct (Ht i)); [|by eapply (i_test s I)]. exfalso. assert (c = c'); [|done]. eapply (held_once s); [done | done | by rewrite Hi].
  - intros i Hi. upd; [done |]. destruct (i_running s I i Hi) as [c' Hc']. exists c'. upd; congruence.
  - intros c'. pose proof (i_current s I c'). upd; congruence.
  - intros c'. pose proof (i_leaving s I c'). by upd.
  - intros c'. pose proof (i_fork s I c') as Hf'. upd; [apply Hf |]. assert (forall i, runs (pc_of s c') = Some i -> n i = s.(np) i) as Hni by (intros i Hi; apply Hn; rewrite Hr; intros E; symmetry in E; by pose proof (i_one s I c c' i E Hi)).
    unfold fork_ok in *. destruct (pc_of s c') as [| | | | | |i []| | | | | |]; try done. cbn [np]. rewrite Hni by done. done.
  - done.
  - done.
Qed.

(** A CPU moves on, and nothing else changes. *)
Lemma inv_go s c x : inv s -> holds x = holds (pc_of s c) -> runs x = runs (pc_of s c) -> current x = current (pc_of s c) ->
  (forall i, runs x = Some i -> state_ok x (s.(pstate) i)) -> (forall i, x = AtRunning i -> s.(pstate) i = RUNNABLE) -> leaving_ok x -> fork_ok x s -> inv (go c x s).
Proof. intros I Hh Hr Hc. apply (inv_move s c (set_pc x (s.(cpus) c)) I Hh Hr). cbn. rewrite Hc. apply (i_current s I). Qed.

Lemma running_of s c i k : inv s -> pc_of s c = InProc i k -> k <> Switching -> s.(pstate) i = RUNNING.
Proof. intros I E Hk. pose proof (i_state s I c i) as Hs. rewrite E in Hs. specialize (Hs eq_refl). by destruct k. Qed.

(** wakeup() and kill(), from a process or from an interrupt. *)
Lemma inv_rouse s c x i j : inv s -> holds (pc_of s c) = Some j -> holds x = Some j -> (runs (pc_of s c) = Some j -> s.(pstate) j = RUNNING) -> runs x = runs (pc_of s c) ->
  current x = current (pc_of s c) -> (forall k, runs x = Some k -> state_ok x (s.(pstate) k)) -> pc_of s c <> AtRunning j -> (forall k, x <> AtRunning k) -> leaving_ok x -> (forall s', fork_ok x s') ->
  inv (go c x (act_on i j Rouse s)).
Proof.
  intros I Hh Hx Hj Hr Hc Hs Hp Ht Hl Hf. unfold act_on. destruct (s.(pstate) j) eqn:Ej; try (apply inv_go; [done | congruence | done | done | done | intros k Hk; by destruct (Ht k) | done | done]).
  apply (inv_idle s c x j RUNNABLE s.(np)); try done; try congruence; [intros Hk; by specialize (Hj Hk) | | apply (i_np1 s I)].
  intros k q Hk. rewrite upd_eq. pose proof (i_np s I k q Hk). case_decide; congruence.
Qed.

Lemma inv_act s c i j a : inv s -> pc_of s c = InProc i (Acting j a) -> inv (go c (InProc i (Unlocking j)) (act_on i j a s)).
Proof.
  intros I E. pose proof (running_of s c i _ I E ltac:(done)) as Hi. pose proof (i_fork s I c) as Hf. rewrite E in Hf. cbn in Hf.
  assert (forall s' : st, s' = s -> inv (go c (InProc i (Unlocking j)) s')) as Hsame.
  { intros ? ->. apply inv_go; rewrite ?E; try done. cbn. congruence. }
  assert (forall y n, s.(pstate) j <> RUNNING -> y <> RUNNING -> (forall k, k <> i -> n k = s.(np) k) -> (forall k q, n k = Some q -> (<[j := y]> s.(pstate)) q = USED) ->
    (forall k k' q, n k = Some q -> n k' = Some q -> k = k') -> inv (go c (InProc i (Unlocking j)) (mkSt s.(cpus) s.(plock) (<[j := y]> s.(pstate)) n))) as Hset.
  { intros y n Hj Hy Hn Hn1 Hn2. apply inv_idle; rewrite ?E; try done; cbn; try congruence. intros k Hk. apply Hn. congruence. }
  destruct a; [by apply Hsame | | | |].
  - apply inv_rouse; rewrite ?E; try done; cbn; congruence.
  - cbn [act_on]. destruct (s.(pstate) j) eqn:Ej; try (by apply Hsame). apply Hset; try done.
    + intros k Hk. rewrite upd_eq. by case_decide.
    + intros k q. rewrite !upd_eq. case_decide; [intros [= ->]; by case_decide |]. intros Hk%(i_np s I). by case_decide.
    + intros k k' q. rewrite !upd_eq. repeat case_decide; intros Hk Hk'; simplify_eq; try done; [| |by eapply (i_np1 s I)]; exfalso; [apply (i_np s I) in Hk' | apply (i_np s I) in Hk]; congruence.
  - pose proof (i_np s I i j Hf) as Ej. apply Hset; try done; try congruence.
    + intros k Hk. rewrite upd_eq. by case_decide.
    + intros k q. rewrite !upd_eq. case_decide; [done |]. intros Hk. case_decide; [|by apply (i_np s I k)]. subst. exfalso. by pose proof (i_np1 s I k i _ Hk Hf).
    + intros k k' q. rewrite !upd_eq. repeat case_decide; try done. apply (i_np1 s I).
  - cbn [act_on]. destruct (s.(pstate) j) eqn:Ej; try (by apply Hsame). apply (Hset UNUSED s.(np)); try done; [|apply (i_np1 s I)].
    intros k q Hk. rewrite upd_eq. pose proof (i_np s I k q Hk). case_decide; congruence.
Qed.

Lemma take_inv s c j x s' : take c j x s = Some s' -> s.(plock) j = None /\ s' = go c x (lock j (Some c) s).
Proof. unfold take. destruct (s.(plock) j); naive_solver. Qed.

Lemma inv_proc s s' c i k : inv s -> pc_of s c = InProc i k -> proc_step c i k s = Some s' -> inv s'.
Proof.
  intros I E Hs. assert (k <> Switching -> s.(pstate) i = RUNNING) as Hi by (by apply (running_of s c i k I)).
  destruct k; cbn in Hs; simplify_eq; [|by apply inv_leave | by apply inv_back | by apply inv_act |].
  all: apply (inv_relock s c _ _ false I); rewrite ?E; try done; cbn; intros; simplify_eq; by apply Hi.
Qed.

Lemma inv_sched s s' c : inv s -> sched_step c s = Some s' -> inv s'.
Proof.
  intros I Hs. unfold sched_step in Hs. cbv zeta in Hs. pose proof (i_current s I c) as Hcur. destruct (pc_of s c) as [|i|i|i|i|i|i k|i|i| | |j b|j b] eqn:E; cbn iota in Hs; cbn in Hcur.
  - injection Hs as <-. apply inv_move; rewrite ?E; done.
  - destruct (i <? NPROC)%nat eqn:Ei; [|injection Hs as <-; apply inv_go; rewrite ?E; done]. apply take_inv in Hs as [Hp ->]. apply (inv_relock s c i _ true I); rewrite ?E; done.
  - injection Hs as <-. case_bool_decide; (apply inv_go; rewrite ?E; try done). intros ? [= <-]. done.
  - injection Hs as <-. by apply inv_run.
  - injection Hs as <-. pose proof (i_state s I c i) as Hst. rewrite E in Hst. apply inv_move; rewrite ?E; try done. cbn. intros ? [= <-]. by apply Hst.
  - injection Hs as <-. pose proof (i_state s I c i) as Hst. rewrite E in Hst. apply inv_go; rewrite ?E; try done. cbn. intros ? [= <-]. by apply Hst.
  - by eapply inv_proc.
  - injection Hs as <-. apply inv_move; rewrite ?E; done.
  - injection Hs as <-. apply (inv_relock s c _ _ false I); rewrite ?E; done.
  - injection Hs as <-. destruct (found (s.(cpus) c)); (apply inv_go; rewrite ?E; done).
  - injection Hs as <-. apply inv_go; rewrite ?E; done.
  - injection Hs as <-. apply (inv_rouse s c (IntrUnlock j b) 0 j); rewrite ?E; done.
  - injection Hs as <-. apply (inv_relock s c _ _ false I); rewrite ?E; done.
Qed.

Lemma sched_inv_step s s' : inv s -> step s s' -> inv s'.
Proof.
  intros I [[c | c x | c j a | c j] Hs]; cbn in Hs; [by eapply inv_sched | | |].
  - destruct (pc_of s c) as [| | | | | |i []| | | | | |] eqn:E; try done. pose proof (running_of s c i _ I E ltac:(done)) as Hi.
    assert (x <> RUNNING /\ take c i (InProc i (Leaving x)) s = Some s') as [Hx Ht] by (destruct x; try done; case_bool_decide; done).
    apply take_inv in Ht as [Hp ->]. apply (inv_relock s c i _ true I); rewrite ?E; try done. cbn. by intros ? [= <-].
  - destruct (pc_of s c) as [| | | | | |i []| | | | | |] eqn:E; try done. pose proof (running_of s c i _ I E ltac:(done)) as Hi.
    destruct (allowed i j a s) eqn:Ha; [|done]. apply take_inv in Hs as [Hp ->]. apply (inv_relock s c j _ true I); rewrite ?E; try done; [cbn; by intros ? [= <-] |].
    destruct a; try done; cbn in *; by apply bool_decide_eq_true in Ha.
  - destruct (pc_of s c) as [|b| | | | | | | | | | |] eqn:E; try done. apply take_inv in Hs as [Hp ->]. apply (inv_relock s c j _ true I); rewrite ?E; done.
Qed.

Lemma sched_inv_reachable s : rtc step initial s -> inv s.
Proof. intros Hr. pose proof sched_inv_initial as I. induction Hr; eauto using sched_inv_step. Qed.

(** C23. However the CPUs interleave, a process is on one CPU at most, from before the switch to its stack until the
    switch away from it is complete; myproc() is that process; a process that is RUNNING is on a CPU, and a
    process on a CPU is RUNNING until it has stored another state, with its lock held, on the way to sched(), so
    that sched() never panics; and two CPUs never hold the lock of the same process. *)
Theorem one_cpu_per_process s : rtc step initial s ->
  (forall c c' i, runs (pc_of s c) = Some i -> runs (pc_of s c') = Some i -> c = c') /\
  (forall c i k, pc_of s c = InProc i k -> (s.(cpus) c).(c_proc) = Some i /\
    (if decide (k = Switching) then s.(plock) i = Some c /\ s.(pstate) i <> RUNNING else s.(pstate) i = RUNNING)) /\
  (forall i, s.(pstate) i = RUNNING -> exists c, runs (pc_of s c) = Some i) /\
  (forall c c' i, holds (pc_of s c) = Some i -> holds (pc_of s c') = Some i -> c = c').
Proof.
  intros I%sched_inv_reachable. split_and!; [apply (i_one s I) | | apply (i_running s I) | intros; by eapply held_once].
  intros c i k E. pose proof (i_current s I c) as Hc. rewrite E in Hc. split; [done |]. case_decide as Hk; [|by eapply running_of]. subst k.
  pose proof (i_state s I c i) as Hs. rewrite E in Hs. split; [apply (i_lock s I); by rewrite E | by apply Hs].
Qed.

(** ** Fairness *)

(** In its loop, a CPU has not come past slot [i] yet. *)
Definition before (x : pc) (i : nat) : Prop :=
  match x with
  | AtLock j | Intr _ j | IntrUnlock _ j | AtTest j | AtRunning j => (j <= i)%nat
  | AtProc j | AtSwtch j | InProc j _ | AtBack j | AtRelease j => (j < i)%nat
  | Top | AtFound | Wfi => False
  end.

Definition waiting (i r : nat) (x : cpu) : Prop := x.(rounds) = r \/ (x.(rounds) = S r /\ before x.(at_) i).

(** A process that can run stays so until it runs. *)
Lemma act_runnable s i j a k : inv s -> fork_ok (InProc i (Acting j a)) s -> s.(pstate) k = RUNNABLE -> (act_on i j a s).(pstate) k = RUNNABLE.
Proof.
  intros I Hf Hk. unfold act_on. destruct a, (s.(pstate) j) eqn:Ej; try done; cbn; rewrite upd_eq; case_decide; congruence.
Qed.

Lemma act_cpus s i j a : (act_on i j a s).(cpus) = s.(cpus).
Proof. unfold act_on. by destruct a, (s.(pstate) j). Qed.

Lemma stays_runnable s s' i : inv s -> step s s' -> s.(pstate) i = RUNNABLE -> s'.(pstate) i = RUNNABLE \/ s'.(pstate) i = RUNNING.
Proof.
  intros I [[c | c x | c j a | c j] Hs] Hi; cbn in Hs.
  - unfold sched_step in Hs. cbv zeta in Hs. pose proof (i_fork s I c) as Hf. destruct (pc_of s c) as [|k|k|k|k|k|k q|k|k| | |j b|j b] eqn:E; cbn iota in Hs; try (injection Hs as <-); try (by left).
    + destruct (k <? NPROC)%nat; [apply take_inv in Hs as [_ ->] | injection Hs as <-]; by left.
    + cbn. rewrite upd_eq. case_decide; [by right | by left].
    + destruct q; cbn in Hs; try done; try (injection Hs as <-); try (by left); [|left; by apply act_runnable].
      cbn. rewrite upd_eq. case_decide; [|by left]. subst. pose proof (running_of s c i _ I E ltac:(done)). congruence.
    + left. by apply (act_runnable s 0 j Rouse i I).
  - destruct (pc_of s c) as [| | | | | |k []| | | | | |]; try done. destruct x; try done; try (apply take_inv in Hs as [_ ->]; by left). case_bool_decide; [|done]. apply take_inv in Hs as [_ ->]. by left.
  - destruct (pc_of s c) as [| | | | | |k []| | | | | |]; try done. destruct (allowed k j a s); [|done]. apply take_inv in Hs as [_ ->]. by left.
  - destruct (pc_of s c); try done. apply take_inv in Hs as [_ ->]. by left.
Qed.

(** Moves of CPU [c] by which it does not come past [i]. *)
Lemma waiting_go i r c c' x s : waiting i r (s.(cpus) c) -> (c = c' -> before (pc_of s c) i -> before x i) -> waiting i r ((go c' x s).(cpus) c).
Proof. intros [H|[H1 H2]] Hb; unfold waiting; upd; auto. Qed.

Ltac wgo E := apply waiting_go; [cbn [cpus lock store]; rewrite ?act_cpus; done | intros ->; cbn [cpus lock store]; rewrite ?act_cpus, E].

Lemma waiting_proc i r c c' k q s s' : waiting i r (s.(cpus) c) -> pc_of s c' = InProc k q -> proc_step c' k q s = Some s' -> waiting i r (s'.(cpus) c).
Proof.
  intros Hw E Hs. destruct q; cbn in Hs; try done; injection Hs as <-; wgo E; done.
Qed.

Lemma waiting_step i r c s s' : (i < NPROC)%nat -> inv s -> step s s' -> s.(pstate) i = RUNNABLE -> s'.(pstate) i <> RUNNING -> waiting i r (s.(cpus) c) -> waiting i r (s'.(cpus) c).
Proof.
  intros Hi I [[c' | c' x | c' j a | c' j] Hs] Hr Hn Hw; cbn in Hs.
  - unfold sched_step in Hs. cbv zeta in Hs. destruct (pc_of s c') as [|k|k|k|k|k|k q|k|k| | |j b|j b] eqn:E; cbn iota in Hs; try (injection Hs as <-).
    + destruct Hw as [H|[H1 H2]]; unfold waiting; upd; auto; [|by rewrite E in H2]. right. cbn. split; [done | lia].
    + destruct (Nat.ltb_spec k NPROC); [apply take_inv in Hs as [_ ->] | injection Hs as <-]; wgo E; cbn; lia.
    + wgo E. case_bool_decide; cbn; [done |]. intros Hk. destruct (decide (k = i)); [congruence | lia].
    + wgo E. cbn in *. rewrite upd_eq in Hn. case_decide; [done | lia].
    + destruct Hw as [H|[H1 H2]]; unfold waiting; upd; auto. right. by rewrite E in H2.
    + by wgo E.
    + by eapply waiting_proc.
    + destruct Hw as [H|[H1 H2]]; unfold waiting; upd; auto. right. by rewrite E in H2.
    + wgo E. cbn. lia.
    + by wgo E.
    + by wgo E.
    + destruct (s.(pstate) j); by wgo E.
    + by wgo E.
  - destruct (pc_of s c') as [| | | | | |k []| | | | | |] eqn:E; try done. assert (take c' k (InProc k (Leaving x)) s = Some s') as [_ ->]%take_inv by (destruct x; try done; case_bool_decide; done).
    by wgo E.
  - destruct (pc_of s c') as [| | | | | |k []| | | | | |] eqn:E; try done. destruct (allowed k j a s); [|done]. apply take_inv in Hs as [_ ->]. by wgo E.
  - destruct (pc_of s c') as [|b| | | | | | | | | | |] eqn:E; try done. apply take_inv in Hs as [_ ->]. by wgo E.
Qed.

(** C24. No process that can run is passed over: when it is RUNNABLE, and any one CPU has since gone through its loop over
    the process table once (it has started its loop twice), the process has run in the meantime, on that CPU or
    on another one, whatever the CPUs, the processes and the interrupts did. *)
Theorem scheduler_fair s s' i c : rtc step initial s -> s.(pstate) i = RUNNABLE -> (i < NPROC)%nat -> rtc step s s' -> ((s.(cpus) c).(rounds) + 2 <= (s'.(cpus) c).(rounds))%nat ->
  exists t, rtc step s t /\ rtc step t s' /\ t.(pstate) i = RUNNING.
Proof.
  intros I%sched_inv_reachable Hi Hlt Hr Hrounds. assert (waiting i (s.(cpus) c).(rounds) (s.(cpus) c)) as Hw by (by left). revert Hw Hrounds. generalize (s.(cpus) c).(rounds) as r.
  induction Hr as [s | s s1 s' Hs Hr IH]; intros r Hw Hrounds; [destruct Hw as [|[]]; lia |].
  destruct (stays_runnable s s1 i I Hs Hi) as [H1|H1].
  - destruct (IH (sched_inv_step _ _ I Hs) H1 r) as (t & Ht & Ht' & E); [|done | exists t; split; [by eapply rtc_l | done]]. eapply waiting_step; try done. congruence.
  - exists s1. split; [by apply rtc_once | done].
Qed.
End Scheduler.
