(* ===== verification/Sleeplock.v ===== *)
(** * Sleep locks (kernel/sleeplock.c)

    A sleep lock protects a buffer or an inode; waiting for one gives up the CPU. *)

From S2P Require Import Prelude State Sched.

(** How often a loop that sleeps is entered again before the model gives up
    ([Timeout]): the loops of acquiresleep() and begin_op() have no bound. *)
Class Patience := patience : nat.

Section sleeplock.
Context {P : Patience}.

Definition no_lock : sleeplock := mkSleeplock 0 0.
Definition get_slock (l : slockid) : M kernel sleeplock := gets (fun s => default no_lock (s.(slocks) !! l)).
Definition put_slock (l : slockid) (k : sleeplock) : M kernel unit :=
  modify (fun s => set_slocks (<[l := k]> s.(slocks)) s).

Definition initsleeplock (l : slockid) : M kernel unit :=
  initlock (LkSleep l);;
  put_slock l (mkSleeplock 0 0).

(** while (lk->locked) sleep(lk, &lk->lk); *)
Fixpoint acquiresleep_loop (fuel : nat) (l : slockid) : M kernel unit :=
  match fuel with
  | O => fun _ => Timeout
  | S fuel' =>
      k ← get_slock l;
      if k.(sl_locked) =? 0 then mret tt
      else sleep (Some (ChSleep l)) (LkSleep l);; acquiresleep_loop fuel' l
  end.

Definition acquiresleep (l : slockid) : M kernel unit :=
  acquire (LkSleep l);;
  acquiresleep_loop (S patience) l;;
  i ← myproc;
  p ← get_proc i;
  put_slock l (mkSleeplock 1 p.(p_pid));;
  release (LkSleep l).

Definition releasesleep (l : slockid) : M kernel unit :=
  acquire (LkSleep l);;
  put_slock l (mkSleeplock 0 0);;
  wakeup (Some (ChSleep l));;
  release (LkSleep l).

Definition holdingsleep (l : slockid) : M kernel bool :=
  acquire (LkSleep l);;
  k ← get_slock l;
  i ← myproc;
  p ← get_proc i;
  release (LkSleep l);;
  mret (negb (k.(sl_locked) =? 0) && (k.(sl_pid) =? p.(p_pid))).

(** ** Exact effects

    The process running on this CPU has pid [pid], and none of the locks that
    sleep-lock operations take is held. *)
Record env (s : kernel) (pid : Z) : Prop := {
  e_me : exists i p, s.(cur) = Some i /\ s.(procs) !! i = Some p /\ p.(p_pid) = pid;
  e_procs : procs_ok s;
  e_lkproc i : LkProc i ∉ s.(held);
  e_lksleep l : LkSleep l ∉ s.(held);
  e_lkbcache : LkBcache ∉ s.(held);
}.

Definition slock (s : kernel) (l : slockid) : sleeplock := default no_lock (s.(slocks) !! l).

Lemma env_pid s s' pid : env s pid -> s'.(cur) = s.(cur) -> s'.(held) = s.(held) ->
  (forall i, s.(cur) = Some i -> s'.(procs) !! i = s.(procs) !! i) -> length s'.(procs) = length s.(procs) -> env s' pid.
Proof.
  intros [(i & p & Hc & Hp & Hpid) Hl H1 H2 H3] Ec Eh Eme El. constructor; rewrite ?Eh; auto.
  - exists i, p. rewrite Ec. split_and!; [done | by rewrite (Eme i Hc) | done].
  - unfold procs_ok in *. congruence.
Qed.

Lemma acquiresleep_run l s pid :
  env s pid -> (slock s l).(sl_locked) = 0 ->
  acquiresleep l s = Ok tt (set_slocks (<[l := mkSleeplock 1 pid]> s.(slocks)) s).
Proof.
  intros [(i & p & Hc & Hp & Hpid) Hl H1 H2 H3] Hk. unfold acquiresleep.
  erewrite bind_Ok by (by apply acquire_Ok). cbn [acquiresleep_loop].
  erewrite bind_Ok. 2: { erewrite bind_Ok by done. cbn [slocks set_held]. unfold slock in Hk. rewrite Hk. done. }
  erewrite bind_Ok by (by apply (myproc_Ok i)). erewrite bind_Ok by (by apply (get_proc_Ok i _ p)).
  erewrite bind_Ok by done. rewrite release_Ok by set_solver. cbn [held set_held set_slocks].
  f_equal. rewrite held_drop by done. rewrite Hpid. by kstate.
Qed.

Lemma holdingsleep_run l s pid :
  env s pid -> holdingsleep l s = Ok (negb ((slock s l).(sl_locked) =? 0) && ((slock s l).(sl_pid) =? pid)) s.
Proof.
  intros [(i & p & Hc & Hp & Hpid) Hl H1 H2 H3]. unfold holdingsleep.
  erewrite bind_Ok by (by apply acquire_Ok). erewrite bind_Ok by done.
  erewrite bind_Ok by (by apply (myproc_Ok i)). erewrite bind_Ok by (by apply (get_proc_Ok i _ p)).
  erewrite bind_Ok by (apply release_Ok; set_solver). cbn [held set_held slocks]. rewrite held_drop by done.
  unfold slock. rewrite Hpid. unfold mret, M_ret. f_equal. by kstate.
Qed.

Lemma releasesleep_run l s pid :
  env s pid -> releasesleep l s = Ok tt (woken s.(cur) (Some (ChSleep l)) (set_slocks (<[l := no_lock]> s.(slocks)) s)).
Proof.
  intros [(i & p & Hc & Hp & Hpid) Hl H1 H2 H3]. unfold releasesleep.
  erewrite bind_Ok by (by apply acquire_Ok). erewrite bind_Ok by done.
  erewrite bind_Ok by (apply wakeup_run; [done | intros j _; cbn; set_solver]).
  rewrite release_Ok by (cbn; set_solver). unfold woken. f_equal. cbn [held set_held set_slocks set_procs procs].
  rewrite held_drop by done. by kstate.
Qed.

(** Waking processes is all an operation did to the process table, and the running
    process was not among them. *)
Definition wakes (me : option nat) (ps ps' : list proc) : Prop :=
  length ps' = length ps /\ (forall i, me = Some i -> ps' !! i = ps !! i) /\
  forall j p p', ps !! j = Some p -> ps' !! j = Some p' ->
    p' = p \/ (p.(p_state) = SLEEPING /\ p' = set_p_state RUNNABLE p).

Lemma wakes_refl me ps : wakes me ps ps.
Proof. split_and!; [done | done |]. intros j p p' H1 H2. left. congruence. Qed.

Lemma wakes_trans me ps1 ps2 ps3 : wakes me ps1 ps2 -> wakes me ps2 ps3 -> wakes me ps1 ps3.
Proof.
  intros (L1 & M1 & W1) (L2 & M2 & W2). split_and!; [congruence | intros i Hi; rewrite M2, M1 by done; done |].
  intros j p p' Hp Hp'. destruct (lookup_lt_is_Some_2 ps2 j) as [q Hq].
  { rewrite L1. by eapply lookup_lt_Some. }
  destruct (W1 j p q Hp Hq) as [->|[Hs ->]], (W2 j _ p' Hq Hp') as [->|[Hs' ->]]; auto.
Qed.

Lemma woken_wakes c s i : s.(cur) = Some i -> wakes (Some i) s.(procs) (imap (wake (Some i) c) s.(procs)).
Proof.
  intros _. split_and!; [by rewrite length_imap | |].
  - intros j [= <-]. rewrite list_lookup_imap. destruct (s.(procs) !! i); [|done]. cbn. unfold wake.
    by rewrite bool_decide_eq_true_2.
  - intros j p p' Hp. rewrite list_lookup_imap, Hp. cbn. intros [= <-]. unfold wake.
    case_bool_decide; [by left |]. destruct (bool_decide_reflect (p.(p_state) = SLEEPING)); [|by left].
    destruct (bool_decide _); [right; done | by left].
Qed.
End sleeplock.
