(* ===== verification/Uart.v ===== *)
(** * The uart (kernel/uart.c)

    The device is the list of input bytes waiting in its receive register, the list of
    bytes written to its transmit register, and the coming readings of the transmit
    idle bit of its line status register.  panicked is 0 as long as the kernel runs.
    The functions here are those that do not sleep, and consputc() of kernel/console.c. *)

From S2P Require Import Prelude State Sched.

Definition UART_TX_BUF_SIZE : Z := 32.
Definition BACKSPACE : Z := 0x100.

Definition upd_cons (f : console -> console) : M kernel unit := modify (fun s => set_cons (f s.(cons)) s).

(** ReadReg(LSR) & LSR_TX_IDLE; a device whose readings have run out is busy *)
Definition lsr_tx_idle : M kernel bool :=
  k ← gets cons;
  match k.(dev_idle) with
  | [] => mret false
  | b :: l => upd_cons (set_dev_idle l);; mret b
  end.

(** WriteReg(THR, c) *)
Definition write_thr (c : Z) : M kernel unit := upd_cons (fun k => set_dev_out (k.(dev_out) ++ [u8 c]) k).

(** while (1) of uartstart(): each round sends a byte of the buffer *)
Fixpoint uartstart_loop (fuel : nat) : M kernel unit :=
  match fuel with
  | O => fun _ => Timeout
  | S fuel' =>
      k ← gets cons;
      if k.(tx_w) =? k.(tx_r) then mret tt else
      idle ← lsr_tx_idle;
      if negb idle then mret tt else
      let c := default 0 (k.(tx_buf) !! Z.to_nat (k.(tx_r) mod UART_TX_BUF_SIZE)) in
      upd_cons (set_tx_r (u64 (k.(tx_r) + 1)));;
      wakeup (Some ChUart);;
      write_thr c;;
      uartstart_loop fuel'
  end.

Definition uartstart : M kernel unit := uartstart_loop (Z.to_nat UART_TX_BUF_SIZE + 2).

(** while ((ReadReg(LSR) & LSR_TX_IDLE) == 0) ; *)
Fixpoint spin_idle (n : nat) : M kernel unit :=
  match n with
  | O => fun _ => Timeout
  | S n' => idle ← lsr_tx_idle; if negb idle then spin_idle n' else mret tt
  end.

Definition uartputc_sync (c : Z) : M kernel unit :=
  k ← gets cons;
  spin_idle (S (length k.(dev_idle)));;
  write_thr c.

(** The result -1, or the character. *)
Definition uartgetc : M kernel Z :=
  k ← gets cons;
  match k.(dev_in) with
  | [] => mret (-1)
  | c :: l => upd_cons (set_dev_in l);; mret (u8 c)
  end.

Definition consputc (c : Z) : M kernel unit :=
  if c =? BACKSPACE then uartputc_sync 8;; uartputc_sync 32;; uartputc_sync 8
  else uartputc_sync c.
