(* ===== verification/Printf.v ===== *)
(** * Formatted output of the kernel (kernel/printf.c)

    The characters printf() sends to the console, and the numbers printint() prints.
    printint() collects the digits in buf[16]: a store past its end is an error of the
    model.  [printint_spec] says what it prints and when it overruns the buffer. *)

From Stdlib Require Import Ascii.
From S2P Require Import Prelude State Sched Uart.

(** digits[d] *)
Definition digit (d : Z) : Z := if d <? 10 then 48 + d else 97 + (d - 10).

(** do { buf[i++] = digits[x % base]; } while ((x /= base) != 0); *)
Fixpoint digits_of (fuel : nat) (x base : Z) : list Z :=
  match fuel with
  | O => []
  | S fuel' => digit (x mod base) :: (if x / base =? 0 then [] else digits_of fuel' (x / base) base)
  end.

Definition buf_size : nat := 16.

(** The characters in the order they are sent; [None] is a store past the end of buf.
    A 64-bit number has at most 64 digits. *)
Definition printint (xx base : Z) (sign : bool) : option (list Z) :=
  let neg := sign && (xx <? 0) in
  let x := if neg then u64 (- xx) else u64 xx in
  let buf := digits_of 64 x base ++ (if neg then [45] else []) in
  if (length buf <=? buf_size)%nat then Some (rev buf) else None.

(** for (i = 0; i < 16; i++, x <<= 4) consputc(digits[x >> 60]); *)
Fixpoint printptr_loop (n : nat) (x : Z) : list Z :=
  match n with
  | O => []
  | S n' => digit (Z.shiftr x 60) :: printptr_loop n' (u64 (Z.shiftl x 4))
  end.
Definition printptr (x : Z) : list Z := [48; 120] ++ printptr_loop 16 x.

(** A variable argument. *)
Inductive varg := VNum (z : Z) | VStr (s : option (list Z)).

(** What is shown, or why nothing is: a store past the end of the buffer of printint(), or a
    variable argument that is missing or of another type, both undefined behaviour, or
    the fuel of the model. *)
Inductive shown (A : Type) := Shown (a : A) | Overrun | BadArg | OutOfFuel.
Arguments Shown {A} a.
Arguments Overrun {A}.
Arguments BadArg {A}.
Arguments OutOfFuel {A}.

#[export] Instance shown_bind : MBind shown := fun A B f x =>
  match x with Shown a => f a | Overrun => Overrun | BadArg => BadArg | OutOfFuel => OutOfFuel end.

Definition from_printint (r : option (list Z)) : shown (list Z) :=
  match r with Some bs => Shown bs | None => Overrun end.

(** What a conversion prints, how many characters of fmt it takes after the %, and the
    arguments left. *)
Definition convert (c0 c1 c2 : Z) (ap : list varg) : shown (list Z * nat * list varg) :=
  let int_arg (base : Z) (sign : bool) (n : nat) :=
    match ap with
    | VNum z :: ap' => bs ← from_printint (printint (s32 z) base sign); Shown (bs, n, ap')
    | _ => BadArg
    end in
  let long_arg base (sign : bool) (n : nat) :=
    match ap with
    | VNum z :: ap' => bs ← from_printint (printint ((u64 z + 2 ^ 63) mod 2 ^ 64 - 2 ^ 63) base sign); Shown (bs, n, ap')
    | _ => BadArg
    end in
  let l := 108 in
  if c0 =? 100 then int_arg 10 true 1%nat
  else if (c0 =? l) && (c1 =? 100) then long_arg 10 true 2%nat
  else if (c0 =? l) && (c1 =? l) && (c2 =? 100) then long_arg 10 true 3%nat
  else if c0 =? 117 then int_arg 10 false 1%nat
  else if (c0 =? l) && (c1 =? 117) then long_arg 10 false 2%nat
  else if (c0 =? l) && (c1 =? l) && (c2 =? 117) then long_arg 10 false 3%nat
  else if c0 =? 120 then int_arg 16 false 1%nat
  else if (c0 =? l) && (c1 =? 120) then long_arg 16 false 2%nat
  else if (c0 =? l) && (c1 =? l) && (c2 =? 120) then long_arg 16 false 3%nat
  else if c0 =? 112 then match ap with VNum z :: ap' => Shown (printptr (u64 z), 1%nat, ap') | _ => BadArg end
  else if c0 =? 115 then
    match ap with
    | VStr None :: ap' => Shown ([40; 110; 117; 108; 108; 41], 1%nat, ap')
    | VStr (Some s) :: ap' => Shown (s, 1%nat, ap')
    | _ => BadArg
    end
  else if c0 =? 37 then Shown ([37], 1%nat, ap)
  else Shown ([37; c0], 1%nat, ap).

(** for (i = 0; (cx = fmt[i] & 0xff) != 0; i++): the characters sent *)
Fixpoint printf_loop (fuel : nat) (fmt : list Z) (ap : list varg) : shown (list Z) :=
  match fuel with
  | O => OutOfFuel
  | S fuel' =>
      match fmt with
      | [] => Shown []
      | cx :: fmt =>
          if cx =? 0 then Shown [] else
          if negb (cx =? 37) then out ← printf_loop fuel' fmt ap; Shown (cx :: out) else
          let c0 := default 0 (fmt !! 0%nat) in
          let c1 := if c0 =? 0 then 0 else default 0 (fmt !! 1%nat) in
          let c2 := if c1 =? 0 then 0 else default 0 (fmt !! 2%nat) in
          if c0 =? 0 then Shown [] else
          '(bs, n, ap') ← convert c0 c1 c2 ap;
          out ← printf_loop fuel' (drop n fmt) ap';
          Shown (bs ++ out)
      end
  end.

Fixpoint send (bs : list Z) : M kernel unit :=
  match bs with [] => mret tt | c :: bs' => consputc c;; send bs' end.

(** [locking] is pr.locking *)
Definition printf (locking : Z) (fmt : list Z) (ap : list varg) : M kernel unit :=
  when (negb (locking =? 0)) (acquire LkPr);;
  match printf_loop (S (length fmt)) fmt ap with
  | Shown bs => send bs
  | Overrun => panic "undefined behaviour: printint: buf"
  | BadArg => panic "undefined behaviour: va_arg"
  | OutOfFuel => fun _ => Timeout
  end;;
  when (negb (locking =? 0)) (release LkPr).

(** The characters of a string constant, with the escapes \n and \033. *)
Fixpoint chars (s : string) : list Z :=
  match s with
  | EmptyString => []
  | String "\"%char (String "n"%char s') => 10 :: chars s'
  | String "\"%char (String "0"%char (String "3"%char (String "3"%char s'))) => 27 :: chars s'
  | String c s' => Z.of_nat (Ascii.nat_of_ascii c) :: chars s'
  end.

(** printf() of the running kernel: printfinit() has set pr.locking. *)
Definition kprint (fmt : string) (ap : list varg) : M kernel unit := printf 1 (chars fmt) ap.

(** ** Printing while the uart is polled *)

(** How many readings of the line status will find the transmitter idle. *)
Fixpoint ready (l : list bool) : nat := match l with [] => 0 | b :: l' => if b then S (ready l') else ready l' end.

Lemma spin_idle_run l : forall s, s.(cons).(dev_idle) = l -> (0 < ready l)%nat ->
  exists l', spin_idle (S (length l)) s = Ok tt (set_cons (set_dev_idle l' s.(cons)) s) /\ ready l = S (ready l').
Proof.
  induction l as [|b l IH]; intros s El Hr; [cbn in Hr; lia |]. cbn [spin_idle]. unfold lsr_tx_idle.
  rewrite (bind_Ok _ _ s b (set_cons (set_dev_idle l s.(cons)) s)).
  2: { rewrite (bind_Ok (gets cons) _ s s.(cons) s) by done. by rewrite El. }
  destruct b; cbn [negb]; cbv iota; [by exists l |].
  destruct (IH (set_cons (set_dev_idle l s.(cons)) s)) as (l' & E' & Hr'); [done | done |]. exists l'. split; [|done]. exact E'.
Qed.

(** The characters [bs] have been sent. *)
Definition sent (bs : list Z) (l' : list bool) s : kernel := set_cons (set_dev_idle l' (set_dev_out (s.(cons).(dev_out) ++ bs) s.(cons))) s.

Lemma consputc_run c s : 0 <= c < 256 -> (0 < ready s.(cons).(dev_idle))%nat ->
  exists l', consputc c s = Ok tt (sent [c] l' s) /\ ready s.(cons).(dev_idle) = S (ready l').
Proof.
  intros Hc Hr. destruct (spin_idle_run _ s eq_refl Hr) as (l' & E & Hr'). exists l'. split; [|done]. unfold consputc, BACKSPACE. destruct (Z.eqb_spec c 256); [lia |].
  unfold uartputc_sync. rewrite (bind_Ok (gets cons) _ s s.(cons) s) by done. erewrite bind_Ok by exact E. unfold write_thr, upd_cons, modify, sent. cbn. by rewrite u8_small.
Qed.

Lemma sent_sent bs bs' l l' s : sent bs' l' (sent bs l s) = sent (bs ++ bs') l' s.
Proof. unfold sent. cbn. by rewrite app_assoc. Qed.

Lemma send_run bs : forall s, Forall (fun c => 0 <= c < 256) bs -> (length bs <= ready s.(cons).(dev_idle))%nat ->
  exists l', send bs s = Ok tt (sent bs l' s) /\ (ready s.(cons).(dev_idle) = length bs + ready l')%nat.
Proof.
  induction bs as [|c bs IH]; intros s Hb Hr.
  - exists s.(cons).(dev_idle). split; [|done]. cbn. unfold sent. rewrite app_nil_r. unfold mret, M_ret. f_equal. by destruct s as [? ? ? ? ? ? ? ? ? ? ? ? ? ? ? ? ? ? ? ? []].
  - inversion Hb; subst. cbn [length] in Hr. destruct (consputc_run c s) as (l1 & E1 & R1); [done | lia |]. destruct (IH (sent [c] l1 s)) as (l2 & E2 & R2); [done | cbn; lia |].
    exists l2. split; [cbn [send]; erewrite bind_Ok by exact E1; by rewrite E2, sent_sent | cbn in *; lia].
Qed.

Lemma printf_run fmt ap bs s : printf_loop (S (length fmt)) fmt ap = Shown bs -> Forall (fun c => 0 <= c < 256) bs -> LkPr ∉ s.(held) -> (length bs <= ready s.(cons).(dev_idle))%nat ->
  exists l', printf 1 fmt ap s = Ok tt (sent bs l' s) /\ (ready s.(cons).(dev_idle) = length bs + ready l')%nat.
Proof.
  intros Hf Hb Hlk Hr. destruct (send_run bs (set_held ({[LkPr]} ∪ s.(held)) s) Hb Hr) as (l' & E & Hr'). exists l'. split; [|done].
  unfold printf. cbn [Z.eqb negb when]. erewrite bind_Ok by (by apply acquire_Ok). rewrite Hf. erewrite bind_Ok by exact E. rewrite release_Ok by (cbn; set_solver +).
  unfold sent. cbn. by rewrite held_drop.
Qed.

(** ** What printint() prints *)

Definition undigit (c : Z) : Z := if c <? 58 then c - 48 else c - 87.

(** The value of a numeral, least significant digit first, and of a printed number. *)
Fixpoint lsb_value (base : Z) (ds : list Z) : Z :=
  match ds with [] => 0 | c :: ds' => undigit c + base * lsb_value base ds' end.
Definition numeral (base : Z) (bs : list Z) : Z :=
  match bs with
  | c :: ds => if c =? 45 then - lsb_value base (rev ds) else lsb_value base (rev bs)
  | [] => 0
  end.

Lemma undigit_digit d : 0 <= d < 16 -> undigit (digit d) = d.
Proof. intros. unfold undigit, digit. repeat case_Z; lia. Qed.

Lemma digits_of_value fuel : forall x base, 2 <= base <= 16 -> 0 <= x < base ^ Z.of_nat fuel ->
  (0 < fuel)%nat -> lsb_value base (digits_of fuel x base) = x.
Proof.
  induction fuel as [|fuel IH]; intros x base Hb Hx Hf; [lia |]. cbn [digits_of lsb_value].
  pose proof (Z.mod_pos_bound x base ltac:(lia)) as Hm. pose proof (Z.div_mod x base ltac:(lia)) as Hd.
  rewrite undigit_digit by lia. rewrite Nat2Z.inj_succ, Z.pow_succ_r in Hx by lia.
  assert (0 <= x / base < base ^ Z.of_nat fuel) as Hq by (split; [apply Z.div_pos; lia | apply Z.div_lt_upper_bound; lia]).
  destruct (Z.eqb_spec (x / base) 0) as [E|E]; cbn [lsb_value]; [lia |].
  destruct fuel as [|fuel]; [cbn in Hq; lia |]. rewrite IH by (done || lia). lia.
Qed.

Lemma digits_of_length fuel : forall n x base, 2 <= base -> 0 <= x < base ^ Z.of_nat fuel -> (0 < fuel)%nat ->
  (length (digits_of fuel x base) <= S n)%nat <-> x < base ^ Z.of_nat (S n).
Proof.
  induction fuel as [|fuel IH]; intros n x base Hb Hx Hf; [lia |]. cbn [digits_of length].
  rewrite (Nat2Z.inj_succ fuel), Z.pow_succ_r in Hx by lia. rewrite Nat2Z.inj_succ, Z.pow_succ_r by lia.
  assert (0 <= x / base < base ^ Z.of_nat fuel) as Hq by (split; [apply Z.div_pos; lia | apply Z.div_lt_upper_bound; lia]).
  assert (x < base * base ^ Z.of_nat n <-> x / base < base ^ Z.of_nat n) as ->.
  { split; intros; [by apply Z.div_lt_upper_bound; lia |]. pose proof (Z.div_mod x base ltac:(lia)).
    pose proof (Z.mod_pos_bound x base ltac:(lia)). nia. }
  destruct (Z.eqb_spec (x / base) 0) as [E|E]; cbn [length].
  - rewrite E. split; [intros; apply Z.pow_pos_nonneg; lia | lia].
  - destruct fuel as [|fuel]; [cbn in Hq; lia |]. destruct n as [|n].
    + cbn [digits_of length]. split; [lia | cbn; lia].
    + rewrite <- Nat.succ_le_mono, IH by (done || lia). done.
Qed.

Lemma digits_of_range fuel : forall x base, 2 <= base <= 16 -> Forall (fun c => 48 <= c) (digits_of fuel x base).
Proof.
  induction fuel as [|fuel IH]; intros x base Hb; cbn; [done |]. pose proof (Z.mod_pos_bound x base ltac:(lia)).
  constructor; [unfold digit; case_Z; lia |]. case_Z; [done |]. by apply IH.
Qed.

Lemma numeral_plain base ds : Forall (fun c => 48 <= c) ds -> numeral base (rev ds) = lsb_value base ds.
Proof.
  intros Hr. unfold numeral. destruct (rev ds) as [|c l] eqn:E.
  - apply (f_equal (@rev Z)) in E. rewrite rev_involutive in E. by subst.
  - assert (48 <= c) as Hc.
    { rewrite Forall_forall in Hr. apply Hr. rewrite <- (rev_involutive ds), E. apply list_elem_of_In. rewrite <- in_rev. by left. }
    rewrite (proj2 (Z.eqb_neq c 45)) by lia. by rewrite <- E, rev_involutive.
Qed.

Lemma numeral_minus base ds : numeral base (rev (ds ++ [45])) = - lsb_value base ds.
Proof. rewrite rev_app_distr. cbn. by rewrite rev_involutive. Qed.

Lemma printint_run xx base sign : base = 10 \/ base = 16 -> - 2 ^ 63 <= xx < 2 ^ 63 ->
  let neg := sign && (xx <? 0) in
  let x := if neg then - xx else u64 xx in
  match printint xx base sign with
  | Some bs => x < base ^ (if neg then 15 else 16) /\ numeral base bs = (if sign then xx else u64 xx)
  | None => base ^ (if neg then 15 else 16) <= x
  end.
Proof.
  intros Hb Hxx neg x. assert (2 <= base <= 16) as Hb' by lia. assert (0 <= x < 2 ^ 64) as Hx.
  { unfold x. destruct neg eqn:E; [|apply u64_range]. apply andb_prop in E as [_ E%Z.ltb_lt]. lia. }
  assert (x < base ^ Z.of_nat 64) as Hxb by (eapply Z.lt_le_trans; [apply Hx | destruct Hb as [-> | ->]; apply Z.leb_le; reflexivity]).
  assert ((if neg then u64 (- xx) else u64 xx) = x) as Eu.
  { unfold x. destruct neg eqn:E; [|done]. apply u64_small, Hx. }
  unfold printint. fold neg. rewrite Eu. set (ds := digits_of 64 x base). unfold buf_size.
  pose proof (digits_of_value 64 x base Hb' ltac:(lia) ltac:(lia)) as Hval. fold ds in Hval.
  pose proof (digits_of_range 64 x base Hb') as Hr. fold ds in Hr.
  pose proof (fun n => digits_of_length 64 n x base ltac:(lia) ltac:(lia) ltac:(lia)) as Hlen. fold ds in Hlen.
  destruct (Nat.leb_spec (length (ds ++ (if neg then [45] else []))) 16) as [H|H]; rewrite length_app in H.
  - destruct neg eqn:E; cbn [length] in H.
    + split; [apply (Hlen 14%nat); lia |]. rewrite numeral_minus, Hval. unfold x.
      apply andb_prop in E as [-> E]. lia.
    + split; [apply (Hlen 15%nat); lia |]. rewrite app_nil_r, numeral_plain, Hval by done. unfold x. destruct sign; [|done].
      cbn in E. apply Z.ltb_ge in E. unfold neg in E. apply u64_small. lia.
  - destruct neg; cbn [length] in H; apply Z.nlt_ge; intros Hc; [apply (Hlen 14%nat) in Hc | apply (Hlen 15%nat) in Hc]; lia.
Qed.

(** C31. printint() prints the number: in base 10 or 16, signed or not, it sends a numeral
    whose value is [xx] (modulo 2^64 when unsigned), provided the digits and the sign
    fit in its buffer of 16 characters; otherwise it stores past the end of it. *)
Theorem printint_spec xx base sign : base = 10 \/ base = 16 -> - 2 ^ 63 <= xx < 2 ^ 63 ->
  let neg := sign && (xx <? 0) in
  let x := if neg then - xx else u64 xx in
  match printint xx base sign with
  | Some bs => x < base ^ (if neg then 15 else 16) /\ numeral base bs = (if sign then xx else u64 xx)
  | None => base ^ (if neg then 15 else 16) <= x
  end.
Proof. exact (printint_run xx base sign). Qed.

(** The loop of printf() ends: a turn takes at least one character of the format. *)
Lemma printf_loop_total fuel : forall fmt ap, (length fmt < fuel)%nat -> printf_loop fuel fmt ap <> OutOfFuel.
Proof.
  induction fuel as [|fuel IH]; intros fmt ap Hl; [lia |]. destruct fmt as [|cx fmt]; [done |]. cbn [length] in Hl.
  assert (forall f g a, (length g <= length fmt)%nat -> ((out ← printf_loop fuel g a; Shown (f out)) : shown (list Z)) <> OutOfFuel) as Hgo.
  { intros f g a Hg. pose proof (IH g a ltac:(lia)). unfold mbind, shown_bind. by destruct (printf_loop fuel g a). }
  cbn [printf_loop]. destruct (cx =? 0); [done |]. destruct (negb (cx =? 37)); [by apply (Hgo (fun out => cx :: out)) |]. destruct (_ =? 0); [done |].
  assert (forall c0 c1 c2, convert c0 c1 c2 ap <> OutOfFuel) as Hc.
  { intros c0 c1 c2. unfold convert, from_printint, mbind, shown_bind. repeat case_match; done. }
  specialize (Hc (default 0 (fmt !! 0%nat))). match goal with |- context [convert ?x ?y ?z ap] => specialize (Hc y z); destruct (convert x y z ap) as [[[bs n] ap']| | |] end; try done.
  apply (Hgo (app bs)). rewrite length_drop. lia.
Qed.

(** C32. printf() of an unsigned int [z] with %u prints the number when its top bit is clear,
    and stores past the end of the buffer of printint() exactly when it is set:
    va_arg(ap, int) sign-extends it to 64 bits, and the result has twenty decimal digits. *)
Theorem printf_u_overflow z : 0 <= z < 2 ^ 32 ->
  match printf_loop 3 [37; 117] [VNum z] with
  | Shown bs => z < 2 ^ 31 /\ numeral 10 bs = z
  | Overrun => 2 ^ 31 <= z
  | BadArg | OutOfFuel => False
  end.
Proof.
  intros Hz. assert (s32 z = if z <? 2 ^ 31 then z else z - 2 ^ 32) as Es.
  { unfold s32. destruct (Z.ltb_spec z (2 ^ 31)); [rewrite Z.mod_small by lia; lia |].
    replace (z + 2 ^ 31) with (z - 2 ^ 31 + 1 * 2 ^ 32) by lia. rewrite Z.mod_add, Z.mod_small by lia. lia. }
  change (printf_loop 3 [37; 117] [VNum z]) with
    ('(bs, n, ap') ← (bs ← from_printint (printint (s32 z) 10 false); Shown (bs, 1%nat, [] : list varg));
     out ← printf_loop 2 (drop n [117]) ap'; Shown (bs ++ out)).
  pose proof (printint_run (s32 z) 10 false ltac:(by left) ltac:(rewrite Es; case_Z; lia)) as H. cbn [andb] in H.
  rewrite Es in *. destruct (Z.ltb_spec z (2 ^ 31)) as [Hlt|Hge]; destruct (printint _ 10 false) as [bs|];
    unfold mbind, shown_bind; cbn; rewrite ?app_nil_r.
  - rewrite u64_small in H by lia. tauto.
  - rewrite u64_small in H by lia. lia.
  - exfalso. destruct H as [H _]. unfold u64 in H. replace (z - 2 ^ 32) with (z - 2 ^ 32 + 2 ^ 64 + (-1) * 2 ^ 64) in H by lia.
    rewrite Z.mod_add, Z.mod_small in H by lia. lia.
  - done.
Qed.
