(* ===== verification/Bio.v ===== *)
(** * Buffer cache (kernel/bio.c)

    The cache holds NBUF buffers; [blru] is the circular list threaded through them,
    most recently used first.  [bc_inv] is the invariant of the cache as one process
    uses it: it holds the sleep locks of the buffers [H], and the blocks [Pn] are
    pinned by the log.  [view] is the content of a block as the kernel sees it. *)

From S2P Require Import Prelude State Mem Bytes Sched Sleeplock.

Definition ROOTDEV : Z := 1.

Section bio.
Context {P : Patience}.

Definition get_buf (b : nat) : M kernel buf := fun s =>
  match s.(bufs) !! b with Some x => Ok x s | None => Panic "buf" end.
Definition upd_buf (b : nat) (f : buf -> buf) : M kernel unit :=
  modify (fun s => set_bufs (alter f b s.(bufs)) s).

(** The contents of a disk block; blocks never written are zero. *)
Definition disk_block (d : gmap Z (list Z)) (bn : Z) : list Z := default (replicate 1024 0) (d !! bn).

(** The completed disk request: virtio_disk.c drives the device and waits for its
    interrupt; what remains is the transfer between the buffer and the block. *)
Definition virtio_disk_rw (b : nat) (write : bool) : M kernel unit :=
  x ← get_buf b;
  if write then
    modify (fun s => set_dwrites (s.(dwrites) ++ [(x.(b_blockno), x.(b_data))])
                       (set_disk (<[x.(b_blockno) := x.(b_data)]> s.(disk)) s))
  else
    d ← gets disk;
    upd_buf b (set_b_data (disk_block d x.(b_blockno))).

Definition binit : M kernel unit :=
  initlock LkBcache;;
  modify (set_blru []);;
  for_range NBUF 0 (fun b =>
    initsleeplock (SlBuf b);;
    modify (fun s => set_blru (b :: s.(blru)) s)).

(** The first buffer of a list that passes the test. *)
Fixpoint find_buf (f : buf -> bool) (bs : list buf) (l : list nat) : option nat :=
  match l with
  | [] => None
  | b :: l' => match bs !! b with Some x => if f x then Some b else find_buf f bs l' | None => find_buf f bs l' end
  end.

Definition bget (dev blockno : Z) : M kernel nat :=
  acquire LkBcache;;
  bs ← gets bufs;
  lru ← gets blru;
  match find_buf (fun b => (b.(b_dev) =? dev) && (b.(b_blockno) =? blockno)) bs lru with
  | Some b =>
      upd_buf b (fun x => set_b_refcnt (u32 (x.(b_refcnt) + 1)) x);;
      release LkBcache;;
      acquiresleep (SlBuf b);;
      mret b
  | None =>
      match find_buf (fun b => b.(b_refcnt) =? 0) bs (rev lru) with
      | Some b =>
          upd_buf b (fun x => mkBuf 0 dev blockno 1 x.(b_data));;
          release LkBcache;;
          acquiresleep (SlBuf b);;
          mret b
      | None => panic "bget: no buffers"
      end
  end.

Definition bread (dev blockno : Z) : M kernel nat :=
  b ← bget dev blockno;
  x ← get_buf b;
  when (x.(b_valid) =? 0) (virtio_disk_rw b false;; upd_buf b (set_b_valid 1));;
  mret b.

Definition bwrite (b : nat) : M kernel unit :=
  h ← holdingsleep (SlBuf b);
  if negb h then panic "bwrite" else virtio_disk_rw b true.

Definition brelse (b : nat) : M kernel unit :=
  h ← holdingsleep (SlBuf b);
  if negb h then panic "brelse" else
  releasesleep (SlBuf b);;
  acquire LkBcache;;
  upd_buf b (fun x => set_b_refcnt (u32 (x.(b_refcnt) - 1)) x);;
  x ← get_buf b;
  when (x.(b_refcnt) =? 0)
    (modify (fun s => set_blru (b :: filter (fun j => j <> b) s.(blru)) s));;
  release LkBcache.

Definition bpin (b : nat) : M kernel unit :=
  acquire LkBcache;;
  upd_buf b (fun x => set_b_refcnt (u32 (x.(b_refcnt) + 1)) x);;
  release LkBcache.

Definition bunpin (b : nat) : M kernel unit :=
  acquire LkBcache;;
  upd_buf b (fun x => set_b_refcnt (u32 (x.(b_refcnt) - 1)) x);;
  release LkBcache.
End bio.
