(* ===== verification/Bcache.v ===== *)
(** * The buffer cache: invariant and specifications (kernel/bio.c)

    One process uses the cache.  It holds the sleep locks of the buffers [H]; the
    blocks [Pn] are pinned.  The specifications say what bread(), bwrite(), brelse(),
    bpin() and bunpin() do to [H], [Pn], the disk and the contents of every block as
    seen through the cache ([view]). *)

From S2P Require Import Prelude State Mem Bytes Sched Sleeplock Bio.

Section bcache.
Context {P : Patience}.
Implicit Types (s : kernel) (b : buf) (bn : Z) (H : gset nat) (Pn : gset Z).

(** [s'] differs from [s] in the cache, the sleep locks of buffers, the disk and
    woken processes only. *)
Definition io_only s s' : Prop :=
  wakes s.(cur) s.(procs) s'.(procs) /\ (forall j, slock s' (SlInode j) = slock s (SlInode j)) /\
  s' = set_procs s'.(procs) (set_bufs s'.(bufs) (set_blru s'.(blru) (set_slocks s'.(slocks)
         (set_disk s'.(disk) (set_dwrites s'.(dwrites) s))))).

(** The buffer caches block [bn] of the disk. *)
Definition caches b bn : Prop := b.(b_dev) = ROOTDEV /\ b.(b_blockno) = bn.

#[export] Instance caches_dec b bn : Decision (caches b bn).
Proof. unfold caches. apply _. Defined.

Definition view s bn : list Z :=
  match list_find (fun b => caches b bn) s.(bufs) with
  | Some (_, b) => b.(b_data)
  | None => disk_block s.(disk) bn
  end.

Definition refs H Pn (i : nat) b : Z :=
  (if decide (i ∈ H) then 1 else 0) + (if decide (b.(b_dev) = ROOTDEV /\ b.(b_blockno) ∈ Pn) then 1 else 0).

Record bc_inv s (pid : Z) H Pn : Prop := {
  bc_env : env s pid;
  bc_len : length s.(bufs) = NBUF;
  bc_lru : s.(blru) ≡ₚ seq 0 NBUF;
  bc_data i b : s.(bufs) !! i = Some b -> length b.(b_data) = 1024%nat;
  bc_disk bn : length (disk_block s.(disk) bn) = 1024%nat;
  bc_dev i b : s.(bufs) !! i = Some b -> b.(b_valid) <> 0 <-> b.(b_dev) = ROOTDEV;
  bc_uniq i j b b' bn : s.(bufs) !! i = Some b -> s.(bufs) !! j = Some b' -> caches b bn -> caches b' bn -> i = j;
  bc_ref i b : s.(bufs) !! i = Some b -> b.(b_refcnt) = refs H Pn i b;
  bc_pin bn : bn ∈ Pn -> exists i b, s.(bufs) !! i = Some b /\ caches b bn;
  bc_hold i : i ∈ H -> exists b, s.(bufs) !! i = Some b /\ b.(b_dev) = ROOTDEV;
  bc_clean i b : s.(bufs) !! i = Some b -> b.(b_dev) = ROOTDEV -> i ∉ H -> b.(b_blockno) ∉ Pn ->
    b.(b_data) = disk_block s.(disk) b.(b_blockno);
  bc_lock i : slock s (SlBuf i) = if decide (i ∈ H) then mkSleeplock 1 pid else no_lock;
}.

Lemma io_only_refl s : io_only s s.
Proof. split_and!; [apply wakes_refl | done | by kstate]. Qed.

Lemma io_only_cur s s' : io_only s s' -> s'.(cur) = s.(cur).
Proof. intros (_ & _ & ->). done. Qed.

Lemma io_only_held s s' : io_only s s' -> s'.(held) = s.(held).
Proof. intros (_ & _ & ->). done. Qed.

Lemma io_only_log s s' : io_only s s' -> s'.(log) = s.(log).
Proof. intros (_ & _ & ->). done. Qed.

Lemma io_only_sb s s' : io_only s s' -> s'.(sb) = s.(sb).
Proof. intros (_ & _ & ->). done. Qed.

Lemma io_only_trans s1 s2 s3 : io_only s1 s2 -> io_only s2 s3 -> io_only s1 s3.
Proof.
  intros H1 H2. pose proof (io_only_cur _ _ H1) as Hc. destruct H1 as (W1 & I1 & E1), H2 as (W2 & I2 & E2).
  rewrite Hc in W2. split_and!; [by eapply wakes_trans | intros j; by rewrite I2, I1 |].
  rewrite E2 at 1. rewrite E1. by kstate.
Qed.

Lemma env_io s s' pid : env s pid -> io_only s s' -> env s' pid.
Proof.
  intros He Hio. pose proof (io_only_cur _ _ Hio). pose proof (io_only_held _ _ Hio). destruct Hio as ((L & Me & _) & _).
  eapply env_pid; [done | done | done | intros i Hi; by apply Me | done].
Qed.

(** ** The view of a block *)

Lemma view_cached s pid H Pn i b bn : bc_inv s pid H Pn -> s.(bufs) !! i = Some b -> caches b bn -> view s bn = b.(b_data).
Proof.
  intros Hi Hb Hc. unfold view. destruct (list_find _ _) as [[j b']|] eqn:E.
  - apply list_find_Some in E as (Hb' & Hc' & _). pose proof (bc_uniq _ _ _ _ Hi i j b b' bn Hb Hb' Hc Hc'). congruence.
  - apply list_find_None in E. rewrite Forall_lookup in E. by destruct (E i b).
Qed.

Lemma view_uncached s bn : (forall i b, s.(bufs) !! i = Some b -> ~ caches b bn) -> view s bn = disk_block s.(disk) bn.
Proof.
  intros Hn. unfold view. destruct (list_find _ _) as [[j b']|] eqn:E; [|done].
  apply list_find_Some in E as (Hb' & Hc' & _). by destruct (Hn j b').
Qed.

Lemma cached_dec s bn : (exists i b, s.(bufs) !! i = Some b /\ caches b bn) \/
  (forall i b, s.(bufs) !! i = Some b -> ~ caches b bn).
Proof.
  destruct (list_find (fun b => caches b bn) s.(bufs)) as [[i b]|] eqn:E.
  - apply list_find_Some in E as (Hb & Hc & _). left. eauto.
  - right. apply list_find_None in E. rewrite Forall_lookup in E. exact E.
Qed.

Lemma view_length s pid H Pn bn : bc_inv s pid H Pn -> length (view s bn) = 1024%nat.
Proof.
  intros Hi. destruct (cached_dec s bn) as [(i & b & Hb & Hc)|Hn].
  - rewrite (view_cached _ _ _ _ _ _ _ Hi Hb Hc). by eapply bc_data.
  - rewrite view_uncached by done. by eapply bc_disk.
Qed.

(** A change of the buffers that keeps what each cached block holds keeps the view. *)
Lemma view_same s s' bn :
  length s'.(bufs) = length s.(bufs) ->
  (forall i b b', s.(bufs) !! i = Some b -> s'.(bufs) !! i = Some b' ->
     (caches b bn <-> caches b' bn) /\ (caches b bn -> b'.(b_data) = b.(b_data))) ->
  disk_block s'.(disk) bn = disk_block s.(disk) bn -> view s' bn = view s bn.
Proof.
  intros HL HB HD. unfold view. revert HL HB. generalize s'.(bufs), s.(bufs). intros l' l HL HB.
  revert l' HL HB. induction l as [|b l IH]; intros [|b' l'] HL HB; try done; cbn.
  destruct (HB 0%nat b b' eq_refl eq_refl) as [Hiff Hdat].
  destruct (decide (caches b bn)) as [Hc|Hc], (decide (caches b' bn)) as [Hc'|Hc'];
    [by apply Hdat | tauto | tauto |].
  specialize (IH l' ltac:(by injection HL) ltac:(intros i; exact (HB (S i)))).
  destruct (list_find _ l') as [[? ?]|], (list_find _ l) as [[? ?]|]; exact IH.
Qed.

(** ** Finding a buffer *)

Lemma find_buf_Some f bs l i : find_buf f bs l = Some i -> i ∈ l /\ exists b, bs !! i = Some b /\ f b = true.
Proof.
  induction l as [|j l IH]; cbn; [done |]. destruct (bs !! j) as [x|] eqn:Ej.
  - destruct (f x) eqn:Ef; [intros [= <-]; split; [set_solver + | eauto] |]. intros [? ?]%IH. split; [set_solver | done].
  - intros [? ?]%IH. split; [set_solver | done].
Qed.

Lemma find_buf_None f bs l : find_buf f bs l = None -> forall i b, i ∈ l -> bs !! i = Some b -> f b = false.
Proof.
  induction l as [|j l IH]; cbn; [set_solver |]. intros Hn i b Hi Hb. apply elem_of_cons in Hi as [->|Hi].
  - rewrite Hb in Hn. destruct (f b) eqn:Ef; [done |]. done.
  - apply (IH ltac:(destruct (bs !! j) as [x|]; [destruct (f x); [done | exact Hn] | exact Hn]) i b Hi Hb).
Qed.

Lemma lru_elem s pid H Pn i b : bc_inv s pid H Pn -> s.(bufs) !! i = Some b -> i ∈ s.(blru).
Proof.
  intros Hi Hb. rewrite (bc_lru _ _ _ _ Hi). apply elem_of_seq. apply lookup_lt_Some in Hb. rewrite (bc_len _ _ _ _ Hi) in Hb. lia.
Qed.

(** A list of distinct elements of a set is no longer than the set is large. *)
Lemma NoDup_bound {A} `{Countable A} (l : list A) (X : gset A) :
  NoDup l -> (forall x, x ∈ l -> x ∈ X) -> (length l <= size X)%nat.
Proof.
  intros Hl Hx. unfold size, set_size. simpl. apply submseteq_length, NoDup_submseteq; [done |].
  intros x ?. by apply elem_of_elements, Hx.
Qed.

Lemma free_buffer s pid H Pn : bc_inv s pid H Pn -> (size H + size Pn < NBUF)%nat ->
  exists i b, s.(bufs) !! i = Some b /\ b.(b_refcnt) = 0.
Proof.
  intros Hi Hs. destruct (decide (Exists (fun b => b.(b_refcnt) = 0) s.(bufs))) as [He|Hne].
  { apply Exists_exists in He as (b & Hb & Hr). apply list_elem_of_lookup in Hb as [i Hb]. eauto. }
  exfalso. rewrite <- Forall_Exists_neg, Forall_lookup in Hne.
  set (bno i := match s.(bufs) !! i with Some b => b.(b_blockno) | None => 0 end).
  assert (forall i, i ∈ seq 0 NBUF -> i ∉ H -> exists b, s.(bufs) !! i = Some b /\ caches b (bno i) /\ bno i ∈ Pn) as Hp.
  { intros i Hin HnH. apply elem_of_seq in Hin. destruct (lookup_lt_is_Some_2 s.(bufs) i) as [b Hb].
    { rewrite (bc_len _ _ _ _ Hi). lia. }
    pose proof (bc_ref _ _ _ _ Hi i b Hb) as Hr. unfold refs in Hr. rewrite decide_False in Hr by done.
    specialize (Hne i b Hb). exists b. unfold bno, caches. rewrite Hb. case_decide as Hd; [tauto | lia]. }
  pose proof (filter_app_complement (fun i => i ∈ H) (seq 0 NBUF)) as Hf. apply Permutation_length in Hf.
  rewrite length_app, length_seq in Hf.
  assert (length (filter (fun i => i ∈ H) (seq 0 NBUF)) <= size H)%nat as B1.
  { apply NoDup_bound; [apply NoDup_filter, NoDup_seq |]. intros x Hx%list_elem_of_filter. tauto. }
  assert (length (filter (fun i => i ∉ H) (seq 0 NBUF)) <= size Pn)%nat as B2; [|lia].
  rewrite <- (length_fmap bno). apply NoDup_bound.
  - apply NoDup_fmap_2_strong; [|apply NoDup_filter, NoDup_seq].
    intros x y [Hx1 Hx2]%list_elem_of_filter [Hy1 Hy2]%list_elem_of_filter Heq.
    destruct (Hp x Hx2 Hx1) as (b & Hb & Hc & _), (Hp y Hy2 Hy1) as (b' & Hb' & Hc' & _).
    eapply (bc_uniq _ _ _ _ Hi x y b b' (bno x)); [done | done | done | by rewrite Heq].
  - intros bn (i & -> & [Hn Hin]%list_elem_of_filter)%list_elem_of_fmap. destruct (Hp i Hin Hn) as (_ & _ & _ & ?). done.
Qed.

(** ** bread() *)

(** Buffer [i] caches block [bn] with contents [d]. *)
Definition buf_at s (i : nat) bn (d : list Z) : Prop :=
  exists b, s.(bufs) !! i = Some b /\ caches b bn /\ b.(b_data) = d.

(** No buffer the process holds caches [bn]. *)
Definition not_held s H bn : Prop := forall i b, i ∈ H -> s.(bufs) !! i = Some b -> ~ caches b bn.

Lemma view_clean s pid H Pn bn : bc_inv s pid H Pn -> not_held s H bn -> bn ∉ Pn -> view s bn = disk_block s.(disk) bn.
Proof.
  intros Hi Hn Hp. destruct (cached_dec s bn) as [(i & b & Hb & Hc)|Hu]; [|by apply view_uncached].
  rewrite (view_cached _ _ _ _ _ _ _ Hi Hb Hc). destruct Hc as [Hd <-].
  eapply (bc_clean _ _ _ _ Hi i b); [done | done | | done]. intros Hin. by eapply Hn.
Qed.

(** The process takes the lock of buffer [i], whose entry becomes [b']. *)
Lemma bc_inv_take s pid H Pn i b b' bn :
  bc_inv s pid H Pn -> i ∉ H -> s.(bufs) !! i = Some b ->
  caches b' bn -> b'.(b_valid) <> 0 -> length b'.(b_data) = 1024%nat ->
  (forall j x, j <> i -> s.(bufs) !! j = Some x -> ~ caches x bn) ->
  (caches b bn \/ b.(b_refcnt) = 0) ->
  b'.(b_refcnt) = 1 + (if decide (bn ∈ Pn) then 1 else 0) ->
  bc_inv (set_slocks (<[SlBuf i := mkSleeplock 1 pid]> s.(slocks)) (set_bufs (<[i := b']> s.(bufs)) s)) pid ({[i]} ∪ H) Pn.
Proof.
  intros Hi HiH Hb Hc' Hv' Hd' Hoth Hold Hr'. pose proof (lookup_lt_Some _ _ _ Hb) as Hlt.
  assert (forall j x, <[i := b']> s.(bufs) !! j = Some x -> (j = i /\ x = b') \/ (j <> i /\ s.(bufs) !! j = Some x)) as Hl.
  { intros j x. destruct (decide (j = i)) as [->|]; [rewrite list_lookup_insert_eq by done | rewrite list_lookup_insert_ne by done]; naive_solver. }
  pose proof Hi as [He Hn Hl' Hda Hdi Hde Hu Hre Hp Hh Hcl Hlk]. constructor; cbn [bufs set_bufs set_slocks blru disk slocks].
  - eapply env_pid; [exact He | done | done | done | done].
  - by rewrite length_insert.
  - done.
  - intros j x [[-> ->]|[? Hx]]%Hl; [done | by eapply Hda].
  - done.
  - intros j x [[-> ->]|[? Hx]]%Hl; [destruct Hc'; tauto | by eapply Hde].
  - intros j k x y bn' [[-> ->]|[Hj Hx]]%Hl [[-> ->]|[Hk Hy]]%Hl Hcx Hcy; [done | | | by eapply Hu].
    + exfalso. destruct Hc' as [_ <-], Hcx as [_ <-]. by eapply (Hoth k).
    + exfalso. destruct Hc' as [_ <-], Hcy as [_ <-]. by eapply (Hoth j).
  - intros j x [[-> ->]|[Hj Hx]]%Hl.
    + rewrite Hr'. unfold refs. rewrite (decide_True (P := i ∈ {[i]} ∪ H)) by set_solver +. destruct Hc' as [-> ->]. f_equal.
      destruct (decide (bn ∈ Pn)); [by rewrite decide_True | rewrite decide_False; tauto].
    + rewrite (Hre j x Hx). unfold refs. f_equal. apply decide_ext. set_solver.
  - intros bn' Hbn. destruct (Hp bn' Hbn) as (j & x & Hx & Hcx). destruct (decide (j = i)) as [->|Hj].
    + exists i, b'. rewrite list_lookup_insert_eq by done. split; [done |]. assert (x = b) as -> by congruence.
      destruct Hold as [Hcb|Hrb]; [destruct Hcb, Hcx, Hc'; unfold caches; split; congruence |].
      rewrite (Hre i b Hb) in Hrb. unfold refs in Hrb. destruct Hcx as [? ?]. rewrite (decide_True (P := _ /\ _)) in Hrb by (split; congruence).
      repeat case_decide; lia.
    + exists j, x. by rewrite list_lookup_insert_ne.
  - intros j [->%elem_of_singleton|Hj]%elem_of_union.
    + exists b'. rewrite list_lookup_insert_eq by done. split; [done | apply Hc'].
    + destruct (Hh j Hj) as (x & Hx & Hdx). exists x. rewrite list_lookup_insert_ne by congruence. done.
  - intros j x [[-> ->]|[Hj Hx]]%Hl Hdx HjH HPn; [set_solver +HjH | eapply Hcl; [done | done | set_solver +HjH | done]].
  - intros j. unfold slock. cbn [slocks set_slocks]. destruct (decide (j = i)) as [->|Hj].
    + rewrite lookup_insert_eq, decide_True by set_solver +. done.
    + rewrite lookup_insert_ne by congruence. specialize (Hlk j). unfold slock in Hlk. rewrite Hlk. apply decide_ext. set_solver +Hj.
Qed.

Lemma get_buf_Ok i s b : s.(bufs) !! i = Some b -> get_buf i s = Ok b s.
Proof. unfold get_buf. by intros ->. Qed.

Lemma alter_bufs (f : buf -> buf) i (l : list buf) b : l !! i = Some b -> alter f i l = <[i := f b]> l.
Proof. apply alter_lookup_insert. Qed.

Lemma bget_hit s pid H Pn i b bn :
  bc_inv s pid H Pn -> s.(bufs) !! i = Some b -> caches b bn -> i ∉ H -> b.(b_refcnt) + 1 < 2 ^ 32 ->
  bget ROOTDEV bn s = Ok i (set_slocks (<[SlBuf i := mkSleeplock 1 pid]> s.(slocks))
    (set_bufs (<[i := set_b_refcnt (b.(b_refcnt) + 1) b]> s.(bufs)) s)).
Proof.
  intros Hi Hb Hc HiH Hr. pose proof (bc_env _ _ _ _ Hi) as He. unfold bget.
  erewrite bind_Ok by (apply acquire_Ok, (e_lkbcache _ _ He)). erewrite bind_Ok by done. erewrite bind_Ok by done.
  cbn [bufs blru set_held]. destruct (find_buf _ s.(bufs) s.(blru)) as [j|] eqn:Ef.
  2: { pose proof (find_buf_None _ _ _ Ef i b (lru_elem _ _ _ _ _ _ Hi Hb) Hb) as Hf. cbn in Hf. destruct Hc as [Hd Hn].
       rewrite Hd, Hn, !Z.eqb_refl in Hf. done. }
  apply find_buf_Some in Ef as (_ & x & Hx & Hf). apply andb_true_iff in Hf as [Hf1%Z.eqb_eq Hf2%Z.eqb_eq].
  assert (j = i) as -> by (by eapply (bc_uniq _ _ _ _ Hi j i x b bn)). assert (x = b) as -> by congruence.
  erewrite bind_Ok by done. erewrite bind_Ok by (apply release_Ok; cbn; set_solver +).
  assert (0 <= b.(b_refcnt)) as Hr0 by (rewrite (bc_ref _ _ _ _ Hi i b Hb); unfold refs; repeat case_decide; lia).
  cbn [held set_held set_bufs bufs]. rewrite held_drop by apply He. rewrite (alter_bufs _ _ _ b Hb), u32_small by lia.
  match goal with |- context [set_held (held s) ?st] => replace (set_held (held s) st) with (set_bufs (<[i := set_b_refcnt (b.(b_refcnt) + 1) b]> s.(bufs)) s) by (by kstate) end.
  erewrite bind_Ok; [reflexivity |]. erewrite acquiresleep_run; [done | eapply env_pid; [exact He | done..] |].
  change (slock (set_bufs _ s) (SlBuf i)) with (slock s (SlBuf i)). rewrite (bc_lock _ _ _ _ Hi i), decide_False by done. done.
Qed.

Lemma bget_miss s pid H Pn bn :
  bc_inv s pid H Pn -> (forall i b, s.(bufs) !! i = Some b -> ~ caches b bn) -> (size H + size Pn < NBUF)%nat ->
  exists i b, s.(bufs) !! i = Some b /\ b.(b_refcnt) = 0 /\
    bget ROOTDEV bn s = Ok i (set_slocks (<[SlBuf i := mkSleeplock 1 pid]> s.(slocks))
      (set_bufs (<[i := mkBuf 0 ROOTDEV bn 1 b.(b_data)]> s.(bufs)) s)).
Proof.
  intros Hi Hu Hs. pose proof (bc_env _ _ _ _ Hi) as He. unfold bget.
  erewrite bind_Ok by (apply acquire_Ok, (e_lkbcache _ _ He)). erewrite bind_Ok by done. erewrite bind_Ok by done.
  cbn [bufs blru set_held]. destruct (find_buf _ s.(bufs) s.(blru)) as [j|] eqn:Ef.
  { apply find_buf_Some in Ef as (_ & x & Hx & Hf). apply andb_true_iff in Hf as [Hf1%Z.eqb_eq Hf2%Z.eqb_eq].
    by destruct (Hu j x Hx). }
  destruct (find_buf _ s.(bufs) (rev s.(blru))) as [i|] eqn:Er.
  2: { destruct (free_buffer _ _ _ _ Hi Hs) as (i & b & Hb & Hr0).
       pose proof (find_buf_None _ _ _ Er i b ltac:(rewrite list_elem_of_In, <- in_rev, <- list_elem_of_In; by eapply lru_elem) Hb) as Hf.
       cbn in Hf. by rewrite Hr0 in Hf. }
  apply find_buf_Some in Er as (_ & b & Hb & Hf%Z.eqb_eq). exists i, b. split_and!; [done | done |].
  erewrite bind_Ok by done. erewrite bind_Ok by (apply release_Ok; cbn; set_solver +).
  cbn [held set_held set_bufs bufs]. rewrite held_drop by apply He. rewrite (alter_bufs _ _ _ b Hb).
  match goal with |- context [set_held (held s) ?st] => replace (set_held (held s) st) with (set_bufs (<[i := mkBuf 0 ROOTDEV bn 1 b.(b_data)]> s.(bufs)) s) by (by kstate) end.
  erewrite bind_Ok; [reflexivity |]. erewrite acquiresleep_run; [done | eapply env_pid; [exact He | done..] |].
  change (slock (set_bufs _ s) (SlBuf i)) with (slock s (SlBuf i)). rewrite (bc_lock _ _ _ _ Hi i), decide_False; [done |].
  intros Hin. pose proof (bc_ref _ _ _ _ Hi i b Hb) as Hr. unfold refs in Hr. rewrite decide_True in Hr by done. case_decide; lia.
Qed.

Definition bread_post s pid H Pn bn (i : nat) s' : Prop :=
  i ∉ H /\ bc_inv s' pid ({[i]} ∪ H) Pn /\ io_only s s' /\ s'.(disk) = s.(disk) /\ s'.(dwrites) = s.(dwrites) /\
  buf_at s' i bn (view s bn) /\ (forall j, j <> i -> s'.(bufs) !! j = s.(bufs) !! j) /\
  forall bn', view s' bn' = view s bn'.

Lemma io_take s pid i b : io_only s (set_slocks (<[SlBuf i := mkSleeplock 1 pid]> s.(slocks)) (set_bufs (<[i := b]> s.(bufs)) s)).
Proof.
  split_and!; [apply wakes_refl | | by kstate]. intros j. unfold slock. cbn [slocks set_slocks]. by rewrite lookup_insert_ne.
Qed.

Lemma view_insert s i b b' bn l : s.(bufs) !! i = Some b -> (caches b bn <-> caches b' bn) -> (caches b bn -> b'.(b_data) = b.(b_data)) ->
  view (set_slocks l (set_bufs (<[i := b']> s.(bufs)) s)) bn = view s bn.
Proof.
  intros Hb Hc Hd. apply view_same; cbn [bufs set_slocks set_bufs disk]; [by rewrite length_insert | | done].
  intros j x x' Hx. destruct (decide (j = i)) as [->|].
  - rewrite list_lookup_insert_eq by (by eapply lookup_lt_Some). intros [= <-]. assert (x = b) as -> by congruence. done.
  - rewrite list_lookup_insert_ne by done. intros Hx'. assert (x' = x) as -> by congruence. done.
Qed.

Lemma disk_fill s i b : s.(bufs) !! i = Some b ->
  (virtio_disk_rw i false;; upd_buf i (set_b_valid 1)) s =
  Ok tt (set_bufs (<[i := set_b_valid 1 (set_b_data (disk_block s.(disk) b.(b_blockno)) b)]> s.(bufs)) s).
Proof.
  intros Hb. pose proof (lookup_lt_Some _ _ _ Hb). unfold virtio_disk_rw.
  erewrite bind_Ok. 2: { erewrite bind_Ok by (by apply get_buf_Ok). erewrite bind_Ok by done. reflexivity. }
  unfold upd_buf, modify. f_equal. cbn [bufs set_bufs]. rewrite (alter_bufs _ i s.(bufs) b) by done.
  rewrite (alter_bufs _ i _ (set_b_data (disk_block s.(disk) b.(b_blockno)) b)) by (by apply list_lookup_insert_eq).
  by rewrite list_insert_insert_eq.
Qed.

Lemma bread_hit s pid H Pn i b bn :
  bc_inv s pid H Pn -> s.(bufs) !! i = Some b -> caches b bn -> i ∉ H ->
  wp (bread ROOTDEV bn) (bread_post s pid H Pn bn) s.
Proof.
  intros Hi Hb Hc HiH. unfold bread. pose proof (bc_ref _ _ _ _ Hi i b Hb) as Hr.
  assert (b.(b_valid) <> 0) as Hv by (eapply bc_dev; [done | done | apply Hc]).
  apply wp_bind. eapply wp_Ok; [eapply bget_hit; try done; rewrite Hr; unfold refs; repeat case_decide; lia |].
  set (b' := set_b_refcnt (b_refcnt b + 1) b). set (s1 := set_slocks _ _).
  assert (s1.(bufs) !! i = Some b') as Hb1 by (apply list_lookup_insert_eq; by eapply lookup_lt_Some).
  apply wp_bind. eapply wp_Ok; [by apply get_buf_Ok |]. apply wp_bind. unfold when. cbn [b_valid b' set_b_refcnt].
  destruct (Z.eqb_spec b.(b_valid) 0); [done |]. apply wp_ret, wp_ret. split_and!; [done | | apply io_take | done | done | | |].
  - apply (bc_inv_take s pid H Pn i b b' bn); try done.
    + by eapply (bc_data _ _ _ _ Hi i b).
    + intros j x Hj Hx Hcx. apply Hj. by eapply (bc_uniq _ _ _ _ Hi j i x b bn).
    + by left.
    + cbn. rewrite Hr. unfold refs. rewrite decide_False by done. destruct Hc as [-> ->].
      destruct (decide (bn ∈ Pn)); [by rewrite decide_True | rewrite decide_False; [lia | tauto]].
  - exists b'. split_and!; [done | done |]. by rewrite (view_cached _ _ _ _ _ _ _ Hi Hb Hc).
  - intros j Hj. by apply list_lookup_insert_ne.
  - intros bn'. by apply (view_insert s i b b').
Qed.

(** A recycled buffer [i] filled with block [bn]: no view changes, since the block it
    cached before was clean. *)
Lemma view_recycle s pid H Pn i b bn l : bc_inv s pid H Pn ->
  (forall j x, s.(bufs) !! j = Some x -> ~ caches x bn) -> s.(bufs) !! i = Some b -> b.(b_refcnt) = 0 ->
  let s' := set_slocks l (set_bufs (<[i := mkBuf 1 ROOTDEV bn 1 (disk_block s.(disk) bn)]> s.(bufs)) s) in
  bc_inv s' pid ({[i]} ∪ H) Pn -> forall bn', view s' bn' = view s bn'.
Proof.
  intros Hi Hu Hb Hr s' Hi' bn'. pose proof (lookup_lt_Some _ _ _ Hb) as Hlt.
  assert (b.(b_dev) = ROOTDEV -> i ∉ H /\ b.(b_blockno) ∉ Pn) as Hfree.
  { intros Hd. rewrite (bc_ref _ _ _ _ Hi i b Hb) in Hr. unfold refs in Hr. repeat case_decide; try lia. tauto. }
  destruct (decide (bn' = bn)) as [->|Hne].
  - rewrite (view_uncached s bn Hu). apply (view_cached s' pid _ Pn i (mkBuf 1 ROOTDEV bn 1 (disk_block s.(disk) bn)) bn Hi'); [by apply list_lookup_insert_eq | done].
  - destruct (decide (caches b bn')) as [Hcb|Hcb]; [|apply (view_insert s i b); [done | split; [done | by intros [_ ?]] | done]].
    rewrite (view_cached s pid H Pn i b bn' Hi Hb Hcb), view_uncached; cbn [bufs disk s' set_slocks set_bufs].
    + destruct Hcb as [Hd <-]. symmetry. eapply bc_clean; [exact Hi | exact Hb | done | by apply Hfree..].
    + intros j x Hx Hcx. destruct (decide (j = i)) as [->|Hj].
      * rewrite list_lookup_insert_eq in Hx by done. injection Hx as <-. by destruct Hcx.
      * rewrite list_lookup_insert_ne in Hx by done. apply Hj. by eapply (bc_uniq _ _ _ _ Hi j i x b bn').
Qed.

Lemma bread_miss s pid H Pn bn :
  bc_inv s pid H Pn -> (size H + size Pn < NBUF)%nat -> (forall j x, s.(bufs) !! j = Some x -> ~ caches x bn) ->
  wp (bread ROOTDEV bn) (bread_post s pid H Pn bn) s.
Proof.
  intros Hi Hs Hu. unfold bread. destruct (bget_miss _ _ _ _ bn Hi Hu Hs) as (i & b & Hb & Hr & E).
  apply wp_bind. eapply wp_Ok; [exact E |].
  assert (i ∉ H) as HiH.
  { intros Hin. rewrite (bc_ref _ _ _ _ Hi i b Hb) in Hr. unfold refs in Hr. rewrite decide_True in Hr by done. case_decide; lia. }
  set (b0 := mkBuf 0 _ _ _ _). set (s1 := set_slocks _ _). pose proof (lookup_lt_Some _ _ _ Hb) as Hlt.
  assert (s1.(bufs) !! i = Some b0) as Hb1 by (by apply list_lookup_insert_eq).
  apply wp_bind. eapply wp_Ok; [by apply get_buf_Ok |]. apply wp_bind. unfold when. cbn [b_valid b0 Z.eqb].
  set (b' := mkBuf 1 ROOTDEV bn 1 (disk_block s.(disk) bn)).
  eapply wp_Ok; [by apply (disk_fill s1 i b0) |]. apply wp_ret. cbn [bufs s1 set_slocks set_bufs disk]. rewrite list_insert_insert_eq.
  change (set_b_valid 1 _) with b'.
  match goal with |- bread_post _ _ _ _ _ _ ?st =>
    replace st with (set_slocks (<[SlBuf i := mkSleeplock 1 pid]> s.(slocks)) (set_bufs (<[i := b']> s.(bufs)) s)) by reflexivity end.
  set (s' := set_slocks _ _). assert (bc_inv s' pid ({[i]} ∪ H) Pn) as Hi'.
  { apply (bc_inv_take s pid H Pn i b b' bn); try done; [apply (bc_disk _ _ _ _ Hi) | intros j x _; apply Hu | by right |].
    cbn. rewrite decide_False; [done |]. intros Hin. destruct (bc_pin _ _ _ _ Hi bn Hin) as (j & x & Hx & Hcx). by eapply Hu. }
  split_and!; [done | done | apply io_take | done | done | | |].
  - exists b'. split_and!; [by apply list_lookup_insert_eq | done |]. by rewrite view_uncached.
  - intros j Hj. by apply list_lookup_insert_ne.
  - by apply (view_recycle s pid H Pn i b).
Qed.

Lemma bread_run s pid H Pn bn :
  bc_inv s pid H Pn -> (size H + size Pn < NBUF)%nat -> not_held s H bn ->
  wp (bread ROOTDEV bn) (bread_post s pid H Pn bn) s.
Proof.
  intros Hi Hs Hnh. destruct (cached_dec s bn) as [(i & b & Hb & Hc)|Hu]; [|by apply bread_miss].
  eapply bread_hit; [done | done | done |]. intros Hin. by eapply Hnh.
Qed.

(** ** Operations on a held buffer *)

(** The entry of buffer [i], which caches [bn], becomes [b']; possibly block [bn] is
    written, the lock of [i] released, or [bn] pinned or unpinned. *)
Lemma bc_inv_change s s' pid H H' Pn Pn' i b b' bn :
  bc_inv s pid H Pn -> s.(bufs) !! i = Some b -> caches b bn -> caches b' bn -> b'.(b_valid) = b.(b_valid) ->
  length b'.(b_data) = 1024%nat -> env s' pid -> s'.(bufs) = <[i := b']> s.(bufs) -> s'.(blru) ≡ₚ s.(blru) ->
  (forall bn', bn' <> bn -> disk_block s'.(disk) bn' = disk_block s.(disk) bn') -> length (disk_block s'.(disk) bn) = 1024%nat ->
  (forall j, j <> i -> j ∈ H' <-> j ∈ H) -> (forall x, x <> bn -> x ∈ Pn' <-> x ∈ Pn) ->
  b'.(b_refcnt) = refs H' Pn' i b' ->
  (i ∉ H' -> bn ∉ Pn' -> b'.(b_data) = disk_block s'.(disk) bn) ->
  (forall j, slock s' (SlBuf j) = if decide (j ∈ H') then mkSleeplock 1 pid else no_lock) ->
  bc_inv s' pid H' Pn'.
Proof.
  intros Hi Hb Hc Hc' Hv Hd' He' Eb El Ed Hlen HH HP Hr Hcl Hlk.
  pose proof Hi as [He Hn Hl' Hda Hdi Hde Hu Hre Hp Hh Hclean Hlock]. pose proof (lookup_lt_Some _ _ _ Hb) as Hlt.
  assert (forall j x, s'.(bufs) !! j = Some x -> (j = i /\ x = b') \/ (j <> i /\ s.(bufs) !! j = Some x)) as Hl.
  { intros j x. rewrite Eb. destruct (decide (j = i)) as [->|]; [rewrite list_lookup_insert_eq by done | rewrite list_lookup_insert_ne by done]; naive_solver. }
  assert (s'.(bufs) !! i = Some b') as Hbi by (rewrite Eb; by apply list_lookup_insert_eq).
  assert (forall j x, j <> i -> s.(bufs) !! j = Some x -> ~ caches x bn) as Hoth
    by (intros j x Hj Hx Hcx; apply Hj; by eapply Hu).
  constructor; [done | by rewrite Eb, length_insert | by rewrite El | | | | | | | | |].
  - intros j x [[-> ->]|[? Hx]]%Hl; [done | by eapply Hda].
  - intros bn'. destruct (decide (bn' = bn)) as [->|]; [done | by rewrite Ed].
  - intros j x [[-> ->]|[? Hx]]%Hl; [|by eapply Hde].
    destruct Hc as [E1 _], Hc' as [E2 _]. pose proof (Hde i b Hb). rewrite Hv, E2. rewrite E1 in *. done.
  - intros j k x y bn' [[-> ->]|[Hj Hx]]%Hl [[-> ->]|[Hk Hy]]%Hl Hcx Hcy; [done | | | by eapply Hu].
    + exfalso. eapply (Hoth k); [done | done |]. destruct Hc' as [_ <-], Hcx as [_ ->]. done.
    + exfalso. eapply (Hoth j); [done | done |]. destruct Hc' as [_ <-], Hcy as [_ ->]. done.
  - intros j x [[-> ->]|[Hj Hx]]%Hl; [done |]. rewrite (Hre j x Hx). unfold refs. f_equal; apply decide_ext.
    + symmetry. by apply HH.
    + split; intros [Hdx Hin]; (split; [done |]); apply HP; try done; intros E; by eapply (Hoth j x Hj Hx).
  - intros bn' Hbn. destruct (decide (bn' = bn)) as [->|Hne]; [by exists i, b' |].
    destruct (Hp bn') as (j & x & Hx & Hcx); [by apply HP |]. exists j, x. split; [|done].
    assert (j <> i) by (intros ->; assert (x = b) as -> by congruence; destruct Hc, Hcx; congruence).
    by rewrite Eb, list_lookup_insert_ne.
  - intros j Hj. destruct (decide (j = i)) as [->|Hne]; [exists b'; split; [done | apply Hc'] |].
    destruct (Hh j) as (x & Hx & Hdx); [by apply HH |]. exists x. split; [|done]. by rewrite Eb, list_lookup_insert_ne.
  - intros j x [[-> ->]|[Hj Hx]]%Hl Hdx HjH HPn.
    + destruct Hc' as [_ E2]. rewrite E2 in *. by apply Hcl.
    + assert (b_blockno x <> bn) as Hne by (intros E; by eapply (Hoth j x Hj Hx)).
      rewrite Ed by done. eapply Hclean; [done | done | by rewrite <- HH | by rewrite <- HP].
  - done.
Qed.

Lemma view_change s s' pid H' Pn' i b b' bn :
  bc_inv s' pid H' Pn' -> s.(bufs) !! i = Some b -> caches b bn -> caches b' bn -> s'.(bufs) = <[i := b']> s.(bufs) ->
  (forall bn', bn' <> bn -> disk_block s'.(disk) bn' = disk_block s.(disk) bn') ->
  forall bn', view s' bn' = if decide (bn' = bn) then b'.(b_data) else view s bn'.
Proof.
  intros Hi' Hb Hc Hc' Eb Ed bn'. pose proof (lookup_lt_Some _ _ _ Hb) as Hlt. destruct (decide (bn' = bn)) as [->|Hne].
  - apply (view_cached s' pid H' Pn' i b' bn Hi'); [|done]. rewrite Eb. by apply list_lookup_insert_eq.
  - apply view_same; [by rewrite Eb, length_insert | | by apply Ed].
    intros j x x' Hx Hx'. rewrite Eb in Hx'. destruct (decide (j = i)) as [->|].
    + rewrite list_lookup_insert_eq in Hx' by done. assert (x = b) as -> by congruence. injection Hx' as <-.
      destruct Hc as [_ E1], Hc' as [_ E2]. unfold caches. rewrite E1, E2. split; [split; intros []; congruence | intros [_ ?]; congruence].
    + rewrite list_lookup_insert_ne in Hx' by done. assert (x' = x) as -> by congruence. done.
Qed.

(** The operations keep the cache invariant, touch only the cache, and change the
    view of [bn] to [d] and of no other block. *)
Definition held_post s pid H' Pn' bn (d : list Z) s' : Prop :=
  bc_inv s' pid H' Pn' /\ io_only s s' /\ forall bn', view s' bn' = if decide (bn' = bn) then d else view s bn'.

Lemma refs_held s pid H Pn i b bn : bc_inv s pid H Pn -> i ∈ H -> s.(bufs) !! i = Some b -> caches b bn ->
  b.(b_refcnt) = 1 + (if decide (bn ∈ Pn) then 1 else 0).
Proof.
  intros Hi Hin Hb [Hd Hn]. rewrite (bc_ref _ _ _ _ Hi i b Hb). unfold refs. rewrite decide_True by done. f_equal.
  apply decide_ext. rewrite Hn. tauto.
Qed.

(** Stores into the data of a held buffer. *)
Lemma put_data_run s pid H Pn i bn d d' :
  bc_inv s pid H Pn -> i ∈ H -> buf_at s i bn d -> length d' = 1024%nat ->
  wp (upd_buf i (set_b_data d')) (fun _ s' => held_post s pid H Pn bn d' s' /\ buf_at s' i bn d' /\
    s'.(disk) = s.(disk) /\ s'.(dwrites) = s.(dwrites) /\ forall j, j <> i -> s'.(bufs) !! j = s.(bufs) !! j) s.
Proof.
  intros Hi Hin (b & Hb & Hc & Hd) Hlen. unfold upd_buf. apply wp_modify. rewrite (alter_bufs _ _ _ b Hb).
  set (b' := set_b_data d' b). set (s' := set_bufs _ s). pose proof (lookup_lt_Some _ _ _ Hb) as Hlt.
  assert (bc_inv s' pid H Pn) as Hi'.
  { apply (bc_inv_change s s' pid H H Pn Pn i b b' bn); try done.
    - eapply env_pid; [apply Hi | done..].
    - apply (bc_disk _ _ _ _ Hi).
    - apply (bc_ref _ _ _ _ Hi i b Hb).
    - apply (bc_lock _ _ _ _ Hi). }
  split_and!; [split_and! | | done | done |].
  - done.
  - split_and!; [apply wakes_refl | done | reflexivity].
  - by apply (view_change s s' pid H Pn i b b' bn).
  - exists b'. split_and!; [by apply list_lookup_insert_eq | done | done].
  - intros j Hj. by apply list_lookup_insert_ne.
Qed.

(** The data of the held buffer [i] of block [bn] is now [d]. *)
Definition edited s pid H Pn (i : nat) bn (d : list Z) s' : Prop :=
  bc_inv s' pid H Pn /\ io_only s s' /\ s'.(disk) = s.(disk) /\ s'.(dwrites) = s.(dwrites) /\ buf_at s' i bn d /\
  (forall j, j <> i -> s'.(bufs) !! j = s.(bufs) !! j) /\ forall bn', view s' bn' = if decide (bn' = bn) then d else view s bn'.

Lemma edited_refl s pid H Pn i bn d : bc_inv s pid H Pn -> buf_at s i bn d -> edited s pid H Pn i bn d s.
Proof.
  intros Hi Hb. split_and!; try done; [apply io_only_refl |]. intros bn'. case_decide; [subst bn' | done].
  destruct Hb as (b & Hb & Hc & <-). by eapply view_cached.
Qed.

Lemma edited_trans s1 s2 s3 pid H Pn i bn d d' :
  edited s1 pid H Pn i bn d s2 -> edited s2 pid H Pn i bn d' s3 -> edited s1 pid H Pn i bn d' s3.
Proof.
  intros (_ & I1 & D1 & W1 & _ & B1 & V1) (C2 & I2 & D2 & W2 & A2 & B2 & V2).
  split_and!; [done | by eapply io_only_trans | congruence | congruence | done | |].
  - intros j Hj. by rewrite B2, B1.
  - intros bn'. rewrite V2, V1. by case_decide.
Qed.

Lemma edit_run s pid H Pn i bn d (f : list Z -> list Z) :
  bc_inv s pid H Pn -> i ∈ H -> buf_at s i bn d -> length (f d) = 1024%nat ->
  wp (upd_buf i (fun x => set_b_data (f x.(b_data)) x)) (fun _ => edited s pid H Pn i bn (f d)) s.
Proof.
  intros Hi Hin Hat Hlen.
  assert (upd_buf i (fun x => set_b_data (f x.(b_data)) x) s = upd_buf i (set_b_data (f d)) s) as E.
  { destruct Hat as (b & Hb & _ & <-). unfold upd_buf, modify. by rewrite !(alter_bufs _ _ _ b Hb). }
  unfold wp. rewrite E. eapply wp_mono; [by apply (put_data_run s pid H Pn i bn d) |].
  intros ? s' ((? & ? & ?) & ? & ? & ? & ?). by split_and!.
Qed.

Lemma holding_buf s pid H Pn i : bc_inv s pid H Pn -> i ∈ H -> holdingsleep (SlBuf i) s = Ok true s.
Proof.
  intros Hi Hin. rewrite (holdingsleep_run _ _ pid) by apply Hi. rewrite (bc_lock _ _ _ _ Hi i), decide_True by done.
  cbn. by rewrite Z.eqb_refl.
Qed.

Lemma disk_block_insert d bn x bn' : disk_block (<[bn := x]> d) bn' = if decide (bn' = bn) then x else disk_block d bn'.
Proof.
  unfold disk_block. destruct (decide (bn' = bn)) as [->|]; [by rewrite lookup_insert_eq | by rewrite lookup_insert_ne].
Qed.

Lemma bwrite_run s pid H Pn i bn d :
  bc_inv s pid H Pn -> i ∈ H -> buf_at s i bn d ->
  wp (bwrite i) (fun _ s' => bc_inv s' pid H Pn /\ io_only s s' /\ s'.(bufs) = s.(bufs) /\
    s'.(disk) = <[bn := d]> s.(disk) /\ s'.(dwrites) = s.(dwrites) ++ [(bn, d)] /\ forall bn', view s' bn' = view s bn') s.
Proof.
  intros Hi Hin (b & Hb & Hc & Hd). pose proof (lookup_lt_Some _ _ _ Hb) as Hlt. unfold bwrite.
  apply wp_bind. eapply wp_Ok; [by eapply holding_buf |]. cbn [negb]. unfold virtio_disk_rw.
  apply wp_bind. eapply wp_Ok; [by apply get_buf_Ok |]. apply wp_modify. destruct Hc as [Hdev Hbn]. rewrite Hbn, Hd.
  set (s' := set_dwrites _ _). assert (s'.(bufs) = <[i := b]> s.(bufs)) as Eb by (by rewrite list_insert_id).
  assert (bc_inv s' pid H Pn) as Hi'.
  { apply (bc_inv_change s s' pid H H Pn Pn i b b bn); try done.
    - by apply (bc_data _ _ _ _ Hi i).
    - eapply env_pid; [apply Hi | done..].
    - intros bn' Hne. cbn. by rewrite disk_block_insert, decide_False.
    - cbn. rewrite disk_block_insert, decide_True by done. rewrite <- Hd. by apply (bc_data _ _ _ _ Hi i).
    - apply (bc_ref _ _ _ _ Hi i b Hb).
    - apply (bc_lock _ _ _ _ Hi). }
  split_and!; [done | | done | done | done |].
  - split_and!; [apply wakes_refl | done | reflexivity].
  - intros bn'. rewrite (view_change s s' pid H Pn i b b bn Hi') by (done || (intros; cbn; by rewrite disk_block_insert, decide_False)).
    destruct (decide (bn' = bn)) as [->|]; [|done]. symmetry. by apply (view_cached s pid H Pn i b bn Hi).
Qed.

(** The state after brelse() of buffer [i]. *)
Definition released_buf (i : nat) b s : kernel :=
  let r := b.(b_refcnt) - 1 in
  set_blru (if r =? 0 then i :: filter (fun j => j <> i) s.(blru) else s.(blru))
    (set_bufs (<[i := set_b_refcnt r b]> s.(bufs))
      (woken s.(cur) (Some (ChSleep (SlBuf i))) (set_slocks (<[SlBuf i := no_lock]> s.(slocks)) s))).

Lemma brelse_eq s pid H Pn i b bn :
  bc_inv s pid H Pn -> i ∈ H -> s.(bufs) !! i = Some b -> caches b bn -> brelse i s = Ok tt (released_buf i b s).
Proof.
  intros Hi Hin Hb Hc. pose proof (lookup_lt_Some _ _ _ Hb) as Hlt. pose proof (bc_env _ _ _ _ Hi) as He.
  pose proof (refs_held _ _ _ _ _ _ _ Hi Hin Hb Hc) as Hr. unfold brelse.
  erewrite bind_Ok by (by eapply holding_buf). cbn [negb]. erewrite bind_Ok by (by eapply releasesleep_run).
  set (s1 := woken _ _ _). assert (s1.(held) = s.(held)) as Hh1 by done. assert (s1.(bufs) = s.(bufs)) as Hb1 by done.
  erewrite bind_Ok by (apply acquire_Ok; rewrite Hh1; apply He). erewrite bind_Ok by done.
  cbn [bufs set_held]. rewrite Hb1, (alter_bufs _ _ _ b Hb), (u32_small (b_refcnt b - 1)) by (rewrite Hr; case_decide; lia).
  set (b' := set_b_refcnt (b_refcnt b - 1) b).
  erewrite bind_Ok by (apply (get_buf_Ok i _ b'); cbn; by apply list_lookup_insert_eq).
  unfold released_buf. fold s1. fold b'. cbn [b_refcnt b' set_b_refcnt].
  destruct (b_refcnt b - 1 =? 0); cbn [when]; erewrite bind_Ok by done;
    (rewrite release_Ok by (cbn; set_solver +)); f_equal; cbn [held set_held set_bufs set_blru bufs blru];
    rewrite Hh1, held_drop by apply He; reflexivity.
Qed.

Lemma lru_front (i : nat) (l : list nat) : NoDup l -> i ∈ l -> i :: filter (fun j => j <> i) l ≡ₚ l.
Proof.
  intros Hnd Hin. apply list_elem_of_split in Hin as (l1 & l2 & ->). apply NoDup_app in Hnd as (Hn1 & Hd & Hn2).
  apply NoDup_cons in Hn2 as [Hi2 Hn2]. rewrite filter_app, filter_cons_False by tauto.
  assert (forall l' : list nat, i ∉ l' -> filter (fun j => j <> i) l' = l') as Hf.
  { intros l' Hl'. induction l' as [|x l' IH]; [done |]. rewrite filter_cons_True by (intros ->; apply Hl'; set_solver +).
    f_equal. apply IH. set_solver. }
  rewrite !Hf; [by rewrite Permutation_middle | done |]. intros Hin1. apply (Hd i Hin1). set_solver +.
Qed.

Lemma brelse_run s pid H Pn i bn d :
  bc_inv s pid H Pn -> i ∈ H -> buf_at s i bn d -> (bn ∈ Pn \/ d = disk_block s.(disk) bn) ->
  wp (brelse i) (fun _ s' => bc_inv s' pid (H ∖ {[i]}) Pn /\ io_only s s' /\ s'.(disk) = s.(disk) /\
    s'.(dwrites) = s.(dwrites) /\ (forall j, j <> i -> s'.(bufs) !! j = s.(bufs) !! j) /\ forall bn', view s' bn' = view s bn') s.
Proof.
  intros Hi Hin (b & Hb & Hc & Hd) Hdirty. eapply wp_Ok; [by eapply brelse_eq |]. set (s' := released_buf i b s).
  pose proof (lookup_lt_Some _ _ _ Hb) as Hlt. pose proof (bc_env _ _ _ _ Hi) as He.
  pose proof (refs_held _ _ _ _ _ _ _ Hi Hin Hb Hc) as Hr. destruct (e_me _ _ He) as (me & p & Hcur & Hp & Hpid).
  set (b' := set_b_refcnt (b_refcnt b - 1) b).
  assert (io_only s s') as Hio.
  { split_and!; [|intros j; unfold slock; cbn; by rewrite lookup_insert_ne | reflexivity]. cbn. rewrite Hcur. by apply woken_wakes. }
  assert (s'.(bufs) = <[i := b']> s.(bufs)) as Eb by reflexivity.
  assert (bc_inv s' pid (H ∖ {[i]}) Pn) as Hi'.
  { apply (bc_inv_change s s' pid H (H ∖ {[i]}) Pn Pn i b b' bn); try done.
    - by apply (bc_data _ _ _ _ Hi i b).
    - by eapply env_io.
    - cbn. destruct (_ =? 0); [|done]. apply lru_front; [|by eapply lru_elem]. rewrite (bc_lru _ _ _ _ Hi). apply NoDup_seq.
    - apply (bc_disk _ _ _ _ Hi).
    - intros j Hj. set_solver +Hj.
    - cbn [b' b_refcnt set_b_refcnt]. rewrite Hr. unfold refs. cbn [b' b_dev b_blockno set_b_refcnt].
      rewrite (decide_False (P := i ∈ H ∖ {[i]})) by set_solver +. destruct Hc as [-> ->].
      destruct (decide (bn ∈ Pn)); [by rewrite decide_True | rewrite decide_False; [lia | tauto]].
    - intros _ Hn. cbn. destruct Hdirty as [?|E]; [done | by rewrite Hd].
    - intros j. unfold slock. cbn. destruct (decide (j = i)) as [->|Hj].
      + rewrite lookup_insert_eq, decide_False by set_solver +. done.
      + rewrite lookup_insert_ne by congruence. pose proof (bc_lock _ _ _ _ Hi j) as Hl. unfold slock in Hl. rewrite Hl.
        apply decide_ext. set_solver +Hj. }
  split_and!; [done | done | done | done | |].
  - intros j Hj. rewrite Eb. by apply list_lookup_insert_ne.
  - intros bn'. rewrite (view_change s s' pid (H ∖ {[i]}) Pn i b b' bn Hi') by done.
    destruct (decide (bn' = bn)) as [->|]; [|done]. symmetry. by apply (view_cached s pid H Pn i b bn Hi).
Qed.

(** bpin() and bunpin(). *)
Lemma adjust_ref_eq s pid i b (k : Z) : env s pid -> s.(bufs) !! i = Some b -> 0 <= b.(b_refcnt) + k < 2 ^ 32 ->
  (acquire LkBcache;; upd_buf i (fun x => set_b_refcnt (u32 (x.(b_refcnt) + k)) x);; release LkBcache) s =
  Ok tt (set_bufs (<[i := set_b_refcnt (b.(b_refcnt) + k) b]> s.(bufs)) s).
Proof.
  intros He Hb Hk. erewrite bind_Ok by (apply acquire_Ok, He). erewrite bind_Ok by done.
  rewrite release_Ok by (cbn; set_solver +). cbn [held set_held bufs set_bufs]. rewrite held_drop by apply He.
  rewrite (alter_bufs _ _ _ b Hb), u32_small by done. f_equal.
Qed.

Lemma pin_run s pid H Pn Pn' i bn d (k : Z) (m : M kernel unit) :
  bc_inv s pid H Pn -> i ∈ H -> buf_at s i bn d -> (forall x, x <> bn -> x ∈ Pn' <-> x ∈ Pn) ->
  k = (if decide (bn ∈ Pn') then 1 else 0) - (if decide (bn ∈ Pn) then 1 else 0) ->
  m = (acquire LkBcache;; upd_buf i (fun x => set_b_refcnt (u32 (x.(b_refcnt) + k)) x);; release LkBcache) ->
  wp m (fun _ s' => bc_inv s' pid H Pn' /\ io_only s s' /\ s'.(disk) = s.(disk) /\ s'.(dwrites) = s.(dwrites) /\
    buf_at s' i bn d /\ (forall j, j <> i -> s'.(bufs) !! j = s.(bufs) !! j) /\ forall bn', view s' bn' = view s bn') s.
Proof.
  intros Hi Hin (b & Hb & Hc & Hd) HP Hk ->. pose proof (lookup_lt_Some _ _ _ Hb) as Hlt.
  pose proof (refs_held _ _ _ _ _ _ _ Hi Hin Hb Hc) as Hr.
  eapply wp_Ok; [apply (adjust_ref_eq s pid i b k); [apply Hi | done | rewrite Hr, Hk; repeat case_decide; lia] |].
  set (b' := set_b_refcnt _ b). set (s' := set_bufs _ s).
  assert (bc_inv s' pid H Pn') as Hi'.
  { apply (bc_inv_change s s' pid H H Pn Pn' i b b' bn); try done.
    - by apply (bc_data _ _ _ _ Hi i b).
    - eapply env_pid; [apply Hi | done..].
    - apply (bc_disk _ _ _ _ Hi).
    - cbn [b' b_refcnt set_b_refcnt]. rewrite Hr, Hk. unfold refs. cbn [b' b_dev b_blockno set_b_refcnt].
      rewrite (decide_True (P := i ∈ H)) by done. destruct Hc as [-> ->].
      destruct (decide (bn ∈ Pn')); [rewrite (decide_True (P := _ /\ _)) by done | rewrite (decide_False (P := _ /\ _)) by tauto];
        case_decide; lia.
    - apply (bc_lock _ _ _ _ Hi). }
  split_and!; [done | | done | done | | |].
  - split_and!; [apply wakes_refl | done | reflexivity].
  - exists b'. split_and!; [by apply list_lookup_insert_eq | done | done].
  - intros j Hj. by apply list_lookup_insert_ne.
  - intros bn'. rewrite (view_change s s' pid H Pn' i b b' bn Hi') by done.
    destruct (decide (bn' = bn)) as [->|]; [|done]. symmetry. by apply (view_cached s pid H Pn i b bn Hi).
Qed.

(** What binit() changes. *)
Lemma binit_state s : LkBcache ∉ s.(held) -> (forall l, LkSleep l ∉ s.(held)) ->
  wp binit (fun _ s' => s' = set_blru (rev (seq 0 NBUF)) (set_slocks s'.(slocks) s) /\
    forall i, slock s' (SlBuf i) = if decide (i < NBUF)%nat then no_lock else slock s (SlBuf i)) s.
Proof.
  intros Hlk Hsl. unfold binit. apply wp_bind. eapply wp_Ok; [by apply initlock_Ok |]. apply wp_bind, wp_modify.
  apply (wp_for_range _ (fun k s' => s' = set_blru (rev (seq 0 k)) (set_slocks s'.(slocks) s) /\
    forall i, slock s' (SlBuf i) = if decide (i < k)%nat then no_lock else slock s (SlBuf i))).
  - split; [by destruct s | intros i; by rewrite decide_False by lia].
  - intros k s' Hk [E Hl]. unfold initsleeplock. apply wp_bind, wp_bind. eapply wp_Ok; [apply initlock_Ok; rewrite E; apply Hsl |]. apply wp_modify, wp_modify. split.
    + rewrite E. cbn. rewrite seq_app, rev_app_distr. reflexivity.
    + intros i. unfold slock. cbn. destruct (decide (i = k)) as [->|Hne].
      * rewrite lookup_insert_eq, decide_True by lia. done.
      * rewrite lookup_insert_ne by congruence. specialize (Hl i). unfold slock in Hl. rewrite Hl.
        destruct (decide (i < k)%nat); [rewrite decide_True by lia | rewrite decide_False by lia]; done.
  - intros s' [E Hl]. by split.
Qed.

(** binit() of the zeroed static buffers sets the invariant up. *)
Lemma binit_run s pid b0 :
  env s pid -> s.(bufs) = replicate NBUF b0 -> b0.(b_valid) = 0 -> b0.(b_dev) = 0 -> b0.(b_refcnt) = 0 -> length b0.(b_data) = 1024%nat ->
  (forall i, (NBUF <= i)%nat -> slock s (SlBuf i) = no_lock) -> (forall bn, length (disk_block s.(disk) bn) = 1024%nat) ->
  wp binit (fun _ s' => bc_inv s' pid ∅ ∅ /\ s' = set_blru s'.(blru) (set_slocks s'.(slocks) s)) s.
Proof.
  intros He Hb Hv Hd Hr Hlen Hsl Hdisk. eapply wp_mono; [apply binit_state; [apply (e_lkbcache _ _ He) | apply (e_lksleep _ _ He)] |].
  intros _ s' [E Hl]. assert (blru s' = rev (seq 0 NBUF)) as El by (by rewrite E).
  split; [|rewrite E at 1; by rewrite El].
  assert (s'.(bufs) = replicate NBUF b0) as Hb' by (by rewrite E).
  assert (forall i b, bufs s' !! i = Some b -> b = b0) as Hall by (intros i b Hi; rewrite Hb' in Hi; by apply lookup_replicate in Hi as [-> _]).
  constructor.
  + rewrite E. by eapply env_pid.
  + by rewrite Hb', length_replicate.
  + rewrite E. cbn [blru set_blru]. symmetry. apply Permutation_rev.
  + intros i b ->%Hall. done.
  + rewrite E. exact Hdisk.
  + intros i b ->%Hall. rewrite Hv, Hd. done.
  + intros i j b b' bn ->%Hall _ [Hc _]. by rewrite Hd in Hc.
  + intros i b ->%Hall. unfold refs. rewrite Hr, !decide_False; [done | rewrite Hd; intros [? _]; done | set_solver +].
  + set_solver +.
  + set_solver +.
  + intros i b ->%Hall Hc. by rewrite Hd in Hc.
  + intros i. rewrite Hl, (decide_False (P := i ∈ ∅)) by set_solver +. destruct (decide (i < NBUF)%nat); [done |]. apply Hsl. lia.
Qed.
End bcache.
