(* ===== verification/Log.v ===== *)
(** * The log (kernel/log.c)

    Transactions of file system calls: begin_op(), log_write(), end_op(), and the
    commit and recovery procedures.  The header block holds [n] at offset 0 and the
    block numbers at offsets 4, 8, ... *)

From S2P Require Import Prelude State Mem Bytes Sched Sleeplock Bio.

Section log.
Context {P : Patience}.

Definition upd_log (f : logstate -> logstate) : M kernel unit := modify (fun s => set_log (f s.(log)) s).

(** log.lh.block[i] *)
Definition lh_get (g : logstate) (i : nat) : Z := default 0 (g.(lh_block) !! i).

Definition install_trans (recovering : bool) : M kernel unit :=
  g ← gets log;
  for_range (Z.to_nat g.(lh_n)) 0 (fun tail =>
    g ← gets log;
    lbuf ← bread g.(log_dev) (u32 (g.(log_start) + Z.of_nat tail + 1));
    dbuf ← bread g.(log_dev) (u32 (lh_get g tail));
    x ← get_buf lbuf;
    upd_buf dbuf (set_b_data x.(b_data));;
    bwrite dbuf;;
    when (negb recovering) (bunpin dbuf);;
    brelse lbuf;;
    brelse dbuf).

Definition read_head : M kernel unit :=
  g ← gets log;
  b ← bread g.(log_dev) (u32 g.(log_start));
  x ← get_buf b;
  upd_log (set_lh_n (s32 (get_u32 x.(b_data) 0)));;
  g ← gets log;
  for_range (Z.to_nat g.(lh_n)) 0 (fun i =>
    upd_log (fun g => set_lh_block (<[i := s32 (get_u32 x.(b_data) (4 + 4 * Z.of_nat i))]> g.(lh_block)) g));;
  brelse b.

Definition write_head : M kernel unit :=
  g ← gets log;
  b ← bread g.(log_dev) (u32 g.(log_start));
  upd_buf b (fun x => set_b_data (put_u32 x.(b_data) 0 g.(lh_n)) x);;
  for_range (Z.to_nat g.(lh_n)) 0 (fun i =>
    upd_buf b (fun x => set_b_data (put_u32 x.(b_data) (4 + 4 * Z.of_nat i) (lh_get g i)) x));;
  bwrite b;;
  brelse b.

Definition recover_from_log : M kernel unit :=
  read_head;;
  install_trans true;;
  upd_log (set_lh_n 0);;
  write_head.

(** sizeof(struct logheader) *)
Definition sizeof_logheader : Z := 4 + 4 * LOGSIZE.

Definition initlog (dev : Z) (sb : superblock) : M kernel unit :=
  if BSIZE <=? sizeof_logheader then panic "initlog: too big logheader" else
  initlock LkLog;;
  upd_log (fun g => set_log_dev dev (set_log_size sb.(sb_nlog) (set_log_start sb.(sb_logstart) g)));;
  recover_from_log.

(** while(1) of begin_op() *)
Fixpoint begin_op_loop (fuel : nat) : M kernel unit :=
  match fuel with
  | O => fun _ => Timeout
  | S fuel' =>
      g ← gets log;
      if negb (g.(log_committing) =? 0) then
        sleep (Some ChLog) LkLog;; begin_op_loop fuel'
      else if LOGSIZE <? g.(lh_n) + (g.(log_outstanding) + 1) * MAXOPBLOCKS then
        sleep (Some ChLog) LkLog;; begin_op_loop fuel'
      else
        upd_log (fun g => set_log_outstanding (g.(log_outstanding) + 1) g);;
        release LkLog
  end.

Definition begin_op : M kernel unit :=
  acquire LkLog;;
  begin_op_loop (S patience).

Definition write_log : M kernel unit :=
  g ← gets log;
  for_range (Z.to_nat g.(lh_n)) 0 (fun tail =>
    g ← gets log;
    to ← bread g.(log_dev) (u32 (g.(log_start) + Z.of_nat tail + 1));
    from ← bread g.(log_dev) (u32 (lh_get g tail));
    x ← get_buf from;
    upd_buf to (set_b_data x.(b_data));;
    bwrite to;;
    brelse from;;
    brelse to).

Definition commit : M kernel unit :=
  g ← gets log;
  when (0 <? g.(lh_n))
    (write_log;;
     write_head;;
     install_trans false;;
     upd_log (set_lh_n 0);;
     write_head).

Definition end_op : M kernel unit :=
  acquire LkLog;;
  upd_log (fun g => set_log_outstanding (g.(log_outstanding) - 1) g);;
  g ← gets log;
  if negb (g.(log_committing) =? 0) then panic "log.committing" else
  let do_commit := g.(log_outstanding) =? 0 in
  (if do_commit then upd_log (set_log_committing 1) else wakeup (Some ChLog));;
  release LkLog;;
  when do_commit
    (commit;;
     acquire LkLog;;
     upd_log (set_log_committing 0);;
     wakeup (Some ChLog);;
     release LkLog).

(** for (i = 0; i < log.lh.n; i++) if (log.lh.block[i] == b->blockno) break; *)
Fixpoint log_find (n : nat) (i : nat) (g : logstate) (bn : Z) : nat :=
  match n with
  | O => i
  | S n' => if u32 (lh_get g i) =? bn then i else log_find n' (i + 1) g bn
  end.

Definition log_write (b : nat) : M kernel unit :=
  acquire LkLog;;
  g ← gets log;
  if (LOGSIZE <=? g.(lh_n)) || (g.(log_size) - 1 <=? g.(lh_n)) then panic "too big a transaction" else
  if g.(log_outstanding) <? 1 then panic "log_write outside of trans" else
  x ← get_buf b;
  let i := log_find (Z.to_nat g.(lh_n)) 0 g x.(b_blockno) in
  upd_log (fun g => set_lh_block (<[i := s32 x.(b_blockno)]> g.(lh_block)) g);;
  when (Z.of_nat i =? g.(lh_n))
    (bpin b;; upd_log (fun g => set_lh_n (g.(lh_n) + 1) g));;
  release LkLog.
End log.
