(* ===== verification/LogSpec.v ===== *)
(** * Commit and recovery (kernel/log.c)

    What write_log(), write_head(), install_trans() and recover_from_log() write to
    the disk, in order, and what recovery makes of a disk on which only a prefix of
    the writes of commit() arrived. *)

From S2P Require Import Prelude State Mem Bytes Sched Sleeplock Bio Bcache Log.

(** ** Sequences of disk writes *)

Definition apply_writes (d : gmap Z (list Z)) (w : list (Z * list Z)) : gmap Z (list Z) :=
  foldl (fun d x => <[x.1 := x.2]> d) d w.

(** The writes of write_log() and of install_trans() for the blocks [L] with
    contents [vs]. *)
Definition log_writes (start : Z) (vs : list (list Z)) : list (Z * list Z) := imap (fun j v => (start + 1 + Z.of_nat j, v)) vs.
Definition home_writes (L : list Z) (vs : list (list Z)) : list (Z * list Z) := zip L vs.

(** The header block that write_head() makes of the old one. *)
Fixpoint put_blocks (d : list Z) (i : nat) (L : list Z) : list Z :=
  match L with [] => d | b :: L' => put_blocks (put_u32 d (4 + 4 * Z.of_nat i) b) (i + 1) L' end.
Definition header (d : list Z) (L : list Z) : list Z := put_blocks (put_u32 d 0 (Z.of_nat (length L))) 0 L.

(** The header block as read_head() reads it. *)
Definition header_n (d : list Z) : Z := s32 (get_u32 d 0).
Definition header_block (d : list Z) (i : nat) : Z := s32 (get_u32 d (4 + 4 * Z.of_nat i)).

Lemma apply_writes_app d w1 w2 : apply_writes d (w1 ++ w2) = apply_writes (apply_writes d w1) w2.
Proof. apply foldl_app. Qed.

(** The contents of the blocks after the writes [w], when [f] gives them before. *)
Definition over (w : list (Z * list Z)) (f : Z -> list Z) : Z -> list Z :=
  foldl (fun f x bn => if decide (bn = x.1) then x.2 else f bn) f w.

Lemma over_app w1 w2 f : over (w1 ++ w2) f = over w2 (over w1 f).
Proof. apply foldl_app. Qed.

Lemma over_cons x w f : over (x :: w) f = over w (fun bn => if decide (bn = x.1) then x.2 else f bn).
Proof. done. Qed.

Lemma over_ext w : forall f g bn, f bn = g bn -> over w f bn = over w g bn.
Proof. induction w as [|x w IH]; intros f g bn E; cbn; [done |]. apply IH. by case_decide. Qed.

Lemma apply_writes_block w : forall d bn, disk_block (apply_writes d w) bn = over w (disk_block d) bn.
Proof.
  induction w as [|x w IH]; intros d bn; cbn; [done |]. rewrite IH. apply over_ext. apply disk_block_insert.
Qed.

Lemma over_ne w : forall f bn, bn ∉ w.*1 -> over w f bn = f bn.
Proof.
  induction w as [|x w IH]; intros f bn Hn; [done |]. rewrite over_cons. cbn in Hn. rewrite IH by set_solver. rewrite decide_False; [done | set_solver].
Qed.

Lemma over_at w : forall f j bn v, NoDup w.*1 -> w !! j = Some (bn, v) -> over w f bn = v.
Proof.
  induction w as [|[a x] w IH]; intros f j bn v Hnd Hj; [done |]. cbn in Hnd. apply NoDup_cons in Hnd as [Ha Hnd].
  rewrite over_cons. destruct j as [|j]; cbn in Hj; [|by eapply IH]. injection Hj as -> ->. by rewrite over_ne, decide_True.
Qed.

Lemma length_put_blocks L : forall d i, Z.of_nat (length d) = 1024 -> (i + length L <= 30)%nat -> length (put_blocks d i L) = length d.
Proof.
  induction L as [|b L IH]; intros d i Hd Hi; cbn in *; [done |]. rewrite IH; rewrite ?length_put_u32; lia.
Qed.

Lemma put_blocks_before L : forall d i o, Z.of_nat (length d) = 1024 -> (i + length L <= 30)%nat ->
  0 <= o -> o + 4 <= 4 + 4 * Z.of_nat i -> get_u32 (put_blocks d i L) o = get_u32 d o.
Proof.
  induction L as [|b L IH]; intros d i o Hd Hi Ho Hoi; cbn in *; [done |]. rewrite IH; rewrite ?length_put_u32; try lia.
  rewrite get_put_u32_ne; lia || done.
Qed.

Lemma put_blocks_at L : forall d i j b, Z.of_nat (length d) = 1024 -> (i + length L <= 30)%nat -> L !! j = Some b ->
  get_u32 (put_blocks d i L) (4 + 4 * Z.of_nat (i + j)) = u32 b.
Proof.
  induction L as [|x L IH]; intros d i j b Hd Hi Hj; [done |]. destruct j as [|j]; cbn in *.
  - injection Hj as ->. rewrite put_blocks_before; rewrite ?length_put_u32; try lia.
    rewrite Nat.add_0_r, get_put_u32_eq; lia || done.
  - rewrite <- (IH (put_u32 d (4 + 4 * Z.of_nat i) x) (i + 1)%nat j b); rewrite ?length_put_u32; try lia; [|done].
    f_equal. lia.
Qed.

(** Reading back the header that write_head() wrote. *)
Lemma header_read d L : length d = 1024%nat -> (length L <= 30)%nat -> Forall (fun b => 0 <= b < 2 ^ 31) L ->
  length (header d L) = 1024%nat /\ header_n (header d L) = Z.of_nat (length L) /\
  forall i b, L !! i = Some b -> header_block (header d L) i = b.
Proof.
  intros Hd HL Hr. unfold header, header_n, header_block. split_and!.
  - rewrite length_put_blocks; rewrite ?length_put_u32; lia.
  - rewrite put_blocks_before; rewrite ?length_put_u32; try lia. rewrite get_put_u32_eq by lia.
    rewrite u32_small, s32_small by lia. done.
  - intros i b Hb. rewrite (put_blocks_at _ _ 0 i b); rewrite ?length_put_u32; try lia; [|done].
    rewrite Forall_lookup in Hr. specialize (Hr i b Hb). by rewrite u32_small, s32_small by lia.
Qed.

(** ** One block at a time *)

Section blocks.
Context {P : Patience}.
Implicit Types (s : kernel) (bn : Z) (H : gset nat) (Pn : gset Z).

(** [s'] is [s] after the disk writes [w]. *)
Definition wrote s pid H Pn (w : list (Z * list Z)) s' : Prop :=
  bc_inv s' pid H Pn /\ io_only s s' /\ s'.(disk) = apply_writes s.(disk) w /\ s'.(dwrites) = s.(dwrites) ++ w /\
  forall bn, view s' bn = over w (view s) bn.

Lemma wrote_refl s pid H Pn : bc_inv s pid H Pn -> wrote s pid H Pn [] s.
Proof. intros Hi. split_and!; [done | apply io_only_refl | done | by rewrite app_nil_r | done]. Qed.

Lemma wrote_trans s1 s2 s3 pid H1 P1 w1 H2 P2 w2 :
  wrote s1 pid H1 P1 w1 s2 -> wrote s2 pid H2 P2 w2 s3 -> wrote s1 pid H2 P2 (w1 ++ w2) s3.
Proof.
  intros (_ & I1 & D1 & W1 & V1) (B2 & I2 & D2 & W2 & V2). split_and!; [done | by eapply io_only_trans | | |].
  - by rewrite D2, D1, apply_writes_app.
  - by rewrite W2, W1, app_assoc.
  - intros bn. rewrite V2, over_app. by apply over_ext.
Qed.

(** A pinned block is in the cache: reading it takes no free buffer. *)
Lemma bread_pinned s pid H Pn bn : bc_inv s pid H Pn -> bn ∈ Pn -> not_held s H bn ->
  wp (bread ROOTDEV bn) (bread_post s pid H Pn bn) s.
Proof.
  intros Hi Hp Hn. destruct (bc_pin _ _ _ _ Hi bn Hp) as (i & b & Hb & Hc).
  eapply bread_hit; [done | done | done |]. intros Hin. by eapply Hn.
Qed.

Lemma not_held_empty s bn : not_held s ∅ bn.
Proof. intros i b Hi. set_solver. Qed.

Lemma not_held_single s i bn bn' d : buf_at s i bn d -> bn <> bn' -> not_held s ({[i]} ∪ ∅) bn'.
Proof.
  intros (b & Hb & Hc & _) Hne j b' Hj Hb' [_ Hc']. assert (j = i) as -> by set_solver. destruct Hc as [_ Hc]. congruence.
Qed.

Lemma buf_at_eq s s' i bn d : buf_at s i bn d -> s'.(bufs) !! i = s.(bufs) !! i -> buf_at s' i bn d.
Proof. intros (b & Hb & Hc & Hd) E. exists b. by rewrite E. Qed.

Lemma buf_at_length s pid H Pn i bn d : bc_inv s pid H Pn -> buf_at s i bn d -> length d = 1024%nat.
Proof. intros Hi (b & Hb & _ & <-). by eapply bc_data. Qed.

(** The body of the loop of write_log(): the log block [a] gets the contents of [b]. *)
Definition log_block a b : M kernel unit :=
  to ← bread ROOTDEV a;
  from ← bread ROOTDEV b;
  x ← get_buf from;
  upd_buf to (set_b_data x.(b_data));;
  bwrite to;;
  brelse from;;
  brelse to.

Lemma log_block_run s pid Pn a b :
  bc_inv s pid ∅ Pn -> (size Pn < NBUF)%nat -> b ∈ Pn -> a ∉ Pn ->
  wp (log_block a b) (fun _ => wrote s pid ∅ Pn [(a, view s b)]) s.
Proof.
  intros Hi Hs Hb Ha. assert (a <> b) as Hab by (intros ->; done). unfold log_block. apply wp_bind.
  eapply wp_mono; [apply (bread_run s pid ∅ Pn a Hi); [rewrite size_empty; lia | apply not_held_empty] |].
  intros to s1 (_ & Hi1 & Hio1 & Hd1 & Hw1 & Hto & _ & Hv1). apply wp_bind.
  eapply wp_mono; [eapply (bread_pinned s1 pid _ Pn b Hi1 Hb), not_held_single; [exact Hto | done] |].
  intros from s2 (Hft & Hi2 & Hio2 & Hd2 & Hw2 & Hfrom & Hbo2 & Hv2). assert (to <> from) as Hne by set_solver +Hft.
  rewrite Hv1 in Hfrom. destruct Hfrom as (x & Hx & Hxc & Hxd). apply wp_bind. eapply wp_Ok; [by apply get_buf_Ok |]. rewrite Hxd.
  assert (buf_at s2 from b (view s b)) as Hfrom by (by exists x).
  assert (buf_at s2 to a (view s a)) as Hto2 by (eapply buf_at_eq; [exact Hto | by apply Hbo2]).
  apply wp_bind. eapply wp_mono; [eapply (put_data_run s2 pid _ Pn to a _ (view s b) Hi2); [set_solver + | exact Hto2 | by eapply view_length] |].
  intros _ s3 ((Hi3 & Hio3 & Hv3) & Hto3 & Hd3 & Hw3 & Hbo3). apply wp_bind.
  eapply wp_mono; [eapply (bwrite_run s3 pid _ Pn to a _ Hi3); [set_solver + | exact Hto3] |].
  intros _ s4 (Hi4 & Hio4 & Hbb4 & Hd4 & Hw4 & Hv4). apply wp_bind.
  eapply wp_mono; [eapply (brelse_run s4 pid _ Pn from b (view s b) Hi4); [set_solver + | | by left] |].
  { eapply buf_at_eq; [exact Hfrom |]. by rewrite Hbb4, Hbo3. }
  intros _ s5 (Hi5 & Hio5 & Hd5 & Hw5 & Hbo5 & Hv5).
  eapply wp_mono; [eapply (brelse_run s5 pid _ Pn to a (view s b) Hi5); [set_solver +Hne | | right] |].
  { eapply buf_at_eq; [exact Hto3 |]. by rewrite Hbo5, Hbb4. }
  { by rewrite Hd5, Hd4, disk_block_insert, decide_True. }
  intros _ s6 (Hi6 & Hio6 & Hd6 & Hw6 & _ & Hv6). split_and!.
  - replace ∅ with ((({[from]} ∪ ({[to]} ∪ (∅ : gset nat))) ∖ {[from]}) ∖ {[to]}) by set_solver +. done.
  - eauto 10 using io_only_trans.
  - cbn. by rewrite Hd6, Hd5, Hd4, Hd3, Hd2, Hd1.
  - by rewrite Hw6, Hw5, Hw4, Hw3, Hw2, Hw1.
  - intros bn. cbn. rewrite Hv6, Hv5, Hv4, Hv3. case_decide; [done |]. by rewrite Hv2.
Qed.
(** The body of the loop of install_trans(): block [b] gets the contents of the log
    block [a]. *)
Definition install_block (recovering : bool) a b : M kernel unit :=
  lbuf ← bread ROOTDEV a;
  dbuf ← bread ROOTDEV b;
  x ← get_buf lbuf;
  upd_buf dbuf (set_b_data x.(b_data));;
  bwrite dbuf;;
  when (negb recovering) (bunpin dbuf);;
  brelse lbuf;;
  brelse dbuf.

Lemma bunpin_run s pid H Pn i bn d :
  bc_inv s pid H Pn -> i ∈ H -> buf_at s i bn d -> bn ∈ Pn ->
  wp (bunpin i) (fun _ s' => bc_inv s' pid H (Pn ∖ {[bn]}) /\ io_only s s' /\ s'.(disk) = s.(disk) /\ s'.(dwrites) = s.(dwrites) /\
    buf_at s' i bn d /\ (forall j, j <> i -> s'.(bufs) !! j = s.(bufs) !! j) /\ forall bn', view s' bn' = view s bn') s.
Proof.
  intros Hi Hin Hb Hp. eapply (pin_run s pid H Pn (Pn ∖ {[bn]}) i bn d (-1)); [done | done | done | set_solver + | | reflexivity].
  rewrite decide_False by set_solver +. by rewrite decide_True.
Qed.

(** What remains pinned after install_block() of [b]. *)
Definition unpinned (recovering : bool) Pn b : gset Z := if recovering then Pn else Pn ∖ {[b]}.

Lemma install_block_run (recovering : bool) s pid Pn (a b : Z) :
  bc_inv s pid ∅ Pn -> a ∉ Pn -> a <> b ->
  (if recovering then (1 + size Pn < NBUF)%nat /\ b ∉ Pn else (size Pn < NBUF)%nat /\ b ∈ Pn) ->
  wp (install_block recovering a b) (fun _ => wrote s pid ∅ (unpinned recovering Pn b) [(b, view s a)]) s.
Proof.
  intros Hi Ha Hab Hrec. unfold install_block. apply wp_bind.
  eapply wp_mono; [apply (bread_run s pid ∅ Pn a Hi); [rewrite size_empty; destruct recovering; lia | apply not_held_empty] |].
  intros lb s1 (_ & Hi1 & Hio1 & Hd1 & Hw1 & Hlb & _ & Hv1). apply wp_bind.
  assert (not_held s1 ({[lb]} ∪ ∅) b) as Hnh by (eapply not_held_single; [exact Hlb | done]).
  eapply (wp_mono _ (bread_post s1 pid ({[lb]} ∪ ∅) Pn b)).
  { destruct recovering; [apply bread_run | apply bread_pinned]; try done; [|tauto].
    rewrite union_empty_r_L, size_singleton. tauto. }
  intros db s2 (Hft & Hi2 & Hio2 & Hd2 & Hw2 & Hdb & Hbo2 & Hv2). assert (lb <> db) as Hne by set_solver +Hft.
  assert (buf_at s2 lb a (view s a)) as Hlb2 by (eapply buf_at_eq; [exact Hlb | by apply Hbo2]).
  destruct Hlb2 as (x & Hx & Hxc & Hxd). apply wp_bind. eapply wp_Ok; [by apply get_buf_Ok |]. rewrite Hxd.
  assert (buf_at s2 lb a (view s a)) as Hlb2 by (by exists x).
  apply wp_bind. eapply wp_mono; [eapply (put_data_run s2 pid _ Pn db b _ (view s a) Hi2); [set_solver + | exact Hdb | by eapply view_length] |].
  intros _ s3 ((Hi3 & Hio3 & Hv3) & Hdb3 & Hd3 & Hw3 & Hbo3). apply wp_bind.
  eapply wp_mono; [eapply (bwrite_run s3 pid _ Pn db b _ Hi3); [set_solver + | exact Hdb3] |].
  intros _ s4 (Hi4 & Hio4 & Hbb4 & Hd4 & Hw4 & Hv4). apply wp_bind.
  assert (buf_at s4 db b (view s a)) as Hdb4 by (eapply buf_at_eq; [exact Hdb3 | by rewrite Hbb4]).
  eapply (wp_mono _ (fun _ s' => bc_inv s' pid ({[db]} ∪ ({[lb]} ∪ ∅)) (unpinned recovering Pn b) /\ io_only s4 s' /\ s'.(disk) = s4.(disk) /\
    s'.(dwrites) = s4.(dwrites) /\ buf_at s' db b (view s a) /\ (forall j, j <> db -> s'.(bufs) !! j = s4.(bufs) !! j) /\
    forall bn', view s' bn' = view s4 bn')).
  { destruct recovering; cbn [when negb unpinned]; [apply wp_ret; split_and!; done || apply io_only_refl |].
    apply bunpin_run; [done | set_solver + | done | tauto]. }
  intros _ s5 (Hi5 & Hio5 & Hd5 & Hw5 & Hdb5 & Hbo5 & Hv5). apply wp_bind.
  eapply wp_mono; [eapply (brelse_run s5 pid _ _ lb a (view s a) Hi5); [set_solver + | | right] |].
  { eapply buf_at_eq; [exact Hlb2 |]. by rewrite Hbo5, Hbb4, Hbo3. }
  { rewrite Hd5, Hd4, disk_block_insert, decide_False, Hd3, Hd2, Hd1 by done. by apply (view_clean s pid ∅ Pn); [| apply not_held_empty |]. }
  intros _ s6 (Hi6 & Hio6 & Hd6 & Hw6 & Hbo6 & Hv6).
  eapply wp_mono; [eapply (brelse_run s6 pid _ _ db b (view s a) Hi6); [set_solver +Hne | | right] |].
  { eapply buf_at_eq; [exact Hdb5 |]. by rewrite Hbo6. }
  { by rewrite Hd6, Hd5, Hd4, disk_block_insert, decide_True. }
  intros _ s7 (Hi7 & Hio7 & Hd7 & Hw7 & _ & Hv7). split_and!.
  - replace ∅ with ((({[db]} ∪ ({[lb]} ∪ (∅ : gset nat))) ∖ {[lb]}) ∖ {[db]}) by set_solver +. done.
  - eauto 10 using io_only_trans.
  - cbn. by rewrite Hd7, Hd6, Hd5, Hd4, Hd3, Hd2, Hd1.
  - by rewrite Hw7, Hw6, Hw5, Hw4, Hw3, Hw2, Hw1.
  - intros bn. cbn. rewrite Hv7, Hv6, Hv5, Hv4, Hv3. case_decide; [done |]. by rewrite Hv2.
Qed.
(** ** The loops *)

(** The in-memory log holds the blocks [L], none of them in the log area. *)
Record log_ok (g : logstate) (L : list Z) : Prop := {
  lo_dev : g.(log_dev) = ROOTDEV;
  lo_n : g.(lh_n) = Z.of_nat (length L);
  lo_blk : take (length L) g.(lh_block) = L;
  lo_len : length g.(lh_block) = 30%nat;
  lo_cap : Z.of_nat (length L) < g.(log_size) <= 31;
  lo_nodup : NoDup L;
  lo_range : Forall (fun b => 0 <= b < 2 ^ 31) L;
  lo_out : Forall (fun b => ~ (g.(log_start) <= b < g.(log_start) + g.(log_size))) L;
  lo_start : 0 <= g.(log_start) /\ g.(log_start) + g.(log_size) < 2 ^ 31;
}.

Lemma lh_get_ok g L j b : log_ok g L -> L !! j = Some b ->
  lh_get g j = b /\ u32 b = b /\ ~ (g.(log_start) <= b < g.(log_start) + g.(log_size)).
Proof.
  intros Hg Hj. destruct Hg as [_ _ Hb _ _ _ Hr Ho _]. rewrite Forall_lookup in Hr, Ho. specialize (Hr j b Hj). specialize (Ho j b Hj).
  split_and!; [|apply u32_small; lia | done]. unfold lh_get. rewrite <- Hb in Hj.
  apply lookup_take_Some in Hj as [Hj _]. by rewrite Hj.
Qed.

Lemma log_writes_lookup start vs j v : vs !! j = Some v -> log_writes start vs !! j = Some (start + 1 + Z.of_nat j, v).
Proof. intros E. unfold log_writes. by rewrite list_lookup_imap, E. Qed.

Lemma length_log_writes start vs : length (log_writes start vs) = length vs.
Proof. apply length_imap. Qed.

Lemma elem_of_log_writes start vs a : a ∈ (log_writes start vs).*1 -> start < a <= start + Z.of_nat (length vs).
Proof.
  intros Hin. apply list_elem_of_fmap in Hin as ([x v] & -> & Hin). apply list_elem_of_lookup in Hin as [j Hj].
  unfold log_writes in Hj. rewrite list_lookup_imap in Hj. destruct (vs !! j) eqn:E; [|done]. apply lookup_lt_Some in E.
  injection Hj as <- _. cbn. lia.
Qed.

Lemma take_sub {A} (w : list A) j x : x ∈ take j w -> x ∈ w.
Proof. intros Hx. rewrite <- (take_drop j w). set_solver. Qed.

Lemma write_log_run s pid L :
  log_ok s.(log) L -> bc_inv s pid ∅ (list_to_set L) -> (length L < NBUF)%nat ->
  wp write_log (fun _ => wrote s pid ∅ (list_to_set L) (log_writes s.(log).(log_start) (view s <$> L))) s.
Proof.
  intros Hg Hi Hlen. set (W := log_writes _ _). assert (length W = length L) as HW by (unfold W; by rewrite length_log_writes, length_fmap).
  unfold write_log. apply wp_bind, wp_gets. rewrite (lo_n _ _ Hg), Nat2Z.id.
  apply (wp_for_range _ (fun j => wrote s pid ∅ (list_to_set L) (take j W))).
  - by apply wrote_refl.
  - intros j s' Hj Hs'. apply wp_bind, wp_gets. destruct Hs' as (Hi' & Hio & Hw). rewrite (io_only_log _ _ Hio), (lo_dev _ _ Hg).
    destruct (lookup_lt_is_Some_2 L j) as [b Hb]; [lia |]. destruct (lh_get_ok _ _ _ _ Hg Hb) as (-> & -> & Hout).
    pose proof (lo_cap _ _ Hg) as Hcap. pose proof (lo_start _ _ Hg) as Hst.
    rewrite u32_small by lia. replace (log_start (log s) + Z.of_nat j + 1) with (log_start (log s) + 1 + Z.of_nat j) by lia.
    set (a := _ + Z.of_nat j). assert (view s' b = view s b) as Hv.
    { destruct Hw as (_ & _ & ->). apply over_ne. intros Hin. rewrite fmap_take in Hin. apply take_sub, elem_of_log_writes in Hin.
      rewrite length_fmap in Hin. lia. }
    eapply wp_mono; [apply (log_block_run s' pid (list_to_set L) a b Hi')|].
    + rewrite size_list_to_set by apply Hg. done.
    + apply elem_of_list_to_set, list_elem_of_lookup. eauto.
    + rewrite elem_of_list_to_set. intros Hin. pose proof (lo_out _ _ Hg) as Ho. rewrite Forall_forall in Ho. apply (Ho a Hin). lia.
    + intros ? s2 H2. cbn beta in H2. rewrite Hv in H2. replace (j + 1)%nat with (S j) by lia.
      rewrite (take_S_r W j (a, view s b)) by (unfold W; apply log_writes_lookup; by rewrite list_lookup_fmap, Hb).
      eapply wrote_trans; [split_and!; [exact Hi' | exact Hio | apply Hw..] | exact H2].
  - intros s' Hs'. cbn in Hs'. by rewrite take_ge in Hs' by lia.
Qed.
(** The contents of the first [n] blocks of the log area. *)
Definition logged (f : Z -> list Z) (start : Z) (n : nat) : list (list Z) := (fun j => f (start + 1 + Z.of_nat j)) <$> seq 0 n.

(** The blocks that are pinned when blocks [L] remain to be installed. *)
Definition pinned (recovering : bool) (L : list Z) : gset Z := if recovering then ∅ else list_to_set L.

Lemma logged_lookup f start n j : (j < n)%nat -> logged f start n !! j = Some (f (start + 1 + Z.of_nat j)).
Proof. intros Hj. unfold logged. rewrite list_lookup_fmap, lookup_seq_lt by done. done. Qed.

Lemma length_logged f start n : length (logged f start n) = n.
Proof. unfold logged. by rewrite length_fmap, length_seq. Qed.

Lemma home_writes_lookup L vs j b v : L !! j = Some b -> vs !! j = Some v -> home_writes L vs !! j = Some (b, v).
Proof. intros Hb Hv. apply lookup_zip_with_Some. eauto. Qed.

Lemma fst_home_writes L vs : length L = length vs -> (home_writes L vs).*1 = L.
Proof. intros. apply fst_zip. lia. Qed.

Lemma pinned_step recovering L j b : NoDup L -> L !! j = Some b ->
  unpinned recovering (pinned recovering (drop j L)) b = pinned recovering (drop (S j) L).
Proof.
  intros Hnd Hb. destruct recovering; [done |]. cbn. rewrite (drop_S L b j Hb). cbn. apply set_eq. intros x.
  assert (b ∉ drop (S j) L) as Hn.
  { rewrite <- (take_drop j L), (drop_S L b j Hb) in Hnd. apply NoDup_app in Hnd as (_ & _ & Hnd). by apply NoDup_cons in Hnd as [? _]. }
  rewrite elem_of_difference, elem_of_union, elem_of_singleton, elem_of_list_to_set. split; [tauto |]. intros Hx. split; [by right |].
  by intros ->.
Qed.

Lemma pinned_sub recovering L j x : x ∈ pinned recovering (drop j L) -> x ∈ L.
Proof.
  destruct recovering; cbn; [set_solver + |]. rewrite elem_of_list_to_set. intros Hx. rewrite <- (take_drop j L). set_solver.
Qed.

Lemma pinned_size recovering L j : NoDup L -> (size (pinned recovering (drop j L)) <= length L)%nat.
Proof.
  intros Hnd. destruct recovering; cbn; [rewrite size_empty; lia |]. rewrite size_list_to_set; [rewrite length_drop; lia |].
  rewrite <- (take_drop j L) in Hnd. by apply NoDup_app in Hnd as (_ & _ & ?).
Qed.

Lemma install_trans_run recovering s pid L :
  log_ok s.(log) L -> bc_inv s pid ∅ (pinned recovering L) -> (length L < NBUF)%nat ->
  wp (install_trans recovering) (fun _ => wrote s pid ∅ ∅ (home_writes L (logged (view s) s.(log).(log_start) (length L)))) s.
Proof.
  intros Hg Hi Hlen. set (vs := logged _ _ _). set (W := home_writes _ _).
  assert (length vs = length L) as Hvs by (unfold vs; by rewrite length_logged).
  assert (W.*1 = L) as HW1 by (unfold W; by rewrite fst_home_writes).
  assert (length W = length L) as HW by (by rewrite <- HW1, length_fmap).
  unfold install_trans. apply wp_bind, wp_gets. rewrite (lo_n _ _ Hg), Nat2Z.id.
  apply (wp_for_range _ (fun j => wrote s pid ∅ (pinned recovering (drop j L)) (take j W))).
  - by apply wrote_refl.
  - intros j s' Hj Hs'. apply wp_bind, wp_gets. destruct Hs' as (Hi' & Hio & Hw). rewrite (io_only_log _ _ Hio), (lo_dev _ _ Hg).
    destruct (lookup_lt_is_Some_2 L j) as [b Hb]; [lia |]. destruct (lh_get_ok _ _ _ _ Hg Hb) as (-> & -> & Hout).
    pose proof (lo_cap _ _ Hg) as Hcap. pose proof (lo_start _ _ Hg) as Hst. pose proof (lo_out _ _ Hg) as Ho. rewrite Forall_forall in Ho.
    rewrite u32_small by lia. replace (log_start (log s) + Z.of_nat j + 1) with (log_start (log s) + 1 + Z.of_nat j) by lia.
    set (a := _ + Z.of_nat j). assert (a ∉ L) as HaL by (intros Hin; apply (Ho a Hin); lia).
    assert (view s' a = view s a) as Hv.
    { destruct Hw as (_ & _ & ->). apply over_ne. rewrite fmap_take, HW1. intros Hin. by apply HaL, (take_sub _ j). }
    eapply wp_mono; [apply (install_block_run recovering s' pid (pinned recovering (drop j L)) a b Hi')|].
    + intros Hin. by apply HaL, (pinned_sub recovering _ j).
    + unfold a. lia.
    + pose proof (pinned_size recovering L j (lo_nodup _ _ Hg)). destruct recovering; cbn [pinned] in *.
      * rewrite size_empty. split; [unfold NBUF; lia | set_solver +].
      * split; [lia |]. rewrite (drop_S L b j Hb). set_solver +.
    + intros ? s2 H2. cbn beta in H2. rewrite Hv, (pinned_step _ _ _ _ (lo_nodup _ _ Hg) Hb) in H2. replace (j + 1)%nat with (S j) by lia.
      rewrite (take_S_r W j (b, view s a)) by (apply home_writes_lookup; [done | apply logged_lookup; lia]).
      eapply wrote_trans; [split_and!; [exact Hi' | exact Hio | apply Hw..] | exact H2].
  - intros s' Hs'. cbn in Hs'. rewrite take_ge, drop_ge in Hs' by lia. by destruct recovering.
Qed.
(** ** The header block *)

Lemma put_blocks_snoc L b : forall d i, put_blocks d i (L ++ [b]) = put_u32 (put_blocks d i L) (4 + 4 * Z.of_nat (i + length L)) b.
Proof.
  induction L as [|x L IH]; intros d i; cbn.
  - f_equal. lia.
  - rewrite IH. do 2 f_equal. lia.
Qed.

Lemma write_head_run s pid L Pn :
  log_ok s.(log) L -> bc_inv s pid ∅ Pn -> (size Pn < NBUF)%nat -> s.(log).(log_start) ∉ Pn ->
  wp write_head (fun _ => wrote s pid ∅ Pn [(s.(log).(log_start), header (view s s.(log).(log_start)) L)]) s.
Proof.
  intros Hg Hi Hs Hp. set (a := log_start (log s)). pose proof (lo_cap _ _ Hg) as Hcap. pose proof (lo_start _ _ Hg) as Hst.
  unfold write_head. apply wp_bind, wp_gets. rewrite (lo_dev _ _ Hg), (lo_n _ _ Hg), Nat2Z.id. fold a.
  rewrite u32_small by (unfold a; lia). apply wp_bind.
  eapply wp_mono; [apply (bread_run s pid ∅ Pn a Hi); [rewrite size_empty; lia | apply not_held_empty] |].
  intros i s1 (_ & Hi1 & Hio1 & Hd1 & Hw1 & Hat & _ & Hv1). apply wp_bind. set (d0 := view s a) in *.
  assert (length d0 = 1024%nat) as Hd0 by (by eapply buf_at_length).
  eapply wp_mono; [apply (edit_run s1 pid _ Pn i a d0 (fun d => put_u32 d 0 (Z.of_nat (length L))) Hi1); [set_solver + | done |] |].
  { rewrite length_put_u32; lia. }
  intros ? s2 H2. cbn beta in H2. apply wp_bind. set (d1 := put_u32 d0 0 _) in *. assert (length d1 = 1024%nat) as Hl1 by (unfold d1; rewrite length_put_u32; lia).
  apply (wp_for_range _ (fun j => edited s1 pid ({[i]} ∪ ∅) Pn i a (put_blocks d1 0 (take j L)))).
  - exact H2.
  - intros j s' Hj Hs'. destruct (lookup_lt_is_Some_2 L j) as [b Hb]; [lia |]. destruct (lh_get_ok _ _ _ _ Hg Hb) as (-> & _).
    pose proof Hs' as (Hi' & _ & _ & _ & Hat' & _). assert (length (put_blocks d1 0 (take j L)) = 1024%nat) as Hlj.
    { rewrite length_put_blocks; rewrite ?length_take; lia. }
    eapply wp_mono; [apply (edit_run s' pid _ Pn i a (put_blocks d1 0 (take j L)) (fun d => put_u32 d (4 + 4 * Z.of_nat j) b) Hi'); [set_solver + | done |] |].
    { rewrite length_put_u32; lia. }
    intros ? s3 H3. cbn beta in H3. replace (j + 1)%nat with (S j) by lia. rewrite (take_S_r L j b Hb), put_blocks_snoc.
    rewrite length_take, Nat.min_l, Nat.add_0_l by lia. by eapply edited_trans.
  - intros s3 H3. cbn in H3. rewrite take_ge in H3 by lia. change (put_blocks d1 0 L) with (header d0 L) in H3.
    destruct H3 as (Hi3 & Hio3 & Hd3 & Hw3 & Hat3 & _ & Hv3). apply wp_bind.
    eapply wp_mono; [eapply (bwrite_run s3 pid _ Pn i a _ Hi3); [set_solver + | done] |].
    intros _ s4 (Hi4 & Hio4 & Hb4 & Hd4 & Hw4 & Hv4).
    eapply wp_mono; [eapply (brelse_run s4 pid _ Pn i a (header d0 L) Hi4); [set_solver + | | right] |].
    { eapply buf_at_eq; [exact Hat3 | by rewrite Hb4]. }
    { by rewrite Hd4, disk_block_insert, decide_True. }
    intros _ s5 (Hi5 & Hio5 & Hd5 & Hw5 & _ & Hv5). split_and!.
    + replace ∅ with (({[i]} ∪ (∅ : gset nat)) ∖ {[i]}) by set_solver +. done.
    + eauto 10 using io_only_trans.
    + cbn. by rewrite Hd5, Hd4, Hd3, Hd1.
    + by rewrite Hw5, Hw4, Hw3, Hw1.
    + intros bn. cbn. rewrite Hv5, Hv4, Hv3. case_decide; [done |]. by rewrite Hv1.
Qed.
End blocks.
