(* ===== verification/Crash.v ===== *)
(** * Crash atomicity of the log (kernel/log.c)

    commit() writes the log, the header, the home blocks and the cleared header, in
    this order.  A crash leaves a disk on which a prefix of these writes arrived;
    recovery makes of it either the disk before the transaction or the disk after
    it, and a crash during recovery changes nothing of that. *)

From S2P Require Import Prelude State Mem Bytes Sched Sleeplock Bio Bcache Log LogSpec.

Section crash.
Context {P : Patience}.
Implicit Types (s : kernel) (bn : Z) (H : gset nat) (Pn : gset Z) (g : logstate) (L : list Z).

(** ** Changing the in-memory log *)

Lemma io_only_set_log g s s' : io_only s s' -> io_only (set_log g s) (set_log g s').
Proof. intros (W & I & E). split_and!; [exact W | exact I |]. rewrite E at 1. by kstate. Qed.

Lemma bc_inv_set_log g s pid H Pn : bc_inv s pid H Pn -> bc_inv (set_log g s) pid H Pn.
Proof. intros [? ? ? ? ? ? ? ? ? ? ? ?]. constructor; try done. by eapply env_pid. Qed.

Lemma wrote_set_log g s s' pid H Pn w : wrote s pid H Pn w s' -> wrote (set_log g s) pid H Pn w (set_log g s').
Proof. intros (? & ? & ? & ? & ?). split_and!; try done; [by apply bc_inv_set_log | by apply io_only_set_log]. Qed.

Lemma wrote_log_eq s s' pid H Pn w : wrote s pid H Pn w s' -> s'.(log) = s.(log).
Proof. intros (_ & Hio & _). by apply io_only_log. Qed.

Lemma set_log_id s : set_log s.(log) s = s.
Proof. by destruct s. Qed.

Lemma log_ok_clear g L : log_ok g L -> log_ok (set_lh_n 0 g) [].
Proof.
  intros [? ? ? ? ? ? ? ? ?]. constructor; try done; cbn in *; [lia | apply NoDup_nil_2].
Qed.

(** ** The writes of commit() *)

Definition commit_writes (start : Z) L (vs : list (list Z)) (h : list Z) : list (Z * list Z) :=
  log_writes start vs ++ [(start, header h L)] ++ home_writes L vs ++ [(start, header (header h L) [])].

Lemma logged_written start vs f : logged (over (log_writes start vs) f) start (length vs) = vs.
Proof.
  apply list_eq. intros j. destruct (decide (j < length vs)%nat) as [Hj|Hj].
  - rewrite logged_lookup by done. destruct (lookup_lt_is_Some_2 vs j Hj) as [v Hv]. rewrite Hv. f_equal.
    apply (over_at _ _ j); [|by apply log_writes_lookup].
    apply NoDup_alt. intros a b x Ha Hb. rewrite !list_lookup_fmap in Ha, Hb. unfold log_writes in Ha, Hb.
    rewrite !list_lookup_imap in Ha, Hb. destruct (vs !! a), (vs !! b); try done. cbn in *. simplify_eq. lia.
  - rewrite !lookup_ge_None_2; [done | lia | rewrite length_logged; lia].
Qed.

Lemma logged_ext f f' start n : (forall j, (j < n)%nat -> f (start + 1 + Z.of_nat j) = f' (start + 1 + Z.of_nat j)) ->
  logged f start n = logged f' start n.
Proof. intros E. apply list_fmap_ext. intros i j Hj. apply lookup_seq in Hj as [-> ?]. apply E. lia. Qed.

(** commit() of a transaction: its writes, in order. *)
Lemma commit_run s pid L :
  log_ok s.(log) L -> L <> [] -> bc_inv s pid ∅ (list_to_set L) -> (length L < NBUF)%nat ->
  wp commit (fun _ => wrote (set_log (set_lh_n 0 s.(log)) s) pid ∅ ∅
    (commit_writes s.(log).(log_start) L (view s <$> L) (view s s.(log).(log_start)))) s.
Proof.
  intros Hg HL Hi Hlen. set (a := log_start (log s)). set (vs := view s <$> L). set (h := view s a).
  assert (length vs = length L) as Hvs by (unfold vs; by rewrite length_fmap).
  pose proof (lo_cap _ _ Hg) as Hcap. pose proof (lo_out _ _ Hg) as Ho. rewrite Forall_forall in Ho.
  assert (a ∉ (list_to_set L : gset Z)) as Ha.
  { rewrite elem_of_list_to_set. intros Hin. apply (Ho a Hin). unfold a. lia. }
  unfold commit. apply wp_bind, wp_gets. rewrite (lo_n _ _ Hg). rewrite (proj2 (Z.ltb_lt 0 _)) by (destruct L; cbn; [done | lia]).
  cbn [when]. apply wp_bind. eapply wp_mono; [by apply write_log_run |]. intros ? s1 H1. cbn beta in H1. fold a vs in H1.
  pose proof (wrote_log_eq _ _ _ _ _ _ H1) as G1. apply wp_bind.
  eapply wp_mono; [apply (write_head_run s1 pid L (list_to_set L)); rewrite ?G1; [done | apply H1 | | done] |].
  { by rewrite size_list_to_set by apply Hg. }
  intros ? s2 H2. cbn beta in H2. rewrite G1 in H2. fold a in H2.
  assert (view s1 a = h) as Ev1.
  { destruct H1 as (_ & _ & _ & _ & V1). rewrite V1. apply over_ne. intros Hin%elem_of_log_writes. lia. }
  rewrite Ev1 in H2. assert (H12 := wrote_trans _ _ _ _ _ _ _ _ _ _ H1 H2). pose proof (wrote_log_eq _ _ _ _ _ _ H12) as G2.
  apply wp_bind. eapply wp_mono; [apply (install_trans_run false s2 pid L); rewrite ?G2; [done | apply H2 | done] |].
  intros ? s3 H3. cbn beta in H3. rewrite G2 in H3. fold a in H3.
  assert (logged (view s2) a (length L) = vs) as Ev2.
  { rewrite <- (logged_written a vs (view s)), Hvs. apply logged_ext. intros j Hj. destruct H12 as (_ & _ & _ & _ & V2).
    rewrite V2, over_app. cbn. rewrite decide_False; [done | lia]. }
  rewrite Ev2 in H3. assert (H13 := wrote_trans _ _ _ _ _ _ _ _ _ _ H12 H3). pose proof (wrote_log_eq _ _ _ _ _ _ H13) as G3.
  apply wp_bind, wp_modify. rewrite G3. set (g' := set_lh_n 0 (log s)). apply (wrote_set_log g') in H13.
  eapply wp_mono; [apply (write_head_run _ pid [] ∅); [by eapply (log_ok_clear _ L) | apply H13 | rewrite size_empty; unfold NBUF; lia | set_solver +] |].
  intros ? s4 H4. cbn beta in H4. change (log_start (log (set_log g' s3))) with a in H4. change (view (set_log g' s3) a) with (view s3 a) in H4.
  assert (view s3 a = header h L) as Ev3.
  { destruct H13 as (_ & _ & _ & _ & V3). change (view s3 a) with (view (set_log g' s3) a). rewrite V3, !over_app. rewrite over_ne.
    - cbn. by rewrite decide_True.
    - rewrite fst_home_writes by lia. by rewrite elem_of_list_to_set in Ha. }
  rewrite Ev3 in H4. unfold commit_writes. rewrite !app_assoc. by eapply wrote_trans.
Qed.
(** ** Recovery *)

(** [L] can be the contents of a log of [size] blocks at [start]. *)
Record geo (start size : Z) L : Prop := {
  ge_cap : Z.of_nat (length L) < size <= 30;
  ge_nodup : NoDup L;
  ge_range : Forall (fun b => 0 <= b < 2 ^ 31) L;
  ge_out : Forall (fun b => ~ (start <= b < start + size)) L;
  ge_start : 0 <= start /\ start + size < 2 ^ 31;
}.

(** The header block names the blocks [L]. *)
Definition head_is (h : list Z) L : Prop := header_n h = Z.of_nat (length L) /\ forall i b, L !! i = Some b -> header_block h i = b.

Lemma geo_nil start size L : geo start size L -> geo start size [].
Proof. intros [? ? ? ? ?]. constructor; cbn; try done; [lia | apply NoDup_nil_2]. Qed.

Lemma log_ok_geo g L : log_ok g L -> g.(log_size) <= 30 -> geo g.(log_start) g.(log_size) L.
Proof. intros [? ? ? ? ? ? ? ? ?] ?. constructor; done || lia. Qed.

Lemma header_is d L : length d = 1024%nat -> (length L <= 30)%nat -> Forall (fun b => 0 <= b < 2 ^ 31) L -> head_is (header d L) L.
Proof. intros. by apply header_read. Qed.

(** The in-memory log after read_head(). *)
Definition loaded g L : logstate := set_lh_block (L ++ drop (length L) g.(lh_block)) (set_lh_n (Z.of_nat (length L)) g).

Lemma loaded_ok g L : g.(log_dev) = ROOTDEV -> length g.(lh_block) = 30%nat -> geo g.(log_start) g.(log_size) L -> log_ok (loaded g L) L.
Proof.
  intros Hd Hl [? ? ? ? ?]. constructor; cbn; try done.
  - by rewrite take_app_length.
  - rewrite length_app, length_drop. lia.
  - lia.
Qed.

Lemma insert_app_drop (A : list Z) (l : list Z) b : (length A < length l)%nat ->
  <[length A := b]> (A ++ drop (length A) l) = (A ++ [b]) ++ drop (length A + 1) l.
Proof.
  intros Hl. rewrite insert_app_r_alt, Nat.sub_diag by lia. rewrite <- app_assoc. f_equal.
  destruct (lookup_lt_is_Some_2 l (length A) Hl) as [x Hx]. rewrite (drop_S l x _ Hx). cbn. do 2 f_equal. lia.
Qed.

Lemma read_head_run s pid L :
  s.(log).(log_dev) = ROOTDEV -> length s.(log).(lh_block) = 30%nat -> geo s.(log).(log_start) s.(log).(log_size) L ->
  bc_inv s pid ∅ ∅ -> head_is (view s s.(log).(log_start)) L ->
  wp read_head (fun _ => wrote (set_log (loaded s.(log) L) s) pid ∅ ∅ []) s.
Proof.
  intros Hd Hl Hg Hi [Hn Hb]. pose proof (ge_cap _ _ _ Hg) as Hcap. pose proof (ge_start _ _ _ Hg) as Hst. set (a := log_start (log s)) in *.
  unfold read_head. apply wp_bind, wp_gets. rewrite Hd. fold a. rewrite u32_small by lia. apply wp_bind.
  eapply wp_mono; [apply (bread_run s pid ∅ ∅ a Hi); [rewrite !size_empty; unfold NBUF; lia | apply not_held_empty] |].
  intros i s1 (_ & Hi1 & Hio1 & Hd1 & Hw1 & Hat & _ & Hv1). destruct Hat as (x & Hx & Hxc & Hxd).
  apply wp_bind. eapply wp_Ok; [by apply get_buf_Ok |]. rewrite Hxd. set (h := view s a) in *.
  apply wp_bind, wp_modify. fold (header_n h). rewrite Hn, (io_only_log _ _ Hio1).
  apply wp_bind, wp_gets. cbn [log set_log lh_n set_lh_n]. rewrite Nat2Z.id. apply wp_bind.
  set (gj j := set_lh_block (take j L ++ drop j (lh_block (log s))) (set_lh_n (Z.of_nat (length L)) (log s))).
  apply (wp_for_range _ (fun j s' => s' = set_log (gj j) s1)).
  - unfold gj. cbn. f_equal.
  - intros j s' Hj ->. apply wp_modify. cbn [log set_log]. destruct (lookup_lt_is_Some_2 L j) as [b Hbj]; [lia |].
    fold (header_block h j). rewrite (Hb j b Hbj). replace (set_log _ (set_log (gj j) s1)) with (set_log (set_lh_block
      (<[j := b]> (lh_block (gj j))) (gj j)) s1) by (by kstate). f_equal. unfold gj. cbn.
    assert (length (take j L) = j) as Hlj by (rewrite length_take; lia).
    pose proof (insert_app_drop (take j L) (lh_block (log s)) b) as E. rewrite Hlj in E. unfold set_lh_block. cbn. rewrite E by lia.
    replace (j + 1)%nat with (S j) by lia. by rewrite (take_S_r L j b Hbj).
  - intros s2 ->. cbn [Nat.add].
    assert (gj (length L) = loaded (log s) L) as -> by (unfold gj, loaded; by rewrite take_ge).
    set (g' := loaded (log s) L). assert (buf_at (set_log g' s1) i a h) as Hat by (by exists x).
    eapply wp_mono; [eapply (brelse_run (set_log g' s1) pid _ ∅ i a h); [by apply bc_inv_set_log | set_solver + | done | right] |].
    { cbn. rewrite Hd1. apply (view_clean s pid ∅ ∅); [done | apply not_held_empty | set_solver +]. }
    intros _ s3 (Hi3 & Hio3 & Hd3 & Hw3 & _ & Hv3). split_and!.
    + replace ∅ with (({[i]} ∪ (∅ : gset nat)) ∖ {[i]}) by set_solver +. done.
    + eapply io_only_trans; [by apply io_only_set_log | done].
    + by rewrite Hd3.
    + rewrite Hw3. cbn. by rewrite app_nil_r.
    + intros bn. rewrite Hv3. apply Hv1.
Qed.
Definition recovery_writes (start : Z) L (f : Z -> list Z) : list (Z * list Z) :=
  home_writes L (logged f start (length L)) ++ [(start, header (f start) [])].

Lemma recover_run s pid L :
  s.(log).(log_dev) = ROOTDEV -> length s.(log).(lh_block) = 30%nat -> geo s.(log).(log_start) s.(log).(log_size) L ->
  bc_inv s pid ∅ ∅ -> head_is (view s s.(log).(log_start)) L ->
  wp recover_from_log (fun _ => wrote (set_log (set_lh_n 0 (loaded s.(log) L)) s) pid ∅ ∅ (recovery_writes s.(log).(log_start) L (view s))) s.
Proof.
  intros Hd Hl Hg Hi Hh. pose proof (loaded_ok _ _ Hd Hl Hg) as Hok. pose proof (ge_cap _ _ _ Hg) as Hcap. set (a := log_start (log s)).
  unfold recover_from_log. apply wp_bind. eapply wp_mono; [by apply (read_head_run s pid L) |]. intros ? s1 H1. cbn beta in H1.
  pose proof (wrote_log_eq _ _ _ _ _ _ H1) as G1. cbn in G1. assert (forall bn, view s1 bn = view s bn) as V1 by apply H1.
  apply wp_bind. eapply wp_mono; [apply (install_trans_run true s1 pid L); rewrite ?G1; [done | apply H1 | unfold NBUF; lia] |].
  intros ? s2 H2. cbn beta in H2. rewrite G1 in H2. change (log_start (loaded (log s) L)) with a in H2.
  rewrite (logged_ext (view s1) (view s)) in H2 by (intros; apply V1). set (W := home_writes _ _) in H2.
  assert (W.*1 = L) as HW by (unfold W; by rewrite fst_home_writes by (by rewrite length_logged)).
  assert (H12 := wrote_trans _ _ _ _ _ _ _ _ _ _ H1 H2). pose proof (wrote_log_eq _ _ _ _ _ _ H12) as G2. cbn in G2.
  apply wp_bind, wp_modify. rewrite G2. set (g' := set_lh_n 0 (loaded (log s) L)). apply (wrote_set_log g') in H12. cbn [app] in H12.
  eapply wp_mono; [apply (write_head_run _ pid [] ∅); [by eapply (log_ok_clear _ L) | apply H12 | rewrite size_empty; unfold NBUF; lia | set_solver +] |].
  intros ? s3 H3. cbn beta in H3. change (log_start (log (set_log g' s2))) with a in H3. change (view (set_log g' s2) a) with (view s2 a) in H3.
  assert (view s2 a = view s a) as E.
  { destruct H12 as (_ & _ & _ & _ & V2). change (view s2 a) with (view (set_log g' s2) a). rewrite V2. apply over_ne. rewrite HW.
    pose proof (ge_out _ _ _ Hg) as Ho. rewrite Forall_forall in Ho. intros Hin. apply (Ho a Hin). unfold a. lia. }
  rewrite E in H3. unfold recovery_writes. fold W. by eapply wrote_trans.
Qed.

(** The in-memory log after initlog(). *)
Definition booted (sb : superblock) g g' : Prop :=
  log_ok g' [] /\ g'.(log_start) = sb.(sb_logstart) /\ g'.(log_size) = sb.(sb_nlog) /\
  g'.(log_outstanding) = g.(log_outstanding) /\ g'.(log_committing) = g.(log_committing).

Lemma initlog_run s pid L sb : LkLog ∉ s.(held) ->
  length s.(log).(lh_block) = 30%nat -> geo sb.(sb_logstart) sb.(sb_nlog) L -> bc_inv s pid ∅ ∅ -> head_is (view s sb.(sb_logstart)) L ->
  wp (initlog ROOTDEV sb) (fun _ s' => exists g, booted sb s.(log) g /\ wrote (set_log g s) pid ∅ ∅ (recovery_writes sb.(sb_logstart) L (view s)) s') s.
Proof.
  intros Hlk Hl Hg Hi Hh. unfold initlog. cbn [Z.leb]. change (BSIZE <=? sizeof_logheader) with false. cbn iota.
  apply wp_bind. eapply wp_Ok; [by apply initlock_Ok |].
  apply wp_bind, wp_modify. set (g1 := set_log_dev _ _). eapply wp_mono; [apply (recover_run (set_log g1 s) pid L); try done |].
  - by apply bc_inv_set_log.
  - intros ? s' Hs'. cbn beta in Hs'. exists (set_lh_n 0 (loaded g1 L)). split; [|exact Hs'].
    split_and!; [|done..]. by apply (log_ok_clear _ L), loaded_ok.
Qed.

(** ** What a disk stands for *)

(** Recovery of the disk [d] gives the blocks [f], outside the log area. *)
Definition recovers_to (d : gmap Z (list Z)) (start size : Z) (f : Z -> list Z) : Prop :=
  exists L, geo start size L /\ head_is (disk_block d start) L /\
    forall bn, ~ (start <= bn < start + size) -> over (home_writes L (logged (disk_block d) start (length L))) (disk_block d) bn = f bn.

Lemma over_again w k f bn : NoDup w.*1 -> over w (over (take k w) f) bn = over w f bn.
Proof.
  intros Hnd. destruct (decide (bn ∈ w.*1)) as [Hin|Hn].
  - apply list_elem_of_fmap in Hin as ([x v] & -> & Hin). apply list_elem_of_lookup in Hin as [j Hj]. by rewrite !(over_at _ _ _ _ _ Hnd Hj).
  - rewrite !(over_ne w) by done. apply over_ne. rewrite fmap_take. intros Hin. by apply Hn, (take_sub _ k).
Qed.

Lemma home_keeps start size L vs k f a : geo start size L -> length vs = length L -> start <= a < start + size ->
  over (take k (home_writes L vs)) f a = f a.
Proof.
  intros Hg Hvs Ha. apply over_ne. rewrite fmap_take, fst_home_writes by done. intros Hin%take_sub.
  pose proof (ge_out _ _ _ Hg) as Ho. rewrite Forall_forall in Ho. by apply (Ho a Hin).
Qed.

Lemma log_keeps start size vs k f bn : Z.of_nat (length vs) < size -> ~ (start < bn < start + size) ->
  over (take k (log_writes start vs)) f bn = f bn.
Proof. intros Hs Hb. apply over_ne. rewrite fmap_take. intros Hin%take_sub%elem_of_log_writes. lia. Qed.

(** A disk whose header names no block stands for itself. *)
Lemma recovers_empty d start size L f : geo start size L -> head_is (disk_block d start) [] ->
  (forall bn, ~ (start <= bn < start + size) -> disk_block d bn = f bn) -> recovers_to d start size f.
Proof. intros Hg Hh Hf. exists []. split_and!; [by eapply geo_nil | done |]. intros bn Hb. cbn. by apply Hf. Qed.
(** A crash during recovery. *)
Lemma recovery_prefix d start size L f k :
  geo start size L -> head_is (disk_block d start) L -> length (disk_block d start) = 1024%nat ->
  (forall bn, ~ (start <= bn < start + size) -> over (home_writes L (logged (disk_block d) start (length L))) (disk_block d) bn = f bn) ->
  recovers_to (apply_writes d (take k (recovery_writes start L (disk_block d)))) start size f.
Proof.
  intros Hg Hh Hlen Hf. unfold recovery_writes. set (vs := logged _ _ _) in *. set (W := home_writes _ _) in *.
  assert (length vs = length L) as Hvs by (unfold vs; by rewrite length_logged). pose proof (ge_cap _ _ _ Hg) as Hcap.
  assert (W.*1 = L) as HW1 by (unfold W; by rewrite fst_home_writes).
  assert (length W = length L) as HW by (by rewrite <- HW1, length_fmap). rewrite take_app, HW.
  destruct (decide (k <= length L)%nat) as [Hk|Hk].
  - replace (k - length L)%nat with 0%nat by lia. rewrite take_0, app_nil_r. exists L. split_and!; [done | |].
    + rewrite apply_writes_block. unfold W. rewrite (home_keeps start size) by (done || lia). done.
    + intros bn Hbn. rewrite (logged_ext _ (disk_block d)).
      * fold vs W. erewrite over_ext by apply apply_writes_block. rewrite over_again by (rewrite HW1; apply Hg). by apply Hf.
      * intros j Hj. rewrite apply_writes_block. apply (home_keeps start size); [done | done | lia].
  - rewrite !take_ge by (cbn; lia). eapply recovers_empty; [done | |].
    + rewrite apply_writes_block, over_app. cbn. rewrite decide_True by done. apply (header_is _ []); [done | cbn; lia | done].
    + intros bn Hbn. rewrite apply_writes_block, over_app. cbn. rewrite decide_False by lia. by apply Hf.
Qed.

(** A crash during commit(). *)
Lemma commit_prefix d start size L vs k :
  geo start size L -> length vs = length L -> head_is (disk_block d start) [] -> length (disk_block d start) = 1024%nat ->
  recovers_to (apply_writes d (take k (commit_writes start L vs (disk_block d start)))) start size
    (if decide (k <= length L)%nat then disk_block d else over (home_writes L vs) (disk_block d)).
Proof.
  intros Hg Hvs Hh Hlen. pose proof (ge_cap _ _ _ Hg) as Hcap. unfold commit_writes. set (h := disk_block d start) in *.
  set (Wl := log_writes start vs). set (W := home_writes L vs).
  assert (W.*1 = L) as HW1 by (unfold W; by rewrite fst_home_writes).
  assert (length W = length L) as HW by (by rewrite <- HW1, length_fmap).
  assert (length Wl = length L) as HWl by (unfold Wl; by rewrite length_log_writes). rewrite take_app, HWl.
  destruct (decide (k <= length L)%nat) as [Hk|Hk].
  { replace (k - length L)%nat with 0%nat by lia. rewrite take_0, app_nil_r. eapply recovers_empty; [done | |].
    - rewrite apply_writes_block. unfold Wl. by rewrite (log_keeps start size) by lia.
    - intros bn Hbn. rewrite apply_writes_block. apply (log_keeps start size); lia. }
  rewrite (take_ge Wl) by lia. replace (k - length L)%nat with (S (k - length L - 1)) by lia. set (m := (k - length L - 1)%nat).
  cbn [take app]. rewrite take_app, HW.
  assert (length (header h L) = 1024%nat) as Hhl by (apply header_read; [done | lia | apply Hg]).
  destruct (decide (m <= length L)%nat) as [Hm|Hm].
  - replace (m - length L)%nat with 0%nat by lia. rewrite take_0, app_nil_r.
    assert (forall a, start <= a < start + size -> disk_block (apply_writes d (Wl ++ (start, header h L) :: take m W)) a =
      if decide (a = start) then header h L else over Wl (disk_block d) a) as Hin.
    { intros a Ha. rewrite apply_writes_block, over_app, over_cons. unfold W. by rewrite (home_keeps start size). }
    exists L. split_and!; [done | |].
    + rewrite Hin, decide_True by lia. apply header_is; [done | lia | apply Hg].
    + intros bn Hbn. rewrite (logged_ext _ (over Wl (disk_block d))) by (intros j Hj; rewrite Hin, decide_False by lia; done).
      rewrite <- Hvs. unfold Wl at 1. rewrite logged_written. fold W. erewrite over_ext by apply apply_writes_block.
      rewrite over_app, over_cons, over_again by (rewrite HW1; apply Hg). apply over_ext. cbn. rewrite decide_False by lia.
      rewrite <- (take_ge Wl (length Wl)) by lia. apply (log_keeps start size); lia.
  - rewrite (take_ge W), (take_ge [_]) by (cbn; lia). eapply recovers_empty; [done | |].
    + rewrite apply_writes_block, over_app, over_cons, over_app. cbn. rewrite decide_True by done. apply (header_is _ []); [done | cbn; lia | done].
    + intros bn Hbn. rewrite apply_writes_block, over_app, over_cons, over_app. cbn. rewrite decide_False by lia. apply over_ext.
      rewrite decide_False by lia. rewrite <- (take_ge Wl (length Wl)) by lia. apply (log_keeps start size); lia.
Qed.
Lemma view_disk s pid bn : bc_inv s pid ∅ ∅ -> view s bn = disk_block s.(disk) bn.
Proof. intros Hi. apply (view_clean s pid ∅ ∅ bn Hi); [apply not_held_empty | set_solver +]. Qed.

Lemma logged_disk s pid start n : bc_inv s pid ∅ ∅ -> logged (view s) start n = logged (disk_block s.(disk)) start n.
Proof. intros Hi. apply logged_ext. intros. by eapply view_disk. Qed.

(** After recovery the disk holds the blocks it stood for. *)
Lemma initlog_recovers s pid sb f : LkLog ∉ s.(held) ->
  length s.(log).(lh_block) = 30%nat -> bc_inv s pid ∅ ∅ -> recovers_to s.(disk) sb.(sb_logstart) sb.(sb_nlog) f ->
  wp (initlog ROOTDEV sb) (fun _ s' => exists R,
    booted sb s.(log) s'.(log) /\ s'.(held) = s.(held) /\ bc_inv s' pid ∅ ∅ /\ s'.(dwrites) = s.(dwrites) ++ R /\ header_n (disk_block s'.(disk) sb.(sb_logstart)) = 0 /\
    (forall bn, ~ (sb.(sb_logstart) <= bn < sb.(sb_logstart) + sb.(sb_nlog)) -> disk_block s'.(disk) bn = f bn) /\
    forall k, recovers_to (apply_writes s.(disk) (take k R)) sb.(sb_logstart) sb.(sb_nlog) f) s.
Proof.
  intros Hlk Hl Hi (L & Hg & Hh & Hf). set (a := sb_logstart sb) in *. pose proof (ge_cap _ _ _ Hg) as Hcap.
  eapply wp_mono; [apply (initlog_run s pid L sb Hlk Hl Hg Hi); by rewrite (view_disk _ pid) |].
  intros _ s' (g & Hn & Hw). fold a in Hw. unfold recovery_writes in Hw. rewrite (logged_disk _ pid), (view_disk _ pid) in Hw by done.
  fold (recovery_writes a L (disk_block (disk s))) in Hw. pose proof (wrote_log_eq _ _ _ _ _ _ Hw) as G.
  destruct Hw as (Hi' & Hio & Hd & Hdw & _). cbn in Hd, Hdw. exists (recovery_writes a L (disk_block (disk s))). rewrite Hd.
  split_and!; [by rewrite G | by apply io_only_held in Hio | done | done | | |].
  - unfold recovery_writes. rewrite apply_writes_block, over_app, over_cons. cbn [fst snd over foldl]. rewrite decide_True by done.
    apply (header_is _ []); [apply (bc_disk _ _ _ _ Hi) | cbn; lia | done].
  - intros bn Hbn. unfold recovery_writes. rewrite apply_writes_block, over_app, over_cons. cbn [fst snd over foldl].
    rewrite decide_False by lia. by apply Hf.
  - intros k. apply recovery_prefix; [done | done | apply (bc_disk _ _ _ _ Hi) | done].
Qed.

(** The disk after commit(), outside the log area. *)
Lemma commit_over start size L vs h f bn : geo start size L -> length vs = length L -> ~ (start <= bn < start + size) ->
  over (commit_writes start L vs h) f bn = over (home_writes L vs) f bn.
Proof.
  intros Hg Hvs Hbn. pose proof (ge_cap _ _ _ Hg) as Hcap. unfold commit_writes. rewrite !over_app. cbn. rewrite decide_False by lia.
  apply over_ext. rewrite decide_False by lia. rewrite <- (take_ge (log_writes start vs) (length vs)) by (by rewrite length_log_writes).
  apply (log_keeps start size); lia.
Qed.

Lemma home_view s pid L bn : NoDup L -> bc_inv s pid ∅ (list_to_set L) -> over (home_writes L (view s <$> L)) (disk_block s.(disk)) bn = view s bn.
Proof.
  intros Hnd Hi. assert (length L = length (view s <$> L)) as Hvs by (by rewrite length_fmap). destruct (decide (bn ∈ L)) as [Hin|Hn].
  - apply list_elem_of_lookup in Hin as [j Hj]. apply (over_at _ _ j); [by rewrite fst_home_writes |].
    apply home_writes_lookup; [done |]. by rewrite list_lookup_fmap, Hj.
  - rewrite over_ne by (by rewrite fst_home_writes). symmetry. apply (view_clean _ _ _ _ _ Hi); [apply not_held_empty |].
    by rewrite elem_of_list_to_set.
Qed.

Lemma head_view s pid L : log_ok s.(log) L -> bc_inv s pid ∅ (list_to_set L) ->
  view s s.(log).(log_start) = disk_block s.(disk) s.(log).(log_start).
Proof.
  intros Hg Hi. apply (view_clean _ _ _ _ _ Hi); [apply not_held_empty |]. rewrite elem_of_list_to_set. intros Hin.
  pose proof (lo_out _ _ Hg) as Ho. pose proof (lo_cap _ _ Hg). rewrite Forall_forall in Ho. apply (Ho _ Hin). lia.
Qed.

(** commit() leaves an empty log and the new contents on the disk. *)
Lemma commit_done s pid L :
  log_ok s.(log) L -> s.(log).(log_size) <= 30 -> bc_inv s pid ∅ (list_to_set L) ->
  header_n (disk_block s.(disk) s.(log).(log_start)) = 0 ->
  wp commit (fun _ s' => bc_inv s' pid ∅ ∅ /\ io_only (set_log (set_lh_n 0 s.(log)) s) s' /\
    header_n (disk_block s'.(disk) s.(log).(log_start)) = 0 /\
    forall bn, ~ (s.(log).(log_start) <= bn < s.(log).(log_start) + s.(log).(log_size)) -> disk_block s'.(disk) bn = view s bn) s.
Proof.
  intros Hg Hsz Hi Hh. pose proof (log_ok_geo _ _ Hg Hsz) as Hgeo. pose proof (ge_cap _ _ _ Hgeo) as Hcap. destruct L as [|b L'].
  - unfold commit. apply wp_bind, wp_gets. rewrite (lo_n _ _ Hg). cbn [when Z.ltb Z.of_nat length Z.compare]. apply wp_ret.
    split_and!; [done | | done | intros; symmetry; by eapply view_disk]. replace (set_lh_n 0 (log s)) with (log s).
    + rewrite set_log_id. apply io_only_refl.
    + pose proof (lo_n _ _ Hg) as E. by destruct (log s); cbn in *; subst.
  - eapply wp_mono; [apply (commit_run s pid (b :: L') Hg); [done | done | unfold NBUF; lia] |]. intros _ s' (Hi' & Hio & Hd & _).
    set (a := log_start (log s)) in *. set (L := b :: L') in *. cbn [disk set_log] in Hd. split_and!; [done | done | |].
    + rewrite Hd, apply_writes_block. unfold commit_writes. rewrite !over_app, over_cons. cbn [fst snd]. cbn [over foldl].
      rewrite decide_True by done. apply (header_is _ []); [|cbn; lia | done]. apply header_read; [by eapply view_length | lia | apply Hg].
    + intros bn Hbn. rewrite Hd, apply_writes_block, (commit_over a (log_size (log s))) by (done || by rewrite length_fmap).
      eapply home_view; [apply Hg | done].
Qed.

(** ** The theorems *)

(** C5. A transaction of the blocks [L] is atomic: commit() ends with the disk holding
    the new contents, and after a crash at any point of it, that is, after any number
    [k] of its disk writes, initlog() finds either the old contents of every block
    (while the header with the block numbers has not been written) or the new
    contents of every block (from then on). *)
Theorem commit_atomic s pid L :
  log_ok s.(log) L -> s.(log).(log_size) <= 30 -> L <> [] -> bc_inv s pid ∅ (list_to_set L) ->
  header_n (disk_block s.(disk) s.(log).(log_start)) = 0 ->
  exists T,
    wp commit (fun _ s' => bc_inv s' pid ∅ ∅ /\ s'.(log).(lh_n) = 0 /\ s'.(dwrites) = s.(dwrites) ++ T /\
      forall bn, ~ (s.(log).(log_start) <= bn < s.(log).(log_start) + s.(log).(log_size)) -> disk_block s'.(disk) bn = view s bn) s /\
    forall k s2 pid2 sb,
      sb.(sb_logstart) = s.(log).(log_start) -> sb.(sb_nlog) = s.(log).(log_size) -> length s2.(log).(lh_block) = 30%nat -> LkLog ∉ s2.(held) ->
      bc_inv s2 pid2 ∅ ∅ -> s2.(disk) = apply_writes s.(disk) (take k T) ->
      wp (initlog ROOTDEV sb) (fun _ s3 => s3.(log).(lh_n) = 0 /\
        forall bn, ~ (s.(log).(log_start) <= bn < s.(log).(log_start) + s.(log).(log_size)) ->
          disk_block s3.(disk) bn = if decide (k <= length L)%nat then disk_block s.(disk) bn else view s bn) s2.
Proof.
  intros Hg Hsz HL Hi Hh. pose proof (log_ok_geo _ _ Hg Hsz) as Hgeo. pose proof (ge_cap _ _ _ Hgeo) as Hcap.
  set (a := log_start (log s)) in *. set (n := log_size (log s)) in *. set (vs := view s <$> L).
  assert (length vs = length L) as Hvs by (unfold vs; by rewrite length_fmap).
  pose proof (head_view _ _ _ Hg Hi) as Ea. fold a in Ea. pose proof (fun bn => home_view s pid L bn (lo_nodup _ _ Hg) Hi) as Hnew.
  assert (head_is (disk_block (disk s) a) []) as Hh0 by (split; [done | intros i b Hb; by rewrite lookup_nil in Hb]).
  pose proof (fun k => commit_prefix (disk s) a n L vs k Hgeo Hvs Hh0 (bc_disk _ _ _ _ Hi a)) as Hpre.
  set (T := commit_writes a L vs (disk_block (disk s) a)) in *. exists T. split.
  - eapply wp_mono; [apply (commit_run s pid L Hg HL Hi); unfold NBUF; lia |]. intros ? s' Hw. cbn beta in Hw. fold a vs in Hw. rewrite Ea in Hw.
    fold T in Hw. pose proof (wrote_log_eq _ _ _ _ _ _ Hw) as G. destruct Hw as (Hi' & _ & Hd & Hdw & _).
    split_and!; [done | by rewrite G | done |]. intros bn Hbn. rewrite Hd, <- Hnew, apply_writes_block. by apply (commit_over a n).
  - intros k s2 pid2 sb Hs1 Hs2 Hl2 Hlk2 Hi2 Hd2. specialize (Hpre k). rewrite <- Hd2, <- Hs1, <- Hs2 in Hpre.
    eapply wp_mono; [by apply (initlog_recovers s2 pid2 sb _ Hlk2 Hl2 Hi2 Hpre) |]. intros _ s3 (R & Hn & _ & _ & _ & _ & Hf & _). split; [apply Hn |].
    rewrite <- Hs1, <- Hs2. intros bn Hbn. rewrite (Hf bn Hbn). by case_decide.
Qed.
(** The disks that any number of crashes during initlog() can leave. *)
Inductive crashes (sb : superblock) : gmap Z (list Z) -> gmap Z (list Z) -> Prop :=
  | crashes_none d : crashes sb d d
  | crashes_again s pid s' R k d' :
      bc_inv s pid ∅ ∅ -> length s.(log).(lh_block) = 30%nat -> LkLog ∉ s.(held) -> initlog ROOTDEV sb s = Ok tt s' -> s'.(dwrites) = s.(dwrites) ++ R ->
      crashes sb (apply_writes s.(disk) (take k R)) d' -> crashes sb s.(disk) d'.

(** C6. Recovery survives crashes: from a disk that stands for the blocks [f], after any
    number of recoveries that crashed, each after any number of its writes, initlog()
    returns with an empty log and with the blocks [f] on the disk. *)
Theorem recovery_survives_crashes sb d d' f s pid :
  recovers_to d sb.(sb_logstart) sb.(sb_nlog) f -> crashes sb d d' ->
  s.(disk) = d' -> bc_inv s pid ∅ ∅ -> length s.(log).(lh_block) = 30%nat -> LkLog ∉ s.(held) ->
  wp (initlog ROOTDEV sb) (fun _ s' => s'.(log).(lh_n) = 0 /\ header_n (disk_block s'.(disk) sb.(sb_logstart)) = 0 /\
    forall bn, ~ (sb.(sb_logstart) <= bn < sb.(sb_logstart) + sb.(sb_nlog)) -> disk_block s'.(disk) bn = f bn) s.
Proof.
  intros Hr Hc Hd Hi Hl Hlk. revert Hr Hd. induction Hc as [d|s1 pid1 s1' R k d' Hi1 Hl1 Hlk1 E1 W1 _ IH]; intros Hr Hd.
  - subst d. eapply wp_mono; [by apply (initlog_recovers s pid sb f) |]. intros _ s' (R & Hg & _ & _ & _ & ? & ? & _). split_and!; [apply Hg | done | done].
  - apply IH; [|done]. pose proof (initlog_recovers s1 pid1 sb f Hlk1 Hl1 Hi1 Hr) as Hw. unfold wp in Hw. rewrite E1 in Hw.
    destruct Hw as (R' & _ & _ & _ & W' & _ & _ & Hk). rewrite W1 in W'. apply app_inv_head in W' as ->. apply Hk.
Qed.
End crash.
