(* ===== verification/Txn.v ===== *)
(** * Transactions (kernel/log.c)

    begin_op(), log_write() and end_op() as the file system uses them: inside a
    transaction the disk does not change, and the blocks written are the blocks the
    log holds pinned in the buffer cache. *)

From S2P Require Import Prelude State Mem Bytes Sched Sleeplock Bio Bcache Log LogSpec Crash.

Section txn.
Context {P : Patience}.
Implicit Types (s : kernel) (bn : Z) (H : gset nat) (Pn : gset Z) (g : logstate) (L : list Z).

(** The process is in a transaction that has written the blocks [L]; it holds the
    buffers [H]. *)
Record txn s pid H L : Prop := {
  tx_log : log_ok s.(log) L;
  tx_size : s.(log).(log_size) <= 30;
  tx_out : 1 <= s.(log).(log_outstanding) < 2 ^ 31;
  tx_idle : s.(log).(log_committing) = 0;
  tx_bc : bc_inv s pid H (list_to_set L);
  tx_lock : LkLog ∉ s.(held);
  tx_head : header_n (disk_block s.(disk) s.(log).(log_start)) = 0;
}.

Definition log_add bn L : list Z := if decide (bn ∈ L) then L else L ++ [bn].

(** [s'] differs from [s] in the cache, the log and woken processes only. *)
Definition tx_only s s' : Prop :=
  io_only (set_log s'.(log) s) s' /\ s'.(disk) = s.(disk) /\ s'.(dwrites) = s.(dwrites) /\
  s'.(log).(log_start) = s.(log).(log_start) /\ s'.(log).(log_size) = s.(log).(log_size).

Lemma tx_only_refl s : tx_only s s.
Proof. split_and!; try done. rewrite set_log_id. apply io_only_refl. Qed.

Lemma tx_only_trans s1 s2 s3 : tx_only s1 s2 -> tx_only s2 s3 -> tx_only s1 s3.
Proof.
  intros (I1 & D1 & W1 & A1 & B1) (I2 & D2 & W2 & A2 & B2). split_and!; try congruence.
  eapply io_only_trans; [|exact I2]. apply (io_only_set_log s3.(log)) in I1. exact I1.
Qed.

Lemma tx_io s s' : io_only s s' -> s'.(disk) = s.(disk) -> s'.(dwrites) = s.(dwrites) -> tx_only s s'.
Proof. intros Hio Hd Hw. pose proof (io_only_log _ _ Hio) as G. split_and!; rewrite ?G; try done. Qed.

Lemma log_find_spec g L bn : log_ok g L ->
  forall n i, (i + n = length L)%nat -> let k := log_find n i g bn in
  (i <= k <= length L)%nat /\ (forall j, (i <= j < k)%nat -> L !! j <> Some bn) /\ ((k < length L)%nat -> L !! k = Some bn).
Proof.
  intros Hg n. induction n as [|n IH]; intros i Hi k; cbn in k.
  - split_and!; unfold k; lia.
  - destruct (lookup_lt_is_Some_2 L i) as [x Hx]; [lia |]. destruct (lh_get_ok _ _ _ _ Hg Hx) as (Ex & Eu & _). unfold k. rewrite Ex, Eu.
    destruct (Z.eqb_spec x bn) as [->|Hne].
    + split_and!; [lia | lia | lia | done].
    + destruct (IH (i + 1)%nat) as (H1 & H2 & H3); [lia |]. split_and!; [lia | lia | | done].
      intros j Hj. destruct (decide (j = i)) as [->|]; [congruence |]. apply H2. lia.
Qed.

(** Absorption: a block that is in the log keeps its place. *)
Lemma log_find_add g L bn : log_ok g L ->
  let k := log_find (length L) 0 g bn in
  (bn ∈ L /\ (k < length L)%nat /\ L !! k = Some bn) \/ (bn ∉ L /\ k = length L).
Proof.
  intros Hg k. destruct (log_find_spec g L bn Hg (length L) 0%nat) as (H1 & H2 & H3); [lia |]. fold k in H1, H2, H3.
  destruct (decide (k < length L)%nat) as [Hk|Hk].
  - left. split_and!; [|done|by apply H3]. apply list_elem_of_lookup. eauto.
  - right. split; [|lia]. intros [j Hj]%list_elem_of_lookup. eapply H2; [|exact Hj]. apply lookup_lt_Some in Hj. lia.
Qed.

Lemma log_ok_add g L bn : log_ok g L -> bn ∉ L -> 0 <= bn < 2 ^ 31 -> ~ (g.(log_start) <= bn < g.(log_start) + g.(log_size)) ->
  Z.of_nat (length L) + 1 < g.(log_size) -> 
  log_ok (set_lh_n (g.(lh_n) + 1) (set_lh_block (<[length L := bn]> g.(lh_block)) g)) (L ++ [bn]).
Proof.
  intros [Hd Hn Hb Hl Hc Hnd Hr Ho Hs] Hni Hrb Hob Hcap. constructor; cbn; try done.
  - rewrite length_app. cbn. lia.
  - rewrite length_app. cbn. rewrite Nat.add_1_r, (take_S_r _ (length L) bn) by (apply list_lookup_insert_eq; lia).
    by rewrite take_insert_ge, Hb by lia.
  - by rewrite length_insert.
  - rewrite length_app. cbn. lia.
  - apply NoDup_app. split_and!; [done | | apply NoDup_singleton]. intros x Hx Hx2. apply list_elem_of_singleton in Hx2. by subst.
  - apply Forall_app. split; [done | by constructor].
  - apply Forall_app. split; [done | by constructor].
Qed.

Lemma bc_inv_set_held h s pid H Pn : bc_inv s pid H Pn -> env (set_held h s) pid -> bc_inv (set_held h s) pid H Pn.
Proof. intros [? ? ? ? ? ? ? ? ? ? ? ?] He. by constructor. Qed.

Lemma env_lk h s pid : env s pid -> h = s.(held) \/ h = {[LkLog]} ∪ s.(held) -> env (set_held h s) pid.
Proof. intros [? ? ? ? ?] Hh. constructor; cbn; try done; intros; destruct Hh as [->| ->]; set_solver. Qed.
Lemma io_only_set_held h s s' : io_only s s' -> io_only (set_held h s) (set_held h s').
Proof. intros (W & I & E). split_and!; [exact W | exact I |]. rewrite E at 1. by kstate. Qed.

Lemma set_held_log h g s : set_held s.(held) (set_log g (set_held h s)) = set_log g s.
Proof. by destruct s. Qed.

(** What log_write() leaves alone. *)
Definition logged_post s pid H L (i : nat) bn (d : list Z) s' : Prop :=
  txn s' pid H (log_add bn L) /\ tx_only s s' /\ buf_at s' i bn d /\
  (forall j, j <> i -> s'.(bufs) !! j = s.(bufs) !! j) /\ forall bn', view s' bn' = view s bn'.

Lemma log_write_new s pid H L i bn d :
  txn s pid H L -> i ∈ H -> buf_at s i bn d -> 0 <= bn < 2 ^ 31 ->
  ~ (s.(log).(log_start) <= bn < s.(log).(log_start) + s.(log).(log_size)) -> Z.of_nat (length L) + 1 < s.(log).(log_size) ->
  bn ∉ L ->
  wp (upd_log (fun g => set_lh_block (<[length L := s32 bn]> g.(lh_block)) g);;
      (bpin i;; upd_log (fun g => set_lh_n (g.(lh_n) + 1) g));; release LkLog)
    (fun _ => logged_post s pid H L i bn d) (set_held ({[LkLog]} ∪ s.(held)) s).
Proof.
  intros [Hg Hsz Hout Hidle Hi Hlk Hh] Hin Hat Hr Ho Hcap Hn. set (s1 := set_held _ s).
  rewrite s32_small by lia. apply wp_bind, wp_modify. set (g2 := set_lh_block _ _). set (s2 := set_log g2 s1).
  assert (bc_inv s2 pid H (list_to_set L)) as Hi2.
  { apply bc_inv_set_log, bc_inv_set_held; [done |]. apply env_lk; [apply Hi | by right]. }
  apply wp_bind, wp_bind. eapply wp_mono; [apply (pin_run s2 pid H (list_to_set L) (list_to_set (L ++ [bn])) i bn d 1); try done |].
  - intros x Hx. rewrite !elem_of_list_to_set, elem_of_app, list_elem_of_singleton. tauto.
  - rewrite decide_True by set_solver +. by rewrite decide_False by (by rewrite elem_of_list_to_set).
  - intros ? s3 (Hi3 & Hio3 & Hd3 & Hw3 & Hat3 & Hbo3 & Hv3). pose proof (io_only_log _ _ Hio3) as G3. pose proof (io_only_held _ _ Hio3) as Hh3.
    cbn in G3, Hh3. apply wp_modify. rewrite G3. set (g3 := set_lh_n _ g2).
    eapply wp_Ok; [apply release_Ok; cbn; rewrite Hh3; set_solver +|]. cbn [held set_log]. rewrite Hh3, held_drop by done.
    set (s4 := set_held _ _). apply (io_only_set_log g3), (io_only_set_held s.(held)) in Hio3. fold s4 in Hio3.
    replace (set_held (held s) (set_log g3 s2)) with (set_log g3 s) in Hio3 by (unfold s2, s1; by destruct s).
    split_and!; [| split_and!; done | done | done | done]. unfold log_add. rewrite decide_False by done.
    constructor; cbn; try done.
    + by apply (log_ok_add (log s) L bn).
    + apply (bc_inv_set_held s.(held) (set_log g3 s3)); [by apply bc_inv_set_log |]. apply (env_io (set_log g3 s)); [|done].
      eapply env_pid; [apply Hi | done..].
    + by rewrite Hd3.
Qed.

Lemma log_write_run s pid H L i bn d :
  txn s pid H L -> i ∈ H -> buf_at s i bn d -> 0 <= bn < 2 ^ 31 ->
  ~ (s.(log).(log_start) <= bn < s.(log).(log_start) + s.(log).(log_size)) -> Z.of_nat (length L) + 1 < s.(log).(log_size) ->
  wp (log_write i) (fun _ => logged_post s pid H L i bn d) s.
Proof.
  intros Ht Hin Hat Hr Ho Hcap. pose proof Ht as [Hg Hsz Hout Hidle Hi Hlk Hh]. pose proof Hat as (x & Hx & [Hxd Hxb] & Hdata). unfold log_write.
  apply wp_bind. eapply wp_Ok; [by apply acquire_Ok |]. apply wp_bind, wp_gets. cbn [log set_held]. rewrite (lo_n _ _ Hg).
  rewrite (proj2 (Z.leb_gt LOGSIZE _)) by (change LOGSIZE with 30; lia). rewrite (proj2 (Z.leb_gt (_ - 1) _)) by lia. cbn [orb].
  rewrite (proj2 (Z.ltb_ge _ 1)) by lia. apply wp_bind. eapply wp_Ok; [by apply get_buf_Ok |]. rewrite Hxb, Nat2Z.id.
  destruct (log_find_add _ _ bn Hg) as [(Hb & Hk & Hkb)|(Hb & ->)].
  - apply wp_bind, wp_modify. rewrite (proj2 (Z.eqb_neq _ _)) by lia. cbn [when]. apply wp_bind, wp_ret.
    eapply wp_Ok; [apply release_Ok; cbn; set_solver +|]. cbn [held set_log set_held]. rewrite held_drop by done.
    destruct (lh_get_ok _ _ _ _ Hg Hkb) as (Hget & _). set (k := log_find _ _ _ _) in *.
    replace (<[k := s32 bn]> (lh_block (log s))) with (lh_block (log s)).
    2: { symmetry. apply list_insert_id. rewrite s32_small by lia. rewrite <- (lo_blk _ _ Hg) in Hkb. by apply lookup_take_Some in Hkb as [? _]. }
    replace (set_held (held s) _) with s by (destruct s; cbn; by destruct log).
    unfold logged_post, log_add. rewrite decide_True by done. split_and!; try done. apply tx_only_refl.
  - rewrite Z.eqb_refl. cbn [when]. by apply log_write_new.
Qed.
(** No transaction is running. *)
Record idle s pid : Prop := {
  id_log : log_ok s.(log) [];
  id_size : s.(log).(log_size) <= 30;
  id_out : s.(log).(log_outstanding) = 0;
  id_idle : s.(log).(log_committing) = 0;
  id_bc : bc_inv s pid ∅ ∅;
  id_lock : LkLog ∉ s.(held);
  id_head : header_n (disk_block s.(disk) s.(log).(log_start)) = 0;
}.

(** initlog() at boot leaves no transaction running. *)
Lemma initlog_idle s pid sb f :
  length s.(log).(lh_block) = 30%nat -> bc_inv s pid ∅ ∅ -> recovers_to s.(disk) sb.(sb_logstart) sb.(sb_nlog) f ->
  s.(log).(log_outstanding) = 0 -> s.(log).(log_committing) = 0 -> LkLog ∉ s.(held) ->
  wp (initlog ROOTDEV sb) (fun _ s' => idle s' pid /\ s'.(log).(log_start) = sb.(sb_logstart) /\ s'.(log).(log_size) = sb.(sb_nlog) /\
    forall bn, ~ (sb.(sb_logstart) <= bn < sb.(sb_logstart) + sb.(sb_nlog)) -> disk_block s'.(disk) bn = f bn) s.
Proof.
  intros Hl Hi Hr Ho Hc Hlk. eapply wp_mono; [by apply (initlog_recovers s pid sb f) |].
  intros _ s' (R & (Hg & Es & Ez & Eo & Ec) & Hh & Hi' & _ & Hh0 & Hf & _). destruct Hr as (L & Hgeo & _). pose proof (ge_cap _ _ _ Hgeo).
  split_and!; [|done..]. constructor; rewrite ?Ez, ?Es, ?Eo, ?Ec, ?Hh; done || lia.
Qed.

Lemma begin_op_run s pid : idle s pid -> wp begin_op (fun _ s' => txn s' pid ∅ [] /\ tx_only s s' /\ s' = set_log (set_log_outstanding 1 s.(log)) s) s.
Proof.
  intros [Hg Hsz Ho Hc Hi Hlk Hh]. unfold begin_op. apply wp_bind. eapply wp_Ok; [by apply acquire_Ok |]. cbn [begin_op_loop].
  apply wp_bind, wp_gets. cbn [log set_held]. rewrite Hc, Ho, (lo_n _ _ Hg). cbn [Z.eqb negb length Z.of_nat].
  change (LOGSIZE <? 0 + (0 + 1) * MAXOPBLOCKS) with false. cbn iota. apply wp_bind, wp_modify. cbn [log set_held].
  eapply wp_Ok; [apply release_Ok; cbn; set_solver + |]. cbn [held set_log set_held]. rewrite held_drop, Ho by done.
  replace (set_held _ _) with (set_log (set_log_outstanding 1 (log s)) s) by (by destruct s). set (s' := set_log _ s).
  split_and!; [|split_and!; try done; apply io_only_refl | done]. constructor; cbn; try done; [|by apply bc_inv_set_log].
  destruct Hg. by constructor.
Qed.

(** A critical section of end_op() that ends with a wakeup. *)
Lemma log_section f s pid : env s pid -> LkLog ∉ s.(held) ->
  (acquire LkLog;; upd_log f;; wakeup (Some ChLog);; release LkLog) s = Ok tt (woken s.(cur) (Some ChLog) (set_log (f s.(log)) s)).
Proof.
  intros He Hlk. erewrite bind_Ok by (by apply acquire_Ok). erewrite bind_Ok by done. cbn [log set_held].
  erewrite bind_Ok by (apply wakeup_run; [apply He | intros j _; cbn; pose proof (e_lkproc _ _ He j); set_solver]).
  rewrite release_Ok by (cbn; set_solver +). f_equal. cbn [held set_held set_log set_procs]. rewrite held_drop by done. by destruct s.
Qed.

Lemma woken_io c s i : s.(cur) = Some i -> io_only s (woken s.(cur) c s).
Proof. intros Hc. split_and!; [rewrite Hc; by apply woken_wakes | done | by destruct s]. Qed.

Lemma bc_inv_woken c s pid H Pn : bc_inv s pid H Pn -> bc_inv (woken s.(cur) c s) pid H Pn.
Proof.
  intros Hi. pose proof (bc_env _ _ _ _ Hi) as He. destruct (e_me _ _ He) as (i & p & Hc & _).
  pose proof (env_io _ _ _ He (woken_io c s i Hc)) as He'. destruct Hi. by constructor.
Qed.

(** The last end_op() commits. *)
Lemma end_op_run s pid L :
  txn s pid ∅ L -> s.(log).(log_outstanding) = 1 ->
  wp end_op (fun _ s' => idle s' pid /\ io_only (set_log s'.(log) s) s' /\
    s'.(log).(log_start) = s.(log).(log_start) /\ s'.(log).(log_size) = s.(log).(log_size) /\
    forall bn, ~ (s.(log).(log_start) <= bn < s.(log).(log_start) + s.(log).(log_size)) ->
      disk_block s'.(disk) bn = view s bn /\ view s' bn = view s bn) s.
Proof.
  intros [Hg Hsz Hout Hidle Hi Hlk Hh] Ho. pose proof (bc_env _ _ _ _ Hi) as He. unfold end_op.
  apply wp_bind. eapply wp_Ok; [by apply acquire_Ok |]. apply wp_bind, wp_modify. apply wp_bind, wp_gets.
  cbn [log set_held set_log log_committing log_outstanding set_log_outstanding]. rewrite Hidle, Ho. cbn [Z.eqb negb Z.sub Z.add Z.opp Z.pos_sub].
  cbn iota. apply wp_bind, wp_modify. cbn [log set_log set_held]. apply wp_bind.
  eapply wp_Ok; [apply release_Ok; cbn; set_solver + |]. cbn [held set_log set_held]. rewrite held_drop by done. cbn [when].
  set (g1 := set_log_committing 1 _). replace (set_held _ _) with (set_log g1 s) by (by destruct s).
  assert (log_ok g1 L) as Hg1 by (destruct Hg; by constructor). apply wp_bind.
  eapply wp_mono; [apply (commit_done (set_log g1 s) pid L); [done | done | by apply bc_inv_set_log | done] |].
  intros _ s2 (Hi2 & Hio2 & Hh2 & Hd2). change (log_start (log (set_log g1 s))) with (log_start (log s)) in *.
  change (log_size (log (set_log g1 s))) with (log_size (log s)) in *. cbn [log set_log] in Hio2.
  pose proof (io_only_log _ _ Hio2) as G2. pose proof (io_only_held _ _ Hio2) as K2. cbn in G2, K2.
  set (g2 := set_lh_n 0 g1) in *. pose proof (bc_env _ _ _ _ Hi2) as He2.
  eapply wp_Ok; [apply (log_section _ _ pid); [done | by rewrite K2] |]. rewrite G2. set (g3 := set_log_committing 0 g2).
  destruct (e_me _ _ He2) as (i & p & Hc2 & _). set (s3 := woken _ _ _).
  assert (bc_inv s3 pid ∅ ∅) as Hi3 by (by apply (bc_inv_woken (Some ChLog) (set_log g3 s2)), bc_inv_set_log).
  split_and!; [| | done | done |].
  - constructor; try done; [|by change (held s3) with (held s2); rewrite K2]. change (log s3) with g3.
    destruct (log_ok_clear _ _ Hg1). by constructor.
  - eapply io_only_trans; [apply (io_only_set_log g3) in Hio2; exact Hio2 |]. by apply (woken_io _ (set_log g3 s2) i).
  - intros bn Hbn. rewrite (view_disk s3 pid) by done. by split; apply Hd2.
Qed.
(** ** Buffers inside a transaction *)

(** What changes: the buffer [i] and the view of block [bn], now [d]. *)
Definition tx_step s pid H L (i : nat) bn (d : list Z) s' : Prop :=
  txn s' pid H L /\ tx_only s s' /\ buf_at s' i bn d /\ (forall j, j <> i -> s'.(bufs) !! j = s.(bufs) !! j) /\
  forall bn', view s' bn' = if decide (bn' = bn) then d else view s bn'.

Lemma txn_io s s' pid H H' L : txn s pid H L -> io_only s s' -> s'.(disk) = s.(disk) -> bc_inv s' pid H' (list_to_set L) -> txn s' pid H' L.
Proof.
  intros [? ? ? ? ? ? ?] Hio Hd Hb. pose proof (io_only_log _ _ Hio) as G. pose proof (io_only_held _ _ Hio) as K.
  constructor; rewrite ?G, ?K, ?Hd; done.
Qed.

Lemma set_decide_view s bn bn' : view s bn' = if decide (bn' = bn) then view s bn else view s bn'.
Proof. case_decide; congruence. Qed.

Lemma tx_bread s pid H L bn : txn s pid H L -> (size H + length L < NBUF)%nat -> not_held s H bn ->
  wp (bread ROOTDEV bn) (fun i s' => i ∉ H /\ tx_step s pid ({[i]} ∪ H) L i bn (view s bn) s') s.
Proof.
  intros Ht Hs Hn. pose proof (tx_log _ _ _ _ Ht) as Hg. eapply wp_mono.
  - apply (bread_run s pid H (list_to_set L) bn); [apply Ht | rewrite size_list_to_set by apply Hg; lia | done].
  - intros i s' (Hi & Hb & Hio & Hd & Hw & Hat & Ho & Hv). split; [done |]. split_and!; [by eapply txn_io | by apply tx_io | done | done |].
    intros bn'. rewrite Hv. apply set_decide_view.
Qed.

Lemma tx_edit s pid H L i bn d (f : list Z -> list Z) : txn s pid H L -> i ∈ H -> buf_at s i bn d -> length (f d) = 1024%nat ->
  wp (upd_buf i (fun x => set_b_data (f x.(b_data)) x)) (fun _ => tx_step s pid H L i bn (f d)) s.
Proof.
  intros Ht Hin Hat Hl. eapply wp_mono; [apply (edit_run s pid H (list_to_set L) i bn d f); [apply Ht | done | done | done] |].
  intros ? s' (Hb & Hio & Hd & Hw & Hat' & Ho & Hv). split_and!; [by eapply txn_io | by apply tx_io | done | done | done].
Qed.

(** A block that may be written. *)
Definition loggable s bn : Prop :=
  0 <= bn < 2 ^ 31 /\ ~ (s.(log).(log_start) <= bn < s.(log).(log_start) + s.(log).(log_size)).

Lemma loggable_tx s s' bn : tx_only s s' -> loggable s bn -> loggable s' bn.
Proof. intros (_ & _ & _ & E1 & E2) [? ?]. split; [done |]. by rewrite E1, E2. Qed.

Lemma buf_view s pid H Pn i bn d : bc_inv s pid H Pn -> buf_at s i bn d -> view s bn = d.
Proof. intros Hi (b & Hb & Hc & <-). by eapply view_cached. Qed.

Lemma tx_log_write s pid H L i bn d : txn s pid H L -> i ∈ H -> buf_at s i bn d -> loggable s bn ->
  Z.of_nat (length L) + 1 < s.(log).(log_size) ->
  wp (log_write i) (fun _ => tx_step s pid H (log_add bn L) i bn d) s.
Proof.
  intros Ht Hin Hat [Hr Ho] Hcap. eapply wp_mono; [by apply (log_write_run s pid H L i bn d) |].
  intros ? s' (Ht' & Hx & Hat' & Ho' & Hv). split_and!; try done. intros bn'. rewrite Hv. pose proof (tx_bc _ _ _ _ Ht) as Hi.
  case_decide; [subst bn' | done]. by eapply buf_view.
Qed.

Lemma tx_brelse s pid H L i bn d : txn s pid H L -> i ∈ H -> buf_at s i bn d -> bn ∈ L \/ d = disk_block s.(disk) bn ->
  wp (brelse i) (fun _ s' => txn s' pid (H ∖ {[i]}) L /\ tx_only s s' /\ (forall j, j <> i -> s'.(bufs) !! j = s.(bufs) !! j) /\
    forall bn', view s' bn' = view s bn') s.
Proof.
  intros Ht Hin Hat Hd. eapply wp_mono; [apply (brelse_run s pid H (list_to_set L) i bn d); [apply Ht | done | done |] |].
  - destruct Hd; [left; by apply elem_of_list_to_set | by right].
  - intros _ s' (Hb & Hio & Hd' & Hw & Ho & Hv). split_and!; [by eapply txn_io | by apply tx_io | done | done].
Qed.

Lemma elem_of_log_add bn L : bn ∈ log_add bn L.
Proof. unfold log_add. case_decide; [done | set_solver +]. Qed.

Lemma log_add_length bn L : (length (log_add bn L) <= length L + 1)%nat.
Proof. unfold log_add. case_decide; rewrite ?length_app; cbn; lia. Qed.

(** A block that is read and not changed can be released. *)
Lemma tx_clean s pid H L bn : txn s pid H L -> not_held s H bn -> bn ∈ L \/ view s bn = disk_block s.(disk) bn.
Proof.
  intros Ht Hn. destruct (decide (bn ∈ L)); [by left |]. right. eapply view_clean; [apply Ht | done | by rewrite elem_of_list_to_set].
Qed.

Lemma union_diff_l (i : nat) H : i ∉ H -> ({[i]} ∪ H) ∖ {[i]} = H.
Proof. intros. apply set_eq. intros x. set_solver. Qed.

(** Read a block, change it, log it, release it. *)
Definition tx_update s pid H L bn (d : list Z) s' : Prop :=
  txn s' pid H (log_add bn L) /\ tx_only s s' /\ (forall j, j ∈ H -> s'.(bufs) !! j = s.(bufs) !! j) /\
  forall bn', view s' bn' = if decide (bn' = bn) then d else view s bn'.

Lemma tx_log_release s0 s pid H L i bn d : i ∉ H ->
  tx_step s0 pid ({[i]} ∪ H) L i bn d s -> loggable s0 bn -> Z.of_nat (length L) + 1 < s0.(log).(log_size) ->
  wp (log_write i;; brelse i) (fun _ => tx_update s0 pid H L bn d) s.
Proof.
  intros Hi (Ht & Hx & Hat & Ho & Hv) Hl Hc. apply wp_bind. eapply wp_mono.
  - apply (tx_log_write s pid ({[i]} ∪ H) L i bn d Ht); [set_solver + | done | by eapply loggable_tx |]. destruct Hx as (_ & _ & _ & _ & ->). done.
  - intros _ s1 (Ht1 & Hx1 & Hat1 & Ho1 & Hv1). eapply wp_mono.
    + eapply (tx_brelse s1 pid _ _ i bn d Ht1); [set_solver + | done | left; apply elem_of_log_add].
    + intros _ s2 (Ht2 & Hx2 & Ho2 & Hv2). rewrite union_diff_l in Ht2 by done. split_and!; [done | eauto using tx_only_trans | |].
      * intros j Hj. assert (j <> i) by (intros ->; done). by rewrite Ho2, Ho1, Ho.
      * intros bn'. rewrite Hv2, Hv1, Hv. by case_decide.
Qed.
End txn.
