(* ===== verification/Pipe.v ===== *)
(** * Pipes (kernel/pipe.c)

    The ring buffer with its free-running 32-bit counters, pipealloc(),
    pipeclose(), pipewrite() and piperead(), what a call of pipewrite() or
    piperead() does up to the point where it returns or gives up the CPU, and the
    proof that a pipe is a bounded FIFO in every interleaving of the turns of their
    loops. *)

From S2P Require Import Prelude State Mem Riscv Kalloc Vm PageTable Uvm Sched.

Definition PIPESIZE : Z := 512.

(** ** The ring buffer *)

(** pi->data[pi->nwrite++ % PIPESIZE] = ch *)
Definition pipe_put (ch : Z) (pi : pipe) : pipe :=
  set_pi_nwrite (u32 (pi.(pi_nwrite) + 1))
    (set_pi_data (<[Z.to_nat (pi.(pi_nwrite) mod PIPESIZE) := ch]> pi.(pi_data)) pi).

(** ch = pi->data[pi->nread++ % PIPESIZE] *)
Definition pipe_byte (pi : pipe) : Z := default 0 (pi.(pi_data) !! Z.to_nat (pi.(pi_nread) mod PIPESIZE)).
Definition pipe_get (pi : pipe) : pipe := set_pi_nread (u32 (pi.(pi_nread) + 1)) pi.

Definition pipe_full (pi : pipe) : bool := pi.(pi_nwrite) =? u32 (pi.(pi_nread) + PIPESIZE).
Definition pipe_empty (pi : pipe) : bool := pi.(pi_nread) =? pi.(pi_nwrite).

(** ** The code *)

Definition get_pipe (a : Z) : M kernel pipe := fun s =>
  match s.(pipes) !! a with Some pi => Ok pi s | None => Panic "pipe" end.
Definition upd_pipe (a : Z) (f : pipe -> pipe) : M kernel unit :=
  modify (fun s => set_pipes (alter f a s.(pipes)) s).

Section pipe.
Context {L : Linker}.

Definition pipeclose (a : Z) (writable : Z) : M kernel unit :=
  acquire (LkPipe a);;
  (if negb (writable =? 0) then
     upd_pipe a (set_pi_writeopen 0);; wakeup (Some (ChNread a))
   else
     upd_pipe a (set_pi_readopen 0);; wakeup (Some (ChNwrite a)));;
  pi ← get_pipe a;
  if (pi.(pi_readopen) =? 0) && (pi.(pi_writeopen) =? 0) then
    release (LkPipe a);;
    modify (fun s => set_pipes (delete a s.(pipes)) s);;
    kfree a
  else release (LkPipe a).

(** How one turn of the loop of pipewrite() ends: on with the byte at [i], to sleep
    because the pipe is full, or out of the loop ([false]: by the early return, with
    the lock already released). *)
Inductive wturn := WNext (i : Z) | WWait | WEnd (r : Z * bool).

(** One turn of while(i < n), up to the sleep() of a full pipe. *)
Definition pipewrite_turn (a pr_pt : Z) (pr : nat) (addr i : Z) : M kernel wturn :=
  pi ← get_pipe a;
  k ← (if pi.(pi_readopen) =? 0 then mret 1 else killed pr);
  if negb (k =? 0) then release (LkPipe a);; mret (WEnd (-1, false)) else
  if pipe_full pi then
    wakeup (Some (ChNread a));;
    mret WWait
  else
    c ← copyin pr_pt (u64 (addr + i)) 1;
    if c.1 =? -1 then mret (WEnd (i, true)) else
    upd_pipe a (pipe_put (default 0 (head c.2)));;
    mret (WNext (i + 1)).

(** while(i < n) ...; a turn that stores a byte or sleeps takes one unit of fuel *)
Fixpoint pipewrite_loop (fuel : nat) (a pr_pt : Z) (pr : nat) (addr n i : Z) : M kernel (Z * bool) :=
  match fuel with
  | O => fun _ => Timeout
  | S fuel' =>
      if negb (i <? n) then mret (i, true) else
      t ← pipewrite_turn a pr_pt pr addr i;
      match t with
      | WNext i' => pipewrite_loop fuel' a pr_pt pr addr n i'
      | WWait => sleep (Some (ChNwrite a)) (LkPipe a);; pipewrite_loop fuel' a pr_pt pr addr n i
      | WEnd r => mret r
      end
  end.

(** After the loop; [false] is the early return with the lock already released. *)
Definition pipewrite_end (a : Z) (r : Z * bool) : M kernel Z :=
  if negb r.2 then mret (-1) else
  wakeup (Some (ChNread a));;
  release (LkPipe a);;
  mret r.1.

Definition pipewrite (fuel : nat) (a addr n : Z) : M kernel Z :=
  pr ← myproc;
  p ← get_proc pr;
  acquire (LkPipe a);;
  r ← pipewrite_loop fuel a p.(p_pagetable) pr addr n 0;
  pipewrite_end a r.

(** while(pi->nread == pi->nwrite && pi->writeopen) ...: [false] when killed *)
Fixpoint piperead_wait (fuel : nat) (a : Z) (pr : nat) : M kernel bool :=
  match fuel with
  | O => fun _ => Timeout
  | S fuel' =>
      pi ← get_pipe a;
      if pipe_empty pi && negb (pi.(pi_writeopen) =? 0) then
        k ← killed pr;
        if negb (k =? 0) then release (LkPipe a);; mret false else
        sleep (Some (ChNread a)) (LkPipe a);;
        piperead_wait fuel' a pr
      else mret true
  end.

(** How one turn of the copying loop of piperead() ends: on with the byte at [i], or
    out of the loop because the pipe is empty or the byte could not be delivered. *)
Inductive rturn := RNext (i : Z) | REmpty | RFault.

(** One turn of for(i = 0; i < n; i++). *)
Definition piperead_turn (a pr_pt addr i : Z) : M kernel rturn :=
  pi ← get_pipe a;
  if pipe_empty pi then mret REmpty else
  upd_pipe a pipe_get;;
  r ← copyout pr_pt (u64 (addr + i)) [pipe_byte pi];
  mret (if r =? -1 then RFault else RNext (i + 1)).

(** for(i = 0; i < n; i++) ...; [m] counts the iterations left *)
Fixpoint piperead_copy (m : nat) (a pr_pt addr i : Z) : M kernel Z :=
  match m with
  | O => mret i
  | S m' =>
      t ← piperead_turn a pr_pt addr i;
      match t with
      | RNext i' => piperead_copy m' a pr_pt addr i'
      | REmpty | RFault => mret i
      end
  end.

(** After the waiting loop; [false] is the early return with the lock already released. *)
Definition piperead_end (a pr_pt addr n : Z) (w : bool) : M kernel Z :=
  if negb w then mret (-1) else
  i ← piperead_copy (Z.to_nat n) a pr_pt addr 0;
  wakeup (Some (ChNwrite a));;
  release (LkPipe a);;
  mret i.

Definition piperead (fuel : nat) (a addr n : Z) : M kernel Z :=
  pr ← myproc;
  p ← get_proc pr;
  acquire (LkPipe a);;
  w ← piperead_wait fuel a pr;
  piperead_end a p.(p_pagetable) addr n w.
End pipe.

(** ** The queue of bytes in a pipe *)

Definition count (pi : pipe) : Z := u32 (pi.(pi_nwrite) - pi.(pi_nread)).

Definition contents (pi : pipe) : list Z :=
  (fun j => default 0 (pi.(pi_data) !! Z.to_nat ((pi.(pi_nread) + Z.of_nat j) mod PIPESIZE))) <$>
    seq 0 (Z.to_nat (count pi)).

Record pipe_ok (pi : pipe) : Prop := {
  ok_data : length pi.(pi_data) = 512%nat;
  ok_nread : 0 <= pi.(pi_nread) < 2 ^ 32;
  ok_nwrite : 0 <= pi.(pi_nwrite) < 2 ^ 32;
  ok_count : count pi <= PIPESIZE;
}.

Lemma contents_length pi : length (contents pi) = Z.to_nat (count pi).
Proof. unfold contents. by rewrite length_fmap, length_seq. Qed.

Lemma count_nonneg pi : 0 <= count pi.
Proof. apply u32_range. Qed.

Lemma pipe_full_spec pi : pipe_ok pi -> pipe_full pi = (count pi =? PIPESIZE).
Proof.
  intros [Hd Hr Hw Hc]. unfold pipe_full, count, u32, PIPESIZE in *. apply eq_true_iff_eq. rewrite !Z.eqb_eq. dlia.
Qed.

Lemma pipe_empty_spec pi : pipe_ok pi -> pipe_empty pi = (count pi =? 0).
Proof.
  intros [Hd Hr Hw Hc]. unfold pipe_empty, count, u32 in *. apply eq_true_iff_eq. rewrite !Z.eqb_eq. dlia.
Qed.

Lemma mod_wrap x : (u32 x) mod PIPESIZE = x mod PIPESIZE.
Proof. unfold u32, PIPESIZE. dlia. Qed.

(** Appending a byte. *)
Lemma pipe_put_spec ch pi :
  pipe_ok pi -> pipe_full pi = false ->
  pipe_ok (pipe_put ch pi) /\ contents (pipe_put ch pi) = contents pi ++ [ch].
Proof.
  intros Hok Hf. rewrite pipe_full_spec in Hf by done. apply Z.eqb_neq in Hf.
  pose proof Hok as [Hd Hr Hw Hc]. pose proof (count_nonneg pi) as H0.
  assert (count (pipe_put ch pi) = count pi + 1) as Ec.
  { unfold count, pipe_put, u32, PIPESIZE in *. simpl. dlia. }
  split.
  - constructor; simpl; [by rewrite length_insert | done | apply u32_range | unfold PIPESIZE in *; lia].
  - unfold contents at 1. rewrite Ec. replace (Z.to_nat (count pi + 1)) with (Z.to_nat (count pi) + 1)%nat by lia.
    rewrite seq_app, fmap_app. f_equal.
    + unfold contents. apply list_fmap_ext. intros j x [-> Hj]%lookup_seq. simpl.
      rewrite list_lookup_insert_ne; [done |]. unfold count, u32, PIPESIZE in *. dlia.
    + simpl. f_equal. rewrite Z2Nat.id by done.
      replace ((pi_nread pi + count pi) mod PIPESIZE) with (pi_nwrite pi mod PIPESIZE)
        by (unfold count, u32, PIPESIZE; dlia).
      rewrite list_lookup_insert_eq; [done |]. rewrite Hd. unfold PIPESIZE. dlia.
Qed.

(** Taking the first byte. *)
Lemma pipe_get_spec pi :
  pipe_ok pi -> pipe_empty pi = false ->
  pipe_ok (pipe_get pi) /\ contents pi = pipe_byte pi :: contents (pipe_get pi).
Proof.
  intros Hok Hf. rewrite pipe_empty_spec in Hf by done. apply Z.eqb_neq in Hf.
  pose proof Hok as [Hd Hr Hw Hc]. pose proof (count_nonneg pi) as H0.
  assert (count (pipe_get pi) = count pi - 1) as Ec.
  { unfold count, pipe_get, u32, PIPESIZE in *. simpl. dlia. }
  split.
  - constructor; simpl; [done | apply u32_range | done | unfold PIPESIZE in *; lia].
  - unfold contents. rewrite Ec. replace (Z.to_nat (count pi)) with (S (Z.to_nat (count pi - 1))) by lia.
    simpl. rewrite Z.add_0_r. f_equal. rewrite <- fmap_S_seq, <- list_fmap_compose.
    apply list_fmap_ext. intros j x _. unfold compose. simpl.
    do 3 f_equal. unfold u32, PIPESIZE. dlia.
Qed.

(** ** pipewrite() and piperead() *)

Section pipe_proofs.
Context {L : Linker}.
Implicit Types (N : gmap (list Z) Z) (D : gmap Z Z) (s : kernel) (l : list Z) (pi : pipe).

(** copyin() of a single byte. *)
Lemma copyin_byte s root N D l va :
  as_inv s root N D l -> 0 <= va ->
  (exists b, ureadable s.(mem) N va /\ ubyte s.(mem) D va = Some b /\ copyin root va 1 s = Ok (0, [b]) s) \/
  (~ ureadable s.(mem) N va /\ copyin root va 1 s = Ok (-1, []) s).
Proof.
  intros Hi Hva. unfold copyin.
  destruct (copyin_loop_spec s root N D l (S (S (Z.to_nat 1))) va 1) as (r & bs & E & Hb & Hrd & Hr); [done | done | lia |].
  destruct Hr as [[-> Hl]|(-> & Hl & Hn)].
  - left. destruct bs as [|b [|]]; simpl in Hl; try lia. exists b.
    specialize (Hb 0%nat ltac:(simpl; lia)). specialize (Hrd 0%nat ltac:(simpl; lia)).
    simpl in Hb, Hrd. by rewrite Z.add_0_r in Hb, Hrd.
  - right. destruct bs; simpl in Hl; [|lia]. simpl in Hn. rewrite Z.add_0_r in Hn. done.
Qed.

(** What pipewrite() and piperead() rely on once the pipe lock is held: a caller
    [pr] with its address space, and no other lock. *)
Record pipe_caller s (a : Z) (pr : nat) (p : proc) root N D l : Prop := {
  c_as : as_inv s root N D l;
  c_held : s.(held) = {[LkPipe a]};
  c_cur : s.(cur) = Some pr;
  c_procs : procs_ok s;
  c_proc : s.(procs) !! pr = Some p;
}.

(** A caller that has not been killed, and the pipe. *)
Record pipe_env s (a : Z) (pr : nat) root N D l pi : Prop := {
  e_caller : exists p, pipe_caller s a pr p root N D l /\ p.(p_killed) = 0;
  e_pipe : s.(pipes) !! a = Some pi;
  e_ok : pipe_ok pi;
}.

Definition set_pipe (a : Z) (pi : pipe) s : kernel := set_pipes (<[a := pi]> s.(pipes)) s.

Lemma upd_pipe_set a f s pi :
  s.(pipes) !! a = Some pi -> upd_pipe a f s = Ok tt (set_pipe a (f pi) s).
Proof.
  intros Hpi. unfold upd_pipe, modify, set_pipe. do 2 f_equal. apply map_eq. intros x.
  rewrite lookup_alter, lookup_insert. case_decide as Ex; [|done]. subst. by rewrite Hpi.
Qed.

(** The address space does not depend on the pipe objects. *)
Lemma as_inv_pipes s x root N D l : as_inv s root N D l -> as_inv (set_pipes x s) root N D l.
Proof. intros [[Hw Hkm Hlk Hsep] Hva Hent Hus Hin HsN Hsl]. constructor; [by constructor | done..]. Qed.

Lemma env_set s a pr root N D l pi pi' :
  pipe_env s a pr root N D l pi -> pipe_ok pi' -> pipe_env (set_pipe a pi' s) a pr root N D l pi'.
Proof.
  intros [(p & [He Hh Hc Hp Hk] & H0) Hpi Hok] Hok'. constructor; [|apply lookup_insert_eq | done].
  exists p. split; [|done]. constructor; try done. exact (as_inv_pipes _ _ _ _ _ _ He).
Qed.

(** One turn of the loop of pipewrite(): it gives up when the read side is closed or
    the caller has been killed, wakes the readers of a full pipe, stops at a byte
    that is not readable, and otherwise stores the user's byte. *)
Lemma pipewrite_turn_run s a pr p root N D l addr i pi :
  pipe_caller s a pr p root N D l -> s.(pipes) !! a = Some pi ->
  if bool_decide (pi.(pi_readopen) = 0 \/ p.(p_killed) <> 0) then
    pipewrite_turn a root pr addr i s = Ok (WEnd (-1, false)) (set_held ∅ s)
  else if pipe_full pi then
    pipewrite_turn a root pr addr i s = Ok WWait (woken (Some pr) (Some (ChNread a)) s)
  else
    (exists b, ureadable s.(mem) N (u64 (addr + i)) /\ ubyte s.(mem) D (u64 (addr + i)) = Some b /\
      pipewrite_turn a root pr addr i s = Ok (WNext (i + 1)) (set_pipe a (pipe_put b pi) s)) \/
    (~ ureadable s.(mem) N (u64 (addr + i)) /\ pipewrite_turn a root pr addr i s = Ok (WEnd (i, true)) s).
Proof.
  intros [He Hh Hc Hp Hk] Hpi. unfold pipewrite_turn.
  rewrite (bind_Ok (get_pipe a) _ s pi s) by (unfold get_pipe; by rewrite Hpi).
  assert ((if pi.(pi_readopen) =? 0 then mret 1 else killed pr) s =
    Ok (if pi.(pi_readopen) =? 0 then 1 else p.(p_killed)) s) as Ek.
  { destruct (_ =? 0); [done |]. apply killed_Ok; [done |]. rewrite Hh. set_solver +. }
  erewrite bind_Ok by exact Ek. clear Ek.
  case_bool_decide as Hstop.
  { assert (negb ((if pi.(pi_readopen) =? 0 then 1 else p.(p_killed)) =? 0) = true) as ->.
    { destruct (Z.eqb_spec pi.(pi_readopen) 0) as [|Hro]; [done |]. destruct Hstop as [|Hz]; [done |].
      by apply negb_true_iff, Z.eqb_neq. }
    erewrite bind_Ok by (apply release_Ok; rewrite Hh; set_solver +). unfold mret, M_ret. do 2 f_equal. rewrite Hh. set_solver +. }
  assert (pi.(pi_readopen) <> 0 /\ p.(p_killed) = 0) as [Hro Hz] by (split; [|apply Z.eq_dne]; tauto).
  rewrite (proj2 (Z.eqb_neq _ _) Hro), Hz. cbn [negb Z.eqb]. cbn iota.
  destruct (pipe_full pi).
  { erewrite bind_Ok; [done |]. rewrite <- Hc. apply wakeup_run; [done |]. rewrite Hh. intros. set_solver +. }
  pose proof (u64_range (addr + i)) as Hu.
  destruct (copyin_byte s root N D l (u64 (addr + i))) as [(b & Hr & Hb & E)|[Hr E]]; [done | lia | left | right].
  - exists b. split_and!; [done | done |]. erewrite bind_Ok by exact E. cbn [fst snd Z.eqb head default].
    erewrite bind_Ok by (by apply upd_pipe_set). done.
  - split; [done |]. by erewrite bind_Ok by exact E.
Qed.

(** The user's bytes at the (wrapping) addresses addr + i. *)
Definition user_stream s D (addr i : Z) (bs : list Z) : Prop :=
  forall j b, bs !! j = Some b -> ubyte s.(mem) D (u64 (addr + i + Z.of_nat j)) = Some b.

(** Where a run of the loop of pipewrite() stops, having appended [bs] to the queue:
    done or faulted, or at the sleep() of a full pipe. *)
Lemma pipewrite_loop_spec root N D l a pr addr n m : forall fuel i s pi,
  pipe_env s a pr root N D l pi -> pi.(pi_readopen) <> 0 -> 0 <= i -> Z.of_nat m = n - i -> (m < fuel)%nat ->
  exists bs pi', let i' := i + Z.of_nat (length bs) in let s' := set_pipe a pi' s in
    user_stream s D addr i bs /\ i' <= n /\
    pipe_ok pi' /\ contents pi' = contents pi ++ bs /\
    pi'.(pi_readopen) = pi.(pi_readopen) /\ pi'.(pi_writeopen) = pi.(pi_writeopen) /\
    ((pipewrite_loop fuel a root pr addr n i s = Ok (i', true) s' /\
      (i' = n \/ (pipe_full pi' = false /\ ~ ureadable s.(mem) N (u64 (addr + i'))))) \/
     (i' < n /\ pipe_full pi' = true /\ exists fuel',
      pipewrite_loop fuel a root pr addr n i s =
        (sleep (Some (ChNwrite a)) (LkPipe a);; pipewrite_loop fuel' a root pr addr n i')
          (woken (Some pr) (Some (ChNread a)) s'))).
Proof.
  induction m as [|m IH]; intros fuel i s pi He Hro Hi Hm Hf;
    (destruct fuel as [|fuel]; [lia |]); cbn [pipewrite_loop].
  all: assert (set_pipe a pi s = s) as Eid by (unfold set_pipe; rewrite insert_id by apply He; by destruct s).
  { destruct (Z.ltb_spec i n); [lia |]. exists [], pi. cbn zeta. rewrite app_nil_r, Eid. simpl length. rewrite Z.add_0_r.
    split_and!; try done; [lia | apply He |]. left. split; [done | left; lia]. }
  destruct (Z.ltb_spec i n); [|lia]. cbn [negb]. cbn iota.
  destruct (e_caller _ _ _ _ _ _ _ _ He) as (p & Hp & Hk).
  pose proof (pipewrite_turn_run s a pr p root N D l addr i pi Hp (e_pipe _ _ _ _ _ _ _ _ He)) as Hturn.
  rewrite bool_decide_eq_false_2 in Hturn by tauto.
  destruct (pipe_full pi) eqn:Hfull.
  { exists [], pi. cbn zeta. rewrite app_nil_r, Eid. simpl length. rewrite Z.add_0_r.
    split_and!; try done; [lia | apply He |]. right. split_and!; [lia | done |]. exists fuel. by erewrite bind_Ok by exact Hturn. }
  destruct Hturn as [(b & Hr & Hb & E)|[Hr E]].
  2: { erewrite bind_Ok by exact E. exists [], pi. cbn zeta. rewrite app_nil_r, Eid. simpl length. rewrite Z.add_0_r.
       split_and!; try done; [lia | apply He |]. left. split; [done | by right]. }
  erewrite bind_Ok by exact E. destruct (pipe_put_spec b pi) as [Hok1 Hc1]; [apply He | done |].
  destruct (IH fuel (i + 1) (set_pipe a (pipe_put b pi) s) (pipe_put b pi)) as (bs & pi' & HIH); try done; try lia.
  { by eapply env_set. }
  cbn zeta in HIH. destruct HIH as (Hus & Hle & Hok' & Hct & Hro' & Hwo' & Hres).
  replace (set_pipe a pi' (set_pipe a (pipe_put b pi) s)) with (set_pipe a pi' s) in Hres
    by (unfold set_pipe; simpl; by rewrite insert_insert_eq).
  exists (b :: bs), pi'. cbn zeta. simpl length.
  replace (i + Z.of_nat (S (length bs))) with (i + 1 + Z.of_nat (length bs)) by lia.
  split_and!; try done; try lia.
  - intros [|j] x Hx; simpl in Hx.
    + injection Hx as <-. rewrite <- Hb. do 2 f_equal. lia.
    + rewrite <- (Hus j x Hx). simpl. do 2 f_equal. lia.
  - rewrite Hct, Hc1. by rewrite <- app_assoc.
Qed.

Lemma as_inv_held s x root N D l : as_inv s root N D l -> LkKmem ∉ x -> as_inv (set_held x s) root N D l.
Proof. intros [[Hw Hkm Hlk Hsep] Hva Hent Hus Hin HsN Hsl] Hx. constructor; [by constructor | done..]. Qed.

(** A call of pipewrite() by a live process on a pipe whose read side is
    open.  Up to the point where it returns or first gives up the CPU it appends
    exactly the first [k] bytes of the user's buffer to the queue.  It returns
    [k], having woken the readers, when all [n] bytes are in or byte [k] of the
    buffer is not readable; otherwise the queue is full, and it sleeps on the
    write channel with the pipe lock released and the readers woken, to go on with
    byte [k] when it is resumed.  It does not change anything else. *)
Theorem pipewrite_spec fuel a addr n s pr p N D l pi :
  as_inv s p.(p_pagetable) N D l -> s.(held) = ∅ -> s.(cur) = Some pr -> procs_ok s ->
  s.(procs) !! pr = Some p -> p.(p_killed) = 0 ->
  s.(pipes) !! a = Some pi -> pipe_ok pi -> pi.(pi_readopen) <> 0 -> 0 <= n < Z.of_nat fuel ->
  exists bs pi', let k := Z.of_nat (length bs) in
    user_stream s D addr 0 bs /\ k <= n /\
    pipe_ok pi' /\ contents pi' = contents pi ++ bs /\
    pi'.(pi_readopen) = pi.(pi_readopen) /\ pi'.(pi_writeopen) = pi.(pi_writeopen) /\
    let s1 := woken (Some pr) (Some (ChNread a)) (set_pipe a pi' s) in
    ((pipewrite fuel a addr n s = Ok k s1 /\ (k = n \/ ~ ureadable s.(mem) N (u64 (addr + k)))) \/
     (k < n /\ length (contents pi') = 512%nat /\ exists kont fuel',
      pipewrite fuel a addr n s = Sleep (sleeping pr (Some (ChNwrite a)) s1) kont /\
      forall s2, s2.(held) = {[LkProc pr]} ->
        kont s2 = (r ← pipewrite_loop fuel' a p.(p_pagetable) pr addr n k; pipewrite_end a r)
                    (set_held {[LkPipe a]} (set_procs (alter (set_p_chan None) pr s2.(procs)) s2)))).
Proof.
  intros Hi Hh Hc Hlen Hp Hk Hpi Hok Hro Hn. unfold pipewrite.
  set (s0 := set_held {[LkPipe a]} s).
  assert (pipe_env s0 a pr p.(p_pagetable) N D l pi) as He.
  { constructor; [exists p; split; [constructor | done] | done..]; try done. apply as_inv_held; [done | set_solver +]. }
  assert (acquire (LkPipe a) s = Ok tt s0) as Eacq.
  { rewrite acquire_Ok by (rewrite Hh; set_solver +). by rewrite Hh, union_empty_r_L. }
  destruct (pipewrite_loop_spec _ N D l a pr addr n (Z.to_nat n) fuel 0 s0 pi He) as (bs & pi' & H); [done | lia.. |].
  cbn zeta in H. rewrite Z.add_0_l in H. destruct H as (Hus & Hle & Hok' & Hct & Hro' & Hwo' & Hres).
  exists bs, pi'. split_and!; try done.
  assert (wakeup (Some (ChNread a)) (set_pipe a pi' s0) =
    Ok tt (woken (Some pr) (Some (ChNread a)) (set_pipe a pi' s0))) as Hwk.
  { rewrite wakeup_run; [by rewrite <- Hc | done |]. intros. set_solver +. }
  rewrite (bind_Ok _ _ s pr s) by (by apply myproc_Ok). rewrite (bind_Ok _ _ s p s) by (by apply get_proc_Ok).
  erewrite bind_Ok by exact Eacq.
  destruct Hres as [[E Hend]|(Hlt & Hfull & fuel' & E)]; [left | right].
  - split; [|tauto]. erewrite bind_Ok by exact E. unfold pipewrite_end. cbn [fst snd negb]. cbn iota.
    erewrite bind_Ok by exact Hwk. erewrite bind_Ok by (apply release_Ok; set_solver +).
    unfold mret, M_ret. f_equal. unfold woken, set_pipe, set_held, set_procs, set_pipes. simpl. f_equal.
    rewrite Hh. set_solver +.
  - assert (length (contents pi') = 512%nat) as Hl.
    { rewrite contents_length. rewrite pipe_full_spec in Hfull by done. apply Z.eqb_eq in Hfull. by rewrite Hfull. }
    split_and!; [done | done |]. set (s1 := woken _ _ (set_pipe a pi' s0)) in *.
    destruct (sleep_only pr (Some (ChNwrite a)) (LkPipe a) s1) as (kont & Es & Hkont); try done.
    { exists p. by apply woken_me. }
    eexists _, fuel'. split.
    + erewrite bind_Sleep; [done |]. rewrite E. erewrite bind_Sleep by exact Es. done.
    + intros s2 H2. cbv beta. rewrite Hkont by done. simpl. done.
Qed.

(** copyout() of a single byte. *)
Lemma copyout_byte s root N D l va b :
  as_inv s root N D l -> 0 <= va ->
  exists r s', copyout root va [b] s = Ok r s' /\
    ((r = 0 /\ user_write s s' root N D l va [b]) \/
     (r = -1 /\ user_write s s' root N D l va [] /\ ~ uwritable s.(mem) N va)).
Proof.
  intros Hi Hva. unfold copyout.
  destruct (copyout_loop_spec root N D l (S (S (length [b]))) [b] va s) as (r & s' & k & E & Hu & Hr); [done | done | simpl; lia |].
  exists r, s'. split; [done |]. destruct Hr as [[-> ->]|(-> & Hk & Hn)]; [by left | right].
  simpl in Hk. assert (k = 0%nat) as -> by lia. by rewrite Z.add_0_r in Hn.
Qed.

(** Writing to the user's memory and updating the pipe object are independent. *)
Lemma user_write_pipes s s' root N D l va bs x :
  user_write s s' root N D l va bs -> user_write (set_pipes x s) (set_pipes x s') root N D l va bs.
Proof.
  intros [I O P B F W]. constructor; try done; [by apply as_inv_pipes |]. rewrite O. by kstate.
Qed.

Lemma pipes_unset s s' x root N D l va bs :
  user_write (set_pipes x s) s' root N D l va bs ->
  s' = set_pipes x (set_mem s'.(mem) s) /\ user_write s (set_mem s'.(mem) s) root N D l va bs.
Proof.
  intros [I O P B F W]. assert (s' = set_pipes x (set_mem s'.(mem) s)) as E by (rewrite O at 1; by kstate).
  split; [done |]. constructor; try done.
  assert (set_mem s'.(mem) s = set_pipes s.(pipes) s') as -> by (rewrite E; by kstate). by apply as_inv_pipes.
Qed.

(** One turn of the copying loop of piperead(): it stops at an empty pipe, and
    otherwise takes the first byte and delivers it to the user or loses it. *)
Lemma piperead_turn_run s a root N D l addr i pi :
  as_inv s root N D l -> s.(pipes) !! a = Some pi ->
  if pipe_empty pi then piperead_turn a root addr i s = Ok REmpty s else
  exists s1, let s' := set_pipe a (pipe_get pi) s1 in
    (piperead_turn a root addr i s = Ok (RNext (i + 1)) s' /\
     user_write s s1 root N D l (u64 (addr + i)) [pipe_byte pi]) \/
    (piperead_turn a root addr i s = Ok RFault s' /\
     user_write s s1 root N D l (u64 (addr + i)) [] /\ ~ uwritable s.(mem) N (u64 (addr + i))).
Proof.
  intros Hi Hpi. unfold piperead_turn.
  rewrite (bind_Ok (get_pipe a) _ s pi s) by (unfold get_pipe; by rewrite Hpi).
  destruct (pipe_empty pi); [done |]. erewrite bind_Ok by (by apply upd_pipe_set).
  pose proof (u64_range (addr + i)) as Hu.
  destruct (copyout_byte (set_pipe a (pipe_get pi) s) root N D l (u64 (addr + i)) (pipe_byte pi)) as (r & s2 & E & Hr);
    [by apply as_inv_pipes | lia |].
  erewrite bind_Ok by exact E.
  destruct Hr as [[-> Hw]|(-> & Hw & Hnw)]; apply pipes_unset in Hw as [Es2 Hw]; exists (set_mem s2.(mem) s); [left | right].
  - split; [|done]. cbn [Z.eqb]. unfold mret, M_ret. by rewrite Es2 at 1.
  - split_and!; [|done | done]. cbn [Z.eqb]. unfold mret, M_ret. by rewrite Es2 at 1.
Qed.

(** The copy loop of piperead(): the bytes delivered to the user, and the byte that
    was taken from the queue but could not be delivered, if any. *)
Lemma piperead_copy_spec root N D l a addr : forall m i s pi,
  as_inv s root N D l -> s.(pipes) !! a = Some pi -> pipe_ok pi -> 0 <= addr -> 0 <= i ->
  addr + i + Z.of_nat m <= 2 ^ 64 ->
  exists bs lost pi' s1, let i' := i + Z.of_nat (length bs) in
    piperead_copy m a root addr i s = Ok i' (set_pipe a pi' s1) /\
    user_write s s1 root N D l (addr + i) bs /\ pipe_ok pi' /\ contents pi = bs ++ lost ++ contents pi' /\
    pi'.(pi_readopen) = pi.(pi_readopen) /\ pi'.(pi_writeopen) = pi.(pi_writeopen) /\ i' <= i + Z.of_nat m /\
    ((lost = [] /\ (i' = i + Z.of_nat m \/ contents pi' = [])) \/
     (length lost = 1%nat /\ i' < i + Z.of_nat m /\ ~ uwritable s.(mem) N (addr + i'))).
Proof.
  induction m as [|m IH]; intros i s pi Hi Hpi Hok Ha Hi0 Hw; cbn [piperead_copy];
    assert (set_pipe a pi s = s) as Eid by (unfold set_pipe; rewrite insert_id by done; by destruct s).
  { exists [], [], pi, s. cbn zeta. simpl length. rewrite Z.add_0_r, Eid. split_and!; try done; try lia; [by apply user_write_nil |].
    left. split; [done | lia]. }
  pose proof (piperead_turn_run s a root N D l addr i pi Hi Hpi) as Hturn.
  destruct (pipe_empty pi) eqn:Hem.
  { erewrite bind_Ok by exact Hturn. exists [], [], pi, s. cbn zeta. simpl length. rewrite Z.add_0_r, Eid.
    split_and!; try done; try lia; [by apply user_write_nil |]. left. split; [done | right].
    rewrite pipe_empty_spec in Hem by done. apply Z.eqb_eq in Hem. unfold contents. by rewrite Hem. }
  destruct (pipe_get_spec pi Hok Hem) as [Hok1 Hc1]. rewrite u64_small in Hturn by lia.
  destruct Hturn as (s1 & [[E Hu]|(E & Hu & Hnw)]); erewrite bind_Ok by exact E.
  2: { exists [], [pipe_byte pi], (pipe_get pi), s1. cbn zeta. simpl length. rewrite Z.add_0_r.
    split_and!; try done; try lia. right. split_and!; [done | lia | done]. }
  destruct (IH (i + 1) (set_pipe a (pipe_get pi) s1) (pipe_get pi)) as (bs & lost & pi' & s3 & HIH); try done; try lia.
  { apply as_inv_pipes, Hu. }
  { apply lookup_insert_eq. }
  cbn zeta in HIH. destruct HIH as (E3 & Hu3 & Hok3 & Hc3 & Hro3 & Hwo3 & Hle3 & Hend3).
  apply pipes_unset in Hu3 as [Es3 Hu3].
  exists (pipe_byte pi :: bs), lost, pi', (set_mem s3.(mem) s1). cbn zeta. simpl length.
  replace (i + Z.of_nat (S (length bs))) with (i + 1 + Z.of_nat (length bs)) by lia.
  split_and!; try done; try lia.
  - rewrite E3, Es3. f_equal. unfold set_pipe. simpl. by rewrite insert_insert_eq.
  - apply (user_write_app s s1 _ root N D l (addr + i) [pipe_byte pi] bs); [done |]. simpl.
    by replace (addr + i + Z.of_nat 1) with (addr + (i + 1)) by lia.
  - rewrite Hc1, Hc3. done.
  - replace (i + Z.of_nat (S m)) with (i + 1 + Z.of_nat m) by lia.
    destruct Hend3 as [?|(? & ? & Hn)]; [by left | right]. split_and!; [done | done |].
    intros [Hx1 Hx2]. apply Hn. split; [done |]. by rewrite <- (uw_pte _ _ _ _ _ _ _ _ Hu) in Hx2.
Qed.

(** C26. A call of piperead() by a live process.  On an empty pipe whose write side
    is open it sleeps on the read channel with the pipe lock released, and starts
    over when resumed.  Otherwise it takes a prefix [bs] of the queue, stores it
    at [addr], wakes the writers and returns its length: all of [n], or all
    there was in the queue (0, end of file, if it was empty), or fewer because the
    next byte of the user's buffer is not writable, in which case one more byte
    has left the queue. *)
Theorem piperead_spec fuel a addr n s pr p N D l pi :
  as_inv s p.(p_pagetable) N D l -> s.(held) = ∅ -> s.(cur) = Some pr -> procs_ok s ->
  s.(procs) !! pr = Some p -> p.(p_killed) = 0 ->
  s.(pipes) !! a = Some pi -> pipe_ok pi -> 0 <= addr -> 0 <= n -> addr + n <= 2 ^ 64 ->
  if (bool_decide (contents pi = []) && negb (pi.(pi_writeopen) =? 0)) then
    exists kont, piperead (S fuel) a addr n s = Sleep (sleeping pr (Some (ChNread a)) s) kont /\
      forall s2, s2.(held) = {[LkProc pr]} ->
        kont s2 = (w ← piperead_wait fuel a pr; piperead_end a p.(p_pagetable) addr n w)
                    (set_held {[LkPipe a]} (set_procs (alter (set_p_chan None) pr s2.(procs)) s2))
  else
    exists bs lost pi' s1, let k := Z.of_nat (length bs) in
      piperead (S fuel) a addr n s = Ok k (woken (Some pr) (Some (ChNwrite a)) (set_pipe a pi' s1)) /\
      user_write s s1 p.(p_pagetable) N D l addr bs /\ pipe_ok pi' /\ contents pi = bs ++ lost ++ contents pi' /\
      pi'.(pi_readopen) = pi.(pi_readopen) /\ pi'.(pi_writeopen) = pi.(pi_writeopen) /\
      ((lost = [] /\ (k = n \/ contents pi' = [])) \/
       (length lost = 1%nat /\ k < n /\ ~ uwritable s.(mem) N (addr + k))).
Proof.
  intros Hi Hh Hc Hlen Hp Hk Hpi Hok Ha Hn Hw. unfold piperead.
  set (s0 := set_held {[LkPipe a]} s).
  assert (pipe_env s0 a pr p.(p_pagetable) N D l pi) as He.
  { constructor; [exists p; split; [constructor | done] | done..]; try done. apply as_inv_held; [done | set_solver +]. }
  assert (acquire (LkPipe a) s = Ok tt s0) as Eacq.
  { rewrite acquire_Ok by (rewrite Hh; set_solver +). by rewrite Hh, union_empty_r_L. }
  rewrite (bind_Ok _ _ s pr s) by (by apply myproc_Ok). rewrite (bind_Ok _ _ s p s) by (by apply get_proc_Ok).
  erewrite bind_Ok by exact Eacq. cbn [piperead_wait].
  assert (get_pipe a s0 = Ok pi s0) as Eg by (unfold get_pipe; simpl; by rewrite Hpi).
  assert (pipe_empty pi = bool_decide (contents pi = [])) as Eem.
  { apply eq_true_iff_eq. rewrite bool_decide_eq_true, pipe_empty_spec, Z.eqb_eq by done.
    rewrite <- length_zero_iff_nil, contents_length. pose proof (count_nonneg pi). lia. }
  rewrite <- Eem. destruct (pipe_empty pi && negb (pi.(pi_writeopen) =? 0)) eqn:Ew.
  - destruct (sleep_only pr (Some (ChNread a)) (LkPipe a) s0) as (kont & Es & Hkont); try done.
    eexists. split.
    + erewrite bind_Sleep; [done |]. erewrite bind_Ok by exact Eg. rewrite Ew.
      erewrite (bind_Ok (killed pr)) by (apply (killed_Ok pr s0 p); [done | set_solver +]). rewrite Hk. cbn [negb Z.eqb]. cbn iota. erewrite bind_Sleep by exact Es. done.
    + intros s2 H2. cbv beta. rewrite Hkont by done. simpl. done.
  - rewrite (bind_Ok _ _ s0 true s0); [|erewrite bind_Ok by exact Eg; by rewrite Ew].
    unfold piperead_end. cbn [negb]. cbn iota.
    destruct (piperead_copy_spec p.(p_pagetable) N D l a addr (Z.to_nat n) 0 s0 pi) as (bs & lost & pi' & s1 & H);
      try done; try lia; [apply as_inv_held; [done | set_solver +] |].
    cbn zeta in H. rewrite Z.add_0_l, Z2Nat.id, Z.add_0_r in H by lia.
    destruct H as (E & Hu & Hok' & Hct & Hro' & Hwo' & Hle & Hend).
    exists bs, lost, pi', (set_held ∅ s1). cbn zeta.
    pose proof (uw_only _ _ _ _ _ _ _ _ Hu) as Eo.
    split_and!; try done.
    + erewrite bind_Ok by exact E.
      erewrite bind_Ok; [|apply wakeup_run; [rewrite Eo; done | rewrite Eo; intros; set_solver +]].
      erewrite bind_Ok by (apply release_Ok; rewrite Eo; set_solver +).
      unfold mret, M_ret. f_equal. rewrite Eo. simpl. rewrite Hc.
      unfold woken, set_pipe, set_held, set_procs, set_pipes. simpl. f_equal. set_solver +.
    + destruct Hu as [I O P B F W]. constructor; try done.
      * apply as_inv_held; [done | set_solver +].
      * trans (set_held s.(held) (set_mem s1.(mem) s0)); [by rewrite Hh, <- Eo | by destruct s].
Qed.

(** ** The history of a pipe

    What becomes of a byte that leaves the pipe: it is delivered to the user buffer,
    where the user then finds it, or dropped because the buffer is not writable. *)
Inductive fate := Delivered (b : option Z) | Dropped.

(** A history of the pipe at [a], with what its writers put into it and what its
    readers took out of it, turn by turn of the loops of pipewrite() and piperead(),
    by any number of processes in any order.  What counts as put is the byte that the
    writer has at addr+i when the code goes on with the next byte; what counts as
    delivered is the byte that the reader has at addr+i after that turn of the code.
    Between two turns, other code may change anything but the ring. *)
Inductive turn (a : Z) : kernel * list Z * list fate -> kernel * list Z * list fate -> Prop :=
| turn_write s pr p root N D l addr i t s' wr rd :
    pipe_caller s a pr p root N D l -> pipewrite_turn a root pr addr i s = Ok t s' ->
    turn a (s, wr, rd)
      (s', wr ++ match t with WNext _ => option_list (ubyte s.(mem) D (u64 (addr + i))) | _ => [] end, rd)
| turn_read s pr p root N D l addr i t s' wr rd :
    pipe_caller s a pr p root N D l -> piperead_turn a root addr i s = Ok t s' ->
    turn a (s, wr, rd)
      (s', wr, rd ++ match t with
                     | RNext _ => [Delivered (ubyte s'.(mem) D (u64 (addr + i)))]
                     | RFault => [Dropped]
                     | REmpty => []
                     end)
| turn_other s s' wr rd :
    (forall pi, s.(pipes) !! a = Some pi -> exists pi', s'.(pipes) !! a = Some pi' /\
       pi'.(pi_data) = pi.(pi_data) /\ pi'.(pi_nread) = pi.(pi_nread) /\ pi'.(pi_nwrite) = pi.(pi_nwrite)) ->
    turn a (s, wr, rd) (s', wr, rd).

Definition of_byte (f : fate) (b : Z) : Prop := f = Delivered (Some b) \/ f = Dropped.

(** The queue after a history: what was put is what was taken, then what is there. *)
Record fifo (a : Z) (x : kernel * list Z * list fate) : Prop := {
  ff_bytes : Forall (fun b => u8 b = b) x.1.2;
  ff_queue : exists pi got, x.1.1.(pipes) !! a = Some pi /\ pipe_ok pi /\
    x.1.2 = got ++ contents pi /\ Forall2 of_byte x.2 got;
}.

Lemma ubyte_u8 m D va b : ubyte m D va = Some b -> u8 b = b.
Proof. unfold ubyte. intros (pa & _ & ->)%fmap_Some_1. apply u8_idemp. Qed.

Lemma fifo_write a s pr p root N D l addr i t s' wr rd :
  pipe_caller s a pr p root N D l -> pipewrite_turn a root pr addr i s = Ok t s' -> fifo a (s, wr, rd) ->
  fifo a (s', wr ++ match t with WNext _ => option_list (ubyte s.(mem) D (u64 (addr + i))) | _ => [] end, rd).
Proof.
  intros Hc E [Hb (pi & got & Hpi & Hok & Ew & Hf)]. simpl in *.
  pose proof (pipewrite_turn_run s a pr p root N D l addr i pi Hc Hpi) as H. rewrite E in H.
  case_bool_decide; [|destruct (pipe_full pi) eqn:Hfull; [|destruct H as [(b & _ & Eb & H)|[_ H]]]]; simplify_eq.
  3: { rewrite Eb. destruct (pipe_put_spec b pi Hok Hfull) as [Hok' Hct]. constructor; simpl.
       - apply Forall_app; split; [done |]. constructor; [by eapply ubyte_u8 | done].
       - exists (pipe_put b pi), got. split_and!; [apply lookup_insert_eq | done | by rewrite Hct, app_assoc | done]. }
  all: rewrite app_nil_r; constructor; [done | by exists pi, got].
Qed.

Lemma fifo_read a s pr p root N D l addr i t s' wr rd :
  pipe_caller s a pr p root N D l -> piperead_turn a root addr i s = Ok t s' -> fifo a (s, wr, rd) ->
  fifo a (s', wr, rd ++ match t with
                        | RNext _ => [Delivered (ubyte s'.(mem) D (u64 (addr + i)))]
                        | RFault => [Dropped]
                        | REmpty => []
                        end).
Proof.
  intros [Hi _ _ _ _] E [Hb (pi & got & Hpi & Hok & Ew & Hf)]. simpl in *.
  pose proof (piperead_turn_run s a root N D l addr i pi Hi Hpi) as H. rewrite E in H.
  destruct (pipe_empty pi) eqn:Hem; [simplify_eq; rewrite app_nil_r; constructor; [done | by exists pi, got] |].
  destruct (pipe_get_spec pi Hok Hem) as [Hok' Hct]. pose proof (u64_range (addr + i)).
  assert (u8 (pipe_byte pi) = pipe_byte pi) as Hu8.
  { rewrite Ew, Hct, Forall_app, Forall_cons in Hb. tauto. }
  assert (forall f s1, of_byte f (pipe_byte pi) -> fifo a (set_pipe a (pipe_get pi) s1, wr, rd ++ [f])) as Hend.
  { intros f s1 Hof. constructor; [done |]. exists (pipe_get pi), (got ++ [pipe_byte pi]).
    split_and!; [apply lookup_insert_eq | done | by rewrite Ew, Hct, <- app_assoc | apply Forall2_app; auto]. }
  destruct H as (s1 & [[H Hw]|(H & _)]); simplify_eq; apply Hend; [left | by right].
  simpl. rewrite (uw_byte _ _ _ _ _ _ _ _ Hw) by lia. rewrite decide_True by (simpl; lia).
  rewrite Z.sub_diag. simpl. by rewrite Hu8.
Qed.

Lemma fifo_turn a x y : turn a x y -> fifo a x -> fifo a y.
Proof.
  destruct 1 as [? ? ? ? ? ? ? ? ? ? ? ? ? Hc E|? ? ? ? ? ? ? ? ? ? ? ? ? Hc E|s s' wr rd Ho];
    [by eapply fifo_write | by eapply fifo_read |].
  intros [Hb (pi & got & Hpi & Hok & Ew & Hf)]. constructor; [done |].
  destruct (Ho pi Hpi) as (pi' & Hpi' & E1 & E2 & E3). exists pi', got.
  assert (count pi' = count pi) as Ec by (unfold count; by rewrite E2, E3).
  simpl in *. split_and!; [done | | | done].
  - destruct Hok. constructor; rewrite ?Ec, ?E1, ?E2, ?E3; done.
  - rewrite Ew. f_equal. unfold contents. by rewrite Ec, E1, E2.
Qed.

(** C25. A pipe is a bounded FIFO.  For every history of turns of the loops of
    pipewrite() and piperead(), by any number of processes, from an empty pipe,
    wherever its 32-bit counters start and however often they wrap around: the bytes
    put into the pipe are the bytes taken out of it followed by the at most 512 bytes
    still in it, and each byte taken out is what the reader finds in its buffer, or
    was dropped because the buffer was not writable. *)
Theorem pipe_fifo a s0 pi0 s wr rd :
  s0.(pipes) !! a = Some pi0 -> pipe_ok pi0 -> pipe_empty pi0 = true ->
  rtc (turn a) (s0, [], []) (s, wr, rd) ->
  exists pi got, s.(pipes) !! a = Some pi /\ pipe_ok pi /\ (length (contents pi) <= 512)%nat /\
    wr = got ++ contents pi /\ Forall2 of_byte rd got.
Proof.
  intros Hpi Hok He Hr.
  assert (fifo a (s0, [], [])) as H0.
  { constructor; [done |]. exists pi0, []. split_and!; try done. rewrite pipe_empty_spec in He by done.
    apply Z.eqb_eq in He. unfold contents. by rewrite He. }
  assert (fifo a (s, wr, rd)) as [_ (pi & got & Hpi' & Hok' & Ew & Hf)].
  { remember (s0, [], []) as x. clear Heqx. induction Hr; [done |]. eauto using fifo_turn. }
  exists pi, got. split_and!; try done. rewrite contents_length. destruct Hok' as [_ _ _ Hc]. unfold PIPESIZE in Hc. lia.
Qed.
End pipe_proofs.
