(* ===== verification/Sem.v ===== *)
(** * Semaphores (kernel/semaphore.c)

    One kernel-wide counting semaphore [all_sem] with a circular queue of waiting
    processes.  The calls refine an abstract counter with a FIFO list of waiters;
    two further theorems show where the code departs from what a semaphore
    promises: a waiting process is let through by the exit of one of its children,
    and destroying a semaphore that is in use stops the machine. *)

From S2P Require Import Prelude State Sched.

(** ** The code (the [sem] pointer of the C functions is never used) *)

Definition upd_sem (f : semaphore -> semaphore) : M kernel unit :=
  modify (fun s => set_all_sem (f s.(all_sem)) s).

Definition sem_init (value : Z) : M kernel Z :=
  upd_sem (set_sem_value value);;
  initlock LkSem;;
  upd_sem (set_sem_head 0);;
  upd_sem (set_sem_tail 0);;
  mret 0.

Definition sem_wait : M kernel Z :=
  acquire LkSem;;
  upd_sem (fun m => set_sem_value (s32 (m.(sem_value) - 1)) m);;
  m ← gets all_sem;
  when (m.(sem_value) <? 0) (
    i ← myproc;
    upd_sem (fun m => set_sem_queue (<[Z.to_nat m.(sem_tail) := Some i]> m.(sem_queue)) m);;
    upd_sem (fun m => set_sem_tail (Z.rem (m.(sem_tail) + 1) 64) m);;
    sleep (Some (ChProc i)) LkSem);;
  release LkSem;;
  mret 0.

Definition sem_post : M kernel Z :=
  acquire LkSem;;
  upd_sem (fun m => set_sem_value (s32 (m.(sem_value) + 1)) m);;
  m ← gets all_sem;
  when (m.(sem_value) <=? 0) (
    let p := default None (m.(sem_queue) !! Z.to_nat m.(sem_head)) in
    upd_sem (fun m => set_sem_head (Z.rem (m.(sem_head) + 1) 64) m);;
    wakeup (ChProc <$> p));;
  release LkSem;;
  mret 0.

Definition sem_destroy : M kernel Z :=
  acquire LkSem;;
  m ← gets all_sem;
  if negb (m.(sem_head) =? m.(sem_tail)) then
    panic "sem_destroy: destroying semaphore with waiting processes" else
  upd_sem (set_sem_value 0);;
  upd_sem (fun m => set_sem_queue (replicate NPROC None) m);;
  release LkSem;;
  mret 0.

(** ** The abstract semaphore *)

(** [m] represents the counter [v] and the waiting processes [W], oldest first. *)
Record sem_repr (m : semaphore) (v : Z) (W : list nat) : Prop := {
  sr_value : m.(sem_value) = v - Z.of_nat (length W);
  sr_v : 0 <= v < 2 ^ 31;
  sr_wait : W <> [] -> v = 0;
  sr_len : length m.(sem_queue) = NPROC;
  sr_head : 0 <= m.(sem_head) < 64;
  sr_tail : m.(sem_tail) = (m.(sem_head) + Z.of_nat (length W)) mod 64;
  sr_full : (length W < NPROC)%nat;
  sr_queue j i : W !! j = Some i -> m.(sem_queue) !! Z.to_nat ((m.(sem_head) + Z.of_nat j) mod 64) = Some (Some i);
}.

(** The state of a process in a kernel without locks held. *)
Record quiet (s : kernel) (i : nat) : Prop := {
  q_held : s.(held) = ∅;
  q_cur : s.(cur) = Some i;
  q_procs : procs_ok s;
  q_lt : (i < NPROC)%nat;
}.

Lemma quiet_lookup s i : quiet s i -> is_Some (s.(procs) !! i).
Proof. intros [_ _ Hp Hl]. apply lookup_lt_is_Some_2. by rewrite Hp. Qed.

Definition with_sem (f : semaphore -> semaphore) (s : kernel) : kernel := set_all_sem (f s.(all_sem)) s.

Lemma sem_enqueue m W i :
  sem_repr m 0 W -> (S (length W) < NPROC)%nat ->
  sem_repr (set_sem_tail (Z.rem (m.(sem_tail) + 1) 64)
    (set_sem_queue (<[Z.to_nat m.(sem_tail) := Some i]> m.(sem_queue)) (set_sem_value (m.(sem_value) - 1) m)))
    0 (W ++ [i]).
Proof.
  intros [Hv Hv0 Hw Hl Hh Ht Hf Hq] Hlen. unfold NPROC in *.
  assert (0 <= m.(sem_tail) < 64) as Htr by (rewrite Ht; apply Z.mod_pos_bound; lia).
  constructor; simpl; unfold NPROC; try done.
  - rewrite length_app; cbn [length]. lia.
  - by rewrite length_insert.
  - rewrite length_app; cbn [length]. rewrite Z.rem_mod_nonneg by lia. rewrite Ht. dlia.
  - rewrite length_app; cbn [length]. lia.
  - intros j k Hj. apply lookup_app_Some in Hj as [Hj|[Hge Hj]].
    + pose proof (lookup_lt_Some _ _ _ Hj). rewrite list_lookup_insert_ne; [by apply Hq |]. rewrite Ht. dlia.
    + apply list_lookup_singleton_Some in Hj as [Hj <-].
      replace (Z.of_nat j) with (Z.of_nat (length W)) by lia. rewrite <- Ht.
      apply list_lookup_insert_eq. lia.
Qed.

Lemma sem_dequeue m w W :
  sem_repr m 0 (w :: W) ->
  m.(sem_queue) !! Z.to_nat m.(sem_head) = Some (Some w) /\
  sem_repr (set_sem_head (Z.rem (m.(sem_head) + 1) 64) (set_sem_value (m.(sem_value) + 1) m)) 0 W.
Proof.
  intros [Hv Hv0 Hw Hl Hh Ht Hf Hq]. unfold NPROC in *. simpl in Hf, Hv. split.
  - rewrite <- (Hq 0%nat w) by done. do 2 f_equal. simpl. rewrite Z.add_0_r. symmetry. by apply Z.mod_small.
  - rewrite Z.rem_mod_nonneg by lia. constructor; simpl; unfold NPROC; try done; try lia.
    + dlia.
    + simpl in Ht. rewrite Ht. dlia.
    + intros j k Hj. rewrite <- (Hq (S j) k Hj). do 2 f_equal. dlia.
Qed.

(** ** Correctness *)

Lemma acquire_quiet l s i : quiet s i -> acquire l s = Ok tt (set_held {[l]} s).
Proof. intros [Hh _ _ _]. rewrite acquire_Ok by (rewrite Hh; set_solver +). by rewrite Hh, union_empty_r_L. Qed.

Lemma release_quiet l s s' : s'.(held) = {[l]} -> s.(held) = ∅ -> release l s' = Ok tt (set_held s.(held) s').
Proof. intros H1 H2. rewrite release_Ok by (rewrite H1; set_solver +). by rewrite H1, H2, difference_diag_L. Qed.

Lemma sem_wait_run s i v W :
  quiet s i -> sem_repr s.(all_sem) v W -> (S (length W) < NPROC)%nat ->
  if decide (0 < v) then
    exists m', sem_wait s = Ok 0 (set_all_sem m' s) /\ sem_repr m' (v - 1) W
  else
    exists m' k, sem_wait s = Sleep (sleeping i (Some (ChProc i)) (set_all_sem m' s)) k /\
      sem_repr m' 0 (W ++ [i]) /\
      forall s2, s2.(held) = {[LkProc i]} ->
        k s2 = Ok 0 (set_held ∅ (set_procs (alter (set_p_chan None) i s2.(procs)) s2)).
Proof.
  intros Hq Hr Hl. pose proof Hr as [Hv Hv0 Hw Hlen Hh Ht Hf Hqu]. unfold sem_wait.
  erewrite bind_Ok by (by eapply acquire_quiet). erewrite bind_Ok by done. erewrite bind_Ok by done. simpl sem_value.
  unfold NPROC in Hl. rewrite s32_small by lia. case_decide as Hpos.
  - assert (W = []) as -> by (destruct W; [done | specialize (Hw ltac:(done)); lia]). simpl in Hv.
    destruct (Z.ltb_spec (sem_value (all_sem s) - 1) 0); [lia |]. cbn [when]. erewrite bind_Ok by done.
    erewrite bind_Ok by (by apply (release_quiet _ s); [|apply Hq]).
    eexists. split; [unfold mret, M_ret; f_equal; by destruct s |]. constructor; simpl; try done; lia.
  - assert (v = 0) as -> by lia. destruct (Z.ltb_spec (sem_value (all_sem s) - 1) 0); [|lia]. cbn [when].
    pose proof (sem_enqueue _ W i Hr ltac:(unfold NPROC; lia)) as Hr'.
    set (m' := set_sem_tail (Z.rem (sem_tail (all_sem s) + 1) 64) _) in *.
    set (s1 := set_held {[LkSem]} (set_all_sem m' s)).
    destruct (sleep_only i (Some (ChProc i)) LkSem s1) as (k & Es & Hk);
      [apply Hq | exact (quiet_lookup _ _ Hq) | done | done |].
    exists m'. eexists. split_and!.
    + erewrite bind_Sleep; [reflexivity |]. erewrite bind_Ok by (apply myproc_Ok; apply Hq).
      erewrite bind_Ok by done. erewrite bind_Ok by done. exact Es.
    + exact Hr'.
    + intros s2 H2. cbv beta. rewrite Hk by done. simpl.
      erewrite bind_Ok by (apply release_Ok; set_solver +). unfold mret, M_ret. simpl.
      by rewrite difference_diag_L.
Qed.

(** sem_wait() takes a unit if the counter is positive and returns 0 at once.
    Otherwise the caller joins the end of the queue of waiters and sleeps with the
    semaphore lock released; when it is scheduled again it returns 0. *)
Theorem sem_wait_spec s i v W :
  quiet s i -> sem_repr s.(all_sem) v W -> (S (length W) < NPROC)%nat ->
  if decide (0 < v) then
    exists m', sem_wait s = Ok 0 (set_all_sem m' s) /\ sem_repr m' (v - 1) W
  else
    exists m' k, sem_wait s = Sleep (sleeping i (Some (ChProc i)) (set_all_sem m' s)) k /\
      sem_repr m' 0 (W ++ [i]) /\
      forall s2, s2.(held) = {[LkProc i]} ->
        k s2 = Ok 0 (set_held ∅ (set_procs (alter (set_p_chan None) i s2.(procs)) s2)).
Proof. apply sem_wait_run. Qed.

(** C30. sem_post() adds a unit when nobody waits; otherwise it removes the oldest
    waiter from the queue and wakes it, and, since only a process itself sleeps on
    its own channel, no other process changes. *)
Theorem sem_post_spec s i v W :
  quiet s i -> sem_repr s.(all_sem) v W -> v < 2 ^ 31 - 1 ->
  (forall j p k, s.(procs) !! j = Some p -> p.(p_chan) = Some (ChProc k) -> j = k) ->
  match W with
  | [] => exists m', sem_post s = Ok 0 (set_all_sem m' s) /\ sem_repr m' (v + 1) []
  | w :: W' =>
      exists m' s', sem_post s = Ok 0 s' /\ s' = woken (Some i) (Some (ChProc w)) (set_all_sem m' s) /\
        sem_repr m' 0 W' /\
        (forall p, w <> i -> s.(procs) !! w = Some p -> p.(p_state) = SLEEPING -> p.(p_chan) = Some (ChProc w) ->
           s'.(procs) !! w = Some (set_p_state RUNNABLE p)) /\
        (forall j, j <> w -> s'.(procs) !! j = s.(procs) !! j)
  end.
Proof.
  intros Hq Hr Hm Hchan. pose proof Hr as [Hv Hv0 Hw Hlen Hh Ht Hf Hqu]. unfold sem_post, NPROC in *.
  erewrite bind_Ok by (by eapply acquire_quiet). erewrite bind_Ok by done. erewrite bind_Ok by done. simpl sem_value.
  rewrite s32_small by lia. destruct W as [|w W].
  - simpl in Hv. destruct (Z.leb_spec (sem_value (all_sem s) + 1) 0); [lia |]. cbn [when]. erewrite bind_Ok by done.
    erewrite bind_Ok by (by apply (release_quiet _ s); [|apply Hq]).
    eexists. split; [unfold mret, M_ret; f_equal; by destruct s |]. constructor; simpl; try done; lia.
  - specialize (Hw ltac:(done)). subst v. simpl in Hv.
    destruct (Z.leb_spec (sem_value (all_sem s) + 1) 0); [|lia]. cbn [when].
    destruct (sem_dequeue _ w W Hr) as [Hhd Hr']. simpl sem_queue. simpl sem_head. rewrite Hhd. simpl.
    set (m' := set_sem_head (Z.rem (sem_head (all_sem s) + 1) 64) _) in *.
    exists m'. eexists. split_and!; [| reflexivity | done | |].
    + erewrite bind_Ok.
      2: { erewrite bind_Ok by done. apply wakeup_run; [apply Hq |]. intros k _. set_solver +. }
      erewrite bind_Ok by (by apply (release_quiet _ s); [|apply Hq]).
      unfold mret, M_ret. f_equal. simpl. rewrite (q_cur _ _ Hq). by destruct s.
    + intros p Hwi Hp Hst Hc. simpl. rewrite list_lookup_imap, Hp. simpl. unfold wake.
      rewrite bool_decide_eq_false_2 by congruence. by rewrite !bool_decide_eq_true_2.
    + intros j Hj. simpl. rewrite list_lookup_imap. destruct (procs s !! j) as [p|] eqn:Hp; [|done]. simpl.
      f_equal. unfold wake. case_bool_decide; [done |]. destruct (bool_decide (p_state p = SLEEPING)); [|done].
      case_bool_decide as Hc; [|done]. exfalso. apply Hj. by eapply Hchan.
Qed.

(** A wait can end without a post.  A process that waits for the semaphore sleeps
    on its own process structure, the channel exit() uses to wake a parent: after
    the wakeup(p->parent) of an exiting child [c], the scheduler runs the waiter
    again and its sem_wait() returns 0, although no unit was released and the
    process is still in the queue. *)
Theorem sem_wait_spurious s i c W p m' k :
  quiet s i -> sem_repr s.(all_sem) 0 W -> (S (length W) < NPROC)%nat -> c <> i ->
  s.(procs) !! i = Some p ->
  sem_wait s = Sleep (sleeping i (Some (ChProc i)) (set_all_sem m' s)) k ->
  let s1 := set_cur (Some c) (set_held {[LkWait]} (sleeping i (Some (ChProc i)) (set_all_sem m' s))) in
  exists s2, wakeup (Some (ChProc i)) s1 = Ok tt s2 /\
    (p_state <$> s2.(procs) !! i) = Some RUNNABLE /\ s2.(all_sem) = m' /\
    exists s3, k (set_held {[LkProc i]} (set_cur (Some i) s2)) = Ok 0 s3 /\
      s3.(all_sem) = m' /\ sem_repr m' 0 (W ++ [i]).
Proof.
  intros Hq Hr Hl Hc Hp E s1. pose proof (sem_wait_run s i 0 W Hq Hr Hl) as H. simpl in H.
  destruct H as (m1 & k1 & E1 & Hr1 & Hk1). rewrite E in E1. injection E1 as <- Hk. subst k1.
  eexists. split; [|split_and!].
  - apply wakeup_run; [unfold procs_ok; simpl; rewrite length_alter; apply Hq |]. intros j _. simpl. set_solver +.
  - simpl. rewrite list_lookup_imap, list_lookup_alter_eq, Hp. simpl. unfold wake.
    rewrite bool_decide_eq_false_2 by congruence. by rewrite !bool_decide_eq_true_2.
  - done.
  - eexists. split; [apply Hk1; done |]. done.
Qed.

(** sem_destroy() on a semaphore with a waiting process stops the whole machine
    (panic) instead of returning an error to the caller; with no waiter it returns 0
    and leaves an empty semaphore of value 0. *)
Theorem sem_destroy_spec s i v W :
  quiet s i -> sem_repr s.(all_sem) v W ->
  match W with
  | [] => exists m', sem_destroy s = Ok 0 (set_all_sem m' s) /\ sem_repr m' 0 []
  | _ => sem_destroy s = Panic "sem_destroy: destroying semaphore with waiting processes"
  end.
Proof.
  intros Hq Hr. pose proof Hr as [Hv Hv0 Hw Hlen Hh Ht Hf Hqu]. unfold sem_destroy, NPROC in *.
  erewrite bind_Ok by (by eapply acquire_quiet). erewrite bind_Ok by done. cbv beta. cbn [all_sem set_held]. destruct W as [|w W].
  - destruct (Z.eqb_spec (sem_head (all_sem s)) (sem_tail (all_sem s))) as [_|Hne]; cbn [negb]; cbn iota.
    2: { exfalso. apply Hne. simpl in Ht. rewrite Ht. dlia. }
    erewrite bind_Ok by done. erewrite bind_Ok by done.
    erewrite bind_Ok by (by apply (release_quiet _ s); [|apply Hq]).
    eexists. split; [unfold mret, M_ret; f_equal; by destruct s |]. constructor; simpl; try done; lia.
  - destruct (Z.eqb_spec (sem_head (all_sem s)) (sem_tail (all_sem s))) as [He|Hne]; [|done].
    exfalso. simpl in *. rewrite Ht in He. dlia.
Qed.
