(* ===== verification/Proc.v ===== *)
(** * Processes (kernel/proc.c): the process table and its address spaces

    Allocation and release of process-table slots with their trapframe page and
    page table, growproc(), wait() and waitpid(), sysinfo() and the signal hook.
    fork() and exit(), which also use the file layer, are in [Process]. *)

From S2P Require Import Prelude State Mem Bytes Riscv Kalloc Vm PageTable Uvm UvmAlloc UvmFree Sched Uart Printf.

(** Addresses fixed by the linker: the trampoline page (trampoline.S), inside the
    kernel text, and forkret(). *)
Class Symbols `{Linker} := {
  trampoline : Z;
  trampoline_page : trampoline mod 4096 = 0;
  trampoline_range : KERNBASE <= trampoline < end_;
  forkret : Z;
}.

Definition SIGINT : Z := 2.

(** Offsets in struct trapframe *)
Definition TF_epc : Z := 24.
Definition TF_sp : Z := 48.
Definition TF_a0 : Z := 112.
Definition TF_a7 : Z := 168.
Definition TF_size : Z := 288.

Section proc.
Context `{Symbols}.

Definition proc_mapstacks (kpgtbl : Z) : M kernel unit :=
  for_range NPROC 0 (fun i =>
    pa ← kalloc;
    if pa =? 0 then panic "kalloc" else
    kvmmap kpgtbl (KSTACK (Z.of_nat i)) pa PGSIZE (Z.lor PTE_R PTE_W)).

Definition procinit : M kernel unit :=
  initlock LkPid;;
  initlock LkWait;;
  for_range NPROC 0 (fun i =>
    initlock (LkProc i);;
    upd_proc i (set_p_state UNUSED);;
    upd_proc i (set_p_kstack (KSTACK (Z.of_nat i)));;
    upd_proc i (set_p_sig_handlers (replicate 32 0))).

Definition allocpid : M kernel Z :=
  acquire LkPid;;
  pid ← gets nextpid;
  modify (fun s => set_nextpid (s32 (s.(nextpid) + 1)) s);;
  release LkPid;;
  mret pid.

Definition proc_pagetable (i : nat) : M kernel Z :=
  pagetable ← uvmcreate;
  if pagetable =? 0 then mret 0 else
  r ← mappages pagetable TRAMPOLINE PGSIZE trampoline (Z.lor PTE_R PTE_X);
  if r <? 0 then uvmfree pagetable 0;; mret 0 else
  p ← get_proc i;
  r ← mappages pagetable TRAPFRAME PGSIZE p.(p_trapframe) (Z.lor PTE_R PTE_W);
  if r <? 0 then
    uvmunmap pagetable TRAMPOLINE 1 false;;
    uvmfree pagetable 0;;
    mret 0
  else mret pagetable.

Definition proc_freepagetable (pagetable sz : Z) : M kernel unit :=
  uvmunmap pagetable TRAMPOLINE 1 false;;
  uvmunmap pagetable TRAPFRAME 1 false;;
  uvmfree pagetable sz.

Definition freeproc (i : nat) : M kernel unit :=
  p ← get_proc i;
  when (negb (p.(p_trapframe) =? 0)) (kfree p.(p_trapframe));;
  upd_proc i (set_p_trapframe 0);;
  when (negb (p.(p_pagetable) =? 0)) (proc_freepagetable p.(p_pagetable) p.(p_sz));;
  upd_proc i (set_p_pagetable 0);;
  upd_proc i (set_p_sz 0);;
  upd_proc i (set_p_pid 0);;
  upd_proc i (set_p_parent None);;
  upd_proc i (fun p => set_p_name (<[0%nat := 0]> p.(p_name)) p);;
  upd_proc i (set_p_chan None);;
  upd_proc i (set_p_killed 0);;
  upd_proc i (set_p_xstate 0);;
  upd_proc i (set_p_state UNUSED).

(** for(p = proc; ...) ... goto found *)
Definition find_unused : M kernel (option nat) :=
  for_return NPROC 0 (fun i =>
    acquire (LkProc i);;
    p ← get_proc i;
    if bool_decide (p.(p_state) = UNUSED) then mret (Some i)
    else release (LkProc i);; mret None).

Definition allocproc : M kernel (option nat) :=
  r ← find_unused;
  match r with
  | None => mret None
  | Some i =>
      pid ← allocpid;
      upd_proc i (set_p_pid pid);;
      upd_proc i (set_p_state USED);;
      tf ← kalloc;
      upd_proc i (set_p_trapframe tf);;
      if tf =? 0 then freeproc i;; release (LkProc i);; mret None else
      pt ← proc_pagetable i;
      upd_proc i (set_p_pagetable pt);;
      if pt =? 0 then freeproc i;; release (LkProc i);; mret None else
      upd_proc i (fun p => set_p_context (mkContext forkret (p.(p_kstack) + PGSIZE) (replicate 12 0)) p);;
      mret (Some i)
  end.

Definition growproc (n : Z) : M kernel Z :=
  i ← myproc;
  p ← get_proc i;
  let sz := p.(p_sz) in
  if 0 <? n then
    sz ← uvmalloc p.(p_pagetable) sz (u64 (sz + n)) PTE_W;
    if sz =? 0 then mret (-1) else
    upd_proc i (set_p_sz sz);; mret 0
  else if n <? 0 then
    sz ← uvmdealloc p.(p_pagetable) sz (u64 (sz + n));
    upd_proc i (set_p_sz sz);; mret 0
  else
    upd_proc i (set_p_sz sz);; mret 0.

(** Caller must hold wait_lock. *)
Definition reparent (i : nat) : M kernel unit :=
  for_range NPROC 0 (fun j =>
    pp ← get_proc j;
    if bool_decide (pp.(p_parent) = Some i) then
      ip ← gets initproc;
      upd_proc j (set_p_parent ip);;
      wakeup (ChProc <$> ip)
    else mret tt).

(** A zombie child is collected: copyout() of its status, freeproc(). *)
Definition reap (pt addr : Z) (j : nat) : M kernel Z :=
  pp ← get_proc j;
  let pid := pp.(p_pid) in
  c ← (if negb (addr =? 0) then copyout pt addr (le_bytes 4 (u32 pp.(p_xstate))) else mret 0);
  if c <? 0 then
    release (LkProc j);; release LkWait;; mret (-1)
  else
    freeproc j;; release (LkProc j);; release LkWait;; mret pid.

(** The scan of wait(); [hk] is havekids. *)
Fixpoint wait_scan (n j : nat) (i : nat) (pt addr : Z) (hk : bool) : M kernel (Z + bool) :=
  match n with
  | O => mret (inr hk)
  | S n' =>
      pp ← get_proc j;
      if bool_decide (pp.(p_parent) = Some i) then
        acquire (LkProc j);;
        pp ← get_proc j;
        if bool_decide (pp.(p_state) = ZOMBIE) then
          pid ← reap pt addr j; mret (inl pid)
        else release (LkProc j);; wait_scan n' (j + 1) i pt addr true
      else wait_scan n' (j + 1) i pt addr hk
  end.

(** for(;;) of wait(): each round that does not return ends in sleep(). *)
Fixpoint wait_loop (fuel : nat) (i : nat) (addr : Z) : M kernel Z :=
  match fuel with
  | O => fun _ => Timeout
  | S fuel' =>
      p ← get_proc i;
      r ← wait_scan NPROC 0 i p.(p_pagetable) addr false;
      match r with
      | inl pid => mret pid
      | inr havekids =>
          k ← (if negb havekids then mret 1 else killed i);
          if negb (k =? 0) then release LkWait;; mret (-1) else
          sleep (Some (ChProc i)) LkWait;;
          wait_loop fuel' i addr
      end
  end.

Definition wait (fuel : nat) (addr : Z) : M kernel Z :=
  i ← myproc;
  acquire LkWait;;
  wait_loop fuel i addr.

(** The scan of waitpid(); it stops at the first matching child.  [inr found]: the
    for loop ended, by running out of slots or by break after sleep(). *)
Fixpoint waitpid_scan (n j : nat) (i : nat) (pt pid addr options : Z) : M kernel (Z + bool) :=
  match n with
  | O => mret (inr false)
  | S n' =>
      pp ← get_proc j;
      if (bool_decide (pp.(p_parent) = Some i) && (pp.(p_pid) =? pid)) ||
         ((pid =? -1) && bool_decide (pp.(p_parent) = Some i)) then
        acquire (LkProc j);;
        pp ← get_proc j;
        if bool_decide (pp.(p_state) = ZOMBIE) then
          r ← reap pt addr j; mret (inl r)
        else if negb (options =? 0) then
          release (LkProc j);; release LkWait;; mret (inl 0)
        else
          release (LkProc j);;
          sleep (Some (ChProc i)) LkWait;;
          mret (inr true)
      else waitpid_scan n' (j + 1) i pt pid addr options
  end.

Fixpoint waitpid_loop (fuel : nat) (i : nat) (pid addr options : Z) : M kernel Z :=
  match fuel with
  | O => fun _ => Timeout
  | S fuel' =>
      p ← get_proc i;
      r ← waitpid_scan NPROC 0 i p.(p_pagetable) pid addr options;
      match r with
      | inl ret => mret ret
      | inr foundchild =>
          k ← (if negb foundchild then mret 1 else killed i);
          if negb (k =? 0) then release LkWait;; mret (-1) else
          waitpid_loop fuel' i pid addr options
      end
  end.

Definition waitpid (fuel : nat) (pid addr options : Z) : M kernel Z :=
  i ← myproc;
  acquire LkWait;;
  waitpid_loop fuel i pid addr options.

Definition either_copyout (user_dst dst : Z) (src : list Z) : M kernel Z :=
  i ← myproc;
  p ← get_proc i;
  if negb (user_dst =? 0) then copyout p.(p_pagetable) dst src
  else do_store_bytes dst src;; mret 0.

Definition either_copyin (user_src src len : Z) : M kernel (Z * list Z) :=
  i ← myproc;
  p ← get_proc i;
  if negb (user_src =? 0) then copyin p.(p_pagetable) src len
  else bs ← gets (fun s => load_bytes s.(mem) src (Z.to_nat len)); mret (0, bs).

(** The bytes of struct sysinfo; [junk] is what the stack held where info.pids is
    not assigned. *)
Definition sysinfo_bytes (uptime freemem totalmem : Z) (pids : list Z) (junk : list Z) : list Z :=
  le_bytes 8 uptime ++ le_bytes 8 freemem ++ le_bytes 8 totalmem ++ le_bytes 8 (Z.of_nat (length pids)) ++
  concat (le_bytes 8 ∘ u64 <$> pids) ++ drop (8 * length pids) junk.

Definition sysinfo (junk : list Z) (fuel : nat) (kinfo : Z) : M kernel Z :=
  acquire LkTicks;;
  up_time ← gets ticks;
  release LkTicks;;
  freemem ← memfree fuel;
  let totalmem := PHYSTOP - end_ in
  ps ← gets procs;
  let pids := p_pid <$> filter (fun p => p.(p_state) <> UNUSED) ps in
  i ← myproc;
  p ← get_proc i;
  r ← copyout p.(p_pagetable) kinfo (sysinfo_bytes (up_time / 10) freemem totalmem pids junk);
  if r <? 0 then mret (-1) else mret 0.

Definition handle_signals : M kernel unit :=
  i ← myproc;
  p ← get_proc i;
  when (negb (Z.land p.(p_pending_signals) (Z.shiftl 1 SIGINT) =? 0)) (
    upd_proc i (fun p => set_p_pending_signals (Z.land p.(p_pending_signals) (Z.lnot (Z.shiftl 1 SIGINT))) p);;
    let h := default 0 (p.(p_sig_handlers) !! Z.to_nat SIGINT) in
    if negb (h =? 0) then wr64 (p.(p_trapframe) + TF_epc) h
    else upd_proc i (set_p_killed 1)).

Definition sigint_default_handler : M kernel unit :=
  i ← myproc;
  upd_proc i (set_p_killed 1);;
  kprint "Custom SIGINT handler triggered\n" [].

(** states[p->state] *)
Definition state_name (x : procstate) : string :=
  match x with UNUSED => "unused" | USED => "used" | SLEEPING => "sleep " | RUNNABLE => "runble" | RUNNING => "run   " | ZOMBIE => "zombie" end.

Definition procdump : M kernel unit :=
  kprint "\n" [];;
  for_range NPROC 0 (fun i =>
    p ← get_proc i;
    if bool_decide (p.(p_state) = UNUSED) then mret tt else
    kprint "%d %s %s" [VNum p.(p_pid); VStr (Some (chars (state_name p.(p_state)))); VStr (Some (cstr p.(p_name)))];;
    kprint "\n" []).
End proc.
