(* ===== verification/ProcVm.v ===== *)
(** * Page tables of processes (kernel/proc.c)

    proc_pagetable() and proc_freepagetable(): the trampoline and trapframe
    mappings of a process, which are not user pages, and the return of all pages
    on every failure path. *)

From S2P Require Import Prelude State Mem Riscv Kalloc Vm PageTable Uvm UvmAlloc UvmFree Sched Proc.

Section procvm.
Context `{Symbols}.
Implicit Types (N : gmap (list Z) Z) (m D : gmap Z Z) (s : kernel) (l : list Z).

(** ** uvmcreate() *)

Lemma lookup_root_only m p va : lookup_pte m {[ [] := p ]} va = 0.
Proof. unfold lookup_pte, slot. simpl. by rewrite lookup_singleton_ne. Qed.

Lemma uvmcreate_run s l :
  kmem_inv s l -> LkKmem ∉ s.(held) ->
  match l with
  | [] => uvmcreate s = Ok 0 s
  | p :: l' => exists s', uvmcreate s = Ok p s' /\ p <> 0 /\ page_ok p /\ as_inv s' p {[ [] := p ]} ∅ l' /\
      only_mem s s' /\ (forall a, outside a p -> load8 s'.(mem) a = load8 s.(mem) a)
  end.
Proof.
  intros Hkm Hlk. pose proof (kalloc_spec s l Hkm Hlk) as Hk. destruct l as [|p l].
  - unfold uvmcreate. by erewrite bind_Ok by exact Hk.
  - destruct Hk as (s1 & E1 & Hkm1 & Es1).
    assert (page_ok p) as Hp by (eapply free_page_ok; [exact Hkm | set_solver +]).
    pose proof (page_pos p Hp) as Hpos.
    assert (p ∉ l) as Hpl by (destruct Hkm as [_ Hnd]; by apply NoDup_cons in Hnd as [? _]).
    unfold uvmcreate. erewrite bind_Ok by exact E1. destruct (Z.eqb_spec p 0); [lia |].
    erewrite bind_Ok by done. eexists. split; [done |]. set (s2 := set_mem _ s1).
    assert (forall a, outside a p -> load8 s2.(mem) a = load8 s.(mem) a) as Hout.
    { intros a Ha. unfold s2. simpl. rewrite memset_outside, Es1 by done. simpl. by rewrite memset_outside. }
    assert (only_mem s s2) as Ho.
    { eapply only_mem_trans; [|apply only_mem_set]. rewrite Es1. unfold only_mem. reflexivity. }
    assert (forall i, 0 <= i < 512 -> load64 s2.(mem) (p + 8 * i) = 0) as Hz
      by (intros i Hi; unfold s2; cbn [mem set_mem]; apply load64_memset0; consts; lia).
    assert (kmem_inv s2 l) as Hkm2.
    { eapply kmem_inv_frame; [exact Hkm1 | done |]. intros q Hq a Ha. unfold s2. cbn [mem set_mem]. apply memset_outside.
      eapply (outside_pages a p q); [apply Hp | | set_solver + Hq Hpl | exact Ha].
      eapply (free_page_ok s (p :: l)); [done | set_solver + Hq]. }
    clearbody s2. clear E1 Es1. split_and!; [lia | done | | done | done].
    constructor; try (intros ? ? Hd; by rewrite lookup_empty in Hd); try (intros ? ? ? Hd; by rewrite lookup_empty in Hd).
    + constructor; [constructor | done | by rewrite (only_mem_held s) |].
      * apply lookup_singleton_eq.
      * by intros k q [<- <-]%lookup_singleton_Some.
      * by intros k k' q [<- <-]%lookup_singleton_Some [<- _]%lookup_singleton_Some.
      * intros k i q Hs%lookup_singleton_Some. destruct Hs as [Hs _]. by destruct k.
      * intros k q i [<- <-]%lookup_singleton_Some _ Hi. rewrite lookup_singleton_ne by done. by rewrite Hz.
      * by intros k q [<- <-]%lookup_singleton_Some.
    + intros va Hva Hva4. by rewrite lookup_root_only.
Qed.

(** ** Mappings that are not the user's *)

Lemma has_mk pa f b : 0 <= pa < 2 ^ 56 -> 0 <= f < 1024 -> 0 <= b < 1024 -> has (Z.lor (PA2PTE pa) f) b = has f b.
Proof. intros. unfold has. rewrite land_flags by done. by rewrite PTE_FLAGS_mk_pte. Qed.

Lemma map_special s root N D l va pa perm :
  as_inv s root N D l -> 0 <= va < MAXVA -> va mod 4096 = 0 -> 0 <= pa < 2 ^ 56 ->
  0 <= perm < 1024 -> has (Z.lor perm PTE_V) PTE_U = false ->
  has (lookup_pte s.(mem) N va) PTE_V = false ->
  exists r s' N' l1 l2, mappages root va PGSIZE pa perm s = Ok r s' /\ l = l1 ++ l2 /\ grows s s' N N' l1 /\
    as_inv s' root N' D l2 /\ (length l1 <= 2)%nat /\
    ((r = 0 /\ forall v, 0 <= v < MAXVA -> v mod 4096 = 0 -> lookup_pte s'.(mem) N' v =
        if decide (v = va) then Z.lor (PA2PTE pa) (Z.lor perm PTE_V) else lookup_pte s.(mem) N v) \/
     (r = -1 /\ l2 = [] /\ (length l1 < 2)%nat /\
      forall v, 0 <= v < MAXVA -> v mod 4096 = 0 -> lookup_pte s'.(mem) N' v = lookup_pte s.(mem) N v)).
Proof.
  intros Hi Ha Ha4 Hpa Hperm HU Hinv. unfold mappages. consts. rewrite Ha4.
  change (negb (4096 mod 4096 =? 0)) with false. cbn [negb Z.eqb]. cbn iota. rewrite u64_small by lia.
  destruct (mappages_loop_spec root perm (va + 4096 - 4096) 0 (S (Z.to_nat (4096 / 4096))) va pa s N l)
    as (r & s' & N' & l1 & l2 & j & E & -> & Hpt' & Hg & Hj & Hm & _ & Hr); try (consts; lia); try done.
  { apply Hi. }
  { by apply flags_V_range. }
  { intros i Hii. by replace (va + 4096 * i) with va by lia. }
  exists r, s', N', l1, l2. split_and!; [exact E | done | done | | lia |].
  - assert (forall v, 0 <= v < MAXVA -> v mod 4096 = 0 -> v <> va ->
      lookup_pte s'.(mem) N' v = lookup_pte s.(mem) N v) as Hother.
    { intros v Hv Hv4 Hne. rewrite Hm by done. destruct Hr as [(-> & -> & _)|(-> & ? & -> & _)]; by rewrite decide_False by dlia. }
    assert (readable (lookup_pte s'.(mem) N' va) = false) as Hnr.
    { rewrite Hm by done. unfold readable. case_decide.
      - rewrite (has_mk _ _ PTE_U) by (done || lia || by apply flags_V_range).
        change (has (Z.lor perm PTE_V) PTE_U = false) in HU. rewrite HU. apply andb_false_r.
      - change (has (lookup_pte (mem s) N va) PTE_V = false) in Hinv. by rewrite Hinv. }
    assert (D !! va = None) as HDa by (by eapply as_unmapped).
    destruct Hi as [_ Hva' Hent Hus Hin HsN Hsl]. constructor; try done.
    + intros v p Hd. destruct (Hva' v p Hd) as (? & ? & _). rewrite Hother by (done || congruence). by apply Hent.
    + intros v Hv Hv4 Hrd. destruct (decide (v = va)) as [->|]; [congruence |]. rewrite Hother in Hrd by done. by apply Hus.
    + intros v p k Hd Hk. destruct (g_new _ _ _ _ _ Hg k p Hk) as [Hk'|Hk']; [by eapply HsN |].
      apply (Hsl v p Hd). set_solver + Hk'.
    + intros v p Hd Hin'. apply (Hsl v p Hd). set_solver + Hin'.
  - destruct Hr as [(-> & -> & Hc)|(-> & Hj' & -> & Hc)]; [left | right; assert (j = 0) as -> by lia]; split_and!; try done;
      try lia; intros v Hv Hv4; rewrite Hm by done.
    + destruct (decide (v = va)) as [->|]; [rewrite decide_True by lia; do 2 f_equal; lia | by rewrite decide_False by dlia].
    + by rewrite decide_False by lia.
Qed.

Lemma unmap_special s root N D l va :
  as_inv s root N D l -> 0 <= va < MAXVA -> va mod 4096 = 0 -> D !! va = None ->
  has (lookup_pte s.(mem) N va) PTE_V = true -> PTE_FLAGS (lookup_pte s.(mem) N va) <> PTE_V ->
  exists s', uvmunmap root va 1 false s = Ok tt s' /\ as_inv s' root N D l /\ only_mem s s' /\
    (forall a, (forall k p, N !! k = Some p -> outside a p) -> load8 s'.(mem) a = load8 s.(mem) a) /\
    (forall v, 0 <= v < MAXVA -> v mod 4096 = 0 ->
       lookup_pte s'.(mem) N v = if decide (v = va) then 0 else lookup_pte s.(mem) N v).
Proof.
  intros Hi Hva H4 Hd HV HF. unfold uvmunmap. consts. rewrite H4. cbn [negb Z.eqb]. cbn iota.
  rewrite (u64_small (1 * 4096)), (u64_small (va + 1 * 4096)) by lia. change (Z.to_nat 1) with 1%nat. cbn [uvmunmap_loop].
  destruct (Z.ltb_spec va (va + 1 * 4096)); [|lia].
  destruct (walk_entry s root N va) as (x & E & Hx); [apply Hi | consts; lia |].
  destruct Hx as [(_ & _ & Hz)|(Hx0 & Hx & Hlk)]; [by rewrite Hz in HV |].
  erewrite bind_Ok by exact E. destruct (Z.eqb_spec x 0) as [|_]; [lia |]. erewrite bind_Ok by done. cbv beta. consts.
  rewrite Hlk, HV. cbn [negb]. cbn iota. destruct (Z.eqb_spec (PTE_FLAGS (lookup_pte (mem s) N va)) 1) as [|_]; [done |].
  cbn [when]. erewrite bind_Ok by done. erewrite bind_Ok by done. rewrite u64_small by lia.
  destruct (Z.ltb_spec (va + 4096) (va + 1 * 4096)); [lia |].
  destruct (pt_store s root N l va x 0) as (Hpt & Hg & Hl); [apply Hi | done | consts; lia | done |].
  eexists. split; [done |]. set (s' := set_mem _ s) in *. change (u64 0) with 0 in Hl. split_and!; [|apply Hg | |done].
  - destruct Hi as [_ Hva' Hent Hus Hin HsN Hsl]. constructor; try done.
    + intros v p Hdv. destruct (Hva' v p Hdv) as (? & ? & _). rewrite Hl, decide_False by (done || congruence). by apply Hent.
    + intros v Hv Hv4. rewrite Hl by done. case_decide; [done |]. by apply Hus.
  - intros a Ha. apply (g_frame _ _ _ _ _ Hg); [done | set_solver +].
Qed.

(** ** The page table of a process *)

Definition tramp_pte : Z := Z.lor (PA2PTE trampoline) (Z.lor (Z.lor PTE_R PTE_X) PTE_V).
Definition tf_pte (tf : Z) : Z := Z.lor (PA2PTE tf) (Z.lor (Z.lor PTE_R PTE_W) PTE_V).

(** Besides the user pages [D], exactly the trampoline and the trapframe are mapped. *)
Definition proc_table m N D (tf : Z) : Prop :=
  D !! TRAMPOLINE = None /\ D !! TRAPFRAME = None /\
  forall va, 0 <= va < MAXVA -> va mod 4096 = 0 -> D !! va = None ->
    if decide (va = TRAMPOLINE) then lookup_pte m N va = tramp_pte
    else if decide (va = TRAPFRAME) then lookup_pte m N va = tf_pte tf
    else has (lookup_pte m N va) PTE_V = false.

Lemma tramp_56 : 0 <= trampoline < 2 ^ 56.
Proof. pose proof trampoline_range. pose proof end_range. unfold KERNBASE, PHYSTOP, KERNBASE in *. lia. Qed.

Lemma special_va : (0 <= TRAMPOLINE < MAXVA /\ TRAMPOLINE mod 4096 = 0) /\
  (0 <= TRAPFRAME < MAXVA /\ TRAPFRAME mod 4096 = 0) /\ TRAPFRAME <> TRAMPOLINE.
Proof. repeat split; vm_compute; congruence. Qed.

Lemma special_pte pa f : 0 <= pa < 2 ^ 56 -> 0 <= f < 1024 -> has f PTE_V = true -> f <> PTE_V ->
  has (Z.lor (PA2PTE pa) f) PTE_V = true /\ PTE_FLAGS (Z.lor (PA2PTE pa) f) <> PTE_V.
Proof. intros. rewrite has_mk, PTE_FLAGS_mk_pte by (done || consts; lia). done. Qed.

(** Pages that left the free list are tables of the new tree. *)
Lemma owned_grow s s' N N' D l1 l2 q : grows s s' N N' l1 -> owned N D (l1 ++ l2) q <-> owned N' D l2 q.
Proof.
  intros [_ Hsub Hnew Hused _]. unfold owned. rewrite elem_of_app. split.
  - intros [[Hq|?]|[[k Hk]|?]]; [right; left; eauto | tauto | right; left; exists k; by eapply lookup_weaken | tauto].
  - intros [?|[[k Hk]|?]]; [tauto | destruct (Hnew k q Hk); eauto | tauto].
Qed.

Lemma grows_outside s s' N N' D l1 l2 a :
  grows s s' N N' l1 -> (forall q, owned N D (l1 ++ l2) q -> outside a q) -> load8 s'.(mem) a = load8 s.(mem) a.
Proof.
  intros Hg Ha. apply (g_frame _ _ _ _ _ Hg).
  - intros k q Hk. apply Ha. right; left; eauto.
  - intros q Hq. apply Ha. left. set_solver + Hq.
Qed.

(** An empty space: nothing but the root. *)
Lemma empty_only_user s N : (forall va, 0 <= va < MAXVA -> va mod 4096 = 0 -> has (lookup_pte s.(mem) N va) PTE_V = false) ->
  only_user s N ∅ 0.
Proof.
  intros Hno. change (only_user s N ∅ 0) with
    (all_mapped ∅ 0 0 /\ (forall va pa, (∅ : gmap Z Z) !! va = Some pa -> va < 0) /\
     (forall va, 0 <= va < MAXVA -> va mod 4096 = 0 -> 0 <= va -> has (lookup_pte s.(mem) N va) PTE_V = false)).
  split_and!; [intros va ?; lia | intros va pa; by rewrite lookup_empty | auto].
Qed.

Lemma owned_root p l q : owned {[ [] := p ]} ∅ l q <-> q ∈ p :: l.
Proof.
  unfold owned. rewrite elem_of_cons. split.
  - intros [?|[[k Hk%lookup_singleton_Some]|[va Hd]]]; [tauto | left; naive_solver | by rewrite lookup_empty in Hd].
  - intros [->|?]; [right; left; exists []; apply lookup_singleton_eq | tauto].
Qed.

(** The outcome of proc_pagetable(): a table, or no table and no page lost. *)
Definition pagetable_post s l (tf r : Z) s' : Prop :=
  only_mem s s' /\ (forall a, (forall q, q ∈ l -> outside a q) -> load8 s'.(mem) a = load8 s.(mem) a) /\
  ((r <> 0 /\ exists N l', as_inv s' r N ∅ l' /\ proc_table s'.(mem) N ∅ tf /\
      (length l <= length l' + 5)%nat /\ forall q, q ∈ l <-> owned N ∅ l' q) \/
   (r = 0 /\ (length l < 5)%nat /\ exists l', kmem_inv s' l' /\ forall q, q ∈ l' <-> q ∈ l)).

(** uvmfree(pagetable, 0) on the failure paths. *)
Lemma pagetable_fail s s1 N root l l1 tf :
  as_inv s1 root N ∅ l1 -> only_mem s s1 -> (forall q, q ∈ l <-> owned N ∅ l1 q) ->
  (forall a, (forall q, q ∈ l -> outside a q) -> load8 s1.(mem) a = load8 s.(mem) a) ->
  (forall va, 0 <= va < MAXVA -> va mod 4096 = 0 -> has (lookup_pte s1.(mem) N va) PTE_V = false) ->
  (length l < 5)%nat ->
  exists s2, uvmfree root 0 s1 = Ok tt s2 /\ pagetable_post s l tf 0 s2.
Proof.
  intros Hi Ho Hl Hx Hno Hc. destruct (uvmfree_run s1 root N ∅ l1 0) as (s2 & l2 & E2 & [K2 O2 Q2 F2]).
  - done.
  - consts. lia.
  - by apply empty_only_user.
  - exists s2. split; [done |]. split_and!; [by eapply only_mem_trans | |].
    + intros a Ha. rewrite F2; [by apply Hx |]. intros q Hq. apply Ha, Hl. unfold owned in *. set_solver + Hq.
    + right. split; [done |]. split; [done |]. exists l2. split; [done |]. intros q. by rewrite Q2, Hl.
Qed.

Lemma proc_pagetable_run s l i p :
  kmem_inv s l -> LkKmem ∉ s.(held) -> s.(procs) !! i = Some p -> page_ok p.(p_trapframe) ->
  exists r s', proc_pagetable i s = Ok r s' /\ pagetable_post s l p.(p_trapframe) r s'.
Proof.
  intros Hkm Hlk Hp Htf. unfold proc_pagetable. pose proof (uvmcreate_run s l Hkm Hlk) as Hc.
  destruct special_va as ([Hv1 Hv14] & [Hv2 Hv24] & Hv12).
  destruct l as [|root l].
  { erewrite bind_Ok by exact Hc. cbn [Z.eqb]. exists 0, s. split; [done |]. split_and!; auto using only_mem_refl.
    right. split; [done |]. split; [simpl; lia |]. by exists []. }
  destruct Hc as (s1 & E1 & Hr0 & Hrp & Hi1 & Ho1 & Hx1). erewrite bind_Ok by exact E1.
  destruct (Z.eqb_spec root 0) as [|_]; [done |].
  assert (forall a, (forall q, q ∈ root :: l -> outside a q) -> load8 s1.(mem) a = load8 s.(mem) a) as Hf1
    by (intros a Ha; apply Hx1, Ha; set_solver +).
  destruct (map_special s1 root {[ [] := root ]} ∅ l TRAMPOLINE trampoline (Z.lor PTE_R PTE_X))
    as (r2 & s2 & N2 & u2 & l2 & E2 & -> & Hg2 & Hi2 & Hc2 & Hr2);
    [done | done | done | apply tramp_56 | done | done | by rewrite lookup_root_only |].
  erewrite bind_Ok by exact E2.
  assert (only_mem s s2) as Ho2 by (eapply only_mem_trans; [exact Ho1 | apply Hg2]).
  assert (forall q, q ∈ root :: u2 ++ l2 <-> owned N2 ∅ l2 q) as Hl2
    by (intros q; rewrite <- owned_root; by eapply owned_grow).
  assert (forall a, (forall q, q ∈ root :: u2 ++ l2 -> outside a q) -> load8 s2.(mem) a = load8 s.(mem) a) as Hf2.
  { intros a Ha. rewrite (grows_outside _ _ _ _ ∅ _ l2 _ Hg2); [by apply Hf1 |]. intros q Hq. apply Ha. by apply owned_root. }
  destruct Hr2 as [[-> Hk2]|(-> & -> & _ & Hk2)]; cbn [Z.ltb Z.compare].
  2: { destruct (pagetable_fail s s2 N2 root (root :: u2 ++ []) [] p.(p_trapframe)) as (s3 & E3 & Hpost); try done.
       - intros va Hva H4. by rewrite Hk2, lookup_root_only by done.
       - simpl. rewrite length_app. simpl. lia.
       - erewrite bind_Ok by exact E3. by exists 0, s3. }
  assert (s2.(procs) !! i = Some p) as Hp2 by (unfold only_mem in Ho2; rewrite Ho2; done).
  rewrite (bind_Ok _ _ s2 p s2) by (by apply get_proc_Ok).
  destruct (map_special s2 root N2 ∅ l2 TRAPFRAME p.(p_trapframe) (Z.lor PTE_R PTE_W))
    as (r3 & s3 & N3 & u3 & l3 & E3 & -> & Hg3 & Hi3 & Hc3 & Hr3);
    [done | done | done | by apply page_56 | done | done | by rewrite Hk2, decide_False, lookup_root_only by done |].
  erewrite bind_Ok by exact E3.
  assert (only_mem s s3) as Ho3 by (eapply only_mem_trans; [exact Ho2 | apply Hg3]).
  assert (forall q, q ∈ root :: u2 ++ u3 ++ l3 <-> owned N3 ∅ l3 q) as Hl3
    by (intros q; rewrite Hl2; by eapply owned_grow).
  assert (forall a, (forall q, q ∈ root :: u2 ++ u3 ++ l3 -> outside a q) -> load8 s3.(mem) a = load8 s.(mem) a) as Hf3.
  { intros a Ha. rewrite (grows_outside _ _ _ _ ∅ _ l3 _ Hg3); [by apply Hf2 |]. intros q Hq. apply Ha. by apply Hl2. }
  destruct Hr3 as [[-> Hk3]|(-> & -> & Hc4 & Hk3)]; cbn [Z.ltb Z.compare].
  - exists root, s3. split; [done |]. split_and!; [done | done | left]. split; [done |]. exists N3, l3. split_and!; [done | | simpl; rewrite !length_app; lia | done].
    split_and!; [done | done |]. intros va Hva H4 _. rewrite Hk3 by done. destruct (decide (va = TRAMPOLINE)) as [->|].
    + rewrite decide_False by done. by rewrite Hk2, decide_True by done.
    + case_decide; [done |]. by rewrite Hk2, decide_False, lookup_root_only by done.
  - assert (lookup_pte s3.(mem) N3 TRAMPOLINE = tramp_pte) as Etr by (by rewrite Hk3, Hk2, decide_True by done).
    destruct (special_pte trampoline (Z.lor (Z.lor PTE_R PTE_X) PTE_V) tramp_56) as [HV HF]; [done.. |].
    destruct (unmap_special s3 root N3 ∅ [] TRAMPOLINE) as (s4 & E4 & Hi4 & Ho4 & Hx4 & Hk4);
      [done | done | done | done | by rewrite Etr | by rewrite Etr |].
    erewrite bind_Ok by exact E4.
    destruct (pagetable_fail s s4 N3 root (root :: u2 ++ u3 ++ []) [] p.(p_trapframe)) as (s5 & E5 & Hpost); try done.
    + by eapply only_mem_trans.
    + intros a Ha. rewrite Hx4; [by apply Hf3 |]. intros k q Hk. apply Ha, Hl3. right; left; eauto.
    + intros va Hva H4. rewrite Hk4 by done. case_decide; [done |].
      by rewrite Hk3, Hk2, decide_False, lookup_root_only by done.
    + simpl. rewrite !length_app. simpl. lia.
    + erewrite bind_Ok by exact E5. by exists 0, s5.
Qed.

(** The user pages of a process of size [sz]. *)
Definition user_pages D (sz : Z) : Prop :=
  all_mapped D 0 (PGROUNDUP sz) /\ forall va pa, D !! va = Some pa -> va < PGROUNDUP sz.

Lemma proc_freepagetable_run s pt N D l tf sz :
  as_inv s pt N D l -> proc_table s.(mem) N D tf -> user_pages D sz -> 0 <= tf < 2 ^ 56 -> 0 <= sz <= TRAPFRAME ->
  exists s' l', proc_freepagetable pt sz s = Ok tt s' /\ released s s' N D l l'.
Proof.
  intros Hi (HD1 & HD2 & Htab) (Hall & Hbelow) Htf Hsz. unfold proc_freepagetable.
  destruct special_va as ([Hv1 Hv14] & [Hv2 Hv24] & Hv12).
  pose proof (Htab TRAMPOLINE Hv1 Hv14 HD1) as E1. rewrite decide_True in E1 by done.
  pose proof (Htab TRAPFRAME Hv2 Hv24 HD2) as E2. rewrite decide_False, decide_True in E2 by done.
  destruct (special_pte trampoline (Z.lor (Z.lor PTE_R PTE_X) PTE_V) tramp_56) as [HV1 HF1]; [done.. |].
  destruct (special_pte tf (Z.lor (Z.lor PTE_R PTE_W) PTE_V) Htf) as [HV2 HF2]; [done.. |].
  destruct (unmap_special s pt N D l TRAMPOLINE) as (s1 & R1 & Hi1 & Ho1 & Hx1 & Hk1); try done; [by rewrite E1.. |].
  destruct (unmap_special s1 pt N D l TRAPFRAME) as (s2 & R2 & Hi2 & Ho2 & Hx2 & Hk2); try done;
    [by rewrite Hk1, decide_False, E2 by done.. |].
  erewrite bind_Ok by exact R1. erewrite bind_Ok by exact R2.
  assert (0 <= sz <= MAXVA) as Hszm by (unfold TRAPFRAME, TRAMPOLINE in Hsz; consts; lia).
  destruct (uvmfree_run s2 pt N D l sz) as (s3 & l3 & R3 & [K3 O3 Q3 F3]); [done | done | |].
  { split_and!; [done | done |]. intros va Hva Hva4 Hge. rewrite Hk2 by done. case_decide; [done |].
    rewrite Hk1 by done. case_decide; [done |].
    assert (D !! va = None) as Hd by (destruct (D !! va) eqn:Ed; [apply Hbelow in Ed; lia | done]).
    specialize (Htab va Hva Hva4 Hd). by rewrite !decide_False in Htab by done. }
  exists s3, l3. split; [done |]. constructor; try done.
  - eapply only_mem_trans; [exact Ho1 |]. by eapply only_mem_trans.
  - intros a Ha. rewrite F3, Hx2, Hx1; [done | | | done]; intros k q Hk; apply Ha; right; left; eauto.
Qed.
End procvm.
