(* ===== verification/Kvm.v ===== *)
(** * The kernel's page table (kernel/vm.c: kvmmake)

    kvmmake() maps the devices, the kernel text, the rest of RAM, the trampoline and a
    stack for each process.  [kernel_map] says what the table it returns must hold; the
    theorems show that with enough free pages kvmmake() returns such a table, that no page
    of it is both writable and executable, and that the stacks have guard pages. *)

From S2P Require Import Prelude State Mem Riscv Kalloc Vm PageTable Uvm UvmAlloc UvmFree Sched Proc ProcVm.

(** kernel.ld: the text ends on a page boundary, after the trampoline page. *)
Class Text `{Symbols} := {
  etext : Z;
  etext_page : etext mod 4096 = 0;
  etext_range : trampoline + 4096 <= etext <= end_;
}.

Section kvm.
Context `{Text}.

Definition RW : Z := Z.lor PTE_R PTE_W.
Definition RX : Z := Z.lor PTE_R PTE_X.

Definition kvmmake : M kernel Z :=
  kpgtbl ← kalloc;
  modify (fun s => set_mem (memset s.(mem) kpgtbl 0 PGSIZE) s);;
  kvmmap kpgtbl UART0 UART0 PGSIZE (Z.lor PTE_R PTE_W);;
  kvmmap kpgtbl VIRTIO0 VIRTIO0 PGSIZE (Z.lor PTE_R PTE_W);;
  kvmmap kpgtbl PLIC PLIC 0x4000000 (Z.lor PTE_R PTE_W);;
  kvmmap kpgtbl KERNBASE KERNBASE (etext - KERNBASE) (Z.lor PTE_R PTE_X);;
  kvmmap kpgtbl etext etext (PHYSTOP - etext) (Z.lor PTE_R PTE_W);;
  kvmmap kpgtbl TRAMPOLINE trampoline PGSIZE (Z.lor PTE_R PTE_X);;
  proc_mapstacks kpgtbl;;
  mret kpgtbl.

Implicit Types (N : gmap (list Z) Z) (m : gmap Z Z) (s : kernel) (l : list Z).

(** ** Regions *)

(** [rg_n] pages from [rg_va], mapped to the pages from [rg_pa]. *)
Record region := mkRegion { rg_va : Z; rg_size : Z; rg_pa : Z; rg_perm : Z }.

Definition rg_in (va : Z) (r : region) : Prop := r.(rg_va) <= va < r.(rg_va) + r.(rg_size).
#[global] Instance rg_in_dec va r : Decision (rg_in va r).
Proof. unfold rg_in. apply _. Defined.
Definition rg_pte (va : Z) (r : region) : Z := Z.lor (PA2PTE (r.(rg_pa) + (va - r.(rg_va)))) (Z.lor r.(rg_perm) PTE_V).

(** The entry of [va] in a table of these regions. *)
Fixpoint pte_of (R : list region) (va : Z) : Z :=
  match R with [] => 0 | r :: R' => if decide (rg_in va r) then rg_pte va r else pte_of R' va end.

Definition rg_ok (r : region) : Prop :=
  0 <= r.(rg_va) /\ r.(rg_va) mod 4096 = 0 /\ 0 < r.(rg_size) /\ r.(rg_size) mod 4096 = 0 /\ r.(rg_va) + r.(rg_size) <= MAXVA /\
  0 <= r.(rg_pa) /\ r.(rg_pa) + r.(rg_size) <= 2 ^ 56 /\ 0 <= r.(rg_perm) < 1024.
Definition rg_apart (r r' : region) : Prop := r.(rg_va) + r.(rg_size) <= r'.(rg_va) \/ r'.(rg_va) + r'.(rg_size) <= r.(rg_va).

Lemma pte_of_none R va : (forall r, r ∈ R -> ~ rg_in va r) -> pte_of R va = 0.
Proof. induction R as [|r R IH]; intros Hn; [done |]. cbn. rewrite decide_False by (apply Hn; set_solver +). apply IH. set_solver. Qed.

Lemma pte_of_snoc R r va : (forall r', r' ∈ R -> rg_apart r r') -> pte_of (R ++ [r]) va = if decide (rg_in va r) then rg_pte va r else pte_of R va.
Proof.
  induction R as [|r' R IH]; intros Ha; cbn [app pte_of]; [done |]. rewrite IH by set_solver. repeat case_decide; try done.
  specialize (Ha r' ltac:(set_solver +)). unfold rg_apart, rg_in in *. lia.
Qed.

(** ** The tables a range needs *)

(** Two for each 2 MB the range touches. *)
Definition tables_for (va size : Z) : list (list Z) :=
  concat ((fun i => let v := (va / 2 ^ 21 + Z.of_nat i) * 2 ^ 21 in [[PX 2 v]; [PX 2 v; PX 1 v]]) <$> seq 0 (Z.to_nat ((size - 1) / 2 ^ 21 + 2))).
Definition cost (size : Z) : nat := (2 * Z.to_nat ((size - 1) / 2 ^ 21 + 2))%nat.

Lemma length_tables_for va size : length (tables_for va size) = cost size.
Proof.
  unfold tables_for, cost. induction (Z.to_nat ((size - 1) / 2 ^ 21 + 2)) as [|n IH]; [done |]. rewrite seq_S, fmap_app, concat_app, length_app, IH. cbn. lia.
Qed.

Lemma table_of_for va size v k : 0 <= va -> va <= v < va + size -> table_of v k -> k ∈ tables_for va size.
Proof.
  intros Hva Hv Hk. set (i := Z.to_nat (v / 2 ^ 21 - va / 2 ^ 21)). unfold tables_for. apply list_elem_of_In, in_concat.
  exists ((fun i => let v := (va / 2 ^ 21 + Z.of_nat i) * 2 ^ 21 in [[PX 2 v]; [PX 2 v; PX 1 v]]) i). split.
  - apply list_elem_of_In, list_elem_of_fmap. exists i. split; [done |]. apply elem_of_seq. unfold i. split; [lia |]. change (2 ^ 21) with 2097152. dlia.
  - cbv beta zeta. assert ((va / 2 ^ 21 + Z.of_nat i) * 2 ^ 21 = v / 2 ^ 21 * 2 ^ 21) as -> by (unfold i; change (2 ^ 21) with 2097152; dlia).
    assert (PX 2 (v / 2 ^ 21 * 2 ^ 21) = PX 2 v /\ PX 1 (v / 2 ^ 21 * 2 ^ 21) = PX 1 v) as [-> ->].
    { rewrite !PX_eq by lia. change (2 ^ (12 + 9 * 2)) with 1073741824. change (2 ^ (12 + 9 * 1)) with 2097152. change (2 ^ 21) with 2097152. dlia. }
    apply list_elem_of_In. destruct Hk as [-> | ->]; set_solver +.
Qed.

(** The pages mappages() takes from the free list. *)
Lemma used_cost s s' root N N' used rest va size : pt_inv s root N (used ++ rest) -> grows s s' N N' used -> 0 <= va ->
  new_on N N' (fun k => exists v, va <= v < va + size /\ table_of v k) -> (length used <= cost size)%nat.
Proof.
  intros Hi Hg Hva Hnew. rewrite <- (length_tables_for va size). assert (used ⊆ omap (fun k => N' !! k) (tables_for va size)) as Hsub.
  { intros p Hp. destruct (g_used _ _ _ _ _ Hg p Hp) as [k Hk]. apply list_elem_of_omap. exists k. split; [|done].
    destruct (N !! k) as [q|] eqn:En; [exfalso; pose proof (lookup_weaken _ _ _ _ En (g_sub _ _ _ _ _ Hg)) as E; rewrite Hk in E; injection E as <-; apply (pi_sep _ _ _ _ Hi k p En); set_solver |].
    destruct (Hnew k ltac:(by eexists) En) as (v & Hv & Ht). by eapply table_of_for. }
  destruct (pi_kmem _ _ _ _ Hi) as [_ Hnd]. apply NoDup_app in Hnd as (Hnd & _ & _).
  etrans; [apply submseteq_length, NoDup_submseteq; [exact Hnd | exact Hsub] |]. clear. induction (tables_for va size) as [|k K IH]; [done |]. cbn. destruct (N' !! k); cbn; lia.
Qed.

(** ** Adding a region *)

Record ktable s root N l (R : list region) : Prop := {
  kt_inv : pt_inv s root N l;
  kt_map va : 0 <= va < MAXVA -> va mod 4096 = 0 -> lookup_pte s.(mem) N va = pte_of R va;
}.

Lemma kvmmap_run s root N l R r : ktable s root N l R -> rg_ok r -> (forall r', r' ∈ R -> rg_apart r r') -> (cost r.(rg_size) < length l)%nat ->
  exists s' N' used rest, kvmmap root r.(rg_va) r.(rg_pa) r.(rg_size) r.(rg_perm) s = Ok tt s' /\ l = used ++ rest /\ (length used <= cost r.(rg_size))%nat /\
    grows s s' N N' used /\ ktable s' root N' rest (R ++ [r]).
Proof.
  intros [Hi Hm] (R1 & R2 & R3 & R4 & R5 & R6 & R7 & R8) Ha Hc.
  destruct (mappages_run s root N l r.(rg_va) r.(rg_size) r.(rg_pa) r.(rg_perm)) as (res & s' & N' & used & rest & j & E & -> & Hi' & Hg & Hmp & Hnew & Hres); try done.
  { intros v Hv Hv4. rewrite Hm by (done || lia). rewrite pte_of_none; [done |]. intros r' Hr' Hin. specialize (Ha r' Hr'). unfold rg_in, rg_apart in *. lia. }
  pose proof (used_cost _ _ _ _ _ _ _ _ _ Hi Hg R1 Hnew) as Hu. exists s', N', used, rest. destruct Hres as [[-> ->]|(_ & _ & -> & _)]; [|rewrite app_nil_r in Hc; lia].
  split_and!; try done; [unfold kvmmap; by erewrite bind_Ok by exact E |]. constructor; [done |]. intros va Hva Hva4. rewrite Hmp, Hm, pte_of_snoc by done. unfold rg_in, rg_pte.
  replace (r.(rg_va) + 4096 * (r.(rg_size) / 4096)) with (r.(rg_va) + r.(rg_size)) by dlia. done.
Qed.

(** A page taken from the free list for something else. *)
Lemma ktable_kalloc s root N p l R : ktable s root N (p :: l) R -> exists s', kalloc s = Ok p s' /\ ktable s' root N l R /\ page_ok p /\ p ∉ l /\ (forall k, N !! k <> Some p) /\ only_mem s s' /\
  forall a, outside a p -> load8 s'.(mem) a = load8 s.(mem) a.
Proof.
  intros [[Hw Hkm Hlk Hsep] Hm]. destruct (kalloc_spec s (p :: l) Hkm Hlk) as (s1 & E1 & Hkm1 & Es1). exists s1. assert (page_ok p) as Hp by (eapply free_page_ok; [exact Hkm | set_solver +]).
  assert (forall a, outside a p -> load8 s1.(mem) a = load8 s.(mem) a) as Hout by (intros a Ha; rewrite Es1; cbn; by apply memset_outside).
  assert (forall k, N !! k <> Some p) as Hnp by (intros k Hk; apply (Hsep k p Hk); set_solver +).
  assert (only_mem s s1) as Ho by (rewrite Es1; unfold only_mem; reflexivity).
  assert (forall k q, N !! k = Some q -> agree s.(mem) s1.(mem) q (q + 4096)) as Hag.
  { intros k q Hq a Ha. apply Hout. eapply outside_pages; [apply Hp | apply (wf_page _ _ _ Hw k q Hq) | | exact Ha]. intros <-. by eapply Hnp. }
  split_and!; try done; [|destruct Hkm as [_ Hnd]; by apply NoDup_cons in Hnd as [? _]].
  constructor; [constructor; [by eapply pt_wf_agree | done | by rewrite (only_mem_held s) |] |].
  - intros k q Hq Hin. apply (Hsep k q Hq). set_solver.
  - intros va Hva Hva4. rewrite (lookup_agree s.(mem) s1.(mem) root N va Hw Hag). by apply Hm.
Qed.

(** ** proc_mapstacks() *)

Definition stack_region (i : nat) (pa : Z) : region := mkRegion (KSTACK (Z.of_nat i)) PGSIZE pa RW.

(** The stacks are apart from a region below them, and from each other. *)
Lemma stack_apart i j p q : i <> j -> rg_apart (stack_region i p) (stack_region j q).
Proof. unfold rg_apart, stack_region, KSTACK. cbn [rg_va rg_size]. consts. lia. Qed.

Lemma stack_ok i p : (i < NPROC)%nat -> page_ok p -> rg_ok (stack_region i p).
Proof.
  intros Hi Hp. pose proof (page_pos p Hp) as Hpos. pose proof (proj1 Hp) as Hp4. unfold NPROC in Hi. unfold rg_ok, stack_region, RW. cbn [rg_va rg_size rg_pa rg_perm]. change (Z.lor PTE_R PTE_W) with 6.
  change MAXVA with (2 ^ 38). unfold KSTACK, TRAMPOLINE. change MAXVA with (2 ^ 38). consts. split_and!; try lia; try done. change (2 ^ 38) with (4096 * 67108864). 
  replace (4096 * 67108864 - 4096 - (Z.of_nat i + 1) * 2 * 4096) with ((67108864 - 1 - (Z.of_nat i + 1) * 2) * 4096) by lia. apply Z.mod_mul. lia.
Qed.

Record stacks_at s root (R0 : list region) l0 (i : nat) (stacks : list Z) N l : Prop := {
  sa_table : ktable s root N l (R0 ++ imap stack_region stacks);
  sa_length : length stacks = i;
  sa_nodup : NoDup stacks;
  sa_page p : p ∈ stacks -> page_ok p /\ p ∉ l /\ forall k, N !! k <> Some p;
  sa_left : (length l0 <= length l + 5 * i)%nat;
  sa_sub : l ⊆ l0;
}.

Lemma mapstacks_run s root N l R0 : ktable s root N l R0 -> (5 * NPROC < length l)%nat ->
  (forall r i p, r ∈ R0 -> (i < NPROC)%nat -> rg_apart (stack_region i p) r) ->
  exists s' N' stacks rest, proc_mapstacks root s = Ok tt s' /\ only_mem s s' /\ stacks_at s' root R0 l NPROC stacks N' rest.
Proof.
  intros Hk Hl Hap. enough (wp (proc_mapstacks root) (fun _ s' => only_mem s s' /\ exists stacks N' rest, stacks_at s' root R0 l NPROC stacks N' rest) s) as Hw.
  { destruct (wp_inv _ _ _ Hw) as ([] & s' & E & Ho & stacks & N' & rest & Hs). by exists s', N', stacks, rest. }
  unfold proc_mapstacks. apply wp_for_range with (I := fun i s' => only_mem s s' /\ exists stacks N' rest, stacks_at s' root R0 l i stacks N' rest).
  - split; [apply only_mem_refl |]. exists [], N, l. constructor; [by rewrite app_nil_r | done | constructor | set_solver | lia | done].
  - intros i s1 Hi (Ho & stacks & N1 & rest & [Ht Hlen Hnd Hpg Hleft Hsub]). destruct rest as [|p rest]; [cbn in Hleft; unfold NPROC in *; lia |].
    destruct (ktable_kalloc s1 root N1 p rest _ Ht) as (s2 & E & Ht2 & Hp & Hpr & Hpn & Ho2 & _). pose proof (page_pos p Hp) as Hpos.
    destruct (kvmmap_run s2 root N1 rest _ (stack_region i p) Ht2) as (s3 & N3 & used & rest' & E3 & -> & Hu & Hg & Ht3).
    { apply stack_ok; [lia | done]. }
    { intros r' [Hr'|(j & q & -> & Hq)%elem_of_lookup_imap_1]%elem_of_app; [apply Hap; [done | lia] |]. apply stack_apart. apply lookup_lt_Some in Hq. lia. }
    { cbn [rg_size stack_region]. change (cost PGSIZE) with 4%nat. cbn in Hleft. unfold NPROC in *. lia. }
    change (cost (rg_size (stack_region i p))) with 4%nat in Hu. unfold wp. erewrite bind_Ok by exact E. destruct (Z.eqb_spec p 0); [lia |]. cbn [stack_region rg_va rg_pa rg_size rg_perm] in E3. unfold RW in E3. rewrite E3.
    split; [eapply only_mem_trans; [exact Ho |]; eapply only_mem_trans; [exact Ho2 | apply Hg] |]. exists (stacks ++ [p]), N3, rest'. constructor.
    + rewrite imap_app. cbn. rewrite Nat.add_0_r, Hlen, app_assoc. done.
    + rewrite length_app, Hlen. done.
    + apply NoDup_app. split_and!; [done | | apply NoDup_singleton]. intros q Hq ->%list_elem_of_singleton. destruct (Hpg p Hq) as (_ & Hni & _). set_solver.
    + intros q [Hq| ->%list_elem_of_singleton]%elem_of_app.
      * destruct (Hpg q Hq) as (Hq1 & Hq2 & Hq3). split_and!; [done | set_solver |]. intros k Hkq. destruct (g_new _ _ _ _ _ Hg k q Hkq) as [Hk'|Hk']; [by eapply Hq3 | set_solver].
      * split_and!; [done | set_solver |]. intros k Hk'. destruct (g_new _ _ _ _ _ Hg k p Hk') as [Hk''|Hk'']; [by eapply Hpn | set_solver].
    + cbn in Hleft. rewrite length_app in Hleft. lia.
    + set_solver.
  - intros s' [Ho Hs]. split; [done | exact Hs].
Qed.


(** ** kvmmake() *)

Definition kernel_regions (stacks : list Z) : list region :=
  [mkRegion UART0 PGSIZE UART0 RW; mkRegion VIRTIO0 PGSIZE VIRTIO0 RW; mkRegion PLIC 0x4000000 PLIC RW;
   mkRegion KERNBASE (etext - KERNBASE) KERNBASE RX; mkRegion etext (PHYSTOP - etext) etext RW; mkRegion TRAMPOLINE PGSIZE trampoline RX] ++
  imap stack_region stacks.

Lemma new_root s p l : kmem_inv s (p :: l) -> LkKmem ∉ s.(held) ->
  exists s', (p ← kalloc; modify (fun s => set_mem (memset s.(mem) p 0 PGSIZE) s);; mret p) s = Ok p s' /\ only_mem s s' /\ ktable s' p {[ [] := p ]} l [].
Proof.
  intros Hkm Hlk. destruct (kalloc_spec s (p :: l) Hkm Hlk) as (s1 & E1 & _ & _). destruct (uvmcreate_run s (p :: l) Hkm Hlk) as (s' & E & Hp0 & _ & Hi & Ho & _).
  unfold uvmcreate in E. rewrite (bind_Ok _ _ _ _ _ E1) in E. rewrite (proj2 (Z.eqb_neq p 0) Hp0) in E. exists s'. split_and!; [by erewrite bind_Ok by exact E1 | done |].
  constructor; [apply Hi |]. intros va _ _. apply lookup_root_only.
Qed.

(** A kvmmap() in the sequence of kvmmake(). *)
Lemma kvmmap_seq {A} s0 s root N l R r need (k : M kernel A) (Q : A -> kernel -> Prop) : only_mem s0 s -> ktable s root N l R -> rg_ok r -> (forall r', r' ∈ R -> rg_apart r r') ->
  (cost r.(rg_size) + need < length l)%nat ->
  (forall s' N' l', only_mem s0 s' -> ktable s' root N' l' (R ++ [r]) -> (need < length l')%nat -> l' ⊆ l -> wp k Q s') ->
  wp (kvmmap root r.(rg_va) r.(rg_pa) r.(rg_size) r.(rg_perm);; k) Q s.
Proof.
  intros Ho Ht Hr Ha Hc Hk. destruct (kvmmap_run s root N l R r Ht Hr Ha) as (s' & N' & used & rest & E & -> & Hu & Hg & Ht'); [lia |]. unfold wp. erewrite bind_Ok by exact E.
  apply (Hk s' N' rest); [eapply only_mem_trans; [exact Ho | apply Hg] | done | rewrite length_app in Hc; lia | set_solver].
Qed.

Lemma text_facts : KERNBASE + 4096 <= etext /\ etext + 4096 <= PHYSTOP /\ etext mod 4096 = 0 /\ KERNBASE <= trampoline /\ trampoline + 4096 <= etext /\ trampoline mod 4096 = 0.
Proof.
  pose proof etext_page. pose proof etext_range. pose proof trampoline_range. pose proof trampoline_page. pose proof end_range. unfold PHYSTOP, KERNBASE in *. split_and!; try lia; dlia.
Qed.

(** Side conditions of the regions of kvmmake(). *)
Ltac region_solver :=
  pose proof text_facts; unfold rg_ok, rg_apart, RW, RX, UART0, VIRTIO0, PLIC, PHYSTOP, KERNBASE, TRAMPOLINE in *; cbn [rg_va rg_size rg_pa rg_perm] in *;
  change (Z.lor PTE_R PTE_W) with 6; change (Z.lor PTE_R PTE_X) with 10; change MAXVA with 274877906944 in *; change PGSIZE with 4096 in *; change (2 ^ 56) with 72057594037927936.

Ltac region_ok := region_solver; split_and!; first [lia | done | dlia].
Ltac region_apart := let r' := fresh "r'" in let Hr' := fresh "Hr'" in intros r' Hr'; set_unfold in Hr'; destruct_or! Hr'; subst; region_solver; lia || done.

Lemma cost_bound size : 0 < size <= 134217728 -> (cost size <= 130)%nat.
Proof. intros Hs. unfold cost. change (2 ^ 21) with 2097152. assert ((size - 1) / 2097152 <= 63) by dlia. assert (0 <= (size - 1) / 2097152) by dlia. lia. Qed.

(** [n] pages are left over. *)
Lemma kvmmake_run s l n : kmem_inv s l -> LkKmem ∉ s.(held) -> (700 + n <= length l)%nat ->
  exists root s' N stacks rest, kvmmake s = Ok root s' /\ only_mem s s' /\ ktable s' root N rest (kernel_regions stacks) /\ length stacks = NPROC /\ NoDup stacks /\ (n <= length rest)%nat /\
    (forall p, p ∈ stacks -> page_ok p /\ p ∉ rest /\ forall k, N !! k <> Some p).
Proof.
  intros Hkm Hlk Hlen. destruct l as [|root l]; [cbn in Hlen; lia |]. destruct (new_root s root l Hkm Hlk) as (s1 & E1 & Ho1 & Ht1). cbn [length] in Hlen.
  enough (wp kvmmake (fun r s' => r = root /\ only_mem s s' /\ exists N stacks rest, ktable s' root N rest (kernel_regions stacks) /\ length stacks = NPROC /\ NoDup stacks /\ (n <= length rest)%nat /\
    forall p, p ∈ stacks -> page_ok p /\ p ∉ rest /\ forall k, N !! k <> Some p) s) as Hw.
  { destruct (wp_inv _ _ _ Hw) as (r & s' & E & -> & Ho & N & stacks & rest & Hs). by exists root, s', N, stacks, rest. }
  apply bind_Ok_inv in E1 as (p & s0 & E0 & E1). pose proof text_facts as (T1 & T2 & T3 & T4 & T5 & T6).
  assert (etext - KERNBASE <= 134217728 /\ PHYSTOP - etext <= 134217728) as [B1 B2] by (unfold PHYSTOP, KERNBASE in *; lia).
  apply bind_Ok_inv in E1 as ([] & s2 & E2 & [= -> ->]). unfold kvmmake. apply wp_bind. eapply wp_Ok; [exact E0 |]. apply wp_bind. eapply wp_Ok; [exact E2 |].
  eapply (kvmmap_seq s s1 root _ l [] (mkRegion UART0 PGSIZE UART0 RW) (690 + n)); [done | done | region_ok | set_solver + | change (cost _) with 4%nat; lia |]. clear Ht1. intros s2 N2 l2 Ho2 Ht2 Hl2 _.
  eapply (kvmmap_seq s s2 root _ l2 _ (mkRegion VIRTIO0 PGSIZE VIRTIO0 RW) (680 + n)); [done | done | region_ok | | change (cost _) with 4%nat; lia |].
  { region_apart. }
  clear Ht2. intros s3 N3 l3 Ho3 Ht3 Hl3 _. eapply (kvmmap_seq s s3 root _ l3 _ (mkRegion PLIC 0x4000000 PLIC RW) (610 + n)); [done | done | region_ok | | change (cost _) with 66%nat; lia |].
  { region_apart. }
  clear Ht3. intros s4 N4 l4 Ho4 Ht4 Hl4 _. eapply (kvmmap_seq s s4 root _ l4 _ (mkRegion KERNBASE (etext - KERNBASE) KERNBASE RX) (470 + n)); [done | done | region_ok | | |].
  { region_apart. }
  { assert (cost (etext - KERNBASE) <= 130)%nat by (apply cost_bound; lia). cbn [rg_size]. lia. }
  clear Ht4. intros s5 N5 l5 Ho5 Ht5 Hl5 _. eapply (kvmmap_seq s s5 root _ l5 _ (mkRegion etext (PHYSTOP - etext) etext RW) (330 + n)); [done | done | region_ok | | |].
  { region_apart. }
  { assert (cost (PHYSTOP - etext) <= 130)%nat by (apply cost_bound; lia). cbn [rg_size]. lia. }
  clear Ht5. intros s6 N6 l6 Ho6 Ht6 Hl6 _. eapply (kvmmap_seq s s6 root _ l6 _ (mkRegion TRAMPOLINE PGSIZE trampoline RX) (324 + n)); [done | done | region_ok | | change (cost _) with 4%nat; lia |].
  { region_apart. }
  clear Ht6. intros s7 N7 l7 Ho7 Ht7 Hl7 _. destruct (mapstacks_run s7 root N7 l7 _ Ht7) as (s8 & N8 & stacks & rest & E8 & Ho8 & [Ht8 Hlen8 Hnd8 Hpg8 Hleft8 _]); [unfold NPROC; lia | |].
  { intros r i q Hr' Hi. set_unfold in Hr'. unfold NPROC in Hi. destruct_or! Hr'; subst; unfold stack_region, KSTACK; region_solver; lia || done. }
  apply wp_bind. eapply wp_Ok; [exact E8 |]. apply wp_ret. split_and!; [done | by eapply only_mem_trans |]. exists N8, stacks, rest. split_and!; [done.. | unfold NPROC in *; lia | done].
Qed.

Lemma pte_of_in R va : pte_of R va = 0 /\ (forall r, r ∈ R -> ~ rg_in va r) \/ exists r, r ∈ R /\ rg_in va r /\ pte_of R va = rg_pte va r.
Proof.
  induction R as [|r R IH]; cbn [pte_of]; [left; split; [done | set_solver +] |]. case_decide as Hd; [right; exists r; split_and!; [set_solver + | done | done] |].
  destruct IH as [[E Hn]|(r' & Hr' & Hin & E)]; [left; split; [done |]; intros r' [->|Hr']%elem_of_cons; [done | by apply Hn] | right; exists r'; split_and!; [set_solver | done | done]].
Qed.

(** The regions of the kernel's table. *)
Lemma kernel_region_cases stacks r : r ∈ kernel_regions stacks ->
  r = mkRegion UART0 PGSIZE UART0 RW \/ r = mkRegion VIRTIO0 PGSIZE VIRTIO0 RW \/ r = mkRegion PLIC 0x4000000 PLIC RW \/ r = mkRegion KERNBASE (etext - KERNBASE) KERNBASE RX \/
  r = mkRegion etext (PHYSTOP - etext) etext RW \/ r = mkRegion TRAMPOLINE PGSIZE trampoline RX \/ exists i p, stacks !! i = Some p /\ r = stack_region i p.
Proof.
  unfold kernel_regions. intros [Hr|Hr]%elem_of_app; [set_unfold in Hr; tauto |]. do 6 right. apply elem_of_lookup_imap_1 in Hr as (i & p & -> & Hp). by exists i, p.
Qed.

(** Its entries are valid, not for the user, and writable or executable but not both. *)
Lemma kernel_region_flags stacks r va : length stacks = NPROC -> (forall p, p ∈ stacks -> page_ok p) -> r ∈ kernel_regions stacks -> rg_in va r ->
  (r.(rg_perm) = RW \/ r.(rg_perm) = RX) /\
  forall b, 0 <= b < 1024 -> has (rg_pte va r) b = has (Z.lor r.(rg_perm) PTE_V) b.
Proof.
  intros Hlen Hpg Hr Hin. assert (rg_ok r) as (R1 & R2 & R3 & R4 & R5 & R6 & R7 & R8).
  { apply kernel_region_cases in Hr. destruct_or! Hr; subst; try region_ok. destruct Hr as (i & p & Hp & ->). apply stack_ok; [apply lookup_lt_Some in Hp; lia | by eapply Hpg, list_elem_of_lookup_2]. }
  split_and!.
  - apply kernel_region_cases in Hr. destruct_or! Hr; subst; try (by left); try (by right). destruct Hr as (i & p & _ & ->). by left.
  - intros b Hb. unfold rg_pte. unfold rg_in in Hin. apply has_mk; [lia | by apply flags_V_range | done].
Qed.

Lemma kstack_page i : (i < NPROC)%nat -> KSTACK (Z.of_nat i) mod 4096 = 0 /\ (KSTACK (Z.of_nat i) - PGSIZE) mod 4096 = 0 /\ PGSIZE <= KSTACK (Z.of_nat i) /\ KSTACK (Z.of_nat i) < MAXVA.
Proof. unfold NPROC, KSTACK, TRAMPOLINE. intros Hi. consts. split_and!; try lia; dlia. Qed.

(** The only region around the stack of a process is its page. *)
Lemma stack_page stacks i r va : length stacks = NPROC -> (i < NPROC)%nat -> r ∈ kernel_regions stacks -> rg_in va r -> KSTACK (Z.of_nat i) - PGSIZE <= va < KSTACK (Z.of_nat i) + PGSIZE ->
  r.(rg_perm) = RW /\ KSTACK (Z.of_nat i) <= va.
Proof.
  intros Hns Hi Hr Hin Hva. apply kernel_region_cases in Hr. unfold rg_in, NPROC in *. destruct_or! Hr; subst; try (exfalso; unfold KSTACK in Hva; region_solver; lia).
  destruct Hr as (j & p & Hj & ->). apply lookup_lt_Some in Hj. split; [done |]. unfold stack_region, KSTACK in *. region_solver. lia.
Qed.

(** kvmmake(), given 700 free pages, returns a well-formed table that maps exactly: the registers of the uart, the disk
    and the interrupt controller and all of RAM to themselves, the text of the kernel read-only and executable; the
    trampoline page at the top of the address space; and below it a new page for the stack of each process. It changes
    nothing but the pages it took from the free list. *)
Theorem kvmmake_spec s l : kmem_inv s l -> LkKmem ∉ s.(held) -> (700 <= length l)%nat ->
  exists root s' N stacks rest, kvmmake s = Ok root s' /\ only_mem s s' /\ pt_inv s' root N rest /\
    (forall va, 0 <= va < MAXVA -> va mod 4096 = 0 -> lookup_pte s'.(mem) N va = pte_of (kernel_regions stacks) va) /\
    length stacks = NPROC /\ NoDup stacks /\ (forall p, p ∈ stacks -> page_ok p /\ p ∉ rest /\ forall k, N !! k <> Some p).
Proof.
  intros Hkm Hlk Hlen. destruct (kvmmake_run s l 0 Hkm Hlk) as (root & s' & N & stacks & rest & E & Ho & [Hi Hm] & Hns & Hnd & _ & Hpg); [lia |]. by exists root, s', N, stacks, rest.
Qed.

(** C12. The root that kvmmake() returns is the root of a well-formed tree of page-table pages, [N], in which no page is
    both writable and executable, none is accessible to user programs, the text of the kernel is not writable, the stack
    of each process is mapped writable, and the page below it is not mapped. *)
Theorem kvmmake_protects s l : kmem_inv s l -> LkKmem ∉ s.(held) -> (700 <= length l)%nat ->
  exists root s' N rest, kvmmake s = Ok root s' /\ pt_inv s' root N rest /\
    (forall va, 0 <= va < MAXVA -> va mod 4096 = 0 -> let e := lookup_pte s'.(mem) N va in
      has e PTE_W && has e PTE_X = false /\ has e PTE_U = false /\ (KERNBASE <= va < etext -> has e PTE_V = true /\ has e PTE_W = false)) /\
    forall i, (i < NPROC)%nat -> has (lookup_pte s'.(mem) N (KSTACK (Z.of_nat i) - PGSIZE)) PTE_V = false /\ has (lookup_pte s'.(mem) N (KSTACK (Z.of_nat i))) PTE_W = true.
Proof.
  intros Hkm Hlk Hlen. destruct (kvmmake_run s l 0 Hkm Hlk) as (root & s' & N & stacks & rest & E & Ho & [Hi Hm] & Hns & Hnd & _ & Hpg); [lia |]. exists root, s', N, rest. split; [done |]. split; [done |].
  assert (forall p, p ∈ stacks -> page_ok p) as Hpok by (intros p Hp; by apply Hpg). split.
  - intros va Hva Hva4. cbv zeta. rewrite Hm by done. destruct (pte_of_in (kernel_regions stacks) va) as [[-> Hn]|(r & Hr & Hin & ->)].
    + split_and!; [done | done |]. intros Htx. exfalso. apply (Hn (mkRegion KERNBASE (etext - KERNBASE) KERNBASE RX)); [unfold kernel_regions; set_solver + | unfold rg_in; cbn; lia].
    + destruct (kernel_region_flags stacks r va Hns Hpok Hr Hin) as (Hperm & Hf). rewrite !Hf by (consts; lia). destruct Hperm as [Hp|Hp]; rewrite Hp; split_and!; try done.
      intros Htx. exfalso. apply kernel_region_cases in Hr. unfold rg_in in Hin. pose proof text_facts. unfold NPROC in Hns. destruct_or! Hr; subst; cbn [rg_va rg_size rg_perm] in *; try done; try (region_solver; lia).
      destruct Hr as (i & p & Hi' & ->). apply lookup_lt_Some in Hi'. unfold stack_region, KSTACK in Hin. region_solver. lia.
  - intros i Hi'. assert (exists p, stacks !! i = Some p) as [p Hp] by (apply lookup_lt_is_Some_2; lia). destruct (kstack_page i Hi') as (K1 & K2 & K3 & K4). assert (0 < PGSIZE) by done. split.
    + rewrite Hm by (try done; lia). rewrite pte_of_none; [done |]. intros r Hr Hin. destruct (stack_page stacks i r _ Hns Hi' Hr Hin) as [_ Hge]; lia.
    + rewrite Hm by (try done; lia). destruct (pte_of_in (kernel_regions stacks) (KSTACK (Z.of_nat i))) as [[_ Hn]|(r & Hr & Hin & ->)].
      * exfalso. apply (Hn (stack_region i p)); [|unfold rg_in, stack_region; cbn; consts; lia]. unfold kernel_regions. apply elem_of_app. right. by eapply elem_of_lookup_imap_2.
      * destruct (kernel_region_flags stacks r _ Hns Hpok Hr Hin) as (_ & Hf). rewrite Hf by (consts; lia). destruct (stack_page stacks i r _ Hns Hi' Hr Hin) as [-> _]; [lia | done].
Qed.
End kvm.
