(* ===== verification/Board.v ===== *)
(** * The machine around the kernel (kernel/riscv.h, kernel/start.c, kernel/uart.c, kernel/plic.c)

    A [board] is the kernel's variables, the registers of the hart that runs and the
    accesses to device registers so far.  What a device answers to a read is a parameter,
    a function of the accesses before.  The file has the accessors of the control registers,
    start(), which every hart runs first, in machine mode, and the set-up of the uart and of
    the interrupt controller. *)

From S2P Require Import Prelude State Mem Riscv Kalloc Kvm.

(** Control registers, and the general registers the C code reads. *)
Inductive csr := Cmhartid | Cmstatus | Cmepc | Cmip | Cmie | Csepc | Cmedeleg | Cmideleg | Cstvec | Cstimecmp | Cmenvcfg | Cpmpcfg0 | Cpmpaddr0 | Csatp | Cscause | Cstval | Cmcounteren | Ctime | Csp | Ctp | Cra.
#[export] Instance csr_eq_dec : EqDecision csr.
Proof. solve_decision. Defined.
#[export] Instance csr_countable : Countable csr.
Proof.
  refine (inj_countable' (fun c => match c with Cmhartid => 0%nat | Cmstatus => 1%nat | Cmepc => 2%nat | Cmip => 3%nat | Cmie => 4%nat | Csepc => 5%nat | Cmedeleg => 6%nat | Cmideleg => 7%nat | Cstvec => 8%nat | Cstimecmp => 9%nat | Cmenvcfg => 10%nat | Cpmpcfg0 => 11%nat | Cpmpaddr0 => 12%nat | Csatp => 13%nat | Cscause => 14%nat | Cstval => 15%nat | Cmcounteren => 16%nat | Ctime => 17%nat | Csp => 18%nat | Ctp => 19%nat | Cra => 20%nat end)
    (fun n => match n with 0%nat => Cmhartid | 1%nat => Cmstatus | 2%nat => Cmepc | 3%nat => Cmip | 4%nat => Cmie | 5%nat => Csepc | 6%nat => Cmedeleg | 7%nat => Cmideleg | 8%nat => Cstvec | 9%nat => Cstimecmp | 10%nat => Cmenvcfg | 11%nat => Cpmpcfg0 | 12%nat => Cpmpaddr0 | 13%nat => Csatp | 14%nat => Cscause | 15%nat => Cstval | 16%nat => Cmcounteren | 17%nat => Ctime | 18%nat => Csp | 19%nat => Ctp | _ => Cra end) _).
  by intros [].
Defined.

(** An access to a device register. *)
Inductive io := IoRead (a v : Z) | IoWrite (a v : Z).

(** What a read of a device register gives, after these accesses. *)
Class Devices := device : list io -> Z -> Z.

(** The pointers of struct disk, and its array free[]. *)
Record vqueue := mkVq { vq_desc : Z; vq_avail : Z; vq_used : Z; vq_free : list Z }.

(** struct devsw of file.h; the functions in it are named. *)
Inductive devfn := Fconsoleread | Fconsolewrite.
Record devent := mkDevent { dv_read : option devfn; dv_write : option devfn }.

Record board := mkBoard {
  kern : kernel;   (* the kernel's variables *)
  kernel_pagetable : Z;   (* vm.c *)
  started : Z;   (* main.c *)
  pr_locking : Z;   (* pr.locking of printf.c *)
  vq : vqueue;   (* disk of virtio_disk.c, as virtio_disk_init() sets it up *)
  csrs : gmap csr Z;   (* the registers of this hart *)
  mode : Z;   (* its privilege: 3 machine, 1 supervisor, 0 user *)
  pc : Z;   (* where mret went *)
  trace : list io;   (* the accesses to device registers, oldest first *)
  devsw : gmap Z devent;   (* file.c: the entries of devsw[] that are not zero *)
}.

Definition set_kern (x : kernel) (m : board) : board :=
  mkBoard x m.(kernel_pagetable) m.(started) m.(pr_locking) m.(vq) m.(csrs) m.(mode) m.(pc) m.(trace) m.(devsw).
Definition set_kernel_pagetable (x : Z) (m : board) : board :=
  mkBoard m.(kern) x m.(started) m.(pr_locking) m.(vq) m.(csrs) m.(mode) m.(pc) m.(trace) m.(devsw).
Definition set_started (x : Z) (m : board) : board :=
  mkBoard m.(kern) m.(kernel_pagetable) x m.(pr_locking) m.(vq) m.(csrs) m.(mode) m.(pc) m.(trace) m.(devsw).
Definition set_pr_locking (x : Z) (m : board) : board :=
  mkBoard m.(kern) m.(kernel_pagetable) m.(started) x m.(vq) m.(csrs) m.(mode) m.(pc) m.(trace) m.(devsw).
Definition set_vq (x : vqueue) (m : board) : board :=
  mkBoard m.(kern) m.(kernel_pagetable) m.(started) m.(pr_locking) x m.(csrs) m.(mode) m.(pc) m.(trace) m.(devsw).
Definition set_csrs (x : gmap csr Z) (m : board) : board :=
  mkBoard m.(kern) m.(kernel_pagetable) m.(started) m.(pr_locking) m.(vq) x m.(mode) m.(pc) m.(trace) m.(devsw).
Definition set_mode (x : Z) (m : board) : board :=
  mkBoard m.(kern) m.(kernel_pagetable) m.(started) m.(pr_locking) m.(vq) m.(csrs) x m.(pc) m.(trace) m.(devsw).
Definition set_pc (x : Z) (m : board) : board :=
  mkBoard m.(kern) m.(kernel_pagetable) m.(started) m.(pr_locking) m.(vq) m.(csrs) m.(mode) x m.(trace) m.(devsw).
Definition set_trace (x : list io) (m : board) : board :=
  mkBoard m.(kern) m.(kernel_pagetable) m.(started) m.(pr_locking) m.(vq) m.(csrs) m.(mode) m.(pc) x m.(devsw).
Definition set_devsw (x : gmap Z devent) (m : board) : board :=
  mkBoard m.(kern) m.(kernel_pagetable) m.(started) m.(pr_locking) m.(vq) m.(csrs) m.(mode) m.(pc) m.(trace) x.

(** ** The kernel's functions on the board *)

Fixpoint lift_out {A} (m : board) (o : outcome kernel A) : outcome board A :=
  match o with
  | Ok a s => Ok a (set_kern s m)
  | Panic msg => Panic msg
  | Sleep s k => Sleep (set_kern s m) (fun m' => lift_out m' (k m'.(kern)))
  | Timeout => Timeout
  end.
Definition lift {A} (c : M kernel A) : M board A := fun m => lift_out m (c m.(kern)).

Lemma lift_Ok {A} (c : M kernel A) m a s : c m.(kern) = Ok a s -> lift c m = Ok a (set_kern s m).
Proof. intros E. unfold lift. by rewrite E. Qed.

(** ** riscv.h *)

(** A register as a csrr instruction reads it. *)
Definition r_csr (c : csr) : M board Z := gets (fun m => default 0 (m.(csrs) !! c)).
(** A register that holds what is written to it: the general registers; stimecmp; stvec, of an
    aligned address; and satp, of the modes Bare and Sv39, which the machine has. *)
Definition w_csr (c : csr) (x : Z) : M board unit := modify (fun m => set_csrs (<[c := u64 x]> m.(csrs)) m).

(** The fields of the other registers may be read-only or hold legal values only: [warl c old x]
    is what register [c] holds after [x] was written to it when it held [old]. *)
Class Hart := { warl : csr -> Z -> Z -> Z; delegable : Z -> bool (* exceptions that can be delegated *) }.

(** What the privileged specification says of the fields that the kernel uses, for a hart with
    supervisor mode, compressed instructions, the Sstc extension and 56-bit physical addresses. *)
Class HartLaws `{Hart} := {
  (* mstatus: SIE, MIE, SPIE, MPIE and SPP *)
  law_mstatus old x b : b ∈ [1; 3; 5; 7; 8] -> Z.testbit (warl Cmstatus old x) b = Z.testbit x b;
  (* mstatus.MPP holds supervisor mode *)
  law_mpp old x : Z.land (Z.shiftr x 11) 3 = 1 -> Z.land (Z.shiftr (warl Cmstatus old x) 11) 3 = 1;
  law_mepc old x : 0 <= x < 2 ^ 64 -> x mod 2 = 0 -> warl Cmepc old x = x;
  (* the software, timer and external interrupts of supervisor mode *)
  law_mideleg old x b : b ∈ [1; 5; 9] -> Z.testbit (warl Cmideleg old x) b = Z.testbit x b;
  law_mie old x b : b ∈ [1; 5; 9] -> Z.testbit (warl Cmie old x) b = Z.testbit x b;
  law_medeleg old x b : delegable b = true -> Z.testbit (warl Cmedeleg old x) b = Z.testbit x b;
  law_menvcfg old x : Z.testbit (warl Cmenvcfg old x) 63 = Z.testbit x 63;
  law_mcounteren old x : Z.testbit (warl Cmcounteren old x) 1 = Z.testbit x 1;
  law_pmpaddr old x : 0 <= x < 2 ^ 54 -> warl Cpmpaddr0 old x = x;
  (* entry 0, unless it is locked *)
  law_pmpcfg old x : Z.testbit old 7 = false -> u8 (warl Cpmpcfg0 old x) = u8 x;
}.

Section csrs.
Context {HT : Hart}.

Definition w_warl (c : csr) (x : Z) : M board unit :=
  modify (fun m => set_csrs (<[c := warl c (default 0 (m.(csrs) !! c)) (u64 x)]> m.(csrs)) m).

(** A write to the bits [mask] of register [c]. *)
Definition w_view (c : csr) (mask x : Z) : M board unit :=
  old ← r_csr c;
  w_warl c (Z.lor (Z.land old (Z.lnot mask)) (Z.land x mask)).

(** sstatus is the part of mstatus that supervisor mode may see: SIE, SPIE, UBE, SPP, VS, FS,
    XS, SUM, MXR, UXL and SD. *)
Definition sstatus_mask : Z := 0x80000003000DE762.

Definition r_mhartid : M board Z := r_csr Cmhartid.
Definition r_mstatus : M board Z := r_csr Cmstatus.
Definition w_mstatus (x : Z) : M board unit := w_warl Cmstatus x.
Definition w_mepc (x : Z) : M board unit := w_warl Cmepc x.
Definition r_sstatus : M board Z := x ← r_csr Cmstatus; mret (Z.land x sstatus_mask).
Definition w_sstatus (x : Z) : M board unit := w_view Cmstatus sstatus_mask x.
Definition r_mideleg : M board Z := r_csr Cmideleg.
Definition w_mideleg (x : Z) : M board unit := w_warl Cmideleg x.
(** sip and sie are mip and mie for the delegated interrupts; in sip only SSIP is writable. *)
Definition r_sip : M board Z := d ← r_mideleg; x ← r_csr Cmip; mret (Z.land x d).
Definition w_sip (x : Z) : M board unit := d ← r_mideleg; w_view Cmip (Z.land d 2) x.
Definition r_sie : M board Z := d ← r_mideleg; x ← r_csr Cmie; mret (Z.land x d).
Definition w_sie (x : Z) : M board unit := d ← r_mideleg; w_view Cmie d x.
Definition r_mie : M board Z := r_csr Cmie.
Definition w_mie (x : Z) : M board unit := w_warl Cmie x.
Definition r_sepc : M board Z := r_csr Csepc.
Definition w_sepc (x : Z) : M board unit := w_warl Csepc x.
Definition r_medeleg : M board Z := r_csr Cmedeleg.
Definition w_medeleg (x : Z) : M board unit := w_warl Cmedeleg x.
Definition r_stvec : M board Z := r_csr Cstvec.
Definition w_stvec (x : Z) : M board unit := w_csr Cstvec x.
Definition r_stimecmp : M board Z := r_csr Cstimecmp.
Definition w_stimecmp (x : Z) : M board unit := w_csr Cstimecmp x.
Definition r_menvcfg : M board Z := r_csr Cmenvcfg.
Definition w_menvcfg (x : Z) : M board unit := w_warl Cmenvcfg x.
Definition w_pmpcfg0 (x : Z) : M board unit := w_warl Cpmpcfg0 x.
Definition w_pmpaddr0 (x : Z) : M board unit := w_warl Cpmpaddr0 x.
Definition r_satp : M board Z := r_csr Csatp.
Definition w_satp (x : Z) : M board unit := w_csr Csatp x.
Definition r_scause : M board Z := r_csr Cscause.
Definition r_stval : M board Z := r_csr Cstval.
Definition r_mcounteren : M board Z := r_csr Cmcounteren.
Definition w_mcounteren (x : Z) : M board unit := w_warl Cmcounteren x.
Definition r_time : M board Z := r_csr Ctime.
Definition r_sp : M board Z := r_csr Csp.
Definition r_tp : M board Z := r_csr Ctp.
Definition w_tp (x : Z) : M board unit := w_csr Ctp x.
Definition r_ra : M board Z := r_csr Cra.
End csrs.

(** The model has no cached translations. *)
Definition sfence_vma : M board unit := mret tt.

Definition MSTATUS_MPP_MASK : Z := Z.shiftl 3 11.
Definition MSTATUS_MPP_S : Z := Z.shiftl 1 11.
Definition SIE_SEIE : Z := Z.shiftl 1 9.
Definition SIE_STIE : Z := Z.shiftl 1 5.
Definition SIE_SSIE : Z := Z.shiftl 1 1.
Definition MIE_STIE : Z := Z.shiftl 1 5.

(** cpuid() of proc.c *)
Definition cpuid : M board Z := tp ← r_tp; mret (s32 tp).

(** The addresses of C and assembly functions that the code stores in registers. *)
Class Entries := { main_addr : Z; kernelvec : Z }.

(** ** Device registers *)

Section devices.
Context {D : Devices} {E : Entries} {HT : Hart}.

Definition mmio_read (a : Z) : M board Z := fun m =>
  let v := device m.(trace) a in Ok v (set_trace (m.(trace) ++ [IoRead a v]) m).
Definition mmio_write (a v : Z) : M board unit := modify (fun m => set_trace (m.(trace) ++ [IoWrite a v]) m).

(** A 32-bit register, read and written. *)
Definition read32 (a : Z) : M board Z := v ← mmio_read a; mret (u32 v).
Definition write32 (a v : Z) : M board unit := mmio_write a (u32 v).

(** ** start.c *)

Definition timerinit : M board unit :=
  x ← r_mie; w_mie (Z.lor x MIE_STIE);;
  x ← r_menvcfg; w_menvcfg (Z.lor x (Z.shiftl 1 63));;
  x ← r_mcounteren; w_mcounteren (Z.lor x 2);;
  x ← r_time; w_stimecmp (x + 1000000).

(** mret: to the mode in MPP at the address in mepc; MIE gets MPIE, MPIE is set, MPP becomes
    user mode, and MPRV is cleared on the way to a less privileged mode *)
Definition mret_insn : M board unit :=
  x ← r_mstatus;
  epc ← r_csr Cmepc;
  let mpp := Z.land (Z.shiftr x 11) 3 in
  let y := if Z.testbit x 7 then Z.setbit x 3 else Z.clearbit x 3 in
  let y := Z.land (Z.setbit y 7) (Z.lnot MSTATUS_MPP_MASK) in
  let y := if mpp =? 3 then y else Z.clearbit y 17 in
  modify (fun m => set_mode mpp (set_pc epc (set_csrs (<[Cmstatus := y]> m.(csrs)) m))).

Definition start : M board unit :=
  x ← r_mstatus;
  let x := Z.land x (Z.lnot MSTATUS_MPP_MASK) in
  let x := Z.lor x MSTATUS_MPP_S in
  w_mstatus x;;
  w_mepc main_addr;;
  w_satp 0;;
  w_medeleg 0xffff;;
  w_mideleg 0xffff;;
  x ← r_sie; w_sie (Z.lor (Z.lor (Z.lor x SIE_SEIE) SIE_STIE) SIE_SSIE);;
  w_pmpaddr0 0x3fffffffffffff;;
  w_pmpcfg0 0xf;;
  timerinit;;
  id ← r_mhartid;
  w_tp (s32 id);;
  mret_insn.

(** ** uart.c *)

Definition IER : Z := 1.
Definition IER_RX_ENABLE : Z := Z.shiftl 1 0.
Definition IER_TX_ENABLE : Z := Z.shiftl 1 1.
Definition FCR : Z := 2.
Definition FCR_FIFO_ENABLE : Z := Z.shiftl 1 0.
Definition FCR_FIFO_CLEAR : Z := Z.shiftl 3 1.
Definition LCR : Z := 3.
Definition LCR_EIGHT_BITS : Z := Z.shiftl 3 0.
Definition LCR_BAUD_LATCH : Z := Z.shiftl 1 7.

Definition WriteReg (reg v : Z) : M board unit := mmio_write (UART0 + reg) (u8 v).

Definition uartinit : M board unit :=
  WriteReg IER 0x00;;
  WriteReg LCR LCR_BAUD_LATCH;;
  WriteReg 0 0x03;;
  WriteReg 1 0x00;;
  WriteReg LCR LCR_EIGHT_BITS;;
  WriteReg FCR (Z.lor FCR_FIFO_ENABLE FCR_FIFO_CLEAR);;
  WriteReg IER (Z.lor IER_TX_ENABLE IER_RX_ENABLE);;
  lift (initlock LkUart).

(** ** plic.c *)

Definition PLIC_SENABLE (hart : Z) : Z := PLIC + 0x2080 + hart * 0x100.
Definition PLIC_SPRIORITY (hart : Z) : Z := PLIC + 0x201000 + hart * 0x2000.
Definition PLIC_SCLAIM (hart : Z) : Z := PLIC + 0x201004 + hart * 0x2000.

Definition plicinit : M board unit :=
  write32 (PLIC + UART0_IRQ * 4) 1;;
  write32 (PLIC + VIRTIO0_IRQ * 4) 1.

Definition plicinithart : M board unit :=
  hart ← cpuid;
  write32 (PLIC_SENABLE hart) (Z.lor (Z.shiftl 1 UART0_IRQ) (Z.shiftl 1 VIRTIO0_IRQ));;
  write32 (PLIC_SPRIORITY hart) 0.

Definition plic_claim : M board Z :=
  hart ← cpuid;
  irq ← read32 (PLIC_SCLAIM hart);
  mret (s32 irq).

Definition plic_complete (irq : Z) : M board unit :=
  hart ← cpuid;
  write32 (PLIC_SCLAIM hart) irq.
End devices.
