(* ===== verification/ProcAlloc.v ===== *)
(** * Slots of the process table (kernel/proc.c)

    freeproc() returns every page of a process; allocproc() hands out the first
    unused slot with a trapframe and an empty page table, or fails without losing
    a page.  Two theorems show what a recycled slot inherits: a kill() aimed at
    pid 0, and the signal handlers of the previous process. *)

From S2P Require Import Prelude State Mem Riscv Kalloc Vm PageTable Uvm UvmAlloc UvmFree Sched Proc ProcVm.

Section procalloc.
Context `{Symbols}.
Implicit Types (N : gmap (list Z) Z) (m D : gmap Z Z) (s : kernel) (l : list Z) (p : proc).

(** The memory a process owns. *)
Record proc_res s p N D l : Prop := {
  r_as : as_inv s p.(p_pagetable) N D l;
  r_table : proc_table s.(mem) N D p.(p_trapframe);
  r_pages : user_pages D p.(p_sz);
  r_sz : 0 <= p.(p_sz) <= TRAPFRAME;
  r_tf : fresh_page N D l p.(p_trapframe);
}.

Definition res_owned N D l p (q : Z) : Prop := owned N D l q \/ q = p.(p_trapframe).

(** The fields freeproc() resets, and those it keeps. *)
Definition freed p : proc :=
  mkProc UNUSED None 0 0 0 None p.(p_kstack) 0 0 0 p.(p_context) p.(p_ofile) p.(p_cwd)
    (<[0%nat := 0]> p.(p_name)) p.(p_pending_signals) p.(p_sig_handlers).

Lemma proc_res_nonzero s p N D l : proc_res s p N D l -> p.(p_pagetable) <> 0 /\ p.(p_trapframe) <> 0.
Proof.
  intros [Ha _ _ _ (Ht & _)]. pose proof (wf_page _ _ _ (pi_wf _ _ _ _ (as_pt _ _ _ _ _ Ha)) [] p.(p_pagetable)
    (wf_root _ _ _ (pi_wf _ _ _ _ (as_pt _ _ _ _ _ Ha)))) as Hp.
  apply page_pos in Hp, Ht. lia.
Qed.

(** Process-table updates commute with what the memory code does. *)
Lemma as_inv_procs s x root N D l : as_inv s root N D l -> as_inv (set_procs x s) root N D l.
Proof. intros [[Hw Hkm Hlk Hsep] Hva Hent Hus Hin HsN Hsl]. constructor; [by constructor | done..]. Qed.

Lemma only_mem_procs s s' : only_mem s s' -> s'.(procs) = s.(procs).
Proof. unfold only_mem. intros ->. done. Qed.

Lemma only_mem_set_procs s s' x : only_mem s s' -> only_mem (set_procs x s) (set_procs x s').
Proof. unfold only_mem. intros E. rewrite E at 1. by kstate. Qed.

(** The tail of freeproc(), after the pages have been returned. *)
Definition freeproc_fields (i : nat) : M kernel unit :=
  upd_proc i (set_p_pagetable 0);;
  upd_proc i (set_p_sz 0);;
  upd_proc i (set_p_pid 0);;
  upd_proc i (set_p_parent None);;
  upd_proc i (fun p => set_p_name (<[0%nat := 0]> p.(p_name)) p);;
  upd_proc i (set_p_chan None);;
  upd_proc i (set_p_killed 0);;
  upd_proc i (set_p_xstate 0);;
  upd_proc i (set_p_state UNUSED).

Lemma freeproc_fields_run i s p :
  s.(procs) !! i = Some p -> p.(p_trapframe) = 0 ->
  freeproc_fields i s = Ok tt (set_procs (<[i := freed p]> s.(procs)) s).
Proof.
  intros Hp Htf. unfold freeproc_fields, upd_proc. do 8 erewrite bind_Ok by done. unfold modify.
  cbn [procs set_procs]. f_equal. rewrite !list_alter_alter_eq.
  assert (forall f, f p = freed p -> set_procs (alter f i (procs s)) s = set_procs (<[i := freed p]> s.(procs)) s) as Hset.
  { intros f Hf. f_equal. rewrite list_insert_alter. by eapply alter_lookup. }
  rewrite <- (Hset (set_p_state UNUSED ∘ set_p_xstate 0 ∘ set_p_killed 0 ∘ set_p_chan None ∘
    (fun p => set_p_name (<[0%nat := 0]> p.(p_name)) p) ∘ set_p_parent None ∘ set_p_pid 0 ∘ set_p_sz 0 ∘ set_p_pagetable 0)).
  - by destruct s.
  - unfold compose, freed. destruct p. simpl in *. by subst.
Qed.

(** The state after freeproc(): the slot is reset, the pages [pages] are free again. *)
Record freeproc_post s s' (i : nat) p l l' (pages : Z -> Prop) : Prop := {
  fp_only : only_mem (set_procs (<[i := freed p]> s.(procs)) s) s';
  fp_kmem : kmem_inv s' l';
  fp_list q : q ∈ l' <-> q ∈ l \/ pages q;
  fp_frame a : (forall q, pages q -> outside a q) -> load8 s'.(mem) a = load8 s.(mem) a;
}.

Lemma freeproc_eq i s p :
  s.(procs) !! i = Some p ->
  freeproc i s = (when (negb (p.(p_trapframe) =? 0)) (kfree p.(p_trapframe));;
    upd_proc i (set_p_trapframe 0);;
    when (negb (p.(p_pagetable) =? 0)) (proc_freepagetable p.(p_pagetable) p.(p_sz));;
    freeproc_fields i) s.
Proof. intros Hp. unfold freeproc. by rewrite (bind_Ok _ _ s p s) by (by apply get_proc_Ok). Qed.

(** The last steps, from a state [s2] reached after the pages have been freed. *)
Lemma freeproc_finish i s s2 p l' pages l :
  s.(procs) !! i = Some p -> only_mem (set_procs (alter (set_p_trapframe 0) i s.(procs)) s) s2 ->
  kmem_inv s2 l' -> (forall q, q ∈ l' <-> q ∈ l \/ pages q) ->
  (forall a, (forall q, pages q -> outside a q) -> load8 s2.(mem) a = load8 s.(mem) a) ->
  exists s', freeproc_fields i s2 = Ok tt s' /\ freeproc_post s s' i p l l' pages.
Proof.
  intros Hp Ho Hk Hl Hf. pose proof (only_mem_procs _ _ Ho) as Ep. simpl in Ep.
  assert (s2.(procs) !! i = Some (set_p_trapframe 0 p)) as Hp2 by (by rewrite Ep, list_lookup_alter_eq, Hp).
  eexists. split; [by apply (freeproc_fields_run i s2 (set_p_trapframe 0 p)) |]. constructor; try done.
  assert (<[i := freed (set_p_trapframe 0 p)]> s2.(procs) = <[i := freed p]> s.(procs)) as ->.
  { rewrite Ep, !list_insert_alter, list_alter_alter_eq. by eapply alter_lookup. }
  exact (only_mem_set_procs _ _ _ Ho).
Qed.

Lemma freeproc_full s i p N D l :
  proc_res s p N D l -> s.(procs) !! i = Some p -> LkKmem ∉ s.(held) ->
  exists s' l', freeproc i s = Ok tt s' /\ freeproc_post s s' i p l l' (res_owned N D [] p).
Proof.
  intros Hres Hp Hlk. destruct (proc_res_nonzero _ _ _ _ _ Hres) as [Hpt0 Htf0].
  destruct Hres as [Ha Ht Hpg Hsz (Htf & Htl & HtN & HtD)]. rewrite (freeproc_eq i s p Hp).
  destruct (Z.eqb_spec p.(p_trapframe) 0) as [|_]; [done |]. destruct (Z.eqb_spec p.(p_pagetable) 0) as [|_]; [done |].
  cbn [negb when].
  destruct (as_kfree s p.(p_pagetable) N D p.(p_trapframe) l) as (s1 & E1 & Ha1 & Ho1 & Hx1 & Hk1); try done.
  erewrite bind_Ok by exact E1. erewrite bind_Ok by done.
  destruct (proc_freepagetable_run (set_procs (alter (set_p_trapframe 0) i s1.(procs)) s1) p.(p_pagetable) N D
    (p.(p_trapframe) :: l) p.(p_trapframe) p.(p_sz)) as (s2 & l2 & E2 & [K2 O2 Q2 F2]).
  - by apply as_inv_procs.
  - destruct Ht as (H1 & H2 & H3). split_and!; [done | done |]. intros va Hva H4 Hd. simpl. rewrite Hk1. by apply H3.
  - done.
  - by apply page_56.
  - done.
  - erewrite bind_Ok by exact E2.
    destruct (freeproc_finish i s s2 p l2 (res_owned N D [] p) l) as (s' & E' & Hpost); try done.
    + eapply only_mem_trans; [|exact O2]. rewrite (only_mem_procs _ _ Ho1). by apply only_mem_set_procs.
    + intros q. rewrite Q2. unfold res_owned, owned. rewrite elem_of_cons. set_solver +.
    + intros a Ha'. rewrite F2; [apply Hx1; apply Ha'; by right |]. intros q Hq. apply Ha'. by left.
    + by exists s', l2.
Qed.

(** allocproc() failed to get a page table: only the trapframe has to be freed. *)
Lemma freeproc_tf s i p l :
  kmem_inv s l -> s.(procs) !! i = Some p -> LkKmem ∉ s.(held) -> p.(p_pagetable) = 0 ->
  page_ok p.(p_trapframe) -> p.(p_trapframe) ∉ l ->
  exists s' l', freeproc i s = Ok tt s' /\ freeproc_post s s' i p l l' (fun q => q = p.(p_trapframe)).
Proof.
  intros Hk Hp Hlk Hpt Htf Htl. rewrite (freeproc_eq i s p Hp). pose proof (page_pos _ Htf).
  destruct (Z.eqb_spec p.(p_trapframe) 0) as [|_]; [lia |]. rewrite Hpt. cbn [Z.eqb negb when].
  destruct (kfree_spec s l p.(p_trapframe)) as (s1 & E1 & Hk1 & Es1); try done.
  erewrite bind_Ok by exact E1. erewrite bind_Ok by done. erewrite bind_Ok by done.
  set (s2 := set_procs (alter (set_p_trapframe 0) i s1.(procs)) s1).
  destruct (freeproc_finish i s s2 p (p.(p_trapframe) :: l) (fun q => q = p.(p_trapframe)) l) as (s' & E' & Hpost); try done.
  - assert (only_mem s s1) as Ho by (rewrite Es1; unfold only_mem; reflexivity).
    unfold s2. rewrite (only_mem_procs _ _ Ho). by apply only_mem_set_procs.
  - intros q. rewrite elem_of_cons. tauto.
  - intros a Ha. simpl. rewrite Es1. simpl. specialize (Ha _ eq_refl). unfold outside in Ha.
    rewrite load8_store64_ne by lia. by apply memset_outside.
  - by exists s', (p.(p_trapframe) :: l).
Qed.

Lemma freeproc_none s i p l :
  kmem_inv s l -> s.(procs) !! i = Some p -> p.(p_pagetable) = 0 -> p.(p_trapframe) = 0 ->
  exists s', freeproc i s = Ok tt s' /\ freeproc_post s s' i p l l (fun _ => False).
Proof.
  intros Hk Hp Hpt Htf. rewrite (freeproc_eq i s p Hp), Hpt, Htf. cbn [Z.eqb negb when].
  erewrite bind_Ok by done. erewrite bind_Ok by done. erewrite bind_Ok by done.
  apply freeproc_finish; try done; tauto.
Qed.

(** freeproc() on a process that owns its trapframe, its page table and the user
    pages below p->sz returns all of these pages to the allocator and nothing
    else, and leaves the slot UNUSED with its identifiers cleared; no other slot
    and no other memory changes. *)
Theorem freeproc_spec s i p N D l :
  proc_res s p N D l -> s.(procs) !! i = Some p -> LkKmem ∉ s.(held) ->
  exists s' l', freeproc i s = Ok tt s' /\ freeproc_post s s' i p l l' (res_owned N D [] p).
Proof. apply freeproc_full. Qed.

(** ** allocproc() *)

Lemma find_unused_run s :
  procs_ok s -> (forall i, LkProc i ∉ s.(held)) ->
  find_unused s = match list_find (fun p => p.(p_state) = UNUSED) s.(procs) with
                  | Some (i, _) => Ok (Some i) (set_held ({[LkProc i]} ∪ s.(held)) s)
                  | None => Ok None s
                  end.
Proof.
  intros Hlen Hh. unfold find_unused, procs_ok in *.
  assert (forall j q, s.(procs) !! j = Some q -> q.(p_state) <> UNUSED ->
    (acquire (LkProc j);; p ← get_proc j;
     if bool_decide (p.(p_state) = UNUSED) then mret (Some j) else release (LkProc j);; mret None) s = Ok None s) as Hskip.
  { intros j q Hq Hu. erewrite bind_Ok by (by apply acquire_Ok). erewrite bind_Ok by (apply get_proc_Ok; simpl; exact Hq).
    rewrite bool_decide_eq_false_2 by done. erewrite bind_Ok by (apply release_Ok; set_solver +).
    unfold mret, M_ret. f_equal. by apply held_back. }
  destruct (list_find _ _) as [[i p]|] eqn:Ef.
  - apply list_find_Some in Ef as (Hp & Hu & Hbefore). pose proof (lookup_lt_Some _ _ _ Hp).
    apply (for_return_first _ NPROC 0 i); [lia | |].
    + intros j Hj. destruct (lookup_lt_is_Some_2 s.(procs) j) as [q Hq]; [lia |]. eapply Hskip; [exact Hq |].
      eapply Hbefore; [exact Hq | lia].
    + simpl. erewrite bind_Ok by (by apply acquire_Ok). erewrite bind_Ok by (apply get_proc_Ok; simpl; exact Hp).
      by rewrite bool_decide_eq_true_2.
  - apply for_return_none. intros j Hj. destruct (lookup_lt_is_Some_2 s.(procs) j) as [q Hq]; [lia |].
    eapply Hskip; [exact Hq |]. apply list_find_None in Ef. rewrite Forall_lookup in Ef. by eapply Ef.
Qed.

Lemma allocpid_run s : LkPid ∉ s.(held) -> allocpid s = Ok s.(nextpid) (set_nextpid (s32 (s.(nextpid) + 1)) s).
Proof.
  intros Hh. unfold allocpid. erewrite bind_Ok by (by apply acquire_Ok). erewrite bind_Ok by done. erewrite bind_Ok by done.
  erewrite bind_Ok by (apply release_Ok; set_solver +). unfold mret, M_ret. f_equal. simpl. rewrite held_drop by done.
  by destruct s.
Qed.

(** The slot as allocproc() hands it out. *)
Definition fresh_proc p (pid tf pt : Z) : proc :=
  set_p_context (mkContext forkret (p.(p_kstack) + PGSIZE) (replicate 12 0))
    (set_p_pagetable pt (set_p_trapframe tf (set_p_state USED (set_p_pid pid p)))).

(** A slot that is UNUSED owns no memory. *)
Definition unused_clean s : Prop :=
  forall i p, s.(procs) !! i = Some p -> p.(p_state) = UNUSED -> p.(p_pagetable) = 0 /\ p.(p_sz) = 0.

Definition allocproc_post s l (i : nat) p (r : option nat) s' : Prop :=
  let s0 := set_nextpid (s32 (s.(nextpid) + 1)) s in
  (forall a, (forall q, q ∈ l -> outside a q) -> load8 s'.(mem) a = load8 s.(mem) a) /\
  ((r = Some i /\ exists tf pt N l', let p' := fresh_proc p s.(nextpid) tf pt in
      only_mem (set_held ({[LkProc i]} ∪ s.(held)) (set_procs (<[i := p']> s.(procs)) s0)) s' /\
      proc_res s' p' N ∅ l' /\ (length l <= length l' + 6)%nat /\ forall q, q ∈ l <-> res_owned N ∅ l' p' q) \/
   (r = None /\ (length l < 6)%nat /\ exists l',
      only_mem (set_procs (<[i := freed p]> s.(procs)) s0) s' /\ kmem_inv s' l' /\ forall q, q ∈ l' <-> q ∈ l)).

(** What allocproc() does once it has found slot [i] and given it a pid. *)
Definition allocproc_rest (i : nat) : M kernel (option nat) :=
  tf ← kalloc;
  upd_proc i (set_p_trapframe tf);;
  if tf =? 0 then freeproc i;; release (LkProc i);; mret None else
  pt ← proc_pagetable i;
  upd_proc i (set_p_pagetable pt);;
  if pt =? 0 then freeproc i;; release (LkProc i);; mret None else
  upd_proc i (fun p => set_p_context (mkContext forkret (p.(p_kstack) + PGSIZE) (replicate 12 0)) p);;
  mret (Some i).

(** The failure paths: after freeproc(), the slot is released. *)
Lemma allocproc_fail s s1 i p p1 l l1 pages :
  LkProc i ∉ s.(held) -> freed p1 = freed p ->
  (exists s2 l2, freeproc i s1 = Ok tt s2 /\ freeproc_post s1 s2 i p1 l1 l2 pages /\ forall q, q ∈ l2 <-> q ∈ l) ->
  only_mem (set_held ({[LkProc i]} ∪ s.(held)) (set_procs (<[i := p1]> s.(procs)) (set_nextpid (s32 (s.(nextpid) + 1)) s))) s1 ->
  (forall a, (forall q, q ∈ l -> outside a q) -> load8 s1.(mem) a = load8 s.(mem) a) ->
  (forall q, pages q -> q ∈ l) -> (length l < 6)%nat ->
  exists s', (freeproc i;; release (LkProc i);; mret None) s1 = Ok (@None nat) s' /\ allocproc_post s l i p None s'.
Proof.
  intros Hh Hfr (s2 & l2 & E2 & [O2 K2 Q2 F2] & Hl2) Ho1 Hx1 Hpg Hc. erewrite bind_Ok by exact E2.
  pose proof (only_mem_trans _ _ _ (only_mem_set_procs _ _ (<[i := freed p1]> s1.(procs)) Ho1) O2) as Ho2.
  pose proof (only_mem_procs _ _ Ho1) as Ep. simpl in Ep. rewrite Ep, list_insert_insert_eq, Hfr in Ho2.
  pose proof (only_mem_held _ _ Ho2) as Eh. simpl in Eh.
  erewrite bind_Ok by (apply release_Ok; rewrite Eh; set_solver +).
  eexists. split; [done |]. split; [|right; split; [done |]; split; [done |]; exists l2].
  - intros a Ha. simpl. rewrite F2; [by apply Hx1 |]. intros q Hq. by apply Ha, Hpg.
  - rewrite Eh, held_drop by done. split_and!; [|exact K2 | done].
    unfold only_mem in *. rewrite Ho2. by kstate.
Qed.

(** kalloc() takes the first free page and touches no other. *)
Lemma kalloc_run s pg l :
  kmem_inv s (pg :: l) -> LkKmem ∉ s.(held) ->
  exists s1, kalloc s = Ok pg s1 /\ kmem_inv s1 l /\ only_mem s s1 /\ page_ok pg /\ pg ∉ l /\
    forall a, outside a pg -> load8 s1.(mem) a = load8 s.(mem) a.
Proof.
  intros Hkm Hlk. destruct (kalloc_spec s (pg :: l) Hkm Hlk) as (s1 & E1 & Hkm1 & Es1). exists s1.
  split_and!; [done | done | rewrite Es1; unfold only_mem; reflexivity | eapply free_page_ok; [exact Hkm | set_solver +] | |].
  - destruct Hkm as [_ Hnd]. by apply NoDup_cons in Hnd as [? _].
  - intros a Ha. rewrite Es1. simpl. by apply memset_outside.
Qed.

Lemma alter_insert {A} (f : A -> A) i x (ps : list A) : alter f i (<[i := x]> ps) = <[i := f x]> ps.
Proof. by rewrite !list_insert_alter, list_alter_alter_eq. Qed.

Lemma allocproc_rest_run s s1 i p l :
  kmem_inv s l -> LkKmem ∉ s.(held) -> LkProc i ∉ s.(held) -> (i < length s.(procs))%nat ->
  p.(p_pagetable) = 0 -> p.(p_sz) = 0 ->
  s1 = set_held ({[LkProc i]} ∪ s.(held)) (set_procs (<[i := set_p_state USED (set_p_pid s.(nextpid) p)]> s.(procs))
         (set_nextpid (s32 (s.(nextpid) + 1)) s)) ->
  exists r s', allocproc_rest i s1 = Ok r s' /\ allocproc_post s l i p r s'.
Proof.
  intros Hkm Hlk Hlp Hi Hpt Hsz Es1. set (p1 := set_p_state USED (set_p_pid s.(nextpid) p)) in *.
  assert (kmem_inv s1 l) as Hkm1 by (subst s1; done). assert (LkKmem ∉ s1.(held)) as Hlk1 by (subst s1; set_solver + Hlk).
  assert (s1.(procs) = <[i := p1]> s.(procs)) as Eps1 by (by subst s1). unfold allocproc_rest. destruct l as [|tf l].
  - erewrite bind_Ok by (by apply (kalloc_spec s1 [])). erewrite bind_Ok by done. cbn [Z.eqb].
    rewrite Eps1, alter_insert.
    destruct (allocproc_fail s (set_procs (<[i := set_p_trapframe 0 p1]> s.(procs)) s1) i p (set_p_trapframe 0 p1) [] []
      (fun _ => False)) as (s' & E' & Hpost); try done.
    + destruct (freeproc_none (set_procs (<[i := set_p_trapframe 0 p1]> s.(procs)) s1) i (set_p_trapframe 0 p1) [])
        as (s2 & E2 & Hp2); [done | by apply list_lookup_insert_eq | done | done |]. exists s2, []. done.
    + rewrite Es1. apply only_mem_refl.
    + by subst s1.
    + simpl. lia.
    + eauto.
  - destruct (kalloc_run s1 tf l Hkm1 Hlk1) as (s2 & E2 & Hkm2 & Ho2 & Htf & Htl & Hx2).
    pose proof (page_pos tf Htf). erewrite bind_Ok by exact E2. erewrite bind_Ok by done.
    destruct (Z.eqb_spec tf 0) as [|_]; [lia |]. rewrite (only_mem_procs _ _ Ho2), Eps1, alter_insert.
    set (p2 := set_p_trapframe tf p1). set (s3 := set_procs (<[i := p2]> s.(procs)) s2).
    assert (only_mem (set_procs (<[i := p2]> s.(procs)) s1) s3) as Ho3 by (by apply only_mem_set_procs).
    assert (s3.(procs) !! i = Some p2) as Hp3 by (by apply list_lookup_insert_eq).
    destruct (proc_pagetable_run s3 l i p2) as (pt & s4 & E4 & Ho4 & Hf4 & Hr4);
      [done | by rewrite (only_mem_held _ _ Ho3) | done | done |].
    erewrite bind_Ok by exact E4. erewrite bind_Ok by done. rewrite (only_mem_procs _ _ Ho4). simpl (procs s3).
    rewrite alter_insert. set (p4 := set_p_pagetable pt p2).
    set (s5 := set_procs (<[i := p4]> s.(procs)) s4).
    assert (only_mem (set_held ({[LkProc i]} ∪ s.(held)) (set_procs (<[i := p4]> s.(procs))
      (set_nextpid (s32 (s.(nextpid) + 1)) s))) s5) as Ho5.
    { pose proof (only_mem_set_procs _ _ (<[i := p4]> s.(procs)) (only_mem_trans _ _ _ Ho3 Ho4)) as Ho. by subst s1. }
    assert (forall a, (forall q, q ∈ tf :: l -> outside a q) -> load8 s5.(mem) a = load8 s.(mem) a) as Hx5.
    { intros a Ha. simpl. rewrite Hf4 by (intros q Hq; apply Ha; set_solver + Hq). simpl.
      rewrite Hx2 by (apply Ha; set_solver +). by subst s1. }
    destruct Hr4 as [(Hpt0 & N & l4 & Ha4 & Ht4 & Hc4 & Hl4)|(-> & Hc4 & l4 & Hkm4 & Hl4)].
    + destruct (Z.eqb_spec pt 0) as [|_]; [done |]. erewrite bind_Ok by done. simpl (procs s5).
      rewrite alter_insert. eexists _, _. split; [done |]. split; [done | left]. split; [done |].
      exists tf, pt, N, l4. cbn zeta. split_and!.
      * exact (only_mem_set_procs _ _ (<[i := fresh_proc p s.(nextpid) tf pt]> s.(procs)) Ho5).
      * constructor; simpl; rewrite ?Hsz; [by do 2 apply as_inv_procs | done | | by vm_compute |].
        -- unfold user_pages, all_mapped. change (PGROUNDUP 0) with 0. split; [intros va ?; lia | intros va pa; by rewrite lookup_empty].
        -- split_and!; [done | | | intros va; by rewrite lookup_empty].
           ++ intros Hin. apply Htl, Hl4. by left.
           ++ intros k Hk. apply Htl, Hl4. right; left; eauto.
      * simpl. lia.
      * intros q. unfold res_owned. simpl. rewrite elem_of_cons, <- Hl4. tauto.
    + cbn [Z.eqb]. destruct (allocproc_fail s s5 i p p4 (tf :: l) l4 (fun q => q = tf)) as (s' & E' & Hpost); try done.
      * destruct (freeproc_tf s5 i p4 l4) as (s6 & l6 & E6 & Hp6); try done.
        -- by apply list_lookup_insert_eq.
        -- rewrite (only_mem_held _ _ Ho5). simpl. set_solver + Hlk.
        -- rewrite Hl4. done.
        -- exists s6, l6. split_and!; [done | exact Hp6 |]. intros q. rewrite (fp_list _ _ _ _ _ _ _ Hp6), Hl4, elem_of_cons.
           simpl. tauto.
      * intros q ->. set_solver +.
      * simpl. lia.
      * eauto.
Qed.

Lemma allocproc_run s l :
  kmem_inv s l -> procs_ok s -> unused_clean s -> (forall i, LkProc i ∉ s.(held)) ->
  LkKmem ∉ s.(held) -> LkPid ∉ s.(held) ->
  match list_find (fun p => p.(p_state) = UNUSED) s.(procs) with
  | None => allocproc s = Ok None s
  | Some (i, p) => exists r s', allocproc s = Ok r s' /\ allocproc_post s l i p r s'
  end.
Proof.
  intros Hkm Hlen Hcl Hh Hlk Hpl. unfold allocproc. pose proof (find_unused_run s Hlen Hh) as Hf.
  destruct (list_find _ _) as [[i p]|] eqn:Ef; erewrite bind_Ok by exact Hf; [|done].
  apply list_find_Some in Ef as (Hp & Hu & _). destruct (Hcl i p Hp Hu) as [Hpt Hsz].
  erewrite bind_Ok by (apply allocpid_run; set_solver + Hpl). erewrite bind_Ok by done. erewrite bind_Ok by done.
  pose proof (lookup_lt_Some _ _ _ Hp). eapply (allocproc_rest_run s); try done. simpl.
  rewrite list_alter_alter_eq. unfold set_held, set_procs, set_nextpid. simpl. f_equal.
  rewrite list_insert_alter. by eapply alter_lookup.
Qed.

(** allocproc() in a kernel whose unused slots own no memory.  If every slot is
    in use it returns 0 and changes nothing.  Otherwise it picks the first unused
    slot [i] and consumes one pid.  On success it returns with the lock of the slot
    held, and the slot has that pid, state USED, a trapframe page and a page table
    mapping exactly the trampoline and the trapframe; the pages it uses come from the
    free list, and all others are still free.  If memory runs out at any point,
    which takes fewer than six free pages, it returns 0 with the slot UNUSED again,
    its lock released, and the same set of free pages as before.  No memory outside the free pages is written. *)
Theorem allocproc_spec s l :
  kmem_inv s l -> procs_ok s -> unused_clean s -> (forall i, LkProc i ∉ s.(held)) ->
  LkKmem ∉ s.(held) -> LkPid ∉ s.(held) ->
  match list_find (fun p => p.(p_state) = UNUSED) s.(procs) with
  | None => allocproc s = Ok None s
  | Some (i, p) => exists r s', allocproc s = Ok r s' /\ allocproc_post s l i p r s'
  end.
Proof. apply allocproc_run. Qed.

(** ** What a recycled slot inherits *)

(** allocproc() keeps the flags and handlers it finds in the slot. *)
Lemma allocproc_slot s l i p r s' :
  allocproc_post s l i p (Some r) s' -> (i < length s.(procs))%nat ->
  r = i /\ exists p', s'.(procs) !! r = Some p' /\
    p'.(p_killed) = p.(p_killed) /\ p'.(p_sig_handlers) = p.(p_sig_handlers) /\ p'.(p_pid) = s.(nextpid).
Proof.
  intros [_ [([= ->] & tf & pt & N & l' & Ho & _)|(? & _)]] Hi; [|done]. split; [done |].
  eexists. split; [rewrite (only_mem_procs _ _ Ho); by apply list_lookup_insert_eq |]. done.
Qed.

(** kill(0) is not refused: pid 0 is the pid of every unused slot, so the call
    returns 0 and marks the first unused slot as killed, and the next process
    created in it, whatever its pid, is born killed. *)
Theorem kill_zero_dooms_next s l i p :
  kmem_inv s l -> procs_ok s -> unused_clean s -> (forall j, LkProc j ∉ s.(held)) ->
  LkKmem ∉ s.(held) -> LkPid ∉ s.(held) ->
  (forall j q, s.(procs) !! j = Some q -> q.(p_state) = UNUSED <-> q.(p_pid) = 0) ->
  list_find (fun p => p.(p_state) = UNUSED) s.(procs) = Some (i, p) ->
  exists s1, kill 0 s = Ok 0 s1 /\
    forall r s2, allocproc s1 = Ok (Some r) s2 ->
      exists p', s2.(procs) !! r = Some p' /\ p'.(p_pid) = s.(nextpid) /\ p'.(p_killed) = 1.
Proof.
  intros Hkm Hlen Hcl Hh Hlk Hpl Hpid Hfind. apply list_find_Some in Hfind as (Hp & Hu & Hbefore).
  assert (list_find (fun p => p.(p_pid) = 0) s.(procs) = Some (i, p)) as Hf0.
  { apply list_find_Some. split_and!; [done | by eapply Hpid |]. intros j q Hq Hj E. eapply Hbefore; [exact Hq | done |].
    by eapply Hpid. }
  pose proof (kill_run 0 s Hlen Hh) as Hkill. rewrite Hf0 in Hkill.
  eexists. split; [exact Hkill |]. intros r s2 Ea. set (s1 := set_procs _ s) in *.
  assert (kill_proc p = set_p_killed 1 p) as Ek by (unfold kill_proc; simpl; by rewrite Hu).
  assert (s1.(procs) !! i = Some (set_p_killed 1 p)) as Hp1 by (simpl; by rewrite list_lookup_alter_eq, Hp, <- Ek).
  assert (list_find (fun p => p.(p_state) = UNUSED) s1.(procs) = Some (i, set_p_killed 1 p)) as Hf1.
  { apply list_find_Some. split_and!; [done | done |]. intros j q Hq Hj. simpl in Hq. rewrite list_lookup_alter_ne in Hq by lia.
    by eapply Hbefore. }
  assert (procs_ok s1) as Hlen1 by (unfold procs_ok; simpl; by rewrite length_alter).
  assert (unused_clean s1) as Hcl1.
  { intros j q Hq Hq'. simpl in Hq. destruct (decide (i = j)) as [<-|].
    - rewrite list_lookup_alter_eq, Hp in Hq. injection Hq as <-. rewrite Ek. by apply (Hcl i p).
    - rewrite list_lookup_alter_ne in Hq by done. by eapply Hcl. }
  pose proof (allocproc_run s1 l Hkm Hlen1 Hcl1 Hh Hlk Hpl) as Hal. rewrite Hf1 in Hal.
  destruct Hal as (r' & s' & E' & Hpost). rewrite Ea in E'. injection E' as <- <-.
  apply allocproc_slot in Hpost as (-> & p' & Hp' & Hk' & _ & Hpid'); [|by apply lookup_lt_Some in Hp1].
  exists p'. done.
Qed.

(** Signal handlers survive the process that installed them: freeproc() does not
    reset them and allocproc() does not either, so a new process in the same slot
    starts with the SIGINT handler address of the previous one. *)
Theorem sig_handlers_inherited s i p N D l :
  proc_res s p N D l -> s.(procs) !! i = Some p -> procs_ok s -> unused_clean s ->
  (forall j, LkProc j ∉ s.(held)) -> LkKmem ∉ s.(held) -> LkPid ∉ s.(held) ->
  (forall j q, (j < i)%nat -> s.(procs) !! j = Some q -> q.(p_state) <> UNUSED) ->
  exists s1, freeproc i s = Ok tt s1 /\
    forall r s2, allocproc s1 = Ok (Some r) s2 ->
      r = i /\ exists p', s2.(procs) !! i = Some p' /\ p'.(p_sig_handlers) = p.(p_sig_handlers).
Proof.
  intros Hres Hp Hlen Hcl Hh Hlk Hpl Hbefore. pose proof (lookup_lt_Some _ _ _ Hp) as Hi.
  destruct (freeproc_full s i p N D l Hres Hp Hlk) as (s1 & l1 & E1 & [Ho K1 _ _]).
  exists s1. split; [done |]. intros r s2 Ea. pose proof (only_mem_procs _ _ Ho) as Eps. simpl in Eps.
  pose proof (only_mem_held _ _ Ho) as Eh. simpl in Eh.
  assert (list_find (fun p => p.(p_state) = UNUSED) s1.(procs) = Some (i, freed p)) as Hf1.
  { apply list_find_Some. rewrite Eps. split_and!; [by apply list_lookup_insert_eq | done |].
    intros j q Hq Hj. rewrite list_lookup_insert_ne in Hq by lia. by eapply Hbefore. }
  assert (procs_ok s1) as Hlen1 by (unfold procs_ok; by rewrite Eps, length_insert).
  assert (unused_clean s1) as Hcl1.
  { intros j q Hq Hq'. rewrite Eps in Hq. destruct (decide (i = j)) as [<-|].
    - rewrite list_lookup_insert_eq in Hq by done. by injection Hq as <-.
    - rewrite list_lookup_insert_ne in Hq by done. by eapply Hcl. }
  pose proof (allocproc_run s1 l1 K1 Hlen1 Hcl1) as Hal. rewrite Hf1, Eh in Hal. specialize (Hal Hh Hlk Hpl).
  destruct Hal as (r' & s' & E' & Hpost). rewrite Ea in E'. injection E' as <- <-.
  apply allocproc_slot in Hpost as (-> & p' & Hp' & _ & Hs' & _); [|by rewrite Eps, length_insert].
  split; [done |]. exists p'. done.
Qed.
End procalloc.
