(* ===== verification/ProcGrow.v ===== *)
(** * Growing and shrinking a process (growproc() of kernel/proc.c) *)

From S2P Require Import Prelude State Mem Riscv Kalloc Vm PageTable Uvm UvmAlloc UvmFree Sched Proc ProcVm ProcAlloc.

Section procgrow.
Context `{Symbols}.
Implicit Types (N : gmap (list Z) Z) (m D : gmap Z Z) (s : kernel) (l : list Z) (p : proc).

(** The user's memory below [lim] is the same in both states. *)
Definition same_bytes s s' D D' (lim : Z) : Prop :=
  forall x, 0 <= x < lim -> ubyte s'.(mem) D' x = ubyte s.(mem) D x.

Lemma proc_res_set_sz s p N D l i sz :
  as_inv s p.(p_pagetable) N D l -> proc_table s.(mem) N D p.(p_trapframe) -> user_pages D sz ->
  0 <= sz <= TRAPFRAME -> fresh_page N D l p.(p_trapframe) ->
  proc_res (set_procs (alter (set_p_sz sz) i s.(procs)) s) (set_p_sz sz p) N D l.
Proof. intros. constructor; try done. by apply as_inv_procs. Qed.

(** Bytes of a page that is mapped to the same place and kept. *)
Lemma same_bytes_pages s s' D D' lim :
  (forall va pa i, D !! va = Some pa -> 0 <= i < 4096 -> va < lim -> load8 s'.(mem) (pa + i) = load8 s.(mem) (pa + i)) ->
  (forall va, va mod 4096 = 0 -> va < lim -> D' !! va = D !! va) -> same_bytes s s' D D' lim.
Proof.
  intros Hb HD x Hx. destruct (PGROUNDDOWN_spec x) as [H4 Hr]; [lia |]. unfold ubyte.
  rewrite HD by (done || lia). destruct (D !! PGROUNDDOWN x) as [pa|] eqn:Ed; [|done]. simpl. f_equal.
  eapply Hb; [exact Ed | apply Z.mod_pos_bound; lia | lia].
Qed.

Lemma table_entries_kept s s' N N' D D' tf (a b : Z) :
  proc_table s.(mem) N D tf -> b <= TRAPFRAME ->
  (forall va, ~ (a <= va < b) -> D' !! va = D !! va) ->
  (forall va, 0 <= va < MAXVA -> va mod 4096 = 0 -> ~ (a <= va < b) ->
     lookup_pte s'.(mem) N' va = lookup_pte s.(mem) N va) ->
  (forall va, a <= va < b -> va mod 4096 = 0 -> D' !! va = None -> has (lookup_pte s'.(mem) N' va) PTE_V = false) ->
  proc_table s'.(mem) N' D' tf.
Proof.
  intros (Ht1 & Ht2 & Ht3) Hb HD Hk Hin. assert (TRAPFRAME < TRAMPOLINE) by (unfold TRAPFRAME; consts; lia).
  split_and!; [by rewrite HD by lia.. |]. intros va Hva Hva4 Hd.
  destruct (decide (a <= va < b)).
  - rewrite !decide_False by lia. by apply Hin.
  - rewrite HD in Hd by done. rewrite Hk by done. by apply Ht3.
Qed.

Lemma fresh_owned N D l q : fresh_page N D l q <-> page_ok q /\ ~ owned N D l q.
Proof. unfold fresh_page, owned. naive_solver. Qed.

(** Addresses between the size of a process and the trapframe are not mapped. *)
Lemma proc_gap s p N D l va :
  proc_res s p N D l -> PGROUNDUP p.(p_sz) <= va < TRAPFRAME -> va mod 4096 = 0 ->
  has (lookup_pte s.(mem) N va) PTE_V = false.
Proof.
  intros [Ha (Ht1 & Ht2 & Ht3) [Hall Hbelow] Hsz _] Hva H4'. destruct special_va as (_ & [Hv2 _] & _).
  assert (0 <= PGROUNDUP p.(p_sz)) by (apply PGROUNDUP_max; lia).
  assert (TRAPFRAME < TRAMPOLINE) by (unfold TRAPFRAME; consts; lia).
  assert (D !! va = None) as Hd by (destruct (D !! va) eqn:Ed; [apply Hbelow in Ed; lia | done]).
  specialize (Ht3 va ltac:(lia) H4' Hd). by rewrite !decide_False in Ht3 by lia.
Qed.

Lemma TRAPFRAME_max : TRAPFRAME <= MAXVA /\ TRAPFRAME mod 4096 = 0 /\ TRAPFRAME + 4095 < 2 ^ 64.
Proof. vm_compute. split_and!; congruence. Qed.

Lemma PGROUNDUP_le_page x y : 0 <= x <= y -> y mod 4096 = 0 -> y + 4095 < 2 ^ 64 -> PGROUNDUP x <= y.
Proof. intros. rewrite PGROUNDUP_eq by lia. dlia. Qed.

(** Effect of growproc() on the process [i]. *)
Record grow_post s s' (i : nat) p N N' D D' l l' (sz' : Z) : Prop := {
  gp_res : proc_res s' (set_p_sz sz' p) N' D' l';
  gp_only : only_mem (set_procs (alter (set_p_sz sz') i s.(procs)) s) s';
  gp_bytes : same_bytes s s' D D' (Z.min (PGROUNDUP p.(p_sz)) (PGROUNDUP sz'));
  gp_new x : PGROUNDUP p.(p_sz) <= x < PGROUNDUP sz' -> ubyte s'.(mem) D' x = Some 0;
  gp_pages q : owned N D l q <-> owned N' D' l' q;
}.

(** The address space after a successful uvmalloc(). *)
Lemma grow_up s s1 i p N N' D D' l l' newsz f :
  proc_res s p N D l -> p.(p_sz) <= newsz <= TRAPFRAME ->
  grown s s1 p.(p_pagetable) N N' D D' l l' (PGROUNDUP p.(p_sz)) (PGROUNDUP newsz) f ->
  grow_post s (set_procs (alter (set_p_sz newsz) i s1.(procs)) s1) i p N N' D D' l l' newsz.
Proof.
  intros Hres Hsz [Gi Go Gs GD Gn Gp Gb Gw]. pose proof Hres as [Ha Ht [Hall Hbelow] Hr Hf].
  destruct TRAPFRAME_max as (Hm1 & Hm2 & Hm3).
  pose proof (PGROUNDUP_max p.(p_sz) ltac:(lia)) as Hb0. pose proof (PGROUNDUP_max newsz ltac:(lia)) as Hb1.
  assert (PGROUNDUP newsz <= TRAPFRAME) as Hb2 by (apply PGROUNDUP_le_page; lia).
  constructor.
  - apply proc_res_set_sz; try done; try lia.
    + eapply table_entries_kept; [exact Ht | exact Hb2 | done | done |].
      intros va Hva Hva4 Hd. destruct (Gn va Hva Hva4) as (q & Hq & _). congruence.
    + split.
      * intros va Hva Hva4. destruct (decide (PGROUNDUP p.(p_sz) <= va)).
        -- destruct (Gn va) as (q & Hq & _); [lia | done | eauto].
        -- rewrite GD by lia. apply Hall; [lia | done].
      * intros va pa Hd. destruct (decide (PGROUNDUP p.(p_sz) <= va < PGROUNDUP newsz)); [lia |].
        rewrite GD in Hd by done. apply Hbelow in Hd. pose proof (PGROUNDUP_mono p.(p_sz) newsz ltac:(lia)). consts. lia.
    + apply fresh_owned. apply fresh_owned in Hf. by rewrite <- Gw.
  - rewrite (only_mem_procs _ _ Go). by apply only_mem_set_procs.
  - apply same_bytes_pages; [intros va pa j Hd Hj _; by eapply Gb |].
    intros va _ Hva. apply GD. lia.
  - intros x Hx. destruct (PGROUNDDOWN_spec x) as [Hx4 Hxr]; [lia |].
    destruct (PGROUNDUP_spec p.(p_sz)) as [Hp4 _]; [lia | consts; lia |].
    destruct (Gn (PGROUNDDOWN x)) as (q & Hq & _ & Hz); [dlia | done |].
    unfold ubyte. rewrite Hq. simpl. f_equal. apply Hz. apply Z.mod_pos_bound. lia.
  - done.
Qed.

(** The address space after uvmdealloc(). *)
Lemma grow_down s s1 i p N D D' l l' newsz :
  proc_res s p N D l -> 0 <= newsz <= p.(p_sz) ->
  shrunk s s1 p.(p_pagetable) N D D' l l' (PGROUNDUP newsz) (PGROUNDUP p.(p_sz)) ->
  grow_post s (set_procs (alter (set_p_sz newsz) i s1.(procs)) s1) i p N N D D' l l' newsz.
Proof.
  intros Hres Hsz Hs. pose proof Hres as [Ha Ht [Hall Hbelow] Hr Hf].
  destruct TRAPFRAME_max as (Hm1 & Hm2 & Hm3).
  pose proof (PGROUNDUP_max newsz ltac:(lia)) as Hb0. pose proof (PGROUNDUP_mono newsz p.(p_sz) ltac:(lia) ltac:(lia)) as Hb1.
  assert (PGROUNDUP p.(p_sz) <= TRAPFRAME) as Hb2 by (apply PGROUNDUP_le_page; lia).
  assert (forall q, owned N D l q <-> owned N D' l' q) as Hown.
  { intros q. apply (un_pages _ _ _ _ _ _ _ _ _ _ _ _ (shrunk_undone _ _ _ _ _ _ _ _ _ _ (PGROUNDUP p.(p_sz)) Hs ltac:(lia)
      ltac:(lia) ltac:(lia) ltac:(intros; lia))). }
  destruct Hs as [Si So SD _ SB SP]. constructor.
  - apply proc_res_set_sz; try done; try lia.
    + eapply (table_entries_kept s s1 N N D D' _ (PGROUNDUP newsz) (PGROUNDUP p.(p_sz))); [exact Ht | exact Hb2 | | |].
      * intros va Hva. by rewrite SD, decide_False.
      * intros va Hva Hva4 Hn. by rewrite SP, decide_False by done.
      * intros va Hva Hva4 _. rewrite SP, decide_True by (done || lia). done.
    + split.
      * intros va Hva Hva4. rewrite SD, decide_False by lia. apply Hall; [lia | done].
      * intros va pa Hd. rewrite SD in Hd. case_decide; [done |]. apply Hbelow in Hd. lia.
    + apply fresh_owned. apply fresh_owned in Hf. by rewrite <- Hown.
  - rewrite (only_mem_procs _ _ So). by apply only_mem_set_procs.
  - apply same_bytes_pages.
    + intros va pa j Hd Hj Hlt. apply (SB va); [|done]. rewrite SD, decide_False by lia. done.
    + intros va _ Hva. rewrite SD, decide_False by lia. done.
  - intros x Hx. lia.
  - done.
Qed.

(** The address space after a failed uvmalloc(). *)
Lemma grow_fail s s1 p N N' D l l' (newsz : Z) :
  proc_res s p N D l -> p.(p_sz) <= newsz <= TRAPFRAME ->
  undone s s1 p.(p_pagetable) N N' D D l l' (PGROUNDUP p.(p_sz)) (PGROUNDUP p.(p_sz)) (PGROUNDUP newsz) ->
  proc_res s1 p N' D l' /\ only_mem s s1 /\ same_bytes s s1 D D (PGROUNDUP p.(p_sz)) /\
  forall q, owned N D l q <-> owned N' D l' q.
Proof.
  intros Hres Hsz [Ui Uo Us UD Un Up Ub Uw]. pose proof Hres as [Ha Ht [Hall Hbelow] Hr Hf].
  destruct TRAPFRAME_max as (Hm1 & Hm2 & Hm3).
  assert (PGROUNDUP newsz <= TRAPFRAME) as Hb2 by (apply PGROUNDUP_le_page; lia).
  split_and!; try done.
  - constructor; try done; try lia.
    + eapply table_entries_kept; [exact Ht | exact Hb2 | done | done |]. intros va Hva Hva4 _. by apply Un.
    + apply fresh_owned. apply fresh_owned in Hf. by rewrite <- Uw.
  - apply same_bytes_pages; [|done]. intros va pa j Hd Hj _. by eapply Ub.
Qed.

(** growproc(), on every branch. *)
Lemma growproc_run s i p N D l n :
  proc_res s p N D l -> s.(procs) !! i = Some p -> s.(cur) = Some i ->
  - 2 ^ 31 <= n < 2 ^ 31 -> p.(p_sz) + n <= TRAPFRAME ->
  exists r s' N' D' l', growproc n s = Ok r s' /\
    ((r = 0 /\ grow_post s s' i p N N' D D' l l' (if decide (0 <= p.(p_sz) + n) then p.(p_sz) + n else p.(p_sz))) \/
     (r = -1 /\ Z.of_nat (length l) < 3 * ((PGROUNDUP (p.(p_sz) + n) - PGROUNDUP p.(p_sz)) / 4096) /\
      D' = D /\ proc_res s' p N' D l' /\ only_mem s s' /\
      same_bytes s s' D D (PGROUNDUP p.(p_sz)) /\ forall q, owned N D l q <-> owned N' D l' q)).
Proof.
  intros Hres Hp Hc Hn Hmax. pose proof (r_sz _ _ _ _ _ Hres) as Hsz. destruct TRAPFRAME_max as (Hm1 & Hm2 & Hm3).
  unfold growproc. rewrite (bind_Ok _ _ s i s) by (by apply myproc_Ok). rewrite (bind_Ok _ _ s p s) by (by apply get_proc_Ok).
  assert (forall newsz, 0 <= newsz <= p.(p_sz) -> exists s' D' l',
    (sz ← uvmdealloc p.(p_pagetable) p.(p_sz) newsz; upd_proc i (set_p_sz sz);; mret 0) s = Ok 0 s' /\
    grow_post s s' i p N N D D' l l' newsz) as Hdown.
  { intros newsz Hnew. destruct (uvmdealloc_shrunk s p.(p_pagetable) N D l p.(p_sz) newsz) as (s1 & D' & l' & E & Hs); try lia.
    - apply Hres.
    - intros va Hva Hva4. apply (r_pages _ _ _ _ _ Hres); [|done]. pose proof (PGROUNDUP_max newsz ltac:(lia)). lia.
    - rewrite Z.min_r in E by lia. erewrite bind_Ok by exact E. erewrite bind_Ok by done.
      eexists _, D', l'. split; [done |]. by apply grow_down. }
  assert (grow_post s (set_procs (alter (set_p_sz p.(p_sz)) i s.(procs)) s) i p N N D D l l p.(p_sz)) as Hsame.
  { apply grow_down; [done | lia |]. apply shrunk_none; [apply Hres | lia]. }
  destruct (Z.ltb_spec 0 n) as [Hpos|Hnpos].
  - rewrite u64_small by lia.
    destruct (uvmalloc_run s p.(p_pagetable) N D l p.(p_sz) (p.(p_sz) + n) PTE_W) as (r & s1 & N' & D' & l' & E & Hr);
      try (consts; lia); [apply Hres | |].
    { intros va Hva Hva4. eapply proc_gap; [exact Hres | | done].
      assert (PGROUNDUP (p.(p_sz) + n) <= TRAPFRAME) by (apply PGROUNDUP_le_page; lia). lia. }
    erewrite bind_Ok by exact E. destruct Hr as [[-> Hg]|(-> & -> & Hcnt & Hu)].
    + destruct (Z.eqb_spec (p.(p_sz) + n) 0); [lia |]. erewrite bind_Ok by done.
      eexists 0, _, N', D', l'. split; [done | left]. rewrite decide_True by lia. split; [done |]. eapply grow_up; [done | lia | exact Hg].
    + exists (-1), s1, N', D, l'. split; [done | right]. split; [done |]. split; [lia |]. split; [done |].
      apply (grow_fail s s1 p N N' D l l' (p.(p_sz) + n)); [exact Hres | lia | exact Hu].
  - destruct (Z.ltb_spec n 0) as [Hneg|Hz].
    + destruct (decide (0 <= p.(p_sz) + n)) as [Hge|Hlt].
      * rewrite u64_small by lia. destruct (Hdown (p.(p_sz) + n)) as (s' & D' & l' & E & Hg); [lia |].
        exists 0, s', N, D', l'. split; [done | by left].
      * unfold u64. replace ((p_sz p + n) mod 2 ^ 64) with (p_sz p + n + 2 ^ 64) by dlia.
        unfold uvmdealloc. destruct (Z.leb_spec (p_sz p) (p_sz p + n + 2 ^ 64)); [|lia].
        rewrite (bind_Ok _ _ s (p_sz p) s) by done. erewrite bind_Ok by done.
        eexists 0, _, N, D, l. split; [done | by left].
    + erewrite bind_Ok by done. assert (n = 0) as -> by lia. rewrite decide_True, Z.add_0_r by lia.
      eexists 0, _, N, D, l. split; [done | by left].
Qed.

(** C27. growproc(n) for a process that owns its memory, as long as the new size
    stays below the trapframe.  On success it returns 0; the process owns zero-filled
    pages up to the new size, or gave back the pages above it, and keeps the
    contents of all others.  (A request to shrink below 0 is ignored: the unsigned
    size wraps around and uvmdealloc() does nothing.)  It returns -1 only if there
    were fewer than three free pages for each page to add, and then the process has
    the size, user pages and contents it had (page-table pages may have been added).  In every case no page is lost. *)
Theorem growproc_spec s i p N D l n :
  proc_res s p N D l -> s.(procs) !! i = Some p -> s.(cur) = Some i ->
  - 2 ^ 31 <= n < 2 ^ 31 -> p.(p_sz) + n <= TRAPFRAME ->
  exists r s' N' D' l', growproc n s = Ok r s' /\
    ((r = 0 /\ grow_post s s' i p N N' D D' l l' (if decide (0 <= p.(p_sz) + n) then p.(p_sz) + n else p.(p_sz))) \/
     (r = -1 /\ Z.of_nat (length l) < 3 * ((PGROUNDUP (p.(p_sz) + n) - PGROUNDUP p.(p_sz)) / 4096) /\
      D' = D /\ proc_res s' p N' D l' /\ only_mem s s' /\
      same_bytes s s' D D (PGROUNDUP p.(p_sz)) /\ forall q, owned N D l q <-> owned N' D l' q)).
Proof. apply growproc_run. Qed.
End procgrow.
