(* ===== verification/Fs.v ===== *)
(** * File system (kernel/fs.c)

    Blocks, inodes, directories and path names, on top of the log.  On-disk
    structures are read from and written to the bytes of a block at the offsets of
    their C layout.  A pointer to an inode is its index in [itable]; a path or a file
    name is the list of its bytes. *)

From S2P Require Import Prelude State Mem Bytes Riscv Kalloc Vm Sched Sleeplock Uart Printf Bio Log Proc.

(** ** fs.h, stat.h *)

Definition ROOTINO : Z := 1.
Definition FSMAGIC : Z := 0x10203040.
Definition NINDIRECT : Z := BSIZE / 4.
Definition MAXFILE : Z := NDIRECT + NINDIRECT.
Definition DIRSIZ : Z := 14.
Definition T_DIR : Z := 1.
Definition T_FILE : Z := 2.
Definition T_DEVICE : Z := 3.

(** struct dinode: 64 bytes; the offsets of its fields. *)
Definition sizeof_dinode : Z := 64.
Definition di_type : Z := 0.
Definition di_major : Z := 2.
Definition di_minor : Z := 4.
Definition di_nlink : Z := 6.
Definition di_size : Z := 8.
Definition di_addrs : Z := 12.

Definition IPB : Z := BSIZE / sizeof_dinode.
Definition IBLOCK (i : Z) (sb : superblock) : Z := u32 (i / IPB + sb.(sb_inodestart)).
Definition BPB : Z := BSIZE * 8.
Definition BBLOCK (b : Z) (sb : superblock) : Z := u32 (b / BPB + sb.(sb_bmapstart)).

(** struct dirent: [inum] and [name] *)
Definition sizeof_dirent : Z := 16.
Definition de_inum (de : list Z) : Z := get_u16 de 0.
Definition de_name (de : list Z) : list Z := get_bytes de 2 DIRSIZ.

(** struct superblock, as the first bytes of a block *)
Definition superblock_of (d : list Z) : superblock :=
  mkSb (get_u32 d 0) (get_u32 d 4) (get_u32 d 8) (get_u32 d 12) (get_u32 d 16) (get_u32 d 20) (get_u32 d 24) (get_u32 d 28).

Section fs.
Context {P : Patience} {L : Linker}.

Definition get_inode (ip : nat) : M kernel inode := fun s =>
  match s.(itable) !! ip with Some x => Ok x s | None => Panic "inode" end.
Definition upd_inode (ip : nat) (f : inode -> inode) : M kernel unit :=
  modify (fun s => set_itable (alter f ip s.(itable)) s).
Definition edit_buf (b : nat) (f : list Z -> list Z) : M kernel unit :=
  upd_buf b (fun x => set_b_data (f x.(b_data)) x).

Definition readsb (dev : Z) : M kernel superblock :=
  bp ← bread dev 1;
  x ← get_buf bp;
  let sb := superblock_of x.(b_data) in
  modify (set_sb sb);;
  brelse bp;;
  mret sb.

Definition fsinit (dev : Z) : M kernel unit :=
  sb ← readsb dev;
  if negb (sb.(sb_magic) =? FSMAGIC) then panic "invalid file system" else
  initlog dev sb.

(** ** Blocks *)

Definition bzero (dev bno : Z) : M kernel unit :=
  bp ← bread dev bno;
  edit_buf bp (fun _ => replicate 1024 0);;
  log_write bp;;
  brelse bp.

(** Is the bit of block [bi] of this bitmap block clear? *)
Definition bit_free (d : list Z) (bi : Z) : bool := Z.land (get_u8 d (bi / 8)) (Z.shiftl 1 (bi mod 8)) =? 0.
Definition set_bit (bi : Z) (d : list Z) : list Z := put_u8 d (bi / 8) (Z.lor (get_u8 d (bi / 8)) (Z.shiftl 1 (bi mod 8))).
Definition clear_bit (bi : Z) (d : list Z) : list Z :=
  put_u8 d (bi / 8) (Z.land (get_u8 d (bi / 8)) (Z.lnot (Z.shiftl 1 (bi mod 8)))).

(** for (bi = 0; bi < BPB && b + bi < sb.size; bi++): the first free bit *)
Fixpoint scan_bits (n : nat) (bi b size : Z) (d : list Z) : option Z :=
  match n with
  | O => None
  | S n' =>
      if b + bi <? size then
        if bit_free d bi then Some bi else scan_bits n' (bi + 1) b size d
      else None
  end.

(** for (b = 0; b < sb.size; b += BPB) *)
Fixpoint balloc_loop (fuel : nat) (dev b : Z) : M kernel Z :=
  match fuel with
  | O => fun _ => Timeout
  | S fuel' =>
      sb ← gets sb;
      if b <? sb.(sb_size) then
        bp ← bread dev (BBLOCK b sb);
        x ← get_buf bp;
        match scan_bits (Z.to_nat BPB) 0 b sb.(sb_size) x.(b_data) with
        | Some bi =>
            edit_buf bp (set_bit bi);;
            log_write bp;;
            brelse bp;;
            bzero dev (b + bi);;
            mret (b + bi)
        | None => brelse bp;; balloc_loop fuel' dev (b + BPB)
        end
      else
        kprint "balloc: out of blocks\n" [];;
        mret 0
  end.

Definition balloc (dev : Z) : M kernel Z :=
  sb ← gets sb;
  balloc_loop (S (S (Z.to_nat (sb.(sb_size) / BPB)))) dev 0.

Definition bfree (dev b : Z) : M kernel unit :=
  sb ← gets sb;
  bp ← bread dev (BBLOCK b sb);
  let bi := b mod BPB in
  x ← get_buf bp;
  if bit_free x.(b_data) bi then panic "freeing free block" else
  edit_buf bp (clear_bit bi);;
  log_write bp;;
  brelse bp.

(** ** Inodes *)

Definition iinit : M kernel unit :=
  initlock LkItable;;
  for_range NINODE 0 (fun i => initsleeplock (SlInode i)).

(** for (ip = &itable.inode[0]; ip < &itable.inode[NINODE]; ip++): the entry found, or
    the first empty one *)
Fixpoint iget_scan (l : list inode) (i : nat) (dev inum : Z) (empty : option nat) : nat + option nat :=
  match l with
  | [] => inr empty
  | ip :: l' =>
      if (0 <? ip.(i_ref)) && (ip.(i_dev) =? dev) && (ip.(i_inum) =? inum) then inl i
      else iget_scan l' (i + 1) dev inum
             (match empty with None => if ip.(i_ref) =? 0 then Some i else None | Some _ => empty end)
  end.

Definition iget (dev inum : Z) : M kernel nat :=
  acquire LkItable;;
  t ← gets itable;
  match iget_scan t 0 dev inum None with
  | inl ip =>
      upd_inode ip (fun x => set_i_ref (x.(i_ref) + 1) x);;
      release LkItable;;
      mret ip
  | inr None => panic "iget: no inodes"
  | inr (Some ip) =>
      upd_inode ip (fun x => set_i_valid 0 (set_i_ref 1 (set_i_inum inum (set_i_dev dev x))));;
      release LkItable;;
      mret ip
  end.

(** for (inum = 1; inum < sb.ninodes; inum++) *)
Fixpoint ialloc_loop (fuel : nat) (dev type inum : Z) : M kernel (option nat) :=
  match fuel with
  | O => fun _ => Timeout
  | S fuel' =>
      sb ← gets sb;
      if inum <? sb.(sb_ninodes) then
        bp ← bread dev (IBLOCK inum sb);
        let dip := inum mod IPB * sizeof_dinode in
        x ← get_buf bp;
        if s16 (get_u16 x.(b_data) (dip + di_type)) =? 0 then
          edit_buf bp (fun d => put_u16 (put_bytes d dip (replicate 64 0)) (dip + di_type) type);;
          log_write bp;;
          brelse bp;;
          ip ← iget dev inum;
          mret (Some ip)
        else
          brelse bp;;
          ialloc_loop fuel' dev type (inum + 1)
      else
        kprint "ialloc: no inodes\n" [];;
        mret None
  end.

Definition ialloc (dev type : Z) : M kernel (option nat) :=
  sb ← gets sb;
  ialloc_loop (S (Z.to_nat sb.(sb_ninodes))) dev type 1.

(** The bytes of addrs[NDIRECT+1]. *)
Definition addrs_bytes (a : list Z) : list Z := concat (le_bytes 4 <$> a).

(** The dinode at offset [dip] of a block, after iupdate() of [ip]. *)
Definition put_dinode (dip : Z) (ip : inode) (d : list Z) : list Z :=
  put_bytes
    (put_u32 (put_u16 (put_u16 (put_u16 (put_u16 d (dip + di_type) ip.(i_type)) (dip + di_major) ip.(i_major))
       (dip + di_minor) ip.(i_minor)) (dip + di_nlink) ip.(i_nlink)) (dip + di_size) ip.(i_size))
    (dip + di_addrs) (addrs_bytes ip.(i_addrs)).

Definition iupdate (ip : nat) : M kernel unit :=
  sb ← gets sb;
  x ← get_inode ip;
  bp ← bread x.(i_dev) (IBLOCK x.(i_inum) sb);
  edit_buf bp (put_dinode (x.(i_inum) mod IPB * sizeof_dinode) x);;
  log_write bp;;
  brelse bp.

Definition idup (ip : nat) : M kernel nat :=
  acquire LkItable;;
  upd_inode ip (fun x => set_i_ref (x.(i_ref) + 1) x);;
  release LkItable;;
  mret ip.

(** The fields ilock() copies from the dinode at offset [dip]. *)
Definition get_dinode (dip : Z) (d : list Z) (ip : inode) : inode :=
  mkInode ip.(i_dev) ip.(i_inum) ip.(i_ref) ip.(i_valid)
    (s16 (get_u16 d (dip + di_type))) (s16 (get_u16 d (dip + di_major))) (s16 (get_u16 d (dip + di_minor)))
    (s16 (get_u16 d (dip + di_nlink))) (get_u32 d (dip + di_size))
    ((fun i => get_u32 d (dip + di_addrs + 4 * Z.of_nat i)) <$> seq 0 13).

Definition ilock (ip : option nat) : M kernel unit :=
  match ip with
  | None => panic "ilock"
  | Some ip =>
      x ← get_inode ip;
      if x.(i_ref) <? 1 then panic "ilock" else
      acquiresleep (SlInode ip);;
      x ← get_inode ip;
      when (x.(i_valid) =? 0)
        (sb ← gets sb;
         bp ← bread x.(i_dev) (IBLOCK x.(i_inum) sb);
         b ← get_buf bp;
         upd_inode ip (get_dinode (x.(i_inum) mod IPB * sizeof_dinode) b.(b_data));;
         brelse bp;;
         upd_inode ip (set_i_valid 1);;
         x ← get_inode ip;
         when (x.(i_type) =? 0) (panic "ilock: no type"))
  end.

Definition iunlock (ip : option nat) : M kernel unit :=
  match ip with
  | None => panic "iunlock"
  | Some ip =>
      h ← holdingsleep (SlInode ip);
      x ← get_inode ip;
      if negb h || (x.(i_ref) <? 1) then panic "iunlock" else
      releasesleep (SlInode ip)
  end.
(** ip->addrs[i] *)
Definition addr_at (ip : inode) (i : Z) : Z := default 0 (ip.(i_addrs) !! Z.to_nat i).
Definition set_addr (ip : nat) (i addr : Z) : M kernel unit :=
  upd_inode ip (fun x => set_i_addrs (<[Z.to_nat i := addr]> x.(i_addrs)) x).

Definition bmap (ip : nat) (bn : Z) : M kernel Z :=
  x ← get_inode ip;
  if bn <? NDIRECT then
    let addr := addr_at x bn in
    if addr =? 0 then
      addr ← balloc x.(i_dev);
      if addr =? 0 then mret 0 else
      set_addr ip bn addr;;
      mret addr
    else mret addr
  else
  let bn := bn - NDIRECT in
  if bn <? NINDIRECT then
    addr ← (if addr_at x NDIRECT =? 0 then
              addr ← balloc x.(i_dev);
              if addr =? 0 then mret 0 else
              set_addr ip NDIRECT addr;;
              mret addr
            else mret (addr_at x NDIRECT));
    if addr =? 0 then mret 0 else
    bp ← bread x.(i_dev) addr;
    b ← get_buf bp;
    let addr := get_u32 b.(b_data) (4 * bn) in
    addr ← (if addr =? 0 then
              addr ← balloc x.(i_dev);
              when (negb (addr =? 0)) (edit_buf bp (fun d => put_u32 d (4 * bn) addr);; log_write bp);;
              mret addr
            else mret addr);
    brelse bp;;
    mret addr
  else panic "bmap: out of range".

Definition itrunc (ip : nat) : M kernel unit :=
  for_range (Z.to_nat NDIRECT) 0 (fun i =>
    x ← get_inode ip;
    when (negb (addr_at x (Z.of_nat i) =? 0))
      (bfree x.(i_dev) (addr_at x (Z.of_nat i));;
       set_addr ip (Z.of_nat i) 0));;
  x ← get_inode ip;
  when (negb (addr_at x NDIRECT =? 0))
    (bp ← bread x.(i_dev) (addr_at x NDIRECT);
     for_range (Z.to_nat NINDIRECT) 0 (fun j =>
       b ← get_buf bp;
       let a := get_u32 b.(b_data) (4 * Z.of_nat j) in
       when (negb (a =? 0)) (bfree x.(i_dev) a));;
     brelse bp;;
     bfree x.(i_dev) (addr_at x NDIRECT);;
     set_addr ip NDIRECT 0);;
  upd_inode ip (set_i_size 0);;
  iupdate ip.

Definition iput (ip : nat) : M kernel unit :=
  acquire LkItable;;
  x ← get_inode ip;
  when ((x.(i_ref) =? 1) && negb (x.(i_valid) =? 0) && (x.(i_nlink) =? 0))
    (acquiresleep (SlInode ip);;
     release LkItable;;
     itrunc ip;;
     upd_inode ip (set_i_type 0);;
     iupdate ip;;
     upd_inode ip (set_i_valid 0);;
     releasesleep (SlInode ip);;
     acquire LkItable);;
  upd_inode ip (fun x => set_i_ref (x.(i_ref) - 1) x);;
  release LkItable.

Definition iunlockput (ip : nat) : M kernel unit := iunlock (Some ip);; iput ip.

(** ** Inode content *)

(** struct stat *)
Record stat := mkStat { st_dev : Z; st_ino : Z; st_type : Z; st_nlink : Z; st_size : Z }.

Definition stati (ip : inode) : stat := mkStat (s32 ip.(i_dev)) ip.(i_inum) ip.(i_type) ip.(i_nlink) ip.(i_size).

(** Where readi() copies to: a user address, a kernel address, or a variable of the
    caller, whose new contents readi() then returns. *)
Inductive dest := ToUser (dst : Z) | ToKernel (dst : Z) | ToLocal.

Definition copy_to (d : dest) (tot : Z) (bs : list Z) : M kernel Z :=
  match d with
  | ToUser dst => either_copyout 1 (u64 (dst + tot)) bs
  | ToKernel dst => either_copyout 0 (u64 (dst + tot)) bs
  | ToLocal => mret 0
  end.

(** for (tot = 0; tot < n; tot += m, off += m, dst += m); returns tot and the bytes
    copied *)
Fixpoint readi_loop (fuel : nat) (ip : nat) (d : dest) (off n tot : Z) (bs : list Z) : M kernel (Z * list Z) :=
  match fuel with
  | O => fun _ => Timeout
  | S fuel' =>
      if tot <? n then
        addr ← bmap ip (off / BSIZE);
        if addr =? 0 then mret (tot, bs) else
        x ← get_inode ip;
        bp ← bread x.(i_dev) addr;
        b ← get_buf bp;
        let m := Z.min (n - tot) (BSIZE - off mod BSIZE) in
        let chunk := get_bytes b.(b_data) (off mod BSIZE) m in
        r ← copy_to d tot chunk;
        if r =? -1 then brelse bp;; mret (-1, bs)
        else brelse bp;; readi_loop fuel' ip d (off + m) n (tot + m) (bs ++ chunk)
      else mret (tot, bs)
  end.

Definition readi (ip : nat) (d : dest) (off n : Z) : M kernel (Z * list Z) :=
  x ← get_inode ip;
  if (x.(i_size) <? off) || (u32 (off + n) <? off) then mret (0, []) else
  let n := if x.(i_size) <? u32 (off + n) then x.(i_size) - off else n in
  readi_loop (Z.to_nat (n / BSIZE) + 3) ip d off n 0 [].

(** Where writei() copies from. *)
Inductive source := FromUser (src : Z) | FromKernel (src : Z) | FromLocal (bs : list Z).

Definition copy_from (sr : source) (tot m : Z) : M kernel (Z * list Z) :=
  match sr with
  | FromUser src => either_copyin 1 (u64 (src + tot)) m
  | FromKernel src => either_copyin 0 (u64 (src + tot)) m
  | FromLocal bs => mret (0, get_bytes bs tot m)
  end.

(** for (tot = 0; tot < n; tot += m, off += m, src += m); returns tot and off.  What a
    failing copyin() copied before it failed stays in the buffer. *)
Fixpoint writei_loop (fuel : nat) (ip : nat) (sr : source) (off n tot : Z) : M kernel (Z * Z) :=
  match fuel with
  | O => fun _ => Timeout
  | S fuel' =>
      if tot <? n then
        addr ← bmap ip (off / BSIZE);
        if addr =? 0 then mret (tot, off) else
        x ← get_inode ip;
        bp ← bread x.(i_dev) addr;
        let m := Z.min (n - tot) (BSIZE - off mod BSIZE) in
        '(r, bs) ← copy_from sr tot m;
        edit_buf bp (fun d => put_bytes d (off mod BSIZE) bs);;
        if r =? -1 then brelse bp;; mret (tot, off)
        else log_write bp;; brelse bp;; writei_loop fuel' ip sr (off + m) n (tot + m)
      else mret (tot, off)
  end.

Definition writei (ip : nat) (sr : source) (off n : Z) : M kernel Z :=
  x ← get_inode ip;
  if (x.(i_size) <? off) || (u32 (off + n) <? off) then mret (-1) else
  if MAXFILE * BSIZE <? u32 (off + n) then mret (-1) else
  '(tot, off) ← writei_loop (Z.to_nat (n / BSIZE) + 3) ip sr off n 0;
  x ← get_inode ip;
  when (x.(i_size) <? off) (upd_inode ip (set_i_size off));;
  iupdate ip;;
  mret tot.
(** ** Directories *)

(** Byte [i] of a string; past its last byte is the terminating NUL. *)
Definition byte_at (s : list Z) (i : nat) : Z := u8 (default 0 (s !! i)).

(** strncmp() on two strings, from byte [i] on *)
Fixpoint strncmp_at (n : nat) (i : nat) (p q : list Z) : Z :=
  match n with
  | O => 0
  | S n' =>
      if negb (byte_at p i =? 0) && (byte_at p i =? byte_at q i)
      then strncmp_at n' (i + 1) p q
      else byte_at p i - byte_at q i
  end.

Definition namecmp (s t : list Z) : Z := strncmp_at (Z.to_nat DIRSIZ) 0 s t.

(** for (off = 0; off < dp->size; off += sizeof(de)) *)
Fixpoint dirlookup_loop (fuel : nat) (dp : nat) (name : list Z) (off : Z) : M kernel (option (nat * Z)) :=
  match fuel with
  | O => fun _ => Timeout
  | S fuel' =>
      x ← get_inode dp;
      if off <? x.(i_size) then
        '(r, de) ← readi dp ToLocal off sizeof_dirent;
        if negb (r =? sizeof_dirent) then panic "dirlookup read" else
        if de_inum de =? 0 then dirlookup_loop fuel' dp name (off + sizeof_dirent) else
        if namecmp name (de_name de) =? 0 then
          ip ← iget x.(i_dev) (de_inum de);
          mret (Some (ip, off))
        else dirlookup_loop fuel' dp name (off + sizeof_dirent)
      else mret None
  end.

(** The inode found and the offset of its entry. *)
Definition dirlookup (dp : nat) (name : list Z) : M kernel (option (nat * Z)) :=
  x ← get_inode dp;
  if negb (x.(i_type) =? T_DIR) then panic "dirlookup not DIR" else
  dirlookup_loop (Z.to_nat (x.(i_size) / sizeof_dirent) + 2) dp name 0.

(** strncpy() of [t] into an array of [n] bytes *)
Fixpoint strncpy_at (n : nat) (i : nat) (t : list Z) : list Z :=
  match n with
  | O => []
  | S n' => if byte_at t i =? 0 then replicate (S n') 0 else byte_at t i :: strncpy_at n' (i + 1) t
  end.

(** Look for an empty dirent. *)
Fixpoint dirlink_loop (fuel : nat) (dp : nat) (off : Z) : M kernel Z :=
  match fuel with
  | O => fun _ => Timeout
  | S fuel' =>
      x ← get_inode dp;
      if off <? x.(i_size) then
        '(r, de) ← readi dp ToLocal off sizeof_dirent;
        if negb (r =? sizeof_dirent) then panic "dirlink read" else
        if de_inum de =? 0 then mret off else dirlink_loop fuel' dp (off + sizeof_dirent)
      else mret off
  end.

Definition dirlink (dp : nat) (name : list Z) (inum : Z) : M kernel Z :=
  r ← dirlookup dp name;
  match r with
  | Some (ip, _) => iput ip;; mret (-1)
  | None =>
      x ← get_inode dp;
      off ← dirlink_loop (Z.to_nat (x.(i_size) / sizeof_dirent) + 2) dp 0;
      let de := le_bytes 2 inum ++ strncpy_at (Z.to_nat DIRSIZ) 0 name in
      r ← writei dp (FromLocal de) off sizeof_dirent;
      if negb (r =? sizeof_dirent) then mret (-1) else mret 0
  end.

(** ** Paths *)

Definition slash : Z := 47.

(** while ( *path == '/') path++; *)
Fixpoint skip_slashes (path : list Z) : list Z :=
  match path with
  | c :: path' => if c =? slash then skip_slashes path' else path
  | [] => []
  end.

(** while ( *path != '/' && *path != 0) path++;  the bytes passed and the new path *)
Fixpoint span_elem (path : list Z) : list Z * list Z :=
  match path with
  | c :: path' =>
      if (c =? slash) || (c =? 0) then ([], path)
      else let '(e, rest) := span_elem path' in (c :: e, rest)
  | [] => ([], [])
  end.

(** The new path and the new contents of name[DIRSIZ]. *)
Definition skipelem (path name : list Z) : option (list Z * list Z) :=
  let path := skip_slashes path in
  if byte_at path 0 =? 0 then None else
  let '(s, path) := span_elem path in
  let name :=
    if DIRSIZ <=? Z.of_nat (length s) then put_bytes name 0 (get_bytes s 0 DIRSIZ)
    else put_bytes name 0 (s ++ [0]) in
  Some (skip_slashes path, name).

(** while ((path = skipelem(path, name)) != 0) *)
Fixpoint namex_loop (fuel : nat) (ip : nat) (path : list Z) (nameiparent : bool) (name : list Z) :
    M kernel (option nat * list Z) :=
  match fuel with
  | O => fun _ => Timeout
  | S fuel' =>
      match skipelem path name with
      | None => if nameiparent then iput ip;; mret (None, name) else mret (Some ip, name)
      | Some (path, name) =>
          ilock (Some ip);;
          x ← get_inode ip;
          if negb (x.(i_type) =? T_DIR) then iunlockput ip;; mret (None, name) else
          if nameiparent && (byte_at path 0 =? 0) then iunlock (Some ip);; mret (Some ip, name) else
          r ← dirlookup ip name;
          match r with
          | None => iunlockput ip;; mret (None, name)
          | Some (next, _) => iunlockput ip;; namex_loop fuel' next path nameiparent name
          end
      end
  end.

(** The inode, and the contents of [name]. *)
Definition namex (path : list Z) (nameiparent : bool) (name : list Z) : M kernel (option nat * list Z) :=
  ip ← (if byte_at path 0 =? slash then iget ROOTDEV ROOTINO
        else
          i ← myproc;
          p ← get_proc i;
          match p.(p_cwd) with Some ip => idup ip | None => panic "cwd" end);
  namex_loop (S (length path)) ip path nameiparent name.

Definition namei (path : list Z) : M kernel (option nat) :=
  '(ip, _) ← namex path false (replicate (Z.to_nat DIRSIZ) 0);
  mret ip.

Definition nameiparent (path : list Z) (name : list Z) : M kernel (option nat * list Z) :=
  namex path true name.
End fs.
