(* ===== verification/FsPath.v ===== *)
(** * Path names (kernel/fs.c)

    skipelem(), called as namex() calls it, enumerates the elements of a path; namecmp()
    decides equality of file names. *)

From S2P Require Import Prelude State Mem Bytes Riscv Kalloc Vm Sched Sleeplock Bio Log Proc Fs.

(** The file name in name[DIRSIZ]: at most 14 bytes. *)
Definition fname (s : list Z) : list Z := cstr (take 14 s).

Definition bytes_ok (s : list Z) : Prop := Forall (fun c => 0 <= c < 256) s.

(** Reference: the elements of a path, split at slashes, empty ones left out.  [cur] is
    the element being read. *)
Definition emit (cur : list Z) : list (list Z) := match cur with [] => [] | _ => [cur] end.
Fixpoint elements (cur path : list Z) : list (list Z) :=
  match path with
  | [] => emit cur
  | c :: path' =>
      if c =? 0 then emit cur
      else if c =? slash then emit cur ++ elements [] path'
      else elements (cur ++ [c]) path'
  end.

(** The names that the loop of namex() sees. *)
Fixpoint names (fuel : nat) (path name : list Z) : list (list Z) :=
  match fuel with
  | O => []
  | S fuel' =>
      match skipelem path name with
      | None => []
      | Some (path', name') => name' :: names fuel' path' name'
      end
  end.

(** ** Strings *)

Lemma cstr_app s t : Forall (fun c => c <> 0) s -> cstr (s ++ t) = s ++ cstr t.
Proof. induction 1 as [|c s Hc _ IH]; cbn; [done |]. rewrite (proj2 (Z.eqb_neq c 0)) by done. by rewrite IH. Qed.

Lemma cstr_id s : Forall (fun c => c <> 0) s -> cstr s = s.
Proof. intros H. rewrite <- (app_nil_r s) at 1. by rewrite cstr_app, app_nil_r. Qed.

Lemma byte_at_nil i : byte_at [] i = 0.
Proof. done. Qed.

Lemma byte_at_0 c s : 0 <= c < 256 -> byte_at (c :: s) 0 = c.
Proof. intros. apply u8_small. lia. Qed.

Lemma byte_at_S c s i : byte_at (c :: s) (S i) = byte_at s i.
Proof. done. Qed.

(** ** Elements *)

Lemma elements_slashes path : elements [] (skip_slashes path) = elements [] path.
Proof.
  induction path as [|c path IH]; cbn; [done |]. destruct (Z.eqb_spec c slash) as [->|Hc]; [by rewrite IH |].
  cbn. by rewrite (proj2 (Z.eqb_neq c slash)).
Qed.

Lemma elements_span path : forall cur e rest, span_elem path = (e, rest) -> cur ++ e <> [] ->
  elements cur path = (cur ++ e) :: elements [] rest.
Proof.
  induction path as [|c path IH]; intros cur e rest E Hne; cbn in E |- *.
  - injection E as <- <-. rewrite app_nil_r in *. cbn. by destruct cur.
  - destruct (Z.eqb_spec c slash) as [->|Hs]; cbn [orb] in E.
    + injection E as <- <-. rewrite app_nil_r in *. cbn. by destruct cur.
    + destruct (Z.eqb_spec c 0) as [->|H0].
      * injection E as <- <-. rewrite app_nil_r in *. cbn. by destruct cur.
      * destruct (span_elem path) as [e' r'] eqn:E'. injection E as <- <-.
        rewrite (IH (cur ++ [c]) e' r') by (done || (by destruct cur)). by rewrite <- app_assoc.
Qed.

Lemma span_elem_clean path e rest : span_elem path = (e, rest) -> Forall (fun c => c <> 0) e /\ path = e ++ rest.
Proof.
  revert e rest. induction path as [|c path IH]; intros e rest E; cbn in E; [by injection E as <- <- |].
  destruct (Z.eqb_spec c slash) as [->|Hs]; cbn [orb] in E; [by injection E as <- <- |].
  destruct (Z.eqb_spec c 0) as [->|H0]; [by injection E as <- <- |].
  destruct (span_elem path) as [e' r'] eqn:E'. injection E as <- <-. destruct (IH e' r' eq_refl) as [Hf ->]. split; [by constructor | done].
Qed.

Lemma skip_slashes_length path : (length (skip_slashes path) <= length path)%nat.
Proof. induction path as [|c path IH]; cbn; [done |]. case_Z; cbn; lia. Qed.

Lemma skip_slashes_bytes path : bytes_ok path -> bytes_ok (skip_slashes path).
Proof. induction 1 as [|c path Hc Hp IH]; cbn; [constructor |]. case_Z; [done |]. by constructor. Qed.

Lemma skip_slashes_head c path path' : skip_slashes path = c :: path' -> c <> slash.
Proof. induction path as [|x path IH]; cbn; [done |]. case_Z; [exact IH |]. by intros [= -> ->]. Qed.

(** name[DIRSIZ] after skipelem() of the element [e]. *)
Lemma name_written e name : Forall (fun c => c <> 0) e -> length name = 14%nat ->
  let name' := if DIRSIZ <=? Z.of_nat (length e) then put_bytes name 0 (get_bytes e 0 DIRSIZ) else put_bytes name 0 (e ++ [0]) in
  length name' = 14%nat /\ fname name' = take 14 e.
Proof.
  intros He Hn name'. unfold name', DIRSIZ, fname. destruct (Z.leb_spec 14 (Z.of_nat (length e))) as [Hl|Hl].
  - unfold get_bytes. change (drop (Z.to_nat 0) e) with e. change (Z.to_nat 14) with 14%nat.
    assert (length (take 14 e) = 14%nat) as Ht by (rewrite length_take; lia). split.
    + rewrite length_put_bytes; lia.
    + unfold put_bytes. change (take (Z.to_nat 0) name) with (@nil Z). cbn [app]. rewrite take_app_length' by lia.
      apply cstr_id. by apply Forall_take.
  - split.
    + rewrite length_put_bytes; rewrite ?length_app; cbn [length]; lia.
    + unfold put_bytes. change (take (Z.to_nat 0) name) with (@nil Z). cbn [app]. rewrite <- app_assoc.
      rewrite take_app, (take_ge e) by lia. rewrite cstr_app by done.
      replace (14 - length e)%nat with (S (13 - length e)) by lia. cbn [app take cstr Z.eqb]. apply app_nil_r.
Qed.

(** One call of skipelem(). *)
Lemma skipelem_step path name : bytes_ok path -> length name = 14%nat ->
  match skipelem path name with
  | None => elements [] path = []
  | Some (path', name') =>
      exists e, elements [] path = e :: elements [] path' /\ fname name' = take 14 e /\
        length name' = 14%nat /\ bytes_ok path' /\ (length path' < length path)%nat
  end.
Proof.
  intros Hp Hn. unfold skipelem. pose proof (skip_slashes_length path) as Hl. pose proof (skip_slashes_bytes path Hp) as Hb.
  pose proof (elements_slashes path) as He. destruct (skip_slashes path) as [|c p] eqn:Es.
  { cbn. by rewrite <- He. }
  pose proof (Forall_cons_1 _ _ _ Hb) as [Hc Hbp]. rewrite byte_at_0 by done. destruct (Z.eqb_spec c 0) as [->|H0].
  { rewrite <- He. done. }
  destruct (span_elem (c :: p)) as [e rest] eqn:E. pose proof (skip_slashes_head _ _ _ Es) as Hs.
  destruct (span_elem_clean _ _ _ E) as [Hclean Hcp].
  assert (e <> []) as Hne.
  { cbn in E. rewrite (proj2 (Z.eqb_neq c slash)), (proj2 (Z.eqb_neq c 0)) in E by done. cbn [orb] in E.
    destruct (span_elem p). by injection E as <- _. }
  destruct (name_written e name Hclean Hn) as [Hlen Hname]. exists e. split_and!; [|done|done| |].
  - rewrite <- He, (elements_span _ [] e rest E) by done. by rewrite elements_slashes.
  - apply skip_slashes_bytes. rewrite Hcp in Hb. by apply Forall_app in Hb as [_ ?].
  - pose proof (skip_slashes_length rest). assert (length (c :: p) = (length e + length rest)%nat) as Hll by (by rewrite Hcp, length_app).
    destruct e; [done |]. cbn [length] in *. lia.
Qed.

(** skipelem(), called until it returns 0, yields the elements of the path in order,
    each cut to DIRSIZ bytes; as many calls as the path has bytes, plus one, suffice. *)
Theorem skipelem_elements path name : bytes_ok path -> length name = 14%nat ->
  fname <$> names (S (length path)) path name = take 14 <$> elements [] path.
Proof.
  assert (forall fuel path name, bytes_ok path -> length name = 14%nat -> (length path < fuel)%nat ->
    fname <$> names fuel path name = take 14 <$> elements [] path) as H.
  2: { intros Hp Hn. apply H; [done | done | lia]. }
  clear path name. induction fuel as [|fuel IH]; intros path name Hp Hn Hf; [lia |]. cbn [names].
  pose proof (skipelem_step path name Hp Hn) as Hs. destruct (skipelem path name) as [[path' name']|]; [|by rewrite Hs].
  destruct Hs as (e & -> & Hname & Hlen & Hb & Hlt). cbn. by rewrite Hname, IH by (done || lia).
Qed.

(** ** namecmp() *)

Lemma strncmp_cstr n : forall i p q, bytes_ok p -> bytes_ok q ->
  strncmp_at n i p q = 0 <-> cstr (take n (drop i p)) = cstr (take n (drop i q)).
Proof.
  induction n as [|n IH]; intros i p q Hp Hq; cbn [strncmp_at].
  - rewrite !take_0. done.
  - assert (forall s, bytes_ok s -> cstr (take (S n) (drop i s)) = if byte_at s i =? 0 then [] else byte_at s i :: cstr (take n (drop (i + 1) s))) as Hc.
    { intros s Hs. unfold byte_at. destruct (s !! i) as [c|] eqn:E.
      - rewrite (drop_S s c i E). cbn. rewrite u8_small by (eapply Forall_lookup_1 in E; [|exact Hs]; cbn in E; lia).
        by rewrite Nat.add_1_r.
      - rewrite drop_ge by (by apply lookup_ge_None). done. }
    rewrite !Hc by done. destruct (Z.eqb_spec (byte_at p i) 0) as [Ep|Ep]; cbn [negb andb].
    + rewrite Ep. destruct (Z.eqb_spec (byte_at q i) 0); split; intros; done || lia.
    + destruct (Z.eqb_spec (byte_at p i) (byte_at q i)) as [Epq|Epq].
      * rewrite IH by done. rewrite <- Epq, (proj2 (Z.eqb_neq (byte_at p i) 0)) by done. split; [by intros -> | congruence].
      * destruct (Z.eqb_spec (byte_at q i) 0); split; intros; done || lia || congruence.
Qed.

(** namecmp() is 0 exactly on equal file names. *)
Lemma namecmp_spec p q : bytes_ok p -> bytes_ok q -> namecmp p q = 0 <-> fname p = fname q.
Proof. intros Hp Hq. apply (strncmp_cstr 14 0 p q Hp Hq). Qed.
