(* ===== verification/FsBlock.v ===== *)
(** * The block allocator (kernel/fs.c: bzero, balloc, bfree)

    The free bitmap as the file system sees it through the cache: balloc() takes the
    first free block, bfree() gives it back. *)

From S2P Require Import Prelude State Mem Bytes Riscv Kalloc Vm Sched Sleeplock Bio Bcache Log LogSpec Crash Txn Uart Printf Proc Fs.

(** ** Bits of a bitmap block *)

Lemma land_bit x k : 0 <= k -> (Z.land x (Z.shiftl 1 k) =? 0) = negb (Z.testbit x k).
Proof.
  intros Hk. rewrite Z.shiftl_1_l. destruct (Z.testbit x k) eqn:E; cbn.
  - apply Z.eqb_neq. intros H0. apply (f_equal (fun z => Z.testbit z k)) in H0.
    rewrite Z.land_spec, Z.pow2_bits_true, E, Z.bits_0 in H0 by done. done.
  - apply Z.eqb_eq. apply Z.bits_inj'. intros n Hn. rewrite Z.land_spec, Z.bits_0, Z.pow2_bits_eqb by done.
    destruct (Z.eqb_spec k n) as [->|]; [by rewrite E | apply andb_false_r].
Qed.

Lemma bit_free_testbit d bi : 0 <= bi -> bit_free d bi = negb (Z.testbit (get_u8 d (bi / 8)) (bi mod 8)).
Proof. intros. unfold bit_free. apply land_bit. apply Z.mod_pos_bound. lia. Qed.

Lemma get_u8_range d o : 0 <= get_u8 d o < 256.
Proof.
  unfold get_u8. pose proof (le_value_range (get_bytes d o 1)) as H. unfold get_bytes in *. split; [lia |].
  eapply Z.lt_le_trans; [apply H |]. change 256 with (256 ^ 1) at 2. apply Z.pow_le_mono_r; [lia |]. rewrite length_take. lia.
Qed.

Lemma u8_testbit x k : 0 <= k < 8 -> Z.testbit (u8 x) k = Z.testbit x k.
Proof. intros. unfold u8. rewrite Z.mod_pow2_bits_low by lia. done. Qed.

Lemma same_bit a b : 0 <= a -> 0 <= b -> a / 8 = b / 8 -> a mod 8 = b mod 8 -> a = b.
Proof. intros. rewrite (Z.div_mod a 8), (Z.div_mod b 8) by lia. lia. Qed.

Lemma bit_free_set d bi j : length d = 1024%nat -> 0 <= bi < 8192 -> 0 <= j < 8192 ->
  bit_free (set_bit bi d) j = if decide (j = bi) then false else bit_free d j.
Proof.
  intros Hd Hb Hj. rewrite !bit_free_testbit by lia. unfold set_bit.
  assert (0 <= bi / 8 < 1024 /\ 0 <= j / 8 < 1024) as [Hb8 Hj8] by dlia.
  pose proof (Z.mod_pos_bound bi 8 ltac:(lia)). pose proof (Z.mod_pos_bound j 8 ltac:(lia)).
  destruct (decide (j / 8 = bi / 8)) as [E|E].
  - rewrite E, get_put_u8_eq, u8_testbit, Z.lor_spec, Z.shiftl_1_l, Z.pow2_bits_eqb by lia.
    case_decide as Hc; [subst; rewrite Z.eqb_refl; by rewrite orb_true_r |].
    rewrite (proj2 (Z.eqb_neq _ _)), orb_false_r by (intros Hm; apply Hc, same_bit; lia). done.
  - rewrite get_put_u8_ne by lia. case_decide; [congruence | done].
Qed.

Lemma bit_free_clear d bi j : length d = 1024%nat -> 0 <= bi < 8192 -> 0 <= j < 8192 ->
  bit_free (clear_bit bi d) j = if decide (j = bi) then true else bit_free d j.
Proof.
  intros Hd Hb Hj. rewrite !bit_free_testbit by lia. unfold clear_bit.
  assert (0 <= bi / 8 < 1024 /\ 0 <= j / 8 < 1024) as [Hb8 Hj8] by dlia.
  pose proof (Z.mod_pos_bound bi 8 ltac:(lia)). pose proof (Z.mod_pos_bound j 8 ltac:(lia)).
  destruct (decide (j / 8 = bi / 8)) as [E|E].
  - rewrite E, get_put_u8_eq, u8_testbit, Z.land_spec, Z.lnot_spec, Z.shiftl_1_l, Z.pow2_bits_eqb by lia.
    case_decide as Hc; [subst; rewrite Z.eqb_refl; by rewrite andb_false_r |].
    rewrite (proj2 (Z.eqb_neq _ _)) by (intros Hm; apply Hc, same_bit; lia). by rewrite andb_true_r.
  - rewrite get_put_u8_ne by lia. case_decide; [congruence | done].
Qed.

Lemma length_set_bit d bi : length d = 1024%nat -> 0 <= bi < 8192 -> length (set_bit bi d) = 1024%nat.
Proof. intros. unfold set_bit. rewrite length_put_u8; dlia. Qed.

Lemma length_clear_bit d bi : length d = 1024%nat -> 0 <= bi < 8192 -> length (clear_bit bi d) = 1024%nat.
Proof. intros. unfold clear_bit. rewrite length_put_u8; dlia. Qed.

(** The scan of one bitmap block. *)
Lemma scan_bits_spec n : forall bi b size d, match scan_bits n bi b size d with
  | Some k => bi <= k < bi + Z.of_nat n /\ b + k < size /\ bit_free d k = true /\ forall j, bi <= j < k -> bit_free d j = false
  | None => forall j, bi <= j < bi + Z.of_nat n -> b + j < size -> bit_free d j = false
  end.
Proof.
  induction n as [|n IH]; intros bi b size d; cbn [scan_bits]; [lia |].
  destruct (Z.ltb_spec (b + bi) size) as [Hs|Hs]; [|intros; lia]. destruct (bit_free d bi) eqn:E.
  - split_and!; done || lia.
  - specialize (IH (bi + 1) b size d). destruct (scan_bits n (bi + 1) b size d) as [k|].
    + destruct IH as (H1 & H2 & H3 & H4). split_and!; try done || lia. intros j Hj.
      destruct (decide (j = bi)) as [->|]; [done | apply H4; lia].
    + intros j Hj Hlt. destruct (decide (j = bi)) as [->|]; [done | apply IH; lia].
Qed.

(** ** The bitmap of the file system *)

Section block.
Context {P : Patience} {LK : Linker}.
Implicit Types (s : kernel) (bn : Z) (H : gset nat) (L : list Z).

Definition bit_used (f : Z -> list Z) (sb : superblock) (b : Z) : bool := negb (bit_free (f (BBLOCK b sb)) (b mod BPB)).

(** The super block describes a bitmap outside the log area. *)
Record layout s : Prop := {
  ly_size : 0 < s.(sb).(sb_size) < 2 ^ 31 - BPB;
  ly_bmap : 0 <= s.(sb).(sb_bmapstart) < 2 ^ 30;
  ly_out b : 0 <= b < s.(sb).(sb_size) -> loggable s (BBLOCK b s.(sb));
}.

Lemma BPB_eq : BPB = 8192.
Proof. done. Qed.

Lemma BBLOCK_eq s k bi : layout s -> 0 <= k -> 0 <= bi < BPB -> k * BPB + bi < s.(sb).(sb_size) ->
  BBLOCK (k * BPB + bi) s.(sb) = k + s.(sb).(sb_bmapstart) /\ (k * BPB + bi) mod BPB = bi.
Proof.
  intros [Hs Hb _] Hk Hbi Hlt. rewrite BPB_eq in *. unfold BBLOCK. rewrite BPB_eq.
  rewrite Z.div_add_l, (Z.div_small bi), Z.add_0_r, u32_small by lia. rewrite (Z.add_comm (k * 8192) bi), Z.mod_add, Z.mod_small by lia. done.
Qed.

Lemma tx_only_sb s s' : tx_only s s' -> s'.(sb) = s.(sb).
Proof. intros (Hio & _). apply io_only_sb in Hio. done. Qed.

Lemma layout_tx s s' : tx_only s s' -> layout s -> layout s'.
Proof.
  intros Hx [? ? Ho]. pose proof (tx_only_sb _ _ Hx) as E. constructor; rewrite E; try done. intros b Hb. eapply loggable_tx; [done | by apply Ho].
Qed.

(** Change a buffer that has been read, log it and release it; then go on. *)
Lemma tx_modify s pid H L i bn (g : list Z -> list Z) s1 : i ∉ H -> tx_step s pid ({[i]} ∪ H) L i bn (view s bn) s1 ->
  length (g (view s bn)) = 1024%nat -> loggable s bn -> Z.of_nat (length L) + 1 < s.(log).(log_size) ->
  wp (edit_buf i g;; log_write i;; brelse i) (fun _ => tx_update s pid H L bn (g (view s bn))) s1.
Proof.
  intros Hi (Ht1 & Hx1 & Hat1 & Ho1 & Hv1) Hg Hl Hc. apply wp_bind. unfold edit_buf. eapply wp_mono.
  - apply (tx_edit s1 pid _ L i bn (view s bn) g Ht1); [set_solver + | exact Hat1 | done].
  - intros _ s2 (Ht2 & Hx2 & Hat2 & Ho2 & Hv2). eapply (tx_log_release s s2 pid H L i bn); [done | | done | done].
    split_and!; [done | by eapply tx_only_trans | done | |].
    + intros j Hj. by rewrite Ho2, Ho1.
    + intros bn'. rewrite Hv2, Hv1. by case_decide.
Qed.

Lemma wp_seq3 {A} (m1 m2 m3 : M kernel unit) (k : M kernel A) Q s :
  wp (m1;; m2;; m3) (fun _ => wp k Q) s -> wp (m1;; m2;; m3;; k) Q s.
Proof.
  unfold wp, mbind, M_bind. destruct (m1 s) as [? s1| | |]; cbn [obind]; try done. destruct (m2 s1) as [? s2| | |]; cbn [obind]; try done.
  by destruct (m3 s2).
Qed.

(** bzero() *)
Lemma bzero_run s pid H L bn : txn s pid H L -> not_held s H bn -> loggable s bn -> (size H + length L < NBUF)%nat ->
  Z.of_nat (length L) + 1 < s.(log).(log_size) ->
  wp (bzero ROOTDEV bn) (fun _ => tx_update s pid H L bn (replicate 1024 0)) s.
Proof.
  intros Ht Hn Hl Hs Hc. unfold bzero. apply wp_bind. eapply wp_mono; [by apply (tx_bread s pid H L bn) |].
  intros i s1 (Hi & Hst). by apply (tx_modify s pid H L i bn (fun _ => replicate 1024 0)); try done; apply length_replicate.
Qed.

(** Nothing but the cache changed. *)
Definition tx_same s pid H L s' : Prop :=
  txn s' pid H L /\ tx_only s s' /\ (forall j, j ∈ H -> s'.(bufs) !! j = s.(bufs) !! j) /\ forall bn, view s' bn = view s bn.

Lemma tx_same_refl s pid H L : txn s pid H L -> tx_same s pid H L s.
Proof. intros Ht. split_and!; [done | apply tx_only_refl | done | done]. Qed.

Lemma tx_same_trans s1 s2 s3 pid H L : tx_same s1 pid H L s2 -> tx_same s2 pid H L s3 -> tx_same s1 pid H L s3.
Proof.
  intros (_ & X1 & B1 & V1) (T2 & X2 & B2 & V2). split_and!; [done | by eapply tx_only_trans | |].
  - intros j Hj. by rewrite B2, B1.
  - intros bn. by rewrite V2, V1.
Qed.

Lemma not_held_bufs s s' H bn : not_held s H bn -> (forall j, j ∈ H -> s'.(bufs) !! j = s.(bufs) !! j) -> not_held s' H bn.
Proof. intros Hn Hb i b Hi E. rewrite Hb in E by done. by eapply Hn. Qed.

(** Read a block and release it: [f] sees its contents. *)
Lemma tx_peek s pid H L bn i s1 : txn s pid H L -> not_held s H bn -> i ∉ H -> tx_step s pid ({[i]} ∪ H) L i bn (view s bn) s1 ->
  wp (brelse i) (fun _ => tx_same s pid H L) s1.
Proof.
  intros Ht Hn Hi (Ht1 & Hx1 & Hat1 & Ho1 & Hv1). eapply wp_mono.
  - eapply (tx_brelse s1 pid _ L i bn _ Ht1); [set_solver + | exact Hat1 |]. destruct Hx1 as (_ & -> & _). by eapply tx_clean.
  - intros _ s2 (Ht2 & Hx2 & Ho2 & Hv2). rewrite union_diff_l in Ht2 by done. split_and!; [done | by eapply tx_only_trans | |].
    + intros j Hj. assert (j <> i) by (intros ->; done). by rewrite Ho2, Ho1.
    + intros bn'. rewrite Hv2, Hv1. by case_decide; [subst |].
Qed.

Lemma tx_only_rest s s' : tx_only s s' -> s'.(held) = s.(held) /\ s'.(cons) = s.(cons).
Proof. intros ((_ & _ & E) & _). by rewrite E. Qed.

(** Nothing but the cache changed, and the message of balloc() was printed. *)
Definition out_of_blocks : list Z := chars "balloc: out of blocks\n".
Definition tx_printed s pid H L s' : Prop := exists s1 l', tx_same s pid H L s1 /\ s' = sent out_of_blocks l' s1.

(** The result of balloc(): the first free block [r], marked and zeroed; or 0 when every
    block is in use. *)
Definition balloc_post s pid H L (r : Z) s' : Prop :=
  (r = 0 /\ (forall b, 0 <= b < s.(sb).(sb_size) -> bit_used (view s) s.(sb) b = true) /\ tx_printed s pid H L s') \/
  (0 <= r < s.(sb).(sb_size) /\ bit_used (view s) s.(sb) r = false /\ (forall b, 0 <= b < r -> bit_used (view s) s.(sb) b = true) /\
   txn s' pid H (log_add r (log_add (BBLOCK r s.(sb)) L)) /\ tx_only s s' /\
   (forall j, j ∈ H -> s'.(bufs) !! j = s.(bufs) !! j) /\
   forall bn, view s' bn = if decide (bn = r) then replicate 1024 0
     else if decide (bn = BBLOCK r s.(sb)) then set_bit (r mod BPB) (view s bn) else view s bn).

Lemma balloc_take s pid H L s1 i k bi : layout s -> txn s pid H L -> 0 <= k -> 0 <= bi < BPB -> k * BPB + bi < s.(sb).(sb_size) ->
  (forall b, 0 <= b < k * BPB + bi -> bit_used (view s) s.(sb) b = true) -> bit_used (view s) s.(sb) (k * BPB + bi) = false ->
  loggable s (k * BPB + bi) -> not_held s H (k * BPB + bi) -> k * BPB + bi <> BBLOCK (k * BPB + bi) s.(sb) ->
  (size H + length L + 1 < NBUF)%nat -> Z.of_nat (length L) + 2 < s.(log).(log_size) -> i ∉ H ->
  tx_step s pid ({[i]} ∪ H) L i (k + s.(sb).(sb_bmapstart)) (view s (k + s.(sb).(sb_bmapstart))) s1 ->
  wp (edit_buf i (set_bit bi);; log_write i;; brelse i;; bzero ROOTDEV (k * BPB + bi);; mret (k * BPB + bi)) (balloc_post s pid H L) s1.
Proof.
  intros Hly Ht Hk Hbi Hlt Hall Hfree Hlog Hnh Hne Hs Hc Hi Hst.
  destruct (BBLOCK_eq s k bi Hly Hk Hbi Hlt) as [EB EM]. rewrite BPB_eq in *. set (bm := k + _) in *. set (r := k * 8192 + bi) in *.
  assert (length (view s bm) = 1024%nat) as Hlen by (eapply view_length, Ht).
  pose proof (ly_out _ Hly r ltac:(lia)) as Hlbm. rewrite EB in Hlbm.
  apply wp_seq3. eapply wp_mono; [apply (tx_modify s pid H L i bm (set_bit bi) s1 Hi Hst); [by apply length_set_bit | done | lia] |].
  intros _ s3 (Ht3 & Hx3 & Ho3 & Hv3). apply wp_bind. pose proof (log_add_length bm L) as Hll. pose proof Hx3 as (_ & _ & _ & _ & Hx3e).
  eapply wp_mono; [apply (bzero_run s3 pid H _ r Ht3); [by eapply not_held_bufs | by eapply loggable_tx | lia | rewrite Hx3e; lia] |].
  intros _ s4 (Ht4 & Hx4 & Ho4 & Hv4). right. rewrite EB. split_and!; [lia | lia | done | done | done | by eapply tx_only_trans | |].
  - intros j Hj. by rewrite Ho4, Ho3.
  - intros bn. change BPB with 8192. rewrite Hv4, EM. case_decide; [done |]. rewrite Hv3. case_decide as E; [by rewrite E | done].
Qed.

(** What balloc() relies on: free blocks may be logged and no bitmap block is held or
    free; the transaction has room for two more blocks; the message can be printed. *)
Record balloc_ready s H L : Prop := {
  br_layout : layout s;
  br_free b : 0 <= b < s.(sb).(sb_size) -> bit_used (view s) s.(sb) b = false ->
    loggable s b /\ not_held s H b /\ forall b', 0 <= b' < s.(sb).(sb_size) -> b <> BBLOCK b' s.(sb);
  br_bmap b : 0 <= b < s.(sb).(sb_size) -> not_held s H (BBLOCK b s.(sb));
  br_bufs : (size H + length L + 1 < NBUF)%nat;
  br_log : Z.of_nat (length L) + 2 < s.(log).(log_size);
  br_pr : LkPr ∉ s.(held);
  br_uart : (22 <= ready s.(cons).(dev_idle))%nat;
}.

Lemma bit_used_ext f g sb b : (forall bn, f bn = g bn) -> bit_used f sb b = bit_used g sb b.
Proof. intros E. unfold bit_used. by rewrite E. Qed.

Lemma balloc_ready_same s pid H L s' : balloc_ready s H L -> tx_same s pid H L s' -> balloc_ready s' H L.
Proof.
  intros [Hly Hf Hb Hs Hl Hp Hq] (Ht & Hx & Ho & Hv). destruct (tx_only_rest _ _ Hx) as [Eh Ec]. pose proof (tx_only_sb _ _ Hx) as E. pose proof Hx as (_ & _ & _ & _ & E2).
  constructor; rewrite ?E, ?E2, ?Eh, ?Ec; try done; [by eapply layout_tx | |].
  - intros b Hlt Hu. rewrite (bit_used_ext _ (view s)) in Hu by done. destruct (Hf b Hlt Hu) as (? & ? & ?).
    split_and!; [by eapply loggable_tx | by eapply not_held_bufs | done].
  - intros b Hlt. eapply not_held_bufs; [by apply Hb | done].
Qed.

Lemma balloc_post_same s pid H L s1 r s' : tx_same s pid H L s1 -> balloc_post s1 pid H L r s' -> balloc_post s pid H L r s'.
Proof.
  intros Hsm Hp. pose proof Hsm as (Ht & Hx & Ho & Hv). pose proof (tx_only_sb _ _ Hx) as E. unfold balloc_post in *. rewrite E in Hp.
  assert (forall b, bit_used (view s1) (sb s) b = bit_used (view s) (sb s) b) as Eu by (intros; by apply bit_used_ext).
  destruct Hp as [(-> & Hall & Hs')|(Hr & Hu & Hall & Ht' & Hx' & Ho' & Hv')]; [left | right].
  - destruct Hs' as (s2 & l' & Hs2 & ->). split_and!; [done | | exists s2, l'; split; [by eapply tx_same_trans | done]].
    intros b Hb. rewrite <- Eu. by apply Hall.
  - split_and!; [lia | lia | by rewrite <- Eu | | done | by eapply tx_only_trans | |].
    + intros b Hb. rewrite <- Eu. by apply Hall.
    + intros j Hj. by rewrite Ho', Ho.
    + intros bn. rewrite Hv'. by repeat case_decide; rewrite ?Hv.
Qed.

Lemma get_buf_at s i bn d : buf_at s i bn d -> exists x, get_buf i s = Ok x s /\ x.(b_data) = d.
Proof. intros (x & Hx & _ & Hd). exists x. split; [by apply get_buf_Ok | done]. Qed.

Lemma scan_used s k d : layout s -> 0 <= k -> d = view s (k + s.(sb).(sb_bmapstart)) ->
  forall bi, 0 <= bi < BPB -> k * BPB + bi < s.(sb).(sb_size) -> bit_used (view s) s.(sb) (k * BPB + bi) = negb (bit_free d bi).
Proof. intros Hly Hk -> bi Hbi Hlt. unfold bit_used. by destruct (BBLOCK_eq s k bi Hly Hk Hbi Hlt) as [-> ->]. Qed.

Lemma used_upto s k bi : 0 <= k -> (forall b, 0 <= b < k * BPB -> b < s.(sb).(sb_size) -> bit_used (view s) s.(sb) b = true) ->
  (forall j, 0 <= j < bi -> k * BPB + j < s.(sb).(sb_size) -> bit_used (view s) s.(sb) (k * BPB + j) = true) ->
  forall b, 0 <= b < k * BPB + bi -> b < s.(sb).(sb_size) -> bit_used (view s) s.(sb) b = true.
Proof.
  intros Hk Hlo Hhi b Hb Hlt. destruct (decide (b < k * BPB)) as [|Hge]; [by apply Hlo; lia |].
  replace b with (k * BPB + (b - k * BPB)) by lia. apply Hhi; lia.
Qed.

Lemma balloc_full s pid H L : balloc_ready s H L -> txn s pid H L -> (forall b, 0 <= b < s.(sb).(sb_size) -> bit_used (view s) s.(sb) b = true) ->
  wp (kprint "balloc: out of blocks\n" [];; mret 0) (balloc_post s pid H L) s.
Proof.
  intros Hr Ht Hall. destruct (printf_run out_of_blocks [] out_of_blocks s) as (l' & E & _).
  - reflexivity.
  - apply (bool_decide_unpack _). vm_compute. exact I.
  - apply (br_pr _ _ _ Hr).
  - apply (br_uart _ _ _ Hr).
  - apply wp_bind. eapply wp_Ok; [exact E |]. apply wp_ret. left. split_and!; [done | done |]. exists s, l'. split; [by apply tx_same_refl | done].
Qed.

Lemma balloc_loop_run n : forall s pid H L k, balloc_ready s H L -> txn s pid H L -> 0 <= k ->
  s.(sb).(sb_size) <= (k + Z.of_nat n) * BPB ->
  (forall b, 0 <= b < k * BPB -> b < s.(sb).(sb_size) -> bit_used (view s) s.(sb) b = true) ->
  wp (balloc_loop (S n) ROOTDEV (k * BPB)) (balloc_post s pid H L) s.
Proof.
  induction n as [|n IH]; intros s pid H L k Hr Ht Hk Hfu Hall; pose proof (br_layout _ _ _ Hr) as Hly;
    (assert (s.(sb).(sb_size) <= k * BPB -> wp (kprint "balloc: out of blocks\n" [];; mret 0) (balloc_post s pid H L) s) as Hend
      by (intros; eapply balloc_full; [done | done | intros; apply Hall; lia])).
  - cbn [balloc_loop]. apply wp_bind, wp_gets. rewrite (proj2 (Z.ltb_ge _ _)) by lia. apply Hend. lia.
  - remember (S n) as m. cbn [balloc_loop]. subst m. apply wp_bind, wp_gets.
    destruct (Z.ltb_spec (k * BPB) s.(sb).(sb_size)) as [Hlt|]; [|by apply Hend].
    destruct (BBLOCK_eq s k 0 Hly Hk) as [EB _]; [rewrite BPB_eq; lia | lia |]. rewrite Z.add_0_r in EB.
    pose proof (br_bmap _ _ _ Hr (k * BPB) ltac:(rewrite BPB_eq in *; lia)) as Hnb. rewrite EB in *.
    pose proof (br_bufs _ _ _ Hr) as Hbu. apply wp_bind. eapply wp_mono; [apply (tx_bread s pid H L _ Ht); [lia | done] |].
    intros i s1 (Hi & Hst). pose proof Hst as (_ & _ & Hat & _). destruct (get_buf_at _ _ _ _ Hat) as (x & Hx & Ed).
    apply wp_bind. eapply wp_Ok; [exact Hx |]. pose proof (scan_used s k _ Hly Hk Ed) as Hsc.
    pose proof (scan_bits_spec (Z.to_nat BPB) 0 (k * BPB) (sb_size (sb s)) (b_data x)) as Hs. rewrite Z2Nat.id in Hs by done.
    destruct (scan_bits _ _ _ _ _) as [bi|].
    + destruct Hs as (Hb & Hbl & Hf & Hp). assert (bit_used (view s) (sb s) (k * BPB + bi) = false) as Hu by (rewrite Hsc, Hf; done || lia).
      destruct (br_free _ _ _ Hr (k * BPB + bi) ltac:(rewrite BPB_eq in *; lia) Hu) as (? & ? & Hnbm).
      apply balloc_take; try done; try lia; [| apply Hnbm; rewrite BPB_eq in *; lia | apply (br_log _ _ _ Hr)].
      intros b Hbb. eapply used_upto; [exact Hk | exact Hall | | exact Hbb | lia]. intros j Hj Hjl. rewrite Hsc by lia. by rewrite Hp by lia.
    + apply wp_bind. eapply wp_mono; [by eapply (tx_peek s pid H L _ i s1) |]. intros ? s2 Hsm; cbn beta in Hsm.
      replace (k * BPB + BPB) with ((k + 1) * BPB) by lia. pose proof Hsm as (Ht2 & Hx2 & _ & Hv2). pose proof (tx_only_sb _ _ Hx2) as E2.
      eapply wp_mono; [apply (IH s2 pid H L (k + 1)); [by eapply balloc_ready_same | done | lia | rewrite E2; lia |] |].
      * intros b Hb. rewrite E2, (bit_used_ext _ (view s)) by done. intros Hbl.
        eapply (used_upto s k BPB); [done | done | | lia | done]. intros j Hj Hjl. rewrite Hsc by lia. by rewrite Hs by lia.
      * intros r s3 Hp. by eapply balloc_post_same.
Qed.

(** balloc() *)
Lemma balloc_run s pid H L : balloc_ready s H L -> txn s pid H L -> wp (balloc ROOTDEV) (balloc_post s pid H L) s.
Proof.
  intros Hr Ht. unfold balloc. apply wp_bind, wp_gets. apply (balloc_loop_run _ s pid H L 0); try done.
  - pose proof (ly_size _ (br_layout _ _ _ Hr)). rewrite BPB_eq in *. rewrite Nat2Z.inj_succ, Z2Nat.id by dlia. dlia.
  - lia.
Qed.

Lemma BPB_mod b : 0 <= b mod BPB < 8192.
Proof. rewrite BPB_eq. apply Z.mod_pos_bound. lia. Qed.

(** A bit of the bitmap is determined by its block and its place in it. *)
Lemma same_block s a b : layout s -> 0 <= a < s.(sb).(sb_size) -> 0 <= b < s.(sb).(sb_size) ->
  BBLOCK a s.(sb) = BBLOCK b s.(sb) -> a mod BPB = b mod BPB -> a = b.
Proof.
  intros [Hs Hm _] Ha Hb. rewrite BPB_eq in *. unfold BBLOCK. rewrite BPB_eq, !u32_small by dlia. dlia.
Qed.

Lemma bit_used_set s f g r : layout s -> 0 <= r < s.(sb).(sb_size) -> length (f (BBLOCK r s.(sb))) = 1024%nat ->
  g (BBLOCK r s.(sb)) = set_bit (r mod BPB) (f (BBLOCK r s.(sb))) ->
  forall b, 0 <= b < s.(sb).(sb_size) -> (BBLOCK b s.(sb) <> BBLOCK r s.(sb) -> g (BBLOCK b s.(sb)) = f (BBLOCK b s.(sb))) ->
  bit_used g s.(sb) b = if decide (b = r) then true else bit_used f s.(sb) b.
Proof.
  intros Hly Hr Hlen E b Hb Hne. unfold bit_used. destruct (decide (BBLOCK b s.(sb) = BBLOCK r s.(sb))) as [Eb|Eb].
  - rewrite Eb, E, bit_free_set by (done || apply BPB_mod). case_decide as Hm.
    + rewrite decide_True; [done | by eapply same_block].
    + rewrite decide_False; [done | by intros ->].
  - rewrite Hne by done. case_decide; [by subst | done].
Qed.

Lemma bit_used_clear s f g r : layout s -> 0 <= r < s.(sb).(sb_size) -> length (f (BBLOCK r s.(sb))) = 1024%nat ->
  g (BBLOCK r s.(sb)) = clear_bit (r mod BPB) (f (BBLOCK r s.(sb))) ->
  forall b, 0 <= b < s.(sb).(sb_size) -> (BBLOCK b s.(sb) <> BBLOCK r s.(sb) -> g (BBLOCK b s.(sb)) = f (BBLOCK b s.(sb))) ->
  bit_used g s.(sb) b = if decide (b = r) then false else bit_used f s.(sb) b.
Proof.
  intros Hly Hr Hlen E b Hb Hne. unfold bit_used. destruct (decide (BBLOCK b s.(sb) = BBLOCK r s.(sb))) as [Eb|Eb].
  - rewrite Eb, E, bit_free_clear by (done || apply BPB_mod). case_decide as Hm.
    + rewrite decide_True; [done | by eapply same_block].
    + rewrite decide_False; [done | by intros ->].
  - rewrite Hne by done. case_decide; [by subst | done].
Qed.

(** bfree() of a block in use; of a free one, it panics. *)
Lemma bfree_run s pid H L b : layout s -> txn s pid H L -> 0 <= b < s.(sb).(sb_size) -> not_held s H (BBLOCK b s.(sb)) ->
  (size H + length L < NBUF)%nat -> Z.of_nat (length L) + 1 < s.(log).(log_size) ->
  if bit_used (view s) s.(sb) b
  then wp (bfree ROOTDEV b) (fun _ => tx_update s pid H L (BBLOCK b s.(sb)) (clear_bit (b mod BPB) (view s (BBLOCK b s.(sb))))) s
  else bfree ROOTDEV b s = Panic "freeing free block".
Proof.
  intros Hly Ht Hb Hn Hs Hc. set (bm := BBLOCK b s.(sb)) in *. pose proof (BPB_mod b) as Hm.
  destruct (wp_inv _ _ _ (tx_bread s pid H L bm Ht Hs Hn)) as (i & s1 & Er & Hi & Hst).
  pose proof Hst as (_ & _ & Hat1 & _). destruct (get_buf_at _ _ _ _ Hat1) as (x & Hx & Ed).
  assert (length (view s bm) = 1024%nat) as Hlen by (eapply view_length, Ht).
  unfold bit_used. fold bm. destruct (bit_free (view s bm) (b mod BPB)) eqn:Ef; cbn [negb].
  - unfold bfree. erewrite bind_Ok by done. fold bm. erewrite bind_Ok by exact Er. erewrite bind_Ok by exact Hx. by rewrite Ed, Ef.
  - unfold bfree. apply wp_bind, wp_gets. fold bm. apply wp_bind. eapply wp_Ok; [exact Er |]. apply wp_bind. eapply wp_Ok; [exact Hx |].
    rewrite Ed, Ef. apply (tx_modify s pid H L i bm (clear_bit (b mod BPB))); try done; [by apply length_clear_bit | by apply (ly_out _ Hly)].
Qed.

(** The bitmap after balloc() and after bfree(). *)
Lemma balloc_bits s pid H L r s' : balloc_ready s H L -> txn s pid H L -> balloc_post s pid H L r s' -> bit_used (view s) s.(sb) 0 = true ->
  if r =? 0 then (forall b, 0 <= b < s.(sb).(sb_size) -> bit_used (view s) s.(sb) b = true) /\ tx_printed s pid H L s'
  else 0 < r < s.(sb).(sb_size) /\ bit_used (view s) s.(sb) r = false /\
    (forall b, 0 <= b < s.(sb).(sb_size) -> bit_used (view s') s.(sb) b = if decide (b = r) then true else bit_used (view s) s.(sb) b).
Proof.
  intros Hr Ht Hp H0. pose proof (br_layout _ _ _ Hr) as Hly. destruct Hp as [(-> & Hall & Hs)|(Hb & Hu & _ & Ht' & _ & _ & Hv)]; [by cbn |].
  destruct (Z.eqb_spec r 0) as [->|]; [congruence |]. split_and!; [lia | lia | done |]. destruct (br_free _ _ _ Hr r Hb Hu) as (_ & _ & Hn).
  intros b Hlt. eapply (bit_used_set s); try done.
  - eapply view_length, Ht.
  - rewrite Hv, decide_False by (intros E; by apply (Hn r)). by rewrite decide_True.
  - intros Hne. rewrite Hv, !decide_False; [done.. | intros E; by apply (Hn b)].
Qed.

Lemma bfree_bits s pid H L r s' : layout s -> txn s pid H L -> 0 <= r < s.(sb).(sb_size) ->
  tx_update s pid H L (BBLOCK r s.(sb)) (clear_bit (r mod BPB) (view s (BBLOCK r s.(sb)))) s' ->
  forall b, 0 <= b < s.(sb).(sb_size) -> bit_used (view s') s.(sb) b = if decide (b = r) then false else bit_used (view s) s.(sb) b.
Proof.
  intros Hly Ht Hr (Ht' & _ & _ & Hv) b Hb. eapply (bit_used_clear s); try done.
  - eapply view_length, Ht.
  - by rewrite Hv, decide_True.
  - intros Hne. by rewrite Hv, decide_False.
Qed.

(** C17. balloc() returns the first free block: it is marked in use, zeroed and logged with
    its bitmap block; every other bit and every other block is as it was. It returns 0
    exactly when no block is free, and then it has printed its message and changed nothing else. *)
Theorem balloc_spec s pid H L : balloc_ready s H L -> txn s pid H L -> bit_used (view s) s.(sb) 0 = true ->
  wp (balloc ROOTDEV) (fun r s' =>
    if r =? 0 then (forall b, 0 <= b < s.(sb).(sb_size) -> bit_used (view s) s.(sb) b = true) /\ tx_printed s pid H L s'
    else 0 < r < s.(sb).(sb_size) /\ bit_used (view s) s.(sb) r = false /\
      (forall b, 0 <= b < r -> bit_used (view s) s.(sb) b = true) /\
      (forall b, 0 <= b < s.(sb).(sb_size) -> bit_used (view s') s.(sb) b = if decide (b = r) then true else bit_used (view s) s.(sb) b) /\
      view s' r = replicate 1024 0 /\
      (forall bn, bn <> r -> bn <> BBLOCK r s.(sb) -> view s' bn = view s bn) /\
      txn s' pid H (log_add r (log_add (BBLOCK r s.(sb)) L))) s.
Proof.
  intros Hr Ht H0. eapply wp_mono; [by apply (balloc_run s pid H L) |]. intros r s' Hp.
  pose proof (balloc_bits _ _ _ _ _ _ Hr Ht Hp H0) as Hbits. destruct (Z.eqb_spec r 0) as [|Hne]; [done |].
  destruct Hbits as (Hrr & Hu & Hb). destruct Hp as [(-> & _)|(_ & _ & Hall & Ht' & _ & _ & Hv)]; [done |].
  split_and!; try done || lia.
  - by rewrite Hv, decide_True.
  - intros bn H1 H2. by rewrite Hv, !decide_False.
Qed.

(** bfree() undoes balloc(): the freed block is the one that was taken, bfree() does not
    panic, and every bit of the bitmap is again what it was before. *)
Theorem balloc_bfree s pid H L : balloc_ready s H L -> txn s pid H L -> bit_used (view s) s.(sb) 0 = true ->
  (size H + length L + 2 < NBUF)%nat -> Z.of_nat (length L) + 3 < s.(log).(log_size) ->
  wp (r ← balloc ROOTDEV; when (negb (r =? 0)) (bfree ROOTDEV r)) (fun _ s' =>
    forall b, 0 <= b < s.(sb).(sb_size) -> bit_used (view s') s.(sb) b = bit_used (view s) s.(sb) b) s.
Proof.
  intros Hr Ht H0 Hs Hc. pose proof (br_layout _ _ _ Hr) as Hly. apply wp_bind. eapply wp_mono; [by apply (balloc_run s pid H L) |]. intros r s1 Hp.
  pose proof (balloc_bits _ _ _ _ _ _ Hr Ht Hp H0) as Hbits. destruct (Z.eqb_spec r 0) as [|Hne]; cbn [negb when].
  - apply wp_ret. intros b Hb. destruct Hbits as (_ & s2 & l' & (_ & _ & _ & Hv) & ->). by apply bit_used_ext.
  - destruct Hbits as (Hrr & Hu & Hb). destruct Hp as [(-> & _)|(_ & _ & _ & Ht1 & Hx1 & Ho1 & Hv1)]; [done |].
    pose proof (tx_only_sb _ _ Hx1) as E. pose proof Hx1 as (_ & _ & _ & _ & E2).
    pose proof (log_add_length r (log_add (BBLOCK r s.(sb)) L)). pose proof (log_add_length (BBLOCK r s.(sb)) L).
    pose proof (layout_tx _ _ Hx1 Hly) as Hly1.
    pose proof (bfree_run s1 pid H _ r Hly1 Ht1) as Hf. rewrite E, E2 in Hf.
    rewrite (Hb r), decide_True in Hf by (done || lia).
    eapply wp_mono; [apply Hf; [lia | | lia | lia] |].
    + eapply not_held_bufs; [apply (br_bmap _ _ _ Hr); lia | done].
    + intros ? s2 Hup b Hbb; cbn beta in Hup. pose proof (bfree_bits s1 pid H _ r s2 Hly1 Ht1) as Hf2. rewrite E in Hf2. rewrite Hf2 by (done || lia).
      case_decide; [by subst | by rewrite Hb, decide_False].
Qed.

End block.
