(* ===== verification/FsInode.v ===== *)
(** * Inode content (kernel/fs.c: bmap, readi, writei, iupdate)

    The bytes of a file, as the blocks of the disk and the addresses in its inode define
    them, and what bmap(), readi() and writei() do to them inside a transaction. *)

From S2P Require Import Prelude State Mem Bytes Riscv Kalloc Vm Sched Sleeplock Bio Bcache Log LogSpec Crash Txn Proc Fs FsBlock.

Section inode.
Context {P : Patience} {LK : Linker}.
Implicit Types (s : kernel) (bn : Z) (H : gset nat) (L : list Z) (x : inode) (f : Z -> list Z).

(** ** The bytes of a file *)

(** The disk block that holds block [n] of the file, or 0. *)
Definition file_addr f x (n : Z) : Z :=
  if n <? NDIRECT then addr_at x n
  else if addr_at x NDIRECT =? 0 then 0 else get_u32 (f (addr_at x NDIRECT)) (4 * (n - NDIRECT)).

Definition file_byte f x (o : Z) : Z := f (file_addr f x (o / BSIZE)) !!! Z.to_nat (o mod BSIZE).

(** [n] bytes of the file from [off] on. *)
Definition file_bytes f x (off n : Z) : list Z := file_byte f x <$> seqZ off n.

(** The inode at [ip] has the blocks below [k]; no buffer of [H] caches one of them or
    the indirect block. *)
Record has_blocks s H (ip : nat) x (k : Z) : Prop := {
  mp_inode : s.(itable) !! ip = Some x;
  mp_dev : x.(i_dev) = ROOTDEV;
  mp_max : k <= MAXFILE;
  mp_addr n : 0 <= n < k -> file_addr (view s) x n <> 0 /\ not_held s H (file_addr (view s) x n);
  mp_ind : NDIRECT < k -> not_held s H (addr_at x NDIRECT);
}.

Lemma tx_only_itable s s' : tx_only s s' -> s'.(itable) = s.(itable).
Proof. intros ((_ & _ & ->) & _). done. Qed.

Lemma file_addr_ext f g x n : (forall bn, f bn = g bn) -> file_addr f x n = file_addr g x n.
Proof. intros E. unfold file_addr. by rewrite E. Qed.

Lemma has_blocks_same s pid H L ip x k s' : has_blocks s H ip x k -> tx_same s pid H L s' -> has_blocks s' H ip x k.
Proof.
  intros [Hi Hd Hm Ha Hn] (Ht & Hx & Ho & Hv). constructor; try done.
  - by rewrite (tx_only_itable _ _ Hx).
  - intros n Hlt. rewrite (file_addr_ext _ (view s)) by done. destruct (Ha n Hlt). split; [done | by eapply not_held_bufs].
  - intros Hk. eapply not_held_bufs; [by apply Hn | done].
Qed.

Lemma get_inode_Ok s ip x : s.(itable) !! ip = Some x -> get_inode ip s = Ok x s.
Proof. intros E. unfold get_inode. by rewrite E. Qed.

(** ** bmap() *)

Lemma bmap_run s pid H L ip x k n : txn s pid H L -> has_blocks s H ip x k -> 0 <= n < k -> (size H + length L < NBUF)%nat ->
  wp (bmap ip n) (fun a s' => a = file_addr (view s) x n /\ tx_same s pid H L s') s.
Proof.
  intros Ht [Hi Hd Hm Ha Hn] Hlt Hs. destruct (Ha n Hlt) as [Hnz _]. unfold bmap. apply wp_bind. eapply wp_Ok; [by apply get_inode_Ok |].
  unfold file_addr in *. destruct (Z.ltb_spec n NDIRECT) as [Hdir|Hdir].
  - rewrite (proj2 (Z.eqb_neq _ _)) by done. apply wp_ret. split; [done | by apply tx_same_refl].
  - rewrite (proj2 (Z.ltb_lt _ _)) by (unfold MAXFILE in Hm; lia). destruct (Z.eqb_spec (addr_at x NDIRECT) 0) as [|Hind]; [done |].
    apply wp_bind, wp_ret. rewrite (proj2 (Z.eqb_neq _ _)) by done. rewrite Hd. apply wp_bind.
    assert (NDIRECT < k) as Hk by lia. eapply wp_mono; [apply (tx_bread s pid H L _ Ht Hs); by apply Hn |].
    intros i s1 (Hih & Hst). pose proof Hst as (_ & _ & Hat & _). destruct (get_buf_at _ _ _ _ Hat) as (b & Hb & Ed).
    apply wp_bind. eapply wp_Ok; [exact Hb |]. rewrite Ed, (proj2 (Z.eqb_neq _ _)) by done. apply wp_bind, wp_ret.
    apply wp_bind. eapply wp_mono; [eapply (tx_peek s pid H L); [done | by apply Hn | done | exact Hst] |].
    intros ? s2 Hsm; cbn beta in Hsm. by apply wp_ret.
Qed.

(** ** readi() *)

Lemma file_bytes_app f x off a b : 0 <= a -> 0 <= b -> file_bytes f x off (a + b) = file_bytes f x off a ++ file_bytes f x (off + a) b.
Proof. intros. unfold file_bytes. by rewrite seqZ_app, fmap_app by lia. Qed.

Lemma file_bytes_0 f x off n : n <= 0 -> file_bytes f x off n = [].
Proof. intros. unfold file_bytes. by rewrite seqZ_nil. Qed.

(** Bytes of one block. *)
Lemma block_bytes f x off m : length (f (file_addr f x (off / BSIZE))) = 1024%nat -> 0 <= off -> 0 <= m <= BSIZE - off mod BSIZE ->
  get_bytes (f (file_addr f x (off / BSIZE))) (off mod BSIZE) m = file_bytes f x off m.
Proof.
  change BSIZE with 1024. intros Hl Ho Hm. pose proof (Z.mod_pos_bound off 1024 ltac:(lia)). apply list_eq. intros i. unfold file_bytes, get_bytes.
  rewrite list_lookup_fmap. destruct (decide (i < Z.to_nat m)%nat).
  - rewrite lookup_take_lt, lookup_drop by lia. rewrite lookup_seqZ_lt by lia. cbn [fmap option_fmap option_map]. unfold file_byte.
    change BSIZE with 1024. assert ((off + Z.of_nat i) / 1024 = off / 1024) as -> by dlia.
    assert ((off + Z.of_nat i) mod 1024 = off mod 1024 + Z.of_nat i) as -> by dlia.
    rewrite <- list_lookup_lookup_total_lt by lia. f_equal. lia.
  - rewrite lookup_take_ge by lia. rewrite lookup_seqZ_ge by lia. done.
Qed.

Lemma file_bytes_ext f g x off n : (forall bn, f bn = g bn) -> file_bytes f x off n = file_bytes g x off n.
Proof. intros E. unfold file_bytes. apply list_fmap_ext. intros i o _. unfold file_byte. by rewrite E, (file_addr_ext f g). Qed.

(** One step of the loops of readi() and writei(): [m] bytes from [off] on lie in one
    block, and a block fewer remains. *)
Lemma chunk_step off n tot q m : 0 <= off -> tot < n -> m = Z.min (n - tot) (BSIZE - off mod BSIZE) -> off mod BSIZE + (n - tot) <= q * BSIZE ->
  0 < m <= BSIZE - off mod BSIZE /\ tot + m <= n /\ 0 < q /\ (n <= tot + m \/ (off + m) mod BSIZE + (n - (tot + m)) <= (q - 1) * BSIZE).
Proof. change BSIZE with 1024. intros. pose proof (Z.mod_pos_bound off 1024 ltac:(lia)). split_and!; try lia. dlia. Qed.

Lemma readi_loop_run fuel : forall s pid H L ip x k off n tot bs, txn s pid H L -> has_blocks s H ip x k -> (size H + length L < NBUF)%nat ->
  0 <= off -> 0 <= tot <= n -> off + (n - tot) <= k * BSIZE -> (n <= tot \/ off mod BSIZE + (n - tot) <= Z.of_nat fuel * BSIZE) ->
  wp (readi_loop (S fuel) ip ToLocal off n tot bs) (fun rb s' => rb = (n, bs ++ file_bytes (view s) x off (n - tot)) /\ tx_same s pid H L s') s.
Proof.
  induction fuel as [|fuel IH]; intros s pid H L ip x k off n tot bs Ht Hm Hs Ho Htot Hk Hf; [|remember (S fuel) as m']; cbn [readi_loop];
    (destruct (Z.ltb_spec tot n) as [Hlt|Hge];
      [|apply wp_ret; replace tot with n by lia; rewrite file_bytes_0, app_nil_r by lia; split; [done | by apply tx_same_refl]]).
  { exfalso. change BSIZE with 1024 in *. pose proof (Z.mod_pos_bound off 1024 ltac:(lia)). lia. }
  subst m'. destruct Hf as [|Hf]; [lia |]. assert (0 <= off / BSIZE < k) as Hbn by (change BSIZE with 1024 in *; dlia).
  apply wp_bind. eapply wp_mono; [by eapply (bmap_run s pid H L ip x k) |]. intros a s1 [-> Hs1]. pose proof Hs1 as (Ht1 & Hx1 & Ho1 & Hv1).
  pose proof (has_blocks_same _ _ _ _ _ _ _ _ Hm Hs1) as Hm1. destruct (mp_addr _ _ _ _ _ Hm1 _ Hbn) as [Hnz Hnh].
  rewrite (file_addr_ext _ (view s)) in Hnz, Hnh by done. rewrite (proj2 (Z.eqb_neq _ _)) by done.
  set (a := file_addr (view s) x (off / BSIZE)) in *.
  apply wp_bind. eapply wp_Ok; [apply get_inode_Ok, Hm1 |]. rewrite (mp_dev _ _ _ _ _ Hm1).
  apply wp_bind. eapply wp_mono; [by apply (tx_bread s1 pid H L) |]. intros i s2 (Hi & Hst).
  pose proof Hst as (_ & _ & Hat & _). destruct (get_buf_at _ _ _ _ Hat) as (b & Hb & Ed). apply wp_bind. eapply wp_Ok; [exact Hb |].
  rewrite Ed, Hv1. set (m := Z.min _ _). destruct (chunk_step off n tot _ m Ho Hlt eq_refl Hf) as (Hmr & Htm & _ & Hf').
  unfold a. rewrite block_bytes by (lia || (eapply view_length, Ht)). cbn [copy_to]. apply wp_bind, wp_ret. cbn [Z.eqb].
  apply wp_bind. eapply wp_mono; [eapply (tx_peek s1 pid H L); [done | exact Hnh | done | exact Hst] |]. intros ? s3 Hs3; cbn beta in Hs3.
  pose proof (tx_same_trans _ _ _ _ _ _ Hs1 Hs3) as Hs13. pose proof Hs13 as (Ht3 & _ & _ & Hv3).
  eapply wp_mono; [apply (IH s3 pid H L ip x k (off + m) n (tot + m)); [done | by eapply has_blocks_same | done | lia | lia | lia | lia] |].
  intros rb s4 [-> Hs4]. split; [|by eapply tx_same_trans]. f_equal. rewrite <- app_assoc. f_equal.
  rewrite (file_bytes_ext (view s3) (view s)), <- file_bytes_app by (done || lia). f_equal. lia.
Qed.

(** The number of bytes readi() reads. *)
Definition readi_count x (off n : Z) : Z := if (x.(i_size) <? off) || (2 ^ 32 <=? off + n) then 0 else Z.min n (x.(i_size) - off).

Lemma readi_run s pid H L ip x off n : txn s pid H L -> has_blocks s H ip x ((x.(i_size) + 1023) / BSIZE) -> (size H + length L < NBUF)%nat ->
  0 <= off < 2 ^ 32 -> 0 <= n < 2 ^ 32 ->
  wp (readi ip ToLocal off n) (fun rb s' =>
    rb = (readi_count x off n, file_bytes (view s) x off (readi_count x off n)) /\ tx_same s pid H L s') s.
Proof.
  intros Ht Hm Hs Ho Hn. unfold readi, readi_count. apply wp_bind. eapply wp_Ok; [apply get_inode_Ok, Hm |].
  assert ((u32 (off + n) <? off) = (2 ^ 32 <=? off + n)) as ->.
  { unfold u32. change (2 ^ 32) with 4294967296 in *. destruct (Z.leb_spec 4294967296 (off + n)); [apply Z.ltb_lt | apply Z.ltb_ge]; dlia. }
  destruct (_ || _) eqn:E; [apply wp_ret; rewrite file_bytes_0 by lia; split; [done | by apply tx_same_refl] |].
  apply orb_false_iff in E as [E1%Z.ltb_ge E2%Z.leb_gt]. rewrite u32_small by lia.
  replace (if _ <? _ then _ else n) with (Z.min n (x.(i_size) - off)) by (destruct (Z.ltb_spec (i_size x) (off + n)); lia).
  set (c := Z.min n _). rewrite (Nat.add_succ_r _ 2). eapply wp_mono.
  - eapply (readi_loop_run _ s pid H L ip x _ off c 0 [] Ht Hm Hs); try lia; change BSIZE with 1024; [dlia | right; dlia].
  - intros rb s' [-> Hsm]. by rewrite Z.sub_0_r.
Qed.

(** ** Writing a file *)

Definition overlay (off : Z) (bs : list Z) (g : Z -> Z) (o : Z) : Z :=
  if decide (off <= o < off + Z.of_nat (length bs)) then bs !!! Z.to_nat (o - off) else g o.

(** The blocks of the file are different from each other and from the indirect block. *)
Record distinct f x (k : Z) : Prop := {
  ds_inj n n' : 0 <= n < k -> 0 <= n' < k -> file_addr f x n = file_addr f x n' -> n = n';
  ds_ind n : 0 <= n < k -> NDIRECT < k -> addr_at x NDIRECT <> file_addr f x n;
}.

(** From [f] to [f'], [bs] has been written to the file at [off], and nothing else. *)
Record file_upd f f' x (k off : Z) (bs : list Z) : Prop := {
  fu_byte o : 0 <= o < k * BSIZE -> file_byte f' x o = overlay off bs (file_byte f x) o;
  fu_other bn : (forall n, 0 <= n < k -> bn <> file_addr f x n) -> f' bn = f bn;
}.

Lemma addr_stable f f' x k n : distinct f x k -> (forall bn, (forall n, 0 <= n < k -> bn <> file_addr f x n) -> f' bn = f bn) ->
  0 <= n < k -> file_addr f' x n = file_addr f x n.
Proof.
  intros Hd Ho Hn. unfold file_addr. destruct (Z.ltb_spec n NDIRECT); [done |]. case_match; [done |].
  rewrite Ho; [done |]. intros n' Hn'. apply (ds_ind _ _ _ Hd); lia.
Qed.

Lemma distinct_upd f f' x k off bs : distinct f x k -> file_upd f f' x k off bs -> distinct f' x k.
Proof.
  intros Hd [_ Ho]. pose proof (fun n => addr_stable f f' x k n Hd Ho) as E. constructor.
  - intros n n' Hn Hn'. rewrite !E by done. by apply (ds_inj _ _ _ Hd).
  - intros n Hn Hk. rewrite E by done. by apply (ds_ind _ _ _ Hd).
Qed.

Lemma has_blocks_upd s s' H ip x k off bs : has_blocks s H ip x k -> distinct (view s) x k -> file_upd (view s) (view s') x k off bs ->
  s'.(itable) = s.(itable) -> (forall j, j ∈ H -> s'.(bufs) !! j = s.(bufs) !! j) -> has_blocks s' H ip x k.
Proof.
  intros [Hi Hd Hm Ha Hn] Hds [_ Hu] Et Hb. constructor; try done; [by rewrite Et | |].
  - intros n Hlt. rewrite (addr_stable (view s) _ _ k) by done. destruct (Ha n Hlt). split; [done | by eapply not_held_bufs].
  - intros Hk. eapply not_held_bufs; [by apply Hn | done].
Qed.

Lemma put_bytes_at d off bs i : 0 <= off -> off + Z.of_nat (length bs) <= Z.of_nat (length d) -> (i < length d)%nat ->
  put_bytes d off bs !!! i = if decide (off <= Z.of_nat i < off + Z.of_nat (length bs)) then bs !!! (i - Z.to_nat off)%nat else d !!! i.
Proof.
  intros Ho Hl Hi. unfold put_bytes. case_decide.
  - rewrite lookup_total_app_r, length_take by (rewrite length_take; lia). rewrite lookup_total_app_l by lia. f_equal. lia.
  - destruct (decide (Z.of_nat i < off)).
    + rewrite lookup_total_app_l by (rewrite length_take; lia). by rewrite lookup_total_take_lt by lia.
    + rewrite lookup_total_app_r, length_take by (rewrite length_take; lia). rewrite lookup_total_app_r by lia.
      rewrite lookup_total_drop. f_equal. lia.
Qed.

(** One block written. *)
Lemma upd_block f f' x k off bs : let a := file_addr f x (off / BSIZE) in
  distinct f x k -> 0 <= off -> off / BSIZE < k -> length (f a) = 1024%nat -> Z.of_nat (length bs) <= BSIZE - off mod BSIZE ->
  (forall bn, f' bn = if decide (bn = a) then put_bytes (f a) (off mod BSIZE) bs else f bn) -> file_upd f f' x k off bs.
Proof.
  change BSIZE with 1024. intros a Hd Ho Hk Hl Hb Hf. pose proof (Z.mod_pos_bound off 1024 ltac:(lia)).
  assert (forall bn, (forall n, 0 <= n < k -> bn <> file_addr f x n) -> f' bn = f bn) as Hoth.
  { intros bn Hbn. rewrite Hf, decide_False; [done |]. apply Hbn. dlia. }
  constructor; [|done]. change BSIZE with 1024. intros o Hor. unfold file_byte, overlay. change BSIZE with 1024. assert (0 <= o / 1024 < k) by dlia.
  pose proof (Z.mod_pos_bound o 1024 ltac:(lia)). rewrite (addr_stable f f' x k) by done. rewrite Hf. case_decide as Ea.
  - apply (ds_inj _ _ _ Hd) in Ea; [|lia | dlia]. rewrite Ea. fold a. rewrite put_bytes_at by lia.
    destruct (decide (off <= o < _)); [rewrite decide_True by dlia; f_equal; dlia | by rewrite decide_False by dlia].
  - rewrite decide_False; [done |]. intros Hr. apply Ea. unfold a. f_equal. dlia.
Qed.

Lemma upd_nil f x k off : file_upd f f x k off [].
Proof. constructor; [|done]. intros o _. unfold overlay. rewrite decide_False; [done | cbn; lia]. Qed.

Lemma upd_app f f1 f2 x k off bs1 bs2 : distinct f x k -> file_upd f f1 x k off bs1 ->
  file_upd f1 f2 x k (off + Z.of_nat (length bs1)) bs2 -> file_upd f f2 x k off (bs1 ++ bs2).
Proof.
  intros Hd [B1 O1] [B2 O2]. pose proof (fun n => addr_stable f f1 x k n Hd O1) as E. constructor.
  - intros o Ho. rewrite B2 by done. unfold overlay. rewrite B1 by done. unfold overlay. rewrite length_app.
    repeat case_decide; try lia; try done.
    + rewrite lookup_total_app_r by lia. f_equal. lia.
    + by rewrite lookup_total_app_l by lia.
  - intros bn Hbn. rewrite O2, O1; [done | done |]. intros n Hn. rewrite E by done. by apply Hbn.
Qed.

(** A transaction that went on, with at most [q] more blocks in the log. *)
Definition tx_grown s pid H L (q : nat) s' : Prop :=
  exists L', txn s' pid H L' /\ (length L' <= length L + q)%nat /\ tx_only s s' /\ forall j, j ∈ H -> s'.(bufs) !! j = s.(bufs) !! j.

Lemma grown_same s pid H L s' : tx_same s pid H L s' -> tx_grown s pid H L 0 s'.
Proof. intros (? & ? & ? & _). exists L. split_and!; done || lia. Qed.

Lemma get_bytes_app (d : list Z) o a b : 0 <= o -> 0 <= a -> 0 <= b -> get_bytes d o (a + b) = get_bytes d o a ++ get_bytes d (o + a) b.
Proof.
  intros. unfold get_bytes. rewrite !Z2Nat.inj_add, <- drop_drop by lia. by rewrite take_take_drop.
Qed.

(** One iteration of writei(): block [off / BSIZE] found and [bs] written into it. *)
Lemma block_written s s1 s2 pid H L ip x k off bs : let a := file_addr (view s) x (off / BSIZE) in
  txn s pid H L -> distinct (view s) x k -> 0 <= off -> off / BSIZE < k -> Z.of_nat (length bs) <= BSIZE - off mod BSIZE ->
  has_blocks s H ip x k -> tx_same s pid H L s1 -> tx_update s1 pid H L a (put_bytes (view s1 a) (off mod BSIZE) bs) s2 ->
  txn s2 pid H (log_add a L) /\ tx_only s s2 /\ (forall j, j ∈ H -> s2.(bufs) !! j = s.(bufs) !! j) /\
  file_upd (view s) (view s2) x k off bs /\ has_blocks s2 H ip x k.
Proof.
  intros a Ht Hds Ho Hk Hl Hm (Ht1 & Hx1 & Ho1 & Hv1) (Ht2 & Hx2 & Ho2 & Hv2).
  assert (file_upd (view s) (view s2) x k off bs) as Hu.
  { apply upd_block; try done; [eapply view_length, Ht |]. fold a. intros bn. rewrite Hv2, Hv1. by case_decide. }
  assert (forall j, j ∈ H -> s2.(bufs) !! j = s.(bufs) !! j) as Hb by (intros j Hj; by rewrite Ho2, Ho1).
  pose proof (tx_only_trans _ _ _ Hx1 Hx2) as Hx. split_and!; try done. eapply has_blocks_upd; try done. by apply tx_only_itable.
Qed.

Lemma writei_loop_run fuel : forall q s pid H L ip x k bs off n tot, txn s pid H L -> has_blocks s H ip x k -> distinct (view s) x k ->
  (forall n, 0 <= n < k -> loggable s (file_addr (view s) x n)) ->
  (q <= fuel)%nat -> (size H + length L + q <= NBUF)%nat -> Z.of_nat (length L) + Z.of_nat q < s.(log).(log_size) ->
  0 <= off -> 0 <= tot <= n -> n <= Z.of_nat (length bs) -> off + (n - tot) <= k * BSIZE ->
  (n <= tot \/ off mod BSIZE + (n - tot) <= Z.of_nat q * BSIZE) ->
  wp (writei_loop (S fuel) ip (FromLocal bs) off n tot) (fun r s' => r = (n, off + (n - tot)) /\ tx_grown s pid H L q s' /\
    file_upd (view s) (view s') x k off (get_bytes bs tot (n - tot))) s.
Proof.
  induction fuel as [|fuel IH]; intros q s pid H L ip x k bs off n tot Ht Hm Hds Hlog Hq Hs Hc Ho Htot Hn Hk Hf; [|remember (S fuel) as m'];
    cbn [writei_loop]; (destruct (Z.ltb_spec tot n) as [Hlt|Hge];
      [|apply wp_ret; replace tot with n by lia; split_and!; [f_equal; lia | exists L; split_and!; done || lia || apply tx_only_refl |];
        rewrite Z.sub_diag; apply upd_nil]).
  { exfalso. change BSIZE with 1024 in *. pose proof (Z.mod_pos_bound off 1024 ltac:(lia)). lia. }
  subst m'. destruct Hf as [|Hf]; [lia |]. assert (0 <= off / BSIZE < k) as Hbn by (change BSIZE with 1024 in *; dlia).
  set (m := Z.min (n - tot) (BSIZE - off mod BSIZE)). destruct (chunk_step off n tot _ m Ho Hlt eq_refl Hf) as (Hmr & Htm & Hq0 & Hf').
  apply wp_bind. eapply wp_mono; [eapply (bmap_run s pid H L ip x k); done || lia |]. intros a s1 [-> Hs1]. pose proof Hs1 as (Ht1 & Hx1 & Ho1 & Hv1).
  destruct (mp_addr _ _ _ _ _ Hm _ Hbn) as [Hnz Hnh]. set (a := file_addr (view s) x (off / BSIZE)) in *.
  rewrite (proj2 (Z.eqb_neq _ _)) by done. pose proof (has_blocks_same _ _ _ _ _ _ _ _ Hm Hs1) as Hm1. apply wp_bind. eapply wp_Ok; [apply get_inode_Ok, Hm1 |].
  rewrite (mp_dev _ _ _ _ _ Hm1). pose proof Hx1 as (_ & _ & _ & _ & Esz). apply wp_bind.
  eapply wp_mono; [apply (tx_bread s1 pid H L a Ht1); [lia | by eapply not_held_bufs] |]. intros i s2 (Hi & Hst).
  cbn [copy_from]. apply wp_bind, wp_ret. cbn [Z.eqb]. fold m. set (chunk := get_bytes bs tot m).
  assert (length chunk = Z.to_nat m) as Hch by (apply length_get_bytes; lia).
  assert (length (view s1 a) = 1024%nat) as Hva by (eapply view_length, Ht1). pose proof (Z.mod_pos_bound off BSIZE ltac:(done)) as Hmod.
  apply wp_seq3. eapply wp_mono; [apply (tx_modify s1 pid H L i a (fun d => put_bytes d (off mod BSIZE) chunk) s2 Hi Hst) |].
  { rewrite length_put_bytes; change BSIZE with 1024 in *; lia. } { eapply loggable_tx; [exact Hx1 | by apply Hlog]. } { rewrite Esz. lia. }
  intros ? s3 Hup; cbn beta in Hup.
  destruct (block_written s s1 s3 pid H L ip x k off chunk) as (Ht3 & Hx3 & Ho3 & Hu3 & Hm3); try done; [lia | lia |].
  pose proof (log_add_length a L) as Hll. pose proof Hx3 as (_ & _ & _ & _ & Esz3).
  eapply wp_mono; [apply (IH (q - 1)%nat s3 pid H (log_add a L) ip x k bs (off + m) n (tot + m) Ht3 Hm3); try lia |].
  - by eapply distinct_upd.
  - intros n' Hn'. rewrite (addr_stable (view s) _ _ k) by (done || apply Hu3). eapply loggable_tx; [exact Hx3 | by apply Hlog].
  - replace (Z.of_nat (q - 1)) with (Z.of_nat q - 1) by lia. exact Hf'.
  - intros r s4 (-> & (L4 & Ht4 & Hl4 & Hx4 & Hb4) & Hu4). split_and!; [f_equal; lia | |].
    + exists L4. split_and!; [done | lia | by eapply tx_only_trans |]. intros j Hj. by rewrite Hb4, Ho3.
    + replace (n - tot) with (m + (n - (tot + m))) by lia. rewrite get_bytes_app by lia. eapply upd_app; [done | exact Hu3 |].
      fold chunk. by rewrite Hch, Z2Nat.id by lia.
Qed.

(** ** iupdate() *)

Lemma length_addrs_bytes (l : list Z) : length (addrs_bytes l) = (4 * length l)%nat.
Proof. unfold addrs_bytes. induction l as [|a l IH]; [done |]. rewrite fmap_cons. cbn [concat length]. rewrite length_app, length_le_bytes, IH. lia. Qed.

Lemma dinode_offset i : 0 <= i mod IPB * sizeof_dinode <= 960.
Proof. change IPB with 16. change sizeof_dinode with 64. pose proof (Z.mod_pos_bound i 16 ltac:(lia)). lia. Qed.

Lemma length_put_dinode dip x d : 0 <= dip <= 960 -> length d = 1024%nat -> length x.(i_addrs) = 13%nat -> length (put_dinode dip x d) = 1024%nat.
Proof.
  intros Hd Hl Ha. unfold put_dinode, di_type, di_major, di_minor, di_nlink, di_size, di_addrs.
  repeat (rewrite length_put_bytes || rewrite length_put_u32 || rewrite length_put_u16); rewrite ?length_addrs_bytes; try lia; done.
Qed.

(** The disk inode of [x] may be written. *)
Record dinode_ok s H x : Prop := {
  dk_dev : x.(i_dev) = ROOTDEV;
  dk_addrs : length x.(i_addrs) = 13%nat;
  dk_log : loggable s (IBLOCK x.(i_inum) s.(sb));
  dk_free : not_held s H (IBLOCK x.(i_inum) s.(sb));
}.

(** The inode block after iupdate(). *)
Definition inode_block f (sb : superblock) x : list Z := put_dinode (x.(i_inum) mod IPB * sizeof_dinode) x (f (IBLOCK x.(i_inum) sb)).

Lemma iupdate_run s pid H L ip x : txn s pid H L -> s.(itable) !! ip = Some x -> dinode_ok s H x -> (size H + length L < NBUF)%nat ->
  Z.of_nat (length L) + 1 < s.(log).(log_size) ->
  wp (iupdate ip) (fun _ => tx_update s pid H L (IBLOCK x.(i_inum) s.(sb)) (inode_block (view s) s.(sb) x)) s.
Proof.
  intros Ht Hi [Hd Ha Hl Hn] Hs Hc. unfold iupdate. apply wp_bind, wp_gets. apply wp_bind. eapply wp_Ok; [by apply get_inode_Ok |].
  rewrite Hd. apply wp_bind. eapply wp_mono; [by apply (tx_bread s pid H L) |]. intros i s1 (Hih & Hst).
  apply (tx_modify s pid H L i _ (put_dinode (x.(i_inum) mod IPB * sizeof_dinode) x)); try done.
  apply length_put_dinode; [apply dinode_offset | eapply view_length, Ht | done].
Qed.

(** ** writei() *)

Lemma txn_itable t s pid H L : txn s pid H L -> txn (set_itable t s) pid H L.
Proof.
  intros [? ? ? ? Hb ? ?]. constructor; try done. pose proof (bc_env _ _ _ _ Hb) as [? ? ? ? ?]. destruct Hb. by constructor.
Qed.

(** The inode after writei() wrote up to [off]. *)
Definition grow_size (off : Z) x : inode := if x.(i_size) <? off then set_i_size off x else x.

Lemma grow_size_fields off x : let y := grow_size off x in y.(i_dev) = x.(i_dev) /\ y.(i_inum) = x.(i_inum) /\ y.(i_addrs) = x.(i_addrs).
Proof. unfold grow_size. by destruct (_ <? _). Qed.

Lemma file_addr_grow f x off n : file_addr f (grow_size off x) n = file_addr f x n.
Proof. unfold file_addr, addr_at. destruct (grow_size_fields off x) as (_ & _ & ->). done. Qed.

Lemma grow_run s ip x off : s.(itable) !! ip = Some x ->
  (x ← get_inode ip; when (x.(i_size) <? off) (upd_inode ip (set_i_size off))) s = Ok tt (set_itable (<[ip := grow_size off x]> s.(itable)) s).
Proof.
  intros Hi. erewrite bind_Ok by (by apply get_inode_Ok). unfold grow_size. destruct (_ <? _); cbn [when].
  - unfold upd_inode, modify. f_equal. f_equal. apply list_eq. intros j. destruct (decide (j = ip)) as [->|].
    + by rewrite list_lookup_alter_eq, Hi, list_lookup_insert_eq by (by eapply lookup_lt_Some).
    + by rewrite list_lookup_alter_ne, list_lookup_insert_ne.
  - rewrite list_insert_id by done. by destruct s.
Qed.

(** The file has the blocks below [k], writei() may write them and its disk inode, and
    the transaction has room for writing [n] bytes. *)
Record may_write s H L (ip : nat) x (k n : Z) : Prop := {
  wr_map : has_blocks s H ip x k;
  wr_dist : distinct (view s) x k;
  wr_log i : 0 <= i < k -> loggable s (file_addr (view s) x i);
  wr_ino : dinode_ok s H x;
  wr_sep i : 0 <= i < k -> IBLOCK x.(i_inum) s.(sb) <> file_addr (view s) x i;
  wr_ind : NDIRECT < k -> IBLOCK x.(i_inum) s.(sb) <> addr_at x NDIRECT;
  wr_bufs : Z.of_nat (size H + length L) + n / BSIZE + 3 < Z.of_nat NBUF;
  wr_room : Z.of_nat (length L) + n / BSIZE + 3 < s.(log).(log_size);
}.

(** What writei() of [bs] at [off] leaves. *)
Record written s pid H L (ip : nat) x (k off : Z) (bs : list Z) s' : Prop := {
  wt_tx : exists L', txn s' pid H L' /\ Z.of_nat (length L') <= Z.of_nat (length L) + Z.of_nat (length bs) / BSIZE + 3;
  wt_inode : s'.(itable) = <[ip := grow_size (off + Z.of_nat (length bs)) x]> s.(itable);
  wt_addr n : 0 <= n < k -> file_addr (view s') x n = file_addr (view s) x n;
  wt_bytes o : 0 <= o < k * BSIZE -> file_byte (view s') x o = overlay off bs (file_byte (view s) x) o;
  wt_dinode : view s' (IBLOCK x.(i_inum) s.(sb)) = inode_block (view s) s.(sb) (grow_size (off + Z.of_nat (length bs)) x);
  wt_other bn : (forall n, 0 <= n < k -> bn <> file_addr (view s) x n) -> bn <> IBLOCK x.(i_inum) s.(sb) -> view s' bn = view s bn;
  wt_bufs j : j ∈ H -> s'.(bufs) !! j = s.(bufs) !! j;
}.

Lemma dinode_ok_grow s s' H x off : dinode_ok s H x -> tx_only s s' -> (forall j, j ∈ H -> s'.(bufs) !! j = s.(bufs) !! j) ->
  dinode_ok s' H (grow_size off x).
Proof.
  intros [Hd Ha Hl Hn] Hx Hb. destruct (grow_size_fields off x) as (E1 & E2 & E3). constructor; rewrite ?E1, ?E2, ?E3, ?(tx_only_sb _ _ Hx); try done.
  - by eapply loggable_tx.
  - by eapply not_held_bufs.
Qed.

(** The data blocks written, then the inode block. *)
Lemma written_upd s s1 s3 pid H L L1 ip x k n off bs :
  let y := grow_size (off + Z.of_nat (length bs)) x in let s2 := set_itable (<[ip := y]> s1.(itable)) s1 in
  may_write s H L ip x k n -> tx_only s s1 -> (forall j, j ∈ H -> s1.(bufs) !! j = s.(bufs) !! j) ->
  Z.of_nat (length L1) + 1 <= Z.of_nat (length L) + Z.of_nat (length bs) / BSIZE + 3 -> file_upd (view s) (view s1) x k off bs ->
  tx_update s2 pid H L1 (IBLOCK y.(i_inum) s2.(sb)) (inode_block (view s2) s2.(sb) y) s3 ->
  written s pid H L ip x k off bs s3.
Proof.
  intros y s2 Hw Hx Hb HL [Hby Hoth] (Ht3 & Hx3 & Hb3 & Hv3). destruct (grow_size_fields (off + Z.of_nat (length bs)) x) as (_ & Ei & _). fold y in Ei.
  cbn [sb set_itable s2] in Hv3. rewrite Ei, (tx_only_sb _ _ Hx) in Hv3.
  change (view s2) with (view s1) in Hv3.
  pose proof (fun n => addr_stable _ _ _ _ n (wr_dist _ _ _ _ _ _ _ Hw) Hoth) as Ea.
  assert (forall n, 0 <= n < k -> file_addr (view s3) x n = file_addr (view s1) x n) as Ea3.
  { intros i Hi. unfold file_addr. destruct (Z.ltb_spec i NDIRECT); [done |]. case_match; [done |]. rewrite Hv3, decide_False; [done |].
    intros E. eapply (wr_ind _ _ _ _ _ _ _ Hw); [lia | by symmetry]. }
  constructor.
  - eexists. split; [exact Ht3 |]. etrans; [apply inj_le, log_add_length | lia].
  - rewrite (tx_only_itable _ _ Hx3). cbn. by rewrite (tx_only_itable _ _ Hx).
  - intros i Hi. by rewrite Ea3, Ea.
  - intros o Ho. rewrite <- Hby by done. unfold file_byte. assert (0 <= o / BSIZE < k) by (change BSIZE with 1024 in *; dlia).
    rewrite Ea3 by done. rewrite Hv3, decide_False; [done |]. rewrite Ea by done. intros E. by eapply (wr_sep _ _ _ _ _ _ _ Hw).
  - rewrite Hv3, decide_True by done. fold y. unfold inode_block. rewrite Ei, Hoth; [done |]. by apply (wr_sep _ _ _ _ _ _ _ Hw).
  - intros bn Hbn Hib. rewrite Hv3, decide_False by done. by apply Hoth.
  - intros j Hj. rewrite Hb3 by done. by apply Hb.
Qed.

Lemma writei_run s pid H L ip x k off bs : let n := Z.of_nat (length bs) in
  txn s pid H L -> may_write s H L ip x k n -> 0 <= off <= x.(i_size) -> off + n <= k * BSIZE ->
  wp (writei ip (FromLocal bs) off n) (fun r s' => r = n /\ written s pid H L ip x k off bs s') s.
Proof.
  intros n Ht Hw Ho Hk. pose proof (wr_map _ _ _ _ _ _ _ Hw) as Hm. pose proof (mp_max _ _ _ _ _ Hm) as Hmax. change MAXFILE with 268 in Hmax.
  pose proof (wr_bufs _ _ _ _ _ _ _ Hw) as Hbu. pose proof (wr_room _ _ _ _ _ _ _ Hw) as Hro. change BSIZE with 1024 in Hk, Hbu, Hro.
  unfold writei. apply wp_bind. eapply wp_Ok; [apply get_inode_Ok, Hm |]. rewrite u32_small by lia.
  rewrite (proj2 (Z.ltb_ge (i_size x) off)), (proj2 (Z.ltb_ge (off + n) off)), (proj2 (Z.ltb_ge _ (off + n))) by (change (MAXFILE * BSIZE) with 274432; lia).
  cbn [orb]. apply wp_bind. rewrite (Nat.add_succ_r _ 2). set (q := (Z.to_nat (n / BSIZE) + 2)%nat).
  assert (Z.of_nat q = n / 1024 + 2) as Eq by (unfold q; change BSIZE with 1024; rewrite Nat2Z.inj_add, Z2Nat.id by dlia; lia).
  eapply wp_mono; [apply (writei_loop_run q q s pid H L ip x k bs off n 0); try apply Hw; try done; try lia; change BSIZE with 1024; [lia | right; dlia] |].
  intros r s1 (-> & (L1 & Ht1 & HL1 & Hx1 & Hb1) & Hu). rewrite Z.sub_0_r in Hu |- *.
  assert (get_bytes bs 0 n = bs) as Eb by (unfold get_bytes; rewrite drop_0; apply take_ge; lia). rewrite Eb in Hu.
  set (y := grow_size (off + n) x). pose proof (has_blocks_upd _ _ _ _ _ _ _ _ Hm (wr_dist _ _ _ _ _ _ _ Hw) Hu (tx_only_itable _ _ Hx1) Hb1) as Hm1.
  apply (wp_assoc (get_inode ip) (fun x => when (x.(i_size) <? off + n) (upd_inode ip (set_i_size (off + n)))) (fun _ => iupdate ip;; mret n)), wp_bind.
  eapply wp_Ok; [by apply grow_run, Hm1 |]. fold y. set (s2 := set_itable _ s1). pose proof Hx1 as (_ & _ & _ & _ & Esz). apply wp_bind.
  eapply wp_mono; [apply (iupdate_run s2 pid H L1 ip y); [by apply txn_itable | | | lia | cbn; rewrite Esz; lia] |].
  - apply list_lookup_insert_eq. by eapply lookup_lt_Some, Hm1.
  - destruct (dinode_ok_grow s s1 H x (off + n) (wr_ino _ _ _ _ _ _ _ Hw) Hx1 Hb1). by constructor.
  - intros ? s3 Hup; cbn beta in Hup. apply wp_ret. split; [done |]. eapply (written_upd s s1); try done. change BSIZE with 1024. fold n. lia.
Qed.

Lemma has_blocks_written s pid H L ip x k n off bs s' : may_write s H L ip x k n -> written s pid H L ip x k off bs s' ->
  has_blocks s' H ip (grow_size (off + Z.of_nat (length bs)) x) k.
Proof.
  intros Hw Hr. pose proof (wr_map _ _ _ _ _ _ _ Hw) as [Hi Hd Hm Ha Hn]. pose proof (wt_bufs _ _ _ _ _ _ _ _ _ _ Hr) as Hb.
  set (y := grow_size _ x). destruct (grow_size_fields (off + Z.of_nat (length bs)) x) as (Ed & _ & Ea). fold y in Ed, Ea. constructor; try congruence.
  - rewrite (wt_inode _ _ _ _ _ _ _ _ _ _ Hr). apply list_lookup_insert_eq. by eapply lookup_lt_Some.
  - intros i Hlt. unfold y. rewrite file_addr_grow, (wt_addr _ _ _ _ _ _ _ _ _ _ Hr) by done. destruct (Ha i Hlt). split; [done | by eapply not_held_bufs].
  - intros Hk. unfold addr_at. rewrite Ea. eapply not_held_bufs; [by apply Hn | done].
Qed.

(** ** The disk inode *)

Definition s16_ok (z : Z) : Prop := - 2 ^ 15 <= z < 2 ^ 15.

(** The fields of the inode fit their disk representation. *)
Record inode_ok x : Prop := {
  io_type : s16_ok x.(i_type); io_major : s16_ok x.(i_major); io_minor : s16_ok x.(i_minor); io_nlink : s16_ok x.(i_nlink);
  io_size : 0 <= x.(i_size) < 2 ^ 32;
  io_addrs : length x.(i_addrs) = 13%nat /\ Forall (fun a => 0 <= a < 2 ^ 32) x.(i_addrs);
}.

Lemma s16_mod z : s16_ok z -> s16 (z mod 2 ^ 16) = z.
Proof.
  unfold s16_ok, s16. intros. rewrite Zplus_mod_idemp_l. change (2 ^ 16) with 65536. change (2 ^ 15) with 32768 in *. rewrite Z.mod_small by lia. lia.
Qed.

Lemma get_addrs_bytes (l : list Z) i a : l !! i = Some a -> 0 <= a < 2 ^ 32 -> get_u32 (addrs_bytes l) (4 * Z.of_nat i) = a.
Proof.
  revert i. induction l as [|b l IH]; intros [|i] E Ha; cbn in E; try done.
  - injection E as ->. unfold get_u32, get_bytes, addrs_bytes. rewrite fmap_cons. cbn [concat]. change (Z.to_nat (4 * Z.of_nat 0)) with 0%nat. rewrite drop_0.
    rewrite take_app_length' by done. rewrite le_value_le_bytes. by apply Z.mod_small.
  - unfold get_u32, get_bytes, addrs_bytes in *. rewrite fmap_cons. cbn [concat]. replace (Z.to_nat (4 * Z.of_nat (S i))) with (4 + Z.to_nat (4 * Z.of_nat i))%nat by lia.
    rewrite <- drop_drop, drop_app_length' by done. by apply IH.
Qed.

Lemma get_bytes_get (d : list Z) o n o' m : 0 <= o -> 0 <= o' -> 0 <= m -> o' + m <= n -> get_bytes (get_bytes d o n) o' m = get_bytes d (o + o') m.
Proof.
  intros. unfold get_bytes. apply list_eq. intros i. destruct (decide (i < Z.to_nat m)%nat); [|by rewrite !lookup_take_ge by lia].
  rewrite !lookup_take_lt, !lookup_drop by lia. rewrite lookup_take_lt, lookup_drop by lia. f_equal. lia.
Qed.

Lemma put_bytes_app d o o' b1 b2 : 0 <= o -> o' = o + Z.of_nat (length b1) -> o' + Z.of_nat (length b2) <= Z.of_nat (length d) ->
  put_bytes (put_bytes d o b1) o' b2 = put_bytes d o (b1 ++ b2).
Proof.
  intros Ho -> Hl. unfold put_bytes. rewrite !Z2Nat.inj_add, Nat2Z.id, length_app by lia. rewrite (app_assoc (take _ d) b1).
  rewrite take_app_length' by (rewrite length_app, length_take; lia). rewrite <- drop_drop, drop_app_length' by (rewrite length_app, length_take; lia).
  rewrite drop_drop, <- !app_assoc, Nat.add_assoc. done.
Qed.

(** The 64 bytes of a dinode. *)
Definition dinode_bytes x : list Z :=
  le_bytes 2 x.(i_type) ++ le_bytes 2 x.(i_major) ++ le_bytes 2 x.(i_minor) ++ le_bytes 2 x.(i_nlink) ++ le_bytes 4 x.(i_size) ++ addrs_bytes x.(i_addrs).

Lemma put_dinode_bytes dip x d : 0 <= dip <= 960 -> length d = 1024%nat -> length x.(i_addrs) = 13%nat ->
  put_dinode dip x d = put_bytes d dip (dinode_bytes x).
Proof.
  intros Hd Hl Ha. pose proof (length_addrs_bytes x.(i_addrs)). unfold put_dinode, dinode_bytes, put_u16, put_u32, di_type, di_major, di_minor, di_nlink, di_size, di_addrs.
  rewrite Z.add_0_r. do 5 rewrite (put_bytes_app d dip) by (rewrite ?length_app, ?length_le_bytes; lia). by rewrite <- !app_assoc.
Qed.

(** ilock() reads the dinode whose bytes are those of [x]. *)
Lemma get_dinode_bytes dip x y d : 0 <= dip -> get_bytes d dip 64 = dinode_bytes x -> inode_ok x ->
  get_dinode dip d y = mkInode y.(i_dev) y.(i_inum) y.(i_ref) y.(i_valid) x.(i_type) x.(i_major) x.(i_minor) x.(i_nlink) x.(i_size) x.(i_addrs).
Proof.
  intros Hd Hl [H1 H2 H3 H4 H5 [H6 H7]]. set (bs := dinode_bytes x) in *.
  assert (forall o m, 0 <= o -> 0 <= m -> o + m <= 64 -> get_bytes d (dip + o) m = get_bytes bs o m) as E.
  { intros o m Ho Hm Hom. rewrite <- (get_bytes_get _ dip 64) by lia. by rewrite Hl. }
  unfold get_dinode, get_u16, get_u32, di_type, di_major, di_minor, di_nlink, di_size, di_addrs. rewrite !E by lia.
  change (get_bytes bs 0 2) with (le_bytes 2 x.(i_type)). change (get_bytes bs 2 2) with (le_bytes 2 x.(i_major)).
  change (get_bytes bs 4 2) with (le_bytes 2 x.(i_minor)). change (get_bytes bs 6 2) with (le_bytes 2 x.(i_nlink)).
  change (get_bytes bs 8 4) with (le_bytes 4 x.(i_size)). rewrite !le_value_le_bytes.
  change (256 ^ Z.of_nat 2) with (2 ^ 16). rewrite !s16_mod, Z.mod_small by done. f_equal.
  apply list_eq. intros i. rewrite list_lookup_fmap. destruct (decide (i < 13)%nat).
  - rewrite lookup_seq_lt by done. cbn [fmap option_fmap option_map]. rewrite <- Z.add_assoc, E by lia.
    destruct (lookup_lt_is_Some_2 x.(i_addrs) i) as [a Ha]; [lia |]. rewrite Ha. f_equal.
    rewrite <- (get_addrs_bytes x.(i_addrs) i a Ha) by (by eapply Forall_lookup_1 in H7). unfold get_u32, get_bytes.
    rewrite Z2Nat.inj_add, <- drop_drop by lia. done.
  - rewrite lookup_seq_ge, lookup_ge_None_2 by lia. done.
Qed.

Lemma length_dinode_bytes x : length x.(i_addrs) = 13%nat -> length (dinode_bytes x) = 64%nat.
Proof. intros. unfold dinode_bytes. rewrite !length_app, !length_le_bytes, length_addrs_bytes. lia. Qed.

(** Reading a dinode gives back what iupdate() stored, whatever the block held. *)
Lemma get_put_dinode dip x y d : 0 <= dip <= 960 -> length d = 1024%nat -> inode_ok x ->
  get_dinode dip (put_dinode dip x d) y =
    mkInode y.(i_dev) y.(i_inum) y.(i_ref) y.(i_valid) x.(i_type) x.(i_major) x.(i_minor) x.(i_nlink) x.(i_size) x.(i_addrs).
Proof.
  intros Hd Hl Hx. pose proof (io_addrs _ Hx) as [Ha _]. pose proof (length_dinode_bytes x Ha). rewrite put_dinode_bytes by done.
  apply get_dinode_bytes; [lia | by apply get_put_bytes_eq; lia | done].
Qed.

(** ** Properties *)


(** C14. writei() from a kernel buffer, over blocks that are already allocated, writes all its bytes: the file's bytes are the old ones
    overlaid with [bs] at [off], the size grows when the write passes the end, the disk
    inode holds the new inode, no other block changes, and the transaction stays within
    the blocks reserved for it. *)
Theorem writei_spec s pid H L ip x k off bs : let n := Z.of_nat (length bs) in
  txn s pid H L -> may_write s H L ip x k n -> 0 <= off <= x.(i_size) -> off + n <= k * BSIZE ->
  wp (writei ip (FromLocal bs) off n) (fun r s' => r = n /\ written s pid H L ip x k off bs s') s.
Proof. apply writei_run. Qed.

Lemma overlay_bytes f x off bs : (forall o, off <= o < off + Z.of_nat (length bs) -> file_byte f x o = bs !!! Z.to_nat (o - off)) ->
  file_bytes f x off (Z.of_nat (length bs)) = bs.
Proof.
  intros E. apply list_eq. intros i. unfold file_bytes. rewrite list_lookup_fmap. destruct (decide (i < length bs)%nat).
  - rewrite lookup_seqZ_lt by lia. cbn [fmap option_fmap option_map]. rewrite E by lia. rewrite <- list_lookup_lookup_total_lt by lia. f_equal. lia.
  - rewrite lookup_seqZ_ge, lookup_ge_None_2 by lia. done.
Qed.

Lemma file_bytes_grow f x e off n : file_bytes f (grow_size e x) off n = file_bytes f x off n.
Proof. unfold file_bytes. apply list_fmap_ext. intros i o _. unfold file_byte. by rewrite file_addr_grow. Qed.

(** C13. What writei() wrote from a kernel buffer over allocated blocks, readi() reads back. *)
Theorem writei_readi s pid H L ip x off bs : let n := Z.of_nat (length bs) in
  txn s pid H L -> may_write s H L ip x (((grow_size (off + n) x).(i_size) + 1023) / BSIZE) n -> 0 <= off <= x.(i_size) -> off + n < 2 ^ 32 ->
  wp (r ← writei ip (FromLocal bs) off n; '(r', got) ← readi ip ToLocal off n; mret (r, r', got)) (fun res _ => res = (n, n, bs)) s.
Proof.
  intros n Ht Hw Ho Hlt. set (k := _ / BSIZE) in *. assert (x.(i_size) <= (grow_size (off + n) x).(i_size) /\ off + n <= (grow_size (off + n) x).(i_size)) as [Hg1 Hg2].
  { unfold grow_size. destruct (Z.ltb_spec (i_size x) (off + n)); cbn; lia. }
  assert (off + n <= k * BSIZE) as Hk by (unfold k; change BSIZE with 1024; dlia).
  apply wp_bind. eapply wp_mono; [by apply (writei_run s pid H L ip x k off bs) |]. intros r s1 [-> Hr]. fold n.
  pose proof (has_blocks_written _ _ _ _ _ _ _ _ _ _ _ Hw Hr) as Hm1. fold n in Hm1. destruct (wt_tx _ _ _ _ _ _ _ _ _ _ Hr) as (L1 & Ht1 & HL1). fold n in HL1.
  pose proof (wr_bufs _ _ _ _ _ _ _ Hw) as Hbu. apply wp_bind.
  eapply wp_mono; [apply (readi_run s1 pid H L1 ip _ off n Ht1 Hm1); lia |]. intros rb s2 [-> _].
  replace (readi_count (grow_size (off + n) x) off n) with n.
  2: { unfold readi_count. rewrite (proj2 (Z.ltb_ge _ _)), (proj2 (Z.leb_gt _ _)) by lia. cbn [orb]. lia. }
  apply wp_ret. f_equal. rewrite file_bytes_grow. apply overlay_bytes. intros o Hoo. rewrite (wt_bytes _ _ _ _ _ _ _ _ _ _ Hr) by (fold n in Hoo; lia).
  unfold overlay. by rewrite decide_True.
Qed.

(** ilock() reads back the inode that iupdate() stored, whatever the block held before:
    the on-disk encoding of every field at its width, and of the thirteen addresses, is
    faithful. *)
Theorem dinode_roundtrip inum x y d : length d = 1024%nat -> inode_ok x ->
  get_dinode (inum mod IPB * sizeof_dinode) (put_dinode (inum mod IPB * sizeof_dinode) x d) y =
    mkInode y.(i_dev) y.(i_inum) y.(i_ref) y.(i_valid) x.(i_type) x.(i_major) x.(i_minor) x.(i_nlink) x.(i_size) x.(i_addrs).
Proof. apply get_put_dinode, dinode_offset. Qed.
End inode.
