(* ===== verification/FsDir.v ===== *)
(** * The inode table and directories (kernel/fs.c: iget, dirlookup)

    iget() keeps at most one in-memory copy of an inode; dirlookup() finds the first
    directory entry with the name. *)

From S2P Require Import Prelude State Mem Bytes Riscv Kalloc Vm Sched Sleeplock Bio Bcache Log LogSpec Crash Txn Proc Fs FsPath FsBlock FsInode.

Section dir.
Context {P : Patience} {LK : Linker}.
Implicit Types (s : kernel) (H : gset nat) (L : list Z) (x : inode) (t : list inode) (f : Z -> list Z).

(** ** iget() *)

(** The entry is in use for inode [inum] of [dev]. *)
Definition is_inode (dev inum : Z) x : Prop := 0 < x.(i_ref) /\ x.(i_dev) = dev /\ x.(i_inum) = inum.

(** An inode has at most one entry. *)
Definition it_uniq t : Prop := forall i j x y dev inum,
  t !! i = Some x -> t !! j = Some y -> is_inode dev inum x -> is_inode dev inum y -> i = j.

Lemma is_inode_true dev inum x : is_inode dev inum x -> (0 <? x.(i_ref)) && (x.(i_dev) =? dev) && (x.(i_inum) =? inum) = true.
Proof. intros (? & -> & ->). rewrite !Z.eqb_refl. by rewrite (proj2 (Z.ltb_lt _ _)). Qed.

(** What the scan of the table finds from entry [i] on. *)
Lemma iget_scan_spec t : forall l i dev inum empty, drop i t = l -> match iget_scan l i dev inum empty with
  | inl k => (exists x, t !! k = Some x /\ is_inode dev inum x)
  | inr e => (forall j x, (i <= j)%nat -> t !! j = Some x -> ~ is_inode dev inum x) /\
      match e with
      | Some k => empty = Some k \/ (empty = None /\ exists x, t !! k = Some x /\ x.(i_ref) = 0)
      | None => empty = None /\ forall j x, (i <= j)%nat -> t !! j = Some x -> x.(i_ref) <> 0
      end
  end.
Proof.
  induction l as [|x l IH]; intros i dev inum empty Hd; cbn [iget_scan].
  - assert (forall j x, (i <= j)%nat -> t !! j = Some x -> False) as Hno.
    { intros j x Hj Hx. assert (length (drop i t) = 0%nat) by (by rewrite Hd). rewrite length_drop in *. apply lookup_lt_Some in Hx. lia. }
    split; [intros j x Hj Hx _; by eapply Hno |]. destruct empty; [by left |]. split; [done |]. intros j x Hj Hx _. by eapply Hno.
  - assert (t !! i = Some x) as Hx by (rewrite <- (Nat.add_0_r i), <- lookup_drop, Hd; done).
    destruct ((0 <? i_ref x) && (i_dev x =? dev) && (i_inum x =? inum)) eqn:E.
    + exists x. split; [done |]. apply andb_true_iff in E as [[E1%Z.ltb_lt E2%Z.eqb_eq]%andb_true_iff E3%Z.eqb_eq]. done.
    + assert (~ is_inode dev inum x) as Hnx by (intros Hi%is_inode_true; congruence).
      assert (drop (i + 1) t = l) as Hd' by (by rewrite <- drop_drop, Hd). set (empty' := match empty with None => _ | _ => _ end).
      pose proof (IH (i + 1)%nat dev inum empty' Hd') as Hs. destruct (iget_scan l _ _ _ _) as [k|e]; [done |].
      destruct Hs as [Hn He]. split.
      { intros j y Hj Hy. destruct (decide (j = i)) as [->|]; [by simplify_eq | apply (Hn j); [lia | done]]. }
      destruct e as [k|].
      * destruct empty as [k'|]; [by left; destruct He as [|[? _]] |]. right. split; [done |]. unfold empty' in He.
        destruct (Z.eqb_spec (i_ref x) 0); destruct He as [?|[? ?]]; simplify_eq; [by exists x | done].
      * destruct He as [He Hnz]. destruct empty as [k'|]; [done |]. unfold empty' in He. destruct (Z.eqb_spec (i_ref x) 0); [done |].
        split; [done |]. intros j y Hj Hy. destruct (decide (j = i)) as [->|]; [by simplify_eq | apply (Hnz j); [lia | done]].
Qed.

(** The entry iget() gives out: the one in use, with one more reference, or an unused one
    set up for this inode. *)
Definition iget_entry (dev inum : Z) t x y : Prop :=
  (is_inode dev inum x /\ y = set_i_ref (x.(i_ref) + 1) x) \/
  ((forall j z, t !! j = Some z -> ~ is_inode dev inum z) /\ x.(i_ref) = 0 /\
    y = set_i_valid 0 (set_i_ref 1 (set_i_inum inum (set_i_dev dev x)))).

Lemma upd_inode_eq s ip g x : s.(itable) !! ip = Some x -> upd_inode ip g s = Ok tt (set_itable (<[ip := g x]> s.(itable)) s).
Proof.
  intros Hx. unfold upd_inode, modify. f_equal. f_equal. apply list_eq. intros j. destruct (decide (j = ip)) as [->|].
  - by rewrite list_lookup_alter_eq, Hx, list_lookup_insert_eq by (by eapply lookup_lt_Some).
  - by rewrite list_lookup_alter_ne, list_lookup_insert_ne.
Qed.

Lemma iget_finish s ip g x : LkItable ∉ s.(held) -> s.(itable) !! ip = Some x ->
  (upd_inode ip g;; release LkItable;; mret ip) (set_held ({[LkItable]} ∪ s.(held)) s) = Ok ip (set_itable (<[ip := g x]> s.(itable)) s).
Proof.
  intros Hh Hx. erewrite bind_Ok by (by apply upd_inode_eq). erewrite bind_Ok by (apply release_Ok; cbn; set_solver +).
  unfold mret, M_ret. f_equal. cbn [held set_held set_itable itable]. rewrite held_drop by done. by destruct s.
Qed.

Lemma iget_run s dev inum : LkItable ∉ s.(held) -> (exists j x, s.(itable) !! j = Some x /\ (x.(i_ref) = 0 \/ is_inode dev inum x)) ->
  exists ip x y, s.(itable) !! ip = Some x /\ iget_entry dev inum s.(itable) x y /\ iget dev inum s = Ok ip (set_itable (<[ip := y]> s.(itable)) s).
Proof.
  intros Hh (j & z & Hj & Hz). pose proof (iget_scan_spec s.(itable) s.(itable) 0 dev inum None eq_refl) as Hs.
  unfold iget. erewrite bind_Ok by (by apply acquire_Ok). erewrite bind_Ok by done. cbn [itable set_held].
  destruct (iget_scan _ _ _ _ _) as [k|[k|]].
  - destruct Hs as (x & Hx & Hi). exists k, x. eexists. split_and!; [done | by left | by apply (iget_finish s k (fun x => set_i_ref (x.(i_ref) + 1) x))].
  - destruct Hs as [Hn [|[_ (x & Hx & Hr)]]]; [done |]. exists k, x. eexists. split_and!; [done | right | by apply (iget_finish s k (fun x => set_i_valid 0 (set_i_ref 1 (set_i_inum inum (set_i_dev dev x)))))].
    split_and!; [|done..]. intros j' z' Hj'. apply (Hn j'); [lia | done].
  - destruct Hs as [Hn [_ Hnz]]. exfalso. destruct Hz as [Hz|Hz]; [by apply (Hnz j z) in Hz; [|lia |] | by apply (Hn j z) in Hz; [|lia |]].
Qed.

Lemma iget_full s dev inum : LkItable ∉ s.(held) -> (forall j x, s.(itable) !! j = Some x -> x.(i_ref) <> 0 /\ ~ is_inode dev inum x) ->
  iget dev inum s = Panic "iget: no inodes".
Proof.
  intros Hh Hn. pose proof (iget_scan_spec s.(itable) s.(itable) 0 dev inum None eq_refl) as Hs.
  unfold iget. erewrite bind_Ok by (by apply acquire_Ok). erewrite bind_Ok by done. cbn [itable set_held].
  destruct (iget_scan _ _ _ _ _) as [k|[k|]]; [|exfalso|done].
  - destruct Hs as (x & Hx & Hi). by destruct (Hn k x Hx).
  - destruct Hs as [_ [|[_ (x & Hx & Hr)]]]; [done |]. by destruct (Hn k x Hx).
Qed.

Lemma it_uniq_iget dev inum t ip x y : it_uniq t -> t !! ip = Some x -> iget_entry dev inum t x y -> is_inode dev inum y /\ it_uniq (<[ip := y]> t).
Proof.
  intros Hu Hx He. assert (is_inode dev inum y) as Hy.
  { destruct He as [[(Hr & Hd & Hi) ->]|(_ & _ & ->)]; split_and!; cbn; lia || done. }
  split; [done |]. assert (forall j z d n, j <> ip -> t !! j = Some z -> is_inode d n y -> ~ is_inode d n z) as Hne.
  { intros j z d n Hj Hz (_ & Hd & Hn) Hiz. destruct Hy as (_ & Ed & En). assert (d = dev /\ n = inum) as [-> ->] by (split; congruence).
    destruct He as [[Hix _]|(Hno & _)]; [|by eapply Hno]. by apply Hj, (Hu j ip z x dev inum). }
  intros i j a b d n Hi Hj Ha Hb. destruct (decide (i = ip)) as [->|Hi'], (decide (j = ip)) as [->|Hj']; [done | | |].
  - rewrite list_lookup_insert_eq in Hi by (by eapply lookup_lt_Some). rewrite list_lookup_insert_ne in Hj by done. simplify_eq. by destruct (Hne j b d n).
  - rewrite list_lookup_insert_eq in Hj by (by eapply lookup_lt_Some). rewrite list_lookup_insert_ne in Hi by done. simplify_eq. by destruct (Hne i a d n).
  - rewrite !list_lookup_insert_ne in Hi, Hj by done. by apply (Hu i j a b d n).
Qed.

(** C28. iget() returns the one entry of the inode, with one more reference: the entry in use
    when there is one, otherwise an unused entry set up with a single reference and not yet
    valid; every other entry is unchanged and still no inode has two entries.  It panics
    exactly when the inode has no entry and none is unused. *)
Theorem iget_spec s dev inum : LkItable ∉ s.(held) -> it_uniq s.(itable) ->
  match iget dev inum s with
  | Ok ip s' => exists x y, s.(itable) !! ip = Some x /\ iget_entry dev inum s.(itable) x y /\ is_inode dev inum y /\
      s' = set_itable (<[ip := y]> s.(itable)) s /\ it_uniq s'.(itable)
  | Panic msg => msg = "iget: no inodes"%string /\ forall j x, s.(itable) !! j = Some x -> x.(i_ref) <> 0 /\ ~ is_inode dev inum x
  | _ => False
  end.
Proof.
  intros Hh Hu. destruct (decide (Exists (fun x => x.(i_ref) = 0 \/ is_inode dev inum x) s.(itable))) as [He|He].
  - apply Exists_exists in He as (x & [j Hj]%list_elem_of_lookup & Hx). destruct (iget_run s dev inum Hh) as (ip & a & y & Ha & Hy & ->); [by exists j, x |].
    destruct (it_uniq_iget _ _ _ _ _ _ Hu Ha Hy). by exists a, y.
  - assert (forall j x, s.(itable) !! j = Some x -> x.(i_ref) <> 0 /\ ~ is_inode dev inum x) as Hn.
    { intros j x Hx. split; intros Hr; apply He, Exists_exists; exists x; split; [by eapply list_elem_of_lookup_2 | by left | by eapply list_elem_of_lookup_2 | by right]. }
    by rewrite iget_full.
Qed.

(** ** dirlookup() *)

(** Reference: the inode number and the offset of the first of [n] entries from [off] on
    that is in use and has the name. *)
Fixpoint dir_find f x (name : list Z) (n : nat) (off : Z) : option (Z * Z) :=
  match n with
  | O => None
  | S n' =>
      let de := file_bytes f x off 16 in
      if decide (de_inum de <> 0 /\ fname name = fname (de_name de)) then Some (de_inum de, off)
      else dir_find f x name n' (off + 16)
  end.

Lemma dir_find_ext f g x name n : (forall bn, f bn = g bn) -> forall off, dir_find f x name n off = dir_find g x name n off.
Proof. intros E. induction n as [|n IH]; intros off; cbn [dir_find]; [done |]. rewrite (file_bytes_ext f g), IH by done. done. Qed.

(** A directory of [c] entries whose blocks are all there. *)
Record directory s H (dp : nat) x (c : nat) : Prop := {
  dr_map : has_blocks s H dp x ((x.(i_size) + 1023) / BSIZE);
  dr_type : x.(i_type) = T_DIR;
  dr_size : x.(i_size) = 16 * Z.of_nat c;
  dr_small : x.(i_size) < 2 ^ 31;
  dr_bytes o n : 0 <= o -> o + n <= x.(i_size) -> bytes_ok (file_bytes (view s) x o n);
}.

Lemma directory_same s pid H L dp x c s' : directory s H dp x c -> tx_same s pid H L s' -> directory s' H dp x c.
Proof.
  intros [Hm Ht Hs Hl Hb] Hsm. pose proof Hsm as (_ & _ & _ & Hv). constructor; try done; [by eapply has_blocks_same |].
  intros o n Ho Hn. rewrite (file_bytes_ext (view s') (view s)) by done. by apply Hb.
Qed.

(** What dirlookup() returns, and the state it leaves. *)
Definition dirlookup_post s pid H L (found : option (Z * Z)) (r : option (nat * Z)) s' : Prop :=
  match found with
  | None => r = None /\ tx_same s pid H L s'
  | Some (inum, off) => exists s1 ip a y, tx_same s pid H L s1 /\ r = Some (ip, off) /\ s.(itable) !! ip = Some a /\
      iget_entry ROOTDEV inum s.(itable) a y /\ s' = set_itable (<[ip := y]> s.(itable)) s1
  end.

Lemma dirlookup_post_same s s1 pid H L found r s' : tx_same s pid H L s1 -> dirlookup_post s1 pid H L found r s' -> dirlookup_post s pid H L found r s'.
Proof.
  intros Hsm Hp. pose proof Hsm as (_ & Hx & _). destruct found as [[inum off]|]; cbn in *.
  - destruct Hp as (s2 & ip & a & y & Hs2 & -> & Ha & He & ->). rewrite (tx_only_itable _ _ Hx) in *. exists s2, ip, a, y.
    split_and!; try done. by eapply tx_same_trans.
  - destruct Hp as [-> Hs2]. split; [done | by eapply tx_same_trans].
Qed.

Lemma tx_only_held s s' : tx_only s s' -> s'.(held) = s.(held).
Proof. intros ((_ & _ & ->) & _). done. Qed.

Lemma bytes_ok_get (d : list Z) o n : bytes_ok d -> bytes_ok (get_bytes d o n).
Proof. intros Hd. unfold get_bytes. by apply Forall_take, Forall_drop. Qed.

Lemma dirlookup_loop_run n : forall fuel s pid H L dp x c name i, txn s pid H L -> directory s H dp x c -> (size H + length L < NBUF)%nat ->
  LkItable ∉ s.(held) -> (exists j z, s.(itable) !! j = Some z /\ z.(i_ref) = 0) -> bytes_ok name -> (i + n = c)%nat -> (n < fuel)%nat ->
  wp (dirlookup_loop fuel dp name (16 * Z.of_nat i)) (dirlookup_post s pid H L (dir_find (view s) x name n (16 * Z.of_nat i))) s.
Proof.
  induction n as [|n IH]; intros [|fuel] s pid H L dp x c name i Ht Hd Hs Hh Hfree Hname Hi Hf; try lia; cbn [dirlookup_loop dir_find];
    pose proof (dr_map _ _ _ _ _ Hd) as Hm; pose proof (dr_size _ _ _ _ _ Hd) as Hsz; pose proof (dr_small _ _ _ _ _ Hd) as Hsm;
    apply wp_bind; (eapply wp_Ok; [apply get_inode_Ok, Hm |]).
  - rewrite (proj2 (Z.ltb_ge _ _)) by lia. apply wp_ret. split; [done | by apply tx_same_refl].
  - rewrite (proj2 (Z.ltb_lt _ _)) by lia. set (off := 16 * Z.of_nat i) in *. apply wp_bind. change sizeof_dirent with 16.
    eapply wp_mono; [apply (readi_run s pid H L dp x off 16 Ht Hm Hs); lia |]. intros rb s1 [-> Hs1].
    replace (readi_count x off 16) with 16 by (unfold readi_count; rewrite (proj2 (Z.ltb_ge _ _)), (proj2 (Z.leb_gt _ _)) by lia; cbn [orb]; lia).
    cbn [Z.eqb Pos.eqb negb]. set (de := file_bytes (view s) x off 16). pose proof Hs1 as (Ht1 & Hx1 & _ & Hv1).
    assert (bytes_ok de) as Hde by (apply (dr_bytes _ _ _ _ _ Hd); lia).
    assert (wp (dirlookup_loop fuel dp name (off + 16)) (dirlookup_post s pid H L (dir_find (view s) x name n (off + 16))) s1) as Hnext.
    { replace (off + 16) with (16 * Z.of_nat (i + 1)) by lia. rewrite <- (dir_find_ext (view s1)) by done.
      eapply wp_mono; [apply (IH fuel s1 pid H L dp x c name (i + 1)%nat Ht1) |]; try done; try lia;
        [by eapply directory_same | by rewrite (tx_only_held _ _ Hx1) | by rewrite (tx_only_itable _ _ Hx1) |].
      intros r s2. by apply dirlookup_post_same. }
    destruct (Z.eqb_spec (de_inum de) 0) as [E0|E0]; [rewrite decide_False by tauto; exact Hnext |].
    pose proof (namecmp_spec name (de_name de) Hname (bytes_ok_get _ _ _ Hde)) as Hcmp.
    destruct (Z.eqb_spec (namecmp name (de_name de)) 0) as [E1|E1]; [rewrite decide_True by tauto | rewrite decide_False by tauto; exact Hnext].
    apply wp_bind. rewrite (mp_dev _ _ _ _ _ Hm).
    destruct (iget_run s1 ROOTDEV (de_inum de)) as (ip & a & y & Ha & Hy & Eg).
    { by rewrite (tx_only_held _ _ Hx1). } { rewrite (tx_only_itable _ _ Hx1). destruct Hfree as (j & z & ? & ?). exists j, z. split; [done | by left]. }
    eapply wp_Ok; [exact Eg |]. apply wp_ret. rewrite (tx_only_itable _ _ Hx1) in *. by exists s1, ip, a, y.
Qed.

(** C16. dirlookup() returns the first entry of the directory that is in use and whose name
    equals the one asked for (as strings of at most DIRSIZ bytes), with its offset and a
    new reference to its inode, or 0 when there is none; it terminates, and changes
    nothing but the cache and that reference. *)
Theorem dirlookup_spec s pid H L dp x c name : txn s pid H L -> directory s H dp x c -> (size H + length L < NBUF)%nat ->
  LkItable ∉ s.(held) -> (exists j z, s.(itable) !! j = Some z /\ z.(i_ref) = 0) -> bytes_ok name ->
  wp (dirlookup dp name) (dirlookup_post s pid H L (dir_find (view s) x name c 0)) s.
Proof.
  intros Ht Hd Hs Hh Hfree Hname. unfold dirlookup. apply wp_bind. eapply wp_Ok; [apply get_inode_Ok, Hd |].
  rewrite (dr_type _ _ _ _ _ Hd). cbn [Z.eqb Pos.eqb negb T_DIR]. pose proof (dr_size _ _ _ _ _ Hd) as Hsz.
  apply (dirlookup_loop_run c _ s pid H L dp x c name 0); try done. rewrite Hsz. change sizeof_dirent with 16.
  rewrite (Z.mul_comm 16), Z.div_mul, Nat2Z.id by lia. lia.
Qed.
End dir.
