(* ===== verification/Mkfs.v ===== *)
(** * Making a file system (mkfs/mkfs.c)

    mkfs writes the disk image that the kernel starts from: a superblock, an empty log, the
    inodes, the bitmap, and a root directory with the files named on the command line.  It
    runs on the build machine, a little-endian one; the files it reads are parameters, as
    the sequence of buffers that read() returns.  Structures that go to the disk are their
    bytes.  A failed assertion and die() are the outcome [Panic]; what it prints is left
    out. *)

From S2P Require Import Prelude State Mem Bytes Fs.

(** open(..., O_CREAT|O_TRUNC) of the image; open() of an input file and what each read() of
    it returns, up to the end of the file. *)
Class Host := {
  creat : list Z -> bool;
  input : list Z -> option (list (list Z));
}.

Definition FSSIZE : Z := 2000.
Definition NINODES : Z := 200.
Definition nbitmap : Z := FSSIZE / BPB + 1.
Definition ninodeblocks : Z := NINODES / IPB + 1.
Definition nlog : Z := LOGSIZE.

Module Mkfs.

(** The blocks of the image, and the variables of mkfs. *)
Record mkst := mkMk {
  img : list (list Z);
  msb : superblock;
  freeinode : Z;
  freeblock : Z;
}.
Definition set_img x s := mkMk x s.(msb) s.(freeinode) s.(freeblock).
Definition set_msb x s := mkMk s.(img) x s.(freeinode) s.(freeblock).
Definition set_freeinode x s := mkMk s.(img) s.(msb) x s.(freeblock).
Definition set_freeblock x s := mkMk s.(img) s.(msb) s.(freeinode) x.

Definition zeroes : list Z := replicate 1024 0.

Definition assert (b : bool) : M mkst unit := if b then mret tt else panic "assert".
Definition die {A} (msg : string) : M mkst A := panic msg.

(** Conversion to RISC-V byte order: the number whose bytes in memory are those of [x], least
    significant first. *)
Definition xshort (x : Z) : Z := le_value [u8 x; u8 (Z.shiftr x 8)].
Definition xint (x : Z) : Z := le_value [u8 x; u8 (Z.shiftr x 8); u8 (Z.shiftr x 16); u8 (Z.shiftr x 24)].

(** write() of a block at an offset: what lies between the end of the file and the offset
    becomes zero. *)
Definition write_at (n : nat) (buf : list Z) (l : list (list Z)) : list (list Z) :=
  if (n <? length l)%nat then <[n := buf]> l else l ++ replicate (n - length l) zeroes ++ [buf].

(** lseek(fsfd, sec * BSIZE, 0) *)
Definition sector_index (sec : Z) : nat := Z.to_nat (u32 (sec * BSIZE) / BSIZE).

Definition wsect (sec : Z) (buf : list Z) : M mkst unit :=
  modify (fun s => set_img (write_at (sector_index sec) buf s.(img)) s).

Definition rsect (sec : Z) : M mkst (list Z) := fun s =>
  match s.(img) !! sector_index sec with Some buf => Ok buf s | None => Panic "read" end.

Definition winode (inum : Z) (ip : list Z) : M mkst unit :=
  sb ← gets msb;
  let bn := IBLOCK inum sb in
  buf ← rsect bn;
  wsect bn (put_bytes buf (inum mod IPB * sizeof_dinode) ip).

Definition rinode (inum : Z) : M mkst (list Z) :=
  sb ← gets msb;
  let bn := IBLOCK inum sb in
  buf ← rsect bn;
  mret (get_bytes buf (inum mod IPB * sizeof_dinode) sizeof_dinode).

Definition ialloc (type : Z) : M mkst Z :=
  inum ← gets freeinode;
  modify (set_freeinode (u32 (inum + 1)));;
  let din := replicate 64 0 in
  let din := put_u16 din di_type (xshort type) in
  let din := put_u16 din di_nlink (xshort 1) in
  let din := put_u32 din di_size (xint 0) in
  winode inum din;;
  mret inum.

(** for (i = 0; i < used; i++) buf[i/8] = buf[i/8] | (0x1 << (i%8)) *)
Definition mark_used (used : Z) : list Z := foldl (fun buf i => set_bit i buf) zeroes (seqZ 0 used).

Definition balloc (used : Z) : M mkst unit :=
  assert (used <? BPB);;
  sb ← gets msb;
  wsect sb.(sb_bmapstart) (mark_used used).

(** freeblock++ *)
Definition next_block : M mkst Z :=
  b ← gets freeblock;
  modify (set_freeblock (u32 (b + 1)));;
  mret b.

Definition get_addr (din : list Z) (i : Z) : Z := xint (get_u32 din (di_addrs + 4 * i)).
Definition put_addr (din : list Z) (i b : Z) : list Z := put_u32 din (di_addrs + 4 * i) (xint b).

(** if (xint(din.addrs[i]) == 0) din.addrs[i] = xint(freeblock++) *)
Definition ensure_addr (din : list Z) (i : Z) : M mkst (list Z) :=
  if get_addr din i =? 0 then b ← next_block; mret (put_addr din i b) else mret din.

(** The block of the file that holds its block [fbn]: [din] and x. *)
Definition find_block (din : list Z) (fbn : Z) : M mkst (list Z * Z) :=
  if fbn <? NDIRECT then
    din ← ensure_addr din fbn;
    mret (din, get_addr din fbn)
  else
    din ← ensure_addr din NDIRECT;
    indirect ← rsect (get_addr din NDIRECT);
    let o := 4 * (fbn - NDIRECT) in
    indirect ← (if get_u32 indirect o =? 0 then
      b ← next_block;
      let indirect := put_u32 indirect o (xint b) in
      wsect (get_addr din NDIRECT) indirect;;
      mret indirect
    else mret indirect);
    mret (din, xint (get_u32 indirect o)).

(** while (n > 0) *)
Fixpoint iappend_loop (fuel : nat) (din : list Z) (off : Z) (p : list Z) : M mkst (list Z * Z) :=
  match fuel with
  | O => fun _ => Timeout
  | S fuel' =>
      let n := Z.of_nat (length p) in
      if 0 <? n then
        let fbn := off / BSIZE in
        assert (fbn <? MAXFILE);;
        '(din, x) ← find_block din fbn;
        let n1 := Z.min n (u32 ((fbn + 1) * BSIZE - off)) in
        buf ← rsect x;
        wsect x (put_bytes buf (off - fbn * BSIZE) (take (Z.to_nat n1) p));;
        iappend_loop fuel' din (u32 (off + n1)) (drop (Z.to_nat n1) p)
      else mret (din, off)
  end.

Definition iappend (inum : Z) (p : list Z) : M mkst unit :=
  din ← rinode inum;
  let off := xint (get_u32 din di_size) in
  '(din, off) ← iappend_loop (S (length p)) din off p;
  winode inum (put_u32 din di_size (xint off)).

(** bzero(&de, sizeof(de)); de.inum = xshort(inum); str(n)cpy(de.name, name); at most
    DIRSIZ bytes, the rest is 0 *)
Definition dirent (inum : Z) (name : list Z) : list Z :=
  put_bytes (put_u16 (replicate 16 0) 0 (xshort inum)) 2 (take 14 (name ++ replicate 14 0)).

(** if (strncmp(argv[i], "user/", 5) == 0) shortname = argv[i] + 5 *)
Definition strip_user (name : list Z) : list Z :=
  if decide (take 5 name = [117; 115; 101; 114; 47]) then drop 5 name else name.

(** if (shortname[0] == '_') shortname += 1 *)
Definition strip_underscore (name : list Z) : list Z :=
  match name with c :: name' => if c =? 95 then name' else name | [] => [] end.

(** while ((cc = read(fd, buf, sizeof(buf))) > 0) iappend(inum, buf, cc) *)
Fixpoint append_all (inum : Z) (reads : list (list Z)) : M mkst unit :=
  match reads with
  | [] => mret tt
  | buf :: reads' => if (length buf =? 0)%nat then mret tt else iappend inum buf;; append_all inum reads'
  end.

Section main.
Context {H : Host}.

(** One turn of for (i = 2; i < argc; i++). *)
Definition add_file (rootino : Z) (arg : list Z) : M mkst unit :=
  let shortname := strip_user arg in
  assert (negb (existsb (Z.eqb 47) shortname));;
  match input arg with
  | None => die "open"
  | Some reads =>
      let shortname := strip_underscore shortname in
      assert (length shortname <=? 14)%nat;;
      inum ← ialloc T_FILE;
      iappend rootino (dirent inum shortname);;
      append_all inum reads
  end.

Fixpoint add_files (rootino : Z) (args : list (list Z)) : M mkst unit :=
  match args with [] => mret tt | arg :: args' => add_file rootino arg;; add_files rootino args' end.

Definition nmeta : Z := 2 + nlog + ninodeblocks + nbitmap.
Definition nblocks : Z := FSSIZE - nmeta.

Definition the_sb : superblock :=
  mkSb FSMAGIC (xint FSSIZE) (xint nblocks) (xint NINODES) (xint nlog) (xint 2) (xint (2 + nlog)) (xint (2 + nlog + ninodeblocks)).

(** The bytes of sb. *)
Definition sb_bytes (sb : superblock) : list Z :=
  le_bytes 4 sb.(sb_magic) ++ le_bytes 4 sb.(sb_size) ++ le_bytes 4 sb.(sb_nblocks) ++ le_bytes 4 sb.(sb_ninodes) ++
  le_bytes 4 sb.(sb_nlog) ++ le_bytes 4 sb.(sb_logstart) ++ le_bytes 4 sb.(sb_inodestart) ++ le_bytes 4 sb.(sb_bmapstart).

(** fix size of root inode dir *)
Definition fix_root (rootino : Z) : M mkst unit :=
  din ← rinode rootino;
  let off := xint (get_u32 din di_size) in
  let off := u32 ((off / BSIZE + 1) * BSIZE) in
  winode rootino (put_u32 din di_size (xint off)).

Definition main (argv : list (list Z)) : M mkst unit :=
  match argv with
  | _ :: name :: args =>
      assert (BSIZE mod sizeof_dinode =? 0);;
      assert (BSIZE mod sizeof_dirent =? 0);;
      if negb (creat name) then die "open" else
      modify (set_img []);;
      modify (set_msb the_sb);;
      modify (set_freeblock nmeta);;
      for_range (Z.to_nat FSSIZE) 0 (fun i => wsect (Z.of_nat i) zeroes);;
      sb ← gets msb;
      wsect 1 (put_bytes zeroes 0 (sb_bytes sb));;
      rootino ← ialloc T_DIR;
      assert (rootino =? ROOTINO);;
      iappend rootino (dirent rootino [46]);;
      iappend rootino (dirent rootino [46; 46]);;
      add_files rootino args;;
      fix_root rootino;;
      used ← gets freeblock;
      balloc used
  | _ => panic "Usage: mkfs fs.img files..."
  end.
End main.

(** The variables at the start. *)
Definition start (sb0 : superblock) : mkst := mkMk [] sb0 1 0.

End Mkfs.
