(* ===== verification/MkfsSpec.v ===== *)
(** * The file system that mkfs makes

    mkfs.c writes an image in the format that the kernel reads: with the kernel's own view of
    superblock, log, bitmap, inodes and directories, the image holds the files named on the
    command line, each with its contents, and nothing else is in use.

    The proof keeps, for every inode made so far, the inode and the bytes of its file; [data_ok]
    says where on the disk those bytes are and that no block is used twice, [inodes_ok] that
    the inode blocks hold the inodes. *)

From S2P Require Import Prelude State Mem Bytes Riscv Kalloc Vm Sched Sleeplock Bio Bcache Log LogSpec Crash Txn Proc Fs FsPath FsBlock FsInode FsDir Mkfs.

Module MkfsSpec.
Import Mkfs.Mkfs.

Implicit Types (s : mkst) (f : Z -> list Z) (x : inode) (c p : list Z).

(** ** The image as a function from block numbers to blocks *)

Definition sector (l : list (list Z)) (b : Z) : list Z := if b <? 0 then [] else default [] (l !! Z.to_nat b).
Definition upd f (b : Z) (v : list Z) : Z -> list Z := fun b' => if decide (b' = b) then v else f b'.

(** The state of mkfs after it has set up the variables. *)
Record st s f (fi fb : Z) : Prop := {
  st_len : length s.(img) = 2000%nat;
  st_img b : sector s.(img) b = f b;
  st_block b : 0 <= b < 2000 -> length (f b) = 1024%nat;
  st_sb : s.(msb) = the_sb;
  st_fi : s.(freeinode) = fi;
  st_fb : s.(freeblock) = fb;
}.

Lemma upd_same f b v : upd f b v b = v.
Proof. unfold upd. by rewrite decide_True. Qed.
Lemma upd_ne f b v b' : b' <> b -> upd f b v b' = f b'.
Proof. intros. unfold upd. by rewrite decide_False. Qed.

Lemma sector_index_eq b : 0 <= b < 2000 -> sector_index b = Z.to_nat b.
Proof. intros. unfold sector_index, BSIZE. rewrite u32_small by lia. by rewrite Z.div_mul. Qed.

Lemma wp_rsect s f fi fb b (Q : list Z -> mkst -> Prop) : st s f fi fb -> 0 <= b < 2000 -> Q (f b) s -> wp (rsect b) Q s.
Proof.
  intros Hs Hb Hk. apply (wp_Ok _ _ _ (f b) s); [|done]. unfold rsect. rewrite sector_index_eq by done.
  rewrite <- (st_img _ _ _ _ Hs). unfold sector. rewrite (proj2 (Z.ltb_ge _ _)) by lia.
  destruct (lookup_lt_is_Some_2 s.(img) (Z.to_nat b)) as [v E]; [rewrite (st_len _ _ _ _ Hs); lia |]. by rewrite E.
Qed.

Lemma wp_wsect s f fi fb b v (Q : unit -> mkst -> Prop) : st s f fi fb -> 0 <= b < 2000 -> length v = 1024%nat ->
  (forall s', st s' (upd f b v) fi fb -> Q tt s') -> wp (wsect b v) Q s.
Proof.
  intros Hs Hb Hv Hk. apply wp_modify, Hk. destruct Hs as [Hl Hi Hbl Hsb Hfi Hfb].
  unfold write_at. rewrite sector_index_eq by done. rewrite (proj2 (Nat.ltb_lt _ _)) by lia. constructor; try done; cbn [img set_img].
  - by rewrite length_insert.
  - intros b'. unfold upd. rewrite <- Hi. unfold sector. destruct (Z.ltb_spec b' 0); [by rewrite decide_False by lia |]. case_decide as E.
    + subst. by rewrite list_lookup_insert_eq by lia.
    + by rewrite list_lookup_insert_ne by lia.
  - intros b' Hb'. unfold upd. case_decide; [done | by apply Hbl].
Qed.

Lemma wp_next s f fi fb (Q : Z -> mkst -> Prop) : st s f fi fb -> 0 <= fb < 2000 -> (forall s', st s' f fi (fb + 1) -> Q fb s') -> wp next_block Q s.
Proof.
  intros [Hl Hi Hbl Hsb Hfi Hfb] Hr Hk. unfold next_block. apply wp_bind, wp_gets, wp_bind, wp_modify, wp_ret. rewrite Hfb.
  apply Hk. constructor; try done. cbn. apply u32_small. lia.
Qed.

(** ** xint(), the superblock *)

Lemma xint_eq v : 0 <= v < 2 ^ 32 -> xint v = v.
Proof.
  intros Hv. unfold xint. transitivity (le_value (le_bytes 4 v)); [|rewrite le_value_le_bytes; by apply Z.mod_small].
  cbn [le_value le_bytes]. rewrite !Z.shiftr_div_pow2 by lia. unfold u8. rewrite !Z.mod_mod by lia.
  change (2 ^ 8) with 256. change (2 ^ 16) with (256 * 256). change (2 ^ 24) with (256 * 256 * 256). by rewrite !Z.div_div by lia.
Qed.

Lemma xshort_eq v : 0 <= v < 2 ^ 16 -> xshort v = v.
Proof.
  intros Hv. unfold xshort. transitivity (le_value (le_bytes 2 v)); [|rewrite le_value_le_bytes; by apply Z.mod_small].
  cbn [le_value le_bytes]. rewrite !Z.shiftr_div_pow2 by lia. unfold u8. rewrite !Z.mod_mod by lia. done.
Qed.

Lemma the_sb_eq : the_sb = mkSb FSMAGIC 2000 1954 200 30 2 32 45.
Proof. reflexivity. Qed.
Lemma nmeta_eq : nmeta = 46.
Proof. reflexivity. Qed.

(** ** Inodes on the disk *)

(** The bytes of inode [i]. *)
Definition islot f (i : Z) : list Z := get_bytes (f (32 + i / 16)) (i mod 16 * 64) 64.

Lemma iblock_eq i : 0 <= i < 208 -> IBLOCK i the_sb = 32 + i / 16 /\ 32 <= 32 + i / 16 < 45.
Proof. intros. rewrite the_sb_eq. unfold IBLOCK. change IPB with 16. cbn [sb_inodestart]. rewrite u32_small by dlia. split; dlia. Qed.

Lemma wp_rinode s f fi fb i (Q : list Z -> mkst -> Prop) : st s f fi fb -> 0 <= i < 208 -> Q (islot f i) s -> wp (rinode i) Q s.
Proof.
  intros Hs Hi Hk. unfold rinode. apply wp_bind, wp_gets. rewrite (st_sb _ _ _ _ Hs). destruct (iblock_eq i Hi) as [-> Hb].
  apply wp_bind. eapply wp_rsect; [done | lia | by apply wp_ret].
Qed.

Lemma get_put_slot (d v : list Z) i j : length d = 1024%nat -> length v = 64%nat -> 0 <= i < 16 -> 0 <= j < 16 ->
  get_bytes (put_bytes d (i * 64) v) (j * 64) 64 = if decide (j = i) then v else get_bytes d (j * 64) 64.
Proof. intros. case_decide; [subst; apply get_put_bytes_eq; lia | apply get_put_bytes_ne; lia]. Qed.

(** The other inodes and the blocks that hold no inodes stay. *)
Definition iset f (i : Z) (v : list Z) f' : Prop :=
  islot f' i = v /\ (forall j, 0 <= j < 208 -> j <> i -> islot f' j = islot f j) /\ forall b, ~ 32 <= b < 45 -> f' b = f b.

Lemma wp_winode s f fi fb i v (Q : unit -> mkst -> Prop) : st s f fi fb -> 0 <= i < 208 -> length v = 64%nat ->
  (forall s' f', st s' f' fi fb -> iset f i v f' -> Q tt s') -> wp (winode i v) Q s.
Proof.
  intros Hs Hi Hv Hk. unfold winode. apply wp_bind, wp_gets. rewrite (st_sb _ _ _ _ Hs). destruct (iblock_eq i Hi) as [-> Hb].
  pose proof (st_block _ _ _ _ Hs (32 + i / 16) ltac:(lia)) as Hl. pose proof (Z.mod_pos_bound i 16 ltac:(lia)).
  apply wp_bind. eapply wp_rsect; [done | lia |]. change IPB with 16. change sizeof_dinode with 64.
  eapply wp_wsect; [done | lia | rewrite length_put_bytes; lia |]. intros s' Hs'. eapply Hk; [done |]. split_and!.
  - unfold islot. rewrite upd_same, get_put_slot by lia. by rewrite decide_True.
  - intros j Hj Hne. unfold islot. pose proof (Z.mod_pos_bound j 16 ltac:(lia)). destruct (decide (j / 16 = i / 16)) as [E|E].
    + rewrite E, upd_same, get_put_slot by lia. rewrite decide_False; [done |]. intros Em. apply Hne. rewrite (Z.div_mod i 16), (Z.div_mod j 16); lia.
    + by rewrite upd_ne by lia.
  - intros b Hnb. apply upd_ne. lia.
Qed.

(** A dinode in memory. *)
Lemma get_addr_eq x n : inode_ok x -> 0 <= n < 13 -> get_addr (dinode_bytes x) n = addr_at x n.
Proof.
  intros [_ _ _ _ _ [Hl Hr]] Hn. destruct (lookup_lt_is_Some_2 x.(i_addrs) (Z.to_nat n)) as [a Ha]; [lia |]. pose proof (Forall_lookup_1 _ _ _ _ Hr Ha) as Hb. cbn in Hb.
  unfold get_addr, addr_at. rewrite Ha. cbn [default from_option id]. rewrite <- (get_addrs_bytes _ _ _ Ha Hb). rewrite Z2Nat.id by lia.
  unfold get_u32. rewrite <- (get_bytes_get (dinode_bytes x) 12 52) by (unfold di_addrs; lia). change (get_bytes (dinode_bytes x) 12 52) with (take 52 (addrs_bytes x.(i_addrs))).
  rewrite take_ge by (rewrite length_addrs_bytes; lia). apply xint_eq. pose proof (le_value_range (get_bytes (addrs_bytes (i_addrs x)) (4 * n) 4)) as H.
  rewrite length_get_bytes in H by (rewrite ?length_addrs_bytes; lia). exact H.
Qed.

Lemma put_addrs_bytes (l : list Z) (i : nat) b : (i < length l)%nat -> put_bytes (addrs_bytes l) (4 * Z.of_nat i) (le_bytes 4 b) = addrs_bytes (<[i := b]> l).
Proof.
  revert i. induction l as [|a l IH]; intros [|i] Hi; cbn [length] in Hi; [lia | lia | |].
  - done.
  - unfold addrs_bytes in *. rewrite !fmap_cons. cbn [insert list_insert concat fmap list_fmap]. rewrite <- IH by lia. unfold put_bytes.
    replace (Z.to_nat (4 * Z.of_nat (S i))) with (length (le_bytes 4 a) + Z.to_nat (4 * Z.of_nat i))%nat by (rewrite length_le_bytes; lia).
    rewrite take_app_add', <- Nat.add_assoc, drop_app_add' by done. by rewrite <- app_assoc.
Qed.

Lemma put_bytes_tail (d e : list Z) o v : 0 <= o -> put_bytes (d ++ e) (Z.of_nat (length d) + o) v = d ++ put_bytes e o v.
Proof.
  intros. unfold put_bytes. rewrite Z2Nat.inj_add, Nat2Z.id by lia. rewrite take_app_add', <- Nat.add_assoc, drop_app_add' by done. by rewrite <- app_assoc.
Qed.

Lemma put_addr_eq x n b : inode_ok x -> 0 <= n < 13 -> 0 <= b < 2 ^ 32 -> put_addr (dinode_bytes x) n b = dinode_bytes (set_i_addrs (<[Z.to_nat n := b]> x.(i_addrs)) x).
Proof.
  intros [_ _ _ _ _ [Hl _]] Hn Hb. unfold put_addr, put_u32. rewrite xint_eq by done. unfold dinode_bytes. cbn [i_type i_major i_minor i_nlink i_size i_addrs set_i_addrs].
  rewrite <- put_addrs_bytes by lia. rewrite Z2Nat.id by lia. rewrite !app_assoc. change di_addrs with 12.
  rewrite <- put_bytes_tail by lia. done.
Qed.

Lemma put_size_eq x v : 0 <= v < 2 ^ 32 -> put_u32 (dinode_bytes x) di_size (xint v) = dinode_bytes (set_i_size v x).
Proof. intros. rewrite xint_eq by done. done. Qed.

Lemma get_size_eq x : inode_ok x -> xint (get_u32 (dinode_bytes x) di_size) = x.(i_size).
Proof.
  intros [_ _ _ _ Hs _]. change (get_u32 (dinode_bytes x) di_size) with (le_value (le_bytes 4 x.(i_size))).
  rewrite le_value_le_bytes, Z.mod_small by done. by apply xint_eq.
Qed.

(** ** The blocks of a file *)

(** Block [n] of the file; -1 is the indirect block. *)
Definition slot f x (n : Z) : Z := if n <? 0 then addr_at x NDIRECT else file_addr f x n.

(** A file of [k] blocks has this block. *)
Definition needs (k n : Z) : Prop := 0 <= n < k \/ (n = -1 /\ NDIRECT < k).

#[export] Instance needs_dec k n : Decision (needs k n).
Proof. unfold needs. apply _. Defined.

Definition len c : Z := Z.of_nat (length c).
Definition nb c : Z := (len c + 1023) / 1024.
(** How many blocks of the disk a file of [k] blocks takes. *)
Definition blocks (k : Z) : Z := k + if NDIRECT <? k then 1 else 0.
(** Block [n] of the bytes [c], padded with zeroes. *)
Definition block c (n : Z) : list Z := take 1024 (drop (Z.to_nat (1024 * n)) c ++ zeroes).

(** The bytes of the files [gs] are where their inodes say; no block is used twice, and the
    blocks from [fb] on are unused and zero. *)
Record data_ok f (fb : Z) (gs : list (inode * list Z)) : Prop := {
  do_in i x c n : gs !! i = Some (x, c) -> -1 <= n < MAXFILE -> needs (nb c) n -> 46 <= slot f x n < fb;
  do_out i x c n : gs !! i = Some (x, c) -> -1 <= n < MAXFILE -> ~ needs (nb c) n -> slot f x n = 0;
  do_inj i j x c y d n m : gs !! i = Some (x, c) -> gs !! j = Some (y, d) -> needs (nb c) n -> needs (nb d) m -> slot f x n = slot f y m -> i = j /\ n = m;
  do_block i x c n : gs !! i = Some (x, c) -> 0 <= n < nb c -> f (slot f x n) = block c n;
  do_inode i x c : gs !! i = Some (x, c) -> inode_ok x /\ nb c <= MAXFILE;
  do_free b : fb <= b < 2000 -> f b = zeroes;
  do_fb : 46 <= fb <= 2000;
}.

(** What find_block() makes of the inode [x] of a file of [k] blocks when asked for block [n]:
    the blocks that a file of [k'] blocks needs and one of [k] blocks does not are new. *)
Record found f (fb : Z) x (k k' : Z) f' (fb' : Z) x' : Prop := {
  fd_old n : -1 <= n < MAXFILE -> ~ (needs k' n /\ ~ needs k n) -> slot f' x' n = slot f x n;
  fd_new n : needs k' n -> ~ needs k n -> fb <= slot f' x' n < fb';
  fd_inj n m : needs k' n -> ~ needs k n -> needs k' m -> ~ needs k m -> slot f' x' n = slot f' x' m -> n = m;
  fd_same b : b < fb -> ~ (needs k (-1) /\ b = slot f x (-1)) -> f' b = f b;
  fd_zero n : 0 <= n -> needs k' n -> ~ needs k n -> f' (slot f' x' n) = zeroes;
  fd_free b : fb' <= b < 2000 -> f' b = zeroes;
  fd_x : x' = set_i_addrs x'.(i_addrs) x /\ inode_ok x';
  fd_le : fb <= fb';
}.

Lemma MAXFILE_eq : MAXFILE = 268.
Proof. reflexivity. Qed.
Lemma NDIRECT_eq : NDIRECT = 12.
Proof. reflexivity. Qed.

Lemma length_zeroes : length zeroes = 1024%nat.
Proof. reflexivity. Qed.

Lemma get_zeroes o : 0 <= o <= 1020 -> get_u32 zeroes o = 0.
Proof. intros. unfold get_u32, get_bytes, zeroes. rewrite drop_replicate, take_replicate, Nat.min_l by lia. reflexivity. Qed.

Lemma addr_at_insert x n b m : inode_ok x -> 0 <= n < 13 -> 0 <= m < 13 ->
  addr_at (set_i_addrs (<[Z.to_nat n := b]> x.(i_addrs)) x) m = if decide (m = n) then b else addr_at x m.
Proof.
  intros [_ _ _ _ _ [Hl _]] Hn Hm. unfold addr_at. cbn [i_addrs set_i_addrs]. case_decide as E.
  - subst. by rewrite list_lookup_insert_eq by lia.
  - by rewrite list_lookup_insert_ne by lia.
Qed.

Lemma inode_ok_insert x n b : inode_ok x -> 0 <= b < 2 ^ 32 -> inode_ok (set_i_addrs (<[n := b]> x.(i_addrs)) x).
Proof.
  intros [? ? ? ? ? [Hl Hr]] Hb. constructor; try done. cbn [i_addrs set_i_addrs]. rewrite length_insert. split; [done |]. by apply Forall_insert.
Qed.

Lemma slot_ext f f' x x' n : addr_at x' 12 = addr_at x 12 -> (0 <= n < 12 -> addr_at x' n = addr_at x n) ->
  (12 <= n -> addr_at x 12 <> 0 -> get_u32 (f' (addr_at x 12)) (4 * (n - 12)) = get_u32 (f (addr_at x 12)) (4 * (n - 12))) -> slot f' x' n = slot f x n.
Proof.
  intros E1 E2 E3. unfold slot, file_addr. rewrite NDIRECT_eq, E1. destruct (Z.ltb_spec n 0); [done |]. destruct (Z.ltb_spec n 12); [by apply E2 |].
  destruct (Z.eqb_spec (addr_at x 12) 0); [done |]. by apply E3.
Qed.

(** The file has the block already. *)
Lemma found_refl f fb x k : (forall b, fb <= b < 2000 -> f b = zeroes) -> inode_ok x -> found f fb x k k f fb x.
Proof. intros Hz Hx. constructor; try tauto; try done. split; [by destruct x | done]. Qed.

(** A direct block. *)
Lemma found_direct f fb x k : (forall b, fb <= b < 2000 -> f b = zeroes) -> inode_ok x -> 0 <= k < NDIRECT -> 46 <= fb < 2000 ->
  found f fb x k (k + 1) f (fb + 1) (set_i_addrs (<[Z.to_nat k := fb]> x.(i_addrs)) x).
Proof.
  intros Hz Hx Hk Hfb. rewrite NDIRECT_eq in Hk. set (x' := set_i_addrs _ x).
  assert (forall n, needs (k + 1) n /\ ~ needs k n <-> n = k) as Hn by (intros n; unfold needs; rewrite NDIRECT_eq; lia).
  assert (slot f x' k = fb) as Ek.
  { unfold slot, file_addr. rewrite NDIRECT_eq, (proj2 (Z.ltb_ge _ _)), (proj2 (Z.ltb_lt _ _)) by lia. unfold x'. rewrite addr_at_insert by (done || lia). by rewrite decide_True. }
  constructor.
  - intros n Hr Hne. rewrite Hn in Hne. apply slot_ext; try done; intros; unfold x'; rewrite addr_at_insert by (done || lia); by rewrite decide_False by lia.
  - intros n H1 H2. rewrite (proj1 (Hn n) (conj H1 H2)), Ek. lia.
  - intros n m H1 H2 H3 H4 _. by rewrite (proj1 (Hn n) (conj H1 H2)), (proj1 (Hn m) (conj H3 H4)).
  - done.
  - intros n _ H1 H2. rewrite (proj1 (Hn n) (conj H1 H2)), Ek. apply Hz. lia.
  - intros b Hb. apply Hz. lia.
  - split; [done |]. apply inode_ok_insert; [done | lia].
  - lia.
Qed.

(** Where block [n] is, past the direct ones. *)
Lemma slot_indirect f x n : 12 <= n -> addr_at x 12 <> 0 -> slot f x n = get_u32 (f (addr_at x 12)) (4 * (n - 12)).
Proof.
  intros Hn Ha. unfold slot, file_addr. rewrite NDIRECT_eq, (proj2 (Z.ltb_ge n 0)), (proj2 (Z.ltb_ge n 12)) by lia. by rewrite (proj2 (Z.eqb_neq _ _)).
Qed.

Lemma slot_ind f x : slot f x (-1) = addr_at x 12.
Proof. reflexivity. Qed.

(** A block past the direct ones, when the indirect block is there. *)
Lemma found_indirect f fb x k : (forall b, fb <= b < 2000 -> f b = zeroes) -> inode_ok x -> NDIRECT < k < MAXFILE -> 46 <= fb < 2000 ->
  46 <= addr_at x 12 < fb -> length (f (addr_at x 12)) = 1024%nat ->
  found f fb x k (k + 1) (upd f (addr_at x 12) (put_u32 (f (addr_at x 12)) (4 * (k - 12)) fb)) (fb + 1) x.
Proof.
  intros Hz Hx Hk Hfb Hi Hl. rewrite NDIRECT_eq, MAXFILE_eq in Hk. set (a := addr_at x 12) in *. set (f' := upd _ _ _).
  assert (forall n, needs (k + 1) n /\ ~ needs k n <-> n = k) as Hn by (intros n; unfold needs; rewrite NDIRECT_eq; lia).
  assert (f' a = put_u32 (f a) (4 * (k - 12)) fb) as Ea by apply upd_same.
  assert (slot f' x k = fb) as Ek.
  { rewrite slot_indirect by (fold a; lia). fold a. rewrite Ea, get_put_u32_eq by lia. apply u32_small. lia. }
  constructor.
  - intros n Hr Hne. rewrite Hn in Hne. rewrite MAXFILE_eq in Hr. apply slot_ext; try done. fold a. intros. rewrite Ea. apply get_put_u32_ne; lia.
  - intros n H1 H2. rewrite (proj1 (Hn n) (conj H1 H2)), Ek. lia.
  - intros n m H1 H2 H3 H4 _. by rewrite (proj1 (Hn n) (conj H1 H2)), (proj1 (Hn m) (conj H3 H4)).
  - intros b Hb Hne. apply upd_ne. intros ->. apply Hne. split; [right; rewrite NDIRECT_eq; lia | done].
  - intros n _ H1 H2. rewrite (proj1 (Hn n) (conj H1 H2)), Ek. unfold f'. rewrite upd_ne by lia. apply Hz. lia.
  - intros b Hb. unfold f'. rewrite upd_ne by lia. apply Hz. lia.
  - split; [by destruct x | done].
  - lia.
Qed.

(** The first one past the direct ones: the indirect block is made first. *)
Lemma found_first f fb x : (forall b, fb <= b < 2000 -> f b = zeroes) -> inode_ok x -> 46 <= fb < 1999 -> addr_at x 12 = 0 ->
  found f fb x 12 13 (upd f fb (put_u32 zeroes 0 (fb + 1))) (fb + 2) (set_i_addrs (<[12%nat := fb]> x.(i_addrs)) x).
Proof.
  intros Hz Hx Hfb Hi. set (f' := upd _ _ _). set (x' := set_i_addrs _ x).
  assert (forall n, needs 13 n /\ ~ needs 12 n <-> n = 12 \/ n = -1) as Hn by (intros n; unfold needs; rewrite NDIRECT_eq; lia).
  assert (addr_at x' 12 = fb) as Ex by (unfold x'; rewrite (addr_at_insert x 12) by (done || lia); done).
  assert (f' fb = put_u32 zeroes 0 (fb + 1)) as Ea by apply upd_same.
  assert (forall n, 12 <= n -> slot f' x' n = get_u32 (put_u32 zeroes 0 (fb + 1)) (4 * (n - 12))) as Es.
  { intros n Hn'. rewrite slot_indirect by (rewrite ?Ex; lia). by rewrite Ex, Ea. }
  assert (slot f' x' 12 = fb + 1) as Ek by (rewrite Es, get_put_u32_eq by (done || (rewrite ?length_zeroes; lia)); apply u32_small; lia).
  assert (slot f' x' (-1) = fb) as Em by exact Ex.
  constructor.
  - intros n Hr Hne. rewrite Hn in Hne. rewrite MAXFILE_eq in Hr. unfold slot, file_addr. rewrite NDIRECT_eq. rewrite Ex, Hi. cbn [Z.eqb].
    destruct (Z.ltb_spec n 0); [lia |]. destruct (Z.ltb_spec n 12); [unfold x'; rewrite (addr_at_insert x 12) by (done || lia); by rewrite decide_False by lia |].
    rewrite (proj2 (Z.eqb_neq _ _)) by lia. rewrite Ea, get_put_u32_ne by (rewrite ?length_zeroes; lia). apply get_zeroes. lia.
  - intros n H1 H2. destruct (proj1 (Hn n) (conj H1 H2)) as [-> | ->]; lia.
  - intros n m H1 H2 H3 H4. destruct (proj1 (Hn n) (conj H1 H2)) as [-> | ->], (proj1 (Hn m) (conj H3 H4)) as [-> | ->]; lia.
  - intros b Hb Hne. apply upd_ne. lia.
  - intros n Hn0 H1 H2. destruct (proj1 (Hn n) (conj H1 H2)) as [-> | ->]; [|lia]. rewrite Ek. unfold f'. rewrite upd_ne by lia. apply Hz. lia.
  - intros b Hb. unfold f'. rewrite upd_ne by lia. apply Hz. lia.
  - split; [done |]. apply inode_ok_insert; [done | lia].
  - lia.
Qed.

Definition found_at f fi fb x k k' n (r : list Z * Z) s' : Prop :=
  exists f' fb' x', r = (dinode_bytes x', slot f' x' n) /\ st s' f' fi fb' /\ found f fb x k k' f' fb' x' /\ fb' = fb + blocks k' - blocks k.

Lemma get_u32_range (d : list Z) o : 0 <= o -> o + 4 <= Z.of_nat (length d) -> 0 <= get_u32 d o < 2 ^ 32.
Proof. intros. pose proof (le_value_range (get_bytes d o 4)) as H1. rewrite length_get_bytes in H1 by lia. exact H1. Qed.

Lemma find_old s f fi fb gs i x c n : st s f fi fb -> data_ok f fb gs -> gs !! i = Some (x, c) -> 0 <= n < nb c ->
  wp (find_block (dinode_bytes x) n) (found_at f fi fb x (nb c) (nb c) n) s.
Proof.
  intros Hs Hd Hi Hn. destruct (do_inode _ _ _ Hd i x c Hi) as [Hx Hm]. rewrite MAXFILE_eq in Hm. pose proof (do_fb _ _ _ Hd) as Hfb.
  pose proof (do_in _ _ _ Hd i x c n Hi ltac:(rewrite MAXFILE_eq; lia) ltac:(by left)) as Hr.
  assert (found_at f fi fb x (nb c) (nb c) n (dinode_bytes x, slot f x n) s) as Hf.
  { exists f, fb, x. split_and!; [done | done | apply found_refl; [apply Hd | done] | lia]. }
  unfold find_block, ensure_addr. rewrite NDIRECT_eq. destruct (Z.ltb_spec n 12) as [Hlt|Hge].
  - assert (slot f x n = addr_at x n) as E by (unfold slot, file_addr; rewrite NDIRECT_eq, (proj2 (Z.ltb_ge _ _)), (proj2 (Z.ltb_lt _ _)) by lia; done).
    rewrite get_addr_eq by (done || lia). rewrite <- E, (proj2 (Z.eqb_neq _ _)) by lia. apply wp_bind, wp_ret, wp_ret. by rewrite get_addr_eq, <- E by (done || lia).
  - pose proof (do_in _ _ _ Hd i x c (-1) Hi ltac:(rewrite MAXFILE_eq; lia) ltac:(right; rewrite NDIRECT_eq; lia)) as Hr1. rewrite slot_ind in Hr1.
    rewrite get_addr_eq, (proj2 (Z.eqb_neq _ _)) by (done || lia). apply wp_bind, wp_ret, wp_bind. rewrite get_addr_eq by (done || lia). eapply wp_rsect; [done | lia |].
    rewrite slot_indirect in Hr, Hf by lia. rewrite (proj2 (Z.eqb_neq _ _)) by lia. apply wp_bind, wp_ret, wp_ret. by rewrite xint_eq by lia.
Qed.

Section find_new.
Context s f fi fb gs i x c (Hs : st s f fi fb) (Hd : data_ok f fb gs) (Hi : gs !! i = Some (x, c)).

Lemma find_direct : nb c < 12 -> fb + 1 <= 2000 -> wp (find_block (dinode_bytes x) (nb c)) (found_at f fi fb x (nb c) (nb c + 1) (nb c)) s.
Proof.
  intros Hlt Hc. destruct (do_inode _ _ _ Hd i x c Hi) as [Hx _]. pose proof (do_fb _ _ _ Hd) as Hfb.
  assert (0 <= nb c) as H0 by (unfold nb, len; apply Z.div_pos; lia).
  pose proof (do_out _ _ _ Hd i x c (nb c) Hi ltac:(rewrite MAXFILE_eq; lia) ltac:(unfold needs; lia)) as Hr. set (k := nb c) in *.
  assert (forall f x, slot f x k = addr_at x k) as E.
  { intros. unfold slot, file_addr. rewrite NDIRECT_eq, (proj2 (Z.ltb_ge _ _)), (proj2 (Z.ltb_lt _ _)) by lia. done. }
  rewrite E in Hr. unfold find_block, ensure_addr. rewrite NDIRECT_eq, (proj2 (Z.ltb_lt _ _)) by lia. rewrite get_addr_eq, Hr by (done || lia). cbn [Z.eqb].
  apply wp_bind, wp_bind. eapply wp_next; [done | lia |]. intros s' Hs'. apply wp_ret, wp_ret. rewrite put_addr_eq by (done || lia).
  pose proof (found_direct f fb x k (do_free _ _ _ Hd) Hx ltac:(rewrite NDIRECT_eq; lia) ltac:(lia)) as Hf. pose proof (proj2 (fd_x _ _ _ _ _ _ _ _ Hf)) as Hx'.
  eexists f, (fb + 1), _. split_and!; [|done | exact Hf | unfold blocks; rewrite NDIRECT_eq; repeat case_Z; lia]. rewrite get_addr_eq, E by (done || lia). done.
Qed.

Lemma find_first_indirect : nb c = 12 -> fb + 2 <= 2000 -> wp (find_block (dinode_bytes x) 12) (found_at f fi fb x 12 13 12) s.
Proof.
  intros Ek Hc. destruct (do_inode _ _ _ Hd i x c Hi) as [Hx _]. pose proof (do_fb _ _ _ Hd) as Hfb. pose proof (do_free _ _ _ Hd) as Hz.
  pose proof (do_out _ _ _ Hd i x c (-1) Hi ltac:(rewrite MAXFILE_eq; lia) ltac:(unfold needs; rewrite NDIRECT_eq; lia)) as Hr. rewrite slot_ind in Hr.
  pose proof (found_first f fb x Hz Hx ltac:(lia) Hr) as Hf. pose proof (proj2 (fd_x _ _ _ _ _ _ _ _ Hf)) as Hx'.
  unfold find_block, ensure_addr. rewrite NDIRECT_eq. change (12 <? 12) with false. change (4 * (12 - 12)) with 0. cbv iota. rewrite get_addr_eq, Hr by (done || lia).
  apply wp_bind, wp_bind. eapply wp_next; [done | lia |]. intros s' Hs'. apply wp_ret. rewrite put_addr_eq by (done || lia). change (Z.to_nat 12) with 12%nat. set (x' := set_i_addrs _ x) in *.
  assert (addr_at x' 12 = fb) as Ex by (unfold x'; rewrite (addr_at_insert x 12) by (done || lia); done).
  rewrite get_addr_eq, Ex by (done || lia). apply wp_bind. eapply wp_rsect; [done | lia |]. rewrite Hz by lia. rewrite get_zeroes by lia. cbn [Z.eqb].
  apply wp_bind, wp_bind. eapply wp_next; [done | lia |]. intros s2 Hs2. apply wp_bind. rewrite xint_eq by lia. eapply wp_wsect; [done | lia | by rewrite length_put_u32 by (rewrite ?length_zeroes; lia) |].
  intros s3 Hs3. apply wp_ret, wp_ret. rewrite get_put_u32_eq, u32_small, xint_eq by (rewrite ?length_zeroes; lia).
  eexists _, (fb + 2), x'. split_and!; [|by replace (fb + 2) with (fb + 1 + 1) by lia | exact Hf | change (blocks 13) with 14; change (blocks 12) with 12; lia].
  f_equal. rewrite slot_indirect by lia. rewrite Ex, upd_same. change (4 * (12 - 12)) with 0. rewrite get_put_u32_eq, u32_small by (rewrite ?length_zeroes; lia). done.
Qed.

Lemma find_indirect : 12 < nb c < MAXFILE -> fb + 1 <= 2000 -> wp (find_block (dinode_bytes x) (nb c)) (found_at f fi fb x (nb c) (nb c + 1) (nb c)) s.
Proof.
  intros Hlt Hc. destruct (do_inode _ _ _ Hd i x c Hi) as [Hx _]. pose proof (do_fb _ _ _ Hd) as Hfb.
  pose proof (do_in _ _ _ Hd i x c (-1) Hi ltac:(lia) ltac:(right; rewrite NDIRECT_eq; lia)) as Hr1. rewrite slot_ind in Hr1.
  pose proof (do_out _ _ _ Hd i x c (nb c) Hi ltac:(lia) ltac:(unfold needs; lia)) as Hr. rewrite slot_indirect in Hr by lia. set (k := nb c) in *. rewrite MAXFILE_eq in Hlt.
  pose proof (st_block _ _ _ _ Hs (addr_at x 12) ltac:(lia)) as Hl.
  pose proof (found_indirect f fb x k (do_free _ _ _ Hd) Hx ltac:(rewrite NDIRECT_eq, MAXFILE_eq; lia) ltac:(lia) Hr1 Hl) as Hf.
  unfold find_block, ensure_addr. rewrite NDIRECT_eq, (proj2 (Z.ltb_ge _ _)) by lia. rewrite get_addr_eq, (proj2 (Z.eqb_neq _ _)) by (done || lia).
  apply wp_bind, wp_ret, wp_bind. rewrite get_addr_eq by (done || lia). eapply wp_rsect; [done | lia |]. rewrite Hr. cbn [Z.eqb].
  apply wp_bind, wp_bind. eapply wp_next; [done | lia |]. intros s2 Hs2. apply wp_bind. rewrite xint_eq by lia.
  eapply wp_wsect; [done | lia | by rewrite length_put_u32 by lia |]. intros s3 Hs3. apply wp_ret, wp_ret. rewrite get_put_u32_eq, u32_small, xint_eq by lia.
  eexists _, (fb + 1), x. split_and!; [|done | exact Hf | unfold blocks; rewrite NDIRECT_eq; repeat case_Z; lia].
  f_equal. rewrite slot_indirect by lia. rewrite upd_same, get_put_u32_eq, u32_small by lia. done.
Qed.

Lemma find_new : nb c < MAXFILE -> fb + blocks (nb c + 1) - blocks (nb c) <= 2000 ->
  wp (find_block (dinode_bytes x) (nb c)) (found_at f fi fb x (nb c) (nb c + 1) (nb c)) s.
Proof.
  unfold blocks. rewrite NDIRECT_eq. intros Hm Hc. destruct (decide (nb c < 12)); [apply find_direct; repeat case_Z; lia |].
  destruct (decide (nb c = 12)) as [E|]; [|apply find_indirect; repeat case_Z; lia].
  pose proof (find_first_indirect E) as Hf. rewrite E in *. apply Hf. change (12 <? 12 + 1) with true in Hc. change (12 <? 12) with false in Hc. lia.
Qed.
End find_new.

(** ** Appending to a file *)

Lemma needs_dec' k n : needs k n \/ ~ needs k n.
Proof. destruct (decide (needs k n)); auto. Qed.

(** A file grows, in blocks it has or in new ones; the others stay as they are. *)
Section data_grow.
Context f fb gs i x c f1 fb1 x1 f2 c' (Hd : data_ok f fb gs) (Hi : gs !! i = Some (x, c)) (Hf : found f fb x (nb c) (nb c') f1 fb1 x1).
Context (Hk : nb c <= nb c' <= MAXFILE) (Hfb : fb1 <= 2000) (Hs : forall n, -1 <= n < MAXFILE -> slot f2 x1 n = slot f1 x1 n).
Context (Ho : forall b, (forall n, 0 <= n < nb c' -> b <> slot f1 x1 n) -> f2 b = f1 b) (Hb : forall n, 0 <= n < nb c' -> f2 (slot f1 x1 n) = block c' n).

Lemma needs_range k n : needs k n -> k <= MAXFILE -> -1 <= n < MAXFILE.
Proof. unfold needs. rewrite MAXFILE_eq. lia. Qed.

Lemma grow_own n : needs (nb c') n ->
  (needs (nb c) n /\ slot f1 x1 n = slot f x n /\ 46 <= slot f x n < fb) \/ (~ needs (nb c) n /\ fb <= slot f1 x1 n < fb1).
Proof.
  intros Hn. pose proof Hf as [F1 F2 _ _ _ _ _ _]. pose proof (needs_range _ _ Hn ltac:(lia)). destruct (needs_dec' (nb c) n) as [Hy|Hy]; [left | right; auto].
  split_and!; [done | apply F1; [done | tauto] | ..]; by apply (do_in _ _ _ Hd i x c n).
Qed.

Lemma grow_inj n m : needs (nb c') n -> needs (nb c') m -> slot f1 x1 n = slot f1 x1 m -> n = m.
Proof.
  intros Hn Hm E. destruct (grow_own n Hn) as [(N1 & E1 & R1)|(N1 & R1)], (grow_own m Hm) as [(N2 & E2 & R2)|(N2 & R2)]; try lia; [|by apply (fd_inj _ _ _ _ _ _ _ _ Hf)].
  rewrite E1, E2 in E. by destruct (do_inj _ _ _ Hd i i x c x c n m Hi Hi N1 N2 E).
Qed.

Section other.
Context (j : nat) (y : inode) (d : list Z) (Hj : j <> i) (Hy : gs !! j = Some (y, d)).

Lemma other_in n : needs (nb d) n -> -1 <= n < MAXFILE /\ 46 <= slot f y n < fb.
Proof. intros Hn. pose proof (needs_range _ _ Hn (proj2 (do_inode _ _ _ Hd j y d Hy))). split; [done | by apply (do_in _ _ _ Hd j y d n)]. Qed.

Lemma grow_apart n m : needs (nb d) n -> needs (nb c') m -> slot f y n <> slot f1 x1 m.
Proof.
  intros Hn Hm E. destruct (other_in n Hn) as [_ Hr]. destruct (grow_own m Hm) as [(H1 & H2 & _)|]; [|lia].
  rewrite H2 in E. destruct (do_inj _ _ _ Hd j i y d x c n m Hy Hi Hn H1 E) as [? _]. done.
Qed.

Lemma grow_keep n : needs (nb d) n -> f2 (slot f y n) = f (slot f y n).
Proof.
  intros Hn. destruct (other_in n Hn) as [_ Hr]. rewrite Ho by (intros m Hm; apply grow_apart; [done | by left]).
  apply (fd_same _ _ _ _ _ _ _ _ Hf); [lia |]. intros [H1 H2]. destruct (do_inj _ _ _ Hd j i y d x c n (-1) Hy Hi Hn H1 H2). done.
Qed.

Lemma grow_other n : -1 <= n < MAXFILE -> slot f2 y n = slot f y n.
Proof.
  intros Hn. apply slot_ext; [done | done |]. intros Hge Hnz. f_equal. change (addr_at y 12) with (slot f y (-1)). apply grow_keep.
  destruct (needs_dec' (nb d) (-1)) as [|Hno]; [done |]. exfalso. apply Hnz, (do_out _ _ _ Hd j y d (-1) Hy); [rewrite MAXFILE_eq; lia | done].
Qed.
End other.

Lemma grow_lookup j y d : <[i := (x1, c')]> gs !! j = Some (y, d) -> (j = i /\ y = x1 /\ d = c') \/ (j <> i /\ gs !! j = Some (y, d)).
Proof. intros [(<- & [= <- <-] & _)|[Hne Hy]]%list_lookup_insert_Some; [by left | right; split; [congruence | done]]. Qed.

Lemma grow_inj_new j y d n m : j <> i -> gs !! j = Some (y, d) -> needs (nb c') n -> needs (nb d) m -> slot f2 x1 n <> slot f2 y m.
Proof.
  intros Hj Hy Hn Hm. destruct (other_in j y d Hy m Hm) as [Hr _]. rewrite Hs by (apply (needs_range _ _ Hn); lia). rewrite (grow_other j y d Hj Hy) by done.
  intros E. by apply (grow_apart j y d Hj Hy m n Hm Hn).
Qed.

Lemma data_grow : data_ok f2 fb1 (<[i := (x1, c')]> gs).
Proof.
  pose proof Hf as [F1 F2 F3 F4 F5 F6 [F7 F8] F9]. pose proof (do_fb _ _ _ Hd) as H0. constructor.
  - intros j y d n [(-> & -> & ->)|[Hj Hy]]%grow_lookup Hn Hnd.
    + rewrite Hs by done. destruct (grow_own n Hnd) as [(_ & -> & ?)|[_ ?]]; lia.
    + rewrite (grow_other j y d Hj Hy) by done. pose proof (do_in _ _ _ Hd j y d n Hy Hn Hnd). lia.
  - intros j y d n [(-> & -> & ->)|[Hj Hy]]%grow_lookup Hn Hnd.
    + rewrite Hs, F1 by (done || tauto). apply (do_out _ _ _ Hd i x c n Hi Hn). unfold needs in *. lia.
    + rewrite (grow_other j y d Hj Hy) by done. by apply (do_out _ _ _ Hd j y d n Hy Hn).
  - intros j j' y d y' d' n m [(-> & -> & ->)|[Hj Hy]]%grow_lookup [(-> & -> & ->)|[Hj' Hy']]%grow_lookup Hn Hm E.
    + split; [done |]. rewrite !Hs in E by (eapply needs_range; [done | lia]). by apply grow_inj.
    + by destruct (grow_inj_new j' y' d' n m Hj' Hy' Hn Hm).
    + by destruct (grow_inj_new j y d m n Hj Hy Hm Hn).
    + destruct (other_in j y d Hy n Hn) as [Hr _], (other_in j' y' d' Hy' m Hm) as [Hr' _]. rewrite (grow_other j y d Hj Hy), (grow_other j' y' d' Hj' Hy') in E by done. by apply (do_inj _ _ _ Hd j j' y d y' d').
  - intros j y d n [(-> & -> & ->)|[Hj Hy]]%grow_lookup Hn.
    + rewrite Hs by (eapply needs_range; [left; done | lia]). by apply Hb.
    + assert (needs (nb d) n) as Hnd by (by left). destruct (other_in j y d Hy n Hnd) as [Hr _]. rewrite (grow_other j y d Hj Hy) by done. rewrite (grow_keep j y d Hj Hy) by done. by apply (do_block _ _ _ Hd j y d).
  - intros j y d [(-> & -> & ->)|[Hj Hy]]%grow_lookup; [split; [done | lia] | by apply (do_inode _ _ _ Hd j)].
  - intros b Hbr. rewrite Ho; [by apply F6 |]. intros n Hn. destruct (grow_own n) as [(_ & -> & ?)|[_ ?]]; [by left | lia..].
  - lia.
Qed.
End data_grow.

(** *** Blocks of a longer file *)

Lemma nb_range c : 0 <= nb c.
Proof. unfold nb, len. apply Z.div_pos; lia. Qed.

Lemma len_app c p : len (c ++ p) = len c + len p.
Proof. unfold len. rewrite length_app. lia. Qed.

Lemma nb_app c w : 0 < len w -> len c mod 1024 + len w <= 1024 ->
  (len c / 1024 < nb c /\ nb (c ++ w) = nb c) \/ (len c / 1024 = nb c /\ len c mod 1024 = 0 /\ nb (c ++ w) = nb c + 1).
Proof. intros. unfold nb. rewrite len_app. assert (0 <= len c) by (unfold len; lia). dlia. Qed.

Lemma block_empty c n : 0 <= n -> len c <= 1024 * n -> block c n = zeroes.
Proof. intros Hn Hl. unfold block, len in *. rewrite drop_ge by lia. reflexivity. Qed.

Lemma length_block c n : length (block c n) = 1024%nat.
Proof. unfold block. rewrite length_take, length_app, length_zeroes. lia. Qed.

Lemma block_before c w n : 0 <= n -> 1024 * (n + 1) <= len c -> block (c ++ w) n = block c n.
Proof.
  intros Hn Hl. unfold block, len in *. rewrite drop_app_le by lia. rewrite <- app_assoc. rewrite !take_app_le by (rewrite length_drop; lia). done.
Qed.

Lemma block_last c w : 0 < len w -> len c mod 1024 + len w <= 1024 ->
  put_bytes (block c (len c / 1024)) (len c mod 1024) w = block (c ++ w) (len c / 1024).
Proof.
  intros Hw Hm. set (n := len c / 1024). set (o := len c mod 1024) in *.
  assert (0 <= len c) by (unfold len; lia). assert (len c = 1024 * n + o /\ 0 <= o < 1024 /\ 0 <= n) as (El & Ho & Hn) by (unfold n, o; dlia).
  unfold block. rewrite drop_app_le by (unfold len in *; lia). set (r := drop _ c). assert (length r = Z.to_nat o) as Er by (unfold r; rewrite length_drop; unfold len in *; lia).
  unfold put_bytes. rewrite <- app_assoc. unfold len in *. rewrite take_take, Nat.min_l, take_app_length' by lia.
  rewrite (take_app r (w ++ zeroes)), (take_ge r), (take_app w zeroes), (take_ge w) by lia. do 2 f_equal.
  unfold zeroes. rewrite take_replicate, skipn_firstn_comm, drop_app_ge, drop_replicate, take_replicate by lia. f_equal. lia.
Qed.

(** *** One turn of iappend() *)

Section append.
Context f fb gs i x c (w : list Z) (Hd : data_ok f fb gs) (Hi : gs !! i = Some (x, c)).
Context (Hw : 0 < len w) (Hfit : len c mod 1024 + len w <= 1024) (Hmax : nb (c ++ w) <= MAXFILE).

Lemma append_data f1 fb1 x1 : found f fb x (nb c) (nb (c ++ w)) f1 fb1 x1 -> fb1 <= 2000 ->
  let n := len c / 1024 in
  data_ok (upd f1 (slot f1 x1 n) (put_bytes (f1 (slot f1 x1 n)) (len c mod 1024) w)) fb1 (<[i := (x1, c ++ w)]> gs).
Proof.
  intros Hf Hle n. set (a := slot f1 x1 n). pose proof (nb_range c) as H0. pose proof (nb_app c w Hw Hfit) as Hnb. fold n in Hnb.
  assert (0 <= n) as Hn0 by (apply Z.div_pos; unfold len; lia). assert (nb c <= nb (c ++ w)) as Hle' by lia. assert (0 <= n < nb (c ++ w)) as Hn by lia.
  pose proof (grow_inj f fb gs i x c f1 fb1 x1 (c ++ w) Hd Hi Hf ltac:(lia)) as Hinj.
  assert (forall m, 0 <= m < nb c -> f1 (slot f1 x1 m) = block c m) as Hold.
  { intros m Hm. destruct (do_inode _ _ _ Hd i x c Hi) as [_ Hmc]. assert (-1 <= m < MAXFILE) as Hmr by lia. assert (needs (nb c) m) as Hnm by (by left).
    rewrite (fd_old _ _ _ _ _ _ _ _ Hf m Hmr) by tauto. pose proof (do_in _ _ _ Hd i x c m Hi Hmr Hnm).
    rewrite (fd_same _ _ _ _ _ _ _ _ Hf) by (lia || (intros [N1 E1]; destruct (do_inj _ _ _ Hd i i x c x c m (-1) Hi Hi Hnm N1 E1); lia)). by apply (do_block _ _ _ Hd i). }
  assert (f1 a = block c n) as Ea.
  { destruct Hnb as [[Hlt _]|(E & Em & E')]; [by apply Hold; lia |]. rewrite block_empty by (unfold n; dlia). apply (fd_zero _ _ _ _ _ _ _ _ Hf); [lia | by left | unfold needs; lia]. }
  apply (data_grow f fb gs i x c f1 fb1 x1); try done; try lia.
  - intros m Hm. apply slot_ext; [done | done |]. intros Hge Hnz. f_equal. apply upd_ne. intros E. destruct (needs_dec' (nb (c ++ w)) (-1)) as [Hi1|Hi1].
    + specialize (Hinj (-1) n Hi1 ltac:(by left) E). lia.
    + apply Hnz. change (addr_at x1 12) with (slot f1 x1 (-1)). rewrite (fd_old _ _ _ _ _ _ _ _ Hf) by (rewrite ?MAXFILE_eq; lia || tauto).
      apply (do_out _ _ _ Hd i x c (-1) Hi); [rewrite MAXFILE_eq; lia |]. unfold needs in *. lia.
  - intros b Hb. apply upd_ne. by apply Hb.
  - intros m Hm. destruct (decide (m = n)) as [->|Hne].
    + fold a. rewrite upd_same, Ea. by apply block_last.
    + rewrite upd_ne by (intros E; apply Hne, Hinj; [by left | by left | done]). rewrite Hold by lia. symmetry. apply block_before; [lia |].
      assert (nb (c ++ w) = n + 1) as E1 by (unfold n, nb; rewrite len_app; dlia). assert (m + 1 <= n) as Hmn by lia. unfold n in Hmn. dlia.
Qed.

(** The block found, read, filled and written. *)
Lemma wp_append {A} s fi (k : list Z -> M mkst A) Q : st s f fi fb -> fb + blocks (nb (c ++ w)) - blocks (nb c) <= 2000 ->
  (forall s' f' fb' x', st s' f' fi fb' -> data_ok f' fb' (<[i := (x', c ++ w)]> gs) -> fb' = fb + blocks (nb (c ++ w)) - blocks (nb c) ->
     (forall b, b < 46 -> f' b = f b) -> x' = set_i_addrs x'.(i_addrs) x -> wp (k (dinode_bytes x')) Q s') ->
  wp ('(din, a) ← find_block (dinode_bytes x) (len c / 1024); buf ← rsect a; wsect a (put_bytes buf (len c mod 1024) w);; k din) Q s.
Proof.
  intros Hs Hcap Hk. pose proof (nb_app c w Hw Hfit) as Hnb. pose proof (nb_range c) as H0. assert (0 <= len c / 1024) as Hn0 by (apply Z.div_pos; unfold len; lia).
  assert (wp (find_block (dinode_bytes x) (len c / 1024)) (found_at f fi fb x (nb c) (nb (c ++ w)) (len c / 1024)) s) as Hf.
  { destruct Hnb as [[Hlt ->]|(E & _ & E')]; [by apply (find_old s f fi fb gs i x c) |]. rewrite E, E'. rewrite E' in Hcap, Hmax. apply (find_new s f fi fb gs i x c); done || lia. }
  apply wp_bind. eapply wp_mono; [exact Hf |]. intros [din a] s1 (f1 & fb1 & x1 & [= -> ->] & Hs1 & Hfd & E1); cbn beta iota.
  pose proof (append_data f1 fb1 x1 Hfd ltac:(lia)) as Hd2. cbn zeta in Hd2. set (n := len c / 1024) in *.
  pose proof (grow_own f fb gs i x c f1 fb1 x1 (c ++ w) Hd Hi Hfd ltac:(lia) n ltac:(left; lia)) as Hown. pose proof (do_fb _ _ _ Hd) as Hfb.
  assert (46 <= slot f1 x1 n < 2000) as Hr by (destruct Hown as [(_ & -> & ?)|[_ ?]]; lia). pose proof (Z.mod_pos_bound (len c) 1024 ltac:(lia)) as Hm.
  apply wp_bind. eapply wp_rsect; [done | lia |]. pose proof (st_block _ _ _ _ Hs1 (slot f1 x1 n) ltac:(lia)) as Hlen.
  apply wp_bind. eapply wp_wsect; [done | lia | rewrite length_put_bytes; unfold len in *; lia |]. intros s2 Hs2.
  eapply Hk; [done | done | done | | apply Hfd]. intros b Hb. rewrite upd_ne by lia. apply (fd_same _ _ _ _ _ _ _ _ Hfd); [lia |]. intros [N1 E2].
  destruct (do_inode _ _ _ Hd i x c Hi) as [_ Hmc]. pose proof (do_in _ _ _ Hd i x c (-1) Hi ltac:(rewrite MAXFILE_eq; lia) N1). lia.
Qed.
End append.

(** *** iappend() *)

Definition appended f (fi fb : Z) gs (i : nat) x c p (r : list Z * Z) s' : Prop :=
  exists f' fb' x', r = (dinode_bytes x', len (c ++ p)) /\ st s' f' fi fb' /\ data_ok f' fb' (<[i := (x', c ++ p)]> gs) /\
    fb' = fb + blocks (nb (c ++ p)) - blocks (nb c) /\ (forall b, b < 46 -> f' b = f b) /\ x' = set_i_addrs x'.(i_addrs) x.

Lemma nb_mono c p : nb c <= nb (c ++ p).
Proof. unfold nb. rewrite len_app. apply Z.div_le_mono; unfold len; lia. Qed.
Lemma blocks_mono k k' : k <= k' -> blocks k <= blocks k'.
Proof. unfold blocks. intros. repeat case_Z; lia. Qed.

Lemma iappend_loop_run fuel : forall s f fi fb gs i x c p, st s f fi fb -> data_ok f fb gs -> gs !! i = Some (x, c) -> (length p < fuel)%nat ->
  nb (c ++ p) <= MAXFILE -> fb + blocks (nb (c ++ p)) - blocks (nb c) <= 2000 ->
  wp (iappend_loop fuel (dinode_bytes x) (len c) p) (appended f fi fb gs i x c p) s.
Proof.
  induction fuel as [|fuel IH]; intros s f fi fb gs i x c p Hs Hd Hi Hfu Hmax Hcap; [lia |]. cbn [iappend_loop].
  destruct (Z.ltb_spec 0 (Z.of_nat (length p))) as [Hp|Hp].
  - change BSIZE with 1024. pose proof (Z.mod_pos_bound (len c) 1024 ltac:(lia)) as Hm. pose proof (Z.div_mod (len c) 1024 ltac:(lia)) as Hdm.
    assert (0 <= len c) as Hc0 by (unfold len; lia). assert (len c / 1024 < nb (c ++ p)) as Hlt by (unfold nb; rewrite len_app; unfold len in *; dlia).
    assert (len c < 2 ^ 31) as Hsmall by (rewrite MAXFILE_eq in Hmax; dlia).
    unfold assert. rewrite (proj2 (Z.ltb_lt _ _)) by lia. apply wp_bind, wp_ret. replace (u32 ((len c / 1024 + 1) * 1024 - len c)) with (1024 - len c mod 1024) by (rewrite u32_small; lia).
    replace (len c - len c / 1024 * 1024) with (len c mod 1024) by lia. set (n1 := Z.min _ _). set (w := take (Z.to_nat n1) p).
    assert (len w = n1) as Ew by (unfold w, len; rewrite length_take; lia). assert (p = w ++ drop (Z.to_nat n1) p) as Ep by (symmetry; apply take_drop).
    assert (c ++ p = (c ++ w) ++ drop (Z.to_nat n1) p) as Ecp by (rewrite <- app_assoc; by f_equal).
    pose proof (nb_mono (c ++ w) (drop (Z.to_nat n1) p)) as Hmo. rewrite <- Ecp in Hmo. pose proof (blocks_mono _ _ Hmo) as Hbm.
    eapply (wp_append f fb gs i x c w Hd Hi); [lia | lia | lia | exact Hs | lia |]. intros s1 f1 fb1 x1 Hs1 Hd1 E1 Hlow Ex.
    replace (u32 (len c + n1)) with (len (c ++ w)) by (rewrite len_app, u32_small; lia).
    assert (i < length gs)%nat as Hil by (by eapply lookup_lt_Some).
    eapply wp_mono; [apply (IH s1 f1 fi fb1 _ i x1 (c ++ w) _ Hs1 Hd1) |].
    + by apply list_lookup_insert_eq.
    + rewrite length_drop. lia.
    + by rewrite <- Ecp.
    + rewrite <- Ecp. lia.
    + intros r s2 (f2 & fb2 & x2 & Er & Hs2 & Hd2 & E2 & Hlow2 & Ex2). rewrite <- Ecp in *. rewrite list_insert_insert_eq in Hd2.
      exists f2, fb2, x2. split_and!; [done | done | done | lia | intros b Hb; rewrite Hlow2, Hlow by done; done | rewrite Ex2, Ex; done].
  - destruct p; [|cbn in Hp; lia]. apply wp_ret. exists f, fb, x. rewrite app_nil_r. split_and!; [done | done | by rewrite list_insert_id | lia | done | by destruct x].
Qed.

(** The inode blocks hold the inodes [gs], from inode 1 on; the inodes after them are free. *)
Record inodes_ok f (gs : list (inode * list Z)) : Prop := {
  ino_slot i x c : gs !! i = Some (x, c) -> islot f (Z.of_nat i + 1) = dinode_bytes x /\ x.(i_size) = len c /\ x.(i_nlink) = 1;
  ino_free j : Z.of_nat (length gs) < j < 208 -> islot f j = replicate 64 0;
  ino_max : (length gs < 208)%nat;
}.

Lemma inode_ok_size x v : inode_ok x -> 0 <= v < 2 ^ 32 -> inode_ok (set_i_size v x).
Proof. intros [? ? ? ? ? ?] ?. by constructor. Qed.

(** ** The file system on the image *)

Lemma data_ok_ext f f' fb gs : (forall b, 46 <= b -> f' b = f b) -> data_ok f fb gs -> data_ok f' fb gs.
Proof.
  intros E Hd. assert (forall i x c n, gs !! i = Some (x, c) -> slot f' x n = slot f x n) as Es.
  { intros i x c n Hi. apply slot_ext; [done | done |]. intros _ Hnz. f_equal. apply E. change (addr_at x 12) with (slot f x (-1)) in *.
    destruct (needs_dec' (nb c) (-1)) as [Hn|Hn].
    - apply (do_in _ _ _ Hd i x c (-1) Hi); [rewrite MAXFILE_eq; lia | done].
    - exfalso. apply Hnz, (do_out _ _ _ Hd i x c (-1) Hi); [rewrite MAXFILE_eq; lia | done]. }
  destruct Hd as [D1 D2 D3 D4 D5 D6 D7]. constructor; try done.
  - intros i x c n Hi. rewrite (Es i x c n Hi). by apply (D1 i).
  - intros i x c n Hi. rewrite (Es i x c n Hi). by apply (D2 i).
  - intros i j x c y d n m Hi Hj. rewrite (Es i x c n Hi), (Es j y d m Hj). by apply D3.
  - intros i x c n Hi Hn. pose proof (D5 i x c Hi) as [_ Hm]. rewrite (Es i x c n Hi). rewrite E; [by apply (D4 i) |]. apply (D1 i x c n Hi); [lia | by left].
  - intros b Hb. rewrite E by lia. by apply D6.
Qed.

(** The inode of a new file. *)
Definition new_inode (t : Z) : inode := mkInode 0 0 0 0 t 0 0 1 0 (replicate 13 0).

Lemma new_inode_slot f t n : -1 <= n < MAXFILE -> slot f (new_inode t) n = 0.
Proof.
  intros Hn. assert (forall m, addr_at (new_inode t) m = 0) as E.
  { intros m. unfold addr_at, new_inode. cbn [i_addrs]. destruct (replicate 13 0 !! Z.to_nat m) as [a|] eqn:Ea; [|done]. by apply lookup_replicate in Ea as [-> _]. }
  unfold slot, file_addr. rewrite !E. by repeat case_Z.
Qed.

Lemma data_ok_new f fb gs t : data_ok f fb gs -> s16_ok t -> data_ok f fb (gs ++ [(new_inode t, [])]).
Proof.
  intros [D1 D2 D3 D4 D5 D6 D7] Ht.
  assert (forall i x c, (gs ++ [(new_inode t, [])]) !! i = Some (x, c) -> gs !! i = Some (x, c) \/ (x = new_inode t /\ c = [])) as Hl.
  { intros i x c [Hi|[_ Hi]]%lookup_app_Some; [by left | right]. destruct (i - length gs)%nat as [|q]; [by injection Hi as <- <- | by destruct q]. }
  assert (forall n, ~ needs (nb []) n) as Hno by (intros n; change (nb []) with 0; unfold needs; rewrite NDIRECT_eq; lia).
  constructor; try done.
  - intros i x c n [Hi|[-> ->]]%Hl Hn Hnd; [by apply (D1 i x c) | by destruct (Hno n)].
  - intros i x c n [Hi|[-> ->]]%Hl Hn Hnd; [by apply (D2 i x c) | by apply new_inode_slot].
  - intros i j x c y d n m [Hi|[-> ->]]%Hl [Hj|[-> ->]]%Hl Hn Hm E; [by apply (D3 i j x c y d) | by destruct (Hno m) | by destruct (Hno n)..].
  - intros i x c n [Hi|[-> ->]]%Hl Hn; [by apply (D4 i x c) | change (nb []) with 0 in Hn; lia].
  - intros i x c [Hi|[-> ->]]%Hl; [by apply (D5 i) |]. split; [|change (nb []) with 0; rewrite MAXFILE_eq; lia].
    constructor; cbn; try done. split; [done |]. by repeat constructor.
Qed.

(** The blocks that the files [A], each a type and its bytes, take. *)
Fixpoint total (A : list (Z * list Z)) : Z := match A with [] => 0 | a :: A' => blocks (nb a.2) + total A' end.

(** The image holds the files [A] as inodes 1, 2, ...; the bitmap is not written yet. *)
Record fs_holds s f gs (A : list (Z * list Z)) : Prop := {
  fh_st : st s f (1 + Z.of_nat (length A)) (46 + total A);
  fh_data : data_ok f (46 + total A) gs;
  fh_ino : inodes_ok f gs;
  fh_abs : (fun g : inode * list Z => (g.1.(i_type), g.2)) <$> gs = A;
  fh_sb : f 1 = put_bytes zeroes 0 (sb_bytes the_sb);
  fh_zero b : b = 0 \/ 2 <= b < 32 \/ b = 45 -> f b = zeroes;
}.
Definition fs_is A s : Prop := exists f gs, fs_holds s f gs A.

Lemma total_insert A i t c c' : A !! i = Some (t, c) -> total (<[i := (t, c')]> A) = total A + blocks (nb c') - blocks (nb c).
Proof.
  revert i. induction A as [|a A IH]; intros [|i] E; cbn in E; try done.
  - injection E as ->. cbn [insert list_insert total snd]. lia.
  - cbn [insert list_insert total]. rewrite IH by done. lia.
Qed.

Lemma total_app A B : total (A ++ B) = total A + total B.
Proof. induction A as [|a A IH]; cbn [total app]; [done |]. rewrite IH. lia. Qed.

Lemma abs_lookup (gs : list (inode * list Z)) A i t c : (fun g : inode * list Z => (g.1.(i_type), g.2)) <$> gs = A -> A !! i = Some (t, c) -> exists x, gs !! i = Some (x, c) /\ x.(i_type) = t.
Proof. intros <- E. rewrite list_lookup_fmap in E. destruct (gs !! i) as [[x c']|]; [|done]. injection E as <- <-. by exists x. Qed.

Lemma slot_addrs f x y n : x.(i_addrs) = y.(i_addrs) -> slot f x n = slot f y n.
Proof. intros E. unfold slot, file_addr, addr_at. by rewrite E. Qed.

Lemma data_ok_sub f fb gs gs' : (forall i x c, gs' !! i = Some (x, c) -> inode_ok x /\ exists y, gs !! i = Some (y, c) /\ x.(i_addrs) = y.(i_addrs)) -> data_ok f fb gs -> data_ok f fb gs'.
Proof.
  intros Hg [D1 D2 D3 D4 D5 D6 D7]. constructor; try done.
  - intros i x c n (_ & y & Hy & E)%Hg. rewrite (slot_addrs f x y n E). by apply (D1 i).
  - intros i x c n (_ & y & Hy & E)%Hg. rewrite (slot_addrs f x y n E). by apply (D2 i).
  - intros i j x c x' c' n m (_ & y & Hy & E)%Hg (_ & y' & Hy' & E')%Hg. rewrite (slot_addrs f x y n E), (slot_addrs f x' y' m E'). by apply D3.
  - intros i x c n (_ & y & Hy & E)%Hg. rewrite (slot_addrs f x y n E). by apply (D4 i).
  - intros i x c (Hx & y & Hy & _)%Hg. split; [done | by apply (D5 i y)].
Qed.

Lemma islot_ext f f' j : (forall b, 32 <= b < 45 -> f' b = f b) -> 0 <= j < 208 -> islot f' j = islot f j.
Proof. intros E Hj. unfold islot. rewrite E; [done |]. by apply (iblock_eq j). Qed.

Lemma inodes_ok_set f gs i x c f' : inodes_ok f gs -> (i < length gs)%nat -> iset f (Z.of_nat i + 1) (dinode_bytes x) f' -> x.(i_size) = len c -> x.(i_nlink) = 1 ->
  inodes_ok f' (<[i := (x, c)]> gs).
Proof.
  intros [N1 N2 N3] Hi (Hsl & Hso & _) Es En. constructor.
  - intros j y d [(<- & [= <- <-] & _)|[Hne Hy]]%list_lookup_insert_Some; [done |]. assert (j < length gs)%nat by (by eapply lookup_lt_Some).
    rewrite Hso by lia. by apply N1.
  - intros j. rewrite length_insert. intros Hj. rewrite Hso by lia. by apply N2.
  - by rewrite length_insert.
Qed.

Lemma fs_insert A (gs : list (inode * list Z)) i x c t :
  (fun g : inode * list Z => (g.1.(i_type), g.2)) <$> gs = A -> x.(i_type) = t -> (fun g : inode * list Z => (g.1.(i_type), g.2)) <$> <[i := (x, c)]> gs = <[i := (t, c)]> A.
Proof. intros <- <-. by rewrite list_fmap_insert. Qed.

Lemma iappend_run s A i t c p : fs_is A s -> A !! i = Some (t, c) -> nb (c ++ p) <= MAXFILE -> 46 + total (<[i := (t, c ++ p)]> A) <= 2000 ->
  wp (iappend (Z.of_nat i + 1) p) (fun _ => fs_is (<[i := (t, c ++ p)]> A)) s.
Proof.
  intros (f & gs & [Hs Hd Hn Ha Hsb Hz]) Hi Hmax Hcap. destruct (abs_lookup gs A i t c Ha Hi) as (x & Hx & Et). rewrite (total_insert A i t c) in Hcap by done.
  assert (i < length gs)%nat as Hl by (by eapply lookup_lt_Some). assert (0 <= Z.of_nat i + 1 < 208) as Hi2 by (pose proof (ino_max _ _ Hn); lia).
  destruct (ino_slot _ _ Hn i x c Hx) as (Esl & Esz & Enl). destruct (do_inode _ _ _ Hd i x c Hx) as [Hok _].
  unfold iappend. apply wp_bind. eapply wp_rinode; [done | done |]. rewrite Esl, get_size_eq, Esz by done. apply wp_bind.
  eapply wp_mono; [apply (iappend_loop_run _ s f _ _ gs i x c p Hs Hd Hx); [lia | done | lia] |].
  intros r s1 (f1 & fb1 & x1 & -> & Hs1 & Hd1 & Efb & Hlow & Ex1); cbn beta iota.
  destruct (do_inode _ _ _ Hd1 i x1 (c ++ p)) as [Hok1 _]; [by apply list_lookup_insert_eq |].
  assert (0 <= len (c ++ p) < 2 ^ 32) as Hlen by (unfold nb in Hmax; rewrite MAXFILE_eq in Hmax; assert (0 <= len (c ++ p)) by (unfold len; lia); dlia).
  rewrite put_size_eq by done. set (x2 := set_i_size (len (c ++ p)) x1). pose proof (inode_ok_size x1 _ Hok1 Hlen) as Hok2. fold x2 in Hok2.
  assert (inodes_ok f1 gs) as Hn1.
  { destruct Hn as [N1 N2 N3]. constructor; [|intros j Hj; rewrite (islot_ext f f1) by (lia || (intros; apply Hlow; lia)); by apply N2 | done].
    intros j y d Hj. assert (j < length gs)%nat by (by eapply lookup_lt_Some). rewrite (islot_ext f f1) by (lia || (intros; apply Hlow; lia)). by apply N1. }
  eapply wp_winode; [done | done | apply length_dinode_bytes, Hok2 |]. intros s2 f2 Hs2 Hset. pose proof Hset as (_ & _ & Hfo). exists f2, (<[i := (x2, c ++ p)]> gs).
  constructor.
  - rewrite length_insert, (total_insert A i t c) by done. by replace (46 + _) with fb1 by lia.
  - rewrite (total_insert A i t c) by done. replace (46 + _) with fb1 by lia. apply (data_ok_ext f1); [intros; apply Hfo; lia |].
    eapply data_ok_sub; [|exact Hd1]. intros j y d [(<- & [= <- <-] & _)|[Hne Hy]]%list_lookup_insert_Some.
    + split; [done |]. exists x1. split; [by apply list_lookup_insert_eq | done].
    + split; [by apply (do_inode _ _ _ Hd j y d) |]. exists y. by rewrite list_lookup_insert_ne.
  - apply (inodes_ok_set f1); try done. cbn. rewrite Ex1. done.
  - apply fs_insert; [done |]. cbn. rewrite Ex1. done.
  - rewrite Hfo, Hlow by lia. done.
  - intros b Hb. rewrite Hfo, Hlow by lia. by apply Hz.
Qed.

Lemma new_dinode t : 0 <= t < 2 ^ 15 ->
  put_u32 (put_u16 (put_u16 (replicate 64 0) di_type (xshort t)) di_nlink (xshort 1)) di_size (xint 0) = dinode_bytes (new_inode t).
Proof. intros Ht. rewrite !xshort_eq by lia. reflexivity. Qed.

Lemma inodes_ok_new f gs t f' : inodes_ok f gs -> (length gs < 207)%nat -> iset f (1 + Z.of_nat (length gs)) (dinode_bytes (new_inode t)) f' ->
  inodes_ok f' (gs ++ [(new_inode t, [])]).
Proof.
  intros [N1 N2 N3] Hl (Hsl & Hso & _). constructor.
  - intros i x c [Hi|[Hge Hi]]%lookup_app_Some.
    + assert (i < length gs)%nat by (by eapply lookup_lt_Some). rewrite Hso by lia. by apply N1.
    + destruct (i - length gs)%nat as [|q] eqn:E; [|by destruct q]. injection Hi as <- <-. replace (Z.of_nat i + 1) with (1 + Z.of_nat (length gs)) by lia. done.
  - intros j. rewrite length_app. cbn [length]. intros Hj. rewrite Hso by lia. apply N2. lia.
  - rewrite length_app. cbn. lia.
Qed.

Lemma ialloc_run s A t : fs_is A s -> (length A < 207)%nat -> 0 <= t < 2 ^ 15 ->
  wp (ialloc t) (fun r s' => r = 1 + Z.of_nat (length A) /\ fs_is (A ++ [(t, [])]) s') s.
Proof.
  intros (f & gs & [Hs Hd Hn Ha Hsb Hz]) Hl Ht. assert (length gs = length A) as Eg by (by rewrite <- Ha, length_fmap).
  unfold ialloc. apply wp_bind, wp_gets, wp_bind, wp_modify. rewrite (st_fi _ _ _ _ Hs), new_dinode by done. rewrite u32_small by lia.
  assert (st (set_freeinode (1 + Z.of_nat (length A) + 1) s) f (1 + Z.of_nat (length A) + 1) (46 + total A)) as Hs1 by (by destruct Hs).
  apply wp_bind. eapply wp_winode; [done | lia | done |]. intros s2 f2 Hs2 Hset. apply wp_ret. split; [done |]. pose proof Hset as (_ & _ & Hfo).
  exists f2, (gs ++ [(new_inode t, [])]).
  assert (total (A ++ [(t, [])]) = total A) as Et by (rewrite total_app; change (total [(t, [])]) with 0; lia). constructor; rewrite ?Et.
  - replace (1 + Z.of_nat (length (A ++ [(t, [])]))) with (1 + Z.of_nat (length A) + 1) by (rewrite length_app; cbn; lia). done.
  - apply (data_ok_ext f); [intros; apply Hfo; lia |]. apply data_ok_new; [done |]. unfold s16_ok. lia.
  - apply (inodes_ok_new f); [done | lia | by rewrite Eg].
  - by rewrite fmap_app, Ha.
  - rewrite Hfo by lia. done.
  - intros b Hb. rewrite Hfo by lia. by apply Hz.
Qed.

(** ** The files of the command line *)

(** The reads of a file: none is empty, as an empty one ends it. *)
Definition reads_ok (reads : list (list Z)) : Prop := Forall (fun b => b <> []) reads.

Lemma append_all_run reads : forall s A i t c, fs_is A s -> A !! i = Some (t, c) -> reads_ok reads -> nb (c ++ concat reads) <= MAXFILE ->
  46 + total (<[i := (t, c ++ concat reads)]> A) <= 2000 -> wp (append_all (Z.of_nat i + 1) reads) (fun _ => fs_is (<[i := (t, c ++ concat reads)]> A)) s.
Proof.
  induction reads as [|b reads IH]; intros s A i t c HA Hi Hr Hmax Hcap; cbn [append_all concat].
  - apply wp_ret. rewrite app_nil_r. by rewrite list_insert_id.
  - inversion Hr as [|? ? Hb Hr']; subst. destruct (Nat.eqb_spec (length b) 0) as [E|_]; [by destruct b |]. cbn [concat] in Hmax, Hcap.
    rewrite app_assoc in Hmax, Hcap |- *. pose proof (nb_mono (c ++ b) (concat reads)) as Hm. pose proof (blocks_mono _ _ Hm) as Hbm.
    rewrite (total_insert A i t c) in Hcap by done. assert (i < length A)%nat as Hl by (by eapply lookup_lt_Some).
    apply wp_bind. eapply wp_mono; [apply (iappend_run s A i t c b HA Hi); [lia | rewrite (total_insert A i t c) by done; lia] |]. intros ? s1 H1; cbn beta in H1.
    eapply wp_mono; [apply (IH s1 _ i t (c ++ b) H1); [by apply list_lookup_insert_eq | done | done |] |].
    + rewrite list_insert_insert_eq, (total_insert A i t c) by done. lia.
    + intros ? s2 H2; cbn beta in H2. by rewrite list_insert_insert_eq in H2.
Qed.

Lemma blocks_nonneg c : 0 <= blocks (nb c).
Proof. pose proof (nb_range c). unfold blocks. case_Z; lia. Qed.
Lemma total_nonneg A : 0 <= total A.
Proof. induction A as [|a A IH]; cbn [total]; [lia |]. pose proof (blocks_nonneg a.2). lia. Qed.

Section files.
Context {H : Host}.

(** The name of the file, and its bytes. *)
Definition short (arg : list Z) : list Z := strip_underscore (strip_user arg).
Definition contents (arg : list Z) : list Z := match input arg with Some reads => concat reads | None => [] end.

(** mkfs accepts the file: it can be opened, its name is short enough and without a slash, it is not too long.  The name is a string. *)
Record arg_ok (arg : list Z) : Prop := {
  ao_open : exists reads, input arg = Some reads /\ reads_ok reads;
  ao_slash : 47 ∉ strip_user arg;
  ao_name : (length (short arg) <= 14)%nat;
  ao_size : nb (contents arg) <= MAXFILE;
  ao_string : Forall (fun b => b <> 0) arg;
}.

(** The directory entries of files with inode numbers from [k] on. *)
Fixpoint entries (k : Z) (args : list (list Z)) : list Z :=
  match args with [] => [] | arg :: args' => dirent k (short arg) ++ entries (k + 1) args' end.
Definition with_files (ents : list Z) (fs : list (Z * list Z)) (args : list (list Z)) : list (Z * list Z) :=
  (T_DIR, ents ++ entries (2 + Z.of_nat (length fs)) args) :: fs ++ ((fun arg => (T_FILE, contents arg)) <$> args).

Lemma add_file_run s ents fs arg : fs_is ((T_DIR, ents) :: fs) s -> arg_ok arg -> (length fs < 198)%nat ->
  nb (ents ++ dirent (2 + Z.of_nat (length fs)) (short arg)) <= MAXFILE ->
  46 + total ((T_DIR, ents ++ dirent (2 + Z.of_nat (length fs)) (short arg)) :: fs ++ [(T_FILE, contents arg)]) <= 2000 ->
  wp (add_file 1 arg) (fun _ => fs_is ((T_DIR, ents ++ dirent (2 + Z.of_nat (length fs)) (short arg)) :: fs ++ [(T_FILE, contents arg)])) s.
Proof.
  intros HA [(reads & Er & Hr) Hsl Hnm Hsz _] Hl Hd Hcap. unfold contents in *. rewrite Er in *. unfold add_file, assert. fold (short arg).
  replace (negb (existsb (Z.eqb 47) (strip_user arg))) with true.
  2: { symmetry. apply negb_true_iff, not_true_iff_false. intros (z & Hz & <-%Z.eqb_eq)%existsb_exists. apply Hsl. by apply list_elem_of_In. }
  rewrite Er, (proj2 (Nat.leb_le _ _)) by done. apply wp_bind, wp_ret, wp_bind, wp_ret. set (de := dirent _ _) in *. cbn [total] in Hcap. rewrite total_app in Hcap. cbn [total snd] in Hcap.
  pose proof (blocks_nonneg (concat reads)). apply wp_bind. eapply wp_mono; [apply (ialloc_run s _ T_FILE HA); [cbn; lia | by unfold T_FILE; lia] |].
  intros r s1 [-> H1]. cbn [length]. replace (1 + Z.of_nat (S (length fs))) with (2 + Z.of_nat (length fs)) by lia. fold de.
  apply wp_bind. eapply wp_mono; [apply (iappend_run s1 _ 0%nat T_DIR ents de H1); [done | done |] |].
  { cbn [app insert list_insert total]. rewrite total_app. cbn [total snd]. change (blocks (nb [])) with 0. lia. }
  intros ? s2 H2; cbn beta in H2. cbn [app insert list_insert] in H2. replace (2 + Z.of_nat (length fs)) with (Z.of_nat (S (length fs)) + 1) by lia.
  assert (forall v w, <[S (length fs) := v]> ((T_DIR, ents ++ de) :: fs ++ [w]) = (T_DIR, ents ++ de) :: fs ++ [v]) as Ei.
  { intros v w. rewrite app_comm_cons, insert_app_r_alt by (cbn; lia). cbn [length]. by rewrite Nat.sub_diag. }
  eapply wp_mono; [apply (append_all_run reads s2 _ (S (length fs)) T_FILE [] H2) |].
  - cbn. by apply list_lookup_middle.
  - done.
  - done.
  - rewrite Ei. cbn [total]. rewrite total_app. cbn [total snd app]. lia.
  - intros ? s3 H3; cbn beta in H3. by rewrite Ei in H3.
Qed.

Lemma add_files_run args : forall s ents fs, fs_is ((T_DIR, ents) :: fs) s -> Forall arg_ok args -> (length fs + length args < 199)%nat ->
  nb (ents ++ entries (2 + Z.of_nat (length fs)) args) <= MAXFILE -> 46 + total (with_files ents fs args) <= 2000 ->
  wp (add_files 1 args) (fun _ => fs_is (with_files ents fs args)) s.
Proof.
  induction args as [|arg args IH]; intros s ents fs HA Hargs Hl Hd Hcap; unfold with_files in *; cbn [add_files entries fmap list_fmap] in *.
  - apply wp_ret. by rewrite !app_nil_r.
  - inversion Hargs as [|? ? Ha Hargs']; subst. cbn [length] in Hl. set (de := dirent _ _) in *. rewrite app_assoc in Hd, Hcap |- *.
    replace (2 + Z.of_nat (length fs) + 1) with (2 + Z.of_nat (length (fs ++ [(T_FILE, contents arg)]))) in * by (rewrite length_app; cbn; lia).
    assert (forall l, fs ++ (T_FILE, contents arg) :: l = (fs ++ [(T_FILE, contents arg)]) ++ l) as Efs by (intros; by rewrite <- app_assoc).
    rewrite (Efs (_ <$> args)) in Hcap |- *.
    pose proof (nb_mono (ents ++ de) (entries (2 + Z.of_nat (length (fs ++ [(T_FILE, contents arg)]))) args)) as Hm. pose proof (blocks_mono _ _ Hm) as Hbm.
    apply wp_bind. eapply wp_mono; [apply (add_file_run s ents fs arg HA Ha); [lia | fold de; lia |] |].
    + fold de. cbn [total] in *. rewrite total_app in Hcap. cbn [snd] in *. pose proof (total_nonneg ((fun arg => (T_FILE, contents arg)) <$> args)). lia.
    + intros ? s1 H1; cbn beta in H1. apply (IH s1 (ents ++ de) _ H1); [done | rewrite length_app; cbn; lia | done | done].
Qed.
End files.

End MkfsSpec.
