(* ===== verification/MkfsImage.v ===== *)
(** * The image of mkfs as the kernel sees it

    main() of mkfs.c from beginning to end, and what the kernel finds on the disk it made. *)

From S2P Require Import Prelude State Mem Bytes Riscv Kalloc Vm Sched Sleeplock Bio Bcache Log LogSpec Crash Txn Proc Fs FsPath FsBlock FsInode FsDir Mkfs MkfsSpec.

Module MkfsImage.
Import Mkfs.Mkfs MkfsSpec.MkfsSpec.

Implicit Types (s : mkst) (f : Z -> list Z) (x : inode) (c p : list Z).

(** ** The empty file system *)

Lemma fill_run s Q : s.(img) = [] -> (forall s', s' = set_img (replicate 2000 zeroes) s -> Q tt s') ->
  wp (for_range (Z.to_nat FSSIZE) 0 (fun i => wsect (Z.of_nat i) zeroes)) Q s.
Proof.
  intros E HQ. change (Z.to_nat FSSIZE) with 2000%nat. apply wp_for_range with (I := fun i s' => s' = set_img (replicate i zeroes) s).
  - destruct s. cbn in E. by subst.
  - intros j s' Hj ->. apply wp_modify. rewrite sector_index_eq, Nat2Z.id by lia. unfold write_at. cbn [img set_img]. rewrite length_replicate, Nat.ltb_irrefl, Nat.sub_diag.
    cbn [replicate app]. by rewrite Nat.add_1_r, replicate_S_end.
  - done.
Qed.

Lemma sector_zeroes b : 0 <= b < 2000 -> sector (replicate 2000 zeroes) b = zeroes.
Proof. intros. unfold sector. rewrite (proj2 (Z.ltb_ge _ _)) by lia. by rewrite lookup_replicate_2 by lia. Qed.

Lemma empty_fs s : st s (upd (sector (replicate 2000 zeroes)) 1 (put_bytes zeroes 0 (sb_bytes the_sb))) 1 46 -> fs_is [] s.
Proof.
  intros Hs. exists (upd (sector (replicate 2000 zeroes)) 1 (put_bytes zeroes 0 (sb_bytes the_sb))), []. constructor; try done.
  - constructor; try done. intros b Hb. change (46 + total []) with 46 in Hb. rewrite upd_ne by lia. apply sector_zeroes. lia.
  - constructor; [done | | cbn; lia]. intros j Hj. cbn in Hj. destruct (iblock_eq j ltac:(lia)) as [_ Hb]. unfold islot. rewrite upd_ne, sector_zeroes by lia.
    pose proof (Z.mod_pos_bound j 16 ltac:(lia)). unfold get_bytes, zeroes. rewrite drop_replicate, take_replicate, Nat.min_l by lia. done.
  - intros b Hb. rewrite upd_ne, sector_zeroes by lia. done.
Qed.

Lemma init_run {A} s (k : M mkst A) Q : s.(img) = [] -> s.(msb) = the_sb -> s.(freeinode) = 1 -> s.(freeblock) = 46 -> (forall s', fs_is [] s' -> wp k Q s') ->
  wp (for_range (Z.to_nat FSSIZE) 0 (fun i => wsect (Z.of_nat i) zeroes);; sb ← gets msb; wsect 1 (put_bytes zeroes 0 (sb_bytes sb));; k) Q s.
Proof.
  intros E1 E2 E3 E4 Hk. apply wp_bind, fill_run; [done |]. intros s' ->. apply wp_bind, wp_gets, wp_bind. cbn [msb set_img]. rewrite E2.
  eapply wp_wsect with (f := sector (replicate 2000 zeroes)); [| lia | done |].
  - constructor; try done. intros b Hb. by rewrite sector_zeroes.
  - intros s1 Hs1. by apply Hk, empty_fs.
Qed.

(** ** The root directory *)

(** Its entries: inode numbers and names. *)
Section image.
Context {H : Host}.

Fixpoint names_from (k : Z) (args : list (list Z)) : list (Z * list Z) :=
  match args with [] => [] | arg :: args' => (k, short arg) :: names_from (k + 1) args' end.
Definition dir_entries (args : list (list Z)) : list (Z * list Z) := (1, [46]) :: (1, [46; 46]) :: names_from 2 args.
Definition dir_bytes (es : list (Z * list Z)) : list Z := concat ((fun e : Z * list Z => dirent e.1 e.2) <$> es).

Lemma entries_names k args : entries k args = dir_bytes (names_from k args).
Proof. revert k. induction args as [|a args IH]; intros k; [done |]. cbn [entries names_from]. rewrite IH. done. Qed.

(** The files of the image: the root directory and the files of the command line. *)
Definition files (args : list (list Z)) : list (Z * list Z) := (T_DIR, dir_bytes (dir_entries args)) :: ((fun arg => (T_FILE, contents arg)) <$> args).

Lemma ents_eq args : (dirent 1 [46] ++ dirent 1 [46; 46]) ++ entries 2 args = dir_bytes (dir_entries args).
Proof. by rewrite entries_names, <- app_assoc. Qed.

Lemma files_with args : with_files (dirent 1 [46] ++ dirent 1 [46; 46]) [] args = files args.
Proof. unfold with_files, files. cbn [length app]. by rewrite <- ents_eq. Qed.

(** What the command line must satisfy: its files exist and fit. *)
Record args_ok (args : list (list Z)) : Prop := {
  ok_args : Forall arg_ok args;
  ok_inodes : (length args < 199)%nat;
  ok_blocks : 46 + total (files args) <= 2000;
}.

Lemma length_dirent k n : length (dirent k n) = 16%nat.
Proof.
  unfold dirent. rewrite length_put_bytes; [|lia|]; rewrite length_put_u16; rewrite ?length_replicate; try lia.
  rewrite length_take, length_app, length_replicate. lia.
Qed.

Lemma length_dir_bytes es : len (dir_bytes es) = 16 * Z.of_nat (length es).
Proof.
  unfold len. induction es as [|e es IH]; [done |]. unfold dir_bytes in *. rewrite fmap_cons. cbn [concat length]. rewrite length_app, length_dirent. lia.
Qed.

Lemma length_names k args : length (names_from k args) = length args.
Proof. revert k. induction args as [|a args IH]; intros k; cbn; [done |]. by rewrite IH. Qed.

(** ** The bitmap *)

Lemma mark_S k : mark_used (Z.of_nat (S k)) = set_bit (Z.of_nat k) (mark_used (Z.of_nat k)).
Proof. unfold mark_used. rewrite seqZ_S, foldl_app. done. Qed.

Lemma mark_nat k : Z.of_nat k <= 8192 -> length (mark_used (Z.of_nat k)) = 1024%nat /\
  forall b, 0 <= b < 8192 -> bit_free (mark_used (Z.of_nat k)) b = negb (b <? Z.of_nat k).
Proof.
  induction k as [|k IH]; intros Hk.
  - split; [done |]. intros b Hb. rewrite (proj2 (Z.ltb_ge _ _)) by lia. change (mark_used (Z.of_nat 0)) with zeroes.
    unfold bit_free, get_u8, get_bytes, zeroes. rewrite drop_replicate, take_replicate. by destruct (_ `min` _)%nat as [|[|?]] eqn:E; try done; lia.
  - destruct (IH ltac:(lia)) as [Hl Hf]. rewrite mark_S. split; [by apply length_set_bit; [|lia] |]. intros b Hb. rewrite bit_free_set, Hf by (done || lia).
    case_decide; repeat case_Z; try done; lia.
Qed.

Lemma length_mark n : 0 <= n <= 8192 -> length (mark_used n) = 1024%nat.
Proof. intros Hn. rewrite <- (Z2Nat.id n) by lia. apply mark_nat. lia. Qed.

Lemma bit_free_mark n b : 0 <= n <= 8192 -> 0 <= b < 8192 -> bit_free (mark_used n) b = negb (b <? n).
Proof. intros Hn Hb. rewrite <- (Z2Nat.id n) by lia. apply mark_nat; lia. Qed.

(** ** What main() leaves on the disk *)

Definition root_size (args : list (list Z)) : Z := (16 * Z.of_nat (2 + length args) / 1024 + 1) * 1024.

Record image_is f gs (args : list (list Z)) : Prop := {
  im_data : data_ok f (46 + total (files args)) gs;
  im_abs : (fun g : inode * list Z => (g.1.(i_type), g.2)) <$> gs = files args;
  im_slot i x c : gs !! i = Some (x, c) -> islot f (Z.of_nat i + 1) = dinode_bytes x /\ x.(i_nlink) = 1 /\ x.(i_size) = if decide (i = 0%nat) then root_size args else len c;
  im_free j : 1 + Z.of_nat (length args) < j < 208 -> islot f j = replicate 64 0;
  im_sb : f 1 = put_bytes zeroes 0 (sb_bytes the_sb);
  im_zero b : b = 0 \/ 2 <= b < 32 -> f b = zeroes;
  im_bitmap : f 45 = mark_used (46 + total (files args));
}.

(** fix_root() and balloc() turn the files into the image. *)
Lemma image_close s f gs args x f1 f2 : fs_holds s f gs (files args) -> (length args < 199)%nat -> gs !! 0%nat = Some (x, dir_bytes (dir_entries args)) ->
  iset f 1 (dinode_bytes (set_i_size (root_size args) x)) f1 -> 0 <= root_size args < 2 ^ 32 ->
  (forall b, f2 b = upd f1 45 (mark_used (46 + total (files args))) b) -> image_is f2 (<[0%nat := (set_i_size (root_size args) x, dir_bytes (dir_entries args))]> gs) args.
Proof.
  intros [Hs Hd Hn Ha Hsb Hz] Hl Hx (Hset & Hseto & Hf1) Hrs E2. set (x2 := set_i_size _ x) in *. set (c := dir_bytes _) in *.
  assert (length gs = S (length args)) as Eg by (rewrite <- (length_fmap (fun g : inode * list Z => (g.1.(i_type), g.2)) gs), Ha; cbn; by rewrite length_fmap).
  destruct (abs_lookup gs (files args) 0 T_DIR c Ha eq_refl) as (y & Hy & Ety). rewrite Hx in Hy. injection Hy as <-.
  destruct (ino_slot _ _ Hn 0 _ _ Hx) as (_ & _ & Enl). destruct (do_inode _ _ _ Hd 0 _ _ Hx) as [Hokx _].
  assert (forall j, 0 <= j < 208 -> islot f2 j = islot f1 j) as Hsl by (intros j Hj; apply islot_ext; [intros b Hb; rewrite E2; apply upd_ne; lia | done]).
  assert (forall b, b <> 45 -> ~ 32 <= b < 45 -> f2 b = f b) as Hf2 by (intros b H1 H2; rewrite E2, upd_ne by done; by apply Hf1).
  constructor.
  - apply (data_ok_ext f); [intros; apply Hf2; lia |]. eapply data_ok_sub; [|exact Hd]. intros j y d [(<- & [= <- <-] & _)|[Hne Hy]]%list_lookup_insert_Some.
    + split; [by apply inode_ok_size |]. by exists x.
    + split; [by apply (do_inode _ _ _ Hd j y d) | by exists y].
  - rewrite (fs_insert (files args) gs 0 x2 c T_DIR); done.
  - intros j y d [(<- & [= <- <-] & _)|[Hne Hy]]%list_lookup_insert_Some.
    + rewrite Hsl by lia. done.
    + assert (j < length gs)%nat by (by eapply lookup_lt_Some). destruct (ino_slot _ _ Hn j y d Hy) as (E & Es & En). rewrite Hsl, Hseto by lia. by rewrite decide_False by congruence.
  - intros j Hj. rewrite Hsl, Hseto by lia. apply (ino_free _ _ Hn). lia.
  - by rewrite Hf2 by lia.
  - intros b Hb. rewrite Hf2 by lia. apply Hz. lia.
  - rewrite E2. apply upd_same.
Qed.

Lemma finish_run s args : fs_is (files args) s -> args_ok args ->
  wp (fix_root 1;; used ← gets freeblock; balloc used) (fun _ s' => length s'.(img) = 2000%nat /\ exists gs, image_is (sector s'.(img)) gs args) s.
Proof.
  intros (f & gs & Hfs) [Hok Hl Hb]. pose proof Hfs as [Hs Hd Hn Ha Hsb Hz]. pose proof (total_nonneg (files args)) as Ht.
  destruct (abs_lookup gs (files args) 0 T_DIR (dir_bytes (dir_entries args)) Ha eq_refl) as (x & Hx & Etx).
  destruct (ino_slot _ _ Hn 0 _ _ Hx) as (Esl & Esz & _). destruct (do_inode _ _ _ Hd 0 _ _ Hx) as [Hokx _]. rewrite length_dir_bytes in Esz. cbn [length dir_entries] in Esz. rewrite length_names in Esz.
  change (Z.of_nat 0 + 1) with 1 in Esl. assert (0 <= root_size args < 2 ^ 32) as Hrs by (unfold root_size; dlia).
  unfold fix_root. apply wp_bind, wp_bind. eapply wp_rinode; [done | lia |]. rewrite Esl, get_size_eq, Esz by done. change BSIZE with 1024. fold (root_size args).
  change ((16 * Z.of_nat (S (S (length args))) / 1024 + 1) * 1024) with (root_size args). rewrite u32_small, put_size_eq by done.
  eapply wp_winode; [done | lia | apply length_dinode_bytes, (inode_ok_size x _ Hokx Hrs) |]. intros s1 f1 Hs1 Hset. apply wp_bind, wp_gets. rewrite (st_fb _ _ _ _ Hs1).
  unfold balloc, assert. rewrite (proj2 (Z.ltb_lt _ _)) by (change BPB with 8192; lia). apply wp_bind, wp_ret, wp_bind, wp_gets. rewrite (st_sb _ _ _ _ Hs1). change (sb_bmapstart the_sb) with 45.
  eapply wp_wsect; [done | lia | apply length_mark; lia |]. intros s2 Hs2. split; [apply Hs2 |]. eexists. eapply image_close; try done. apply Hs2.
Qed.

Lemma mkfs_run (sb0 : superblock) prog name args : creat name = true -> args_ok args ->
  wp (main (prog :: name :: args)) (fun _ s' => length s'.(img) = 2000%nat /\ exists gs, image_is (sector s'.(img)) gs args) (start sb0).
Proof.
  intros Hc Hok. pose proof Hok as [Ha Hl Hb]. unfold main. rewrite Hc. apply wp_bind, wp_ret, wp_bind, wp_ret. cbn [negb].
  do 3 (apply wp_bind, wp_modify). apply init_run; try done. intros s1 H1.
  assert (nb (dir_bytes (dir_entries args)) <= 4) as Hnb by (unfold nb; rewrite length_dir_bytes; cbn [length dir_entries]; rewrite length_names; dlia).
  apply wp_bind. eapply wp_mono; [apply (ialloc_run s1 [] T_DIR H1); [cbn; lia | unfold T_DIR; lia] |]. intros r s2 [-> H2]. cbn [app length] in *. change (1 + Z.of_nat 0) with 1.
  apply wp_bind, wp_ret. apply wp_bind. eapply wp_mono; [apply (iappend_run s2 _ 0 T_DIR [] (dirent 1 [46]) H2 eq_refl); [by vm_compute | by vm_compute] |].
  intros ? s3 H3; cbn beta in H3. apply wp_bind. eapply wp_mono; [apply (iappend_run s3 _ 0 T_DIR _ (dirent 1 [46; 46]) H3 eq_refl); [by vm_compute | by vm_compute] |].
  intros ? s4 H4; cbn beta in H4. apply wp_bind. rewrite <- files_with in Hb. rewrite <- ents_eq in Hnb.
  eapply wp_mono; [apply (add_files_run args s4 _ [] H4 Ha) |].
  - cbn. lia.
  - rewrite MAXFILE_eq. eapply Z.le_trans; [exact Hnb | lia].
  - exact Hb.
  - intros ? s5 H5; cbn beta in H5. cbn [app] in H5. rewrite files_with in H5. by apply finish_run.
Qed.

(** ** The kernel's view *)

(** The inode that ilock() reads. *)
Definition disk_inode f (i : Z) : inode := get_dinode (i mod IPB * sizeof_dinode) (f (IBLOCK i the_sb)) (mkInode ROOTDEV i 1 1 0 0 0 0 0 []).

(** The first entry of a list of entries with this name, and its offset. *)
Fixpoint find_entry (name : list Z) (es : list (Z * list Z)) (off : Z) : option (Z * Z) :=
  match es with [] => None | (inum, n) :: es' => if decide (name = n) then Some (inum, off) else find_entry name es' (off + 16) end.

(** A disk in the kernel's format that holds the files of the command line and no others. *)
Record formatted f (args : list (list Z)) : Prop := {
  fm_sb : superblock_of (f 1) = mkSb FSMAGIC 2000 1954 200 30 2 32 45;
  fm_log : header_n (f 2) = 0;
  fm_bitmap b : 0 <= b < 2000 -> bit_used f the_sb b = (b <? 46 + total (files args));
  fm_file k arg : args !! k = Some arg -> let x := disk_inode f (Z.of_nat k + 2) in
    x.(i_type) = T_FILE /\ x.(i_nlink) = 1 /\ x.(i_size) = len (contents arg) /\ file_bytes f x 0 x.(i_size) = contents arg;
  fm_root : let x := disk_inode f ROOTINO in
    x.(i_type) = T_DIR /\ x.(i_nlink) = 1 /\ x.(i_size) = root_size args /\
    forall name, dir_find f x name (Z.to_nat (x.(i_size) / sizeof_dirent)) 0 = find_entry (fname name) (dir_entries args) 0;
  fm_free i : 1 + Z.of_nat (length args) < i < 200 -> (disk_inode f i).(i_type) = 0;
  fm_blocks i t c n : files args !! i = Some (t, c) -> 0 <= n < nb c -> 46 <= file_addr f (disk_inode f (Z.of_nat i + 1)) n < 46 + total (files args);
  fm_apart i j t c t' c' n m : files args !! i = Some (t, c) -> files args !! j = Some (t', c') -> 0 <= n < nb c -> 0 <= m < nb c' ->
    file_addr f (disk_inode f (Z.of_nat i + 1)) n = file_addr f (disk_inode f (Z.of_nat j + 1)) m -> i = j /\ n = m;
}.

Section view.
Context f gs args (Him : image_is f gs args) (Hok : args_ok args).

Lemma disk_inode_eq i x c : gs !! i = Some (x, c) ->
  disk_inode f (Z.of_nat i + 1) = mkInode ROOTDEV (Z.of_nat i + 1) 1 1 x.(i_type) x.(i_major) x.(i_minor) x.(i_nlink) x.(i_size) x.(i_addrs).
Proof.
  intros Hi. destruct (im_slot _ _ _ Him i x c Hi) as (Esl & _). destruct (do_inode _ _ _ (im_data _ _ _ Him) i x c Hi) as [Hx _].
  assert (length gs = S (length args)) as Eg by (rewrite <- (length_fmap (fun g : inode * list Z => (g.1.(i_type), g.2)) gs), (im_abs _ _ _ Him); cbn; by rewrite length_fmap).
  assert (i < length gs)%nat by (by eapply lookup_lt_Some). pose proof (ok_inodes _ Hok). destruct (iblock_eq (Z.of_nat i + 1) ltac:(lia)) as [Eb _].
  unfold disk_inode. rewrite Eb. change IPB with 16. change sizeof_dinode with 64. pose proof (Z.mod_pos_bound (Z.of_nat i + 1) 16 ltac:(lia)).
  by rewrite (get_dinode_bytes _ x) by (done || lia).
Qed.

(** Every byte below the largest size a file can have: that of the file, or 0. *)
Lemma file_byte_eq i x c y o : gs !! i = Some (x, c) -> y.(i_addrs) = x.(i_addrs) -> 0 <= o < 1024 * MAXFILE -> file_byte f y o = default 0 (c !! Z.to_nat o).
Proof.
  intros Hi Ey Ho. pose proof (im_data _ _ _ Him) as Hd. unfold file_byte. change BSIZE with 1024. set (n := o / 1024).
  assert (0 <= n < MAXFILE) as Hn by (unfold n; rewrite MAXFILE_eq in *; dlia). pose proof (Z.mod_pos_bound o 1024 ltac:(lia)) as Hm.
  assert (file_addr f y n = slot f x n) as Es by (rewrite <- (slot_addrs f y x n Ey); unfold slot; rewrite (proj2 (Z.ltb_ge _ _)) by lia; done).
  assert (o = 1024 * n + o mod 1024) as Eo by (unfold n; dlia). rewrite Es. apply list_lookup_total_correct. destruct (decide (n < nb c)) as [Hlt|Hge].
  - rewrite (do_block _ _ _ Hd i x c n Hi) by lia. unfold block. rewrite lookup_take_lt by lia. destruct (decide (o < len c)) as [Hin|Hout].
    + rewrite lookup_app_l by (rewrite length_drop; unfold len in *; lia). rewrite lookup_drop. replace (Z.to_nat (1024 * n) + Z.to_nat (o mod 1024))%nat with (Z.to_nat o) by lia.
      destruct (lookup_lt_is_Some_2 c (Z.to_nat o)) as [v Ev]; [unfold len in *; lia |]. by rewrite Ev.
    + rewrite lookup_app_r by (rewrite length_drop; unfold len in *; lia). unfold zeroes. rewrite lookup_replicate_2 by (rewrite length_drop; unfold len in *; lia).
      by rewrite lookup_ge_None_2 by (unfold len in *; lia).
  - rewrite (do_out _ _ _ Hd i x c n Hi) by (lia || (unfold needs; lia)). rewrite (im_zero _ _ _ Him) by (by left). unfold zeroes. rewrite lookup_replicate_2 by lia.
    rewrite lookup_ge_None_2; [done |]. assert (len c <= o) by (unfold nb in Hge; dlia). unfold len in *. lia.
Qed.

Lemma file_bytes_eq i x c y : gs !! i = Some (x, c) -> y.(i_addrs) = x.(i_addrs) -> file_bytes f y 0 (len c) = c.
Proof.
  intros Hi Ey. destruct (do_inode _ _ _ (im_data _ _ _ Him) i x c Hi) as [_ Hm]. assert (len c <= 1024 * MAXFILE) as Hl by (unfold nb in Hm; rewrite MAXFILE_eq in *; dlia).
  unfold file_bytes. apply list_eq. intros q. rewrite list_lookup_fmap. destruct (decide (q < length c)%nat) as [Hq|Hq].
  - rewrite lookup_seqZ_lt by (unfold len; lia). cbn [fmap option_fmap option_map]. rewrite (file_byte_eq i x c) by (done || (unfold len in *; lia)). rewrite Z.add_0_l, Nat2Z.id.
    destruct (lookup_lt_is_Some_2 c q Hq) as [v Ev]. by rewrite Ev.
  - rewrite lookup_seqZ_ge by (unfold len; lia). by rewrite lookup_ge_None_2 by lia.
Qed.

(** *** Directory entries *)

Lemma dirent_inum k n : 0 <= k < 2 ^ 16 -> de_inum (dirent k n) = k.
Proof.
  intros Hk. unfold de_inum, dirent, get_u16. assert (length (take 14 (n ++ replicate 14 0)) = 14%nat) as Hl by (rewrite length_take, length_app, length_replicate; lia).
  rewrite get_put_bytes_ne by (rewrite ?length_put_u16 by done; rewrite ?Hl; cbn; lia). change (le_value (get_bytes (put_u16 (replicate 16 0) 0 (xshort k)) 0 2)) with (get_u16 (put_u16 (replicate 16 0) 0 (xshort k)) 0).
  rewrite get_put_u16_eq, xshort_eq by (done || (cbn; lia)). by apply Z.mod_small.
Qed.

Lemma dirent_name k n : Forall (fun b => b <> 0) n -> (length n <= 14)%nat -> fname (de_name (dirent k n)) = n.
Proof.
  intros Hn Hl. unfold de_name, dirent. assert (length (take 14 (n ++ replicate 14 0)) = 14%nat) as Hl' by (rewrite length_take, length_app, length_replicate; lia).
  change DIRSIZ with 14. rewrite get_put_bytes_eq by (rewrite ?length_put_u16 by done; rewrite ?Hl'; cbn; lia). unfold fname. rewrite take_take. change (14 `min` 14)%nat with 14%nat.
  rewrite take_app, take_ge by lia. rewrite cstr_app by done. rewrite take_replicate. by destruct (_ `min` _)%nat; cbn; rewrite app_nil_r.
Qed.

Definition entry_ok (e : Z * list Z) : Prop := 0 < e.1 < 2 ^ 16 /\ Forall (fun b => b <> 0) e.2 /\ (length e.2 <= 14)%nat.

Section dir.
Context i x c y (Hi : gs !! i = Some (x, c)) (Ey : y.(i_addrs) = x.(i_addrs)).

Lemma entry_bytes off : 0 <= off -> off + 16 <= 1024 * MAXFILE -> file_bytes f y off 16 = take 16 (drop (Z.to_nat off) c ++ replicate 16 0).
Proof.
  intros H0 H1. apply list_eq. intros q. unfold file_bytes. rewrite list_lookup_fmap. destruct (decide (q < 16)%nat) as [Hq|Hq].
  - rewrite lookup_seqZ_lt by lia. cbn [fmap option_fmap option_map]. rewrite (file_byte_eq i x c) by (done || lia). rewrite lookup_take_lt by done.
    replace (Z.to_nat (off + Z.of_nat q)) with (Z.to_nat off + q)%nat by lia. rewrite <- lookup_drop. destruct (decide (q < length (drop (Z.to_nat off) c))%nat) as [Hin|Hout].
    + rewrite lookup_app_l by done. destruct (lookup_lt_is_Some_2 _ q Hin) as [v Ev]. by rewrite Ev.
    + rewrite (lookup_ge_None_2 (drop _ c)), lookup_app_r, lookup_replicate_2 by lia. done.
  - rewrite lookup_seqZ_ge, lookup_take_ge by lia. done.
Qed.

Lemma dir_find_entries name n : forall es off, Forall entry_ok es -> drop (Z.to_nat off) c = dir_bytes es -> 0 <= off -> off + 16 * Z.of_nat n <= 1024 * MAXFILE -> (length es <= n)%nat ->
  dir_find f y name n off = find_entry (fname name) es off.
Proof.
  induction n as [|n IH]; intros es off He Hd H0 H1 Hl; [destruct es; [done | cbn in Hl; lia] |]. cbn [dir_find]. rewrite entry_bytes by lia. destruct es as [|[k nm] es].
  - rewrite Hd. change (take 16 (dir_bytes [] ++ replicate 16 0)) with (replicate 16 0 : list Z). rewrite decide_False by (intros [Hne _]; by apply Hne).
    rewrite (IH []); [done | done | | lia | lia | cbn; lia]. rewrite Z2Nat.inj_add, <- drop_drop, Hd by lia. done.
  - inversion He as [|? ? (Hk & Hnz & Hln) He']; subst. cbn [fst snd] in *.
    assert (dir_bytes ((k, nm) :: es) = dirent k nm ++ dir_bytes es) as Ed by done. rewrite Hd, Ed, <- app_assoc.
    rewrite take_app_length' by (by rewrite length_dirent). rewrite dirent_inum, dirent_name by (done || lia). cbn [find_entry]. cbn [length] in Hl.
    destruct (decide (fname name = nm)) as [E|E]; [by rewrite decide_True by (split; [lia | done]) |]. rewrite decide_False by (by intros [_ ?]).
    apply IH; [done | | lia | lia | lia]. rewrite Z2Nat.inj_add, <- drop_drop, Hd, Ed by lia. by rewrite drop_app_length' by (by rewrite length_dirent).
Qed.
End dir.

Lemma names_ok args' : forall k, Forall arg_ok args' -> 0 < k -> k + Z.of_nat (length args') <= 2 ^ 16 -> Forall entry_ok (names_from k args').
Proof.
  induction args' as [|arg args' IH]; intros k Ha Hk Hl; [constructor |]. inversion Ha as [|? ? [_ _ Hn _ Hs] Ha']; subst. cbn [names_from length] in *. constructor; [|apply IH; [done | lia | lia]].
  split_and!; cbn; [lia | lia | | done]. unfold short, strip_underscore, strip_user. case_decide; [apply (Forall_drop _ 5) in Hs |].
  all: destruct Hs as [|b l Hb Hl']; [constructor | case_Z; [done | by constructor]].
Qed.

Lemma gs_file k arg : args !! k = Some arg -> exists x, gs !! S k = Some (x, contents arg) /\ x.(i_type) = T_FILE.
Proof.
  intros Hk. apply (abs_lookup gs (files args)); [apply Him |]. change (((fun arg => (T_FILE, contents arg)) <$> args) !! k = Some (T_FILE, contents arg)). by rewrite list_lookup_fmap, Hk.
Qed.

Lemma gs_root : exists x, gs !! 0%nat = Some (x, dir_bytes (dir_entries args)) /\ x.(i_type) = T_DIR.
Proof. eapply abs_lookup; [apply Him | done]. Qed.

Lemma free_inode i : 1 + Z.of_nat (length args) < i < 200 -> (disk_inode f i).(i_type) = 0.
Proof.
  intros Hi. pose proof (im_free _ _ _ Him i ltac:(lia)) as E. destruct (iblock_eq i ltac:(lia)) as [Eb _]. unfold disk_inode, get_dinode. cbn [i_type]. rewrite Eb.
  change IPB with 16. change sizeof_dinode with 64. unfold get_u16. pose proof (Z.mod_pos_bound i 16 ltac:(lia)).
  rewrite <- (get_bytes_get _ (i mod 16 * 64) 64) by (unfold di_type; lia). change (get_bytes (f (32 + i / 16)) (i mod 16 * 64) 64) with (islot f i). rewrite E. reflexivity.
Qed.

Lemma file_addr_slot i x c n : gs !! i = Some (x, c) -> 0 <= n -> file_addr f (disk_inode f (Z.of_nat i + 1)) n = slot f x n.
Proof.
  intros Hi Hn. rewrite (disk_inode_eq i x c Hi). unfold slot. by rewrite (proj2 (Z.ltb_ge _ _)) by lia.
Qed.

Lemma formatted_ok : formatted f args.
Proof.
  pose proof (im_data _ _ _ Him) as Hd. pose proof Hok as [Ha Hl Hb]. pose proof (total_nonneg (files args)) as Ht. constructor.
  - rewrite (im_sb _ _ _ Him). reflexivity.
  - rewrite (im_zero _ _ _ Him) by lia. reflexivity.
  - intros b Hr. unfold bit_used. replace (BBLOCK b the_sb) with 45 by (unfold BBLOCK; rewrite the_sb_eq; change BPB with 8192; cbn [sb_bmapstart]; rewrite Z.div_small by lia; done).
    change BPB with 8192. rewrite (im_bitmap _ _ _ Him), Z.mod_small, bit_free_mark by lia. apply negb_involutive.
  - intros k arg Hk x. destruct (gs_file k arg Hk) as (y & Hy & Ety). destruct (im_slot _ _ _ Him (S k) y _ Hy) as (_ & En & Es).
    unfold x. replace (Z.of_nat k + 2) with (Z.of_nat (S k) + 1) by lia. rewrite (disk_inode_eq (S k) y _ Hy). cbn [i_type i_nlink i_size]. rewrite Es. split_and!; [done | done | done |].
    by apply (file_bytes_eq (S k) y).
  - intros x. destruct gs_root as (y & Hy & Ety). destruct (im_slot _ _ _ Him 0%nat y _ Hy) as (_ & En & Es). rewrite decide_True in Es by done.
    unfold x. change ROOTINO with (Z.of_nat 0 + 1). rewrite (disk_inode_eq 0 y _ Hy). cbn [i_type i_nlink i_size]. rewrite Es. split_and!; [done | done | done |]. intros name.
    change sizeof_dirent with 16. eapply (dir_find_entries 0 y); [done | done | | done | lia | |].
    + repeat constructor; [cbn; lia.. |]. apply names_ok; [done | lia | lia].
    + rewrite MAXFILE_eq. unfold root_size. dlia.
    + cbn [dir_entries length]. rewrite length_names. unfold root_size. dlia.
  - apply free_inode.
  - intros i t c n Hi Hn. destruct (abs_lookup gs _ i t c (im_abs _ _ _ Him) Hi) as (y & Hy & _). rewrite (file_addr_slot i y c n Hy) by lia.
    destruct (do_inode _ _ _ Hd i y c Hy) as [_ Hm]. apply (do_in _ _ _ Hd i y c n Hy); [lia | by left].
  - intros i j t c t' c' n m Hi Hj Hn Hm. destruct (abs_lookup gs _ i t c (im_abs _ _ _ Him) Hi) as (y & Hy & _), (abs_lookup gs _ j t' c' (im_abs _ _ _ Him) Hj) as (y' & Hy' & _).
    rewrite (file_addr_slot i y c n Hy), (file_addr_slot j y' c' m Hy') by lia. apply (do_inj _ _ _ Hd i j y c y' c'); [done | done | by left | by left].
Qed.
End view.

(** C10. mkfs makes a file system that the kernel can use.  If its files can be opened, have names of at most 14 characters
    and fit into the inodes and blocks there are, main() runs to its end, whatever the sizes of the reads, and leaves
    an image of FSSIZE blocks in the kernel's format: the superblock is the one the kernel expects, the log is empty,
    the bitmap marks exactly the blocks below the first free one, inode k+2 is a file with the bytes of the k-th
    argument, a lookup in the root directory finds each file under its name and nothing else, the other inodes are
    free, and no block is used twice. *)
Theorem mkfs_formats (sb0 : superblock) prog name args : creat name = true -> args_ok args ->
  exists s', main (prog :: name :: args) (start sb0) = Ok tt s' /\ length s'.(img) = 2000%nat /\ formatted (sector s'.(img)) args.
Proof.
  intros Hc Hok. destruct (wp_inv _ _ _ (mkfs_run sb0 prog name args Hc Hok)) as ([] & s' & E & Hl & gs & Him). exists s'. split_and!; [done | done | by eapply formatted_ok].
Qed.
End image.
End MkfsImage.
