(* ===== verification/File.v ===== *)
(** * Open files (kernel/file.c, pipealloc() of kernel/pipe.c)

    A pointer to a struct file is its index in [ftable].  The functions of the device
    switch are a parameter. *)

From S2P Require Import Prelude State Mem Bytes Riscv Kalloc Vm PageTable Uvm Sched Sleeplock Bio Log Pipe Proc Fs.

Definition NDEV : Z := 10.

(** devsw[major].read and devsw[major].write; [None] is a null pointer. *)
Class Devsw := {
  dev_read : Z -> option (Z -> Z -> Z -> M kernel Z);
  dev_write : Z -> option (Z -> Z -> Z -> M kernel Z);
}.

Section file.
Context {P : Patience} {L : Linker} {D : Devsw}.

Definition get_file (f : nat) : M kernel file := fun s =>
  match s.(ftable) !! f with Some x => Ok x s | None => Panic "file" end.
Definition upd_file (f : nat) (g : file -> file) : M kernel unit :=
  modify (fun s => set_ftable (alter g f s.(ftable)) s).

Definition filealloc : M kernel (option nat) :=
  acquire LkFtable;;
  r ← for_return NFILE 0 (fun f =>
    x ← get_file f;
    if x.(f_ref) =? 0 then
      upd_file f (set_f_ref 1);;
      release LkFtable;;
      mret (Some f)
    else mret None);
  match r with
  | Some f => mret (Some f)
  | None => release LkFtable;; mret None
  end.

Definition filedup (f : nat) : M kernel nat :=
  acquire LkFtable;;
  x ← get_file f;
  if x.(f_ref) <? 1 then panic "filedup" else
  upd_file f (set_f_ref (x.(f_ref) + 1));;
  release LkFtable;;
  mret f.

Definition fileclose (f : nat) : M kernel unit :=
  acquire LkFtable;;
  x ← get_file f;
  if x.(f_ref) <? 1 then panic "fileclose" else
  upd_file f (set_f_ref (x.(f_ref) - 1));;
  if 0 <? x.(f_ref) - 1 then release LkFtable else
  ff ← get_file f;
  upd_file f (set_f_ref 0);;
  upd_file f (set_f_type FD_NONE);;
  release LkFtable;;
  match ff.(f_type) with
  | FD_PIPE => pipeclose ff.(f_pipe) ff.(f_writable)
  | FD_INODE | FD_DEVICE =>
      begin_op;;
      match ff.(f_ip) with Some ip => iput ip | None => panic "iput" end;;
      end_op
  | FD_NONE => mret tt
  end.

(** The bytes of struct stat; [pad] is what the stack held in its padding. *)
Definition stat_bytes (pad : list Z) (st : stat) : list Z :=
  le_bytes 4 st.(st_dev) ++ le_bytes 4 st.(st_ino) ++ le_bytes 2 st.(st_type) ++ le_bytes 2 st.(st_nlink) ++
  take 4 pad ++ le_bytes 8 st.(st_size).

Definition filestat (pad : list Z) (f : nat) (addr : Z) : M kernel Z :=
  i ← myproc;
  x ← get_file f;
  match x.(f_type) with
  | FD_INODE | FD_DEVICE =>
      ilock x.(f_ip);;
      match x.(f_ip) with
      | None => panic "ilock"
      | Some n =>
          ip ← get_inode n;
          let st := stati ip in
          iunlock x.(f_ip);;
          p ← get_proc i;
          r ← copyout p.(p_pagetable) addr (stat_bytes pad st);
          mret (if r <? 0 then -1 else 0)
      end
  | _ => mret (-1)
  end.

Definition fileread (f : nat) (addr n : Z) : M kernel Z :=
  x ← get_file f;
  if x.(f_readable) =? 0 then mret (-1) else
  match x.(f_type) with
  | FD_PIPE => piperead (S patience) x.(f_pipe) addr n
  | FD_DEVICE =>
      if (x.(f_major) <? 0) || (NDEV <=? x.(f_major)) then mret (-1) else
      match dev_read x.(f_major) with
      | None => mret (-1)
      | Some rd => rd 1 addr n
      end
  | FD_INODE =>
      ilock x.(f_ip);;
      match x.(f_ip) with
      | None => panic "ilock"
      | Some ip =>
          '(r, _) ← readi ip (ToUser addr) x.(f_off) (u32 n);
          when (0 <? r) (upd_file f (fun x => set_f_off (u32 (x.(f_off) + r)) x));;
          iunlock (Some ip);;
          mret r
      end
  | FD_NONE => panic "fileread"
  end.

(** int max = ((MAXOPBLOCKS-1-1-2) / 2) * BSIZE *)
Definition filewrite_max : Z := (MAXOPBLOCKS - 1 - 1 - 2) / 2 * BSIZE.

(** while (i < n): the final i *)
Fixpoint filewrite_loop (fuel : nat) (f ip : nat) (addr n i : Z) : M kernel Z :=
  match fuel with
  | O => fun _ => Timeout
  | S fuel' =>
      if i <? n then
        let n1 := if filewrite_max <? n - i then filewrite_max else n - i in
        begin_op;;
        ilock (Some ip);;
        x ← get_file f;
        r ← writei ip (FromUser (u64 (addr + i))) x.(f_off) n1;
        when (0 <? r) (upd_file f (fun x => set_f_off (u32 (x.(f_off) + r)) x));;
        iunlock (Some ip);;
        end_op;;
        if negb (r =? n1) then mret i else filewrite_loop fuel' f ip addr n (i + r)
      else mret i
  end.

Definition filewrite (f : nat) (addr n : Z) : M kernel Z :=
  x ← get_file f;
  if x.(f_writable) =? 0 then mret (-1) else
  match x.(f_type) with
  | FD_PIPE => pipewrite (S (Z.to_nat n + patience)) x.(f_pipe) addr n
  | FD_DEVICE =>
      if (x.(f_major) <? 0) || (NDEV <=? x.(f_major)) then mret (-1) else
      match dev_write x.(f_major) with
      | None => mret (-1)
      | Some wr => wr 1 addr n
      end
  | FD_INODE =>
      match x.(f_ip) with
      | None => panic "ilock"
      | Some ip =>
          i ← filewrite_loop (Z.to_nat (n / filewrite_max) + 2) f ip addr n 0;
          mret (if i =? n then n else -1)
      end
  | FD_NONE => panic "filewrite"
  end.

(** struct file *f0, *f1 and the result; the data[] of a new pipe is the junk kalloc()
    left in its page. *)
Definition pipealloc : M kernel (Z * option nat * option nat) :=
  let bad (f0 f1 : option nat) :=
    match f0 with Some f => fileclose f | None => mret tt end;;
    match f1 with Some f => fileclose f | None => mret tt end;;
    mret (-1, f0, f1) in
  f0 ← filealloc;
  match f0 with
  | None => bad None None
  | Some r =>
      f1 ← filealloc;
      match f1 with
      | None => bad (Some r) None
      | Some w =>
          pi ← kalloc;
          if pi =? 0 then bad (Some r) (Some w) else
          modify (fun s => set_pipes (<[pi := mkPipe (replicate (Z.to_nat PIPESIZE) 5) 0 0 1 1]> s.(pipes)) s);;
          initlock (LkPipe pi);;
          upd_file r (fun x => set_f_pipe pi (set_f_writable 0 (set_f_readable 1 (set_f_type FD_PIPE x))));;
          upd_file w (fun x => set_f_pipe pi (set_f_writable 1 (set_f_readable 0 (set_f_type FD_PIPE x))));;
          mret (0, Some r, Some w)
      end
  end.
End file.
