(* ===== verification/Console.v ===== *)
(** * Console and uart (kernel/console.c, kernel/uart.c)

    Reading, writing and editing lines; the functions of the uart that sleep, and its
    interrupt handler. *)

From S2P Require Import Prelude State Mem Bytes Riscv Kalloc Vm PageTable Uvm Sched Sleeplock Uart Printf Proc File.

Definition INPUT_BUF_SIZE : Z := 128.
(** Control-x *)
Definition C (x : Z) : Z := x - 64.

(** A jump of the kernel to an address that a process gave. *)
Class Jump := jump : Z -> M kernel unit.

Section console.
Context `{Symbols} {P : Patience} {U : Jump}.

(** while (uart_tx_w == uart_tx_r + UART_TX_BUF_SIZE) sleep *)
Fixpoint uartputc_wait (fuel : nat) : M kernel unit :=
  match fuel with
  | O => fun _ => Timeout
  | S fuel' =>
      k ← gets cons;
      if k.(tx_w) =? u64 (k.(tx_r) + UART_TX_BUF_SIZE) then
        sleep (Some ChUart) LkUart;; uartputc_wait fuel'
      else mret tt
  end.

Definition uartputc (c : Z) : M kernel unit :=
  acquire LkUart;;
  uartputc_wait (S patience);;
  upd_cons (fun k => set_tx_buf (<[Z.to_nat (k.(tx_w) mod UART_TX_BUF_SIZE) := u8 c]> k.(tx_buf)) k);;
  upd_cons (fun k => set_tx_w (u64 (k.(tx_w) + 1)) k);;
  uartstart;;
  release LkUart.

(** for (i = 0; i < n; i++) *)
Fixpoint consolewrite_loop (m : nat) (user_src src i : Z) : M kernel Z :=
  match m with
  | O => mret i
  | S m' =>
      '(r, bs) ← either_copyin user_src (u64 (src + i)) 1;
      if r =? -1 then mret i else
      uartputc (default 0 (head bs));;
      consolewrite_loop m' user_src src (i + 1)
  end.

Definition consolewrite (user_src src n : Z) : M kernel Z := consolewrite_loop (Z.to_nat n) user_src src 0.

(** while (cons.r == cons.w): [false] when killed, with the lock released *)
Fixpoint consoleread_wait (fuel : nat) : M kernel bool :=
  match fuel with
  | O => fun _ => Timeout
  | S fuel' =>
      k ← gets cons;
      if k.(cons_r) =? k.(cons_w) then
        i ← myproc;
        d ← killed i;
        if negb (d =? 0) then release LkCons;; mret false else
        sleep (Some ChCons) LkCons;;
        consoleread_wait fuel'
      else mret true
  end.

(** while (n > 0): the final n; [None] is the return of -1 *)
Fixpoint consoleread_loop (m : nat) (user_dst dst target n : Z) : M kernel (option Z) :=
  match m with
  | O => mret (Some n)
  | S m' =>
      w ← consoleread_wait (S patience);
      if negb w then mret None else
      k ← gets cons;
      let c := default 0 (k.(cons_buf) !! Z.to_nat (k.(cons_r) mod INPUT_BUF_SIZE)) in
      upd_cons (set_cons_r (u32 (k.(cons_r) + 1)));;
      if c =? C 68 then
        when (n <? target) (upd_cons (fun k => set_cons_r (u32 (k.(cons_r) - 1)) k));;
        mret (Some n)
      else
      r ← either_copyout user_dst dst [c];
      if r =? -1 then mret (Some n) else
      if c =? 10 then mret (Some (n - 1)) else
      consoleread_loop m' user_dst (u64 (dst + 1)) target (n - 1)
  end.

Definition consoleread (user_dst dst n : Z) : M kernel Z :=
  acquire LkCons;;
  r ← consoleread_loop (Z.to_nat n) user_dst dst (u32 n) n;
  match r with
  | None => mret (-1)
  | Some n' => release LkCons;; mret (s32 (u32 n - n'))
  end.

(** cons.buf[(cons.e-1) % INPUT_BUF_SIZE] *)
Definition last_char (k : console) : Z := default 0 (k.(cons_buf) !! Z.to_nat (u32 (k.(cons_e) - 1) mod INPUT_BUF_SIZE)).

Definition erase : M kernel unit :=
  upd_cons (fun k => set_cons_e (u32 (k.(cons_e) - 1)) k);;
  consputc BACKSPACE.

(** while (cons.e != cons.w && cons.buf[(cons.e-1) % INPUT_BUF_SIZE] != '\n') *)
Fixpoint kill_line (fuel : nat) : M kernel unit :=
  match fuel with
  | O => fun _ => Timeout
  | S fuel' =>
      k ← gets cons;
      if negb (k.(cons_e) =? k.(cons_w)) && negb (last_char k =? 10) then erase;; kill_line fuel' else mret tt
  end.

Definition backspace : M kernel unit :=
  k ← gets cons;
  when (negb (k.(cons_e) =? k.(cons_w))) erase.

(** case C('C') *)
Definition interrupt_key : M kernel unit :=
  c ← gets cur;
  match c with
  | None => mret tt
  | Some i =>
      p ← get_proc i;
      kprint "\nDetected Ctrl+C\n" [];;
      let h := default 0 (p.(p_sig_handlers) !! 2%nat) in
      (if negb (h =? 0) then kprint "Calling custom SIGINT handler\n" [];; jump h else sigint_default_handler);;
      upd_proc i (set_p_killed 1)
  end.

(** default: *)
Definition input_char (c : Z) : M kernel unit :=
  k ← gets cons;
  when (negb (c =? 0) && (u32 (k.(cons_e) - k.(cons_r)) <? INPUT_BUF_SIZE))
    (let c := if c =? 13 then 10 else c in
     consputc c;;
     upd_cons (fun k => set_cons_buf (<[Z.to_nat (k.(cons_e) mod INPUT_BUF_SIZE) := u8 c]> k.(cons_buf)) k);;
     upd_cons (fun k => set_cons_e (u32 (k.(cons_e) + 1)) k);;
     k ← gets cons;
     when ((c =? 10) || (c =? C 68) || (u32 (k.(cons_e) - k.(cons_r)) =? INPUT_BUF_SIZE))
       (upd_cons (fun k => set_cons_w k.(cons_e) k);;
        wakeup (Some ChCons))).

Definition consoleintr (c : Z) : M kernel unit :=
  acquire LkCons;;
  (if c =? C 80 then procdump
   else if c =? C 85 then kill_line (Z.to_nat INPUT_BUF_SIZE + 1)
   else if c =? C 72 then backspace
   else if c =? C 67 then interrupt_key
   else if c =? 127 then backspace
   else if c =? C 76 then kprint "\033[H\033[J$ " []
   else input_char c);;
  release LkCons.

(** while (1) { c = uartgetc(); if (c == -1) break; consoleintr(c); } *)
Fixpoint uartintr_loop (fuel : nat) : M kernel unit :=
  match fuel with
  | O => fun _ => Timeout
  | S fuel' =>
      c ← uartgetc;
      if c =? -1 then mret tt else consoleintr c;; uartintr_loop fuel'
  end.

Definition uartintr : M kernel unit :=
  k ← gets cons;
  uartintr_loop (S (length k.(dev_in)));;
  acquire LkUart;;
  uartstart;;
  release LkUart.
End console.

(** consoleinit(): devsw[CONSOLE] *)
Definition CONSOLE : Z := 1.
#[export] Instance console_devsw `{Symbols} {P : Patience} : Devsw := {|
  dev_read major := if major =? CONSOLE then Some consoleread else None;
  dev_write major := if major =? CONSOLE then Some consolewrite else None;
|}.
