(* ===== verification/Process.v ===== *)
(** * Life and death of processes (kernel/proc.c)

    userinit(), fork() and exit(), which use the file layer. *)

From S2P Require Import Prelude State Mem Bytes Riscv Kalloc Vm PageTable Uvm Sched Sleeplock Bio Log Pipe Proc Fs File.

(** while (--n > 0 && ( *s++ = *t++) != 0) ;  the bytes stored, for the bytes of a
    string; past its last byte is a NUL *)
Fixpoint copy_string (n : nat) (t : list Z) : list Z :=
  match n with
  | O => []
  | S n' => match t with [] => [0] | c :: t' => if c =? 0 then [0] else c :: copy_string n' t' end
  end.

(** safestrcpy() into a char array *)
Definition safestrcpy_bytes (dst t : list Z) : list Z := put_bytes dst 0 (copy_string (length dst - 1) t ++ [0]).

(** user/initcode.S, assembled *)
Definition initcode : list Z :=
  [0x17; 0x05; 0x00; 0x00; 0x13; 0x05; 0x45; 0x02;
   0x97; 0x05; 0x00; 0x00; 0x93; 0x85; 0x35; 0x02;
   0x93; 0x08; 0x70; 0x00; 0x73; 0x00; 0x00; 0x00;
   0x93; 0x08; 0x20; 0x00; 0x73; 0x00; 0x00; 0x00;
   0xef; 0xf0; 0x9f; 0xff; 0x2f; 0x69; 0x6e; 0x69;
   0x74; 0x00; 0x00; 0x24; 0x00; 0x00; 0x00; 0x00;
   0x00; 0x00; 0x00; 0x00].

Section process.
Context `{Symbols} {P : Patience} {D : Devsw}.

(** allocproc() cannot fail this early; a null pointer would be followed. *)
Definition userinit : M kernel unit :=
  r ← allocproc;
  match r with
  | None => panic "userinit"
  | Some i =>
      modify (set_initproc (Some i));;
      p ← get_proc i;
      uvmfirst p.(p_pagetable) initcode;;
      upd_proc i (set_p_sz PGSIZE);;
      wr64 (p.(p_trapframe) + TF_epc) 0;;
      wr64 (p.(p_trapframe) + TF_sp) PGSIZE;;
      upd_proc i (fun p => set_p_name (safestrcpy_bytes p.(p_name) [105; 110; 105; 116; 99; 111; 100; 101]) p);;
      ip ← namei [slash];
      upd_proc i (set_p_cwd ip);;
      upd_proc i (set_p_state RUNNABLE);;
      release (LkProc i)
  end.

(** for (i = 0; i < NOFILE; i++) if (p->ofile[i]) np->ofile[i] = filedup(p->ofile[i]); *)
Definition dup_files (i np : nat) : M kernel unit :=
  for_range NOFILE 0 (fun fd =>
    p ← get_proc i;
    match p.(p_ofile) !! fd with
    | Some (Some f) =>
        f' ← filedup f;
        upd_proc np (fun q => set_p_ofile (<[fd := Some f']> q.(p_ofile)) q)
    | _ => mret tt
    end).

Definition fork : M kernel Z :=
  i ← myproc;
  r ← allocproc;
  match r with
  | None => mret (-1)
  | Some np =>
      p ← get_proc i;
      n ← get_proc np;
      c ← uvmcopy p.(p_pagetable) n.(p_pagetable) p.(p_sz);
      if c <? 0 then
        freeproc np;;
        release (LkProc np);;
        mret (-1)
      else
        upd_proc np (set_p_sz p.(p_sz));;
        do_memmove n.(p_trapframe) p.(p_trapframe) TF_size;;
        wr64 (n.(p_trapframe) + TF_a0) 0;;
        dup_files i np;;
        match p.(p_cwd) with Some ip => idup ip;; mret tt | None => panic "cwd" end;;
        upd_proc np (set_p_cwd p.(p_cwd));;
        upd_proc np (fun q => set_p_name (safestrcpy_bytes q.(p_name) p.(p_name)) q);;
        n ← get_proc np;
        let pid := n.(p_pid) in
        release (LkProc np);;
        acquire LkWait;;
        upd_proc np (set_p_parent (Some i));;
        release LkWait;;
        acquire (LkProc np);;
        upd_proc np (set_p_state RUNNABLE);;
        release (LkProc np);;
        mret pid
  end.

(** for (int fd = 0; fd < NOFILE; fd++): close all open files *)
Definition close_files (i : nat) : M kernel unit :=
  for_range NOFILE 0 (fun fd =>
    p ← get_proc i;
    match p.(p_ofile) !! fd with
    | Some (Some f) =>
        fileclose f;;
        upd_proc i (fun p => set_p_ofile (<[fd := None]> p.(p_ofile)) p)
    | _ => mret tt
    end).

Definition exit (status : Z) : M kernel unit :=
  i ← myproc;
  ip ← gets initproc;
  if bool_decide (ip = Some i) then panic "init exiting" else
  close_files i;;
  begin_op;;
  p ← get_proc i;
  match p.(p_cwd) with Some c => iput c | None => panic "cwd" end;;
  end_op;;
  upd_proc i (set_p_cwd None);;
  acquire LkWait;;
  reparent i;;
  p ← get_proc i;
  wakeup (ChProc <$> p.(p_parent));;
  acquire (LkProc i);;
  upd_proc i (set_p_xstate status);;
  upd_proc i (set_p_state ZOMBIE);;
  release LkWait;;
  sched;;
  panic "zombie exit".
End process.
