(* ===== verification/UserInit.v ===== *)
(** * The first process (kernel/proc.c: userinit; kernel/vm.c: uvmfirst)

    What userinit() leaves: a runnable process with initcode in its only page. *)

From S2P Require Import Prelude State Mem Bytes Riscv Kalloc Vm PageTable Uvm UvmAlloc UvmFree Sched Sleeplock Bio Log Pipe Proc ProcVm ProcAlloc ProcGrow Fs FsPath FsBlock FsInode FsDir File Process.

Section userinit.
Context `{Symbols} {P : Patience} {W : Devsw}.
Implicit Types (N : gmap (list Z) Z) (m D : gmap Z Z) (s : kernel) (l : list Z).

(** The page uvmfirst() maps at 0. *)
Definition first_perm : Z := Z.lor (Z.lor (Z.lor (Z.lor PTE_W PTE_R) PTE_X) PTE_U) PTE_V.

Lemma first_perm_ok (perm := Z.lor (Z.lor (Z.lor PTE_W PTE_R) PTE_X) PTE_U) :
  0 <= perm < 1024 /\ has (Z.lor perm PTE_V) PTE_V = true /\ Z.lor perm PTE_V <> PTE_V /\ 0 <= 0 < MAXVA /\ 0 mod 4096 = 0.
Proof. done. Qed.

Record first_page s s' root N N' p l l' (bs : list Z) : Prop := {
  fp_inv : as_inv s' root N' {[0 := p]} l';
  fp_only : only_mem s s';
  fp_pte va : 0 <= va < MAXVA -> va mod 4096 = 0 -> lookup_pte s'.(mem) N' va = if decide (va = 0) then Z.lor (PA2PTE p) first_perm else lookup_pte s.(mem) N va;
  fp_bytes i : 0 <= i < 4096 -> load8 s'.(mem) (p + i) = u8 (default 0 (bs !! Z.to_nat i));
  fp_frame a : (forall q, owned N ∅ (p :: l) q -> outside a q) -> load8 s'.(mem) a = load8 s.(mem) a;
  fp_pages q : owned N ∅ (p :: l) q <-> owned N' {[0 := p]} l' q;
  fp_left : (length l <= length l' + 2)%nat;
}.

Lemma uvmfirst_run s root N p l bs : as_inv s root N ∅ (p :: l) -> (2 <= length l)%nat -> Z.of_nat (length bs) < 4096 ->
  has (lookup_pte s.(mem) N 0) PTE_V = false -> exists s' N' l', uvmfirst root bs s = Ok tt s' /\ first_page s s' root N N' p l l' bs.
Proof.
  intros Hi Hl Hbs Hinv. destruct (as_take _ _ _ _ _ _ Hi) as (HpN & HpD & Hpl & Hp). pose proof (as_pt _ _ _ _ _ Hi) as [Hw Hkm _ _].
  destruct (as_kalloc _ _ _ _ _ _ Hi) as (s1 & E1 & Hp0 & Hi2 & Ho2 & Hx2 & Hk2 & Hz2). set (s2 := set_mem _ s1) in *.
  destruct first_perm_ok as (F1 & F2 & F3 & F4 & F5).
  destruct (mappages_one s2 root N ∅ l 0 p (Z.lor (Z.lor (Z.lor PTE_W PTE_R) PTE_X) PTE_U)) as (r & s3 & N3 & l1 & l2 & E3 & -> & Hg & Hr);
    [exact Hi2 | exact (conj Hp (conj Hpl (conj HpN HpD))) | assumption.. | rewrite Hk2; exact Hinv |].
  destruct Hr as [(-> & Hc & Hi3 & Hk3)|(-> & -> & Hc & _)]; [|exfalso; rewrite app_nil_r in Hl; lia].
  set (s4 := set_mem (store_bytes s3.(mem) p bs) s3).
  destruct (as_write s3 root N3 (<[0 := p]> ∅) l2 0 p s4.(mem) Hi3 (lookup_insert_eq _ _ _)) as [Hi4 Hk4].
  { intros a Ha. unfold s4. cbn. rewrite load8_store_bytes, decide_False; [done |]. unfold outside in Ha. lia. }
  exists s4, N3, l2. split.
  { unfold uvmfirst. change PGSIZE with 4096 at 1. destruct (Z.leb_spec 4096 (Z.of_nat (length bs))); [lia |].
    erewrite bind_Ok by exact E1. erewrite bind_Ok by done. fold s2. erewrite bind_Ok by exact E3. done. }
  assert (forall i, 0 <= i < 4096 -> load8 s3.(mem) (p + i) = 0) as HZ.
  { intros i Hii. rewrite (g_frame _ _ _ _ _ Hg); [by apply Hz2 | |].
    - intros k q Hq. eapply (outside_pages _ _ p); [apply (wf_page _ _ _ Hw k q Hq) | apply Hp | | lia]. intros ->. by eapply HpN.
    - intros q Hq. eapply (outside_pages _ _ p); [|apply Hp | set_solver + Hq Hpl | lia]. eapply (free_page_ok s2 (l1 ++ l2)); [apply Hi2 | set_solver + Hq]. }
  constructor.
  - exact Hi4.
  - eapply only_mem_trans; [exact Ho2 |]. eapply only_mem_trans; [apply Hg | apply only_mem_set].
  - intros va Hva Hva4. unfold s4. cbn [mem set_mem]. rewrite Hk4, Hk3 by done. case_decide; [done | by rewrite Hk2].
  - intros i Hii. unfold s4. cbn [mem set_mem]. rewrite load8_store_bytes. case_decide as Hd; [by replace (p + i - p) with i by lia |].
    rewrite lookup_ge_None_2 by lia. rewrite HZ by done. done.
  - intros a Ha. assert (outside a p) as Hap by (apply Ha; left; apply list_elem_of_here). unfold s4. cbn [mem set_mem]. rewrite load8_store_bytes, decide_False by (unfold outside in Hap; lia).
    rewrite (g_frame _ _ _ _ _ Hg); [by apply Hx2 | |].
    + intros k q Hk. apply Ha. right; left; eauto.
    + intros q Hq. apply Ha. left. set_solver + Hq.
  - by apply (owned_map s2 s3).
  - rewrite length_app. lia.
Qed.
(** namei("/") is a reference to the root inode. *)
Lemma namei_root s : LkItable ∉ s.(held) -> (exists j x, s.(itable) !! j = Some x /\ (x.(i_ref) = 0 \/ is_inode ROOTDEV ROOTINO x)) ->
  exists ip x y, s.(itable) !! ip = Some x /\ iget_entry ROOTDEV ROOTINO s.(itable) x y /\ namei [slash] s = Ok (Some ip) (set_itable (<[ip := y]> s.(itable)) s).
Proof.
  intros Hlk Hroom. destruct (iget_run s ROOTDEV ROOTINO Hlk Hroom) as (ip & x & y & Hx & Hy & E). exists ip, x, y. split_and!; [done | done |].
  assert (namex [slash] false (replicate (Z.to_nat DIRSIZ) 0) s = Ok (Some ip, replicate (Z.to_nat DIRSIZ) 0) (set_itable (<[ip := y]> s.(itable)) s)) as En.
  { unfold namex. change (byte_at [slash] 0 =? slash) with true. cbv iota. by erewrite bind_Ok by exact E. }
  unfold namei. by erewrite bind_Ok by exact En.
Qed.

Definition initcode_name : list Z := [105; 110; 105; 116; 99; 111; 100; 101].

(** The process that userinit() makes in a slot that held [p]. *)
Definition init_process p (pid tf pt : Z) (ip : nat) : proc :=
  set_p_state RUNNABLE (set_p_cwd (Some ip) (set_p_name (safestrcpy_bytes p.(p_name) initcode_name) (set_p_sz PGSIZE (fresh_proc p pid tf pt)))).

Record first_process s l (i : nat) p s' : Prop := {
  fi_proc : exists tf pt ip y N pg l', let p' := init_process p s.(nextpid) tf pt ip in
    only_mem (set_itable (<[ip := y]> s.(itable)) (set_initproc (Some i) (set_procs (<[i := p']> s.(procs)) (set_nextpid (s32 (s.(nextpid) + 1)) s)))) s' /\
    (ip < length s.(itable))%nat /\ is_inode ROOTDEV ROOTINO y /\
    proc_res s' p' N {[0 := pg]} l' /\ lookup_pte s'.(mem) N 0 = Z.lor (PA2PTE pg) first_perm /\
    (forall a, 0 <= a < 4096 -> ubyte s'.(mem) {[0 := pg]} a = Some (u8 (default 0 (initcode !! Z.to_nat a)))) /\
    load64 s'.(mem) (tf + TF_epc) = 0 /\ load64 s'.(mem) (tf + TF_sp) = PGSIZE /\
    (length l <= length l' + 9)%nat /\ forall q, q ∈ l <-> res_owned N {[0 := pg]} l' p' q;
  fi_frame a : (forall q, q ∈ l -> outside a q) -> load8 s'.(mem) a = load8 s.(mem) a;
}.

(** The stores to the trapframe. *)
Lemma trapframe_stores m tf (a b : Z) (x y : Z) : 0 <= a -> a + 8 <= b -> b + 8 <= 4096 -> let m' := store64 (store64 m (tf + a) x) (tf + b) y in
  load64 m' (tf + a) = u64 x /\ load64 m' (tf + b) = u64 y /\ forall c, outside c tf -> load8 m' c = load8 m c.
Proof.
  intros Ha Hab Hb m'. unfold m'. split_and!.
  - rewrite load64_store64_ne by lia. apply load64_store64_eq.
  - apply load64_store64_eq.
  - intros c Hc. unfold outside in Hc. by rewrite !load8_store64_ne by lia.
Qed.

(** The address space after uvmfirst() and the stores to the trapframe [tf]. *)
Lemma init_space s s' s3 root N N3 pg l l3 tf m : as_inv s root N ∅ (pg :: l) -> proc_table s.(mem) N ∅ tf -> fresh_page N ∅ (pg :: l) tf ->
  first_page s s3 root N N3 pg l l3 initcode -> (forall c, outside c tf -> load8 m c = load8 s3.(mem) c) ->
  s'.(mem) = m -> s'.(freelist) = s3.(freelist) -> LkKmem ∉ s'.(held) ->
  as_inv s' root N3 {[0 := pg]} l3 /\ proc_table s'.(mem) N3 {[0 := pg]} tf /\ fresh_page N3 {[0 := pg]} l3 tf /\ lookup_pte s'.(mem) N3 0 = Z.lor (PA2PTE pg) first_perm /\
  forall a, 0 <= a < 4096 -> ubyte s'.(mem) {[0 := pg]} a = Some (u8 (default 0 (initcode !! Z.to_nat a))).
Proof.
  intros Hi Ht Hfr [Hi3 Ho3 Hk3 Hb3 Hx3 Hq3 Hl3] Hm Em Ef Hlk. assert (fresh_page N3 {[0 := pg]} l3 tf) as Hfr3 by (apply fresh_owned in Hfr; apply fresh_owned; by rewrite <- Hq3).
  destruct (as_other_write s3 root N3 {[0 := pg]} l3 tf m Hi3 Hfr3 Hm) as [Hi4 Hk4]. destruct (as_va _ _ _ _ _ Hi3 0 pg (lookup_singleton_eq _ _)) as (_ & _ & Hpg).
  destruct special_va as ([V1 V2] & [V3 V4] & V5). destruct Ht as (_ & _ & Ht). split_and!; rewrite ?Em.
  - eapply as_inv_ext; [exact Hi4 | done | done | done].
  - unfold proc_table. rewrite !lookup_singleton_ne by (unfold TRAPFRAME, TRAMPOLINE; consts; lia). split_and!; [done | done |]. intros va Hva Hva4 Hd.
    assert (va <> 0) as Hne by (intros ->; by rewrite lookup_singleton_eq in Hd). assert (lookup_pte m N3 va = lookup_pte s.(mem) N va) as -> by (by rewrite Hk4, Hk3, decide_False by done). apply Ht; [done | done | apply lookup_empty].
  - done.
  - by rewrite Hk4, Hk3, decide_True by done.
  - intros a Ha. unfold ubyte. rewrite (PGROUNDDOWN_in 0 a), lookup_singleton_eq by (done || lia). cbn. rewrite Z.mod_small by lia. f_equal. rewrite Hm; [by apply Hb3 |].
    destruct Hfr3 as ([Htf _] & _ & _ & HtD). eapply (outside_pages _ _ pg); [exact Htf | apply Hpg | | lia]. intros ->. by apply (HtD 0), lookup_singleton_eq.
Qed.

(** userinit() after uvmfirst(). *)
Lemma userinit_tail s i p : s.(procs) !! i = Some p -> LkProc i ∈ s.(held) -> LkItable ∉ s.(held) ->
  (exists j x, s.(itable) !! j = Some x /\ (x.(i_ref) = 0 \/ is_inode ROOTDEV ROOTINO x)) ->
  exists ip x y, s.(itable) !! ip = Some x /\ iget_entry ROOTDEV ROOTINO s.(itable) x y /\
    (upd_proc i (set_p_sz PGSIZE);;
     wr64 (p.(p_trapframe) + TF_epc) 0;;
     wr64 (p.(p_trapframe) + TF_sp) PGSIZE;;
     upd_proc i (fun p => set_p_name (safestrcpy_bytes p.(p_name) initcode_name) p);;
     ip ← namei [slash];
     upd_proc i (set_p_cwd ip);;
     upd_proc i (set_p_state RUNNABLE);;
     release (LkProc i)) s =
    Ok tt (set_held (s.(held) ∖ {[LkProc i]})
      (set_procs (<[i := set_p_state RUNNABLE (set_p_cwd (Some ip) (set_p_name (safestrcpy_bytes p.(p_name) initcode_name) (set_p_sz PGSIZE p)))]> s.(procs))
        (set_itable (<[ip := y]> s.(itable)) (set_mem (store64 (store64 s.(mem) (p.(p_trapframe) + TF_epc) 0) (p.(p_trapframe) + TF_sp) PGSIZE) s)))).
Proof.
  intros Hp Hh Hil Hroom. set (s4 := set_mem (store64 (store64 s.(mem) (p.(p_trapframe) + TF_epc) 0) (p.(p_trapframe) + TF_sp) PGSIZE) s).
  set (s5 := set_procs (<[i := set_p_name (safestrcpy_bytes p.(p_name) initcode_name) (set_p_sz PGSIZE p)]> s.(procs)) s4).
  destruct (namei_root s5 Hil Hroom) as (ip & x & y & Hx & Hy & En). exists ip, x, y. split_and!; [done | done |].
  rewrite (bind_Ok (upd_proc i (set_p_sz PGSIZE)) _ s tt (set_procs (<[i := set_p_sz PGSIZE p]> s.(procs)) s)) by (unfold upd_proc, modify; by rewrite (alter_lookup_insert _ _ _ _ Hp)).
  rewrite (bind_Ok (wr64 _ _) _ _ tt (set_mem (store64 s.(mem) (p.(p_trapframe) + TF_epc) 0) (set_procs (<[i := set_p_sz PGSIZE p]> s.(procs)) s))) by done.
  rewrite (bind_Ok (wr64 _ _) _ _ tt (set_procs (<[i := set_p_sz PGSIZE p]> s.(procs)) s4)) by done.
  rewrite (bind_Ok (upd_proc i _) _ _ tt s5) by (unfold upd_proc, modify; cbn [procs set_procs]; by rewrite alter_insert).
  erewrite bind_Ok by exact En.
  rewrite (bind_Ok (upd_proc i _) _ _ tt (set_procs (<[i := set_p_cwd (Some ip) (set_p_name (safestrcpy_bytes p.(p_name) initcode_name) (set_p_sz PGSIZE p))]> s.(procs)) (set_itable (<[ip := y]> s.(itable)) s4))).
  2: { unfold upd_proc, modify. cbn [procs set_procs set_itable s5]. by rewrite alter_insert. }
  rewrite (bind_Ok (upd_proc i _) _ _ tt (set_procs (<[i := set_p_state RUNNABLE (set_p_cwd (Some ip) (set_p_name (safestrcpy_bytes p.(p_name) initcode_name) (set_p_sz PGSIZE p)))]> s.(procs)) (set_itable (<[ip := y]> s.(itable)) s4))).
  2: { unfold upd_proc, modify. cbn [procs set_procs]. by rewrite alter_insert. }
  rewrite release_Ok by done. done.
Qed.

Lemma only_mem_tail s s1 s3 x h ps it m : only_mem s s1 -> only_mem (set_initproc x s1) s3 ->
  only_mem (set_itable it (set_initproc x (set_procs ps (set_held h s)))) (set_held h (set_procs ps (set_itable it (set_mem m s3)))).
Proof. unfold only_mem. intros H1' H3'. rewrite H3', H1'. reflexivity. Qed.

Lemma userinit_run s l i p : kmem_inv s l -> (10 <= length l)%nat -> procs_ok s -> unused_clean s -> (forall j, LkProc j ∉ s.(held)) ->
  LkKmem ∉ s.(held) -> LkPid ∉ s.(held) -> LkItable ∉ s.(held) -> list_find (fun p => p.(p_state) = UNUSED) s.(procs) = Some (i, p) ->
  (exists j x, s.(itable) !! j = Some x /\ (x.(i_ref) = 0 \/ is_inode ROOTDEV ROOTINO x)) ->
  exists s', userinit s = Ok tt s' /\ first_process s l i p s'.
Proof.
  intros Hkm Hlen Hok Hcl Hh Hlk Hpl Hil Hf Hroom. pose proof (allocproc_run s l Hkm Hok Hcl Hh Hlk Hpl) as Ha. rewrite Hf in Ha. destruct Ha as (r & s1 & E1 & Hx1 & Ha).
  destruct Ha as [(-> & tf & pt & N & l1 & Ho1 & Hres & Hl1 & Hq1)|(_ & Hc & _)]; [|lia]. set (p1 := fresh_proc p s.(nextpid) tf pt) in *.
  apply list_find_Some in Hf as (Hp & Hu & _). pose proof (lookup_lt_Some _ _ _ Hp) as Hi. pose proof Hres as [Has Ht [_ Hbelow] _ (Htf & Htl & HtN & HtD)]. cbn [p_pagetable p_trapframe p1 fresh_proc set_p_context set_p_pagetable set_p_trapframe] in Has, Ht, Htf, Htl, HtN.
  assert (s1.(procs) = <[i := p1]> s.(procs)) as Ep1 by (by rewrite (only_mem_procs _ _ Ho1)).
  assert (s1.(held) = {[LkProc i]} ∪ s.(held)) as Eh1 by (by rewrite (only_mem_held _ _ Ho1)).
  destruct l1 as [|pg l1]; [cbn in Hl1; lia |]. cbn [length] in Hl1.
  pose proof (Hq1 pg) as Hpg. assert (pg <> tf) as Hpgtf by (intros ->; apply Htl, list_elem_of_here).
  assert (has (lookup_pte s1.(mem) N 0) PTE_V = false) as Hno by (by destruct Ht as (_ & _ & Ht); specialize (Ht 0 ltac:(done) ltac:(done) (lookup_empty _))).
  destruct (uvmfirst_run (set_initproc (Some i) s1) pt N pg l1 initcode) as (s3 & N3 & l3 & E3 & [Hi3 Ho3 Hk3 Hb3 Hx3 Hq3 Hl3]);
    [by eapply as_frame; [exact Has | done | apply Has | intros k q _ a _; done] | lia | done | exact Hno |].
  assert (s3.(procs) !! i = Some p1) as Hp3 by (rewrite (only_mem_procs _ _ Ho3); cbn [procs set_initproc]; rewrite Ep1; by apply list_lookup_insert_eq).
  assert (s3.(held) = {[LkProc i]} ∪ s.(held)) as Eh3 by (by rewrite (only_mem_held _ _ Ho3)).
  assert (s3.(itable) = s.(itable)) as Ei3 by (unfold only_mem in Ho3, Ho1; rewrite Ho3; cbn; by rewrite Ho1).
  destruct (userinit_tail s3 i p1 Hp3) as (ip & x & y & Hx & Hy & E5); [rewrite Eh3; set_solver + | rewrite Eh3; set_solver + Hil | by rewrite Ei3 |].
  eexists. split.
  { unfold userinit. erewrite bind_Ok by exact E1. cbv iota beta. erewrite bind_Ok by done. erewrite bind_Ok by (apply get_proc_Ok; cbn; rewrite Ep1; by apply list_lookup_insert_eq).
    erewrite bind_Ok by exact E3. exact E5. }
  destruct (trapframe_stores s3.(mem) tf TF_epc TF_sp 0 PGSIZE) as (T1 & T2 & T3); [done | done | done |]. change (p_trapframe p1) with tf. set (m := store64 _ (tf + TF_sp) _) in *. set (s' := set_held _ _).
  assert (s'.(held) = s.(held)) as Eh by (unfold s'; cbn; rewrite Eh3; apply held_drop, Hh).
  destruct (init_space (set_initproc (Some i) s1) s' s3 pt N N3 pg l1 l3 tf m) as (R1 & R2 & R3 & R4 & R5); try done.
  { by eapply as_inv_ext; [exact Has | done | done | rewrite <- (only_mem_held _ _ Ho3), Eh3; set_solver + Hlk]. }
  { by rewrite Eh. }
  constructor.
  - exists tf, pt, ip, y, N3, pg, l3. cbv zeta. rewrite Ei3 in Hx, Hy. split_and!.
    + assert (s3.(procs) = <[i := p1]> s.(procs)) as Ep3 by (by rewrite (only_mem_procs _ _ Ho3)). unfold s'. rewrite Eh3, held_drop, Ei3, Ep3, list_insert_insert_eq by apply Hh.
      apply (only_mem_tail _ s1 s3 (Some i) s.(held) _ (<[ip := y]> s.(itable)) m Ho1 Ho3).
    + by eapply lookup_lt_Some.
    + destruct Hy as [[(Hr & Hd & Hn) ->]|(_ & _ & ->)]; split_and!; cbn; lia || done.
    + constructor; [exact R1 | exact R2 | | done | exact R3]. split; [intros va Hva Hva4; exists pg; replace va with 0; [apply lookup_singleton_eq |] | intros va pa [<- _]%lookup_singleton_Some; done].
      change (PGROUNDUP (p_sz (init_process p (nextpid s) tf pt ip))) with 4096 in Hva. dlia.
    + exact R4.
    + exact R5.
    + exact T1.
    + exact T2.
    + lia.
    + intros q. rewrite Hq1. unfold res_owned. rewrite Hq3. done.
  - intros a Ha. assert (outside a tf) as Htfa by (apply Ha, Hq1; by right). change (load8 m a = load8 s.(mem) a). rewrite T3 by done. rewrite Hx3; [by apply Hx1 |].
    intros q Hq. apply Ha, Hq1. by left.
Qed.
End userinit.
