(* ===== verification/Fork.v ===== *)
(** * fork() (kernel/proc.c)

    The child is a copy of the parent: memory, registers but a0, open files, directory and name.
    When there is no slot or no memory, nothing has changed. *)

From S2P Require Import Prelude State Mem Riscv Kalloc Vm PageTable Uvm UvmAlloc UvmFree UvmCopy Sched Sleeplock Proc ProcVm ProcAlloc ProcGrow Fs File Process UserInit.

Section fork.
Context `{Symbols} {P : Patience} {W : Devsw}.
Implicit Types (N : gmap (list Z) Z) (m D : gmap Z Z) (s : kernel) (l : list Z) (p : proc).

(** ** Open files *)

(** One more reference to each file. *)
Definition incref (t : list file) (o : option nat) : list file := match o with Some f => alter (fun x => set_f_ref (x.(f_ref) + 1) x) f t | None => t end.
Definition dup_refs (t : list file) (ofile : list (option nat)) : list file := foldl incref t ofile.

Definition files_open (t : list file) (ofile : list (option nat)) : Prop := forall f, Some f ∈ ofile -> exists x, t !! f = Some x /\ 1 <= x.(f_ref).

Lemma incref_open t o ofile : files_open t ofile -> files_open (incref t o) ofile.
Proof.
  intros Ho f Hf. destruct (Ho f Hf) as (x & Hx & Hr). destruct o as [g|]; [|by exists x]. cbn. destruct (decide (g = f)) as [->|Hne].
  - rewrite list_lookup_alter_eq, Hx. eexists. split; [done |]. cbn. lia.
  - rewrite list_lookup_alter_ne by done. by exists x.
Qed.

Lemma dup_refs_open t done ofile : files_open t ofile -> files_open (dup_refs t done) ofile.
Proof. revert t. induction done as [|o done IH]; intros t Ho; [done |]. cbn. by apply IH, incref_open. Qed.

Lemma dup_refs_snoc t ofile k o : ofile !! k = Some o -> dup_refs t (take (S k) ofile) = incref (dup_refs t (take k ofile)) o.
Proof. intros Hk. rewrite (take_S_r _ _ _ Hk). unfold dup_refs. by rewrite foldl_app. Qed.

(** filedup() *)
Lemma filedup_run s f x : s.(ftable) !! f = Some x -> 1 <= x.(f_ref) -> LkFtable ∉ s.(held) -> filedup f s = Ok f (set_ftable (incref s.(ftable) (Some f)) s).
Proof.
  intros Hx Hr Hh. unfold filedup. erewrite bind_Ok by (by apply acquire_Ok). rewrite (bind_Ok (get_file f) _ _ x (set_held ({[LkFtable]} ∪ s.(held)) s)) by (unfold get_file; cbn; by rewrite Hx).
  destruct (Z.ltb_spec x.(f_ref) 1); [lia |]. erewrite bind_Ok by done. erewrite bind_Ok by (apply release_Ok; set_solver +). unfold mret, M_ret. f_equal. cbn. rewrite held_drop by done.
  rewrite (alter_lookup _ (fun x => set_f_ref (x.(f_ref) + 1) x) _ f x Hx) by done. by destruct s.
Qed.

(** The descriptors of the child after [k] of them. *)
Definition ofile_upto (k : nat) (ofile : list (option nat)) : list (option nat) := take k ofile ++ replicate (NOFILE - k) None.

Lemma ofile_step k ofile o : length ofile = NOFILE -> ofile !! k = Some o -> ofile_upto (S k) ofile = <[k := o]> (ofile_upto k ofile).
Proof.
  intros Hl Hk. pose proof (lookup_lt_Some _ _ _ Hk) as Hlt. unfold ofile_upto. rewrite (take_S_r _ _ _ Hk), <- app_assoc. rewrite insert_app_r_alt by (rewrite length_take; lia).
  rewrite length_take, Nat.min_l by lia. replace (k - k)%nat with 0%nat by lia. f_equal. replace (NOFILE - k)%nat with (S (NOFILE - S k)) by lia. done.
Qed.

Lemma ofile_none k ofile : length ofile = NOFILE -> ofile !! k = Some None -> ofile_upto (S k) ofile = ofile_upto k ofile.
Proof.
  intros Hl Hk. rewrite (ofile_step k ofile None) by done. apply list_insert_id. pose proof (lookup_lt_Some _ _ _ Hk) as Hlt. unfold ofile_upto.
  rewrite lookup_app_r by (rewrite length_take; lia). rewrite length_take, Nat.min_l by lia. apply lookup_replicate_2. lia.
Qed.

Lemma dup_files_run s i np p q : s.(procs) !! i = Some p -> s.(procs) !! np = Some q -> i <> np -> length p.(p_ofile) = NOFILE -> q.(p_ofile) = replicate NOFILE None -> files_open s.(ftable) p.(p_ofile) ->
  LkFtable ∉ s.(held) -> dup_files i np s = Ok tt (set_procs (<[np := set_p_ofile p.(p_ofile) q]> s.(procs)) (set_ftable (dup_refs s.(ftable) p.(p_ofile)) s)).
Proof.
  intros Hp Hq Hne Hl Hoq Hop Hh. set (at_fd k := set_procs (<[np := set_p_ofile (ofile_upto k p.(p_ofile)) q]> s.(procs)) (set_ftable (dup_refs s.(ftable) (take k p.(p_ofile))) s)).
  assert (wp (dup_files i np) (fun _ s' => s' = at_fd NOFILE) s) as Hw.
  { unfold dup_files. apply (wp_for_range _ (fun k s' => s' = at_fd k)).
    - unfold at_fd, ofile_upto. rewrite take_0. cbn [app]. rewrite Nat.sub_0_r, <- Hoq. assert (set_p_ofile q.(p_ofile) q = q) as -> by (by destruct q). rewrite list_insert_id by done. by destruct s.
    - intros k s' Hk ->. apply wp_bind. eapply wp_Ok; [apply get_proc_Ok; cbn; rewrite list_lookup_insert_ne by congruence; exact Hp |].
      destruct (lookup_lt_is_Some_2 p.(p_ofile) k) as [o Ho]; [rewrite Hl; lia |]. rewrite Ho. replace (k + 1)%nat with (S k) by lia. 
      assert (at_fd (S k) = set_procs (<[np := set_p_ofile (ofile_upto (S k) p.(p_ofile)) q]> s.(procs)) (set_ftable (incref (dup_refs s.(ftable) (take k p.(p_ofile))) o) s)) as -> by (unfold at_fd; by rewrite (dup_refs_snoc _ _ _ _ Ho)).
      destruct o as [f|].
      + destruct (dup_refs_open s.(ftable) (take k p.(p_ofile)) p.(p_ofile) Hop f) as (x & Hx & Hr); [by eapply list_elem_of_lookup_2 |].
        apply wp_bind. eapply wp_Ok; [apply (filedup_run (at_fd k) f x); [exact Hx | done | exact Hh] |]. apply wp_modify. cbn [procs set_ftable at_fd set_procs]. rewrite alter_insert. cbn [p_ofile set_p_ofile].
        rewrite (ofile_step k _ (Some f) Hl Ho). unfold at_fd. by destruct s.
      + rewrite (ofile_none k _ Hl Ho). apply wp_ret. done.
    - intros s' ->. done. }
  apply wp_inv in Hw as ([] & s' & E & ->). rewrite E. unfold at_fd, ofile_upto. rewrite Nat.sub_diag. cbn [replicate]. rewrite app_nil_r. by rewrite take_ge by lia.
Qed.

(** ** The parent's memory *)

(** The pages of a process are not among [Q]. *)
Definition res_apart p N D (Q : Z -> Prop) : Prop := apart N D Q /\ ~ Q p.(p_trapframe).

(** What a process sees of its memory: translations, bytes, trapframe. *)
Record same_view s s' p N D : Prop := {
  sv_pte va : lookup_pte s'.(mem) N va = lookup_pte s.(mem) N va;
  sv_byte va : ubyte s'.(mem) D va = ubyte s.(mem) D va;
  sv_tf k : 0 <= k < 4096 -> load8 s'.(mem) (p.(p_trapframe) + k) = load8 s.(mem) (p.(p_trapframe) + k);
}.

Lemma same_view_trans s1 s2 s3 p N D : same_view s1 s2 p N D -> same_view s2 s3 p N D -> same_view s1 s3 p N D.
Proof. intros [A1 A2 A3] [B1 B2 B3]. split; intros; [by rewrite B1 | by rewrite B2 | by rewrite B3, A3]. Qed.

Lemma res_apart_mono p N D (Q Q' : Z -> Prop) : (forall q, Q' q -> Q q) -> res_apart p N D Q -> res_apart p N D Q'.
Proof. intros HQ ((HN & HD) & Ht). split; [split; intros k q Hk Hq; [apply (HN k q Hk) | apply (HD k q Hk)]; by apply HQ | intros Hq; by apply Ht, HQ]. Qed.

Lemma res_apart_free s p N D l : proc_res s p N D l -> res_apart p N D (fun q => q ∈ l).
Proof. intros [Ha _ _ _ (_ & Htl & _ & _)]. split; [|done]. split; [apply Ha | apply (as_sepl _ _ _ _ _ Ha)]. Qed.

(** Memory changes in the pages [Q], none of which is the process's. *)
Lemma res_elsewhere s s' p N D l l' (Q : Z -> Prop) : proc_res s p N D l -> kmem_inv s' l' -> LkKmem ∉ s'.(held) -> (forall q, Q q -> page_ok q) ->
  (forall x, (forall q, Q q -> outside x q) -> load8 s'.(mem) x = load8 s.(mem) x) -> res_apart p N D Q -> res_apart p N D (fun q => q ∈ l') -> proc_res s' p N D l' /\ same_view s s' p N D.
Proof.
  intros [Ha (T1 & T2 & T3) Hpg Hsz (Htf & Htl & HtN & HtD)] Hkm Hlk HQ Hf ((HN & HD) & Ht) (Hal & Htl').
  assert (forall q k, page_ok q -> ~ Q q -> 0 <= k < 4096 -> load8 s'.(mem) (q + k) = load8 s.(mem) (q + k)) as Hb by (intros q k; by apply (bytes_elsewhere s s' Q)).
  destruct (as_elsewhere s s' p.(p_pagetable) N D l l' Ha Hkm Hlk) as [Ha' Hl]; [|done |].
  { intros k q i Hk. apply Hb; [by apply (wf_page _ _ _ (pi_wf _ _ _ _ (as_pt _ _ _ _ _ Ha)) k) | by eapply HN]. }
  split; split; try done.
  - split_and!; [done | done |]. intros va Hva Hva4 Hd. rewrite Hl. by apply T3.
  - intros va. unfold ubyte. destruct (D !! PGROUNDDOWN va) as [q|] eqn:Ed; [|done]. cbn. f_equal. apply Hb; [by apply (as_va _ _ _ _ _ Ha _ _ Ed) | by eapply HD | dlia].
  - intros k. by apply Hb.
Qed.

(** ** uvmcopy() *)

Lemma below_trapframe sz : 0 <= sz <= TRAPFRAME -> 0 <= PGROUNDUP sz <= TRAPFRAME /\ sz <= PGROUNDUP sz /\ PGROUNDUP sz mod 4096 = 0 /\ 0 <= sz <= MAXVA.
Proof.
  intros Hsz. assert (TRAPFRAME = 0x3fffffe000) as E by done. assert (MAXVA = 0x4000000000) as E' by done. rewrite E in *. rewrite E'. destruct (PGROUNDUP_spec sz) as [H4 Hr]; [lia.. |].
  split_and!; try lia; try done. dlia.
Qed.

(** The child after uvmcopy() has succeeded. *)
Lemma child_copied s1 s2 N0 D0 pc N N2 D2 l1 l2 sz : proc_res s1 pc N ∅ l1 -> 0 <= sz <= TRAPFRAME -> as_inv s2 pc.(p_pagetable) N2 D2 l2 -> moved s1 s2 N N2 ∅ D2 l1 l2 ->
  copied s1 s2 N0 D0 N N2 ∅ D2 0 (PGROUNDUP sz) -> proc_res s2 (set_p_sz sz pc) N2 D2 l2.
Proof.
  intros [Ha (T1 & T2 & T3) Hpg _ Htf] Hsz Hi2 Hm [_ C2 C3 _ C5]. destruct (below_trapframe sz Hsz) as (He & Hle & He4 & _). destruct special_va as ([V1 V2] & [V3 V4] & V5).
  assert (forall va, PGROUNDUP sz <= va -> D2 !! va = None) as Hhigh.
  { intros va Hva. destruct (D2 !! va) as [q|] eqn:Ed; [|done]. apply C2 in Ed as [Ed|Ed]; [done | lia]. }
  split; [done | | | done |].
  - split_and!; [apply Hhigh; unfold TRAPFRAME in *; consts; lia | apply Hhigh; lia |]. intros va Hva Hva4 Hd. assert (PGROUNDUP sz <= va) as Hge.
    { destruct (decide (PGROUNDUP sz <= va)); [done |]. destruct (C3 va) as (q & _ & _ & Hq & _); [lia | done | congruence]. }
    change (p_trapframe (set_p_sz sz pc)) with pc.(p_trapframe). rewrite C5 by (done || lia). apply T3; [done | done | apply lookup_empty].
  - split; [|intros va pa Hd; apply C2 in Hd as [Hd|Hd]; [done | cbn; lia]]. intros va Hva Hva4. cbn in Hva. destruct (C3 va Hva Hva4) as (q & _ & _ & Hq & _). eauto.
  - apply fresh_owned. apply fresh_owned in Htf as [Hp Hno]. split; [done |]. cbn. by rewrite <- (mv_pages _ _ _ _ _ _ _ _ Hm).
Qed.

(** The child after it has failed. *)
Lemma child_empty s1 s2 pc N N2 l1 l2 sz : proc_res s1 pc N ∅ l1 -> 0 <= sz <= TRAPFRAME -> given_up s1 s2 pc.(p_pagetable) N N2 ∅ l1 l2 (PGROUNDUP sz) -> proc_res s2 pc N2 ∅ l2.
Proof.
  intros [Ha (T1 & T2 & T3) Hpg Hpsz Htf] Hsz [Hi2 Hm Hk]. destruct (below_trapframe sz Hsz) as (He & _). destruct special_va as ([V1 V2] & [V3 V4] & V5). split; [done | | done | done |].
  - split_and!; [done | done |]. intros va Hva Hva4 Hd. specialize (Hk va Hva Hva4). specialize (T3 va Hva Hva4 Hd). destruct (decide (0 <= va < PGROUNDUP sz)) as [Hr|Hr]; [|by rewrite Hk].
    rewrite decide_False by (unfold TRAPFRAME in *; consts; lia). by rewrite decide_False by lia.
  - apply fresh_owned. apply fresh_owned in Htf as [Hp Hno]. split; [done |]. by rewrite <- (mv_pages _ _ _ _ _ _ _ _ Hm).
Qed.

Lemma clear_below s pc N l sz va : proc_res s pc N ∅ l -> 0 <= sz <= TRAPFRAME -> 0 <= va < PGROUNDUP sz -> va mod 4096 = 0 -> has (lookup_pte s.(mem) N va) PTE_V = false.
Proof.
  intros [_ (_ & _ & T3) _ _ _] Hsz Hva Hva4. destruct (below_trapframe sz Hsz) as (He & _). assert (TRAPFRAME < TRAMPOLINE /\ TRAMPOLINE < MAXVA) as [Hs1 Hs2] by done.
  specialize (T3 va ltac:(lia) Hva4 (lookup_empty _)). by rewrite !decide_False in T3 by lia.
Qed.

Lemma fork_copy s1 p pc N0 D0 N l1 : proc_res s1 pc N ∅ l1 -> proc_res s1 p N0 D0 l1 -> res_apart p N0 D0 (res_owned N ∅ l1 pc) ->
  exists r s2 N2 D2 l2, uvmcopy p.(p_pagetable) pc.(p_pagetable) p.(p_sz) s1 = Ok r s2 /\ only_mem s1 s2 /\ proc_res s2 p N0 D0 l2 /\ same_view s1 s2 p N0 D0 /\
    (forall q, res_owned N ∅ l1 pc q <-> res_owned N2 D2 l2 pc q) /\ (forall x, (forall q, res_owned N ∅ l1 pc q -> outside x q) -> load8 s2.(mem) x = load8 s1.(mem) x) /\
    ((r = 0 /\ proc_res s2 (set_p_sz p.(p_sz) pc) N2 D2 l2 /\ (forall va, 0 <= va -> ubyte s2.(mem) D2 va = ubyte s1.(mem) D0 va) /\
        (forall va, is_Some (D0 !! va) -> PTE_FLAGS (lookup_pte s2.(mem) N2 va) = PTE_FLAGS (lookup_pte s1.(mem) N0 va))) \/
     (r = -1 /\ D2 = ∅ /\ proc_res s2 pc N2 ∅ l2 /\ Z.of_nat (length l1) < 3 * (PGROUNDUP p.(p_sz) / 4096))).
Proof.
  intros Hc Hp Hap. pose proof Hc as [Hca _ _ _ _]. pose proof Hp as [Hpa _ [Hpg Hpd] Hsz _]. destruct (below_trapframe _ Hsz) as (He & Hle & He4 & Hmax).
  assert (apart N0 D0 (owned N ∅ l1)) as Hap1 by (apply (res_apart_mono p N0 D0 (res_owned N ∅ l1 pc)); [by left | done]).
  destruct (uvmcopy_run s1 p.(p_pagetable) N0 D0 pc.(p_pagetable) N l1 p.(p_sz) Hca Hpa Hap1 Hmax Hpg) as (r & s2 & N2 & D2 & l2 & E & Hi2 & Hm & Hr); [intros va Hva Hva4; by apply (clear_below s1 pc N l1 p.(p_sz)) |].
  pose proof Hm as [Ho Hf Hown]. destruct (res_elsewhere s1 s2 p N0 D0 l1 l2 (owned N ∅ l1) Hp) as [Hp2 Hv]; [apply Hi2 | rewrite (only_mem_held _ _ Ho); apply Hca | intros q; by apply (owned_page s1 pc.(p_pagetable)) | done | | |].
  { apply (res_apart_mono p N0 D0 (res_owned N ∅ l1 pc)); [by left | done]. }
  { apply (res_apart_mono p N0 D0 (res_owned N ∅ l1 pc)); [|done]. intros q Hq. left. apply Hown. by left. }
  exists r, s2, N2, D2, l2. split_and!; [done | done | done | done | intros q; unfold res_owned; by rewrite Hown | intros x Hx; apply Hf; intros q Hq; apply Hx; by left |].
  destruct Hr as [(-> & Hcd)|(-> & -> & Hlen & Hg)]; [left | right]; (split; [done |]).
  - split; [by eapply child_copied | destruct Hcd as [_ C2 C3 _ _]; split].
    + intros va Hva. destruct (PGROUNDDOWN_spec va Hva) as [Hd4 Hdr]. unfold ubyte. destruct (decide (va < PGROUNDUP p.(p_sz))) as [Hlt|Hge].
      * destruct (C3 (PGROUNDDOWN va)) as (q & pa & f & -> & -> & _ & _ & _ & Hbb); [dlia | done |]. cbn. f_equal. apply Hbb. dlia.
      * destruct (D2 !! PGROUNDDOWN va) as [q|] eqn:Ed; [apply C2 in Ed as [Ed|Ed]; [done | dlia] |]. destruct (D0 !! PGROUNDDOWN va) as [q|] eqn:Ed0; [apply Hpd in Ed0; dlia | done].
    + intros va [pa0 Hd]. destruct (as_va _ _ _ _ _ Hpa va pa0 Hd) as (Hva & Hva4 & Hk0). destruct (C3 va) as (q & pa & f & Hq & Hpa' & Hf1 & -> & -> & _); [split; [lia | by eapply Hpd] | done |].
      rewrite !PTE_FLAGS_mk_pte; try done; apply page_56; [by apply (as_va _ _ _ _ _ Hpa va) | by apply (as_va _ _ _ _ _ Hi2 va)].
  - split; [done |]. split; [by apply (child_empty s1 s2 pc N N2 l1 l2 p.(p_sz)) | done].
Qed.

(** ** The trapframe *)

(** *(np->trapframe) = *(p->trapframe); np->trapframe->a0 = 0; *)
Lemma trapframe_copied m tf ptf : page_ok tf -> page_ok ptf -> tf <> ptf -> let m' := store64 (memmove m tf ptf TF_size) (tf + TF_a0) 0 in
  load64 m' (tf + TF_a0) = 0 /\ (forall k, 0 <= k < TF_size -> ~ TF_a0 <= k < TF_a0 + 8 -> load8 m' (tf + k) = load8 m (ptf + k)) /\ forall x, outside x tf -> load8 m' x = load8 m x.
Proof.
  intros Ht Hp Hne m'. unfold m'. split_and!.
  - apply load64_store64_eq.
  - intros k Hk Hn. rewrite load8_store64_ne by lia. rewrite load8_memmove by done. rewrite decide_True by lia. f_equal. lia.
  - intros x Hx. unfold outside in Hx. unfold TF_a0 in *. rewrite load8_store64_ne by lia. rewrite load8_memmove by done. by rewrite decide_False by (unfold TF_size; lia).
Qed.

(** ** The rest of fork() *)

(** The child, in a slot allocproc() has made [pc]. *)
Definition forked pc (i : nat) p : proc :=
  set_p_state RUNNABLE (set_p_parent (Some i) (set_p_name (safestrcpy_bytes pc.(p_name) p.(p_name)) (set_p_cwd p.(p_cwd) (set_p_ofile p.(p_ofile) (set_p_sz p.(p_sz) pc))))).

Definition fork_rest (i np : nat) p pc : M kernel Z :=
  upd_proc np (set_p_sz p.(p_sz));;
  do_memmove pc.(p_trapframe) p.(p_trapframe) TF_size;;
  wr64 (pc.(p_trapframe) + TF_a0) 0;;
  dup_files i np;;
  match p.(p_cwd) with Some ip => idup ip;; mret tt | None => panic "cwd" end;;
  upd_proc np (set_p_cwd p.(p_cwd));;
  upd_proc np (fun q => set_p_name (safestrcpy_bytes q.(p_name) p.(p_name)) q);;
  n ← get_proc np;
  let pid := n.(p_pid) in
  release (LkProc np);;
  acquire LkWait;;
  upd_proc np (set_p_parent (Some i));;
  release LkWait;;
  acquire (LkProc np);;
  upd_proc np (set_p_state RUNNABLE);;
  release (LkProc np);;
  mret pid.

Lemma idup_run s ip : LkItable ∉ s.(held) -> idup ip s = Ok ip (set_itable (alter (fun x => set_i_ref (x.(i_ref) + 1) x) ip s.(itable)) s).
Proof.
  intros Hh. unfold idup. erewrite bind_Ok by (by apply acquire_Ok). erewrite bind_Ok by done. erewrite bind_Ok by (apply release_Ok; set_solver +). unfold mret, M_ret. f_equal. cbn. rewrite held_drop by done. by destruct s.
Qed.

Definition tf_copied m (tf ptf : Z) : gmap Z Z := store64 (memmove m tf ptf TF_size) (tf + TF_a0) 0.

Lemma fork_rest_run s i np p pc ip : s.(procs) !! i = Some p -> s.(procs) !! np = Some pc -> i <> np -> s.(held) = {[LkProc np]} -> length p.(p_ofile) = NOFILE -> pc.(p_ofile) = replicate NOFILE None ->
  files_open s.(ftable) p.(p_ofile) -> p.(p_cwd) = Some ip ->
  fork_rest i np p pc s = Ok pc.(p_pid) (set_held ∅ (set_procs (<[np := forked pc i p]> s.(procs)) (set_itable (alter (fun x => set_i_ref (x.(i_ref) + 1) x) ip s.(itable))
    (set_ftable (dup_refs s.(ftable) p.(p_ofile)) (set_mem (tf_copied s.(mem) pc.(p_trapframe) p.(p_trapframe)) s))))).
Proof.
  intros Hp Hpc Hne Hheld Hl Hoc Hop Hcwd. unfold fork_rest. erewrite bind_Ok by done. erewrite bind_Ok by done. erewrite bind_Ok by done. cbn [mem set_mem procs set_procs].
  rewrite (alter_lookup_insert _ _ _ _ Hpc). set (pc1 := set_p_sz p.(p_sz) pc). set (s1 := set_mem _ _).
  erewrite bind_Ok by (apply (dup_files_run s1 i np p pc1); [cbn; rewrite list_lookup_insert_ne by congruence; exact Hp | cbn; apply list_lookup_insert_eq; by apply lookup_lt_Some in Hpc | done | done | done | done | cbn; rewrite Hheld; set_solver +]).
  set (s2 := set_procs _ _). rewrite Hcwd. assert ((idup ip;; mret tt) s2 = Ok tt (set_itable (alter (fun x => set_i_ref (x.(i_ref) + 1) x) ip s.(itable)) s2)) as Ei.
  { erewrite bind_Ok by (apply idup_run; cbn; rewrite Hheld; set_solver +). done. }
  erewrite bind_Ok by exact Ei. erewrite bind_Ok by done. erewrite bind_Ok by done. set (s3 := set_procs _ (set_procs _ _)).
  assert (s3.(procs) = <[np := set_p_name (safestrcpy_bytes pc.(p_name) p.(p_name)) (set_p_cwd (Some ip) (set_p_ofile p.(p_ofile) pc1))]> s.(procs)) as E3.
  { unfold s3. cbn. rewrite !list_insert_insert_eq. by rewrite !alter_insert. }
  rewrite (bind_Ok (get_proc np) _ s3 (set_p_name (safestrcpy_bytes pc.(p_name) p.(p_name)) (set_p_cwd (Some ip) (set_p_ofile p.(p_ofile) pc1))) s3) by (apply get_proc_Ok; rewrite E3; apply list_lookup_insert_eq; by apply lookup_lt_Some in Hpc).
  cbv zeta. erewrite bind_Ok by (apply release_Ok; cbn; rewrite Hheld; set_solver +). erewrite bind_Ok by (apply acquire_Ok; cbn; rewrite Hheld; set_solver +). erewrite bind_Ok by done.
  erewrite bind_Ok by (apply release_Ok; cbn; set_solver +). erewrite bind_Ok by (apply acquire_Ok; cbn; rewrite Hheld; set_solver +). erewrite bind_Ok by done. erewrite bind_Ok by (apply release_Ok; cbn; set_solver +).
  unfold mret, M_ret. f_equal. cbn [procs set_procs set_held held]. rewrite E3, !alter_insert. unfold forked. rewrite Hcwd.
  assert (({[LkProc np]} ∪ ({[LkWait]} ∪ s3.(held) ∖ {[LkProc np]}) ∖ {[LkWait]}) ∖ {[LkProc np]} = (∅ : gset lockid)) as -> by (cbn; rewrite Hheld; set_solver +). unfold s3, s2, s1. by destruct s.
Qed.

(** ** fork() *)

(** fork() gave up: slot [np] is unused, and the free pages are the same. *)
Record fork_failed s l (np : nat) q sz (r : Z) s' l' : Prop := {
  ff_ret : r = -1;
  ff_only : exists c, only_mem (set_procs (<[np := set_p_context c (freed q)]> s.(procs)) (set_nextpid (s32 (s.(nextpid) + 1)) s)) s';
  ff_free x : x ∈ l' <-> x ∈ l;
  ff_why : Z.of_nat (length l) < 6 + 3 * (PGROUNDUP sz / 4096);
}.

(** fork() made the process [c] in slot [np], with the address space [N], [D]. *)
Record fork_done s l (i np : nat) p (q : proc) N0 D0 (ip : nat) (r : Z) s' l' : Prop := {
  fd_ret : r = s.(nextpid);
  fd_child : exists tf pt N D, let c := forked (fresh_proc q s.(nextpid) tf pt) i p in
    only_mem (set_procs (<[np := c]> s.(procs)) (set_itable (alter (fun x => set_i_ref (x.(i_ref) + 1) x) ip s.(itable))
      (set_ftable (dup_refs s.(ftable) p.(p_ofile)) (set_nextpid (s32 (s.(nextpid) + 1)) s)))) s' /\
    proc_res s' c N D l' /\ (forall x, x ∈ l <-> res_owned N D l' c x) /\
    (forall va, 0 <= va -> ubyte s'.(mem) D va = ubyte s.(mem) D0 va) /\
    (forall va, is_Some (D0 !! va) -> PTE_FLAGS (lookup_pte s'.(mem) N va) = PTE_FLAGS (lookup_pte s.(mem) N0 va)) /\
    load64 s'.(mem) (tf + TF_a0) = 0 /\ forall k, 0 <= k < TF_size -> ~ TF_a0 <= k < TF_a0 + 8 -> load8 s'.(mem) (tf + k) = load8 s.(mem) (p.(p_trapframe) + k);
}.

(** The parent after allocproc(). *)
Lemma parent_allocated s s1 p N0 D0 l l1 : proc_res s p N0 D0 l -> kmem_inv s1 l1 -> LkKmem ∉ s1.(held) -> (forall x, x ∈ l1 -> x ∈ l) ->
  (forall a, (forall q, q ∈ l -> outside a q) -> load8 s1.(mem) a = load8 s.(mem) a) -> proc_res s1 p N0 D0 l1 /\ same_view s s1 p N0 D0.
Proof.
  intros Hp Hkm Hlk Hsub Hf. pose proof (res_apart_free s p N0 D0 l Hp) as Hap. apply (res_elsewhere s s1 p N0 D0 l l1 (fun q => q ∈ l)); try done.
  - intros q Hq. eapply free_page_ok; [apply (r_as _ _ _ _ _ Hp) | done].
  - by apply (res_apart_mono p N0 D0 (fun q => q ∈ l)).
Qed.

(** No memory for the child's pages: freeproc() and release(). *)
Lemma fork_undo s s1 s2 p pc N0 D0 N N2 l l1 l2 np : proc_res s2 pc N2 ∅ l2 -> proc_res s2 p N0 D0 l2 -> s2.(procs) !! np = Some pc -> s2.(held) = {[LkProc np]} ->
  res_apart p N0 D0 (res_owned N2 ∅ l2 pc) -> (forall x, x ∈ l <-> res_owned N ∅ l1 pc x) -> (forall x, res_owned N ∅ l1 pc x <-> res_owned N2 ∅ l2 pc x) -> same_view s s1 p N0 D0 -> same_view s1 s2 p N0 D0 ->
  exists s' l', (freeproc np;; release (LkProc np);; mret (-1)) s2 = Ok (-1) s' /\ s'.(held) = ∅ /\ only_mem (set_held ∅ (set_procs (<[np := freed pc]> s2.(procs)) s2)) s' /\
    proc_res s' p N0 D0 l' /\ same_view s s' p N0 D0 /\ forall x, x ∈ l' <-> x ∈ l.
Proof.
  intros Hc Hp Hnp Hh Hap Hl1 Hl2 Hv1 Hv2. destruct (freeproc_full s2 np pc N2 ∅ l2 Hc Hnp) as (s3 & l3 & E3 & [Ho Hkm Hl Hf]); [rewrite Hh; set_solver + |].
  pose proof (only_mem_held _ _ Ho) as Eh3. cbn in Eh3. erewrite bind_Ok by exact E3. erewrite bind_Ok by (apply release_Ok; rewrite Eh3, Hh; set_solver +).
  assert (forall x, x ∈ l3 <-> res_owned N2 ∅ l2 pc x) as Hl3 by (intros x; rewrite Hl; unfold res_owned, owned; rewrite elem_of_nil; tauto).
  set (s4 := set_held (s3.(held) ∖ {[LkProc np]}) s3). assert (s4.(held) = ∅) as Eh4 by (unfold s4; cbn; rewrite Eh3, Hh; set_solver +).
  destruct (res_elsewhere s2 s4 p N0 D0 l2 l3 (res_owned N2 ∅ [] pc) Hp) as [Hp4 Hv4]; [done | rewrite Eh4; set_solver + | | done | | |].
  - intros q [Hq| ->]; [|apply (r_tf _ _ _ _ _ Hc)]. apply (owned_page s2 pc.(p_pagetable) N2 ∅ l2); [apply (r_as _ _ _ _ _ Hc) |]. destruct Hq as [Hq|Hq]; [by apply elem_of_nil in Hq | by right].
  - eapply res_apart_mono; [|exact Hap]. intros q [[Hq|Hq]|Hq]; [by apply elem_of_nil in Hq | left; by right | by right].
  - eapply res_apart_mono; [|exact Hap]. intros q. apply Hl3.
  - exists s4, l3. split_and!; [done | done | | done | eapply same_view_trans; [exact Hv1 |]; by eapply same_view_trans | intros x; by rewrite Hl3, <- Hl2, Hl1].
    unfold s4. rewrite Eh3, Hh, difference_diag_L. unfold only_mem in *. rewrite Ho. by kstate.
Qed.

(** A process whose trapframe is written. *)
Lemma res_trapframe s s' c c' N D l : proc_res s c N D l -> s'.(freelist) = s.(freelist) -> LkKmem ∉ s'.(held) -> (forall x, outside x c.(p_trapframe) -> load8 s'.(mem) x = load8 s.(mem) x) ->
  c'.(p_pagetable) = c.(p_pagetable) -> c'.(p_trapframe) = c.(p_trapframe) -> c'.(p_sz) = c.(p_sz) ->
  proc_res s' c' N D l /\ (forall va, lookup_pte s'.(mem) N va = lookup_pte s.(mem) N va) /\ forall va, ubyte s'.(mem) D va = ubyte s.(mem) D va.
Proof.
  intros [Ha (T1 & T2 & T3) Hpg Hsz Htf] Ef Hlk Hm E1 E2 E3. destruct (as_other_write s c.(p_pagetable) N D l c.(p_trapframe) s'.(mem) Ha Htf Hm) as [Ha' Hl]. split_and!; [|done |].
  - split; rewrite ?E1, ?E2, ?E3; try done; [by eapply as_inv_ext |]. split_and!; [done | done |]. intros va Hva Hva4 Hd. rewrite Hl. by apply T3.
  - intros va. unfold ubyte. destruct (D !! PGROUNDDOWN va) as [q|] eqn:Ed; [|done]. cbn. f_equal. apply Hm. destruct Htf as (Ht & _ & _ & HtD).
    eapply (outside_pages _ _ q); [apply Ht | apply (as_va _ _ _ _ _ Ha _ _ Ed) | intros E; apply (HtD (PGROUNDDOWN va)); by rewrite E | dlia].
Qed.

(** The state fork() leaves, from the one after uvmcopy(). *)
Lemma fork_success s2 s' p pc i N0 D0 N D l np ip : proc_res s2 (set_p_sz p.(p_sz) pc) N D l -> proc_res s2 p N0 D0 l -> res_apart p N0 D0 (res_owned N D l pc) ->
  s' = set_held ∅ (set_procs (<[np := forked pc i p]> s2.(procs)) (set_itable (alter (fun x => set_i_ref (x.(i_ref) + 1) x) ip s2.(itable))
    (set_ftable (dup_refs s2.(ftable) p.(p_ofile)) (set_mem (tf_copied s2.(mem) pc.(p_trapframe) p.(p_trapframe)) s2)))) ->
  proc_res s' p N0 D0 l /\ same_view s2 s' p N0 D0 /\ proc_res s' (forked pc i p) N D l /\ (forall va, ubyte s'.(mem) D va = ubyte s2.(mem) D va) /\
  (forall va, lookup_pte s'.(mem) N va = lookup_pte s2.(mem) N va) /\ load64 s'.(mem) (pc.(p_trapframe) + TF_a0) = 0 /\
  forall k, 0 <= k < TF_size -> ~ TF_a0 <= k < TF_a0 + 8 -> load8 s'.(mem) (pc.(p_trapframe) + k) = load8 s2.(mem) (p.(p_trapframe) + k).
Proof.
  intros Hc Hp Hap Es'. pose proof (r_tf _ _ _ _ _ Hc) as (Htf & Htl & _). cbn in Htf, Htl. pose proof (r_tf _ _ _ _ _ Hp) as (Hptf & _). assert (pc.(p_trapframe) <> p.(p_trapframe)) as Hne.
  { intros E. apply (proj2 Hap). right. done. }
  destruct (trapframe_copied s2.(mem) pc.(p_trapframe) p.(p_trapframe) Htf Hptf Hne) as (Ha0 & Hcp & Hout). assert (s'.(mem) = tf_copied s2.(mem) pc.(p_trapframe) p.(p_trapframe)) as Em by (by rewrite Es').
  fold (tf_copied s2.(mem) pc.(p_trapframe) p.(p_trapframe)) in Ha0, Hcp, Hout. rewrite <- Em in Ha0, Hcp, Hout. assert (s'.(freelist) = s2.(freelist)) as Ef by (by rewrite Es'). assert (LkKmem ∉ s'.(held)) as Hlk by (rewrite Es'; apply not_elem_of_empty).
  destruct (res_trapframe s2 s' _ (forked pc i p) N D l Hc Ef Hlk Hout) as (Hc' & Hl' & Hb'); [done.. |].
  destruct (res_elsewhere s2 s' p N0 D0 l l (fun q => q = pc.(p_trapframe)) Hp) as [Hp' Hv']; [apply (r_as _ _ _ _ _ Hc') | done | by intros q -> | | | by eapply res_apart_free |].
  - intros x Hx. apply Hout. by apply Hx.
  - eapply res_apart_mono; [|exact Hap]. intros q ->. by right.
  - done.
Qed.

(** What fork() relies on: the process that calls it, and unused slots without files. *)
Record can_fork s (i : nat) p (ip : nat) N0 D0 l : Prop := {
  cf_cur : s.(cur) = Some i;
  cf_proc : s.(procs) !! i = Some p;
  cf_used : p.(p_state) <> UNUSED;
  cf_held : s.(held) = ∅;
  cf_procs : procs_ok s;
  cf_clean : unused_clean s;
  cf_nofiles j q : s.(procs) !! j = Some q -> q.(p_state) = UNUSED -> q.(p_ofile) = replicate NOFILE None;
  cf_res : proc_res s p N0 D0 l;
  cf_ofile : length p.(p_ofile) = NOFILE;
  cf_files : files_open s.(ftable) p.(p_ofile);
  cf_cwd : p.(p_cwd) = Some ip;
}.

Lemma forked_only s s1 s2 h ps ps' n t u m : s.(held) = ∅ -> only_mem (set_held h (set_procs ps (set_nextpid n s))) s1 -> only_mem s1 s2 ->
  only_mem (set_procs ps' (set_itable t (set_ftable u (set_nextpid n s)))) (set_held ∅ (set_procs ps' (set_itable t (set_ftable u (set_mem m s2))))).
Proof. intros Hh H1 H2. pose proof (only_mem_trans _ _ _ H1 H2) as H3. unfold only_mem in H3. rewrite H3. rewrite <- Hh. unfold only_mem. clear. by destruct s. Qed.

Lemma undone_only s s1 s2 s' h ps ps' n : s.(held) = ∅ -> only_mem (set_held h (set_procs ps (set_nextpid n s))) s1 -> only_mem s1 s2 -> only_mem (set_held ∅ (set_procs ps' s2)) s' ->
  only_mem (set_procs ps' (set_nextpid n s)) s'.
Proof. intros Hh H1 H2 H4. eapply only_mem_trans; [|exact H4]. pose proof (only_mem_trans _ _ _ H1 H2) as H3. unfold only_mem in H3. rewrite H3. rewrite <- Hh. unfold only_mem. clear. by destruct s. Qed.

(** fork() from the state [s1] in which allocproc() has made [pc] in slot [np]. *)
Lemma fork_allocated s s1 i p ip N0 D0 l np q tf pt N l1 : can_fork s i p ip N0 D0 l -> s.(procs) !! np = Some q -> q.(p_state) = UNUSED ->
  let pc := fresh_proc q s.(nextpid) tf pt in
  only_mem (set_held ({[LkProc np]} ∪ s.(held)) (set_procs (<[np := pc]> s.(procs)) (set_nextpid (s32 (s.(nextpid) + 1)) s))) s1 ->
  (forall a, (forall x, x ∈ l -> outside a x) -> load8 s1.(mem) a = load8 s.(mem) a) -> proc_res s1 pc N ∅ l1 -> (length l <= length l1 + 6)%nat -> (forall x, x ∈ l <-> res_owned N ∅ l1 pc x) ->
  exists r s' l', (c ← uvmcopy p.(p_pagetable) pc.(p_pagetable) p.(p_sz); if c <? 0 then freeproc np;; release (LkProc np);; mret (-1) else fork_rest i np p pc) s1 = Ok r s' /\ s'.(held) = ∅ /\
    proc_res s' p N0 D0 l' /\ same_view s s' p N0 D0 /\ (fork_failed s l np q p.(p_sz) r s' l' \/ fork_done s l i np p q N0 D0 ip r s' l').
Proof.
  intros [Hcur Hpi Hused Hheld Hlen Hcl Hnf Hres Hof Hfo Hcwd] Hq Hu pc Ho Hf Hc Hlen1 Hl1. assert (i <> np) as Hne by (intros ->; congruence).
  assert (res_apart p N0 D0 (res_owned N ∅ l1 pc)) as Hap by (eapply res_apart_mono; [|by apply (res_apart_free s)]; intros x; apply Hl1).
  pose proof (only_mem_held _ _ Ho) as Eh. pose proof (only_mem_procs _ _ Ho) as Ep. cbn in Eh, Ep. rewrite Hheld, union_empty_r_L in Eh.
  destruct (parent_allocated s s1 p N0 D0 l l1 Hres) as [Hp1 Hv1]; [apply (r_as _ _ _ _ _ Hc) | rewrite Eh; set_solver + | intros x Hx; apply Hl1; left; by left | done |].
  destruct (fork_copy s1 p pc N0 D0 N l1 Hc Hp1 Hap) as (r & s2 & N2 & D2 & l2 & E2 & Ho2 & Hp2 & Hv2 & Hown & _ & Hr). erewrite bind_Ok by exact E2.
  pose proof (only_mem_held _ _ Ho2) as Eh2. pose proof (only_mem_procs _ _ Ho2) as Ep2. rewrite Eh in Eh2. rewrite Ep in Ep2. pose proof (lookup_lt_Some _ _ _ Hq) as Hlt.
  assert (s2.(procs) !! np = Some pc) as Hnp by (rewrite Ep2; by apply list_lookup_insert_eq). assert (res_apart p N0 D0 (res_owned N2 D2 l2 pc)) as Hap2 by (eapply res_apart_mono; [|exact Hap]; intros x; apply Hown).
  destruct Hr as [(-> & Hc2 & Hb2 & Hfl2)|(-> & -> & Hc2 & Hwhy)]; cbn [Z.ltb]; cbn iota.
  - assert (s2.(ftable) = s.(ftable) /\ s2.(itable) = s.(itable)) as [Eft Eit] by (unfold only_mem in Ho, Ho2; rewrite Ho2, Ho; done).
    assert (s2.(procs) !! i = Some p) as Hpi2 by (rewrite Ep2, list_lookup_insert_ne by congruence; done). assert (files_open s2.(ftable) p.(p_ofile)) as Hfo2 by (by rewrite Eft).
    pose proof (fork_rest_run s2 i np p pc ip Hpi2 Hnp Hne Eh2 Hof (Hnf np q Hq Hu) Hfo2 Hcwd) as E'.
    match type of E' with _ = Ok _ ?x => remember x as s' eqn:Es' end. destruct (fork_success s2 s' p pc i N0 D0 N2 D2 l2 np ip Hc2 Hp2 Hap2 Es') as (Hp' & Hv' & Hc' & Hb' & Hl' & Ha0 & Htf).
    exists s.(nextpid), s', l2. split_and!; [exact E' | by rewrite Es' | done | eapply same_view_trans; [exact Hv1 |]; by eapply same_view_trans |]. right. split; [done |]. exists tf, pt, N2, D2. fold pc. split_and!.
    + rewrite Ep2, Eft, Eit, list_insert_insert_eq in Es'. subst s'. by eapply forked_only.
    + done.
    + intros x. by rewrite Hl1, Hown.
    + intros va Hva. by rewrite Hb', Hb2, (sv_byte _ _ _ _ _ Hv1).
    + intros va Hva. by rewrite Hl', Hfl2, (sv_pte _ _ _ _ _ Hv1).
    + done.
    + intros k Hk Hn. rewrite Htf by done. rewrite (sv_tf _ _ _ _ _ Hv2), (sv_tf _ _ _ _ _ Hv1) by (unfold TF_size in Hk; lia). done.
  - destruct (fork_undo s s1 s2 p pc N0 D0 N N2 l l1 l2 np Hc2 Hp2 Hnp Eh2 Hap2 Hl1 Hown Hv1 Hv2) as (s' & l' & E' & Eh' & Ho' & Hp' & Hv' & Hl').
    exists (-1), s', l'. split_and!; [exact E' | done | done | done |]. left. split; [done | | done | lia]. exists pc.(p_context).
    rewrite Ep2, list_insert_insert_eq in Ho'. by eapply undone_only.
Qed.

(** C20. fork() by a process with an intact address space, open files and a current directory, no lock held.  It returns
    without a panic and with no lock held, and the memory, the page table and the registers of the parent are
    unchanged.  When every slot is in use it returns -1 and nothing has changed.  Otherwise it takes the first unused
    slot.  Either it returns the next pid, and the child in the slot is RUNNABLE, has the parent's bytes at every address
    with the same permissions, on pages of its own taken from the free list, the parent's registers but a0, which is
    0, and its open files, current directory and name, with one more reference to each file and to the
    directory.  Or it returns -1 for lack of memory: a pid is used up, the slot is as freeproc() leaves it (unused, and
    otherwise as before but for the saved context and the fields that freeproc() clears), every other slot is
    unchanged, and the free pages are the same as before. *)
Theorem fork_spec s i p ip N0 D0 l : can_fork s i p ip N0 D0 l ->
  exists r s' l', fork s = Ok r s' /\ s'.(held) = ∅ /\ proc_res s' p N0 D0 l' /\ same_view s s' p N0 D0 /\
    match list_find (fun q => q.(p_state) = UNUSED) s.(procs) with
    | None => r = -1 /\ s' = s
    | Some (np, q) => fork_failed s l np q p.(p_sz) r s' l' \/ fork_done s l i np p q N0 D0 ip r s' l'
    end.
Proof.
  intros Hcan. pose proof Hcan as [Hcur Hpi Hused Hheld Hlen Hcl Hnf Hres Hof Hfo Hcwd]. unfold fork. erewrite bind_Ok by (by apply myproc_Ok).
  pose proof (allocproc_run s l (pi_kmem _ _ _ _ (as_pt _ _ _ _ _ (r_as _ _ _ _ _ Hres))) Hlen Hcl ltac:(intros; rewrite Hheld; set_solver +) ltac:(rewrite Hheld; set_solver +) ltac:(rewrite Hheld; set_solver +)) as Hal.
  destruct (list_find _ s.(procs)) as [[np q]|] eqn:Ef.
  - apply list_find_Some in Ef as (Hq & Hu & _). destruct Hal as (r & s1 & E1 & Hf & [(-> & tf & pt & N & l1 & Ho & Hc & Hlen1 & Hl1)|(-> & Hwhy & l1 & Ho & Hkm & Hl1)]); erewrite bind_Ok by exact E1.
    + pose proof (only_mem_procs _ _ Ho) as Ep. cbn in Ep. assert (i <> np) as Hne by (intros ->; congruence). pose proof (lookup_lt_Some _ _ _ Hq) as Hlt.
      cbv beta iota. rewrite (bind_Ok (get_proc i) _ s1 p s1) by (apply get_proc_Ok; rewrite Ep, list_lookup_insert_ne by congruence; done).
      rewrite (bind_Ok (get_proc np) _ s1 (fresh_proc q s.(nextpid) tf pt) s1) by (apply get_proc_Ok; rewrite Ep; by apply list_lookup_insert_eq).
      exact (fork_allocated s s1 i p ip N0 D0 l np q tf pt N l1 Hcan Hq Hu Ho Hf Hc Hlen1 Hl1).
    + pose proof (only_mem_held _ _ Ho) as Eh. cbn in Eh. destruct (parent_allocated s s1 p N0 D0 l l1 Hres Hkm) as [Hp1 Hv1]; [rewrite Eh, Hheld; set_solver + | intros x; apply Hl1 | done |].
      exists (-1), s1, l1. split_and!; [done | by rewrite Eh | done | done |]. left. split; [done | by exists q.(p_context) | done |]. assert (0 <= PGROUNDUP p.(p_sz) / 4096) by (destruct (below_trapframe _ (r_sz _ _ _ _ _ Hres)) as (? & _); dlia). lia.
  - erewrite bind_Ok by exact Hal. exists (-1), s, l. split_and!; try done.
Qed.
End fork.
