(* ===== verification/Exec.v ===== *)
(** * exec() (kernel/exec.c) *)

From S2P Require Import Prelude State Mem Bytes Riscv Kalloc Vm PageTable Uvm Sched Sleeplock Bio Log Proc Fs File Process.

Definition ELF_MAGIC : Z := 0x464C457F.
Definition ELF_PROG_LOAD : Z := 1.
Definition MAXARG : nat := 32.
Definition USERSTACK : Z := 1.

Definition get_u64 (d : list Z) (off : Z) : Z := le_value (get_bytes d off 8).

(** struct elfhdr and struct proghdr: sizes, and the offsets of the fields exec() uses *)
Definition sizeof_elfhdr : Z := 64.
Definition elf_magic (h : list Z) : Z := get_u32 h 0.
Definition elf_entry (h : list Z) : Z := get_u64 h 24.
Definition elf_phoff (h : list Z) : Z := get_u64 h 32.
Definition elf_phnum (h : list Z) : Z := get_u16 h 56.
Definition sizeof_proghdr : Z := 56.
Definition ph_type (h : list Z) : Z := get_u32 h 0.
Definition ph_flags (h : list Z) : Z := get_u32 h 4.
Definition ph_off (h : list Z) : Z := get_u64 h 8.
Definition ph_vaddr (h : list Z) : Z := get_u64 h 16.
Definition ph_filesz (h : list Z) : Z := get_u64 h 32.
Definition ph_memsz (h : list Z) : Z := get_u64 h 40.

Definition flags2perm (flags : Z) : Z :=
  let perm := if negb (Z.land flags 0x1 =? 0) then PTE_X else 0 in
  if negb (Z.land flags 0x2 =? 0) then Z.lor perm PTE_W else perm.

Section exec.
Context `{Symbols} {P : Patience}.

(** for (i = 0; i < sz; i += PGSIZE) *)
Fixpoint loadseg_loop (fuel : nat) (pagetable va : Z) (ip : nat) (offset sz i : Z) : M kernel Z :=
  match fuel with
  | O => fun _ => Timeout
  | S fuel' =>
      if i <? sz then
        pa ← walkaddr pagetable (u64 (va + i));
        if pa =? 0 then panic "loadseg: address should exist" else
        let n := if sz - i <? PGSIZE then sz - i else PGSIZE in
        '(r, _) ← readi ip (ToKernel pa) (u32 (offset + i)) n;
        if negb (u32 r =? n) then mret (-1) else
        loadseg_loop fuel' pagetable va ip offset sz (i + PGSIZE)
      else mret 0
  end.

Definition loadseg (pagetable va : Z) (ip : nat) (offset sz : Z) : M kernel Z :=
  loadseg_loop (Z.to_nat (sz / PGSIZE) + 2) pagetable va ip offset sz 0.

(** for (i = 0, off = elf.phoff; i < elf.phnum; i++, off += sizeof(ph)): [false] is
    goto bad; the value of sz *)
Fixpoint load_program (n : nat) (pagetable : Z) (ip : nat) (off sz : Z) : M kernel (bool * Z) :=
  match n with
  | O => mret (true, sz)
  | S n' =>
      '(r, ph) ← readi ip ToLocal (u32 off) sizeof_proghdr;
      if negb (r =? sizeof_proghdr) then mret (false, sz) else
      if negb (ph_type ph =? ELF_PROG_LOAD) then load_program n' pagetable ip (off + sizeof_proghdr) sz else
      if ph_memsz ph <? ph_filesz ph then mret (false, sz) else
      if u64 (ph_vaddr ph + ph_memsz ph) <? ph_vaddr ph then mret (false, sz) else
      if negb (ph_vaddr ph mod PGSIZE =? 0) then mret (false, sz) else
      sz1 ← uvmalloc pagetable sz (u64 (ph_vaddr ph + ph_memsz ph)) (flags2perm (ph_flags ph));
      if sz1 =? 0 then mret (false, sz) else
      r ← loadseg pagetable (ph_vaddr ph) ip (u32 (ph_off ph)) (u32 (ph_filesz ph));
      if r <? 0 then mret (false, sz1) else
      load_program n' pagetable ip (off + sizeof_proghdr) sz1
  end.

(** for (argc = 0; argv[argc]; argc++): push the strings; [None] is goto bad *)
Fixpoint push_args (pagetable : Z) (argv : list (list Z)) (argc : nat) (sp stackbase : Z) (ustack : list Z) :
    M kernel (option (Z * list Z)) :=
  match argv with
  | [] => mret (Some (sp, ustack))
  | a :: argv' =>
      if (MAXARG <=? argc)%nat then mret None else
      let sp := u64 (sp - (Z.of_nat (length a) + 1)) in
      let sp := sp - sp mod 16 in
      if sp <? stackbase then mret None else
      r ← copyout pagetable sp (a ++ [0]);
      if r <? 0 then mret None else
      push_args pagetable argv' (argc + 1) sp stackbase (ustack ++ [sp])
  end.

(** for (last = s = path; *s; s++) if ( *s == '/') last = s+1; *)
Fixpoint last_elem (last s : list Z) : list Z :=
  match s with
  | [] => last
  | c :: s' => if c =? slash then last_elem s' s' else last_elem last s'
  end.

(** bad: *)
Definition exec_bad (pagetable sz : Z) (ip : option nat) : M kernel Z :=
  when (negb (pagetable =? 0)) (proc_freepagetable pagetable sz);;
  match ip with Some ip => iunlockput ip;; end_op | None => mret tt end;;
  mret (-1).

(** From "p = myproc()" on: the stack, the arguments, and the switch to the new image. *)
Definition exec_commit (path : list Z) (argv : list (list Z)) (elf : list Z) (pagetable sz : Z) : M kernel Z :=
  i ← myproc;
  p ← get_proc i;
  let oldsz := p.(p_sz) in
  let sz := PGROUNDUP sz in
  sz1 ← uvmalloc pagetable sz (u64 (sz + (USERSTACK + 1) * PGSIZE)) PTE_W;
  if sz1 =? 0 then exec_bad pagetable sz None else
  let sz := sz1 in
  uvmclear pagetable (u64 (sz - (USERSTACK + 1) * PGSIZE));;
  let sp := sz in
  let stackbase := sp - USERSTACK * PGSIZE in
  r ← push_args pagetable argv 0 sp stackbase [];
  match r with
  | None => exec_bad pagetable sz None
  | Some (sp, ustack) =>
      let argc := Z.of_nat (length ustack) in
      let sp := u64 (sp - (argc + 1) * 8) in
      let sp := sp - sp mod 16 in
      if sp <? stackbase then exec_bad pagetable sz None else
      r ← copyout pagetable sp (concat (le_bytes 8 <$> (ustack ++ [0])));
      if r <? 0 then exec_bad pagetable sz None else
      wr64 (p.(p_trapframe) + TF_a0 + 8) sp;;
      upd_proc i (fun p => set_p_name (safestrcpy_bytes p.(p_name) (last_elem path path)) p);;
      let oldpagetable := p.(p_pagetable) in
      upd_proc i (set_p_pagetable pagetable);;
      upd_proc i (set_p_sz sz);;
      wr64 (p.(p_trapframe) + TF_epc) (elf_entry elf);;
      wr64 (p.(p_trapframe) + TF_sp) sp;;
      proc_freepagetable oldpagetable oldsz;;
      mret argc
  end.

Definition exec (path : list Z) (argv : list (list Z)) : M kernel Z :=
  i ← myproc;
  begin_op;;
  ip ← namei path;
  match ip with
  | None => end_op;; mret (-1)
  | Some ip =>
      ilock (Some ip);;
      '(r, elf) ← readi ip ToLocal 0 sizeof_elfhdr;
      if negb (r =? sizeof_elfhdr) then exec_bad 0 0 (Some ip) else
      if negb (elf_magic elf =? ELF_MAGIC) then exec_bad 0 0 (Some ip) else
      pagetable ← proc_pagetable i;
      if pagetable =? 0 then exec_bad 0 0 (Some ip) else
      '(ok, sz) ← load_program (Z.to_nat (elf_phnum elf)) pagetable ip (s32 (elf_phoff elf)) 0;
      if negb ok then exec_bad pagetable sz (Some ip) else
      iunlockput ip;;
      end_op;;
      exec_commit path argv elf pagetable sz
  end.
End exec.
