(* ===== verification/Syscall.v ===== *)
(** * System call arguments (kernel/syscall.c)

    fetchaddr(), fetchstr() and the arg functions.  A local variable of the C code
    that is not initialised holds some value, a parameter of the model: argint()
    leaves it there when the argument is negative. *)

From S2P Require Import Prelude State Mem Bytes Riscv Kalloc Vm PageTable Uvm Sched Proc.

(** What an uninitialised local variable holds: an int, the bytes of a struct. *)
Class Stack := { stack_junk : Z; stack_bytes : list Z }.

Definition TF_arg (n : Z) : Z := TF_a0 + 8 * n.

Section syscall.
Context {L : Linker}.

(** The result and *ip. *)
Definition fetchaddr (addr : Z) : M kernel (Z * Z) :=
  i ← myproc;
  p ← get_proc i;
  if (p.(p_sz) <=? addr) || (p.(p_sz) <? u64 (addr + 8)) then mret (-1, 0) else
  '(r, bs) ← copyin p.(p_pagetable) addr 8;
  if negb (r =? 0) then mret (-1, 0) else mret (0, le_value bs).

(** strlen() of a buffer that copyinstr() filled *)
Fixpoint buf_string (bs : list Z) : list Z :=
  match bs with [] => [] | c :: bs' => if c =? 0 then [] else c :: buf_string bs' end.

(** The result and the string in buf. *)
Definition fetchstr (addr max : Z) : M kernel (Z * list Z) :=
  i ← myproc;
  p ← get_proc i;
  '(r, bs) ← copyinstr p.(p_pagetable) addr max;
  if r <? 0 then mret (-1, []) else mret (Z.of_nat (length (buf_string bs)), buf_string bs).

Definition argraw (n : Z) : M kernel Z :=
  i ← myproc;
  p ← get_proc i;
  if (0 <=? n) && (n <=? 5) then rd64 (p.(p_trapframe) + TF_arg n) else panic "argraw".

(** [ip] is the value of the variable before the call; the result and its value after. *)
Definition argint (n ip : Z) : M kernel (Z * Z) :=
  a ← argraw n;
  let raw := s32 a in
  if raw <? 0 then mret (-1, ip) else mret (0, raw).

Definition argaddr (n : Z) : M kernel Z := argraw n.

Definition argstr (n max : Z) : M kernel (Z * list Z) :=
  addr ← argaddr n;
  fetchstr addr max.
End syscall.
