(* ===== verification/Sysproc.v ===== *)
(** * System calls on processes, semaphores and shared memory (kernel/sysproc.c) *)

From S2P Require Import Prelude State Mem Bytes Riscv Kalloc Vm PageTable Uvm Sched Sleeplock Bio Log Pipe Sem Proc Fs File Process Syscall.

(** An int that a system call returns in a 64-bit register. *)
Definition ret (z : Z) : Z := u64 z.

Section sysproc.
Context `{Symbols} {P : Patience} {D : Devsw} {J : Stack}.

Definition sys_exit : M kernel Z :=
  '(_, n) ← argint 0 stack_junk;
  exit n;;
  mret 0.

Definition sys_getpid : M kernel Z :=
  i ← myproc;
  p ← get_proc i;
  mret (ret p.(p_pid)).

Definition sys_fork : M kernel Z := r ← fork; mret (ret r).

Definition sys_wait : M kernel Z :=
  p ← argaddr 0;
  r ← wait (S patience) p;
  mret (ret r).

Definition sys_sbrk : M kernel Z :=
  '(_, n) ← argint 0 stack_junk;
  i ← myproc;
  p ← get_proc i;
  let addr := p.(p_sz) in
  r ← growproc n;
  if r <? 0 then mret (ret (-1)) else mret addr.

(** while (ticks - ticks0 < n) *)
Fixpoint sleep_loop (fuel : nat) (ticks0 n : Z) : M kernel Z :=
  match fuel with
  | O => fun _ => Timeout
  | S fuel' =>
      t ← gets ticks;
      if u32 (t - ticks0) <? n then
        i ← myproc;
        k ← killed i;
        if negb (k =? 0) then release LkTicks;; mret (ret (-1)) else
        sleep (Some ChTicks) LkTicks;;
        sleep_loop fuel' ticks0 n
      else release LkTicks;; mret 0
  end.

Definition sys_sleep : M kernel Z :=
  '(_, n) ← argint 0 stack_junk;
  let n := if n <? 0 then 0 else n in
  acquire LkTicks;;
  ticks0 ← gets ticks;
  sleep_loop (S patience) ticks0 n.

Definition sys_kill : M kernel Z :=
  '(_, pid) ← argint 0 stack_junk;
  r ← kill pid;
  mret (ret r).

Definition sys_uptime : M kernel Z :=
  acquire LkTicks;;
  xticks ← gets ticks;
  release LkTicks;;
  mret xticks.

Definition sys_waitpid : M kernel Z :=
  '(_, pid) ← argint 0 stack_junk;
  status ← argaddr 1;
  '(_, options) ← argint 2 stack_junk;
  r ← waitpid (S patience) pid status options;
  mret (ret r).

Definition sys_sysinfo : M kernel Z :=
  kinfo ← argaddr 0;
  r ← sysinfo stack_bytes (S npages) kinfo;
  mret (ret r).

Definition sys_signal : M kernel Z :=
  '(_, signum) ← argint 0 stack_junk;
  handler ← argaddr 1;
  if negb (signum =? SIGINT) then mret (ret (-1)) else
  i ← myproc;
  upd_proc i (fun p => set_p_sig_handlers (<[Z.to_nat SIGINT := handler]> p.(p_sig_handlers)) p);;
  mret 0.

(** sizeof(struct semaphore): value, lock, queue[NPROC], head, tail *)
Definition sizeof_semaphore : Z := 8 + 24 + 8 * Z.of_nat NPROC + 8.

(** The calls copy the user's struct in and pass the copy on; no function of
    semaphore.c uses it. *)
Definition sys_sem_init : M kernel Z :=
  semptr ← argaddr 0;
  '(_, value) ← argint 1 stack_junk;
  i ← myproc;
  p ← get_proc i;
  '(r, ksem) ← copyin p.(p_pagetable) semptr sizeof_semaphore;
  if r <? 0 then mret (ret (-1)) else
  sem_init value;;
  p ← get_proc i;
  r ← copyout p.(p_pagetable) semptr ksem;
  if r <? 0 then mret (ret (-1)) else mret 0.

Definition sys_sem_wait : M kernel Z :=
  semptr ← argaddr 0;
  i ← myproc;
  p ← get_proc i;
  '(r, ksem) ← copyin p.(p_pagetable) semptr sizeof_semaphore;
  if r <? 0 then mret (ret (-1)) else
  sem_wait;;
  p ← get_proc i;
  r ← copyout p.(p_pagetable) semptr ksem;
  if r <? 0 then mret (ret (-1)) else mret 0.

Definition sys_sem_post : M kernel Z :=
  semptr ← argaddr 0;
  i ← myproc;
  p ← get_proc i;
  '(r, ksem) ← copyin p.(p_pagetable) semptr sizeof_semaphore;
  if r <? 0 then mret (ret (-1)) else
  sem_post;;
  p ← get_proc i;
  r ← copyout p.(p_pagetable) semptr ksem;
  if r <? 0 then mret (ret (-1)) else mret 0.

(** The parenthesis of the last copyout() makes its length sizeof(ksem) < 0, that is,
    zero, and its result the truth value of the call. *)
Definition sys_sem_destroy : M kernel Z :=
  semptr ← argaddr 0;
  i ← myproc;
  p ← get_proc i;
  '(r, ksem) ← copyin p.(p_pagetable) semptr sizeof_semaphore;
  if r <? 0 then mret (ret (-1)) else
  sem_destroy;;
  p ← get_proc i;
  r ← copyout p.(p_pagetable) semptr [];
  if negb (r =? 0) then mret (ret (-1)) else mret 0.
End sysproc.
