(* ===== verification/Sysfile.v ===== *)
(** * System calls on files (kernel/sysfile.c) *)

From S2P Require Import Prelude State Mem Bytes Riscv Kalloc Vm PageTable Uvm Sched Sleeplock Bio Log Pipe Proc Fs File Process Exec Syscall Sysproc.

Definition MAXPATH : Z := 128.
Definition O_RDONLY : Z := 0x000.
Definition O_WRONLY : Z := 0x001.
Definition O_RDWR : Z := 0x002.
Definition O_CREATE : Z := 0x200.
Definition O_TRUNC : Z := 0x400.

Definition flag (omode f : Z) : bool := negb (Z.land omode f =? 0).

Section sysfile.
Context `{Symbols} {P : Patience} {D : Devsw} {J : Stack}.

(** The descriptor and the struct file; [None] is the result -1. *)
Definition argfd (n : Z) : M kernel (option (Z * nat)) :=
  '(_, fd) ← argint n stack_junk;
  if (fd <? 0) || (Z.of_nat NOFILE <=? fd) then mret None else
  i ← myproc;
  p ← get_proc i;
  match p.(p_ofile) !! Z.to_nat fd with
  | Some (Some f) => mret (Some (fd, f))
  | _ => mret None
  end.

Definition set_ofile (i : nat) (fd : nat) (f : option nat) : M kernel unit :=
  upd_proc i (fun p => set_p_ofile (<[fd := f]> p.(p_ofile)) p).

Definition fdalloc (f : nat) : M kernel Z :=
  i ← myproc;
  r ← for_return NOFILE 0 (fun fd =>
    p ← get_proc i;
    match p.(p_ofile) !! fd with
    | Some None => set_ofile i fd (Some f);; mret (Some (Z.of_nat fd))
    | _ => mret None
    end);
  match r with Some fd => mret fd | None => mret (-1) end.

Definition sys_dup : M kernel Z :=
  r ← argfd 0;
  match r with
  | None => mret (ret (-1))
  | Some (_, f) =>
      fd ← fdalloc f;
      if fd <? 0 then mret (ret (-1)) else
      filedup f;;
      mret (ret fd)
  end.

Definition sys_read : M kernel Z :=
  p ← argaddr 1;
  '(_, n) ← argint 2 stack_junk;
  r ← argfd 0;
  match r with
  | None => mret (ret (-1))
  | Some (_, f) => r ← fileread f p n; mret (ret r)
  end.

Definition sys_write : M kernel Z :=
  p ← argaddr 1;
  '(_, n) ← argint 2 stack_junk;
  r ← argfd 0;
  match r with
  | None => mret (ret (-1))
  | Some (_, f) => r ← filewrite f p n; mret (ret r)
  end.

Definition sys_close : M kernel Z :=
  r ← argfd 0;
  match r with
  | None => mret (ret (-1))
  | Some (fd, f) =>
      i ← myproc;
      set_ofile i (Z.to_nat fd) None;;
      fileclose f;;
      mret 0
  end.

Definition sys_fstat : M kernel Z :=
  st ← argaddr 1;
  r ← argfd 0;
  match r with
  | None => mret (ret (-1))
  | Some (_, f) => r ← filestat stack_bytes f st; mret (ret r)
  end.

Definition name_junk : list Z := replicate (Z.to_nat DIRSIZ) 0.

Definition sys_link : M kernel Z :=
  '(r, old) ← argstr 0 MAXPATH;
  if r <? 0 then mret (ret (-1)) else
  '(r, new) ← argstr 1 MAXPATH;
  if r <? 0 then mret (ret (-1)) else
  begin_op;;
  ip ← namei old;
  match ip with
  | None => end_op;; mret (ret (-1))
  | Some ip =>
      ilock (Some ip);;
      x ← get_inode ip;
      if x.(i_type) =? T_DIR then iunlockput ip;; end_op;; mret (ret (-1)) else
      upd_inode ip (fun x => set_i_nlink (s16 (x.(i_nlink) + 1)) x);;
      iupdate ip;;
      iunlock (Some ip);;
      let bad :=
        ilock (Some ip);;
        upd_inode ip (fun x => set_i_nlink (s16 (x.(i_nlink) - 1)) x);;
        iupdate ip;;
        iunlockput ip;;
        end_op;;
        mret (ret (-1)) in
      '(dp, name) ← nameiparent new name_junk;
      match dp with
      | None => bad
      | Some dp =>
          ilock (Some dp);;
          x ← get_inode ip;
          d ← get_inode dp;
          if negb (d.(i_dev) =? x.(i_dev)) then iunlockput dp;; bad else
          r ← dirlink dp name x.(i_inum);
          if r <? 0 then iunlockput dp;; bad else
          iunlockput dp;;
          iput ip;;
          end_op;;
          mret 0
      end
  end.

(** for (off = 2*sizeof(de); off < dp->size; off += sizeof(de)) *)
Fixpoint isdirempty_loop (fuel : nat) (dp : nat) (off : Z) : M kernel bool :=
  match fuel with
  | O => fun _ => Timeout
  | S fuel' =>
      x ← get_inode dp;
      if off <? x.(i_size) then
        '(r, de) ← readi dp ToLocal off sizeof_dirent;
        if negb (r =? sizeof_dirent) then panic "isdirempty: readi" else
        if negb (de_inum de =? 0) then mret false else
        isdirempty_loop fuel' dp (off + sizeof_dirent)
      else mret true
  end.

Definition isdirempty (dp : nat) : M kernel bool :=
  x ← get_inode dp;
  isdirempty_loop (Z.to_nat (x.(i_size) / sizeof_dirent) + 2) dp (2 * sizeof_dirent).

Definition sys_unlink : M kernel Z :=
  '(r, path) ← argstr 0 MAXPATH;
  if r <? 0 then mret (ret (-1)) else
  begin_op;;
  '(dp, name) ← nameiparent path name_junk;
  match dp with
  | None => end_op;; mret (ret (-1))
  | Some dp =>
      ilock (Some dp);;
      let bad := iunlockput dp;; end_op;; mret (ret (-1)) in
      if (namecmp name [46] =? 0) || (namecmp name [46; 46] =? 0) then bad else
      r ← dirlookup dp name;
      match r with
      | None => bad
      | Some (ip, off) =>
          ilock (Some ip);;
          x ← get_inode ip;
          if x.(i_nlink) <? 1 then panic "unlink: nlink < 1" else
          empty ← (if x.(i_type) =? T_DIR then isdirempty ip else mret true);
          if negb empty then iunlockput ip;; bad else
          r ← writei dp (FromLocal (replicate 16 0)) off sizeof_dirent;
          if negb (r =? sizeof_dirent) then panic "unlink: writei" else
          when (x.(i_type) =? T_DIR)
            (upd_inode dp (fun d => set_i_nlink (s16 (d.(i_nlink) - 1)) d);;
             iupdate dp);;
          iunlockput dp;;
          upd_inode ip (fun x => set_i_nlink (s16 (x.(i_nlink) - 1)) x);;
          iupdate ip;;
          iunlockput ip;;
          end_op;;
          mret 0
      end
  end.

(** dirlink() of "." and ".." for a new directory: the result of the condition *)
Definition link_dots (type : Z) (ip : nat) (inum dinum : Z) : M kernel bool :=
  if type =? T_DIR then
    r ← dirlink ip [46] inum;
    if r <? 0 then mret false else
    r ← dirlink ip [46; 46] dinum;
    mret (negb (r <? 0))
  else mret true.

Definition create (path : list Z) (type major minor : Z) : M kernel (option nat) :=
  '(dp, name) ← nameiparent path name_junk;
  match dp with
  | None => mret None
  | Some dp =>
      ilock (Some dp);;
      r ← dirlookup dp name;
      match r with
      | Some (ip, _) =>
          iunlockput dp;;
          ilock (Some ip);;
          x ← get_inode ip;
          if (type =? T_FILE) && ((x.(i_type) =? T_FILE) || (x.(i_type) =? T_DEVICE)) then mret (Some ip) else
          iunlockput ip;;
          mret None
      | None =>
          d ← get_inode dp;
          r ← ialloc d.(i_dev) type;
          match r with
          | None => iunlockput dp;; mret None
          | Some ip =>
              ilock (Some ip);;
              upd_inode ip (fun x => set_i_nlink 1 (set_i_minor minor (set_i_major major x)));;
              iupdate ip;;
              let fail :=
                upd_inode ip (set_i_nlink 0);;
                iupdate ip;;
                iunlockput ip;;
                iunlockput dp;;
                mret None in
              x ← get_inode ip;
              ok ← link_dots type ip x.(i_inum) d.(i_inum);
              if negb ok then fail else
              r ← dirlink dp name x.(i_inum);
              if r <? 0 then fail else
              when (type =? T_DIR)
                (upd_inode dp (fun d => set_i_nlink (s16 (d.(i_nlink) + 1)) d);;
                 iupdate dp);;
              iunlockput dp;;
              mret (Some ip)
          end
      end
  end.
(** The inode sys_open() opens, locked; [None] is the return of -1. *)
Definition open_inode (path : list Z) (omode : Z) : M kernel (option nat) :=
  if flag omode O_CREATE then
    ip ← create path T_FILE 0 0;
    match ip with
    | None => end_op;; mret None
    | Some ip => mret (Some ip)
    end
  else
    ip ← namei path;
    match ip with
    | None => end_op;; mret None
    | Some ip =>
        ilock (Some ip);;
        x ← get_inode ip;
        if (x.(i_type) =? T_DIR) && negb (omode =? O_RDONLY) then
          iunlockput ip;; end_op;; mret None
        else mret (Some ip)
    end.

Definition sys_open : M kernel Z :=
  '(_, omode) ← argint 1 stack_junk;
  '(n, path) ← argstr 0 MAXPATH;
  if n <? 0 then mret (ret (-1)) else
  begin_op;;
  r ← open_inode path omode;
  match r with
  | None => mret (ret (-1))
  | Some ip =>
      let bad := iunlockput ip;; end_op;; mret (ret (-1)) in
      x ← get_inode ip;
      if (x.(i_type) =? T_DEVICE) && ((x.(i_major) <? 0) || (NDEV <=? x.(i_major))) then bad else
      f ← filealloc;
      match f with
      | None => bad
      | Some f =>
          fd ← fdalloc f;
          if fd <? 0 then fileclose f;; bad else
          (if x.(i_type) =? T_DEVICE then
             upd_file f (fun y => set_f_major x.(i_major) (set_f_type FD_DEVICE y))
           else
             upd_file f (fun y => set_f_off 0 (set_f_type FD_INODE y)));;
          upd_file f (fun y =>
            set_f_writable (if flag omode O_WRONLY || flag omode O_RDWR then 1 else 0)
              (set_f_readable (if flag omode O_WRONLY then 0 else 1) (set_f_ip (Some ip) y)));;
          when (flag omode O_TRUNC && (x.(i_type) =? T_FILE)) (itrunc ip);;
          iunlock (Some ip);;
          end_op;;
          mret (ret fd)
      end
  end.

Definition sys_mkdir : M kernel Z :=
  begin_op;;
  '(r, path) ← argstr 0 MAXPATH;
  ip ← (if r <? 0 then mret None else create path T_DIR 0 0);
  match ip with
  | None => end_op;; mret (ret (-1))
  | Some ip => iunlockput ip;; end_op;; mret 0
  end.

Definition sys_mknod : M kernel Z :=
  begin_op;;
  '(_, major) ← argint 1 stack_junk;
  '(_, minor) ← argint 2 stack_junk;
  '(r, path) ← argstr 0 MAXPATH;
  ip ← (if r <? 0 then mret None else create path T_DEVICE (s16 major) (s16 minor));
  match ip with
  | None => end_op;; mret (ret (-1))
  | Some ip => iunlockput ip;; end_op;; mret 0
  end.

Definition sys_chdir : M kernel Z :=
  i ← myproc;
  begin_op;;
  '(r, path) ← argstr 0 MAXPATH;
  ip ← (if r <? 0 then mret None else namei path);
  match ip with
  | None => end_op;; mret (ret (-1))
  | Some ip =>
      ilock (Some ip);;
      x ← get_inode ip;
      if negb (x.(i_type) =? T_DIR) then iunlockput ip;; end_op;; mret (ret (-1)) else
      iunlock (Some ip);;
      p ← get_proc i;
      match p.(p_cwd) with Some c => iput c | None => panic "cwd" end;;
      end_op;;
      upd_proc i (set_p_cwd (Some ip));;
      mret 0
  end.

(** for (i = 0; ; i++): the pages of argv and their strings; [false] is goto bad *)
Fixpoint fetch_args (n : nat) (i : Z) (uargv : Z) (pages : list Z) (argv : list (list Z)) : M kernel (bool * list Z * list (list Z)) :=
  match n with
  | O => mret (false, pages, argv)
  | S n' =>
      '(r, uarg) ← fetchaddr (u64 (uargv + 8 * i));
      if r <? 0 then mret (false, pages, argv) else
      if uarg =? 0 then mret (true, pages, argv) else
      page ← kalloc;
      if page =? 0 then mret (false, pages, argv) else
      '(r, str) ← fetchstr uarg PGSIZE;
      if r <? 0 then mret (false, pages ++ [page], argv) else
      do_store_bytes page (str ++ [0]);;
      fetch_args n' (i + 1) uargv (pages ++ [page]) (argv ++ [str])
  end.

(** for (i = 0; i < NELEM(argv) && argv[i] != 0; i++) kfree(argv[i]); *)
Fixpoint free_args (pages : list Z) : M kernel unit :=
  match pages with [] => mret tt | p :: pages' => kfree p;; free_args pages' end.

Definition sys_exec : M kernel Z :=
  uargv ← argaddr 1;
  '(r, path) ← argstr 0 MAXPATH;
  if r <? 0 then mret (ret (-1)) else
  '(ok, pages, argv) ← fetch_args MAXARG 0 uargv [] [];
  if negb ok then free_args pages;; mret (ret (-1)) else
  r ← exec path argv;
  free_args pages;;
  mret (ret r).

Definition sys_pipe : M kernel Z :=
  i ← myproc;
  fdarray ← argaddr 0;
  '(r, rf, wf) ← pipealloc;
  if r <? 0 then mret (ret (-1)) else
  match rf, wf with
  | Some rf, Some wf =>
      fd0 ← fdalloc rf;
      fd1 ← (if fd0 <? 0 then mret (-1) else fdalloc wf);
      if (fd0 <? 0) || (fd1 <? 0) then
        when (0 <=? fd0) (set_ofile i (Z.to_nat fd0) None);;
        fileclose rf;;
        fileclose wf;;
        mret (ret (-1))
      else
      p ← get_proc i;
      r ← copyout p.(p_pagetable) fdarray (le_bytes 4 fd0);
      r ← (if r <? 0 then mret r else copyout p.(p_pagetable) (u64 (fdarray + 4)) (le_bytes 4 fd1));
      if r <? 0 then
        set_ofile i (Z.to_nat fd0) None;;
        set_ofile i (Z.to_nat fd1) None;;
        fileclose rf;;
        fileclose wf;;
        mret (ret (-1))
      else mret 0
  | _, _ => panic "pipe"
  end.
End sysfile.
