(* ===== verification/Shm.v ===== *)
(** * Shared memory segments (kernel/sysproc.c, kernel/shm.h)

    shmget(), shmat(), shmdt() and shmctl() on the table shm_segments. *)

From S2P Require Import Prelude State Mem Bytes Riscv Kalloc Vm PageTable Uvm Sched Uart Printf Proc Syscall Sysproc.

Definition MAX_SHM_SEGMENTS : nat := 10.
Definition MAX_PROCESSES_PER_SEGMENT : nat := 10.
Definition IPC_RMID : Z := 1.
Definition IPC_SET : Z := 2.

Definition get_seg (i : nat) : M kernel shmseg := fun s =>
  match s.(shm_segments) !! i with Some g => Ok g s | None => Panic "shm_segments" end.
Definition upd_seg (i : nat) (f : shmseg -> shmseg) : M kernel unit :=
  modify (fun s => set_shm_segments (alter f i s.(shm_segments)) s).

(** shm_init() of proc.c *)
Definition shm_init : M kernel unit :=
  for_range MAX_SHM_SEGMENTS 0 (fun i =>
    upd_seg i (set_seg_key 0);;
    upd_seg i (set_seg_addr 0)).

(** for (j ...) if (pids[j] == x) { pids[j] = y; break; } *)
Fixpoint replace_first (x y : Z) (l : list Z) : list Z :=
  match l with [] => [] | z :: l' => if z =? x then y :: l' else z :: replace_first x y l' end.

(** for (j = 0; j < MAX_PROCESSES_PER_SEGMENT - 1; j++) if (pids[j] == 0 && pids[j+1] != 0)
    { pids[j] = pids[j+1]; pids[j+1] = 0; }, with [x] = pids[j] *)
Fixpoint shift_from (x : Z) (l : list Z) : list Z :=
  match l with
  | [] => [x]
  | y :: l' => if (x =? 0) && negb (y =? 0) then y :: shift_from 0 l' else x :: shift_from y l'
  end.
Definition shift_pids (l : list Z) : list Z := match l with [] => [] | x :: l' => shift_from x l' end.

Section shm.
Context `{Symbols} {J : Stack}.

Definition alloc_page : M kernel Z :=
  mem ← kalloc;
  if mem =? 0 then mret 0 else mret mem.

(** The first loop of shmget(): a segment with this key. *)
Definition shmget_existing (key pid : Z) : M kernel (option Z) :=
  for_return MAX_SHM_SEGMENTS 0 (fun i =>
    g ← get_seg i;
    if g.(seg_key) =? key then
      upd_seg i (fun g => set_seg_refcount (g.(seg_refcount) + 1) g);;
      upd_seg i (fun g => set_seg_pids (replace_first 0 pid g.(seg_pids)) g);;
      mret (Some g.(seg_id))
    else mret None).

(** The second loop: an unused slot. *)
Definition shmget_new (key size shmflag pid : Z) : M kernel (option Z) :=
  for_return MAX_SHM_SEGMENTS 0 (fun i =>
    g ← get_seg i;
    if g.(seg_key) =? 0 then
      upd_seg i (fun g => mkSeg key size 0 shmflag 1 (Z.of_nat i + 1) (<[0%nat := pid]> g.(seg_pids)));;
      kprint "shmget: Created new segment with key %d, id %d\n" [VNum key; VNum (Z.of_nat i + 1)];;
      kprint "shm_segments[%d].key = %d\n" [VNum (Z.of_nat i); VNum key];;
      mret (Some (Z.of_nat i + 1))
    else mret None).

Definition shmget (key size shmflag : Z) : M kernel Z :=
  i ← myproc;
  p ← get_proc i;
  let pid := p.(p_pid) in
  r ← shmget_existing key pid;
  match r with
  | Some id => mret (ret id)
  | None =>
      r ← shmget_new key size shmflag pid;
      match r with Some id => mret (ret id) | None => mret (ret (-1)) end
  end.

Definition sys_shmget : M kernel Z :=
  '(r, key) ← argint 0 stack_junk;
  if r <? 0 then mret (ret (-1)) else
  '(r, size) ← argint 1 stack_junk;
  if r <? 0 then mret (ret (-1)) else
  '(r, shmflag) ← argint 2 stack_junk;
  if r <? 0 then mret (ret (-1)) else
  shmget key size shmflag.

Definition shmat (shmid user_addr : Z) : M kernel Z :=
  if (shmid <? 1) || (Z.of_nat MAX_SHM_SEGMENTS <? shmid) then mret (ret (-1)) else
  let n := Z.to_nat (shmid - 1) in
  segment ← get_seg n;
  if segment.(seg_key) =? 0 then mret (ret (-1)) else
  i ← myproc;
  p ← get_proc i;
  if negb (existsb (Z.eqb p.(p_pid)) segment.(seg_pids)) then
    kprint "\nProcess does not have access, use shmget first ...\n" [];;
    mret (ret (-1))
  else
  if negb (segment.(seg_addr) =? 0) then mret segment.(seg_addr) else
  kprint "\nno prelocated address, assigning new one ...\n" [];;
  if negb (user_addr =? 0) then
    upd_seg n (set_seg_addr user_addr);;
    mret user_addr
  else
  segment ← get_seg n;
  if segment.(seg_addr) =? 0 then
    a ← kalloc;
    if a =? 0 then mret (ret (-1)) else
    upd_seg n (set_seg_addr a);;
    mret a
  else
    p ← get_proc i;
    r ← mappages p.(p_pagetable) user_addr PGSIZE segment.(seg_addr) (Z.lor PTE_W PTE_U);
    if r <? 0 then mret (ret (-1)) else
    upd_seg n (fun g => set_seg_refcount (g.(seg_refcount) + 1) g);;
    kprint "shmat: Mapped shared memory segment id %d at user address: 0x%p\n" [VNum shmid; VNum user_addr];;
    mret user_addr.

Definition sys_shmat : M kernel Z :=
  user_addr ← argaddr 1;
  '(r, shmid) ← argint 0 stack_junk;
  if r <? 0 then mret (ret (-1)) else
  '(r, shmflag) ← argint 2 stack_junk;
  if r <? 0 then mret (ret (-1)) else
  shmat shmid user_addr.

(** for (i = 0; i < MAX_SHM_SEGMENTS; i++) if (shm_segments[i].id == shmid) ... *)
Definition shmdt (shmid : Z) : M kernel Z :=
  r ← for_return MAX_SHM_SEGMENTS 0 (fun n =>
    g ← get_seg n;
    if g.(seg_id) =? shmid then
      kprint "\nFound Id\n" [];;
      i ← myproc;
      p ← get_proc i;
      if negb (existsb (Z.eqb p.(p_pid)) g.(seg_pids)) then mret (Some (ret (-1))) else
      upd_seg n (fun g => set_seg_pids (replace_first p.(p_pid) 0 g.(seg_pids)) g);;
      upd_seg n (fun g => set_seg_refcount (g.(seg_refcount) - 1) g);;
      upd_seg n (fun g => set_seg_pids (shift_pids g.(seg_pids)) g);;
      mret (Some 0)
    else mret None);
  match r with
  | Some v => mret v
  | None =>
      kprint "\ndid not find the shmid\n" [];;
      mret (ret (-1))
  end.

Definition sys_shmdt : M kernel Z :=
  '(r, shmid) ← argint 0 stack_junk;
  if r <? 0 then mret (ret (-1)) else
  '(r, addr) ← argint 1 stack_junk;
  if r <? 0 then mret (ret (-1)) else
  shmdt shmid.

Definition shmctl (shmid cmd buf : Z) : M kernel Z :=
  if (shmid <? 1) || (Z.of_nat MAX_SHM_SEGMENTS <? shmid) then mret (ret (-1)) else
  let n := Z.to_nat (shmid - 1) in
  g ← get_seg n;
  if g.(seg_key) =? 0 then mret (ret (-1)) else
  if cmd =? IPC_RMID then upd_seg n (set_seg_key 0);; mret 0
  else if cmd =? IPC_SET then upd_seg n (set_seg_shmflag buf);; mret 0
  else mret (ret (-1)).

Definition sys_shmctl : M kernel Z :=
  '(r, shmid) ← argint 0 stack_junk;
  if r <? 0 then mret (ret (-1)) else
  '(r, cmd) ← argint 1 stack_junk;
  if r <? 0 then mret (ret (-1)) else
  '(r, buf) ← argint 2 stack_junk;
  if r <? 0 then mret (ret (-1)) else
  shmctl shmid cmd buf.
End shm.
