(* ===== verification/Dispatch.v ===== *)
(** * The system call table (kernel/syscall.c, kernel/syscall.h) *)

From S2P Require Import Prelude State Mem Bytes Riscv Kalloc Vm PageTable Uvm Sched Sleeplock Bio Log Pipe Sem Uart Printf Proc Fs File Process Exec Syscall Sysproc Sysfile Shm.

Definition SYS_fork : Z := 1.
Definition SYS_exit : Z := 2.
Definition SYS_wait : Z := 3.
Definition SYS_pipe : Z := 4.
Definition SYS_read : Z := 5.
Definition SYS_kill : Z := 6.
Definition SYS_exec : Z := 7.
Definition SYS_fstat : Z := 8.
Definition SYS_chdir : Z := 9.
Definition SYS_dup : Z := 10.
Definition SYS_getpid : Z := 11.
Definition SYS_sbrk : Z := 12.
Definition SYS_sleep : Z := 13.
Definition SYS_uptime : Z := 14.
Definition SYS_open : Z := 15.
Definition SYS_write : Z := 16.
Definition SYS_mknod : Z := 17.
Definition SYS_unlink : Z := 18.
Definition SYS_link : Z := 19.
Definition SYS_mkdir : Z := 20.
Definition SYS_close : Z := 21.
Definition SYS_waitpid : Z := 22.
Definition SYS_sysinfo : Z := 23.
Definition SYS_signal : Z := 24.
Definition SYS_sem_init : Z := 25.
Definition SYS_sem_wait : Z := 26.
Definition SYS_sem_post : Z := 27.
Definition SYS_sem_destroy : Z := 28.
Definition SYS_shmget : Z := 29.
Definition SYS_shmat : Z := 30.
Definition SYS_shmdt : Z := 31.
Definition SYS_shmctl : Z := 32.

Section dispatch.
Context `{Symbols} {P : Patience} {D : Devsw} {J : Stack}.

(** syscalls[]: the handler of each number *)
Definition syscalls : list (Z * M kernel Z) :=
  [(SYS_fork, sys_fork);
   (SYS_exit, sys_exit);
   (SYS_wait, sys_wait);
   (SYS_pipe, sys_pipe);
   (SYS_read, sys_read);
   (SYS_kill, sys_kill);
   (SYS_exec, sys_exec);
   (SYS_fstat, sys_fstat);
   (SYS_chdir, sys_chdir);
   (SYS_dup, sys_dup);
   (SYS_getpid, sys_getpid);
   (SYS_sbrk, sys_sbrk);
   (SYS_sleep, sys_sleep);
   (SYS_uptime, sys_uptime);
   (SYS_open, sys_open);
   (SYS_write, sys_write);
   (SYS_mknod, sys_mknod);
   (SYS_unlink, sys_unlink);
   (SYS_link, sys_link);
   (SYS_mkdir, sys_mkdir);
   (SYS_close, sys_close);
   (SYS_waitpid, sys_waitpid);
   (SYS_sysinfo, sys_sysinfo);
   (SYS_signal, sys_signal);
   (SYS_sem_init, sys_sem_init);
   (SYS_sem_wait, sys_sem_wait);
   (SYS_sem_post, sys_sem_post);
   (SYS_sem_destroy, sys_sem_destroy);
   (SYS_shmget, sys_shmget);
   (SYS_shmat, sys_shmat);
   (SYS_shmdt, sys_shmdt);
   (SYS_shmctl, sys_shmctl)].

(** syscalls[num], null outside the table *)
Definition handler (num : Z) : option (M kernel Z) := snd <$> find (fun e => num =? fst e) syscalls.

Definition syscall : M kernel unit :=
  i ← myproc;
  p ← get_proc i;
  a7 ← rd64 (p.(p_trapframe) + TF_a7);
  let num := s32 a7 in
  match handler num with
  | Some f =>
      r ← f;
      p ← get_proc i;
      wr64 (p.(p_trapframe) + TF_a0) r
  | None =>
      kprint "%d %s: unknown sys call %d\n" [VNum p.(p_pid); VStr (Some (cstr p.(p_name))); VNum num];;
      wr64 (p.(p_trapframe) + TF_a0) (u64 (-1))
  end.
End dispatch.
