(* ===== verification/Trap.v ===== *)
(** * Traps (kernel/trap.c)

    The control registers a trap handler reads are an argument; usertrapret() returns
    the values it leaves for trampoline.S.  The interrupt-enable bit and the clock
    compare register are not part of the state. *)

From S2P Require Import Prelude State Mem Bytes Riscv Kalloc Vm PageTable Uvm Sched Sleeplock Bio Log Pipe Sem Uart Printf Proc Fs File Console Process Exec Syscall Sysproc Sysfile Shm Dispatch.

Definition SSTATUS_SPP : Z := Z.shiftl 1 8.
Definition SSTATUS_SPIE : Z := Z.shiftl 1 5.

Definition TF_kernel_satp : Z := 0.
Definition TF_kernel_sp : Z := 8.
Definition TF_kernel_trap : Z := 16.
Definition TF_kernel_hartid : Z := 32.

Record regs := mkRegs {
  r_scause : Z;
  r_sepc : Z;
  r_stval : Z;
  r_sstatus : Z;
  r_satp : Z;
  r_tp : Z;
  r_sie : bool;   (* intr_get() *)
  plic_irq : Z;   (* what plic_claim() returns *)
}.

(** Addresses of assembly and C code, and the interrupt handler of the disk driver. *)
Class Vectors := {
  uservec : Z;
  userret : Z;
  usertrap_addr : Z;
  virtio_disk_intr : M kernel unit;
}.

Section trap.
Context `{Symbols} {P : Patience} {D : Devsw} {J : Stack} {U : Jump} {V : Vectors}.

Definition cpuid (r : regs) : Z := s32 r.(r_tp).

Definition clockintr (r : regs) : M kernel unit :=
  when (cpuid r =? 0)
    (acquire LkTicks;;
     modify (fun s => set_ticks (u32 (s.(ticks) + 1)) s);;
     wakeup (Some ChTicks);;
     release LkTicks).

Definition devintr (r : regs) : M kernel Z :=
  if r.(r_scause) =? 0x8000000000000009 then
    (if r.(plic_irq) =? UART0_IRQ then uartintr
     else if r.(plic_irq) =? VIRTIO0_IRQ then virtio_disk_intr
     else when (negb (r.(plic_irq) =? 0)) (kprint "unexpected interrupt irq=%d\n" [VNum r.(plic_irq)]));;
    mret 1
  else if r.(r_scause) =? 0x8000000000000005 then
    clockintr r;;
    mret 2
  else mret 0.

(** What sret and userret find: stvec, sstatus, sepc and satp. *)
Record sret := mkSret { u_stvec : Z; u_sstatus : Z; u_sepc : Z; u_satp : Z }.

Definition usertrapret (r : regs) : M kernel sret :=
  i ← myproc;
  p ← get_proc i;
  let trampoline_uservec := u64 (TRAMPOLINE + (uservec - trampoline)) in
  let tf := p.(p_trapframe) in
  wr64 (tf + TF_kernel_satp) r.(r_satp);;
  wr64 (tf + TF_kernel_sp) (p.(p_kstack) + PGSIZE);;
  wr64 (tf + TF_kernel_trap) usertrap_addr;;
  wr64 (tf + TF_kernel_hartid) r.(r_tp);;
  let x := Z.lor (Z.land r.(r_sstatus) (Z.lnot SSTATUS_SPP)) SSTATUS_SPIE in
  epc ← rd64 (tf + TF_epc);
  mret (mkSret trampoline_uservec x epc (MAKE_SATP p.(p_pagetable))).

(** The branches of usertrap() on scause; the value of which_dev. *)
Definition usertrap_cause (r : regs) (i : nat) : M kernel Z :=
  if r.(r_scause) =? 8 then
    p ← get_proc i;
    when (bool_decide (p.(p_state) = RUNNING)) handle_signals;;
    k ← killed i;
    when (negb (k =? 0)) (exit (-1));;
    p ← get_proc i;
    epc ← rd64 (p.(p_trapframe) + TF_epc);
    wr64 (p.(p_trapframe) + TF_epc) (u64 (epc + 4));;
    syscall;;
    mret 0
  else
    which_dev ← devintr r;
    if negb (which_dev =? 0) then mret which_dev else
    if r.(r_scause) =? 0xd then
      kprint "usertrap(): store access fault at address 0x%lx\n" [VNum r.(r_stval)];;
      setkilled i;;
      mret 0
    else
      p ← get_proc i;
      kprint "usertrap(): unexpected scause 0x%lx pid=%d\n" [VNum r.(r_scause); VNum p.(p_pid)];;
      kprint "            sepc=0x%lx stval=0x%lx\n" [VNum r.(r_sepc); VNum r.(r_stval)];;
      setkilled i;;
      mret 0.

Definition usertrap (r : regs) : M kernel sret :=
  if negb (Z.land r.(r_sstatus) SSTATUS_SPP =? 0) then panic "usertrap: not from user mode" else
  i ← myproc;
  p ← get_proc i;
  wr64 (p.(p_trapframe) + TF_epc) r.(r_sepc);;
  which_dev ← usertrap_cause r i;
  k ← killed i;
  when (negb (k =? 0)) (exit (-1));;
  when (which_dev =? 2) yield;;
  usertrapret r.

(** The values of sepc and sstatus it restores. *)
Definition kerneltrap (r : regs) : M kernel (Z * Z) :=
  if Z.land r.(r_sstatus) SSTATUS_SPP =? 0 then panic "kerneltrap: not from supervisor mode" else
  if r.(r_sie) then panic "kerneltrap: interrupts enabled" else
  which_dev ← devintr r;
  if which_dev =? 0 then
    kprint "scause=0x%lx sepc=0x%lx stval=0x%lx\n" [VNum r.(r_scause); VNum r.(r_sepc); VNum r.(r_stval)];;
    panic "kerneltrap"
  else
  c ← gets cur;
  when ((which_dev =? 2) && bool_decide (c <> None)) yield;;
  mret (r.(r_sepc), r.(r_sstatus)).

(** forkret(): [first] is its static variable *)
Definition forkret_run (first : bool) (r : regs) : M kernel sret :=
  i ← myproc;
  release (LkProc i);;
  when first (fsinit ROOTDEV);;
  usertrapret r.
End trap.
