(* ===== verification/Virtio.v ===== *)
(** * The disk driver (kernel/virtio_disk.c, kernel/virtio.h)

    The driver shares a table of descriptors and two rings with the device.  A request is a
    chain of three descriptors (header, data, status); the driver puts the number of the
    first in the avail ring, the device, which may serve requests in any order, puts it in
    the used ring when it is done and raises an interrupt.

    The file has the driver's functions, the registers it writes at start-up, and the
    system of any number of processes in virtio_disk_rw(), the interrupt handler and the
    device, interleaved.  The code between acquire() or the return of sleep() and the next
    sleep() or release() is one step, because it holds vdisk_lock; it is cut where the
    device looks on: before avail->idx is incremented, and at each test of used->idx. *)

From S2P Require Import Prelude State Mem Riscv Kalloc.

(** ** virtio.h *)

Definition NUM : nat := 8.
Definition VRING_DESC_F_NEXT : Z := 1.
Definition VRING_DESC_F_WRITE : Z := 2.
Definition VIRTIO_BLK_T_IN : Z := 0.
Definition VIRTIO_BLK_T_OUT : Z := 1.

Definition VIRTIO_MMIO_MAGIC_VALUE : Z := 0x000.
Definition VIRTIO_MMIO_VERSION : Z := 0x004.
Definition VIRTIO_MMIO_DEVICE_ID : Z := 0x008.
Definition VIRTIO_MMIO_VENDOR_ID : Z := 0x00c.
Definition VIRTIO_MMIO_DEVICE_FEATURES : Z := 0x010.
Definition VIRTIO_MMIO_DRIVER_FEATURES : Z := 0x020.
Definition VIRTIO_MMIO_QUEUE_SEL : Z := 0x030.
Definition VIRTIO_MMIO_QUEUE_NUM_MAX : Z := 0x034.
Definition VIRTIO_MMIO_QUEUE_NUM : Z := 0x038.
Definition VIRTIO_MMIO_QUEUE_READY : Z := 0x044.
Definition VIRTIO_MMIO_STATUS : Z := 0x070.
Definition VIRTIO_MMIO_QUEUE_DESC_LOW : Z := 0x080.
Definition VIRTIO_MMIO_QUEUE_DESC_HIGH : Z := 0x084.
Definition VIRTIO_MMIO_DRIVER_DESC_LOW : Z := 0x090.
Definition VIRTIO_MMIO_DRIVER_DESC_HIGH : Z := 0x094.
Definition VIRTIO_MMIO_DEVICE_DESC_LOW : Z := 0x0a0.
Definition VIRTIO_MMIO_DEVICE_DESC_HIGH : Z := 0x0a4.

Definition VIRTIO_CONFIG_S_ACKNOWLEDGE : Z := 1.
Definition VIRTIO_CONFIG_S_DRIVER : Z := 2.
Definition VIRTIO_CONFIG_S_DRIVER_OK : Z := 4.
Definition VIRTIO_CONFIG_S_FEATURES_OK : Z := 8.

Definition VIRTIO_BLK_F_RO : Z := 5.
Definition VIRTIO_BLK_F_SCSI : Z := 7.
Definition VIRTIO_BLK_F_CONFIG_WCE : Z := 11.
Definition VIRTIO_BLK_F_MQ : Z := 12.
Definition VIRTIO_F_ANY_LAYOUT : Z := 27.
Definition VIRTIO_RING_F_INDIRECT_DESC : Z := 28.
Definition VIRTIO_RING_F_EVENT_IDX : Z := 29.

Definition u16 (x : Z) : Z := x mod 2 ^ 16.

(** The memory a descriptor points to. *)
Inductive daddr := ANull | AOps (i : nat) | AData (b : nat) | AStatus (i : nat).

Record virtq_desc := mkDesc { d_addr : daddr; d_len : Z; d_flags : Z; d_next : Z }.
Record virtio_blk_req := mkReq { r_type : Z; r_reserved : Z; r_sector : Z }.
Definition no_desc : virtq_desc := mkDesc ANull 0 0 0.

(** struct buf, as far as the driver looks at it. *)
Record vbuf := mkVbuf { v_disk : Z; v_blockno : Z; v_data : list Z }.

(** What the device stores: sectors of 512 bytes.  [dev_read d sec n] are the [n] bytes from
    sector [sec] on. *)
Class Storage := {
  store : Type;
  dev_read : store -> Z -> nat -> list Z;
  dev_write : store -> Z -> list Z -> store;
}.
Class StorageLaws (D : Storage) : Prop := {
  dev_read_length d sec n : length (dev_read d sec n) = n;
  dev_read_same d sec bs : dev_read (dev_write d sec bs) sec (length bs) = bs;
  dev_read_other d sec bs sec' n :
    sec' * 512 + Z.of_nat n <= sec * 512 \/ sec * 512 + Z.of_nat (length bs) <= sec' * 512 ->
    dev_read (dev_write d sec bs) sec' n = dev_read d sec' n;
}.

(** Who holds vdisk_lock. *)
Inductive holder := HThread (t : nat) | HIntr.

#[export] Instance holder_eq_dec : EqDecision holder.
Proof. solve_decision. Defined.

(** The three descriptors of a request. *)
Record chain := mkChain { c0 : nat; c1 : nat; c2 : nat }.

(** A process in virtio_disk_rw(b, write). *)
Inductive thread :=
| TIdle                                      (* not in it *)
| TAlloc (b : nat) (w : bool)                (* about to acquire vdisk_lock and call alloc3_desc() *)
| TSleepFree (b : nat) (w : bool)            (* asleep on &disk.free[0] *)
| TFilled (c : chain) (b : nat) (w : bool)   (* the request is in the ring; about to increment avail->idx *)
| TSleepBuf (c : chain) (b : nat) (w : bool) (* asleep on b *)
| TCheck (c : chain) (b : nat) (w : bool).   (* woken; about to acquire vdisk_lock and test b->disk *)

#[export] Instance chain_eq_dec : EqDecision chain.
Proof. solve_decision. Defined.
#[export] Instance thread_eq_dec : EqDecision thread.
Proof. solve_decision. Defined.

Inductive chan := ChFree | ChBuf (b : nat).

Module Virtio.
Section virtio.
Context {D : Storage}.

Record vdisk := mkVdisk {
  desc : list virtq_desc;   (* the descriptor table *)
  avail_idx : Z;   (* avail->idx *)
  avail_ring : list Z;   (* avail->ring *)
  used_dev : Z;   (* used->idx, written by the device *)
  used_ring : list Z;   (* used->ring[].id *)
  dfree : list bool;   (* is a descriptor free? *)
  used_idx : Z;   (* we've looked this far in used *)
  info : list (option nat * Z);   (* info[].b, a buffer or null, and info[].status *)
  ops : list virtio_blk_req;   (* disk command headers *)
  vbufs : list vbuf;   (* the buffers *)
  vlock : option holder;   (* vdisk_lock *)
  threads : list thread;   (* processes in virtio_disk_rw() *)
  seen : Z;   (* the device: how far it has read the avail ring *)
  inflight : list nat;   (* the device: requests it has taken *)
  isr : bool;   (* the device: its interrupt is pending *)
  media : store;   (* the device: the disk *)
}.

Definition set_desc (x : list virtq_desc) (s : vdisk) : vdisk :=
  mkVdisk x s.(avail_idx) s.(avail_ring) s.(used_dev) s.(used_ring) s.(dfree) s.(used_idx)
    s.(info) s.(ops) s.(vbufs) s.(vlock) s.(threads) s.(seen) s.(inflight) s.(isr) s.(media).
Definition set_avail_idx (x : Z) (s : vdisk) : vdisk :=
  mkVdisk s.(desc) x s.(avail_ring) s.(used_dev) s.(used_ring) s.(dfree) s.(used_idx) s.(info)
    s.(ops) s.(vbufs) s.(vlock) s.(threads) s.(seen) s.(inflight) s.(isr) s.(media).
Definition set_avail_ring (x : list Z) (s : vdisk) : vdisk :=
  mkVdisk s.(desc) s.(avail_idx) x s.(used_dev) s.(used_ring) s.(dfree) s.(used_idx) s.(info)
    s.(ops) s.(vbufs) s.(vlock) s.(threads) s.(seen) s.(inflight) s.(isr) s.(media).
Definition set_used_dev (x : Z) (s : vdisk) : vdisk :=
  mkVdisk s.(desc) s.(avail_idx) s.(avail_ring) x s.(used_ring) s.(dfree) s.(used_idx)
    s.(info) s.(ops) s.(vbufs) s.(vlock) s.(threads) s.(seen) s.(inflight) s.(isr) s.(media).
Definition set_used_ring (x : list Z) (s : vdisk) : vdisk :=
  mkVdisk s.(desc) s.(avail_idx) s.(avail_ring) s.(used_dev) x s.(dfree) s.(used_idx) s.(info)
    s.(ops) s.(vbufs) s.(vlock) s.(threads) s.(seen) s.(inflight) s.(isr) s.(media).
Definition set_dfree (x : list bool) (s : vdisk) : vdisk :=
  mkVdisk s.(desc) s.(avail_idx) s.(avail_ring) s.(used_dev) s.(used_ring) x s.(used_idx)
    s.(info) s.(ops) s.(vbufs) s.(vlock) s.(threads) s.(seen) s.(inflight) s.(isr) s.(media).
Definition set_used_idx (x : Z) (s : vdisk) : vdisk :=
  mkVdisk s.(desc) s.(avail_idx) s.(avail_ring) s.(used_dev) s.(used_ring) s.(dfree) x
    s.(info) s.(ops) s.(vbufs) s.(vlock) s.(threads) s.(seen) s.(inflight) s.(isr) s.(media).
Definition set_info (x : list (option nat * Z)) (s : vdisk) : vdisk :=
  mkVdisk s.(desc) s.(avail_idx) s.(avail_ring) s.(used_dev) s.(used_ring) s.(dfree)
    s.(used_idx) x s.(ops) s.(vbufs) s.(vlock) s.(threads) s.(seen) s.(inflight) s.(isr)
    s.(media).
Definition set_ops (x : list virtio_blk_req) (s : vdisk) : vdisk :=
  mkVdisk s.(desc) s.(avail_idx) s.(avail_ring) s.(used_dev) s.(used_ring) s.(dfree)
    s.(used_idx) s.(info) x s.(vbufs) s.(vlock) s.(threads) s.(seen) s.(inflight) s.(isr)
    s.(media).
Definition set_vbufs (x : list vbuf) (s : vdisk) : vdisk :=
  mkVdisk s.(desc) s.(avail_idx) s.(avail_ring) s.(used_dev) s.(used_ring) s.(dfree)
    s.(used_idx) s.(info) s.(ops) x s.(vlock) s.(threads) s.(seen) s.(inflight) s.(isr)
    s.(media).
Definition set_vlock (x : option holder) (s : vdisk) : vdisk :=
  mkVdisk s.(desc) s.(avail_idx) s.(avail_ring) s.(used_dev) s.(used_ring) s.(dfree)
    s.(used_idx) s.(info) s.(ops) s.(vbufs) x s.(threads) s.(seen) s.(inflight) s.(isr)
    s.(media).
Definition set_threads (x : list thread) (s : vdisk) : vdisk :=
  mkVdisk s.(desc) s.(avail_idx) s.(avail_ring) s.(used_dev) s.(used_ring) s.(dfree)
    s.(used_idx) s.(info) s.(ops) s.(vbufs) s.(vlock) x s.(seen) s.(inflight) s.(isr) s.(media).
Definition set_seen (x : Z) (s : vdisk) : vdisk :=
  mkVdisk s.(desc) s.(avail_idx) s.(avail_ring) s.(used_dev) s.(used_ring) s.(dfree)
    s.(used_idx) s.(info) s.(ops) s.(vbufs) s.(vlock) s.(threads) x s.(inflight) s.(isr)
    s.(media).
Definition set_inflight (x : list nat) (s : vdisk) : vdisk :=
  mkVdisk s.(desc) s.(avail_idx) s.(avail_ring) s.(used_dev) s.(used_ring) s.(dfree)
    s.(used_idx) s.(info) s.(ops) s.(vbufs) s.(vlock) s.(threads) s.(seen) x s.(isr) s.(media).
Definition set_isr (x : bool) (s : vdisk) : vdisk :=
  mkVdisk s.(desc) s.(avail_idx) s.(avail_ring) s.(used_dev) s.(used_ring) s.(dfree)
    s.(used_idx) s.(info) s.(ops) s.(vbufs) s.(vlock) s.(threads) s.(seen) s.(inflight) x
    s.(media).
Definition set_media (x : store) (s : vdisk) : vdisk :=
  mkVdisk s.(desc) s.(avail_idx) s.(avail_ring) s.(used_dev) s.(used_ring) s.(dfree)
    s.(used_idx) s.(info) s.(ops) s.(vbufs) s.(vlock) s.(threads) s.(seen) s.(inflight) s.(isr)
    x.


(** ** Descriptors *)

(** wakeup(): the processes asleep on the channel *)
Definition wake (ch : chan) (th : thread) : thread :=
  match th, ch with
  | TSleepFree b w, ChFree => TAlloc b w
  | TSleepBuf c b w, ChBuf b' => if decide (b = b') then TCheck c b w else th
  | _, _ => th
  end.
Definition wakeup (ch : chan) : M vdisk unit := modify (fun s => set_threads (wake ch <$> s.(threads)) s).

Definition alloc_desc : M vdisk (option nat) :=
  for_return NUM 0 (fun i =>
    s ← gets dfree;
    if default false (s !! i) then modify (fun s => set_dfree (<[i := false]> s.(dfree)) s);; mret (Some i) else mret None).

Definition free_desc (i : nat) : M vdisk unit :=
  if (NUM <=? i)%nat then panic "free_desc 1" else
  s ← gets dfree;
  if default false (s !! i) then panic "free_desc 2" else
  modify (fun s => set_desc (<[i := no_desc]> s.(desc)) s);;
  modify (fun s => set_dfree (<[i := true]> s.(dfree)) s);;
  wakeup ChFree.

Definition get_desc (i : nat) : M vdisk virtq_desc := fun s =>
  match s.(desc) !! i with Some d => Ok d s | None => Panic "desc" end.

Fixpoint free_chain (fuel : nat) (i : nat) : M vdisk unit :=
  match fuel with
  | O => fun _ => Timeout
  | S fuel' =>
      d ← get_desc i;
      free_desc i;;
      if Z.testbit d.(d_flags) 0 then free_chain fuel' (Z.to_nat d.(d_next)) else mret tt
  end.

(** The loop of alloc3_desc(): [n] more, [got] so far. *)
Fixpoint alloc_more (n : nat) (got : list nat) : M vdisk (option (list nat)) :=
  match n with
  | O => mret (Some got)
  | S n' =>
      r ← alloc_desc;
      match r with
      | Some i => alloc_more n' (got ++ [i])
      | None => for_range (length got) 0 (fun j => free_desc (default 0%nat (got !! j)));; mret None
      end
  end.

Definition alloc3_desc : M vdisk (option chain) :=
  r ← alloc_more 3 [];
  mret (match r with Some [i; j; k] => Some (mkChain i j k) | _ => None end).

(** ** virtio_disk_rw() *)

Definition get_vbuf (b : nat) : M vdisk vbuf := fun s =>
  match s.(vbufs) !! b with Some x => Ok x s | None => Panic "buf" end.
Definition put_desc (i : nat) (d : virtq_desc) : M vdisk unit := modify (fun s => set_desc (<[i := d]> s.(desc)) s).

(** Format the three descriptors, and put the first in the avail ring. *)
Definition rw_fill (c : chain) (b : nat) (w : bool) : M vdisk unit :=
  x ← get_vbuf b;
  let sector := u32 (x.(v_blockno) * (BSIZE / 512)) in
  modify (fun s => set_ops (<[c.(c0) := mkReq (if w then VIRTIO_BLK_T_OUT else VIRTIO_BLK_T_IN) 0 sector]> s.(ops)) s);;
  put_desc c.(c0) (mkDesc (AOps c.(c0)) 16 VRING_DESC_F_NEXT (Z.of_nat c.(c1)));;
  put_desc c.(c1) (mkDesc (AData b) BSIZE (Z.lor (if w then 0 else VRING_DESC_F_WRITE) VRING_DESC_F_NEXT) (Z.of_nat c.(c2)));;
  modify (fun s => set_info (<[c.(c0) := ((default (None, 0) (s.(info) !! c.(c0))).1, 0xff)]> s.(info)) s);;
  put_desc c.(c2) (mkDesc (AStatus c.(c0)) 1 VRING_DESC_F_WRITE 0);;
  modify (fun s => set_vbufs (<[b := mkVbuf 1 x.(v_blockno) x.(v_data)]> s.(vbufs)) s);;
  modify (fun s => set_info (<[c.(c0) := (Some b, (default (None, 0) (s.(info) !! c.(c0))).2)]> s.(info)) s);;
  modify (fun s => set_avail_ring (<[Z.to_nat (s.(avail_idx) mod Z.of_nat NUM) := Z.of_nat c.(c0)]> s.(avail_ring)) s).

(** disk.avail->idx += 1; the device is notified *)
Definition rw_publish : M vdisk unit := modify (fun s => set_avail_idx (u16 (s.(avail_idx) + 1)) s).

(** while(b->disk == 1) sleep(b, &disk.vdisk_lock), up to the next sleep(), and the end of
    the function. *)
Definition rw_wait (c : chain) (b : nat) (w : bool) : M vdisk thread :=
  x ← get_vbuf b;
  if x.(v_disk) =? 1 then mret (TSleepBuf c b w) else
  modify (fun s => set_info (<[c.(c0) := (None, (default (None, 0) (s.(info) !! c.(c0))).2)]> s.(info)) s);;
  free_chain (S NUM) c.(c0);;
  mret TIdle.

(** virtio_disk_rw(b, write), from one control point to the next. *)
Definition virtio_disk_rw (th : thread) : M vdisk thread :=
  match th with
  | TAlloc b w =>
      r ← alloc3_desc;
      match r with
      | None => mret (TSleepFree b w)
      | Some c => rw_fill c b w;; mret (TFilled c b w)
      end
  | TFilled c b w => rw_publish;; rw_wait c b w
  | TCheck c b w => rw_wait c b w
  | th => mret th
  end.

(** ** virtio_disk_intr() *)

(** acquire(), and the acknowledgement of the interrupt *)
Definition intr_enter : M vdisk unit := modify (fun s => set_vlock (Some HIntr) (set_isr false s)).

(** One turn of the loop; [false] when it ends. *)
Definition intr_turn : M vdisk bool :=
  s ← gets id;
  if s.(used_idx) =? s.(used_dev) then mret false else
  let id := default 0 (s.(used_ring) !! Z.to_nat (s.(used_idx) mod Z.of_nat NUM)) in
  match s.(info) !! Z.to_nat id with
  | None => panic "info"
  | Some (ob, status) =>
      if negb (status =? 0) then panic "virtio_disk_intr status" else
      match ob with
      | None => panic "null buf"
      | Some b =>
          x ← get_vbuf b;
          modify (fun s => set_vbufs (<[b := mkVbuf 0 x.(v_blockno) x.(v_data)]> s.(vbufs)) s);;
          wakeup (ChBuf b);;
          modify (fun s => set_used_idx (u16 (s.(used_idx) + 1)) s);;
          mret true
      end
  end.

(** ** The device

    It follows section 2.6 (split virtqueues) and 5.2 (block device) of the virtio
    specification.  A request it cannot make sense of is an error of the driver.  A request
    it can make sense of ends in one step, with the status 0 when it was served, or with
    another status when it failed (VIRTIO_BLK_S_IOERR, say); what a failed request left in the
    buffer or on the disk is then arbitrary. *)

(** Take the next request from the avail ring. *)
Definition dev_fetch : M vdisk unit :=
  modify (fun s =>
    let h := default 0 (s.(avail_ring) !! Z.to_nat (s.(seen) mod Z.of_nat NUM)) in
    set_seen (u16 (s.(seen) + 1)) (set_inflight (s.(inflight) ++ [Z.to_nat h]) s)).

(** The transfer of a request; with [Some bytes], of these bytes in place of the right ones. *)
Definition dev_transfer (other : option (list Z)) (r : virtio_blk_req) (dd : virtq_desc) : M vdisk unit :=
  match dd.(d_addr) with
  | AData b =>
      x ← get_vbuf b;
      if r.(r_type) =? VIRTIO_BLK_T_IN then
        if Z.testbit dd.(d_flags) 1 then
          modify (fun s => set_vbufs (<[b := mkVbuf x.(v_disk) x.(v_blockno) (default (dev_read s.(media) r.(r_sector) (Z.to_nat dd.(d_len))) other)]> s.(vbufs)) s)
        else panic "device: read-only buffer"
      else if r.(r_type) =? VIRTIO_BLK_T_OUT then
        if Z.testbit dd.(d_flags) 1 then panic "device: write-only buffer"
        else modify (fun s => set_media (dev_write s.(media) r.(r_sector) (default (take (Z.to_nat dd.(d_len)) x.(v_data)) other)) s)
      else panic "device: request type"
  | _ => panic "device: data address"
  end.

(** End the [k]-th of the requests taken with this status. *)
Definition dev_end (status : Z) (other : option (list Z)) (k : nat) : M vdisk unit :=
  s ← gets id;
  match s.(inflight) !! k with
  | None => mret tt
  | Some h =>
      d0 ← get_desc h;
      match d0.(d_addr), Z.testbit d0.(d_flags) 0 with
      | AOps i, true =>
          d1 ← get_desc (Z.to_nat d0.(d_next));
          if negb (Z.testbit d1.(d_flags) 0) then panic "device: chain" else
          d2 ← get_desc (Z.to_nat d1.(d_next));
          match s.(ops) !! i, d2.(d_addr), Z.testbit d2.(d_flags) 0, Z.testbit d2.(d_flags) 1 with
          | Some r, AStatus j, false, true =>
              dev_transfer other r d1;;
              modify (fun s => set_info (<[j := ((default (None, 0) (s.(info) !! j)).1, status)]> s.(info)) s);;
              modify (fun s => set_used_ring (<[Z.to_nat (s.(used_dev) mod Z.of_nat NUM) := Z.of_nat h]> s.(used_ring)) s);;
              modify (fun s => set_used_dev (u16 (s.(used_dev) + 1)) (set_inflight (delete k s.(inflight)) (set_isr true s)))
          | _, _, _, _ => panic "device: chain"
          end
      | _, _ => panic "device: header"
      end
  end.

Definition dev_serve : nat -> M vdisk unit := dev_end 0 None.

(** ** The system *)

Inductive label :=
| LStart (t : nat) (b : nat) (w : bool)      (* process [t] calls virtio_disk_rw(b, w) *)
| LBuf (b : nat) (blockno : Z) (data : list Z)   (* the buffer cache uses a buffer *)
| LRun (t : nat)                             (* process [t] goes on *)
| LIntr                                      (* an interrupt is taken: acquire() and acknowledge *)
| LTurn                                      (* a turn of the loop of the handler *)
| LFetch                                     (* the device takes a request *)
| LServe (k : nat).                          (* the device serves a request *)
#[export] Instance label_eq_dec : EqDecision label.
Proof. solve_decision. Defined.

(** The buffer a process uses. *)
Definition uses (th : thread) : option nat :=
  match th with
  | TIdle => None
  | TAlloc b _ | TSleepFree b _ | TFilled _ b _ | TSleepBuf _ b _ | TCheck _ b _ => Some b
  end.
Definition in_use (s : vdisk) (b : nat) : bool := existsb (fun th => bool_decide (uses th = Some b)) s.(threads).

(** Does the process need vdisk_lock, or have it? *)
Definition may_run (s : vdisk) (t : nat) (th : thread) : bool :=
  match th with
  | TAlloc _ _ | TCheck _ _ _ => bool_decide (s.(vlock) = None)
  | TFilled _ _ _ => bool_decide (s.(vlock) = Some (HThread t))
  | _ => false
  end.

(** vdisk_lock after the step: kept only before avail->idx is incremented. *)
Definition lock_after (t : nat) (th : thread) : option holder := match th with TFilled _ _ _ => Some (HThread t) | _ => None end.

(** A step: [None] when it cannot be taken in this state. *)
Definition exec (l : label) (s : vdisk) : option (outcome vdisk unit) :=
  match l with
  | LStart t b w =>
      if bool_decide (s.(threads) !! t = Some TIdle) && (b <? length s.(vbufs))%nat && negb (in_use s b)
      then Some (Ok tt (set_threads (<[t := TAlloc b w]> s.(threads)) s)) else None
  | LBuf b blockno data =>
      if (0 <=? blockno) && (blockno <? 2 ^ 31) && (length data =? Z.to_nat BSIZE)%nat && (b <? length s.(vbufs))%nat && negb (in_use s b)
      then Some (Ok tt (set_vbufs (<[b := mkVbuf 0 blockno data]> s.(vbufs)) s)) else None
  | LRun t =>
      match s.(threads) !! t with
      | Some th =>
          if may_run s t th
          then Some ((th' ← virtio_disk_rw th; modify (fun s => set_vlock (lock_after t th') (set_threads (<[t := th']> s.(threads)) s))) s)
          else None
      | None => None
      end
  | LIntr => if s.(isr) && bool_decide (s.(vlock) = None) then Some (intr_enter s) else None
  | LTurn =>
      if bool_decide (s.(vlock) = Some HIntr)
      then Some ((more ← intr_turn; if (more : bool) then mret tt else modify (set_vlock None)) s) else None
  | LFetch => if negb (s.(seen) =? s.(avail_idx)) then Some (dev_fetch s) else None
  | LServe k => if (k <? length s.(inflight))%nat then Some (dev_serve k s) else None
  end.

Definition step (s s' : vdisk) : Prop := exists l, exec l s = Some (Ok tt s').

(** With a device that may also fail a request: any nonzero status byte, and any bytes in the
    buffer or in the block. *)
Inductive move := MStep (l : label) | MFail (k : nat) (status : Z) (bytes : list Z).
Definition exec_any (m : move) (s : vdisk) : option (outcome vdisk unit) :=
  match m with
  | MStep l => exec l s
  | MFail k status bytes =>
      if (0 <? status) && (status <? 256) && (length bytes =? Z.to_nat BSIZE)%nat && (k <? length s.(inflight))%nat then Some (dev_end status (Some bytes) k s) else None
  end.
Definition step_any (s s' : vdisk) : Prop := exists m, exec_any m s = Some (Ok tt s').

(** The driver after virtio_disk_init(), [nt] processes and the buffers [bs]. *)
Definition initial (nt : nat) (bs : list vbuf) (d : store) : vdisk :=
  mkVdisk (replicate NUM no_desc) 0 (replicate NUM 0) 0 (replicate NUM 0) (replicate NUM true) 0 (replicate NUM (None, 0)) (replicate NUM (mkReq 0 0 0))
    bs None (replicate nt TIdle) 0 [] false d.
End virtio.
End Virtio.
