(* ===== verification/Boot.v ===== *)
(** * Starting the kernel (kernel/main.c, virtio_disk_init() of kernel/virtio_disk.c, and the
    set-up functions of the other files)

    main() as the harts run it, up to the call of scheduler(): the first hart sets everything
    up, the others wait for it. *)

From S2P Require Import Prelude State Mem Bytes Riscv Kalloc Vm PageTable Uvm Sched Sleeplock Bio Log Pipe Proc Kvm Board Fs File Console Printf Process Syscall Sysproc Shm Virtio.

Section boot.
Context `{Text} {P : Patience} {W : Devsw} {D : Devices} {E : Entries}.

(** ** virtio_disk_init() *)

(** the address of a virtio mmio register *)
Definition R (r : Z) : Z := VIRTIO0 + r.

(** the features the driver does not accept *)
Definition unwanted : list Z :=
  [VIRTIO_BLK_F_RO; VIRTIO_BLK_F_SCSI; VIRTIO_BLK_F_CONFIG_WCE; VIRTIO_BLK_F_MQ; VIRTIO_F_ANY_LAYOUT; VIRTIO_RING_F_EVENT_IDX; VIRTIO_RING_F_INDIRECT_DESC].

(** features &= ~(1 << b), for each of them *)
Definition mask_features (features : Z) : Z := foldl (fun f b => Z.land f (Z.lnot (Z.shiftl 1 b))) features unwanted.

(** The first checks: is there a disk? *)
Definition find_disk : M board bool :=
  magic ← read32 (R VIRTIO_MMIO_MAGIC_VALUE);
  if negb (magic =? 0x74726976) then mret false else
  version ← read32 (R VIRTIO_MMIO_VERSION);
  if negb (version =? 2) then mret false else
  id ← read32 (R VIRTIO_MMIO_DEVICE_ID);
  if negb (id =? 2) then mret false else
  vendor ← read32 (R VIRTIO_MMIO_VENDOR_ID);
  mret (vendor =? 0x554d4551).

(** disk.desc, disk.avail and disk.used *)
Definition alloc_queue : M board vqueue :=
  desc ← lift kalloc;
  avail ← lift kalloc;
  used ← lift kalloc;
  if (desc =? 0) || (avail =? 0) || (used =? 0) then panic "virtio disk kalloc" else
  lift (do_memset desc 0 PGSIZE);;
  lift (do_memset avail 0 PGSIZE);;
  lift (do_memset used 0 PGSIZE);;
  free ← gets (fun m => m.(vq).(vq_free));
  mret (mkVq desc avail used free).

(** The addresses of the queue, in two halves each. *)
Definition write_queue (q : vqueue) : M board unit :=
  write32 (R VIRTIO_MMIO_QUEUE_DESC_LOW) q.(vq_desc);;
  write32 (R VIRTIO_MMIO_QUEUE_DESC_HIGH) (Z.shiftr q.(vq_desc) 32);;
  write32 (R VIRTIO_MMIO_DRIVER_DESC_LOW) q.(vq_avail);;
  write32 (R VIRTIO_MMIO_DRIVER_DESC_HIGH) (Z.shiftr q.(vq_avail) 32);;
  write32 (R VIRTIO_MMIO_DEVICE_DESC_LOW) q.(vq_used);;
  write32 (R VIRTIO_MMIO_DEVICE_DESC_HIGH) (Z.shiftr q.(vq_used) 32).

Definition virtio_disk_init : M board unit :=
  let status := 0 in
  lift (initlock LkVdisk);;
  found ← find_disk;
  if negb found then panic "could not find virtio disk" else
  write32 (R VIRTIO_MMIO_STATUS) status;;
  let status := Z.lor status VIRTIO_CONFIG_S_ACKNOWLEDGE in
  write32 (R VIRTIO_MMIO_STATUS) status;;
  let status := Z.lor status VIRTIO_CONFIG_S_DRIVER in
  write32 (R VIRTIO_MMIO_STATUS) status;;
  features ← read32 (R VIRTIO_MMIO_DEVICE_FEATURES);
  write32 (R VIRTIO_MMIO_DRIVER_FEATURES) (mask_features features);;
  let status := Z.lor status VIRTIO_CONFIG_S_FEATURES_OK in
  write32 (R VIRTIO_MMIO_STATUS) status;;
  status ← read32 (R VIRTIO_MMIO_STATUS);
  if Z.land status VIRTIO_CONFIG_S_FEATURES_OK =? 0 then panic "virtio disk FEATURES_OK unset" else
  write32 (R VIRTIO_MMIO_QUEUE_SEL) 0;;
  ready ← read32 (R VIRTIO_MMIO_QUEUE_READY);
  if negb (ready =? 0) then panic "virtio disk should not be ready" else
  max ← read32 (R VIRTIO_MMIO_QUEUE_NUM_MAX);
  if max =? 0 then panic "virtio disk has no queue 0" else
  if max <? Z.of_nat NUM then panic "virtio disk max queue too short" else
  q ← alloc_queue;
  modify (set_vq q);;
  write32 (R VIRTIO_MMIO_QUEUE_NUM) (Z.of_nat NUM);;
  write_queue q;;
  write32 (R VIRTIO_MMIO_QUEUE_READY) 1;;
  for_range NUM 0 (fun i => modify (fun m => set_vq (mkVq m.(vq).(vq_desc) m.(vq).(vq_avail) m.(vq).(vq_used) (<[i := 1]> m.(vq).(vq_free))) m));;
  let status := Z.lor status VIRTIO_CONFIG_S_DRIVER_OK in
  write32 (R VIRTIO_MMIO_STATUS) status.

(** ** Set-up functions *)

(** vm.c *)
Definition kvminit : M board unit := pt ← lift kvmmake; modify (set_kernel_pagetable pt).
Definition kvminithart : M board unit :=
  sfence_vma;;
  pt ← gets kernel_pagetable;
  w_satp (MAKE_SATP pt);;
  sfence_vma.

(** console.c; [Devsw] is the device switch *)
Definition upd_devsw (major : Z) (f : devent -> devent) : M board unit :=
  modify (fun m => set_devsw (<[major := f (default (mkDevent None None) (m.(devsw) !! major))]> m.(devsw)) m).

Definition consoleinit : M board unit :=
  lift (initlock LkCons);;
  uartinit;;
  upd_devsw CONSOLE (fun e => mkDevent (Some Fconsoleread) e.(dv_write));;
  upd_devsw CONSOLE (fun e => mkDevent e.(dv_read) (Some Fconsolewrite)).
(** printf.c *)
Definition printfinit : M board unit := lift (initlock LkPr);; modify (set_pr_locking 1).
(** trap.c *)
Definition trapinit : M board unit := lift (initlock LkTicks).
Definition trapinithart : M board unit := w_stvec kernelvec.
(** file.c *)
Definition fileinit : M board unit := lift (initlock LkFtable).

Definition kprintf (fmt : string) (ap : list varg) : M board unit :=
  locking ← gets pr_locking;
  lift (printf locking (chars fmt) ap).

(** ** main() *)

(** while (started == 0) ; *)
Definition spin_started : M board unit := fun _ => Timeout.

(** main() up to scheduler() *)
Definition main : M board unit :=
  lift shm_init;;
  id ← cpuid;
  if id =? 0 then
    consoleinit;;
    printfinit;;
    kprintf "\n" [];;
    kprintf "xv6 kernel is booting\n" [];;
    kprintf "\n" [];;
    lift (kinit (S npages));;
    kvminit;;
    kvminithart;;
    lift procinit;;
    trapinit;;
    trapinithart;;
    plicinit;;
    plicinithart;;
    lift binit;;
    lift iinit;;
    fileinit;;
    virtio_disk_init;;
    lift userinit;;
    modify (set_started 1)
  else
    st ← gets started;
    if st =? 0 then spin_started else
    id ← cpuid;
    kprintf "hart %d starting\n" [VNum id];;
    kvminithart;;
    trapinithart;;
    plicinithart.
End boot.
