(* ===== verification/DiskInit.v ===== *)
(** * virtio_disk_init()

    On a machine with a virtio disk, virtio_disk_init() makes the accesses the virtio
    specification asks for (section 3.1.1, device initialization, and 4.2.3, virtqueue
    configuration), in order, and hands the device three zeroed pages. *)

From S2P Require Import Prelude State Mem Bytes Riscv Kalloc Vm PageTable Uvm UvmAlloc UvmFree Sched Sleeplock Proc ProcVm ProcAlloc Kvm Board Fs File Console Printf Process Syscall Sysproc Shm Virtio Boot.

Section diskinit.
Context `{Text} {P : Patience} {W : Devsw} {D : Devices} {E : Entries}.
Implicit Types (m : board) (tr : list io).

(** ** The device *)

(** The last value written to a register. *)
Definition note (a : Z) (o : option Z) (e : io) : option Z := match e with IoWrite b v => if b =? a then Some v else o | IoRead _ _ => o end.
Definition written tr (a : Z) : option Z := foldl (note a) None tr.

(** QueueReady: what was written to it, since the last reset. *)
Definition note_ready (q : Z) (e : io) : Z :=
  match e with
  | IoWrite b v => if b =? R VIRTIO_MMIO_QUEUE_READY then v else if (b =? R VIRTIO_MMIO_STATUS) && (v =? 0) then 0 else q
  | IoRead _ _ => q
  end.
Definition queue_ready tr : Z := foldl note_ready 0 tr.

(** A virtio disk that offers these features and queues of up to [max] descriptors. *)
Record VirtioBlk (features max : Z) : Prop := {
  vb_magic tr : device tr (R VIRTIO_MMIO_MAGIC_VALUE) = 0x74726976;
  vb_version tr : device tr (R VIRTIO_MMIO_VERSION) = 2;
  vb_id tr : device tr (R VIRTIO_MMIO_DEVICE_ID) = 2;
  vb_vendor tr : device tr (R VIRTIO_MMIO_VENDOR_ID) = 0x554d4551;
  vb_features tr : device tr (R VIRTIO_MMIO_DEVICE_FEATURES) = features;
  vb_features_range : 0 <= features < 2 ^ 32;
  (** it accepts any part of the features it offers *)
  vb_status tr f v : written tr (R VIRTIO_MMIO_DRIVER_FEATURES) = Some f -> Z.land f (Z.lnot features) = 0 ->
    written tr (R VIRTIO_MMIO_STATUS) = Some v -> device tr (R VIRTIO_MMIO_STATUS) = v;
  vb_ready tr : device tr (R VIRTIO_MMIO_QUEUE_READY) = queue_ready tr;
  vb_max tr : device tr (R VIRTIO_MMIO_QUEUE_NUM_MAX) = max;
  vb_max_range : Z.of_nat NUM <= max < 2 ^ 32;
}.

(** The accesses virtio_disk_init() makes, with the queue at [d], [a] and [u]. *)
Definition handshake (features max d a u : Z) : list io :=
  [IoRead (R VIRTIO_MMIO_MAGIC_VALUE) 0x74726976; IoRead (R VIRTIO_MMIO_VERSION) 2; IoRead (R VIRTIO_MMIO_DEVICE_ID) 2; IoRead (R VIRTIO_MMIO_VENDOR_ID) 0x554d4551;
   IoWrite (R VIRTIO_MMIO_STATUS) 0; IoWrite (R VIRTIO_MMIO_STATUS) 1; IoWrite (R VIRTIO_MMIO_STATUS) 3;
   IoRead (R VIRTIO_MMIO_DEVICE_FEATURES) features; IoWrite (R VIRTIO_MMIO_DRIVER_FEATURES) (mask_features features);
   IoWrite (R VIRTIO_MMIO_STATUS) 11; IoRead (R VIRTIO_MMIO_STATUS) 11;
   IoWrite (R VIRTIO_MMIO_QUEUE_SEL) 0; IoRead (R VIRTIO_MMIO_QUEUE_READY) 0; IoRead (R VIRTIO_MMIO_QUEUE_NUM_MAX) max; IoWrite (R VIRTIO_MMIO_QUEUE_NUM) 8;
   IoWrite (R VIRTIO_MMIO_QUEUE_DESC_LOW) (u32 d); IoWrite (R VIRTIO_MMIO_QUEUE_DESC_HIGH) (Z.shiftr d 32);
   IoWrite (R VIRTIO_MMIO_DRIVER_DESC_LOW) (u32 a); IoWrite (R VIRTIO_MMIO_DRIVER_DESC_HIGH) (Z.shiftr a 32);
   IoWrite (R VIRTIO_MMIO_DEVICE_DESC_LOW) (u32 u); IoWrite (R VIRTIO_MMIO_DEVICE_DESC_HIGH) (Z.shiftr u 32);
   IoWrite (R VIRTIO_MMIO_QUEUE_READY) 1; IoWrite (R VIRTIO_MMIO_STATUS) 15].

(** ** Accesses *)

Definition log (e : io) m : board := set_trace (m.(trace) ++ [e]) m.

Lemma wp_read32 a v m (Q : Z -> board -> Prop) : device m.(trace) a = v -> 0 <= v < 2 ^ 32 -> Q v (log (IoRead a v) m) -> wp (read32 a) Q m.
Proof. intros Ev Hv HQ. unfold wp, read32, mmio_read, mbind, M_bind. cbn. rewrite Ev. unfold mret, M_ret. by rewrite u32_small. Qed.

Lemma wp_write32 a v m (Q : unit -> board -> Prop) : Q tt (log (IoWrite a (u32 v)) m) -> wp (write32 a v) Q m.
Proof. done. Qed.

Lemma wp_lift {A} (c : M kernel A) m (Q : A -> board -> Prop) : wp c (fun a s => Q a (set_kern s m)) m.(kern) -> wp (lift c) Q m.
Proof. unfold wp, lift. destruct (c m.(kern)); auto. Qed.

Lemma written_snoc tr e a : written (tr ++ [e]) a = note a (written tr a) e.
Proof. unfold written. by rewrite foldl_app. Qed.

Lemma queue_ready_snoc tr e : queue_ready (tr ++ [e]) = note_ready (queue_ready tr) e.
Proof. unfold queue_ready. by rewrite foldl_app. Qed.

(** The features the driver takes are among those offered, and none it does not want. *)
Lemma mask_features_bits f b : 0 <= b -> Z.testbit (mask_features f) b = Z.testbit f b && negb (bool_decide (b ∈ unwanted)).
Proof.
  intros Hb. unfold mask_features. assert (forall l, Forall (Z.le 0) l -> forall g, Z.testbit (foldl (fun f b => Z.land f (Z.lnot (Z.shiftl 1 b))) g l) b = Z.testbit g b && negb (bool_decide (b ∈ l))) as Hall.
  { induction 1 as [|x l Hx _ IH]; intros g; cbn [foldl]; [rewrite bool_decide_eq_false_2 by apply not_elem_of_nil; by rewrite andb_true_r |].
    rewrite IH, Z.land_spec, Z.lnot_spec, <- andb_assoc by done. f_equal. rewrite Z.shiftl_1_l, Z.pow2_bits_eqb by done.
    destruct (Z.eqb_spec x b) as [->|Hne]; cbn; [rewrite bool_decide_eq_true_2 by apply list_elem_of_here; done |].
    f_equal. apply bool_decide_ext. rewrite elem_of_cons. naive_solver. }
  apply Hall. repeat constructor; done.
Qed.

Lemma mask_features_sub f : Z.land (mask_features f) (Z.lnot f) = 0.
Proof. apply Z.bits_inj'. intros b Hb. rewrite Z.land_spec, Z.lnot_spec, mask_features_bits, Z.bits_0 by done. destruct (Z.testbit f b); cbn; by rewrite ?andb_false_r. Qed.

Lemma mask_features_range f : 0 <= f < 2 ^ 32 -> 0 <= mask_features f < 2 ^ 32.
Proof.
  intros Hf. replace (mask_features f) with (mask_features f mod 2 ^ 32); [by apply Z.mod_pos_bound |]. apply Z.bits_inj'. intros b Hb. rewrite <- (Z.mod_small f (2 ^ 32)) by done.
  destruct (decide (b < 32)); [by rewrite Z.mod_pow2_bits_low | by rewrite Z.mod_pow2_bits_high, mask_features_bits, Z.mod_pow2_bits_high by lia].
Qed.

(** ** The steps *)

Lemma wp_find_disk features max m (Q : bool -> board -> Prop) : VirtioBlk features max -> Q true (set_trace (m.(trace) ++ take 4 (handshake features max 0 0 0)) m) -> wp find_disk Q m.
Proof.
  intros V HQ. unfold find_disk. apply wp_bind. eapply wp_read32; [apply V | done |]. cbn [Z.eqb]. change (negb _) with false at 1. cbv iota.
  apply wp_bind. eapply wp_read32; [apply V | done |]. change (negb (2 =? 2)) with false. cbv iota.
  apply wp_bind. eapply wp_read32; [apply V | done |]. change (negb (2 =? 2)) with false. cbv iota.
  apply wp_bind. eapply wp_read32; [apply V | done |]. apply wp_ret. change (0x554d4551 =? 0x554d4551) with true. unfold log. cbn [trace set_trace]. rewrite <- !app_assoc. exact HQ.
Qed.

(** The pages [ps] have been taken from the free list, of which [l] is left; [zs] of them are zeroed. *)
Record ring_pages (s s' : kernel) (ps zs l : list Z) : Prop := {
  rp_only : only_mem s s';
  rp_kmem : kmem_inv s' l;
  rp_zero p i : p ∈ zs -> 0 <= i < 4096 -> load8 s'.(mem) (p + i) = 0;
  rp_page p : p ∈ ps -> page_ok p /\ p ∉ l;
  rp_nodup : NoDup ps;
  rp_frame a : (forall p, p ∈ ps -> outside a p) -> load8 s'.(mem) a = load8 s.(mem) a;
}.

Lemma ring_start s l : kmem_inv s l -> ring_pages s s [] [] l.
Proof. intros Hkm. constructor; [apply only_mem_refl | done | intros p i []%not_elem_of_nil | intros p []%not_elem_of_nil | constructor | done]. Qed.

Lemma kalloc_ring s s1 ps p l : LkKmem ∉ s.(held) -> ring_pages s s1 ps [] (p :: l) -> exists s2, kalloc s1 = Ok p s2 /\ ring_pages s s2 (ps ++ [p]) [] l.
Proof.
  intros Hlk [Ho Hkm _ Hps Hnd Hx]. destruct (kalloc_run s1 p l Hkm) as (s2 & E2 & Hkm2 & Ho2 & Hp & Hpl & Hx2); [by rewrite (only_mem_held _ _ Ho) |].
  exists s2. split; [done |]. constructor; [by eapply only_mem_trans | done | intros q i []%not_elem_of_nil | | |].
  - intros q [Hq| ->%list_elem_of_singleton]%elem_of_app; [|done]. destruct (Hps q Hq) as [? Hn]. split; [done |]. intros Hin. by apply Hn, list_elem_of_further.
  - apply NoDup_app. split_and!; [done | | apply NoDup_singleton]. intros q Hq ->%list_elem_of_singleton. by apply (Hps p Hq), list_elem_of_here.
  - intros a Ha. rewrite Hx2 by (apply Ha; set_solver +). apply Hx. intros q Hq. apply Ha. set_solver + Hq.
Qed.

(** memset() of one of the pages. *)
Lemma memset_ring s s1 ps zs p l : p ∈ ps -> zs ⊆ ps -> ring_pages s s1 ps zs l -> exists s2, do_memset p 0 PGSIZE s1 = Ok tt s2 /\ ring_pages s s2 ps (zs ++ [p]) l.
Proof.
  intros Hp Hsub [Ho Hkm Hz Hps Hnd Hx]. destruct (Hps p Hp) as [Hpok Hpl]. eexists. split; [reflexivity |]. constructor; cbn [mem set_mem]; [| | | done | done |].
  - eapply only_mem_trans; [exact Ho | apply only_mem_set].
  - eapply kmem_inv_frame; [exact Hkm | done |]. intros q Hq a Ha. cbn [mem set_mem]. apply memset_outside.
    eapply (outside_pages a p q); [apply Hpok | by eapply (free_page_ok s1 l) | congruence | exact Ha].
  - intros q i Hq Hi. rewrite load8_memset. case_decide as Hin; [done |]. apply elem_of_app in Hq as [Hq| ->%list_elem_of_singleton]; [by apply Hz |]. unfold PGSIZE in Hin. lia.
  - intros a Ha. rewrite memset_outside by (by apply Ha). by apply Hx.
Qed.

Lemma wp_alloc_queue m d a u l (Q : vqueue -> board -> Prop) : kmem_inv m.(kern) (d :: a :: u :: l) -> LkKmem ∉ m.(kern).(held) ->
  (forall s', ring_pages m.(kern) s' [d; a; u] [d; a; u] l -> Q (mkVq d a u m.(vq).(vq_free)) (set_kern s' m)) -> wp alloc_queue Q m.
Proof.
  intros Hkm Hlk HQ. destruct (kalloc_ring _ _ [] d (a :: u :: l) Hlk (ring_start _ _ Hkm)) as (s1 & E1 & R1).
  destruct (kalloc_ring _ s1 _ a (u :: l) Hlk R1) as (s2 & E2 & R2). destruct (kalloc_ring _ s2 _ u l Hlk R2) as (s3 & E3 & R3). cbn [app] in R3.
  destruct (memset_ring _ s3 [d; a; u] [] d l ltac:(set_solver +) ltac:(set_solver +) R3) as (s4 & E4 & R4).
  destruct (memset_ring _ s4 [d; a; u] [d] a l ltac:(set_solver +) ltac:(set_solver +) R4) as (s5 & E5 & R5).
  destruct (memset_ring _ s5 [d; a; u] [d; a] u l ltac:(set_solver +) ltac:(set_solver +) R5) as (s6 & E6 & R6).
  assert (forall p, p ∈ [d; a; u] -> p <> 0) as Hnz by (intros p Hp ->; destruct (rp_page _ _ _ _ _ R3 0 Hp) as [Hp0 _]; apply page_pos in Hp0; lia).
  unfold alloc_queue. apply wp_bind, wp_lift. eapply wp_Ok; [exact E1 |]. apply wp_bind, wp_lift. eapply wp_Ok; [exact E2 |]. apply wp_bind, wp_lift. eapply wp_Ok; [exact E3 |].
  rewrite (proj2 (Z.eqb_neq d 0)), (proj2 (Z.eqb_neq a 0)), (proj2 (Z.eqb_neq u 0)) by (apply Hnz; set_solver +). cbn [orb]. cbv iota.
  apply wp_bind, wp_lift. eapply wp_Ok; [exact E4 |]. apply wp_bind, wp_lift. eapply wp_Ok; [exact E5 |]. apply wp_bind, wp_lift. eapply wp_Ok; [exact E6 |].
  apply wp_bind, wp_gets, wp_ret. by apply (HQ s6).
Qed.

Lemma wp_write_queue q m (Q : unit -> board -> Prop) :
  Q tt (set_trace (m.(trace) ++ [IoWrite (R VIRTIO_MMIO_QUEUE_DESC_LOW) (u32 q.(vq_desc)); IoWrite (R VIRTIO_MMIO_QUEUE_DESC_HIGH) (u32 (Z.shiftr q.(vq_desc) 32));
    IoWrite (R VIRTIO_MMIO_DRIVER_DESC_LOW) (u32 q.(vq_avail)); IoWrite (R VIRTIO_MMIO_DRIVER_DESC_HIGH) (u32 (Z.shiftr q.(vq_avail) 32));
    IoWrite (R VIRTIO_MMIO_DEVICE_DESC_LOW) (u32 q.(vq_used)); IoWrite (R VIRTIO_MMIO_DEVICE_DESC_HIGH) (u32 (Z.shiftr q.(vq_used) 32))]) m) ->
  wp (write_queue q) Q m.
Proof.
  intros HQ. unfold write_queue. do 5 (apply wp_bind, wp_write32). apply wp_write32. unfold log. cbn [trace set_trace]. rewrite <- !app_assoc. exact HQ.
Qed.

(** for (i = 0; i < NUM; i++) disk.free[i] = 1; *)
Lemma wp_free_all m (Q : unit -> board -> Prop) : length m.(vq).(vq_free) = NUM -> Q tt (set_vq (mkVq m.(vq).(vq_desc) m.(vq).(vq_avail) m.(vq).(vq_used) (replicate NUM 1)) m) ->
  wp (for_range NUM 0 (fun i => modify (fun m => set_vq (mkVq m.(vq).(vq_desc) m.(vq).(vq_avail) m.(vq).(vq_used) (<[i := 1]> m.(vq).(vq_free))) m))) Q m.
Proof.
  intros Hl HQ. destruct m.(vq) as [d a u f] eqn:Ev. cbn [vq_free vq_desc vq_avail vq_used] in *. do 9 (destruct f as [|? f]; [try discriminate |]). 
  - cbn [for_range NUM]. repeat (apply wp_bind, wp_modify; cbn [vq set_vq]). apply wp_ret. rewrite Ev. cbn. exact HQ.
  - discriminate.
Qed.

Lemma page_half p : page_ok p -> u32 (Z.shiftr p 32) = Z.shiftr p 32.
Proof. intros Hp. pose proof (page_56 p Hp). apply u32_small. rewrite Z.shiftr_div_pow2 by lia. split; [apply Z.div_pos; lia | apply Z.div_lt_upper_bound; lia]. Qed.

(** What virtio_disk_init() leaves. *)
Record disk_ready features max m (d a u : Z) (l : list Z) m' : Prop := {
  dr_pages : ring_pages m.(kern) m'.(kern) [d; a; u] [d; a; u] l;
  dr_board : m' = set_kern m'.(kern) (set_vq (mkVq d a u (replicate NUM 1)) (set_trace (m.(trace) ++ handshake features max d a u) m));
}.

(** Reading a register when the last accesses decide the answer. *)
Ltac device_reads := rewrite ?written_snoc, ?queue_ready_snoc; reflexivity.

Lemma virtio_disk_init_run features max m d a u l : VirtioBlk features max -> kmem_inv m.(kern) (d :: a :: u :: l) -> LkKmem ∉ m.(kern).(held) -> LkVdisk ∉ m.(kern).(held) ->
  length m.(vq).(vq_free) = NUM -> exists m', virtio_disk_init m = Ok tt m' /\ disk_ready features max m d a u l m'.
Proof.
  intros V Hkm Hlk Hvl Hfree. enough (wp virtio_disk_init (fun _ m' => disk_ready features max m d a u l m') m) as Hw by (destruct (wp_inv _ _ _ Hw) as ([] & m' & ? & ?); by exists m').
  unfold virtio_disk_init. apply wp_bind, wp_lift. eapply wp_Ok; [by apply initlock_Ok |]. replace (set_kern m.(kern) m) with m by (by destruct m).
  apply wp_bind. apply (wp_find_disk features max); [done |]. cbn [negb]. cbv iota. do 3 (apply wp_bind, wp_write32).
  apply wp_bind. eapply wp_read32; [apply V | apply V |]. apply wp_bind, wp_write32. rewrite (u32_small (mask_features features)) by (apply mask_features_range, V). apply wp_bind, wp_write32.
  apply wp_bind. eapply (wp_read32 _ 11); [eapply (vb_status _ _ V _ (mask_features features)); [cbn [trace set_trace log]; device_reads | apply mask_features_sub | cbn [trace set_trace log]; device_reads] | done |].
  change (Z.land 11 VIRTIO_CONFIG_S_FEATURES_OK =? 0) with false. cbv iota. apply wp_bind, wp_write32.
  apply wp_bind. eapply (wp_read32 _ 0); [rewrite (vb_ready _ _ V); cbn [trace set_trace log]; device_reads | done |]. cbn [negb Z.eqb]. cbv iota.
  apply wp_bind. eapply wp_read32; [apply V | pose proof (vb_max_range _ _ V); lia |]. pose proof (vb_max_range _ _ V) as Hmax. change (Z.of_nat NUM) with 8 in *.
  destruct (Z.eqb_spec max 0); [lia |]. destruct (Z.ltb_spec max 8); [lia |]. apply wp_bind.
  match goal with |- wp _ _ ?x => assert (x = set_trace (m.(trace) ++ take 14 (handshake features max d a u)) m) as -> by (unfold log; cbn [trace set_trace]; rewrite <- !app_assoc; by destruct m) end.
  apply (wp_alloc_queue _ d a u l); [done | done |]. intros s' Hrp. apply wp_bind, wp_modify, wp_bind, wp_write32, wp_bind, wp_write_queue, wp_bind, wp_write32, wp_bind.
  apply wp_free_all; [done |]. apply wp_write32. cbn [vq_desc vq_avail vq_used vq set_vq]. rewrite !page_half by (apply (rp_page _ _ _ _ _ Hrp); set_solver +).
  constructor; [exact Hrp |]. unfold log. cbn [trace set_trace set_vq set_kern vq vq_desc vq_avail vq_used]. rewrite <- !app_assoc. by destruct m.
Qed.
End diskinit.
