(* ===== verification/BootSpec.v ===== *)
(** * The state main() leaves

    main() on the first hart, from zeroed variables and memory of any contents: the kernel's
    page table is built and turned on, the devices are set up, the console has printed its
    greeting and the first process is ready to run.  A hart that comes later turns on the
    same page table. *)

From S2P Require Import Prelude State Mem Bytes Riscv Kalloc Vm PageTable Uvm UvmAlloc UvmFree Sched Sleeplock Bio Bcache Log Pipe Proc ProcVm ProcAlloc ProcGrow Kvm Board Fs FsPath FsBlock FsInode FsDir File Console Printf Process UserInit Syscall Sysproc Shm Virtio Boot DiskInit.

(** ** Set-up of the tables *)

Definition init_slot (i : nat) (p : proc) : proc := set_p_sig_handlers (replicate 32 0) (set_p_kstack (KSTACK (Z.of_nat i)) (set_p_state UNUSED p)).

Lemma procinit_run s : procs_ok s -> s.(held) = ∅ -> procinit s = Ok tt (set_procs (imap init_slot s.(procs)) s).
Proof.
  intros Hlen Hh. enough (wp procinit (fun _ s' => s' = set_procs (imap init_slot s.(procs)) s) s) as Hw by (by apply wp_inv in Hw as ([] & s' & E & ->)).
  unfold procinit. apply wp_bind. eapply wp_Ok; [apply initlock_Ok; rewrite Hh; apply not_elem_of_empty |]. apply wp_bind. eapply wp_Ok; [apply initlock_Ok; rewrite Hh; apply not_elem_of_empty |].
  apply (wp_for_range _ (fun k s' => s' = set_procs (upto init_slot k s.(procs)) s)).
  - by rewrite upto_0; destruct s.
  - intros k s' Hk ->. apply wp_bind. eapply wp_Ok; [apply initlock_Ok; cbn; rewrite Hh; apply not_elem_of_empty |]. apply wp_bind, wp_modify, wp_bind, wp_modify, wp_modify.
    cbn [procs set_procs]. rewrite !list_alter_alter_eq, <- upto_step. done.
  - intros s' ->. rewrite upto_all; [done |]. unfold procs_ok in Hlen. cbn. lia.
Qed.

Lemma shm_init_run s : exists g, shm_init s = Ok tt (set_shm_segments g s).
Proof.
  enough (wp shm_init (fun _ s' => exists g, s' = set_shm_segments g s) s) as Hw by (apply wp_inv in Hw as ([] & s' & E & g & ->); by exists g).
  unfold shm_init. apply (wp_for_range _ (fun _ s' => exists g, s' = set_shm_segments g s)).
  - exists s.(shm_segments). by destruct s.
  - intros k s' _ [g ->]. apply wp_bind, wp_modify, wp_modify. by eexists.
  - done.
Qed.

Lemma iinit_run s : s.(held) = ∅ -> exists x, iinit s = Ok tt (set_slocks x s).
Proof.
  intros Hh. enough (wp iinit (fun _ s' => exists x, s' = set_slocks x s) s) as Hw by (apply wp_inv in Hw as ([] & s' & E & g & ->); by exists g).
  unfold iinit. apply wp_bind. eapply wp_Ok; [apply initlock_Ok; rewrite Hh; apply not_elem_of_empty |]. apply (wp_for_range _ (fun _ s' => exists g, s' = set_slocks g s)).
  - exists s.(slocks). by destruct s.
  - intros k s' _ [g ->]. unfold initsleeplock. apply wp_bind. eapply wp_Ok; [apply initlock_Ok; cbn; rewrite Hh; apply not_elem_of_empty |]. apply wp_modify. by eexists.
  - done.
Qed.

Lemma binit_tables s : s.(held) = ∅ -> exists x y, binit s = Ok tt (set_blru x (set_slocks y s)).
Proof.
  intros Hh. destruct (wp_inv _ _ _ (binit_state s ltac:(rewrite Hh; apply not_elem_of_empty) ltac:(intros l; rewrite Hh; apply not_elem_of_empty))) as ([] & s' & E & Es & _). exists (rev (seq 0 NBUF)), s'.(slocks). by rewrite E, <- Es.
Qed.

Section boot.
Context `{Text} {P : Patience} {W : Devsw} {D : Devices} {E : Entries}.
Implicit Types (m : board) (s : kernel) (N : gmap (list Z) Z) (l : list Z).

(** The kernel's table stays as it is when only free pages are written. *)
Lemma ktable_frame s s' root N l l' (R : list region) : ktable s root N l R -> kmem_inv s' l' -> LkKmem ∉ s'.(held) -> l' ⊆ l ->
  (forall a, (forall q, q ∈ l -> outside a q) -> load8 s'.(mem) a = load8 s.(mem) a) -> ktable s' root N l' R.
Proof.
  intros [[Hw Hkm Hlk Hsep] Hm] Hkm' Hlk' Hsub Hx.
  assert (forall k q, N !! k = Some q -> agree s.(mem) s'.(mem) q (q + 4096)) as Hag.
  { intros k q Hk a Ha. apply Hx. intros q' Hq'. eapply outside_pages; [by eapply (free_page_ok s l) | apply (wf_page _ _ _ Hw k q Hk) | | exact Ha]. intros ->. by apply (Hsep k q Hk). }
  constructor; [constructor; [by eapply pt_wf_agree | done | done |] |].
  - intros k q Hk Hin. by apply (Hsep k q Hk), Hsub.
  - intros va Hva Hva4. rewrite (lookup_agree s.(mem) s'.(mem) root N va Hw Hag). by apply Hm.
Qed.

(** The accesses of uartinit(), and of plicinit() and plicinithart() on hart 0. *)
Definition uart_setup : list io :=
  [IoWrite (UART0 + 1) 0; IoWrite (UART0 + 3) 128; IoWrite (UART0 + 0) 3; IoWrite (UART0 + 1) 0; IoWrite (UART0 + 3) 3; IoWrite (UART0 + 2) 7; IoWrite (UART0 + 1) 3].
Definition plic_setup : list io :=
  [IoWrite (PLIC + 40) 1; IoWrite (PLIC + 4) 1; IoWrite (PLIC_SENABLE 0) 1026; IoWrite (PLIC_SPRIORITY 0) 0].

Definition banner : list Z := chars "\nxv6 kernel is booting\n\n".

(** initlock() of a lock that is not held. *)
Lemma wp_initlock {A} lk m (k : M board A) (Q : A -> board -> Prop) : lk ∉ m.(kern).(held) -> wp k Q m -> wp (lift (initlock lk);; k) Q m.
Proof. intros Hlk Hk. apply wp_bind, wp_lift. eapply wp_Ok; [by apply initlock_Ok |]. by replace (set_kern m.(kern) m) with m by (by destruct m). Qed.

Lemma wp_kprintf {A} fmt ap bs m (k : M board A) (Q : A -> board -> Prop) : printf_loop (S (length (chars fmt))) (chars fmt) ap = Shown bs -> Forall (fun c => 0 <= c < 256) bs ->
  m.(pr_locking) = 1 -> LkPr ∉ m.(kern).(held) -> (length bs <= ready m.(kern).(cons).(dev_idle))%nat ->
  (forall (l' : list bool), (ready m.(kern).(cons).(dev_idle) = length bs + ready l')%nat -> wp k Q (set_kern (sent bs l' m.(kern)) m)) -> wp (kprintf fmt ap;; k) Q m.
Proof.
  intros Hf Hb Hl Hlk Hr Hk. apply wp_bind. unfold kprintf. apply wp_bind, wp_gets. rewrite Hl. apply wp_lift. destruct (printf_run (chars fmt) ap bs m.(kern) Hf Hb Hlk Hr) as (l' & Es & Hr'). eapply wp_Ok; [exact Es |]. by apply Hk.
Qed.

Ltac unheld := cbn; match goal with H : held _ = ∅ |- _ => rewrite H end; apply not_elem_of_empty.

(** devsw[] after consoleinit(). *)
Definition console_entry : devent := mkDevent (Some Fconsoleread) (Some Fconsolewrite).

Lemma wp_greeting {A} m (k : M board A) (Q : A -> board -> Prop) : m.(kern).(held) = ∅ -> (24 <= ready m.(kern).(cons).(dev_idle))%nat ->
  (forall (l' : list bool), wp k Q (set_kern (sent banner l' m.(kern)) (set_pr_locking 1 (set_devsw (<[CONSOLE := console_entry]> m.(devsw)) (set_trace (m.(trace) ++ uart_setup) m))))) ->
  wp (consoleinit;; printfinit;; kprintf "\n" [];; kprintf "xv6 kernel is booting\n" [];; kprintf "\n" [];; k) Q m.
Proof.
  intros Hh Hr Hk. apply wp_bind. unfold consoleinit. apply wp_initlock; [unheld |]. apply wp_bind. unfold uartinit, WriteReg. do 7 (apply wp_bind, wp_modify).
  match goal with |- wp _ _ ?x => assert (x = set_trace (m.(trace) ++ uart_setup) m) as -> by (cbn [trace set_trace]; rewrite <- !app_assoc; by destruct m) end.
  apply wp_lift. eapply wp_Ok; [apply initlock_Ok; unheld |]. apply wp_bind, wp_modify, wp_modify. cbn [devsw set_devsw set_trace set_kern].
  rewrite insert_insert_eq, lookup_insert_eq. cbn [from_option id dv_read].
  apply wp_bind. unfold printfinit. apply wp_initlock; [unheld |]. apply wp_modify.
  eapply (wp_kprintf _ _ [10]); [done | apply (bool_decide_unpack _); vm_compute; exact I | done | unheld | cbn; lia |]. intros l1 R1. cbn in R1.
  eapply (wp_kprintf _ _ (chars "xv6 kernel is booting\n")); [done | apply (bool_decide_unpack _); vm_compute; exact I | done | unheld | change (length _) with 22%nat; cbn; lia |]. intros l2 R2. change (length (chars _)) with 22%nat in R2; cbn in R2.
  eapply (wp_kprintf _ _ [10]); [done | apply (bool_decide_unpack _); vm_compute; exact I | done | unheld | cbn; lia |]. intros l3 R3. cbn [kern set_kern]. rewrite !sent_sent. apply (Hk l3).
Qed.

(** kinit(), kvminit() and kvminithart() *)
Lemma wp_paging {A} m (k : M board A) (Q : A -> board -> Prop) : m.(kern).(held) = ∅ -> m.(kern).(freelist) = 0 -> (720 <= npages)%nat ->
  (forall s' root N stacks rest, only_mem m.(kern) s' -> ktable s' root N rest (kernel_regions stacks) -> length stacks = NPROC -> NoDup stacks -> (20 <= length rest)%nat ->
    (forall p, p ∈ stacks -> page_ok p /\ p ∉ rest /\ forall k, N !! k <> Some p) ->
    wp k Q (set_csrs (<[Csatp := u64 (MAKE_SATP root)]> m.(csrs)) (set_kernel_pagetable root (set_kern s' m)))) ->
  wp (lift (kinit (S npages));; kvminit;; kvminithart;; k) Q m.
Proof.
  intros Hh Hf Hn Hk. destruct (kinit_run m.(kern) (S npages) Hf) as (s1 & E1 & Hkm1 & Ho1); [unheld | lia |]. apply wp_bind, wp_lift. eapply wp_Ok; [exact E1 |].
  destruct (kvmmake_run s1 (rev all_pages) 20 Hkm1) as (root & s2 & N & stacks & rest & E2 & Ho2 & Ht & Hns & Hnd & Hrest & Hpg).
  { rewrite (only_mem_held _ _ Ho1). unheld. }
  { rewrite length_rev. unfold all_pages, page_seq. rewrite length_fmap, length_seq. lia. }
  apply wp_bind. unfold kvminit. apply wp_bind, wp_lift. eapply wp_Ok; [exact E2 |]. apply wp_modify. apply wp_bind. unfold kvminithart, sfence_vma. apply wp_bind, wp_ret, wp_bind, wp_gets, wp_bind, wp_modify, wp_ret.
  apply (Hk s2 root N stacks rest); [by eapply only_mem_trans | done..].
Qed.

(** From procinit() to fileinit(): the tables are set up, memory is not touched. *)
Definition tables_set s s' : Prop := s' = set_procs (imap init_slot s.(procs)) (set_blru s'.(blru) (set_slocks s'.(slocks) s)).

Lemma wp_tables {A} m (k : M board A) (Q : A -> board -> Prop) : m.(kern).(held) = ∅ -> procs_ok m.(kern) -> s32 (default 0 (m.(csrs) !! Ctp)) = 0 ->
  (forall s', tables_set m.(kern) s' -> wp k Q (set_trace (m.(trace) ++ plic_setup) (set_csrs (<[Cstvec := u64 kernelvec]> m.(csrs)) (set_kern s' m)))) ->
  wp (lift procinit;; trapinit;; trapinithart;; plicinit;; plicinithart;; lift binit;; lift iinit;; fileinit;; k) Q m.
Proof.
  intros Hh Hok Htp Hk. apply wp_bind, wp_lift. eapply wp_Ok; [by apply procinit_run |]. set (s1 := set_procs _ _). assert (s1.(held) = ∅) as Hh1 by done.
  unfold trapinit. apply wp_initlock; [unheld |]. apply wp_bind. unfold trapinithart, w_stvec, w_csr. apply wp_modify.
  apply wp_bind. unfold plicinit. apply wp_bind, wp_write32, wp_write32. apply wp_bind. unfold plicinithart, cpuid. apply wp_bind, wp_bind. unfold r_tp, r_csr. apply wp_gets, wp_ret. 
  cbn [csrs set_kern set_csrs set_trace log]. rewrite lookup_insert_ne by done. rewrite Htp. apply wp_bind, wp_write32, wp_write32.
  destruct (binit_tables s1 Hh1) as (x & y & E2). apply wp_bind, wp_lift. eapply wp_Ok; [exact E2 |].
  destruct (iinit_run (set_blru x (set_slocks y s1))) as (z & E3); [done |]. apply wp_bind, wp_lift. eapply wp_Ok; [exact E3 |].
  unfold fileinit. apply wp_initlock; [unheld |].
  match goal with |- wp _ _ ?b => assert (b = set_trace (m.(trace) ++ plic_setup) (set_csrs (<[Cstvec := u64 kernelvec]> m.(csrs)) (set_kern (set_slocks z (set_blru x (set_slocks y s1))) m))) as ->
    by (unfold log; cbn [trace set_trace set_csrs set_kern]; rewrite <- !app_assoc; by destruct m) end.
  apply Hk. unfold tables_set, s1. reflexivity.
Qed.

(** ** main() *)

(** The variables of the kernel when it is loaded: as far as it matters, zero. *)
Record reset s : Prop := {
  rs_held : s.(held) = ∅;
  rs_free : s.(freelist) = 0;
  rs_procs : procs_ok s;
  rs_slots i p : s.(procs) !! i = Some p -> p.(p_pagetable) = 0 /\ p.(p_sz) = 0;
  rs_nextpid : s.(nextpid) = 1;
  rs_itable : exists x, s.(itable) !! 0%nat = Some x /\ x.(i_ref) = 0;
}.

(** The memory of the running kernel: its page table [N] with the stacks, the rings of the disk, and the pages of the
    first process, [tf] among them, and of the free list. *)
Record memory_laid_out m' (p : proc) N (stacks : list Z) (d a u : Z) : Prop := {
  ml_pages : exists (rest : list Z) l tf pt ip pg NP, let p' := init_process p 1 tf pt ip in
    m'.(kern).(procs) !! 0%nat = Some p' /\ ktable m'.(kern) m'.(kernel_pagetable) N l (kernel_regions stacks) /\
    proc_res m'.(kern) p' NP {[0 := pg]} l /\ lookup_pte m'.(kern).(mem) NP 0 = Z.lor (PA2PTE pg) first_perm /\
    (forall x, 0 <= x < 4096 -> ubyte m'.(kern).(mem) {[0 := pg]} x = Some (u8 (default 0 (initcode !! Z.to_nat x)))) /\
    load64 m'.(kern).(mem) (tf + TF_epc) = 0 /\ load64 m'.(kern).(mem) (tf + TF_sp) = PGSIZE /\
    (exists y, m'.(kern).(itable) !! ip = Some y /\ is_inode ROOTDEV ROOTINO y) /\
    (forall q, q ∈ rest <-> q ∈ [d; a; u] \/ res_owned NP {[0 := pg]} l p' q) /\
    (forall q, q ∈ [d; a; u] -> ~ res_owned NP {[0 := pg]} l p' q) /\
    (forall q, q ∈ stacks -> page_ok q /\ q ∉ rest /\ forall k, N !! k <> Some q) /\ (forall k q, N !! k = Some q -> q ∉ rest);
  ml_stacks : length stacks = NPROC /\ NoDup stacks;
  ml_rings : NoDup [d; a; u] /\ forall q i, q ∈ [d; a; u] -> 0 <= i < 4096 -> load8 m'.(kern).(mem) (q + i) = 0;
}.

Record booted features max m m' : Prop := {
  bt_started : m'.(started) = 1;
  bt_satp : m'.(csrs) !! Csatp = Some (u64 (MAKE_SATP m'.(kernel_pagetable)));
  bt_stvec : m'.(csrs) !! Cstvec = Some (u64 kernelvec);
  bt_held : m'.(kern).(held) = ∅;
  bt_out : m'.(kern).(cons).(dev_out) = m.(kern).(cons).(dev_out) ++ banner;
  bt_devsw : m'.(devsw) = <[CONSOLE := console_entry]> m.(devsw);
  bt_initproc : m'.(kern).(initproc) = Some 0%nat;
  bt_slots i p : (0 < i)%nat -> m.(kern).(procs) !! i = Some p -> m'.(kern).(procs) !! i = Some (init_slot i p);
  bt_memory : exists p N stacks d a u, m.(kern).(procs) !! 0%nat = Some p /\ memory_laid_out m' (init_slot 0 p) N stacks d a u /\
    m'.(vq) = mkVq d a u (replicate NUM 1) /\ m'.(trace) = m.(trace) ++ uart_setup ++ plic_setup ++ handshake features max d a u;
}.

Lemma find_first s : procs_ok s -> exists p, s.(procs) !! 0%nat = Some p /\ list_find (fun p => p.(p_state) = UNUSED) (imap init_slot s.(procs)) = Some (0%nat, init_slot 0 p).
Proof. unfold procs_ok. intros Hl. destruct s.(procs) as [|p ps]; [discriminate |]. exists p. by split. Qed.

(** The pages taken one after the other. *)
Lemma boot_layout m' s4 s5 root N stacks d a u rest p : ktable s4 root N (d :: a :: u :: rest) (kernel_regions stacks) -> ring_pages s4 s5 [d; a; u] [d; a; u] rest ->
  first_process s5 rest 0 p m'.(kern) -> s5.(nextpid) = 1 -> (0 < length s5.(procs))%nat -> s5.(held) = ∅ -> m'.(kernel_pagetable) = root -> length stacks = NPROC -> NoDup stacks ->
  (forall q, q ∈ stacks -> page_ok q /\ q ∉ d :: a :: u :: rest /\ forall k, N !! k <> Some q) -> memory_laid_out m' p N stacks d a u.
Proof.
  intros Ht4 [Ho5 Hkm5 Hz5 Hpg5 Hnd5 Hx5] [(tf & pt & ip & y & NP & pg & l & Ho6 & Hip & Hy & Hres & Hpte & Hby & Hepc & Hsp & Hl & Hq) Hx6] Hpid Hlen Hh <- Hns Hnd Hst. cbv zeta in *. rewrite Hpid in Ho6, Hres, Hq.
  assert (forall q, q ∈ d :: a :: u :: rest <-> q ∈ [d; a; u] \/ q ∈ rest) as Hsplit by (intros q; rewrite !elem_of_cons; pose proof (not_elem_of_nil q); tauto).
  constructor; [|done |].
  - exists (d :: a :: u :: rest), l, tf, pt, ip, pg, NP. cbv zeta. split_and!; try done.
    + rewrite (only_mem_procs _ _ Ho6). cbn. by apply list_lookup_insert_eq.
    + pose proof (r_as _ _ _ _ _ Hres) as [[_ Hkm6 Hlk6 _] _ _ _ _ _ _]. eapply ktable_frame; [exact Ht4 | exact Hkm6 | exact Hlk6 | intros q Hin; apply Hsplit; right; apply Hq; left; by left |].
      intros x Hx. rewrite Hx6 by (intros q Hin; apply Hx, Hsplit; by right). apply Hx5. intros q Hin. apply Hx, Hsplit. by left.
    + unfold only_mem in Ho6. rewrite Ho6. cbn. exists y. split; [by apply list_lookup_insert_eq | done].
    + intros q. by rewrite Hsplit, Hq.
    + intros q Hin Hown. apply Hq in Hown. by apply (Hpg5 q Hin).
    + intros k q Hk. by apply (pi_sep _ _ _ _ (kt_inv _ _ _ _ _ Ht4) k).
  - split; [done |]. intros q i Hin Hi. rewrite Hx6; [by apply Hz5 |]. intros q' Hq'. destruct (Hpg5 q Hin) as [Hqok Hqr].
    eapply (outside_pages _ q' q); [by eapply (free_page_ok s5 rest) | apply Hqok | congruence | lia].
Qed.

Lemma main_run features max m : VirtioBlk features max -> reset m.(kern) -> s32 (default 0 (m.(csrs) !! Ctp)) = 0 -> (720 <= npages)%nat ->
  (24 <= ready m.(kern).(cons).(dev_idle))%nat -> length m.(vq).(vq_free) = NUM -> exists m', main m = Ok tt m' /\ booted features max m m'.
Proof.
  intros V [Hh Hf Hok Hsl Hpid Hit] Htp Hn Hr Hvf. enough (wp main (fun _ m' => booted features max m m') m) as Hw by (destruct (wp_inv _ _ _ Hw) as ([] & m' & ? & ?); by exists m').
  destruct (shm_init_run m.(kern)) as (g & Eg). unfold main. apply wp_bind, wp_lift. eapply wp_Ok; [exact Eg |]. set (m1 := set_kern _ m).
  apply wp_bind. unfold cpuid. apply wp_bind. unfold r_tp, r_csr. apply wp_gets, wp_ret. change (m1.(csrs)) with m.(csrs). rewrite Htp. change (0 =? 0) with true. cbv iota.
  apply wp_greeting; [done | done |]. intros idle. set (m2 := set_kern _ _). apply wp_paging; [done | done | done |]. intros s3 root N stacks rest Ho3 Ht3 Hns Hnd Hrest Hst.
  set (m3 := set_csrs _ _). assert (s3.(held) = ∅) as Hh3 by (by rewrite (only_mem_held _ _ Ho3)). assert (s3.(procs) = m.(kern).(procs)) as Ep3 by (by rewrite (only_mem_procs _ _ Ho3)).
  apply wp_tables; [done | unfold procs_ok; cbn; by rewrite Ep3 | by cbn; rewrite lookup_insert_ne by done |].
  intros s4 Hs4. set (m4 := set_trace _ _). change (kern m3) with s3 in Hs4. destruct rest as [|d [|a [|u rest]]]; [cbn in Hrest; lia.. |].
  assert (ktable s4 root N (d :: a :: u :: rest) (kernel_regions stacks)) as Ht4.
  { rewrite Hs4. eapply ktable_frame; [exact Ht3 | apply Ht3 | cbn; rewrite Hh3; apply not_elem_of_empty | done | done]. }
  destruct (virtio_disk_init_run features max m4 d a u rest V) as (m5 & E5 & [Hrp Em5]); [apply Ht4 | apply Ht4 | cbn; rewrite Hs4; cbn; rewrite Hh3; apply not_elem_of_empty | done |].
  apply wp_bind. eapply wp_Ok; [exact E5 |]. change (kern m4) with s4 in Hrp. pose proof (rp_only _ _ _ _ _ Hrp) as Ho5.
  destruct (find_first m.(kern) Hok) as (p & Hp & Hfind).
  assert (m5.(kern).(held) = ∅) as Hh5 by (rewrite (only_mem_held _ _ Ho5), Hs4; exact Hh3).
  assert (m5.(kern).(procs) = imap init_slot m.(kern).(procs)) as Ep5 by (rewrite (only_mem_procs _ _ Ho5), Hs4; cbn; by rewrite Ep3).
  assert (forall {B} (f : kernel -> B), (forall x y z, f (set_mem x (set_freelist y z)) = f z) -> (forall w x y z, f (set_procs w (set_blru x (set_slocks y z))) = f z) -> f m5.(kern) = f m2.(kern)) as Hkeep.
  { intros B f F1 F2. unfold only_mem, tables_set in *. rewrite Ho5, F1, Hs4, F2, Ho3, F1. done. }
  assert (m5.(kern).(nextpid) = 1) as Epid by (rewrite (Hkeep _ nextpid) by done; exact Hpid).
  assert (m5.(kern).(itable) = m.(kern).(itable)) as Eit by (by rewrite (Hkeep _ itable) by done).
  destruct (userinit_run m5.(kern) rest 0 (init_slot 0 p)) as (s6 & E6 & Hfp); try (rewrite Hh5; apply not_elem_of_empty); [apply Hrp | cbn in Hrest; lia | | | intros j; rewrite Hh5; apply not_elem_of_empty | by rewrite Ep5 | |].
  { unfold procs_ok. by rewrite Ep5, length_imap. }
  { intros i q Hi _. rewrite Ep5, list_lookup_imap in Hi. destruct (m.(kern).(procs) !! i) as [q0|] eqn:Eq; [|done]. injection Hi as <-. exact (Hsl i q0 Eq). }
  { destruct Hit as (x & Hx & Hx0). exists 0%nat, x. rewrite Eit. by split; [|left]. }
  apply wp_bind, wp_lift. eapply wp_Ok; [exact E6 |]. apply wp_modify.
  assert (0 < length m5.(kern).(procs))%nat as Hlen5 by (rewrite Ep5, length_imap, Hok; unfold NPROC; lia).
  pose proof (boot_layout (set_started 1 (set_kern s6 m5)) s4 m5.(kern) root N stacks d a u rest (init_slot 0 p) Ht4 Hrp Hfp Epid Hlen5 Hh5) as Hlay.
  destruct Hfp as [(tf & pt & ip & y & NP & pg & l & Ho6 & _) _].
  assert (m5.(csrs) = <[Cstvec := u64 kernelvec]> (<[Csatp := u64 (MAKE_SATP root)]> m.(csrs)) /\ m5.(kernel_pagetable) = root /\ m5.(vq) = mkVq d a u (replicate NUM 1) /\
    m5.(trace) = ((m.(trace) ++ uart_setup) ++ plic_setup) ++ handshake features max d a u) as (Ec5 & Er5 & Ev5 & Et5) by (rewrite Em5; done).
  pose proof (only_mem_held _ _ Ho6) as Eh6. pose proof (only_mem_procs _ _ Ho6) as Ep6. cbn in Eh6, Ep6.
  constructor; cbn [started csrs kern kernel_pagetable vq trace devsw set_started set_kern]; rewrite ?Ec5, ?Er5, ?Eh6, ?Ep6.
  - done.
  - by rewrite lookup_insert_ne, lookup_insert_eq by done.
  - by rewrite lookup_insert_eq.
  - done.
  - unfold only_mem in Ho6. rewrite Ho6. cbn [cons set_mem set_freelist set_itable set_initproc set_procs set_nextpid]. by rewrite (Hkeep _ cons) by done.
  - by rewrite Em5.
  - unfold only_mem in Ho6. by rewrite Ho6.
  - intros i q Hi Hq. rewrite list_lookup_insert_ne by lia. by rewrite Ep5, list_lookup_imap, Hq.
  - exists p, N, stacks, d, a, u. split_and!; [done | by apply Hlay | done | by rewrite Et5, <- !app_assoc].
Qed.

(** C4. Starting the kernel: on a machine with a virtio disk and at least 720 free pages, main() on hart 0 returns from
    its set-up without a panic.  The page table is on and maps the kernel as it must; the devices have been set up by
    exactly the accesses listed; the console is connected to devsw[] and has printed the greeting; process 0, with pid 1, is runnable at address 0
    with initcode in its memory and the root directory as its current one; the other slots are unused; no lock is held,
    and no page is used for two purposes. *)
Theorem main_boots features max m : VirtioBlk features max -> reset m.(kern) -> s32 (default 0 (m.(csrs) !! Ctp)) = 0 -> (720 <= npages)%nat ->
  (24 <= ready m.(kern).(cons).(dev_idle))%nat -> length m.(vq).(vq_free) = NUM -> exists m', main m = Ok tt m' /\ booted features max m m'.
Proof. apply main_run. Qed.

(** C11. virtio_disk_init() makes exactly the accesses of the initialization sequence of the virtio specification, in
    order; it accepts only features the device offers and none of those it cannot handle; and it hands the device
    three distinct, zeroed pages taken from the free list, all descriptors free. *)
Theorem virtio_disk_init_spec features max m d a u l : VirtioBlk features max -> kmem_inv m.(kern) (d :: a :: u :: l) -> LkKmem ∉ m.(kern).(held) -> LkVdisk ∉ m.(kern).(held) ->
  length m.(vq).(vq_free) = NUM -> exists m', virtio_disk_init m = Ok tt m' /\ disk_ready features max m d a u l m' /\
    forall b, 0 <= b -> Z.testbit (mask_features features) b = Z.testbit features b && negb (bool_decide (b ∈ unwanted)).
Proof.
  intros V Hkm Hlk Hvl Hf. destruct (virtio_disk_init_run features max m d a u l V Hkm Hlk Hvl Hf) as (m' & E' & Hr). exists m'. split_and!; [done | done |]. apply mask_features_bits.
Qed.

(** ** The other harts *)

Definition seg_reset (_ : nat) (g : shmseg) : shmseg := set_seg_addr 0 (set_seg_key 0 g).

Lemma shm_init_exact s : length s.(shm_segments) = MAX_SHM_SEGMENTS -> shm_init s = Ok tt (set_shm_segments (imap seg_reset s.(shm_segments)) s).
Proof.
  intros Hl. enough (wp shm_init (fun _ s' => s' = set_shm_segments (imap seg_reset s.(shm_segments)) s) s) as Hw by (by apply wp_inv in Hw as ([] & s' & E' & ->)).
  unfold shm_init. apply (wp_for_range _ (fun k s' => s' = set_shm_segments (upto seg_reset k s.(shm_segments)) s)).
  - rewrite upto_0. by destruct s.
  - intros k s' Hk ->. apply wp_bind, wp_modify, wp_modify. cbn [shm_segments set_shm_segments]. rewrite list_alter_alter_eq, <- upto_step. done.
  - intros s' ->. by rewrite upto_all by (rewrite Hl; cbn; lia).
Qed.

Definition hart_starting (h : Z) : list Z := chars "hart " ++ [48 + h] ++ chars " starting\n".

Lemma hart_starting_printed h : 0 < h < 8 -> let fmt := chars "hart %d starting\n" in printf_loop (S (length fmt)) fmt [VNum h] = Shown (hart_starting h) /\ Forall (fun c => 0 <= c < 256) (hart_starting h).
Proof.
  intros Hh. assert (h = 1 \/ h = 2 \/ h = 3 \/ h = 4 \/ h = 5 \/ h = 6 \/ h = 7) as Hc by lia. destruct_or! Hc; subst; (split; [vm_compute; reflexivity | apply (bool_decide_unpack _); vm_compute; exact I]).
Qed.

(** A hart other than the first waits until [started] is set; then it turns on the page table that the first hart
    made, and enables device interrupts for itself.  Before that it has run shm_init(): whenever it comes, it erases
    the keys and the addresses of the shared memory segments, which processes may be using by then. *)
Theorem main_secondary m (h : Z) : s32 (default 0 (m.(csrs) !! Ctp)) = h -> 0 < h < 8 -> m.(kern).(held) = ∅ -> m.(pr_locking) = 1 -> length m.(kern).(shm_segments) = MAX_SHM_SEGMENTS ->
  (16 <= ready m.(kern).(cons).(dev_idle))%nat ->
  if m.(started) =? 0 then main m = Timeout else exists m', main m = Ok tt m' /\
    m'.(csrs) = <[Cstvec := u64 kernelvec]> (<[Csatp := u64 (MAKE_SATP m.(kernel_pagetable))]> m.(csrs)) /\
    m'.(trace) = m.(trace) ++ [IoWrite (PLIC_SENABLE h) 1026; IoWrite (PLIC_SPRIORITY h) 0] /\
    m'.(kern).(mem) = m.(kern).(mem) /\ m'.(kern).(procs) = m.(kern).(procs) /\
    m'.(kern).(shm_segments) = imap seg_reset m.(kern).(shm_segments) /\ m'.(kern).(cons).(dev_out) = m.(kern).(cons).(dev_out) ++ hart_starting h.
Proof.
  intros Htp Hh Hheld Hl Hseg Hr. unfold main. erewrite bind_Ok by (apply lift_Ok, shm_init_exact, Hseg). set (m1 := set_kern _ m).
  assert (cpuid m1 = Ok h m1) as Ecpu by (unfold cpuid, r_tp, r_csr; erewrite bind_Ok by done; change (csrs m1) with (csrs m); by rewrite Htp).
  erewrite bind_Ok by exact Ecpu. destruct (Z.eqb_spec h 0); [lia |]. rewrite (bind_Ok (gets started) _ m1 m.(started) m1) by done. destruct (Z.eqb_spec m.(started) 0); [done |].
  erewrite bind_Ok by exact Ecpu. destruct (hart_starting_printed h Hh) as [Hf Hb].
  destruct (printf_run _ _ _ m1.(kern) Hf Hb) as (l' & Ep & _); [cbn; rewrite Hheld; apply not_elem_of_empty | done |].
  erewrite bind_Ok; [|unfold kprintf; rewrite (bind_Ok (gets pr_locking) _ m1 1 m1) by (unfold gets; by rewrite <- Hl); apply lift_Ok; exact Ep].
  set (m2 := set_csrs (<[Cstvec := u64 kernelvec]> (<[Csatp := u64 (MAKE_SATP m.(kernel_pagetable))]> m.(csrs))) (set_kern (sent (hart_starting h) l' m1.(kern)) m1)).
  assert (cpuid m2 = Ok h m2) as Ecpu2 by (unfold cpuid, r_tp, r_csr; erewrite bind_Ok by done; cbn [csrs m2 set_csrs]; rewrite !lookup_insert_ne by done; by rewrite Htp).
  exists (log (IoWrite (PLIC_SPRIORITY h) 0) (log (IoWrite (PLIC_SENABLE h) 1026) m2)). split.
  - transitivity (plicinithart m2); [done |]. unfold plicinithart. erewrite bind_Ok by exact Ecpu2. done.
  - cbn [log trace set_trace]. by rewrite <- app_assoc.
Qed.

(** ** start() *)




Context {HT : Hart}.









Context {HL : HartLaws}.




End boot.
