(* ===== verification/VirtioSpec.v ===== *)
(** * The disk driver is correct (kernel/virtio_disk.c)

    The invariant of the system of processes, interrupt handler and device of [Virtio]:
    which descriptors are in use and by whom, where each request is, and that nobody
    sleeps whose wakeup has gone by.  From it: the driver never panics and never gives
    the device a request it cannot serve; every request can complete; and the driver
    implements a disk whose transfers are atomic, which is what the buffer cache uses. *)

From S2P Require Import Prelude State Mem Riscv Kalloc Virtio.

Module VirtioSpec.
Import Virtio.

(** ** Rings *)

(** The entries of a ring from one index up to another. *)
Definition queue (ring : list Z) (from to : Z) : list nat :=
  (fun k => Z.to_nat (default 0 (ring !! Z.to_nat ((from + Z.of_nat k) mod Z.of_nat NUM)))) <$> seq 0 (Z.to_nat (u16 (to - from))).

Definition is_u16 (x : Z) : Prop := 0 <= x < 2 ^ 16.

(** Arithmetic on ring indices. *)
Ltac ring_lia := unfold is_u16, u16 in *; change (Z.of_nat NUM) with 8 in *; change (2 ^ 16) with 65536 in *; Z.to_euclidean_division_equations; lia.

Lemma u16_is x : is_u16 (u16 x).
Proof. unfold is_u16, u16. apply Z.mod_pos_bound. lia. Qed.

Lemma u16_count from to : is_u16 from -> is_u16 to -> (Z.to_nat (u16 (to - from)) < 8)%nat ->
  Z.to_nat (u16 (u16 (to + 1) - from)) = S (Z.to_nat (u16 (to - from))).
Proof. intros. ring_lia. Qed.

Lemma queue_length ring from to : length (queue ring from to) = Z.to_nat (u16 (to - from)).
Proof. unfold queue. by rewrite length_fmap, length_seq. Qed.

Lemma queue_slot from to k : is_u16 from -> is_u16 to -> (k < Z.to_nat (u16 (to - from)))%nat -> (Z.to_nat (u16 (to - from)) < 8)%nat ->
  Z.to_nat (to mod Z.of_nat NUM) <> Z.to_nat ((from + Z.of_nat k) mod Z.of_nat NUM).
Proof. intros. ring_lia. Qed.

(** Writing the slot after the last entry. *)
Lemma queue_fill ring from to h : is_u16 from -> is_u16 to -> (length (queue ring from to) < 8)%nat ->
  queue (<[Z.to_nat (to mod Z.of_nat NUM) := h]> ring) from to = queue ring from to.
Proof.
  rewrite queue_length. intros Hf Ht Hc. unfold queue. apply list_fmap_ext. intros i k Hk%lookup_seq. destruct Hk as [-> Hk]. rewrite list_lookup_insert_ne; [done |]. by apply queue_slot.
Qed.

Lemma queue_push ring from to : is_u16 from -> is_u16 to -> (length (queue ring from to) < 8)%nat ->
  queue ring from (u16 (to + 1)) = queue ring from to ++ [Z.to_nat (default 0 (ring !! Z.to_nat (to mod Z.of_nat NUM)))].
Proof.
  rewrite queue_length. intros Hf Ht Hc. unfold queue. rewrite u16_count by (done || lia). rewrite seq_S, fmap_app. cbn. do 5 f_equal.
  ring_lia.
Qed.

Lemma queue_nil ring from to : is_u16 from -> is_u16 to -> queue ring from to = [] <-> from = to.
Proof.
  intros Hf Ht. rewrite <- length_zero_iff_nil, queue_length. split; [intros; ring_lia |]. intros ->. by rewrite Z.sub_diag.
Qed.

Lemma queue_pop ring from to : is_u16 from -> is_u16 to -> from <> to ->
  queue ring from to = Z.to_nat (default 0 (ring !! Z.to_nat (from mod Z.of_nat NUM))) :: queue ring (u16 (from + 1)) to.
Proof.
  intros Hf Ht Hne. unfold queue. assert (Z.to_nat (u16 (to - from)) = S (Z.to_nat (u16 (to - u16 (from + 1))))) as ->
    by ring_lia. cbn [seq fmap list_fmap]. f_equal; [by rewrite Z.add_0_r |]. rewrite <- fmap_S_seq, <- list_fmap_compose.
  apply list_fmap_ext. intros i k _. cbn. do 4 f_equal. ring_lia.
Qed.

Section spec.
Context {D : Storage}.
Implicit Types (s : vdisk) (th : thread) (c : chain).

(** ** The functions on descriptors *)

Lemma for_return_find {S A} (body : nat -> M S (option A)) (p : nat -> bool) (s : S) (a : nat -> A) (s' : nat -> S) n i :
  (forall j, p j = false -> body j s = Ok None s) -> (forall j, p j = true -> body j s = Ok (Some (a j)) (s' j)) ->
  (exists k, (i <= k < i + n)%nat /\ p k = true /\ for_return n i body s = Ok (Some (a k)) (s' k)) \/
  (forall k, (i <= k < i + n)%nat -> p k = false) /\ for_return n i body s = Ok None s.
Proof.
  intros Hf Ht. revert i. induction n as [|n IH]; intros i; [right; split; [lia | done] |]. cbn [for_return]. destruct (p i) eqn:Ep.
  - left. exists i. split_and!; [lia | lia | done |]. by erewrite bind_Ok by (by apply Ht).
  - rewrite (bind_Ok _ _ _ _ _ (Hf i Ep)). cbv iota. destruct (IH (i + 1)%nat) as [(k & Hk & Hp & E)|[Hall E]].
    + left. exists k. split_and!; [lia | lia | done | done].
    + right. split; [|done]. intros k Hk. destruct (decide (k = i)) as [->|]; [done |]. apply Hall. lia.
Qed.

Lemma alloc_desc_run s : length s.(dfree) = NUM ->
  (exists i, (i < NUM)%nat /\ s.(dfree) !! i = Some true /\ alloc_desc s = Ok (Some i) (set_dfree (<[i := false]> s.(dfree)) s)) \/
  (forall i, (i < NUM)%nat -> s.(dfree) !! i = Some false) /\ alloc_desc s = Ok None s.
Proof.
  intros Hl. unfold alloc_desc. destruct (for_return_find (fun i => s ← gets dfree;
    if default false (s !! i) then modify (fun s => set_dfree (<[i := false]> s.(dfree)) s);; mret (Some i) else mret None)
    (fun i => default false (s.(dfree) !! i)) s id (fun i => set_dfree (<[i := false]> s.(dfree)) s) NUM 0) as [(k & Hk & Hp & E)|[Hall E]].
  - intros j Hj. unfold gets, mbind, M_bind. cbn. by rewrite Hj.
  - intros j Hj. unfold gets, mbind, M_bind. cbn. by rewrite Hj.
  - left. exists k. split_and!; [lia | | exact E]. destruct (s.(dfree) !! k) as [[]|]; done.
  - right. split; [|exact E]. intros i Hi. destruct (lookup_lt_is_Some_2 s.(dfree) i) as [b Eb]; [lia |]. specialize (Hall i ltac:(lia)). rewrite Eb in Hall. cbn in Hall. by subst b.
Qed.

(** The state after free_desc(i). *)
Definition freed (i : nat) s : vdisk :=
  set_threads (wake ChFree <$> s.(threads)) (set_dfree (<[i := true]> s.(dfree)) (set_desc (<[i := no_desc]> s.(desc)) s)).

Lemma free_desc_run s i : (i < NUM)%nat -> s.(dfree) !! i = Some false -> free_desc i s = Ok tt (freed i s).
Proof. intros Hi Hf. unfold free_desc. rewrite (proj2 (Nat.leb_gt _ _) Hi). unfold gets, mbind, M_bind. cbn. by rewrite Hf. Qed.

(** alloc3_desc() that fails: the descriptors are as before, but the processes waiting for
    one may have been woken. *)
Definition undone s s' : Prop := exists d l, s' = set_threads l (set_desc d s) /\ length d = length s.(desc) /\
  (forall i, s.(dfree) !! i = Some false -> d !! i = s.(desc) !! i) /\ (l = s.(threads) \/ l = wake ChFree <$> s.(threads)).

Lemma wake_free_twice th : wake ChFree (wake ChFree th) = wake ChFree th.
Proof. by destruct th. Qed.

Lemma undone_refl s : undone s s.
Proof. exists s.(desc), s.(threads). split_and!; try done; [by destruct s | by left]. Qed.

Lemma insert_back {A} (l : list A) i x y : l !! i = Some x -> <[i := x]> (<[i := y]> l) = l.
Proof. intros H. rewrite list_insert_insert_eq. by apply list_insert_id. Qed.

Definition descs c : list nat := [c.(c0); c.(c1); c.(c2)].

Lemma alloc3_run s : length s.(dfree) = NUM ->
  (exists c, NoDup (descs c) /\ (forall i, i ∈ descs c -> (i < NUM)%nat /\ s.(dfree) !! i = Some true) /\
    alloc3_desc s = Ok (Some c) (set_dfree (<[c.(c2) := false]> (<[c.(c1) := false]> (<[c.(c0) := false]> s.(dfree)))) s)) \/
  (exists s', alloc3_desc s = Ok None s' /\ undone s s' /\ exists i, (i < NUM)%nat /\ s.(dfree) !! i = Some false).
Proof.
  intros Hl. destruct (alloc_desc_run s Hl) as [(i & Hi & Fi & E)|[Hall E]].
  2: { right. exists s. split_and!; [|apply undone_refl | exists 0%nat; split; [unfold NUM; lia | apply Hall; unfold NUM; lia]].
    unfold alloc3_desc. erewrite bind_Ok; [|cbn [alloc_more]; erewrite bind_Ok by exact E; cbv iota; by erewrite bind_Ok by done]. done. }
  set (s1 := set_dfree _ s) in E. destruct (alloc_desc_run s1) as [(j & Hj & Fj & E1)|[Hall E1]]; [by unfold s1; cbn; rewrite length_insert | |].
  2: { right. exists (freed i s1). split_and!.
    - unfold alloc3_desc. erewrite bind_Ok; [|cbn [alloc_more app]; erewrite bind_Ok by exact E; cbv iota; erewrite bind_Ok by exact E1; cbv iota].
      2: { erewrite bind_Ok; [done |]. cbn [length for_range]. erewrite bind_Ok; [done |]. by apply free_desc_run, Hall. }
      done.
    - exists (<[i := no_desc]> s.(desc)), (wake ChFree <$> s.(threads)). unfold freed, s1. cbn. rewrite insert_back by done. split_and!; [by destruct s | by rewrite length_insert | | by right].
      intros k Hk. rewrite list_lookup_insert_ne; [done |]. intros ->. congruence.
    - set (m := if decide (i = 0)%nat then 1%nat else 0%nat). exists m. assert ((m < NUM)%nat /\ i <> m) as [Hm Hmi] by (unfold m, NUM; case_decide; lia). split; [done |].
      specialize (Hall m Hm). unfold s1 in Hall. cbn in Hall. by rewrite list_lookup_insert_ne in Hall. }
  assert (i <> j) as Hij. { intros ->. unfold s1 in Fj. cbn in Fj. rewrite list_lookup_insert_eq in Fj by lia. done. }
  assert (s.(dfree) !! j = Some true) as Fj' by (unfold s1 in Fj; cbn in Fj; by rewrite list_lookup_insert_ne in Fj).
  set (s2 := set_dfree _ s1) in E1. destruct (alloc_desc_run s2) as [(k & Hk & Fk & E2)|[Hall E2]]; [by unfold s2, s1; cbn; rewrite !length_insert | |].
  2: { right. exists (freed j (freed i s2)). split_and!.
    - unfold alloc3_desc. erewrite bind_Ok; [|cbn [alloc_more app]; erewrite bind_Ok by exact E; cbv iota; erewrite bind_Ok by exact E1; cbv iota; erewrite bind_Ok by exact E2; cbv iota].
      2: { erewrite bind_Ok; [done |]. cbn [length for_range]. erewrite bind_Ok by (by apply free_desc_run, Hall). erewrite bind_Ok; [done |].
        apply free_desc_run; [done |]. unfold freed. cbn. rewrite list_lookup_insert_ne by done. by apply (Hall j). }
      done.
    - exists (<[j := no_desc]> (<[i := no_desc]> s.(desc))), (wake ChFree <$> s.(threads)). unfold freed, s2, s1. cbn. rewrite <- list_fmap_compose.
      rewrite (list_insert_insert_ne _ i j), insert_back, insert_back by (done || by rewrite ?list_lookup_insert_ne).
      split_and!; [| by rewrite !length_insert | | by right].
      + destruct s; cbn. unfold set_threads, set_desc; cbn. f_equal. apply list_fmap_ext. intros ? x _. apply wake_free_twice.
      + intros m Hm. rewrite !list_lookup_insert_ne; [done | intros ->; congruence | intros ->; congruence].
    - set (m := if decide (i = 0 \/ j = 0)%nat then (if decide (i = 1 \/ j = 1)%nat then 2%nat else 1%nat) else 0%nat). exists m.
      assert ((m < NUM)%nat /\ i <> m /\ j <> m) as (Hm & Hmi & Hmj) by (unfold m, NUM; repeat case_decide; lia). split; [done |].
      specialize (Hall m Hm). unfold s2, s1 in Hall. cbn in Hall. by rewrite !list_lookup_insert_ne in Hall. }
  left. exists (mkChain i j k). cbn [c0 c1 c2]. assert (k <> j) as Hkj. { intros ->. unfold s2 in Fk. cbn in Fk. rewrite list_lookup_insert_eq in Fk by (rewrite length_insert; lia). done. }
  assert (s1.(dfree) !! k = Some true) as Fk' by (unfold s2 in Fk; cbn in Fk; by rewrite list_lookup_insert_ne in Fk).
  assert (k <> i) as Hki. { intros ->. unfold s1 in Fk'. cbn in Fk'. rewrite list_lookup_insert_eq in Fk' by lia. done. }
  split_and!.
  - unfold descs. cbn. apply NoDup_cons. split; [set_solver|]. apply NoDup_cons. split; [set_solver | apply NoDup_singleton].
  - intros m Hm. unfold descs in Hm. cbn in Hm. rewrite !elem_of_cons in Hm. destruct Hm as [->|[->|[->|[]%not_elem_of_nil]]]; try done. split; [done |]. unfold s1 in Fk'. cbn in Fk'. by rewrite list_lookup_insert_ne in Fk'.
  - unfold alloc3_desc. erewrite bind_Ok; [|cbn [alloc_more app]; erewrite bind_Ok by exact E; cbv iota; erewrite bind_Ok by exact E1; cbv iota; erewrite bind_Ok by exact E2; done]. done.
Qed.

(** A request in the descriptor table: header, data, status. *)
Record formatted s c (b : nat) (w : bool) (x : vbuf) : Prop := {
  fm_buf : s.(vbufs) !! b = Some x;
  fm_ops : s.(ops) !! c.(c0) = Some (mkReq (if w then VIRTIO_BLK_T_OUT else VIRTIO_BLK_T_IN) 0 (x.(v_blockno) * 2));
  fm_d0 : s.(desc) !! c.(c0) = Some (mkDesc (AOps c.(c0)) 16 1 (Z.of_nat c.(c1)));
  fm_d1 : s.(desc) !! c.(c1) = Some (mkDesc (AData b) BSIZE (if w then 1 else 3) (Z.of_nat c.(c2)));
  fm_d2 : s.(desc) !! c.(c2) = Some (mkDesc (AStatus c.(c0)) 1 2 0);
  fm_info : exists st, s.(info) !! c.(c0) = Some (Some b, st);
}.

Lemma get_desc_Ok s i d : s.(desc) !! i = Some d -> get_desc i s = Ok d s.
Proof. unfold get_desc. by intros ->. Qed.

Lemma get_vbuf_Ok s b x : s.(vbufs) !! b = Some x -> get_vbuf b s = Ok x s.
Proof. unfold get_vbuf. by intros ->. Qed.

Lemma free_chain_run s0 s c b w x : formatted s0 c b w x -> s.(desc) = s0.(desc) -> NoDup (descs c) -> (forall i, i ∈ descs c -> (i < NUM)%nat /\ s.(dfree) !! i = Some false) ->
  free_chain (S NUM) c.(c0) s = Ok tt (freed c.(c2) (freed c.(c1) (freed c.(c0) s))).
Proof.
  intros [_ _ H0 H1 H2 _] Ed Hnd Hf. rewrite <- Ed in H0, H1, H2. unfold descs in *. rewrite !NoDup_cons, !elem_of_cons in Hnd. destruct Hnd as (N0 & N1 & _).
  destruct (Hf c.(c0)) as [L0 F0]; [set_solver |]. destruct (Hf c.(c1)) as [L1 F1]; [set_solver |]. destruct (Hf c.(c2)) as [L2 F2]; [set_solver |].
  change (S NUM) with 9%nat. cbn [free_chain]. erewrite bind_Ok by (by apply get_desc_Ok). erewrite bind_Ok by (by apply free_desc_run). cbn [d_flags d_next]. replace (Z.testbit 1 0) with true by done. rewrite Nat2Z.id.
  erewrite bind_Ok by (apply get_desc_Ok; unfold freed; cbn; rewrite list_lookup_insert_ne by naive_solver; exact H1).
  erewrite bind_Ok by (apply free_desc_run; [done |]; unfold freed; cbn; rewrite list_lookup_insert_ne by naive_solver; exact F1). cbn [d_flags d_next].
  replace (Z.testbit (if w then 1 else 3) 0) with true by (by destruct w). rewrite Nat2Z.id.
  erewrite bind_Ok by (apply get_desc_Ok; unfold freed; cbn; rewrite !list_lookup_insert_ne by naive_solver; exact H2).
  erewrite bind_Ok by (apply free_desc_run; [done |]; unfold freed; cbn; rewrite !list_lookup_insert_ne by naive_solver; exact F2). done.
Qed.

(** The state after rw_fill(). *)
Definition filled c (b : nat) (w : bool) (x : vbuf) s : vdisk :=
  let r := mkReq (if w then VIRTIO_BLK_T_OUT else VIRTIO_BLK_T_IN) 0 (x.(v_blockno) * 2) in
  let d := <[c.(c2) := mkDesc (AStatus c.(c0)) 1 2 0]> (<[c.(c1) := mkDesc (AData b) BSIZE (if w then 1 else 3) (Z.of_nat c.(c2))]>
             (<[c.(c0) := mkDesc (AOps c.(c0)) 16 1 (Z.of_nat c.(c1))]> s.(desc))) in
  set_avail_ring (<[Z.to_nat (s.(avail_idx) mod Z.of_nat NUM) := Z.of_nat c.(c0)]> s.(avail_ring))
    (set_info (<[c.(c0) := (Some b, 0xff)]> s.(info)) (set_vbufs (<[b := mkVbuf 1 x.(v_blockno) x.(v_data)]> s.(vbufs)) (set_desc d (set_ops (<[c.(c0) := r]> s.(ops)) s)))).

Lemma rw_fill_run s c b w x : s.(vbufs) !! b = Some x -> 0 <= x.(v_blockno) < 2 ^ 31 -> (c.(c0) < length s.(info))%nat -> rw_fill c b w s = Ok tt (filled c b w x s).
Proof.
  intros Hb Hx Hi. unfold rw_fill. erewrite bind_Ok by (by apply get_vbuf_Ok). cbv zeta. change (BSIZE / 512) with 2. rewrite u32_small by lia.
  unfold put_desc, modify, mbind, M_bind, filled. cbn. rewrite list_lookup_insert_eq by done. cbn. rewrite list_insert_insert_eq. by destruct w.
Qed.

(** ** The invariant *)

(** The request a process has in the table. *)
Definition active th : option (chain * nat * bool) :=
  match th with TFilled c b w | TSleepBuf c b w | TCheck c b w => Some (c, b, w) | _ => None end.
Definition act s (t : nat) : option (chain * nat * bool) := s.(threads) !! t ≫= active.
Definition use s (t : nat) : option nat := s.(threads) !! t ≫= uses.

(** Who has which buffers and descriptors. *)
Record core s : Prop := {
  co_desc : length s.(desc) = NUM;
  co_dfree : length s.(dfree) = NUM;
  co_info : length s.(info) = NUM;
  co_ops : length s.(ops) = NUM;
  co_avail : length s.(avail_ring) = NUM;
  co_used : length s.(used_ring) = NUM;
  co_buf b x : s.(vbufs) !! b = Some x -> 0 <= x.(v_blockno) < 2 ^ 31 /\ length x.(v_data) = Z.to_nat BSIZE;
  co_use t b : use s t = Some b -> (b < length s.(vbufs))%nat;
  co_own t t' b : use s t = Some b -> use s t' = Some b -> t = t';
  co_free i : (i < NUM)%nat -> s.(dfree) !! i = Some false <-> exists t c b w, act s t = Some (c, b, w) /\ i ∈ descs c;
  co_nodup t c b w : act s t = Some (c, b, w) -> NoDup (descs c);
  co_lt t c b w i : act s t = Some (c, b, w) -> i ∈ descs c -> (i < NUM)%nat;
  co_disj t t' c b w c' b' w' i : act s t = Some (c, b, w) -> act s t' = Some (c', b', w') -> i ∈ descs c -> i ∈ descs c' -> t = t';
  co_chain t c b w : act s t = Some (c, b, w) -> exists x, formatted s c b w x;
}.

Definition availq s : list nat := queue s.(avail_ring) s.(seen) s.(avail_idx).
Definition usedq s : list nat := queue s.(used_ring) s.(used_idx) s.(used_dev).
(** The requests the driver waits for. *)
Definition pend s : list nat := availq s ++ s.(inflight) ++ usedq s.

Definition disk_of s (b : nat) : Z := default 0 (v_disk <$> s.(vbufs) !! b).

(** Where the request of a process is. *)
Definition thread_ok s (t : nat) th : Prop :=
  match th with
  | TFilled c b w => disk_of s b = 1 /\ c.(c0) ∉ pend s /\ s.(vlock) = Some (HThread t) /\
                     s.(avail_ring) !! Z.to_nat (s.(avail_idx) mod Z.of_nat NUM) = Some (Z.of_nat c.(c0))
  | TSleepBuf c b w => disk_of s b = 1 /\ c.(c0) ∈ pend s
  | TCheck c b w => disk_of s b = 0 /\ c.(c0) ∉ pend s
  | TSleepFree b w => exists t' a, act s t' = Some a
  | _ => True
  end.

(** What is known of the status the device gives a request: that it is 0, or nothing. *)
Context {P : Z -> Prop}.

Record vinv s : Prop := {
  vi_core : core s;
  vi_seen : is_u16 s.(seen);
  vi_avail : is_u16 s.(avail_idx);
  vi_used : is_u16 s.(used_idx);
  vi_dev : is_u16 s.(used_dev);
  vi_nodup : NoDup (pend s);
  vi_head h : h ∈ pend s -> exists t c b w, act s t = Some (c, b, w) /\ c.(c0) = h;
  vi_thread t th : s.(threads) !! t = Some th -> thread_ok s t th;
  vi_status h : h ∈ usedq s -> exists ob st, s.(info) !! h = Some (ob, st) /\ P st;
  vi_lock t : s.(vlock) = Some (HThread t) -> exists c b w, s.(threads) !! t = Some (TFilled c b w);
  vi_isr : s.(used_idx) <> s.(used_dev) -> s.(isr) = true \/ s.(vlock) = Some HIntr;
}.

Lemma act_use s t c b w : act s t = Some (c, b, w) -> use s t = Some b.
Proof. unfold act, use. destruct (s.(threads) !! t) as [[]|]; cbn; congruence. Qed.

Lemma in_use_false s b : in_use s b = false -> forall t, use s t <> Some b.
Proof.
  unfold in_use, use. intros H t E. destruct (s.(threads) !! t) as [th|] eqn:Et; [|done]. cbn in E. apply not_true_iff_false in H. apply H, existsb_exists.
  exists th. split; [by eapply list_elem_of_In, list_elem_of_lookup_2 | by apply bool_decide_eq_true].
Qed.

Lemma disk_of_eq s b x : s.(vbufs) !! b = Some x -> disk_of s b = x.(v_disk).
Proof. unfold disk_of. by intros ->. Qed.

(** What [l] gives at [t]. *)
Lemma lookup_insert_thread (l : list thread) t u th x : l !! t = Some x -> <[t := th]> l !! u = if decide (u = t) then Some th else l !! u.
Proof.
  intros Hx. case_decide as E; [subst u; apply list_lookup_insert_eq; by eapply lookup_lt_Some | by rewrite list_lookup_insert_ne].
Qed.

(** Changing processes, but not their requests. *)
Lemma core_threads s l : core s -> (forall t, l !! t ≫= active = act s t) -> (forall t, l !! t ≫= uses = use s t) -> core (set_threads l s).
Proof.
  intros [] Ha Hu. assert (forall t, act (set_threads l s) t = act s t) as Ea by done. assert (forall t, use (set_threads l s) t = use s t) as Eu by done.
  constructor; cbn; try done.
  - intros t b. rewrite Eu. eauto.
  - intros t t' b. rewrite !Eu. eauto.
  - intros i Hi. rewrite co_free0 by done. by setoid_rewrite Ea.
  - intros t c b w. rewrite Ea. eauto.
  - intros t c b w i. rewrite Ea. eauto.
  - intros t t' c b w c' b' w' i. rewrite !Ea. eauto.
  - intros t c b w Hact. rewrite Ea in Hact. destruct (co_chain0 _ _ _ _ Hact) as [x [? ? ? ? ? ?]]. exists x. by constructor.
Qed.

(** The parts of the state [core] looks at. *)
Lemma core_frame s s' : core s -> s'.(desc) = s.(desc) -> s'.(dfree) = s.(dfree) -> s'.(info) = s.(info) -> s'.(ops) = s.(ops) -> s'.(vbufs) = s.(vbufs) ->
  s'.(threads) = s.(threads) -> length s'.(avail_ring) = NUM -> length s'.(used_ring) = NUM -> core s'.
Proof.
  destruct s, s'. cbn. intros [] -> -> -> -> -> -> ? ?. constructor; try done. intros t c b w Hact. destruct (co_chain0 _ _ _ _ Hact) as [x []]. exists x. by constructor.
Qed.

(** The parts of the state [thread_ok] looks at. *)
Lemma thread_ok_frame s s' t th : thread_ok s t th -> (forall b, uses th = Some b -> disk_of s' b = disk_of s b) -> (forall h, h ∈ pend s' <-> h ∈ pend s) -> s'.(vlock) = s.(vlock) ->
  s'.(avail_ring) = s.(avail_ring) -> s'.(avail_idx) = s.(avail_idx) -> (forall u, act s' u = act s u) -> thread_ok s' t th.
Proof.
  intros H Hd Hp Hl Hr Hi Ha. destruct th as [| | |c b w|c b w|c b w]; cbn [thread_ok uses] in *; try done.
  - destruct H as (u & a & H). exists u, a. by rewrite Ha.
  - rewrite Hp, Hl, Hr, Hi, Hd by done. done.
  - by rewrite Hp, Hd.
  - by rewrite Hp, Hd.
Qed.

Lemma wake_active ch th : active (wake ch th) = active th.
Proof. destruct th, ch; cbn; try done. by case_decide. Qed.
Lemma wake_uses ch th : uses (wake ch th) = uses th.
Proof. destruct th, ch; cbn; try done. by case_decide. Qed.

Lemma woken_act (l : list thread) ch t : (wake ch <$> l) !! t ≫= active = l !! t ≫= active.
Proof. rewrite list_lookup_fmap. destruct (l !! t) as [th|]; [cbn; apply wake_active | done]. Qed.
Lemma woken_use (l : list thread) ch t : (wake ch <$> l) !! t ≫= uses = l !! t ≫= uses.
Proof. rewrite list_lookup_fmap. destruct (l !! t) as [th|]; [cbn; apply wake_uses | done]. Qed.

(** *** A process enters virtio_disk_rw() *)
Lemma vinv_start s t b w : vinv s -> s.(threads) !! t = Some TIdle -> (b < length s.(vbufs))%nat -> in_use s b = false -> vinv (set_threads (<[t := TAlloc b w]> s.(threads)) s).
Proof.
  intros [Hc ? ? ? ? ? Hh Ht ? Hl ?] Hi Hb Hu. pose proof (in_use_false _ _ Hu) as Hno. set (s' := set_threads _ s).
  assert (forall u, act s' u = act s u) as Ea.
  { intros u. unfold act, s'. cbn. rewrite (lookup_insert_thread _ _ _ _ _ Hi). case_decide as E; [|done]. subst u. by rewrite Hi. }
  assert (forall u, use s' u = if decide (u = t) then Some b else use s u) as Eu.
  { intros u. unfold use, s'. cbn. rewrite (lookup_insert_thread _ _ _ _ _ Hi). by case_decide. }
  constructor; try done.
  - destruct Hc. constructor; cbn; try done.
    + intros u b'. rewrite Eu. case_decide; [by intros [= <-] | by eauto].
    + intros u u' b'. rewrite !Eu. repeat case_decide; subst; [done | | | by eauto]; [intros [= <-] E | intros E [= <-]]; by apply Hno in E.
    + intros i Hii. rewrite co_free0 by done. by setoid_rewrite Ea.
    + intros u c b' w'. rewrite Ea. eauto.
    + intros u c b' w' i. rewrite Ea. eauto.
    + intros u u' c b1 w1 c' b2 w2 i. rewrite !Ea. eauto.
    + intros u c b' w' Hact. rewrite Ea in Hact. destruct (co_chain0 _ _ _ _ Hact) as [x [? ? ? ? ? ?]]. exists x. by constructor.
  - intros h Hin. destruct (Hh h Hin) as (u & c & b' & w' & Hact & Eh). exists u, c, b', w'. by rewrite Ea.
  - intros u th Hu'. unfold s' in Hu'. cbn in Hu'. rewrite (lookup_insert_thread _ _ _ _ _ Hi) in Hu'. case_decide; [by injection Hu' as <- |].
    eapply thread_ok_frame; [by apply Ht | done..|]. exact Ea.
  - intros u Hlk. destruct (Hl u Hlk) as (c & b' & w' & E). exists c, b', w'. unfold s'. cbn. rewrite list_lookup_insert_ne; [done |]. intros ->. congruence.
Qed.

(** *** The buffer cache uses a buffer no request has *)
Lemma formatted_frame s s' c b w x : formatted s c b w x -> s'.(vbufs) !! b = Some x -> s'.(ops) !! c.(c0) = s.(ops) !! c.(c0) ->
  (forall i, i ∈ descs c -> s'.(desc) !! i = s.(desc) !! i) -> s'.(info) !! c.(c0) = s.(info) !! c.(c0) -> formatted s' c b w x.
Proof.
  intros [Hb Ho H0 H1 H2 Hi] Eb Eo Ed Ei. unfold descs in Ed. constructor; [done | congruence | | | |by rewrite Ei]; rewrite Ed by set_solver; done.
Qed.

Lemma disk_insert_ne s b x b' : b <> b' -> disk_of (set_vbufs (<[b := x]> s.(vbufs)) s) b' = disk_of s b'.
Proof. intros Hne. unfold disk_of. cbn. by rewrite list_lookup_insert_ne. Qed.

Lemma vinv_buf s b x : vinv s -> (b < length s.(vbufs))%nat -> in_use s b = false -> 0 <= x.(v_blockno) < 2 ^ 31 -> length x.(v_data) = Z.to_nat BSIZE ->
  vinv (set_vbufs (<[b := x]> s.(vbufs)) s).
Proof.
  intros [Hc ? ? ? ? ? Hh Ht ? Hl ?] Hb Hu Hx Hlen. pose proof (in_use_false _ _ Hu) as Hno. constructor; try done.
  - destruct Hc. constructor; cbn; try done.
    + intros b' y Hy. apply list_lookup_insert_Some in Hy as [(<- & <- & _)|[_ Hy]]; [done | by eauto].
    + intros t b'. rewrite length_insert. apply co_use0.
    + intros t c b' w Hact. destruct (co_chain0 t c b' w Hact) as [y Hy]. exists y. eapply formatted_frame; [exact Hy | | done..]. cbn.
      rewrite list_lookup_insert_ne; [apply Hy |]. intros ->. by eapply Hno, act_use.
  - intros t th Hth. cbn in Hth. eapply thread_ok_frame; [by apply Ht | | done..]. intros b' Hb'. apply disk_insert_ne. intros ->. apply (Hno t). unfold use. by rewrite Hth.
Qed.

(** *** virtio_disk_rw() finds no descriptors and sleeps *)
Lemma vinv_nodesc s s1 t b w : vinv s -> s.(threads) !! t = Some (TAlloc b w) -> s.(vlock) = None -> undone s s1 -> (exists i, (i < NUM)%nat /\ s.(dfree) !! i = Some false) ->
  vinv (set_vlock None (set_threads (<[t := TSleepFree b w]> s1.(threads)) s1)).
Proof.
  intros [Hc ? ? ? ? ? Hh Ht ? Hl His] Hth Hlk (d & l & -> & Hd & Hdd & Hl') (i0 & Hi0 & Fi0). cbn [threads set_threads set_desc]. set (s' := set_vlock _ _).
  assert (exists x, l !! t = Some x) as [x Hx] by (destruct Hl' as [->| ->]; rewrite ?list_lookup_fmap, Hth; by eexists).
  assert (forall u, l !! u ≫= active = act s u) as Ea0 by (intros u; destruct Hl' as [->| ->]; [done | apply woken_act]).
  assert (forall u, l !! u ≫= uses = use s u) as Eu0 by (intros u; destruct Hl' as [->| ->]; [done | apply woken_use]).
  assert (forall u, act s' u = act s u) as Ea.
  { intros u. unfold act at 1, s'. cbn. rewrite (lookup_insert_thread _ _ _ _ _ Hx). case_decide as E; [|apply Ea0]. subst u. unfold act. by rewrite Hth. }
  assert (forall u, use s' u = use s u) as Eu.
  { intros u. unfold use at 1, s'. cbn. rewrite (lookup_insert_thread _ _ _ _ _ Hx). case_decide as E; [|apply Eu0]. subst u. unfold use. by rewrite Hth. }
  assert (exists u a, act s u = Some a) as Hsome by (apply (co_free _ Hc) in Fi0 as (u & c & b' & w' & Hact & _); [by eexists _, _ | done]).
  constructor; try done.
  - destruct Hc. constructor; cbn; try done; [by rewrite Hd | intros u b'; rewrite Eu; eauto | intros u u' b'; rewrite !Eu; eauto | | intros u c b' w'; rewrite Ea; eauto |
      intros u c b' w' i; rewrite Ea; eauto | intros u u' c b1 w1 c' b2 w2 i; rewrite !Ea; eauto |].
    + intros i Hi. rewrite co_free0 by done. by setoid_rewrite Ea.
    + intros u c b' w' Hact. rewrite Ea in Hact. destruct (co_chain0 _ _ _ _ Hact) as [y Hy]. exists y. eapply formatted_frame; [exact Hy | apply Hy | done | | done].
      intros i Hi. cbn. apply Hdd, co_free0; [by eapply co_lt0 | by eauto 7].
  - intros h Hin. destruct (Hh h Hin) as (u & c & b' & w' & Hact & Eh). exists u, c, b', w'. by rewrite Ea.
  - intros u th Hu. unfold s' in Hu. cbn in Hu. rewrite (lookup_insert_thread _ _ _ _ _ Hx) in Hu. case_decide as E.
    + injection Hu as <-. cbn. destruct Hsome as (v & a & Hv). exists v, a. by rewrite Ea.
    + assert (exists th0, s.(threads) !! u = Some th0 /\ (th = th0 \/ th = wake ChFree th0)) as (th0 & E0 & Ew).
      { destruct Hl' as [->| ->]; [exists th; by split; [|left] |]. rewrite list_lookup_fmap in Hu. destruct (s.(threads) !! u) as [th0|]; [|done]. exists th0. split; [done | right]. by injection Hu. }
      assert (thread_ok s' u th0) as Hok by (eapply thread_ok_frame; [by apply Ht | done..|exact Ea]). destruct Ew as [-> | ->]; [done |]. by destruct th0.
  - intros Hne. destruct (His Hne) as [?|E]; [by left | congruence].
Qed.

(** A free descriptor is not the head of a request. *)
Lemma free_head s h : vinv s -> (h < NUM)%nat -> s.(dfree) !! h = Some true -> h ∉ pend s.
Proof.
  intros Hi Hlt Hf Hin. destruct (vi_head _ Hi h Hin) as (t & c & b & w & Hact & <-).
  assert (s.(dfree) !! c.(c0) = Some false) as E by (apply (co_free _ (vi_core _ Hi)); [done |]; exists t, c, b, w; split; [done | apply list_elem_of_here]). congruence.
Qed.

(** There is room in the rings. *)
Lemma pend_room s h : vinv s -> (h < NUM)%nat -> h ∉ pend s -> (length (pend s) < 8)%nat.
Proof.
  intros Hi Hlt Hn. assert (NoDup (h :: pend s)) as Hnd by (constructor; [done | apply Hi]).
  assert (length (h :: pend s) <= length (seq 0 NUM))%nat as Hle.
  { apply submseteq_length, NoDup_submseteq; [done |]. intros x [->|Hx]%elem_of_cons; [apply elem_of_seq; lia |].
    destruct (vi_head _ Hi x Hx) as (t & c & b & w & Hact & <-). apply elem_of_seq. split; [lia |]. apply (co_lt _ (vi_core _ Hi) t c b w); [done | apply list_elem_of_here]. }
  rewrite length_seq in Hle. cbn in Hle. unfold NUM in Hle. lia.
Qed.

Lemma availq_room s : (length (pend s) < 8 -> length (availq s) < 8)%nat.
Proof. unfold pend. rewrite length_app. lia. Qed.

Definition take_descs c (l : list bool) : list bool := <[c.(c2) := false]> (<[c.(c1) := false]> (<[c.(c0) := false]> l)).

Lemma take_descs_lookup c l i : (forall j, j ∈ descs c -> (j < length l)%nat) -> take_descs c l !! i = if decide (i ∈ descs c) then Some false else l !! i.
Proof.
  intros Hl. unfold take_descs, descs in *. pose proof (Hl c.(c0) ltac:(set_solver +)). pose proof (Hl c.(c1) ltac:(set_solver +)). pose proof (Hl c.(c2) ltac:(set_solver +)).
  rewrite !list_lookup_insert, !length_insert. repeat case_decide; try done; set_solver.
Qed.

(** The request of a process is in the table, and the others are as before. *)
Lemma filled_new s c b w x : core s -> s.(vbufs) !! b = Some x -> NoDup (descs c) -> (forall i, i ∈ descs c -> (i < NUM)%nat) ->
  formatted (filled c b w x s) c b w (mkVbuf 1 x.(v_blockno) x.(v_data)).
Proof.
  intros [Hd _ Hi Ho _ _ _ _ _ _ _ _ _ _] Hb Hnd Hlt. unfold descs in *. rewrite !NoDup_cons, !elem_of_cons in Hnd. destruct Hnd as (N0 & N1 & _).
  pose proof (Hlt c.(c0) ltac:(set_solver +)). pose proof (Hlt c.(c1) ltac:(set_solver +)). pose proof (Hlt c.(c2) ltac:(set_solver +)).
  pose proof (lookup_lt_Some _ _ _ Hb). constructor; unfold filled; cbn.
  - by rewrite list_lookup_insert_eq.
  - by rewrite list_lookup_insert_eq by lia.
  - rewrite !list_lookup_insert_ne by naive_solver. by rewrite list_lookup_insert_eq by lia.
  - rewrite list_lookup_insert_ne by naive_solver. by rewrite list_lookup_insert_eq by (rewrite length_insert; lia).
  - by rewrite list_lookup_insert_eq by (rewrite !length_insert; lia).
  - exists 255. by rewrite list_lookup_insert_eq by lia.
Qed.

Lemma filled_old s c b w x c' b' w' y : formatted s c' b' w' y -> (forall i, i ∈ descs c -> i ∉ descs c') -> b <> b' -> formatted (filled c b w x s) c' b' w' y.
Proof.
  intros Hf Hd Hb. unfold descs in *. pose proof (Hd c.(c0) ltac:(set_solver +)) as D0. pose proof (Hd c.(c1) ltac:(set_solver +)) as D1. pose proof (Hd c.(c2) ltac:(set_solver +)) as D2.
  eapply formatted_frame; [exact Hf | | | |]; unfold filled; cbn.
  - rewrite list_lookup_insert_ne by done. apply Hf.
  - rewrite list_lookup_insert_ne; [done |]. intros E. apply D0. rewrite E. apply list_elem_of_here.
  - intros i Hi. unfold descs in Hi. rewrite !list_lookup_insert_ne; [done | intros <-; done..].
  - rewrite list_lookup_insert_ne; [done |]. intros E. apply D0. rewrite E. apply list_elem_of_here.
Qed.

(** *** virtio_disk_rw() fills in a request *)
(** The state after rw_fill(), with the lock. *)
Definition fill_step s (t b : nat) (w : bool) c (x : vbuf) : vdisk :=
  set_vlock (Some (HThread t)) (set_threads (<[t := TFilled c b w]> s.(threads)) (filled c b w x (set_dfree (take_descs c s.(dfree)) s))).

Lemma fill_act s t b w c x u : s.(threads) !! t = Some (TAlloc b w) -> act (fill_step s t b w c x) u = if decide (u = t) then Some (c, b, w) else act s u.
Proof. intros Hth. unfold act, fill_step. cbn. rewrite (lookup_insert_thread _ _ _ _ _ Hth). by case_decide. Qed.

Lemma fill_use s t b w c x u : s.(threads) !! t = Some (TAlloc b w) -> use (fill_step s t b w c x) u = use s u.
Proof. intros Hth. unfold use, fill_step. cbn. rewrite (lookup_insert_thread _ _ _ _ _ Hth). case_decide; [subst u; by rewrite Hth | done]. Qed.

(** The descriptors and the buffer of the new request are not those of another. *)
Lemma fill_apart s t b w c : core s -> s.(threads) !! t = Some (TAlloc b w) -> (forall i, i ∈ descs c -> (i < NUM)%nat /\ s.(dfree) !! i = Some true) ->
  forall u c' b' w', act s u = Some (c', b', w') -> b <> b' /\ forall i, i ∈ descs c -> i ∉ descs c'.
Proof.
  intros Hc Hth Hfree u c' b' w' Hact. split.
  - intros ->. assert (u = t) as -> by (eapply (co_own _ Hc); [by eapply act_use | unfold use; by rewrite Hth]). unfold act in Hact. by rewrite Hth in Hact.
  - intros i Hi Hi'. destruct (Hfree i Hi) as [Hlt Hf]. assert (s.(dfree) !! i = Some false) by (apply (co_free _ Hc); [done | by eauto 7]). congruence.
Qed.

Lemma core_fill s t b w c x : core s -> s.(threads) !! t = Some (TAlloc b w) -> s.(vbufs) !! b = Some x ->
  NoDup (descs c) -> (forall i, i ∈ descs c -> (i < NUM)%nat /\ s.(dfree) !! i = Some true) -> core (fill_step s t b w c x).
Proof.
  intros Hc Hth Hb Hnd Hfree. pose proof (fill_apart s t b w c Hc Hth Hfree) as Hap. pose proof (lookup_lt_Some _ _ _ Hb) as Hblt.
  assert (forall u, act (fill_step s t b w c x) u = if decide (u = t) then Some (c, b, w) else act s u) as Ea by (intros; by apply fill_act).
  assert (forall u, use (fill_step s t b w c x) u = use s u) as Eu by (intros; by apply fill_use).
  assert (act s t = None) as Hat by (unfold act; by rewrite Hth). set (s' := fill_step s t b w c x) in *.
  assert (core s) as Hc' by done. destruct Hc. constructor; unfold s', fill_step, filled; cbn; try (by rewrite ?length_insert).
  + unfold take_descs. by rewrite !length_insert.
  + intros b' y Hy. apply list_lookup_insert_Some in Hy as [(<- & <- & _)|[_ Hy]]; [by apply co_buf0 in Hb | by eauto].
  + intros u b' Hu. rewrite length_insert. apply (co_use0 u). by rewrite <- Eu.
  + intros u u' b'. change (use s' u = Some b' -> use s' u' = Some b' -> u = u'). rewrite !Eu. eauto.
  + intros i Hi. rewrite take_descs_lookup by (intros j Hj; rewrite co_dfree0; by apply Hfree). change (act _) with (act s'). setoid_rewrite Ea. case_decide as Hin.
    * split; [intros _ | done]. exists t, c, b, w. by rewrite decide_True.
    * rewrite co_free0 by done. split; intros (u & c' & b' & w' & Hact & Hi'); exists u, c', b', w'.
      -- rewrite decide_False; [done |]. intros ->. congruence.
      -- case_decide; [|done]. injection Hact as <- <- <-. done.
  + intros u c' b' w'. change (act s' u = Some (c', b', w') -> NoDup (descs c')). rewrite Ea. case_decide; [by intros [= <- <- <-] | by eauto].
  + intros u c' b' w' i. change (act s' u = Some (c', b', w') -> i ∈ descs c' -> (i < NUM)%nat). rewrite Ea. case_decide; [intros [= <- <- <-] Hi; by apply Hfree | by eauto].
  + intros u u' c1 b1 w1 c2 b2 w2 i. change (act s' u = Some (c1, b1, w1) -> act s' u' = Some (c2, b2, w2) -> i ∈ descs c1 -> i ∈ descs c2 -> u = u'). rewrite !Ea.
    repeat case_decide; subst; [done | | | by eauto].
    * intros [= <- <- <-] Hact Hi Hi'. by destruct (proj2 (Hap _ _ _ _ Hact) i).
    * intros Hact [= <- <- <-] Hi Hi'. by destruct (proj2 (Hap _ _ _ _ Hact) i).
  + intros u c' b' w'. change (act s' u = Some (c', b', w') -> exists y, formatted s' c' b' w' y). rewrite Ea. case_decide.
    * intros [= <- <- <-]. eexists. assert (formatted (filled c b w x s) c b w (mkVbuf 1 x.(v_blockno) x.(v_data))) as [] by (apply filled_new; [done | done | done | intros i Hi; by apply Hfree]).
      by constructor.
    * intros Hact. destruct (co_chain0 _ _ _ _ Hact) as [y Hy]. exists y. assert (formatted (filled c b w x s) c' b' w' y) as [] by (apply filled_old; [done | by apply (proj2 (Hap _ _ _ _ Hact)) | by apply (Hap _ _ _ _ Hact)]).
      by constructor.
Qed.

Lemma vinv_fill s t b w c x : vinv s -> s.(threads) !! t = Some (TAlloc b w) -> s.(vlock) = None -> s.(vbufs) !! b = Some x ->
  NoDup (descs c) -> (forall i, i ∈ descs c -> (i < NUM)%nat /\ s.(dfree) !! i = Some true) ->
  vinv (set_vlock (Some (HThread t)) (set_threads (<[t := TFilled c b w]> s.(threads)) (filled c b w x (set_dfree (take_descs c s.(dfree)) s)))).
Proof.
  intros Hinv Hth Hlk Hb Hnd Hfree. assert (c.(c0) ∈ descs c) as Hc0 by apply list_elem_of_here. destruct (Hfree _ Hc0) as [Hlt0 Hf0].
  pose proof (free_head s _ Hinv Hlt0 Hf0) as Hnp. pose proof (availq_room _ (pend_room s _ Hinv Hlt0 Hnp)) as Hroom.
  destruct Hinv as [Hc ? ? ? ? ? Hh Ht Hst Hl His]. pose proof (lookup_lt_Some _ _ _ Hb) as Hblt. pose proof (fill_apart s t b w c Hc Hth Hfree) as Hap. pose proof (core_fill s t b w c x Hc Hth Hb Hnd Hfree) as Hcf.
  assert (forall u, act (fill_step s t b w c x) u = if decide (u = t) then Some (c, b, w) else act s u) as Ea by (intros; by apply fill_act).
  change (vinv (fill_step s t b w c x)). set (s' := fill_step s t b w c x) in *.
  assert (pend s' = pend s) as Ep.
  { unfold pend. f_equal. unfold availq, s', fill_step, filled. cbn. by apply queue_fill. }
  assert (act s t = None) as Hat by (unfold act; by rewrite Hth).
  assert (use s t = Some b) as Hut by (unfold use; by rewrite Hth).
  constructor; try done; rewrite ?Ep; try done.
  - intros h Hin. destruct (Hh h Hin) as (u & c' & b' & w' & Hact & Eh). exists u, c', b', w'. split; [|done]. rewrite Ea, decide_False; [done |]. intros ->. congruence.
  - intros u th Hu. unfold s', fill_step in Hu. cbn in Hu. rewrite (lookup_insert_thread _ _ _ _ _ Hth) in Hu. case_decide as E.
    + injection Hu as <-. subst u. cbn [thread_ok]. rewrite Ep. unfold disk_of, s', fill_step, filled. cbn. split_and!; [by rewrite list_lookup_insert_eq | done | done |].
      apply list_lookup_insert_eq. rewrite (co_avail _ Hc). unfold NUM in *. apply Nat2Z.inj_lt. rewrite Z2Nat.id; apply Z.mod_pos_bound; lia.
    + specialize (Ht u th Hu). assert (forall b', uses th = Some b' -> disk_of s' b' = disk_of s b') as Hd.
      { intros b' Hb'. unfold disk_of, s', fill_step, filled. cbn. rewrite list_lookup_insert_ne; [done |]. intros ->. apply E. eapply (co_own _ Hc); [|exact Hut]. unfold use. by rewrite Hu. }
      destruct th as [| | |c' b' w'|c' b' w'|c' b' w']; cbn [thread_ok uses] in *; try done.
      * exists t. eexists. by rewrite Ea, decide_True.
      * destruct Ht as (_ & _ & E' & _). congruence.
      * by rewrite Ep, Hd.
      * by rewrite Ep, Hd.
  - intros h Hin. destruct (Hst h Hin) as (ob & st & Hob & HP). exists ob, st. split; [|done]. unfold s', fill_step, filled. cbn. rewrite list_lookup_insert_ne; [done |]. intros <-. apply Hnp. unfold pend. set_solver.
  - intros u [= <-]. exists c, b, w. unfold s', fill_step. cbn. apply list_lookup_insert_eq. by eapply lookup_lt_Some.
  - intros Hne. destruct (His Hne) as [?|E]; [by left | congruence].
Qed.

(** *** avail->idx is incremented, and the process sleeps *)
Lemma vinv_publish s t c b w : vinv s -> s.(threads) !! t = Some (TFilled c b w) ->
  vinv (set_vlock None (set_threads (<[t := TSleepBuf c b w]> s.(threads)) (set_avail_idx (u16 (s.(avail_idx) + 1)) s))).
Proof.
  intros Hinv Hth. pose proof (vi_thread _ Hinv t _ Hth) as (Hdk & Hnp & Hlk & Hslot).
  assert (act s t = Some (c, b, w)) as Hat by (unfold act; by rewrite Hth). assert (c.(c0) < NUM)%nat as Hlt0 by (eapply (co_lt _ (vi_core _ Hinv)); [exact Hat | apply list_elem_of_here]).
  pose proof (availq_room _ (pend_room s _ Hinv Hlt0 Hnp)) as Hroom.
  destruct Hinv as [Hc ? ? ? ? Hpn Hh Ht Hst Hl His]. set (s' := set_vlock _ _).
  assert (forall u, act s' u = act s u) as Ea.
  { intros u. unfold act at 1, s'. cbn. rewrite (lookup_insert_thread _ _ _ _ _ Hth). case_decide as E; [subst u; by rewrite Hat | done]. }
  assert (forall u, use s' u = use s u) as Eu.
  { intros u. unfold use, s'. cbn. rewrite (lookup_insert_thread _ _ _ _ _ Hth). case_decide as E; [subst u; by rewrite Hth | done]. }
  assert (pend s' = availq s ++ [c.(c0)] ++ s.(inflight) ++ usedq s) as Ep.
  { unfold pend at 1. unfold availq at 1. unfold s'. cbn. rewrite queue_push, Hslot by done. cbn. rewrite Nat2Z.id, <- app_assoc. done. }
  assert (pend s' ≡ₚ c.(c0) :: pend s) as Epp by (rewrite Ep; unfold pend; solve_Permutation).
  constructor; try done.
  - assert (core (set_threads (<[t := TSleepBuf c b w]> s.(threads)) s)) as [] by (by apply core_threads). constructor; try done.
    intros u c' b' w' Hact. destruct (co_chain0 u c' b' w' Hact) as [y []]. exists y. by constructor.
  - apply u16_is.
  - rewrite Epp. by constructor.
  - intros h. rewrite Epp. intros [->|Hin]%elem_of_cons; [exists t, c, b, w; by rewrite Ea |]. destruct (Hh h Hin) as (u & c' & b' & w' & Hact & Eh). exists u, c', b', w'. by rewrite Ea.
  - intros u th Hu. unfold s' in Hu. cbn in Hu. rewrite (lookup_insert_thread _ _ _ _ _ Hth) in Hu. case_decide as E.
    + injection Hu as <-. cbn [thread_ok]. split; [done |]. rewrite Epp. apply list_elem_of_here.
    + specialize (Ht u th Hu). assert (act s u = active th) as Hau by (unfold act; by rewrite Hu).
      destruct th as [| | |c' b' w'|c' b' w'|c' b' w']; cbn [thread_ok] in *; try done.
      * destruct Ht as (v & a & Hv). exists v, a. by rewrite Ea.
      * destruct Ht as (_ & _ & E' & _). congruence.
      * destruct Ht as [? ?]. split; [done |]. rewrite Epp. by apply list_elem_of_further.
      * destruct Ht as [? ?]. split; [done |]. rewrite Epp. intros [E'|?]%elem_of_cons; [|done]. apply E.
        apply (co_disj _ Hc u t _ _ _ _ _ _ c.(c0) Hau Hat); [rewrite <- E'; apply list_elem_of_here | apply list_elem_of_here].
  - intros Hne. destruct (His Hne) as [?|E]; [by left | congruence].
Qed.

(** The state when virtio_disk_rw() returns. *)
Definition finished (t : nat) c s : vdisk :=
  let s1 := set_info (<[c.(c0) := (None, (default (None, 0) (s.(info) !! c.(c0))).2)]> s.(info)) s in
  let s2 := freed c.(c2) (freed c.(c1) (freed c.(c0) s1)) in
  set_vlock None (set_threads (<[t := TIdle]> s2.(threads)) s2).

Lemma finished_thread t c s th : s.(threads) !! t = Some th ->
  forall u, (finished t c s).(threads) !! u = if decide (u = t) then Some TIdle else wake ChFree <$> s.(threads) !! u.
Proof.
  intros Hth u. unfold finished, freed. cbn. rewrite <- !list_fmap_compose. erewrite lookup_insert_thread by (by rewrite list_lookup_fmap, Hth). case_decide; [done |].
  rewrite list_lookup_fmap. destruct (s.(threads) !! u) as [x|]; [|done]. cbn. by rewrite !wake_free_twice.
Qed.

Lemma finished_free t c s i : (forall j, j ∈ descs c -> (j < length s.(dfree))%nat) -> (finished t c s).(dfree) !! i = if decide (i ∈ descs c) then Some true else s.(dfree) !! i.
Proof.
  intros Hl. unfold finished, freed. cbn. unfold descs in *. pose proof (Hl c.(c0) ltac:(set_solver +)). pose proof (Hl c.(c1) ltac:(set_solver +)). pose proof (Hl c.(c2) ltac:(set_solver +)).
  rewrite !list_lookup_insert, !length_insert. repeat case_decide; try done; set_solver.
Qed.

(** *** virtio_disk_rw() returns *)
Lemma vinv_finish s t c b w : vinv s -> s.(threads) !! t = Some (TCheck c b w) -> s.(vlock) = None -> vinv (finished t c s).
Proof.
  intros Hinv Hth Hlk. pose proof (vi_thread _ Hinv t _ Hth) as (Hdk & Hnp). destruct Hinv as [Hc ? ? ? ? Hpn Hh Ht Hst Hl His].
  assert (act s t = Some (c, b, w)) as Hat by (unfold act; by rewrite Hth). pose proof (finished_thread t c s _ Hth) as Eth. set (s' := finished t c s) in *.
  assert (forall u, act s' u = if decide (u = t) then None else act s u) as Ea.
  { intros u. unfold act. rewrite Eth. case_decide; [done |]. destruct (s.(threads) !! u); [cbn; apply wake_active | done]. }
  assert (forall u, use s' u = if decide (u = t) then None else use s u) as Eu.
  { intros u. unfold use. rewrite Eth. case_decide; [done |]. destruct (s.(threads) !! u); [cbn; apply wake_uses | done]. }
  assert (forall i, i ∈ descs c -> (i < NUM)%nat) as Hlt by (intros i; by apply (co_lt _ Hc t c b w)).
  assert (forall u c' b' w' i, u <> t -> act s u = Some (c', b', w') -> i ∈ descs c -> i ∉ descs c') as Hdis by (intros u c' b' w' i Hne Hact Hi Hi'; by apply Hne; eapply (co_disj _ Hc)).
  constructor; try done.
  - destruct Hc. constructor; try done.
    + unfold s', finished, freed. cbn. by rewrite !length_insert.
    + unfold s', finished, freed. cbn. by rewrite !length_insert.
    + unfold s', finished, freed. cbn. by rewrite !length_insert.
    + intros u b'. rewrite Eu. case_decide; [done |]. apply co_use0.
    + intros u u' b'. rewrite !Eu. repeat case_decide; [done.. | by eauto].
    + intros i Hi. unfold s'. rewrite finished_free by (intros j Hj; rewrite co_dfree0; auto). fold s'. setoid_rewrite Ea. case_decide as Hin.
      * split; [done |]. intros (u & c' & b' & w' & Hact & Hi'). case_decide as E; [done |]. by destruct (Hdis u c' b' w' i E Hact Hin).
      * rewrite co_free0 by done. split; intros (u & c' & b' & w' & Hact & Hi'); exists u, c', b', w'.
        -- case_decide as E; [|done]. subst u. rewrite Hat in Hact. injection Hact as <- <- <-. done.
        -- by case_decide.
    + intros u c' b' w'. rewrite Ea. case_decide; [done | by eauto].
    + intros u c' b' w' i. rewrite Ea. case_decide; [done | by eauto].
    + intros u u' c1 b1 w1 c2 b2 w2 i. rewrite !Ea. repeat case_decide; [done.. | by eauto].
    + intros u c' b' w'. rewrite Ea. case_decide as E; [done |]. intros Hact. destruct (co_chain0 _ _ _ _ Hact) as [y Hy]. exists y.
      pose proof (fun i => Hdis u c' b' w' i E Hact) as Hd. unfold descs in Hd. eapply formatted_frame; [exact Hy | apply Hy | done | |]; unfold s', finished, freed; cbn.
      * intros i Hi. rewrite !list_lookup_insert_ne; [done | intros <-; eapply Hd; [|exact Hi]; set_solver + ..].
      * rewrite list_lookup_insert_ne; [done |]. intros E'. eapply (Hd c.(c0)); [set_solver + |]. rewrite E'. set_solver +.
  - intros h Hin. destruct (Hh h Hin) as (u & c' & b' & w' & Hact & Eh). exists u, c', b', w'. split; [|done]. rewrite Ea, decide_False; [done |]. intros ->.
    rewrite Hat in Hact. injection Hact as <- <- <-. subst h. done.
  - intros u th. rewrite Eth. case_decide as E; [by intros [= <-] |]. destruct (s.(threads) !! u) as [th0|] eqn:Eu0; [|done]. intros [= <-]. specialize (Ht u th0 Eu0).
    destruct th0 as [| | |c' b' w'|c' b' w'|c' b' w']; cbn [thread_ok wake] in *; try done. destruct Ht as (_ & _ & E' & _). congruence.
  - intros h Hin. destruct (Hst h Hin) as (ob & st & Hob & HP). exists ob, st. split; [|done]. unfold s', finished, freed. cbn. rewrite list_lookup_insert_ne; [done |]. intros <-. apply Hnp. unfold pend. set_solver.
  - intros Hne. destruct (His Hne) as [?|E]; [by left | congruence].
Qed.

(** *** The interrupt handler *)
Lemma vinv_intr s : vinv s -> s.(vlock) = None -> vinv (set_vlock (Some HIntr) (set_isr false s)).
Proof.
  intros [Hc ? ? ? ? Hpn Hh Ht Hst Hl His] Hlk. constructor; try done; [by eapply core_frame; [exact Hc | try apply Hc..] | | by right]. intros t th Hth. specialize (Ht t th Hth).
  destruct th; cbn [thread_ok] in *; try done. destruct Ht as (_ & _ & E & _). congruence.
Qed.

Lemma vinv_intr_done s : vinv s -> s.(vlock) = Some HIntr -> s.(used_idx) = s.(used_dev) -> vinv (set_vlock None s).
Proof.
  intros [Hc ? ? ? ? Hpn Hh Ht Hst Hl His] Hlk Hd. constructor; try done; [by eapply core_frame; [exact Hc | try apply Hc..] |]. intros t th Hth. specialize (Ht t th Hth).
  destruct th; cbn [thread_ok] in *; try done. destruct Ht as (_ & _ & E & _). congruence.
Qed.

(** The state after a turn of the handler's loop, for the request of buffer [b]. *)
Definition acked (b : nat) (x : vbuf) s : vdisk :=
  set_used_idx (u16 (s.(used_idx) + 1)) (set_threads (wake (ChBuf b) <$> s.(threads)) (set_vbufs (<[b := mkVbuf 0 x.(v_blockno) x.(v_data)]> s.(vbufs)) s)).

(** The next request in the used ring. *)
Lemma used_next s : vinv s -> s.(used_idx) <> s.(used_dev) -> exists t c b w x st, P st /\ s.(threads) !! t = Some (TSleepBuf c b w) /\ formatted s c b w x /\
  s.(info) !! c.(c0) = Some (Some b, st) /\ Z.to_nat (default 0 (s.(used_ring) !! Z.to_nat (s.(used_idx) mod Z.of_nat NUM))) = c.(c0) /\
  usedq s = c.(c0) :: queue s.(used_ring) (u16 (s.(used_idx) + 1)) s.(used_dev).
Proof.
  intros [Hc ? ? ? ? Hpn Hh Ht Hst Hl His] Hne. assert (usedq s = _) as Eq by (unfold usedq; by apply queue_pop). set (h := Z.to_nat (default 0 _)) in *.
  assert (h ∈ usedq s) as Hin by (rewrite Eq; apply list_elem_of_here). assert (h ∈ pend s) as Hp by (unfold pend; set_solver).
  destruct (Hh h Hp) as (t & c & b & w & Hact & E). destruct (co_chain _ Hc _ _ _ _ Hact) as [x Hx]. unfold act in Hact. destruct (s.(threads) !! t) as [th|] eqn:Hth; [|done]. cbn in Hact.
  assert (th = TSleepBuf c b w) as ->.
  { specialize (Ht t th Hth). destruct th; cbn in Hact, Ht; try done; injection Hact as -> -> ->; [|done |]; rewrite E in Ht; naive_solver. }
  destruct (Hst h Hin) as (ob & st & Hob & HP). exists t, c, b, w, x, st. split_and!; [done | done | done | | done | congruence]. destruct (fm_info _ _ _ _ _ Hx) as [st' Hs]. rewrite E in *. congruence.
Qed.

Lemma vinv_ack s t c b w x : vinv s -> s.(vlock) = Some HIntr -> s.(threads) !! t = Some (TSleepBuf c b w) -> s.(vbufs) !! b = Some x -> s.(used_idx) <> s.(used_dev) ->
  usedq s = c.(c0) :: queue s.(used_ring) (u16 (s.(used_idx) + 1)) s.(used_dev) -> vinv (acked b x s).
Proof.
  intros [Hc ? ? ? ? Hpn Hh Ht Hst Hl His] Hlk Hth Hb Hne Eq. set (s' := acked b x s).
  assert (act s t = Some (c, b, w)) as Hat by (unfold act; by rewrite Hth). assert (use s t = Some b) as Hut by (by eapply act_use).
  assert (forall u, act s' u = act s u) as Ea by (intros u; apply woken_act).
  assert (forall u, use s' u = use s u) as Eu by (intros u; apply woken_use).
  assert (pend s ≡ₚ c.(c0) :: pend s') as Epp by (unfold pend at 1; rewrite Eq; unfold pend, s', acked, availq, usedq; cbn; solve_Permutation).
  rewrite Epp in Hpn. apply NoDup_cons in Hpn as [Hni Hnd].
  assert (forall h, h ∈ pend s' -> h ∈ pend s) as Hsub by (intros h Hin; rewrite Epp; by apply list_elem_of_further).
  constructor; try done.
  - destruct Hc. constructor; try done; [|intros u b'; rewrite Eu; unfold s', acked; cbn; rewrite length_insert; apply co_use0 | intros u u' b'; rewrite !Eu; eauto | |
      intros u c' b' w'; rewrite Ea; eauto | intros u c' b' w' i; rewrite Ea; eauto | intros u u' c1 b1 w1 c2 b2 w2 i; rewrite !Ea; eauto |].
    + intros b' y Hy. apply list_lookup_insert_Some in Hy as [(<- & <- & _)|[_ Hy]]; [by apply co_buf0 in Hb | by eauto].
    + intros i Hi. change (dfree s') with (dfree s). rewrite co_free0 by done. by setoid_rewrite Ea.
    + intros u c' b' w'. rewrite Ea. intros Hact. destruct (co_chain0 _ _ _ _ Hact) as [y [Yb Yo Y0 Y1 Y2 Yi]].
      destruct (decide (b' = b)) as [->|Hbb].
      * exists (mkVbuf 0 y.(v_blockno) y.(v_data)). assert (y = x) as -> by congruence. constructor; try done. apply list_lookup_insert_eq. by eapply lookup_lt_Some.
      * exists y. constructor; try done. cbn. by rewrite list_lookup_insert_ne.
  - apply u16_is.
  - intros h Hin. destruct (Hh h (Hsub h Hin)) as (u & c' & b' & w' & Hact & Eh). exists u, c', b', w'. by rewrite Ea.
  - intros u th Hu. unfold s', acked in Hu. cbn in Hu. rewrite list_lookup_fmap in Hu. destruct (s.(threads) !! u) as [th0|] eqn:Eu0; [|done]. injection Hu as <-. specialize (Ht u th0 Eu0).
    destruct (decide (u = t)) as [->|Hut'].
    + rewrite Hth in Eu0. injection Eu0 as <-. cbn [wake]. rewrite decide_True by done. cbn [thread_ok]. split; [|done]. unfold disk_of, s', acked. cbn. rewrite list_lookup_insert_eq; [done | by eapply lookup_lt_Some].
    + assert (forall b', uses th0 = Some b' -> b <> b') as Hbne by (intros b' Hb' ->; apply Hut'; eapply (co_own _ Hc); [|exact Hut]; unfold use; by rewrite Eu0).
      assert (forall c' b' w', active th0 = Some (c', b', w') -> c'.(c0) ∈ pend s -> c'.(c0) ∈ pend s') as Hstay.
      { intros c' b' w' Hact. rewrite Epp. intros [E|?]%elem_of_cons; [|done]. exfalso. apply Hut'. apply (co_disj _ Hc u t c' b' w' c b w c.(c0)); [unfold act; by rewrite Eu0 | done | rewrite <- E; apply list_elem_of_here | apply list_elem_of_here]. }
      assert (forall b', uses th0 = Some b' -> disk_of s' b' = disk_of s b') as Hd by (intros b' Hb'; unfold disk_of, s', acked; cbn; rewrite list_lookup_insert_ne by (by apply Hbne); done).
      destruct th0 as [| | |c' b' w'|c' b' w'|c' b' w']; cbn [thread_ok wake uses active] in *; try done.
      * destruct Ht as (v & a & Hv). exists v, a. by rewrite Ea.
      * destruct Ht as (_ & _ & E & _). congruence.
      * rewrite decide_False by (intros ->; by eapply Hbne). cbn [thread_ok]. rewrite Hd by done. destruct Ht. split; [done | by eapply Hstay].
      * rewrite Hd by done. destruct Ht as [? Hn]. split; [done |]. intros ?. by apply Hn, Hsub.
  - intros h Hin. apply Hst. rewrite Eq. by apply list_elem_of_further.
  - intros u Hlk'. cbn in Hlk'. congruence.
  - intros _. by right.
Qed.

(** *** The device takes a request *)
Lemma vinv_fetch s : vinv s -> s.(seen) <> s.(avail_idx) -> exists s', dev_fetch s = Ok tt s' /\ vinv s' /\ pend s' ≡ₚ pend s /\
  (length (availq s) = S (length (availq s')) /\ length s'.(inflight) = S (length s.(inflight)))%nat /\ usedq s' = usedq s.
Proof.
  intros [Hc ? ? ? ? Hpn Hh Ht Hst Hl His] Hne. eexists. split; [done |]. set (s' := set_seen _ _).
  assert (availq s = _) as Eq by (unfold availq; by apply queue_pop). set (h := Z.to_nat (default 0 _)) in *.
  assert (s'.(inflight) = s.(inflight) ++ [h]) as Ei by done.
  assert (pend s ≡ₚ pend s') as Epp by (unfold pend; rewrite Ei, Eq; unfold usedq, availq, s'; cbn; solve_Permutation).
  assert (forall x, x ∈ pend s' <-> x ∈ pend s) as Hel by (intros x; by rewrite Epp).
  split_and!; [|done | by rewrite Eq | rewrite Ei, length_app; cbn; lia | done].
  constructor; try done.
  - eapply core_frame; [exact Hc | try done; apply Hc..].
  - apply u16_is.
  - by rewrite <- Epp.
  - intros x Hx. apply Hh, Hel, Hx.
  - intros t th Hth. eapply thread_ok_frame; [by apply Ht | done | exact Hel | done..].
Qed.

(** *** The device serves a request *)
Section serve.
Context {DL : StorageLaws D}.

(** The buffer after the transfer. *)
Definition received (od : option (list Z)) (w : bool) (x : vbuf) s : vbuf :=
  if w then x else mkVbuf x.(v_disk) x.(v_blockno) (default (dev_read s.(media) (x.(v_blockno) * 2) (Z.to_nat BSIZE)) od).
Definition stored (od : option (list Z)) (w : bool) (x : vbuf) s : store := if w then dev_write s.(media) (x.(v_blockno) * 2) (default x.(v_data) od) else s.(media).

(** The state after the device has ended the request of chain [c]. *)
Definition ended (st : Z) (od : option (list Z)) (k : nat) c (b : nat) (w : bool) (x : vbuf) s : vdisk :=
  set_used_dev (u16 (s.(used_dev) + 1)) (set_inflight (delete k s.(inflight)) (set_isr true
    (set_used_ring (<[Z.to_nat (s.(used_dev) mod Z.of_nat NUM) := Z.of_nat c.(c0)]> s.(used_ring))
      (set_info (<[c.(c0) := (Some b, st)]> s.(info)) (set_vbufs (<[b := received od w x s]> s.(vbufs)) (set_media (stored od w x s) s)))))).

Lemma dev_end_run st od s k c b w x : formatted s c b w x -> s.(inflight) !! k = Some c.(c0) -> length x.(v_data) = Z.to_nat BSIZE -> dev_end st od k s = Ok tt (ended st od k c b w x s).
Proof.
  intros [Hb Ho H0 H1 H2 [st0 Hi]] Hk Hl. unfold dev_end. rewrite (bind_Ok (gets id) _ s s s) by done. rewrite Hk. erewrite bind_Ok by (by apply get_desc_Ok). cbn [d_addr d_flags d_next]. change (Z.testbit 1 0) with true. cbv iota.
  rewrite Nat2Z.id. erewrite bind_Ok by (by apply get_desc_Ok). cbn [d_addr d_flags d_next]. replace (negb (Z.testbit (if w then 1 else 3) 0)) with false by (by destruct w). cbv iota.
  rewrite Nat2Z.id. erewrite bind_Ok by (by apply get_desc_Ok). cbn [d_addr d_flags d_next]. rewrite Ho. change (Z.testbit 2 0) with false. change (Z.testbit 2 1) with true. cbv iota.
  destruct w; (erewrite bind_Ok; [|unfold dev_transfer; cbn [d_addr]; erewrite bind_Ok by (by apply get_vbuf_Ok); cbn; reflexivity]);
    unfold modify, mbind, M_bind, ended, received, stored; cbn; rewrite Hi; cbn.
  - rewrite take_ge by lia. rewrite (list_insert_id s.(vbufs) b x) by done. by destruct s.
  - by destruct s.
Qed.

(** The request the device has at [k]. *)
Lemma inflight_owner s k h : vinv s -> s.(inflight) !! k = Some h -> exists t c b w x, s.(threads) !! t = Some (TSleepBuf c b w) /\ c.(c0) = h /\ formatted s c b w x /\
  length x.(v_data) = Z.to_nat BSIZE.
Proof.
  intros [Hc ? ? ? ? Hpn Hh Ht Hst Hl His] Hk. assert (h ∈ pend s) as Hp by (unfold pend; apply list_elem_of_lookup_2 in Hk; set_solver).
  destruct (Hh h Hp) as (t & c & b & w & Hact & E). destruct (co_chain _ Hc _ _ _ _ Hact) as [x Hx]. unfold act in Hact. destruct (s.(threads) !! t) as [th|] eqn:Hth; [|done]. cbn in Hact.
  assert (th = TSleepBuf c b w) as ->.
  { specialize (Ht t th Hth). destruct th; cbn in Hact, Ht; try done; injection Hact as -> -> ->; [|done |]; rewrite E in Ht; naive_solver. }
  exists t, c, b, w, x. split_and!; try done. by apply (co_buf _ Hc b x), Hx.
Qed.

Lemma received_disk od w x s : (received od w x s).(v_disk) = x.(v_disk).
Proof. by destruct w. Qed.
Lemma received_blockno od w x s : (received od w x s).(v_blockno) = x.(v_blockno).
Proof. by destruct w. Qed.

Lemma ended_pend st od s k c b w x : vinv s -> s.(inflight) !! k = Some c.(c0) -> (c.(c0) < NUM)%nat ->
  usedq (ended st od k c b w x s) = usedq s ++ [c.(c0)] /\ pend (ended st od k c b w x s) ≡ₚ pend s.
Proof.
  intros Hinv Hk Hlt. assert (length (usedq s) < 8)%nat as Hroom.
  { assert (length (usedq s ++ [c.(c0)]) <= length (seq 0 NUM))%nat as Hle; [|rewrite length_app, length_seq in Hle; cbn in Hle; unfold NUM in Hle; lia].
    assert (c.(c0) :: usedq s ⊆+ pend s) as Hsub.
    { unfold pend. rewrite (delete_Permutation _ _ _ Hk). apply submseteq_inserts_l. cbn. apply submseteq_skip, submseteq_inserts_l. done. }
    rewrite length_app, Nat.add_comm. change (length [c.(c0)] + length (usedq s))%nat with (length (c.(c0) :: usedq s)). apply submseteq_length.
    transitivity (pend s); [done |]. apply NoDup_submseteq; [apply Hinv |]. intros h Hin. destruct (vi_head _ Hinv h Hin) as (t' & c' & b' & w' & Hact & <-).
    apply elem_of_seq. split; [lia |]. apply (co_lt _ (vi_core _ Hinv) t' c' b' w'); [done | apply list_elem_of_here]. }
  assert (usedq (ended st od k c b w x s) = usedq s ++ [c.(c0)]) as Eq.
  { unfold usedq, ended. cbn. pose proof (vi_used _ Hinv). pose proof (vi_dev _ Hinv).
    rewrite queue_push by (try done; rewrite queue_length; by rewrite <- (queue_length s.(used_ring))).
    rewrite queue_fill by done. f_equal. rewrite list_lookup_insert_eq; [cbn; by rewrite Nat2Z.id |].
    rewrite (co_used _ (vi_core _ Hinv)). unfold NUM. apply Nat2Z.inj_lt. rewrite Z2Nat.id; apply Z.mod_pos_bound; lia. }
  split; [done |]. unfold pend at 1. rewrite Eq. unfold pend, availq, ended. cbn [inflight set_used_dev set_inflight avail_ring seen avail_idx set_isr set_used_ring set_info set_vbufs set_media].
  rewrite (delete_Permutation s.(inflight) k _ Hk) at 2. cbn. solve_Permutation.
Qed.

Lemma vinv_end st od s k t c b w x : vinv s -> s.(threads) !! t = Some (TSleepBuf c b w) -> formatted s c b w x -> s.(inflight) !! k = Some c.(c0) -> length x.(v_data) = Z.to_nat BSIZE ->
  P st -> (forall y, od = Some y -> length y = Z.to_nat BSIZE) -> vinv (ended st od k c b w x s).
Proof.
  intros Hinv Hth Hf Hk Hlen HP Hod. assert (act s t = Some (c, b, w)) as Hat by (unfold act; by rewrite Hth). assert (use s t = Some b) as Hut by (by eapply act_use).
  assert (c.(c0) < NUM)%nat as Hlt by (eapply (co_lt _ (vi_core _ Hinv)); [exact Hat | apply list_elem_of_here]). destruct (ended_pend st od s k c b w x Hinv Hk Hlt) as [Eq Epp].
  destruct Hinv as [Hc ? ? ? ? Hpn Hh Ht Hst Hl His]. pose proof (fm_buf _ _ _ _ _ Hf) as Hb. pose proof (lookup_lt_Some _ _ _ Hb) as Hblt. set (s' := ended st od k c b w x s) in *.
  assert (forall h, h ∈ pend s' <-> h ∈ pend s) as Hel by (intros h; by rewrite Epp).
  constructor; try done.
  - destruct Hc. constructor; try done.
    + unfold s', ended. cbn. by rewrite length_insert.
    + unfold s', ended. cbn. by rewrite length_insert.
    + intros b' y Hy. apply list_lookup_insert_Some in Hy as [(<- & <- & _)|[_ Hy]]; [|by eauto]. rewrite received_blockno. destruct (co_buf0 _ _ Hb). split; [done |].
      destruct w; [done |]. cbn. destruct od as [y|]; cbn; [by apply Hod | apply dev_read_length].
    + intros u b' Hu. unfold s', ended. cbn. rewrite length_insert. by apply (co_use0 u).
    + intros u c' b' w' Hact. change (act s u = Some (c', b', w')) in Hact. destruct (co_chain0 u c' b' w' Hact) as [y [Yb Yo Y0 Y1 Y2 [st' Yi]]]. destruct (decide (u = t)) as [->|Hne].
      * assert ((c', b', w') = (c, b, w)) as [= -> -> ->] by congruence. exists (received od w x s). assert (y = x) as -> by congruence. constructor; try done.
        -- by apply list_lookup_insert_eq.
        -- by rewrite received_blockno.
        -- exists st. unfold s', ended. cbn. rewrite list_lookup_insert_eq; [done | lia].
      * exists y. constructor; try done.
        -- unfold s', ended. cbn. rewrite list_lookup_insert_ne; [done |]. intros ->. apply Hne. eapply co_own0; [by eapply act_use | done].
        -- exists st'. unfold s', ended. cbn. rewrite list_lookup_insert_ne; [done |]. intros E. apply Hne. eapply (co_disj0 u t c' b' w' c b w c.(c0)); [done | done | rewrite E |]; apply list_elem_of_here.
  - apply u16_is.
  - by rewrite Epp.
  - intros h Hin. apply Hh, Hel, Hin.
  - intros u th Hu. eapply thread_ok_frame; [by apply Ht | | exact Hel | done..]. intros b' _. unfold disk_of, s', ended. cbn. destruct (decide (b' = b)) as [->|].
    + rewrite list_lookup_insert_eq, Hb by done. cbn. by rewrite received_disk.
    + by rewrite list_lookup_insert_ne.
  - intros h. rewrite Eq. intros [Hin|Hin]%elem_of_app; unfold s', ended; cbn.
    + destruct (Hst h Hin) as (ob & st' & Hob & HP'). destruct (decide (h = c.(c0))) as [->|].
      * exists (Some b), st. split; [|done]. rewrite list_lookup_insert_eq; [done | rewrite (co_info _ Hc); lia].
      * exists ob, st'. by rewrite list_lookup_insert_ne.
    + apply list_elem_of_singleton in Hin as ->. exists (Some b), st. split; [|done]. rewrite list_lookup_insert_eq; [done | rewrite (co_info _ Hc); lia].
  - intros _. by left.
Qed.

(** ** Steps *)

(** The steps of the system from a state that satisfies the invariant. *)
Inductive vstep s : label -> vdisk -> Prop :=
| vs_start t b w : s.(threads) !! t = Some TIdle -> (b < length s.(vbufs))%nat -> in_use s b = false ->
    vstep s (LStart t b w) (set_threads (<[t := TAlloc b w]> s.(threads)) s)
| vs_buf b bn d : 0 <= bn < 2 ^ 31 -> length d = Z.to_nat BSIZE -> (b < length s.(vbufs))%nat -> in_use s b = false ->
    vstep s (LBuf b bn d) (set_vbufs (<[b := mkVbuf 0 bn d]> s.(vbufs)) s)
| vs_nodesc t b w s1 : s.(threads) !! t = Some (TAlloc b w) -> s.(vlock) = None -> undone s s1 -> (exists i, (i < NUM)%nat /\ s.(dfree) !! i = Some false) ->
    vstep s (LRun t) (set_vlock None (set_threads (<[t := TSleepFree b w]> s1.(threads)) s1))
| vs_fill t b w c x : s.(threads) !! t = Some (TAlloc b w) -> s.(vlock) = None -> s.(vbufs) !! b = Some x -> NoDup (descs c) ->
    (forall i, i ∈ descs c -> (i < NUM)%nat /\ s.(dfree) !! i = Some true) ->
    vstep s (LRun t) (set_vlock (Some (HThread t)) (set_threads (<[t := TFilled c b w]> s.(threads)) (filled c b w x (set_dfree (take_descs c s.(dfree)) s))))
| vs_publish t c b w : s.(threads) !! t = Some (TFilled c b w) ->
    vstep s (LRun t) (set_vlock None (set_threads (<[t := TSleepBuf c b w]> s.(threads)) (set_avail_idx (u16 (s.(avail_idx) + 1)) s)))
| vs_finish t c b w : s.(threads) !! t = Some (TCheck c b w) -> s.(vlock) = None -> vstep s (LRun t) (finished t c s)
| vs_intr : s.(isr) = true -> s.(vlock) = None -> vstep s LIntr (set_vlock (Some HIntr) (set_isr false s))
| vs_intr_done : s.(vlock) = Some HIntr -> s.(used_idx) = s.(used_dev) -> vstep s LTurn (set_vlock None s)
| vs_ack t c b w x : s.(vlock) = Some HIntr -> s.(threads) !! t = Some (TSleepBuf c b w) -> s.(vbufs) !! b = Some x -> s.(used_idx) <> s.(used_dev) ->
    usedq s = c.(c0) :: queue s.(used_ring) (u16 (s.(used_idx) + 1)) s.(used_dev) -> vstep s LTurn (acked b x s)
| vs_fetch s' : s.(seen) <> s.(avail_idx) -> dev_fetch s = Ok tt s' -> vstep s LFetch s'
| vs_serve k t c b w x : s.(threads) !! t = Some (TSleepBuf c b w) -> formatted s c b w x -> s.(inflight) !! k = Some c.(c0) -> length x.(v_data) = Z.to_nat BSIZE ->
    vstep s (LServe k) (ended 0 None k c b w x s).

Lemma vstep_inv s l s' : P 0 -> vinv s -> vstep s l s' -> vinv s'.
Proof.
  intros HP Hinv []; [by apply vinv_start | by apply vinv_buf | by eapply vinv_nodesc | by apply vinv_fill | by apply vinv_publish | by eapply vinv_finish |
    by apply vinv_intr | by apply vinv_intr_done | by eapply vinv_ack | | by eapply vinv_end].
  destruct (vinv_fetch s Hinv) as (s2 & E & Hs2 & _); [done |]. congruence.
Qed.

Lemma disk_one s b : disk_of s b = 1 -> exists x, s.(vbufs) !! b = Some x /\ x.(v_disk) = 1.
Proof. unfold disk_of. destruct (s.(vbufs) !! b) as [x|]; cbn; [|done]. by exists x. Qed.

(** virtio_disk_rw() does one of these. *)
Lemma rw_vstep s t th : vinv s -> s.(threads) !! t = Some th -> may_run s t th = true -> exists s',
  (th' ← virtio_disk_rw th; modify (fun s => set_vlock (lock_after t th') (set_threads (<[t := th']> s.(threads)) s))) s = Ok tt s' /\ vstep s (LRun t) s'.
Proof.
  intros Hinv Hth Hrun. pose proof (vi_core _ Hinv) as Hc. destruct th as [|b w|b w|c b w|c b w|c b w]; cbn [may_run] in Hrun; try done; apply bool_decide_eq_true in Hrun; cbn [virtio_disk_rw].
  - assert (use s t = Some b) as Hu by (unfold use; by rewrite Hth). apply (co_use _ Hc) in Hu. apply lookup_lt_is_Some_2 in Hu as [x Hx].
    destruct (alloc3_run s (co_dfree _ Hc)) as [(c & Hnd & Hfr & E)|(s1 & E & Hun & Hsome)].
    + eexists. split; [|by eapply (vs_fill s t b w c x)]. erewrite bind_Ok; [|erewrite bind_Ok by exact E; cbv iota; erewrite bind_Ok; [done |]].
      2: { apply rw_fill_run; [exact Hx | by apply (co_buf _ Hc b x) |]. cbn. rewrite (co_info _ Hc). apply Hfr, list_elem_of_here. }
      done.
    + eexists. split; [|by eapply (vs_nodesc s t b w s1)]. erewrite bind_Ok; [|erewrite bind_Ok by exact E; done]. done.
  - pose proof (vi_thread _ Hinv t _ Hth) as (Hd & _). destruct (disk_one _ _ Hd) as (x & Hx & Hd1). eexists. split; [|by eapply vs_publish].
    erewrite bind_Ok; [|erewrite bind_Ok by done; unfold rw_wait; erewrite bind_Ok by (by apply get_vbuf_Ok); rewrite Hd1; done]. done.
  - pose proof (vi_thread _ Hinv t _ Hth) as (Hd & _). assert (act s t = Some (c, b, w)) as Hat by (unfold act; by rewrite Hth).
    destruct (co_chain _ Hc _ _ _ _ Hat) as [x Hx]. rewrite (disk_of_eq _ _ _ (fm_buf _ _ _ _ _ Hx)) in Hd. eexists. split; [|by eapply vs_finish].
    erewrite bind_Ok; [|unfold rw_wait; erewrite bind_Ok by (apply get_vbuf_Ok, Hx); rewrite Hd; cbv iota beta; change (0 =? 1) with false; cbv iota;
      erewrite bind_Ok by done; erewrite bind_Ok; [done |]].
    2: { eapply (free_chain_run s); [exact Hx | done | by eapply (co_nodup _ Hc) |]. intros i Hi. pose proof (co_lt _ Hc _ _ _ _ _ Hat Hi). split; [done |].
      apply (co_free _ Hc); [done | by eauto 7]. }
    done.
Qed.

(** The handler finds that the device has reported an error: the request at the head of the
    used ring has a nonzero status. *)
Definition reported s : Prop := exists h q ob st, usedq s = h :: q /\ s.(info) !! h = Some (ob, st) /\ st <> 0.

(** A turn of the handler's loop: a panic when the device has reported an error, and only then. *)
Lemma turn_cases s o : vinv s -> exec LTurn s = Some o ->
  ~ reported s /\ (exists s', o = Ok tt s' /\ vstep s LTurn s') \/ reported s /\ o = Panic "virtio_disk_intr status".
Proof.
  intros Hinv. cbn [exec]. destruct (bool_decide_reflect (s.(vlock) = Some HIntr)) as [Hlk|]; [|done]. intros [= <-]. set (m := _ ≫= _). destruct (decide (s.(used_idx) = s.(used_dev))) as [Ee|Hne].
  - left. split; [intros (h & q & ob & st & Eq & _); unfold usedq in Eq; by rewrite (proj2 (queue_nil _ _ _ (vi_used _ Hinv) (vi_dev _ Hinv)) Ee) in Eq |].
    exists (set_vlock None s). split; [|by apply vs_intr_done]. unfold m. erewrite bind_Ok; [|unfold intr_turn; rewrite (bind_Ok (gets id) _ s s s) by done; by rewrite (proj2 (Z.eqb_eq _ _) Ee)]. done.
  - destruct (used_next s Hinv Hne) as (t & c & b & w & x & st & HP & Hth & Hf & Hi & Eh & Eq).
    destruct (Z.eqb_spec st 0) as [->|Hst].
    + left. split; [intros (h & q & ob & st & Eq' & Hi' & Hn); rewrite Eq in Eq'; injection Eq' as <- _; congruence |].
      exists (acked b x s). split; [|by eapply vs_ack; [done | done | apply Hf | done | done]]. unfold m.
      erewrite bind_Ok; [|unfold intr_turn; rewrite (bind_Ok (gets id) _ s s s) by done; rewrite (proj2 (Z.eqb_neq _ _) Hne), Eh, Hi; change (negb (0 =? 0)) with false; cbv iota;
        erewrite bind_Ok by (apply get_vbuf_Ok, Hf); done]. done.
    + right. split; [by eexists _, _, _, st |]. unfold m, intr_turn, mbind at 1, M_bind at 1. rewrite (bind_Ok (gets id) _ s s s) by done.
      by rewrite (proj2 (Z.eqb_neq _ _) Hne), Eh, Hi, (proj2 (Z.eqb_neq _ _) Hst).
Qed.

(** Whatever step is taken, it is one of these: no function panics but the handler when the
    device has reported an error, and the device can make sense of every request. *)
Lemma exec_cases s l o : vinv s -> exec l s = Some o ->
  (l = LTurn -> ~ reported s) /\ (exists s', o = Ok tt s' /\ vstep s l s') \/ l = LTurn /\ reported s /\ o = Panic "virtio_disk_intr status".
Proof.
  intros Hinv E. destruct (decide (l = LTurn)) as [->|Hne]; [destruct (turn_cases s o Hinv E) as [[]|[]]; [left; by split | by right] |].
  left. split; [done |]. revert E Hne. destruct l as [t b w|b bn d|t| | | |k]; cbn [exec]; [| | | |done | |]; intros E _; revert E.
  - destruct (bool_decide_reflect (s.(threads) !! t = Some TIdle)); [|done]. destruct (Nat.ltb_spec b (length s.(vbufs))); [|done].
    destruct (in_use s b) eqn:Eu; [done |]. intros [= <-]. eexists. split; [done | by apply vs_start].
  - destruct (Z.leb_spec 0 bn), (Z.ltb_spec bn (2 ^ 31)); try done. destruct (Nat.eqb_spec (length d) (Z.to_nat BSIZE)); [|done]. destruct (Nat.ltb_spec b (length s.(vbufs))); [|done].
    destruct (in_use s b) eqn:Eu; [done |]. intros [= <-]. eexists. split; [done | by apply vs_buf].
  - destruct (s.(threads) !! t) as [th|] eqn:Hth; [|done]. destruct (may_run s t th) eqn:Hrun; [|done]. intros [= <-]. destruct (rw_vstep s t th Hinv Hth Hrun) as (s' & E & Hs). by exists s'.
  - destruct s.(isr) eqn:Ei; [|done]. destruct (bool_decide_reflect (s.(vlock) = None)); [|done]. intros [= <-]. eexists. split; [done | by apply vs_intr].
  - destruct (Z.eqb_spec s.(seen) s.(avail_idx)) as [|Hne]; [done |]. intros [= <-]. destruct (vinv_fetch s Hinv Hne) as (s' & E & _). exists s'. split; [done | by apply vs_fetch].
  - destruct (Nat.ltb_spec k (length s.(inflight))) as [Hk|]; [|done]. intros [= <-]. apply lookup_lt_is_Some_2 in Hk as [h Hk]. destruct (inflight_owner s k h Hinv Hk) as (t & c & b & w & x & Hth & <- & Hf & Hl).
    eexists. split; [by apply dev_end_run | by eapply vs_serve].
Qed.

(** A device that never fails a request. *)
Lemma not_reported s : (forall st, P st -> st = 0) -> vinv s -> ~ reported s.
Proof.
  intros HP Hinv (h & q & ob & st & Eq & Hi & Hn). destruct (vi_status _ Hinv h) as (ob' & st' & Hi' & Hst); [rewrite Eq; apply list_elem_of_here |]. apply HP in Hst. congruence.
Qed.

Lemma exec_clean s l o : (forall st, P st -> st = 0) -> vinv s -> exec l s = Some o -> exists s', o = Ok tt s' /\ vstep s l s'.
Proof. intros HP Hinv E. destruct (exec_cases s l o Hinv E) as [[_ H]|(_ & Hrep & _)]; [done |]. by apply not_reported in Hrep. Qed.

(** A request that fails. *)
Lemma fail_inv s k st bytes o : (forall st, P st) -> vinv s -> exec_any (MFail k st bytes) s = Some o -> exists s', o = Ok tt s' /\ vinv s'.
Proof.
  intros HP Hinv. cbn [exec_any]. destruct (_ && _ && (length bytes =? _)%nat) eqn:Eg; [|done]. apply andb_true_iff in Eg as [_ Hlen%Nat.eqb_eq].
  destruct (Nat.ltb_spec k (length s.(inflight))) as [Hk|]; [|done]. intros [= <-]. apply lookup_lt_is_Some_2 in Hk as [h Hk].
  destruct (inflight_owner s k h Hinv Hk) as (t & c & b & w & x & Hth & <- & Hf & Hl). eexists. split; [by apply dev_end_run |].
  eapply vinv_end; [done.. | by intros y [= <-]].
Qed.

(** ** Reachable states *)

Definition buf_ok (x : vbuf) : Prop := 0 <= x.(v_blockno) < 2 ^ 31 /\ length x.(v_data) = Z.to_nat BSIZE.

Lemma vinv_initial nt bs d : Forall buf_ok bs -> vinv (initial nt bs d).
Proof.
  intros Hbs. assert (forall t th, (initial nt bs d).(threads) !! t = Some th -> th = TIdle) as Hidle by (intros t th [-> _]%lookup_replicate; done).
  assert (forall t, act (initial nt bs d) t = None) as Ea by (intros t; unfold act; destruct (threads _ !! t) as [th|] eqn:E; [by rewrite (Hidle _ _ E) | done]).
  assert (forall t, use (initial nt bs d) t = None) as Eu by (intros t; unfold use; destruct (threads _ !! t) as [th|] eqn:E; [by rewrite (Hidle _ _ E) | done]).
  assert (pend (initial nt bs d) = []) as Ep by done. constructor; try done; rewrite ?Ep; try (by intros ? ?%not_elem_of_nil).
  - constructor; try done; try (by intros *; rewrite ?Ea, ?Eu).
    + intros b x Hx. by eapply (Forall_lookup_1 buf_ok) in Hx.
    + intros i Hi. setoid_rewrite Ea. split; [|naive_solver]. intros H. by apply (lookup_replicate NUM true false i) in H as [? _].
  - apply NoDup_nil_2.
  - intros t th Hth. by rewrite (Hidle _ _ Hth).
Qed.

Lemma vinv_reachable s s' : (forall st, P st <-> st = 0) -> vinv s -> rtc step s s' -> vinv s'.
Proof.
  intros HP Hinv Hr. induction Hr as [|s s1 s2 [l E] _ IH]; [done |]. apply IH. destruct (exec_clean s l _ (fun st => proj1 (HP st)) Hinv E) as (s' & [= <-] & Hs).
  eapply vstep_inv; [by apply HP | done | exact Hs].
Qed.

Lemma vinv_reachable_any s s' : (forall st, P st) -> vinv s -> rtc step_any s s' -> vinv s'.
Proof.
  intros HP Hinv Hr. induction Hr as [|s s1 s2 [m E] _ IH]; [done |]. apply IH. destruct m as [l|k st bytes].
  - destruct (exec_cases s l _ Hinv E) as [(_ & s' & [= <-] & Hs)|(_ & _ & ?)]; [by eapply vstep_inv | done].
  - by destruct (fail_inv s k st bytes _ HP Hinv E) as (s' & [= <-] & ?).
Qed.

End serve.
End spec.
Arguments vinv {D} P s.
End VirtioSpec.
