(* ===== verification/VirtioDisk.v ===== *)
(** * The disk that virtio_disk.c implements

    With a device that may fail requests the driver panics only on the status of a failed
    one.  With a device that serves them all, the driver and the device refine a disk whose
    transfers are atomic, the one [Bio] uses, and from every state every request can be
    completed. *)

From S2P Require Import Prelude State Mem Riscv Kalloc Bio Virtio VirtioSpec.

Module VirtioDisk.
Import Virtio VirtioSpec.

Section disk.
Context {D : Storage} {DL : StorageLaws D}.
Implicit Types (s : vdisk) (th : thread) (c : chain).

(** With a device that serves every request, the statuses the handler finds are 0. *)
Local Notation clean := (vinv (eq 0)).
Local Notation served := (ended 0 None).

Lemma exec_vstep s l o : clean s -> exec l s = Some o -> exists s', o = Ok tt s' /\ vstep s l s'.
Proof. intros Hinv E. eapply exec_clean; [|exact Hinv | exact E]. by intros st <-. Qed.

Lemma vstep_clean s l s' : clean s -> vstep s l s' -> clean s'.
Proof. by apply vstep_inv. Qed.

Lemma clean_reachable nt bs d s : Forall buf_ok bs -> rtc step (initial nt bs d) s -> clean s.
Proof. intros Hbs. apply vinv_reachable; [done | by apply vinv_initial]. Qed.

(** What a step does when the device may fail requests. *)
Lemma any_outcome s m o : vinv (fun _ => True) s -> exec_any m s = Some o ->
  (m = MStep LTurn -> reported s -> o = Panic "virtio_disk_intr status") /\ (~ (m = MStep LTurn /\ reported s) -> exists s', o = Ok tt s').
Proof.
  intros Hinv E. destruct m as [l|k st bytes].
  - destruct (exec_cases s l o Hinv E) as [(Hn & s' & -> & _)|(-> & Hrep & ->)]; split; [|by exists s' | done | by intros []; split]. by intros [= ->] ?%Hn.
  - destruct (fail_inv s k st bytes o (fun _ => I) Hinv E) as (s' & -> & _). split; [done |]. by exists s'.
Qed.

(** ** The disk the driver implements

    A request waits, is served in one atomic transfer, and is then done. *)

Inductive aphase := AIdle | AWait (b : nat) (w : bool) | ADone.
Record adisk := mkAdisk { a_thr : list aphase; a_bufs : list (Z * list Z); a_disk : Z -> list Z }.

Inductive event := EStart (t b : nat) (w : bool) | EBuf (b : nat) (blockno : Z) (data : list Z) | EReturn (t : nat).
#[export] Instance event_eq_dec : EqDecision event.
Proof. solve_decision. Defined.

(** The transfer between a buffer and its block. *)
Definition transfer (b : nat) (w : bool) (bn : Z) (data : list Z) (a : adisk) : adisk :=
  if w then mkAdisk a.(a_thr) a.(a_bufs) (fun n => if n =? bn then data else a.(a_disk) n)
  else mkAdisk a.(a_thr) (<[b := (bn, a.(a_disk) bn)]> a.(a_bufs)) a.(a_disk).

Inductive astep : adisk -> option event -> adisk -> Prop :=
| a_start a t b w : a.(a_thr) !! t = Some AIdle -> (b < length a.(a_bufs))%nat -> astep a (Some (EStart t b w)) (mkAdisk (<[t := AWait b w]> a.(a_thr)) a.(a_bufs) a.(a_disk))
| a_buf a b bn d : 0 <= bn < 2 ^ 31 -> astep a (Some (EBuf b bn d)) (mkAdisk a.(a_thr) (<[b := (bn, d)]> a.(a_bufs)) a.(a_disk))
| a_transfer a t b w bn d : a.(a_thr) !! t = Some (AWait b w) -> a.(a_bufs) !! b = Some (bn, d) ->
    astep a None (let a := transfer b w bn d a in mkAdisk (<[t := ADone]> a.(a_thr)) a.(a_bufs) a.(a_disk))
| a_return a t : a.(a_thr) !! t = Some ADone -> astep a (Some (EReturn t)) (mkAdisk (<[t := AIdle]> a.(a_thr)) a.(a_bufs) a.(a_disk)).

(** The requests the device has not served. *)
Definition todo s : list nat := availq s ++ s.(inflight).

Definition phase (q : list nat) th : aphase :=
  match th with
  | TIdle => AIdle
  | TAlloc b w | TSleepFree b w | TFilled _ b w => AWait b w
  | TSleepBuf c b w | TCheck c b w => if decide (c.(c0) ∈ q) then AWait b w else ADone
  end.

(** What the buffer cache sees of a state of the driver and the device. *)
Record abs s (a : adisk) : Prop := {
  ab_thr : a.(a_thr) = phase (todo s) <$> s.(threads);
  ab_bufs : a.(a_bufs) = (fun x => (x.(v_blockno), x.(v_data))) <$> s.(vbufs);
  ab_disk bn : 0 <= bn < 2 ^ 31 -> a.(a_disk) bn = dev_read s.(media) (bn * 2) (Z.to_nat BSIZE);
}.

(** What of a step is visible. *)
Definition visible (l : label) s' : option event :=
  match l with
  | LStart t b w => Some (EStart t b w)
  | LBuf b bn d => Some (EBuf b bn d)
  | LRun t => if decide (s'.(threads) !! t = Some TIdle) then Some (EReturn t) else None
  | _ => None
  end.

(** Processes whose requests stay where they are. *)
Lemma phases_same q q' (l l' : list thread) : length l = length l' ->
  (forall t th th', l !! t = Some th -> l' !! t = Some th' -> phase q' th' = phase q th) -> phase q' <$> l' = phase q <$> l.
Proof.
  intros Hlen H. apply list_eq. intros t. rewrite !list_lookup_fmap. destruct (l !! t) as [th|] eqn:E, (l' !! t) as [th'|] eqn:E'; cbn; [by f_equal; eauto | | | done].
  - apply lookup_lt_Some in E. apply lookup_ge_None_1 in E'. lia.
  - apply lookup_lt_Some in E'. apply lookup_ge_None_1 in E. lia.
Qed.

Lemma phase_wake q ch th : phase q (wake ch th) = phase q th.
Proof. destruct th, ch; cbn; try done. by case_decide. Qed.

Lemma phase_ext q q' th : (forall c b w, active th = Some (c, b, w) -> c.(c0) ∈ q' <-> c.(c0) ∈ q) -> phase q' th = phase q th.
Proof. intros H. destruct th; cbn in *; try done; specialize (H _ _ _ eq_refl); repeat case_decide; tauto. Qed.

(** The requests of other processes are where they were. *)
Lemma act_ne s t u c b w c' b' w' : clean s -> act s t = Some (c, b, w) -> act s u = Some (c', b', w') -> u <> t -> c'.(c0) <> c.(c0).
Proof.
  intros Hinv Ht Hu Hne E. apply Hne. apply (co_disj _ (vi_core _ Hinv) u t c' b' w' c b w c.(c0)); [done | done | rewrite <- E; apply list_elem_of_here | apply list_elem_of_here].
Qed.

Lemma fmap_insert_phase q (l : list thread) t th : phase q <$> <[t := th]> l = <[t := phase q th]> (phase q <$> l).
Proof. apply list_fmap_insert. Qed.

Lemma insert_same_phase q (l : list thread) t th th0 : l !! t = Some th0 -> phase q th = phase q th0 -> phase q <$> <[t := th]> l = phase q <$> l.
Proof. intros Hl E. rewrite fmap_insert_phase, E. apply list_insert_id. by rewrite list_lookup_fmap, Hl. Qed.

Lemma woken_phases q ch (l : list thread) : phase q <$> (wake ch <$> l) = phase q <$> l.
Proof. rewrite <- list_fmap_compose. apply list_fmap_ext. intros i th _. apply phase_wake. Qed.

(** The transfer of a request. *)
Lemma abs_serve s a k t c b w x : clean s -> abs s a -> s.(threads) !! t = Some (TSleepBuf c b w) -> formatted s c b w x -> s.(inflight) !! k = Some c.(c0) ->
  length x.(v_data) = Z.to_nat BSIZE -> exists a', astep a None a' /\ abs (served k c b w x s) a'.
Proof.
  intros Hinv [Hthr Hbufs Hdisk] Hth Hf Hk Hlen. pose proof (fm_buf _ _ _ _ _ Hf) as Hb. assert (act s t = Some (c, b, w)) as Hat by (unfold act; by rewrite Hth).
  destruct (co_buf _ (vi_core _ Hinv) _ _ Hb) as [Hbn _]. assert (c.(c0) ∈ todo s) as Hin by (unfold todo; apply list_elem_of_lookup_2 in Hk; set_solver).
  assert (a.(a_thr) !! t = Some (AWait b w)) as Ha by (rewrite Hthr, list_lookup_fmap, Hth; cbn; by rewrite decide_True).
  assert (a.(a_bufs) !! b = Some (x.(v_blockno), x.(v_data))) as Hab by (rewrite Hbufs, list_lookup_fmap, Hb; done).
  eexists. split; [by eapply a_transfer |]. cbv zeta. set (q := todo (served k c b w x s)).
  assert (todo s ≡ₚ c.(c0) :: q) as Eq.
  { change q with (availq s ++ delete k s.(inflight)). etrans; [apply Permutation_app_head, (delete_Permutation _ _ _ Hk) | symmetry; apply Permutation_middle]. }
  assert (NoDup (c.(c0) :: q)) as Hnd.
  { rewrite <- Eq. pose proof (vi_nodup _ Hinv) as Hn. unfold pend in Hn. rewrite app_assoc in Hn. by apply NoDup_app in Hn as (? & _). }
  apply NoDup_cons in Hnd as [Hnq _]. constructor.
  - assert ((transfer b w x.(v_blockno) x.(v_data) a).(a_thr) = a.(a_thr)) as E by (by destruct w). cbn [a_thr]. rewrite E, Hthr. fold q. change (threads (served k c b w x s)) with s.(threads).
    apply list_eq. intros u. rewrite list_lookup_fmap. destruct (decide (u = t)) as [->|Hne].
    + rewrite list_lookup_insert_eq, Hth by (rewrite length_fmap; by eapply lookup_lt_Some). cbn. by rewrite decide_False.
    + rewrite list_lookup_insert_ne, list_lookup_fmap by done. destruct (s.(threads) !! u) as [th|] eqn:Hu; [|done]. cbn. f_equal. symmetry. apply phase_ext. intros c' b' w' Hact.
      rewrite Eq, elem_of_cons. assert (c'.(c0) <> c.(c0)); [|tauto]. eapply (act_ne s t u); [done | done | unfold act; by rewrite Hu | done].
  - unfold ended. cbn. rewrite list_fmap_insert, <- Hbufs. unfold received. destruct w; cbn; [by rewrite list_insert_id | by rewrite <- Hdisk].
  - intros n Hn. unfold ended, stored. cbn. destruct w; cbn; [|by apply Hdisk]. destruct (Z.eqb_spec n x.(v_blockno)) as [->|Hne].
    + by rewrite <- Hlen, dev_read_same.
    + rewrite dev_read_other, <- Hdisk by (done || rewrite Hlen; unfold BSIZE; lia). done.
Qed.

(** A step that is neither visible nor a transfer. *)
Lemma abs_same s s' a : abs s a -> phase (todo s') <$> s'.(threads) = phase (todo s) <$> s.(threads) ->
  (fun x => (x.(v_blockno), x.(v_data))) <$> s'.(vbufs) = (fun x => (x.(v_blockno), x.(v_data))) <$> s.(vbufs) -> s'.(media) = s.(media) -> abs s' a.
Proof. intros [Ht Hb Hd] Et Eb Em. constructor; [congruence | congruence |]. intros n Hn. rewrite Em. by apply Hd. Qed.

Lemma bufs_set_disk (l : list vbuf) b x v : l !! b = Some x ->
  (fun x => (x.(v_blockno), x.(v_data))) <$> <[b := mkVbuf v x.(v_blockno) x.(v_data)]> l = (fun x => (x.(v_blockno), x.(v_data))) <$> l.
Proof. intros H. rewrite list_fmap_insert. apply list_insert_id. by rewrite list_lookup_fmap, H. Qed.

(** A process sleeping for a descriptor was waiting before. *)
Lemma abs_nodesc s a t b w s1 : abs s a -> s.(threads) !! t = Some (TAlloc b w) -> undone s s1 -> abs (set_vlock None (set_threads (<[t := TSleepFree b w]> s1.(threads)) s1)) a.
Proof.
  intros Ha Hth (d & l & -> & _ & _ & Hl). eapply abs_same; [exact Ha | | done | done]. cbn. change (todo _) with (todo s).
  destruct Hl as [-> | ->].
  - by eapply insert_same_phase.
  - rewrite <- (woken_phases (todo s) ChFree s.(threads)). apply (insert_same_phase _ _ _ _ (TAlloc b w)); [by rewrite list_lookup_fmap, Hth | done].
Qed.

(** A request that is filled in or published still waits. *)
Lemma abs_fill s a t b w c x : clean s -> abs s a -> s.(threads) !! t = Some (TAlloc b w) -> s.(vbufs) !! b = Some x -> (forall i, i ∈ descs c -> (i < NUM)%nat /\ s.(dfree) !! i = Some true) ->
  abs (set_vlock (Some (HThread t)) (set_threads (<[t := TFilled c b w]> s.(threads)) (filled c b w x (set_dfree (take_descs c s.(dfree)) s)))) a.
Proof.
  intros Hinv Ha Hth Hb Hfree. destruct (Hfree c.(c0) (list_elem_of_here _ _)) as [Hlt Hf]. pose proof (free_head s _ Hinv Hlt Hf) as Hnp.
  pose proof (availq_room _ (pend_room s _ Hinv Hlt Hnp)) as Hroom. eapply abs_same; [exact Ha | | by apply bufs_set_disk | done].
  assert (forall s', availq s' = availq s -> s'.(inflight) = s.(inflight) -> todo s' = todo s) as Htodo by (intros s' E1 E2; unfold todo; congruence). rewrite Htodo; [by eapply insert_same_phase | | done].
  unfold availq, filled. cbn. apply queue_fill; [apply Hinv | apply Hinv | done].
Qed.

Lemma abs_publish s a t c b w : clean s -> abs s a -> s.(threads) !! t = Some (TFilled c b w) ->
  abs (set_vlock None (set_threads (<[t := TSleepBuf c b w]> s.(threads)) (set_avail_idx (u16 (s.(avail_idx) + 1)) s))) a.
Proof.
  intros Hinv Ha Hth. pose proof (vi_thread _ Hinv t _ Hth) as (_ & Hnp & _ & Hslot). assert (act s t = Some (c, b, w)) as Hat by (unfold act; by rewrite Hth).
  assert (c.(c0) < NUM)%nat as Hlt by (eapply (co_lt _ (vi_core _ Hinv)); [exact Hat | apply list_elem_of_here]). pose proof (availq_room _ (pend_room s _ Hinv Hlt Hnp)) as Hroom.
  eapply abs_same; [exact Ha | | done | done]. set (s' := set_vlock _ _). assert (forall h, h ∈ todo s' <-> h = c.(c0) \/ h ∈ todo s) as Hq.
  { intros h. unfold todo. assert (availq s' = availq s ++ [c.(c0)]) as ->; [|set_solver]. unfold availq at 1, s'. cbn. rewrite queue_push, Hslot by (apply Hinv || done). cbn. by rewrite Nat2Z.id. }
  apply phases_same; [unfold s'; cbn; by rewrite length_insert |]. intros u th th' Hu Hu'. unfold s' in Hu'. cbn in Hu'. rewrite (lookup_insert_thread _ _ _ _ _ Hth) in Hu'. case_decide as E.
  - subst u. injection Hu' as <-. assert (th = TFilled c b w) as -> by congruence. cbn. rewrite decide_True; [done |]. apply Hq. by left.
  - assert (th' = th) as -> by congruence. apply phase_ext. intros c' b' w' Hact. rewrite Hq. assert (c'.(c0) <> c.(c0)); [|tauto]. eapply (act_ne s t u); [done | done | unfold act; by rewrite Hu | done].
Qed.

(** The end of virtio_disk_rw() is visible. *)
Lemma abs_finish s a t c b w : clean s -> abs s a -> s.(threads) !! t = Some (TCheck c b w) -> exists a', astep a (Some (EReturn t)) a' /\ abs (finished t c s) a'.
Proof.
  intros Hinv [Hthr Hb Hd] Hth. pose proof (vi_thread _ Hinv t _ Hth) as (_ & Hnp). assert (c.(c0) ∉ todo s) as Hnt by (intros Hin; apply Hnp; unfold pend; unfold todo in Hin; set_solver).
  eexists. split; [apply a_return; rewrite Hthr, list_lookup_fmap, Hth; cbn; by rewrite decide_False |]. constructor; [|done | done]. cbn [a_thr]. change (todo (finished t c s)) with (todo s). rewrite Hthr.
  apply list_eq. intros u. rewrite list_lookup_fmap, (finished_thread t c s _ Hth). destruct (decide (u = t)) as [->|Hne].
  - rewrite list_lookup_insert_eq; [done |]. rewrite length_fmap. by eapply lookup_lt_Some.
  - rewrite list_lookup_insert_ne, list_lookup_fmap by done. destruct (s.(threads) !! u) as [th|]; [|done]. cbn. by rewrite phase_wake.
Qed.

(** Every step of the driver or the device is a step of the abstract disk, or none. *)
Lemma vstep_simulates s l s' a : clean s -> vstep s l s' -> abs s a -> visible l s' = None /\ abs s' a \/ exists a', astep a (visible l s') a' /\ abs s' a'.
Proof.
  intros Hinv Hs Ha. pose proof Ha as [Hthr Hbufs Hdisk].
  destruct Hs as [t b w Ht Hb Hu|b bn d Hbn Hd Hb Hu|t b w s1 Ht Hlk Hun _|t b w c x Ht Hlk Hb Hnd Hfr|t c b w Ht|t c b w Ht Hlk|Hi Hlk|Hlk Hd|t c b w x Hlk Ht Hb Hne Eq|s' Hne E|k t c b w x Ht Hf Hk Hl].
  - right. eexists. split; [apply a_start; [rewrite Hthr, list_lookup_fmap, Ht; done | rewrite Hbufs, length_fmap; done] |]. constructor; [|done | done]. cbn. rewrite list_fmap_insert, Hthr. done.
  - right. eexists. split; [by apply a_buf |]. constructor; [done | | done]. cbn. by rewrite list_fmap_insert, Hbufs.
  - left. split; [|by eapply abs_nodesc]. cbn [visible]. rewrite decide_False; [done |]. destruct Hun as (d & l & -> & _ & _ & Hl). cbn. rewrite list_lookup_insert_eq; [done |].
    destruct Hl as [-> | ->]; rewrite ?length_fmap; by eapply lookup_lt_Some.
  - left. split; [|by eapply abs_fill]. cbn [visible]. rewrite decide_False; [done |]. cbn. rewrite list_lookup_insert_eq; [done | by eapply lookup_lt_Some].
  - left. split; [|by eapply abs_publish]. cbn [visible]. rewrite decide_False; [done |]. cbn. rewrite list_lookup_insert_eq; [done | by eapply lookup_lt_Some].
  - right. destruct (abs_finish s a t c b w Hinv Ha Ht) as (a' & Hstep & Ha'). exists a'. split; [|done]. cbn [visible]. by rewrite decide_True by (rewrite (finished_thread t c s _ Ht); by rewrite decide_True).
  - left. split; [done |]. by eapply abs_same.
  - left. split; [done |]. by eapply abs_same.
  - left. split; [done |]. eapply abs_same; [exact Ha | apply woken_phases | by apply bufs_set_disk | done].
  - left. split; [done |]. destruct (vinv_fetch s Hinv Hne) as (s2 & E2 & _). rewrite E in E2. injection E2 as <-. injection E as <-. eapply abs_same; [exact Ha | | done | done].
    apply list_fmap_ext. intros i th _. apply phase_ext. intros c b w _. unfold todo. unfold availq at 2. rewrite queue_pop by (apply Hinv || done). cbn. set_solver.
  - right. destruct (abs_serve s a k t c b w x Hinv Ha Ht Hf Hk Hl) as (a' & Hstep & Ha'). by exists a'.
Qed.

(** ** Progress *)

(** How far a process, the rings and the handler have to go. *)
Definition weight th : nat := match th with TIdle => 0 | TAlloc _ _ => 11 | TSleepFree _ _ => 12 | TFilled _ _ _ => 10 | TSleepBuf _ _ _ | TCheck _ _ _ => 1 end.
Definition measure s : nat :=
  sum_list (weight <$> s.(threads)) + 7 * length (availq s) + 6 * length s.(inflight) + 3 * length (usedq s) +
  (if s.(isr) then 2 else 0) + match s.(vlock) with Some HIntr => 1 | _ => 0 end.

Lemma sum_insert (l : list thread) t th x : l !! t = Some x -> (sum_list (weight <$> <[t := th]> l) + weight x = sum_list (weight <$> l) + weight th)%nat.
Proof.
  revert t. induction l as [|y l IH]; intros t Hx; [done |]. destruct t as [|t]; [injection Hx as ->; cbn; lia |]. specialize (IH t Hx). change (weight y + sum_list (weight <$> <[t := th]> l) + weight x = weight y + sum_list (weight <$> l) + weight th)%nat. lia.
Qed.

Lemma sum_wake ch (l : list thread) : (sum_list (weight <$> (wake ch <$> l)) <= sum_list (weight <$> l))%nat.
Proof. induction l as [|th l IH]; cbn; [done |]. assert (weight (wake ch th) <= weight th)%nat; [|lia]. destruct th, ch; cbn; try lia. case_decide; cbn; lia. Qed.

Lemma measure_fill s t b w c x : clean s -> s.(threads) !! t = Some (TAlloc b w) -> s.(vlock) = None -> (forall i, i ∈ descs c -> (i < NUM)%nat /\ s.(dfree) !! i = Some true) ->
  (measure (set_vlock (Some (HThread t)) (set_threads (<[t := TFilled c b w]> s.(threads)) (filled c b w x (set_dfree (take_descs c s.(dfree)) s)))) < measure s)%nat.
Proof.
  intros Hinv Ht Hlk Hfr. destruct (Hfr c.(c0) (list_elem_of_here _ _)) as [Hlt Hf]. pose proof (availq_room _ (pend_room s _ Hinv Hlt (free_head s _ Hinv Hlt Hf))) as Hroom.
  pose proof (sum_insert _ _ (TFilled c b w) _ Ht) as Hsum. cbn in Hsum. unfold measure, availq, usedq. cbn. rewrite queue_fill by (apply Hinv || done). rewrite Hlk. lia.
Qed.

Lemma measure_publish s t c b w : clean s -> s.(threads) !! t = Some (TFilled c b w) ->
  (measure (set_vlock None (set_threads (<[t := TSleepBuf c b w]> s.(threads)) (set_avail_idx (u16 (s.(avail_idx) + 1)) s))) < measure s)%nat.
Proof.
  intros Hinv Ht. pose proof (vi_thread _ Hinv t _ Ht) as (_ & Hnp & Hlk & Hslot). assert (act s t = Some (c, b, w)) as Hat by (unfold act; by rewrite Ht).
  assert (c.(c0) < NUM)%nat as Hlt by (eapply (co_lt _ (vi_core _ Hinv)); [exact Hat | apply list_elem_of_here]). pose proof (availq_room _ (pend_room s _ Hinv Hlt Hnp)) as Hroom.
  pose proof (sum_insert _ _ (TSleepBuf c b w) _ Ht) as Hsum. cbn in Hsum. unfold measure, availq, usedq. cbn. rewrite queue_push by (apply Hinv || done). rewrite length_app, Hlk. cbn. lia.
Qed.

Lemma finished_same t c s : availq (finished t c s) = availq s /\ (finished t c s).(inflight) = s.(inflight) /\ usedq (finished t c s) = usedq s /\
  (finished t c s).(isr) = s.(isr) /\ (finished t c s).(vlock) = None.
Proof. split_and!; reflexivity. Qed.

Lemma measure_finish s t c b w : s.(threads) !! t = Some (TCheck c b w) -> s.(vlock) = None -> (measure (finished t c s) < measure s)%nat.
Proof.
  intros Ht Hlk. assert (sum_list (weight <$> (finished t c s).(threads)) + 1 <= sum_list (weight <$> s.(threads)))%nat as Hsum.
  { unfold finished, freed. cbn. set (l := wake ChFree <$> _). assert (l !! t = Some (TCheck c b w)) as Hl by (unfold l; by rewrite !list_lookup_fmap, Ht).
    pose proof (sum_insert l t TIdle _ Hl) as E. cbn in E. assert (sum_list (weight <$> l) <= sum_list (weight <$> s.(threads)))%nat; [|lia]. unfold l. etrans; [apply sum_wake |]. etrans; [apply sum_wake | apply sum_wake]. }
  destruct (finished_same t c s) as (E1 & E2 & E3 & E4 & E5). unfold measure. rewrite E1, E2, E3, E4, E5, Hlk.
  revert Hsum. generalize (sum_list (weight <$> threads (finished t c s))). intros n Hsum. lia.
Qed.

(** When nothing is pending and nobody has a request in the table, all descriptors are free. *)
Lemma all_free s : clean s -> (forall t, act s t = None) -> forall i, (i < NUM)%nat -> s.(dfree) !! i = Some true.
Proof.
  intros Hinv Hno i Hi. destruct (lookup_lt_is_Some_2 s.(dfree) i) as [[] Hb]; [by rewrite (co_dfree _ (vi_core _ Hinv)) | done |].
  apply (co_free _ (vi_core _ Hinv)) in Hb as (t & c & b & w & Hact & _); [|done]. by rewrite Hno in Hact.
Qed.

(** Steps of requests that have been made. *)
Definition internal (l : label) : bool := match l with LStart _ _ _ | LBuf _ _ _ => false | _ => true end.
Definition goes_on s s' : Prop := exists l, internal l = true /\ exec l s = Some (Ok tt s').

Lemma goes_on_vstep s l o : clean s -> internal l = true -> exec l s = Some o -> exists s', goes_on s s' /\ vstep s l s'.
Proof. intros Hinv Hl E. destruct (exec_vstep s l o Hinv E) as (s' & -> & Hs). exists s'. split; [by exists l | done]. Qed.

(** A process that may run goes on. *)
Lemma run_progress s t th : clean s -> s.(threads) !! t = Some th -> may_run s t th = true -> ((exists b w, th = TAlloc b w) -> forall i, (i < NUM)%nat -> s.(dfree) !! i = Some true) ->
  exists s', goes_on s s' /\ (measure s' < measure s)%nat.
Proof.
  intros Hinv Hth Hrun Hfree. destruct (goes_on_vstep s (LRun t) _ Hinv eq_refl ltac:(cbn [exec]; by rewrite Hth, Hrun)) as (s' & Hg & Hs). exists s'. split; [done |].
  inversion Hs as [| |t' b w s1 Ht Hlk Hun Hsome|t' b w c x Ht Hlk Hb Hnd Hfr|t' c b w Ht|t' c b w Ht Hlk| | | | |]; subst.
  - destruct Hsome as (i & Hi & Hf). rewrite Hfree in Hf; [done | | done]. exists b, w. congruence.
  - by apply measure_fill.
  - by apply measure_publish.
  - by eapply measure_finish.
Qed.

(** The handler goes on. *)
Lemma turn_progress s : clean s -> s.(vlock) = Some HIntr -> exists s', goes_on s s' /\ (measure s' < measure s)%nat.
Proof.
  intros Hinv Hlk. destruct (goes_on_vstep s LTurn _ Hinv eq_refl ltac:(cbn [exec]; by rewrite bool_decide_eq_true_2 by done)) as (s' & Hg & Hs). exists s'. split; [done |].
  inversion Hs as [| | | | | | |Hlk' Hd|t c b w x Hlk' Ht Hb Hne Eq| |]; subst.
  - unfold measure. change (availq (set_vlock None s)) with (availq s). change (usedq (set_vlock None s)) with (usedq s). cbn [vlock set_vlock threads inflight isr]. rewrite Hlk. lia.
  - unfold measure. change (availq (acked b x s)) with (availq s). change (usedq (acked b x s)) with (queue s.(used_ring) (u16 (s.(used_idx) + 1)) s.(used_dev)). rewrite Eq.
    change (threads (acked b x s)) with (wake (ChBuf b) <$> s.(threads)). pose proof (sum_wake (ChBuf b) s.(threads)). change (inflight (acked b x s)) with s.(inflight).
    change (isr (acked b x s)) with s.(isr). change (vlock (acked b x s)) with s.(vlock). cbn [length]. lia.
Qed.

(** The device goes on. *)
Lemma device_progress s : clean s -> s.(seen) <> s.(avail_idx) \/ s.(inflight) <> [] -> exists s', goes_on s s' /\ (measure s' < measure s)%nat.
Proof.
  intros Hinv [Hne|Hne].
  - destruct (goes_on_vstep s LFetch _ Hinv eq_refl ltac:(cbn [exec]; by rewrite (proj2 (Z.eqb_neq _ _) Hne))) as (s' & Hg & Hs). exists s'. split; [done |]. inversion Hs as [| | | | | | | | |s2 _ E|]; subst.
    destruct (vinv_fetch s Hinv Hne) as (s2 & E2 & _ & _ & (H1 & H2) & H3). rewrite E in E2. injection E2 as <-. injection E as <-. unfold measure. rewrite H1, H2, H3. cbn [threads isr vlock set_seen set_inflight]. lia.
  - destruct (lookup_lt_is_Some_2 s.(inflight) 0) as [h Hh]; [destruct s.(inflight); [done | cbn; lia] |]. assert (0 < length s.(inflight))%nat as Hlt by (by eapply lookup_lt_Some).
    destruct (goes_on_vstep s (LServe 0) _ Hinv eq_refl ltac:(cbn [exec]; by rewrite (proj2 (Nat.ltb_lt _ _) Hlt))) as (s' & Hg & Hs). exists s'. split; [done |]. inversion Hs as [| | | | | | | | | |k t c b w x Ht Hf Hk Hl]; subst.
    assert (c.(c0) < NUM)%nat as Hc by (apply (co_lt _ (vi_core _ Hinv) t c b w); [unfold act; by rewrite Ht | apply list_elem_of_here]). destruct (ended_pend 0 None s 0 c b w x Hinv Hk Hc) as [Eq _].
    unfold measure. rewrite Eq, length_app. change (inflight (served 0 c b w x s)) with (delete 0%nat s.(inflight)). rewrite length_delete by (by eexists).
    change (availq (served 0 c b w x s)) with (availq s). change (threads (served 0 c b w x s)) with s.(threads). change (isr (served 0 c b w x s)) with true.
    change (vlock (served 0 c b w x s)) with s.(vlock). cbn [length]. destruct s.(isr); lia.
Qed.

Definition is_check th : bool := match th with TCheck _ _ _ => true | _ => false end.

(** As long as a process is in virtio_disk_rw(), something can be done. *)
Lemma progress s t th : clean s -> s.(threads) !! t = Some th -> th <> TIdle -> exists s', goes_on s s' /\ (measure s' < measure s)%nat.
Proof.
  intros Hinv Hth Hne. destruct s.(vlock) as [[u|]|] eqn:Hlk.
  - destruct (vi_lock _ Hinv u Hlk) as (c & b & w & Hu). eapply run_progress; [done | exact Hu | cbn; by rewrite bool_decide_eq_true_2 | by intros (? & ? & ?)].
  - by apply turn_progress.
  - destruct (decide (Exists (fun th => is_check th = true) s.(threads))) as [Hex|Hno].
    { apply Exists_exists in Hex as (th' & [u Hu]%list_elem_of_lookup & Hck). destruct th' as [| | | | |c b w]; try done. eapply run_progress; [done | exact Hu | cbn; by rewrite bool_decide_eq_true_2 | by intros (? & ? & ?)]. }
    destruct (decide (s.(seen) = s.(avail_idx))) as [E1|]; [|by apply device_progress; auto]. destruct (decide (s.(inflight) = [])) as [E2|]; [|by apply device_progress; auto].
    destruct (decide (s.(used_idx) = s.(used_dev))) as [E3|Hne3].
    2: { destruct (vi_isr _ Hinv Hne3) as [Hi|]; [|congruence]. destruct (goes_on_vstep s LIntr _ Hinv eq_refl ltac:(cbn [exec]; rewrite Hi, Hlk; done)) as (s' & Hg & Hs). exists s'. split; [done |].
      inversion Hs; subst. unfold measure. change (availq (set_vlock _ _)) with (availq s). change (usedq (set_vlock _ _)) with (usedq s). cbn [threads inflight isr vlock set_vlock set_isr]. rewrite Hi, Hlk. lia. }
    assert (pend s = []) as Ep.
    { unfold pend, availq, usedq. rewrite E2, (proj2 (queue_nil _ _ _ (vi_seen _ Hinv) (vi_avail _ Hinv)) E1), (proj2 (queue_nil _ _ _ (vi_used _ Hinv) (vi_dev _ Hinv)) E3). done. }
    assert (forall u, act s u = None) as Hact.
    { intros u. unfold act. destruct (s.(threads) !! u) as [th'|] eqn:Hu; [|done]. pose proof (vi_thread _ Hinv u _ Hu) as Hok. destruct th' as [| | |c b w|c b w|c b w]; cbn in Hok |- *; try done.
      - destruct Hok as (_ & _ & E & _). congruence.
      - destruct Hok as [_ Hin]. rewrite Ep in Hin. by apply not_elem_of_nil in Hin.
      - exfalso. apply Hno, Exists_exists. exists (TCheck c b w). split; [by eapply list_elem_of_lookup_2 | done]. }
    pose proof (all_free s Hinv Hact) as Hfree. pose proof (vi_thread _ Hinv t _ Hth) as Hok. assert (active th = None) as Ha by (specialize (Hact t); unfold act in Hact; by rewrite Hth in Hact).
    destruct th as [|b w|b w|c b w|c b w|c b w]; try done.
    + eapply run_progress; [done | exact Hth | cbn; by rewrite bool_decide_eq_true_2 | done].
    + destruct Hok as (u & a & Hu). by rewrite Hact in Hu.
Qed.

Lemma all_idle_dec (l : list thread) : Forall (fun th => th = TIdle) l \/ exists t th, l !! t = Some th /\ th <> TIdle.
Proof.
  destruct (decide (Forall (fun th => th = TIdle) l)) as [|Hn]; [by left | right]. apply not_Forall_Exists in Hn; [|intros th; apply _]. apply Exists_exists in Hn as (th & [t Ht]%list_elem_of_lookup & Hne). by exists t, th.
Qed.

Lemma completes n : forall s, clean s -> (measure s < n)%nat -> exists s', rtc goes_on s s' /\ Forall (fun th => th = TIdle) s'.(threads).
Proof.
  induction n as [|n IH]; intros s Hinv Hm; [lia |]. destruct (all_idle_dec s.(threads)) as [?|(t & th & Hth & Hne)]; [by exists s |].
  destruct (progress s t th Hinv Hth Hne) as (s1 & (l & Hl & E) & Hlt). destruct (exec_vstep s l _ Hinv E) as (s2 & [= <-] & Hs). destruct (IH s1) as (s' & Hr & Hi); [by eapply vstep_clean | lia |].
  exists s'. split; [|done]. eapply rtc_l; [by exists l | done].
Qed.

(** ** The buffer cache's view *)

(** The model of virtio_disk_rw() that the buffer cache uses is the transfer of the abstract disk. *)
Lemma bio_transfer (k : kernel) (a : adisk) b w x : k.(bufs) !! b = Some x -> a.(a_bufs) = (fun x => (x.(b_blockno), x.(b_data))) <$> k.(bufs) -> (forall n, a.(a_disk) n = disk_block k.(disk) n) ->
  exists k', Bio.virtio_disk_rw b w k = Ok tt k' /\ let a' := transfer b w x.(b_blockno) x.(b_data) a in
    a'.(a_bufs) = (fun x => (x.(b_blockno), x.(b_data))) <$> k'.(bufs) /\ forall n, a'.(a_disk) n = disk_block k'.(disk) n.
Proof.
  intros Hx Hb Hd. unfold Bio.virtio_disk_rw. erewrite bind_Ok; [|unfold get_buf; by rewrite Hx]. destruct w.
  - eexists. split; [done |]. split; [done |]. intros n. cbn. unfold disk_block. destruct (Z.eqb_spec n x.(b_blockno)) as [->|Hne]; [by rewrite lookup_insert_eq | rewrite lookup_insert_ne by done; apply Hd].
  - eexists. split; [done |]. split; [|done]. cbn. rewrite Hb, (alter_lookup_insert _ _ _ _ Hx), list_fmap_insert. cbn. by rewrite Hd.
Qed.

(** ** The theorems *)

(** Executions, with what is visible of them. *)
Inductive runs : vdisk -> list event -> vdisk -> Prop :=
| runs_nil s : runs s [] s
| runs_cons s l s1 tr s2 : exec l s = Some (Ok tt s1) -> runs s1 tr s2 -> runs s (option_list (visible l s1) ++ tr) s2.
Inductive aruns : adisk -> list event -> adisk -> Prop :=
| aruns_nil a : aruns a [] a
| aruns_cons a e a1 tr a2 : astep a e a1 -> aruns a1 tr a2 -> aruns a (option_list e ++ tr) a2.

Definition ainitial (nt : nat) (bs : list vbuf) (d : store) : adisk :=
  mkAdisk (replicate nt AIdle) ((fun x => (x.(v_blockno), x.(v_data))) <$> bs) (fun n => dev_read d (n * 2) (Z.to_nat BSIZE)).

Lemma runs_simulated s tr s' : runs s tr s' -> clean s -> forall a, abs s a -> exists a', aruns a tr a' /\ abs s' a'.
Proof.
  induction 1 as [s|s l s1 tr s2 E _ IH]; intros Hinv a Ha; [exists a; by split; [constructor |] |]. destruct (exec_vstep s l _ Hinv E) as (s' & [= <-] & Hs).
  pose proof (vstep_clean _ _ _ Hinv Hs) as Hinv1. destruct (vstep_simulates s l s1 a Hinv Hs Ha) as [[Ev Ha1]|(a1 & Hst & Ha1)].
  - rewrite Ev. by apply IH.
  - destruct (IH Hinv1 a1 Ha1) as (a' & Hr & Ha'). exists a'. split; [by econstructor | done].
Qed.

(** C8. However processes, interrupts and the device interleave, and whichever requests the device fails, with any
    status and any bytes transferred, the device can make sense of every request it is given, and virtio_disk.c panics
    only in the handler and exactly when the request at the head of the used ring has a nonzero status, which the device
    alone writes: with a device that serves every request nothing ever panics; two requests never share a buffer or a
    descriptor. *)
Theorem virtio_safe nt bs d s m o : Forall buf_ok bs -> rtc step_any (initial nt bs d) s -> exec_any m s = Some o ->
  (m = MStep LTurn -> reported s -> o = Panic "virtio_disk_intr status") /\
  (~ (m = MStep LTurn /\ reported s) -> exists s', o = Ok tt s') /\
  (rtc step (initial nt bs d) s -> ~ reported s) /\
  forall t t' c b w c' b' w', t <> t' -> act s t = Some (c, b, w) -> act s t' = Some (c', b', w') -> b <> b' /\ forall i, i ∈ descs c -> i ∉ descs c'.
Proof.
  intros Hbs Hr E. assert (vinv (fun _ => True) s) as Hinv by (by eapply vinv_reachable_any; [| apply vinv_initial |]).
  destruct (any_outcome s m o Hinv E) as [Hp Ho]. split_and!; [done | done | |].
  - intros Hs. apply (not_reported (P := eq 0)); [by intros st <- | by eapply clean_reachable].
  - intros t t' c b w c' b' w' Hne Ht Ht'. split.
    + intros <-. apply Hne. eapply (co_own _ (vi_core _ Hinv)); by eapply act_use.
    + intros i Hi Hi'. apply Hne. by eapply (co_disj _ (vi_core _ Hinv)).
Qed.

(** C7. The driver and a device that serves every request, in any order, implement a disk with atomic transfers: whatever is visible of an execution (requests
    made, requests returned, buffers filled by the cache) is visible of an execution of the abstract disk, where each
    request is served by one transfer between its call and its return; the buffers and the blocks end up the same. *)
Theorem virtio_refines nt bs d tr s : Forall buf_ok bs -> runs (initial nt bs d) tr s -> exists a, aruns (ainitial nt bs d) tr a /\ abs s a.
Proof.
  intros Hbs Hr. eapply runs_simulated; [exact Hr | by apply vinv_initial |]. constructor; [|done | done]. cbn. by rewrite fmap_replicate.
Qed.

(** C9. With a device that serves every request, no request is ever stuck, and no wakeup is lost: from every reachable state the processes in virtio_disk_rw(), the
    handler and the device can go on, without a new request, until every request has returned. *)
Theorem virtio_progress nt bs d s : Forall buf_ok bs -> rtc step (initial nt bs d) s -> exists s', rtc goes_on s s' /\ Forall (fun th => th = TIdle) s'.(threads).
Proof. intros Hbs Hr. eapply completes; [by eapply clean_reachable | apply Nat.lt_succ_diag_r]. Qed.
End disk.
End VirtioDisk.
