(* ===== verification/Machine.v ===== *)
(** * A concrete machine

    A machine small enough to run: twelve free pages of RAM above the kernel image.
    [boot] runs kinit(), procinit(), allocproc() and growproc(): the state [demo]
    it ends in has one running process, in slot 0, with two pages of user memory.
    The lemmas say that the invariants of the development hold of [demo]; the
    witnesses of the other files apply their theorems to it. *)

From S2P Require Import Prelude State Mem Riscv Kalloc Vm PageTable Uvm UvmAlloc UvmFree Sched Proc ProcVm ProcAlloc ProcGrow.

Lemma demo_end_range : KERNBASE <= PHYSTOP - 12 * 4096 < PHYSTOP.
Proof. done. Qed.

#[export] Instance demo_linker : Linker := {| end_ := PHYSTOP - 12 * 4096; end_range := demo_end_range |}.

Lemma demo_trampoline_range : KERNBASE <= KERNBASE < @end_ demo_linker.
Proof. done. Qed.

Lemma demo_trampoline_page : KERNBASE mod 4096 = 0.
Proof. done. Qed.

#[export] Instance demo_symbols : Symbols := {|
  trampoline := KERNBASE; trampoline_page := demo_trampoline_page;
  trampoline_range := demo_trampoline_range; forkret := KERNBASE + 4096;
|}.

(** The kernel's static data is zero when it starts. *)
Definition zero_proc : proc :=
  mkProc UNUSED None 0 0 0 None 0 0 0 0 (mkContext 0 0 (replicate 12 0)) (replicate NOFILE None) None
    (replicate 16 0) 0 (replicate 32 0).
Definition power_on : kernel :=
  mkKernel ∅ ∅ 0 (replicate NPROC zero_proc) None 1 None 0 (mkSem 0 (replicate NPROC None) 0 0) [] ∅ []
    ∅ [] [] [] ∅ (mkLog 0 0 0 0 0 0 []) (mkSb 0 0 0 0 0 0 0 0) [] (mkCons [] 0 0 0 [] 0 0 [] [] []).

(** The steps of [boot], and the states between them. *)
Definition final {A} (s : kernel) (o : outcome kernel A) : kernel := match o with Ok _ s' => s' | _ => s end.
Definition boot0 : kernel := final power_on (kinit 13 power_on).
Definition boot1 : kernel := final power_on (procinit boot0).
Definition boot2 : kernel := final power_on (allocproc boot1).
Definition boot3 : kernel :=
  set_cur (Some 0%nat) (set_held ∅ (set_procs (alter (set_p_state RUNNING) 0%nat boot2.(procs)) boot2)).
Definition demo : kernel := final power_on (growproc 8192 boot3).
Definition demo_p : proc := default zero_proc (demo.(procs) !! 0%nat).

Lemma boot0_kmem : exists l, kmem_inv boot0 l /\ length l = 12%nat.
Proof.
  destruct (kinit_run power_on 13) as (s & E & Hk & _); [done | set_solver + | vm_compute; lia |].
  exists (rev all_pages). unfold boot0. rewrite E. split; [exact Hk |]. done.
Qed.

Lemma boot0_kinit : kinit (S npages) power_on = Ok tt boot0.
Proof.
  destruct (kinit_run power_on (S npages)) as (s & E & _); [done | set_solver + | lia |].
  rewrite E. f_equal. unfold boot0. change 13%nat with (S npages). rewrite E. reflexivity.
Qed.

Definition init_proc (i : nat) : proc := set_p_kstack (KSTACK (Z.of_nat i)) zero_proc.
Definition init_procs : list proc := init_proc <$> seq 0 NPROC.

Lemma boot0_only : only_mem power_on boot0.
Proof.
  destruct (kinit_run power_on 13) as (s & E & _ & Ho); [done | set_solver + | vm_compute; lia |].
  unfold boot0. by rewrite E.
Qed.

Lemma procinit_zero m f : let s := set_mem m (set_freelist f power_on) in procinit s = Ok tt (set_procs init_procs s).
Proof. vm_compute. reflexivity. Qed.

Lemma boot1_eq : boot1 = set_procs init_procs boot0.
Proof.
  pose proof boot0_only as Ho. unfold only_mem in Ho. unfold boot1.
  generalize dependent boot0. intros s Hs. rewrite Hs, procinit_zero. done.
Qed.

Lemma kmem_inv_procs s ps l : kmem_inv s l -> kmem_inv (set_procs ps s) l.
Proof. unfold kmem_inv. cbn [mem freelist set_procs]. exact id. Qed.

Lemma boot1_kmem : exists l, kmem_inv boot1 l /\ length l = 12%nat.
Proof.
  destruct boot0_kmem as (l & Hl & Hn). exists l. rewrite boot1_eq. split; [by apply kmem_inv_procs | exact Hn].
Qed.

Lemma boot1_procs : boot1.(procs) = init_procs.
Proof. rewrite boot1_eq. generalize boot0. reflexivity. Qed.

Lemma boot1_shape : exists m f, boot1 = set_mem m (set_freelist f (set_procs init_procs power_on)).
Proof.
  rewrite boot1_eq. pose proof boot0_only as Ho. unfold only_mem in Ho. generalize dependent boot0. intros s ->.
  eexists _, _. reflexivity.
Qed.

(** The process allocproc() made, as it is when it runs. *)
Definition new_proc (tf pt sz : Z) : proc := set_p_sz sz (set_p_state RUNNING (fresh_proc (init_proc 0) 1 tf pt)).

(** The machine with the process table [ps], after one pid was given out. *)
Definition running (ps : list proc) : kernel := set_cur (Some 0%nat) (set_nextpid 2 (set_procs ps power_on)).

Lemma proc_res_procs s ps p N D l : proc_res s p N D l -> proc_res (set_procs ps s) p N D l.
Proof. intros []. constructor; try done. by apply as_inv_procs. Qed.

Lemma init_procs_clean i p : init_procs !! i = Some p -> p.(p_pagetable) = 0 /\ p.(p_sz) = 0.
Proof. intros (j & -> & _)%list_lookup_fmap_Some. done. Qed.

Lemma init_procs_first : list_find (fun p => p.(p_state) = UNUSED) init_procs = Some (0%nat, init_proc 0).
Proof. vm_compute. reflexivity. Qed.

Lemma alloc_shape s s' m f ps ps' :
  s = set_mem m (set_freelist f (set_procs ps power_on)) ->
  only_mem (set_held ({[LkProc 0]} ∪ ∅) (set_procs ps' (set_nextpid (s32 (1 + 1)) s))) s' ->
  s' = set_mem s'.(mem) (set_freelist s'.(freelist) (set_nextpid 2 (set_held {[LkProc 0]} (set_procs ps' power_on)))).
Proof. intros -> Ho. rewrite (right_id_L ∅ (∪)) in Ho. exact Ho. Qed.

Lemma alloc_first s l m f :
  s = set_mem m (set_freelist f (set_procs init_procs power_on)) -> kmem_inv s l -> length l = 12%nat ->
  exists tf pt N l' m' f' s', allocproc s = Ok (Some 0%nat) s' /\
    s' = set_mem m' (set_freelist f' (set_nextpid 2 (set_held {[LkProc 0]}
           (set_procs (<[0%nat := fresh_proc (init_proc 0) 1 tf pt]> init_procs) power_on)))) /\
    proc_res s' (fresh_proc (init_proc 0) 1 tf pt) N ∅ l' /\ (6 <= length l')%nat.
Proof.
  intros E1 Hk Hn. pose proof (allocproc_run s l Hk) as Ha.
  assert (s.(held) = ∅) as Hh by (by rewrite E1). assert (s.(procs) = init_procs) as Hps by (by rewrite E1).
  rewrite Hps, init_procs_first in Ha.
  destruct Ha as (r & s' & Er & _ & Hr); rewrite ?Hh; try set_solver +; try (unfold procs_ok; by rewrite Hps).
  { intros i p. rewrite Hps. intros Hp _. by eapply init_procs_clean. }
  destruct Hr as [(-> & tf & pt & N & l' & Ho & Hres & Hc & _)|(_ & Hc & _)]; [|lia].
  assert (s.(nextpid) = 1) as Hp by (by rewrite E1). rewrite Hp, Hh, Hps in *.
  exists tf, pt, N, l', s'.(mem), s'.(freelist), s'. split; [exact Er |]. split; [|split; [exact Hres | lia]].
  by apply (alloc_shape s s' m f init_procs).
Qed.

Lemma boot2_res : exists tf pt N l m f,
  boot2 = set_mem m (set_freelist f (set_nextpid 2 (set_held {[LkProc 0]}
            (set_procs (<[0%nat := fresh_proc (init_proc 0) 1 tf pt]> init_procs) power_on)))) /\
  proc_res boot2 (fresh_proc (init_proc 0) 1 tf pt) N ∅ l /\ (6 <= length l)%nat.
Proof.
  destruct boot1_kmem as (l & Hk & Hn). destruct boot1_shape as (m & f & E1). unfold boot2.
  generalize dependent boot1. intros s Hk E1.
  destruct (alloc_first s l m f E1 Hk Hn) as (tf & pt & N & l' & m' & f' & s' & E & H). rewrite E.
  exists tf, pt, N, l', m', f'. exact H.
Qed.

(** growproc(8192) by the process in slot 0. *)
Lemma grow_first s p N l m f ps :
  s = set_mem m (set_freelist f (running ps)) -> proc_res s p N ∅ l -> (6 <= length l)%nat ->
  ps !! 0%nat = Some p -> p.(p_sz) = 0 ->
  exists N' D l' m' f' s', growproc 8192 s = Ok 0 s' /\
    s' = set_mem m' (set_freelist f' (running (alter (set_p_sz 8192) 0%nat ps))) /\
    proc_res s' (set_p_sz 8192 p) N' D l'.
Proof.
  intros Es Hres Hl Hp Hsz. assert (s.(procs) = ps) as Hps by (by rewrite Es).
  destruct (growproc_run s 0 p N ∅ l 8192) as (r & s' & N' & D & l' & E & Hr);
    [done | by rewrite Hps | by rewrite Es | lia | rewrite Hsz; by vm_compute |].
  rewrite Hsz in Hr. change (0 + 8192) with 8192 in Hr.
  destruct Hr as [[-> [Hr Ho _ _ _]]|(_ & Hc & _)]; [|change ((PGROUNDUP 8192 - PGROUNDUP 0) / 4096) with 2 in Hc; lia].
  rewrite decide_True in Hr, Ho by done.
  exists N', D, l', s'.(mem), s'.(freelist), s'. split; [done |]. split; [|done].
  unfold only_mem in Ho. rewrite Ho, Hps, Es. reflexivity.
Qed.

Lemma demo_res : exists tf pt N D l m f,
  demo = set_mem m (set_freelist f (running (<[0%nat := new_proc tf pt 8192]> init_procs))) /\
  proc_res demo (new_proc tf pt 8192) N D l.
Proof.
  destruct boot2_res as (tf & pt & N & l & m & f & E & Hres & Hl). unfold demo, boot3.
  generalize dependent boot2. intros s Es Hres.
  set (p := set_p_state RUNNING (fresh_proc (init_proc 0) 1 tf pt)).
  edestruct (grow_first (set_cur (Some 0%nat) (set_held ∅ (set_procs (alter (set_p_state RUNNING) 0%nat s.(procs)) s)))
    p N l m f (<[0%nat := p]> init_procs)) as (N' & D & l' & m' & f' & s' & E & Es' & Hr); try done.
  - rewrite Es. reflexivity.
  - subst p. destruct Hres as [Ha Ht Hu Hz Hf]. constructor; try done.
    destruct Ha as [[? ? ? ?] ? ? ? ? ? ?]. by constructor.
  - rewrite E. exists tf, pt, N', D, l', m', f'. split; [|exact Hr]. exact Es'.
Qed.

Lemma running_procs tf pt j q : <[0%nat := new_proc tf pt 8192]> init_procs !! j = Some q ->
  (j = 0%nat /\ q = new_proc tf pt 8192) \/ (j <> 0%nat /\ q = init_proc j /\ (j < NPROC)%nat).
Proof.
  destruct (decide (j = 0%nat)) as [->|Hj].
  - rewrite list_lookup_insert_eq by (vm_compute; lia). intros [= <-]. by left.
  - rewrite list_lookup_insert_ne by done. intros (k & -> & [-> ?]%lookup_seq)%list_lookup_fmap_Some.
    right. split_and!; [done | by rewrite Nat.add_0_l | lia].
Qed.

(** What is known of [demo]: its process owns its memory, no lock is held, and the
    other slots are as procinit() left them. *)
Record demo_is (s : kernel) (tf pt : Z) (N : gmap (list Z) Z) (D : gmap Z Z) (l : list Z) : Prop := {
  demo_proc_res : proc_res s (new_proc tf pt 8192) N D l;
  demo_procs : s.(procs) = <[0%nat := new_proc tf pt 8192]> init_procs;
  demo_held : s.(held) = ∅;
  demo_cur : s.(cur) = Some 0%nat;
  demo_nextpid : s.(nextpid) = 2;
  demo_sem : s.(all_sem) = mkSem 0 (replicate NPROC None) 0 0;
  demo_pipes : s.(pipes) = ∅;
}.

Lemma demo_facts : exists tf pt N D l, demo_is demo tf pt N D l.
Proof.
  destruct demo_res as (tf & pt & N & D & l & m & f & E & H). exists tf, pt, N, D, l.
  constructor; [exact H | ..]; rewrite E;
    generalize (<[0%nat:=new_proc tf pt 8192]> init_procs); reflexivity.
Qed.

Section demo_is.
Context {s tf pt N D l} (H : demo_is s tf pt N D l).

Lemma demo_slot0 : s.(procs) !! 0%nat = Some (new_proc tf pt 8192).
Proof. rewrite (demo_procs _ _ _ _ _ _ H). apply list_lookup_insert_eq. vm_compute. lia. Qed.

Lemma demo_len : procs_ok s.
Proof. unfold procs_ok. by rewrite (demo_procs _ _ _ _ _ _ H), length_insert. Qed.

Lemma demo_slots j q : s.(procs) !! j = Some q ->
  (j = 0%nat /\ q = new_proc tf pt 8192) \/ (j <> 0%nat /\ q = init_proc j /\ (j < NPROC)%nat).
Proof. rewrite (demo_procs _ _ _ _ _ _ H). apply running_procs. Qed.

Lemma demo_as : as_inv s pt N D l.
Proof. apply (r_as _ _ _ _ _ (demo_proc_res _ _ _ _ _ _ H)). Qed.

Lemma demo_kmem : kmem_inv s l.
Proof. apply demo_as. Qed.

Lemma demo_unlocked x : x ∉ s.(held).
Proof. rewrite (demo_held _ _ _ _ _ _ H). apply not_elem_of_empty. Qed.

Lemma demo_clean : unused_clean s.
Proof. intros j q Hq Hu. apply demo_slots in Hq as [[-> ->]|(_ & -> & _)]; done. Qed.

Lemma demo_gap va : 8192 <= va < 12288 -> va mod 4096 = 0 -> has (lookup_pte s.(mem) N va) PTE_V = false.
Proof.
  intros Hva H4. eapply (proc_gap s); [apply (demo_proc_res _ _ _ _ _ _ H) | | done].
  split; [exact (proj1 Hva) |]. trans 12288; [exact (proj2 Hva) |]. by vm_compute.
Qed.
End demo_is.

(** ** A bare address space: uvmcreate(), then one page. *)

Definition value {A} (d : A) (o : outcome kernel A) : A := match o with Ok a _ => a | _ => d end.
Definition umem_root : Z := value 0 (uvmcreate boot1).
Definition umem0 : kernel := final power_on (uvmcreate boot1).
Definition umem : kernel := final power_on (uvmalloc umem_root 0 4096 PTE_W umem0).

Lemma umem0_as : exists l, as_inv umem0 umem_root {[ [] := umem_root ]} ∅ l /\ length l = 11%nat.
Proof.
  destruct boot1_kmem as (l & Hk & Hn). destruct boot1_shape as (m & f & E1).
  unfold umem0, umem_root. generalize dependent boot1. intros s Hk E1.
  pose proof (uvmcreate_run s l Hk) as Hc. destruct l as [|p l]; [done |].
  destruct Hc as (s' & E & _ & _ & Ha & _); [rewrite E1; apply not_elem_of_empty |].
  rewrite E. exists l. split; [exact Ha | by injection Hn].
Qed.

Lemma umem_as : exists N D l p, uvmalloc umem_root 0 4096 PTE_W umem0 = Ok 4096 umem /\
  as_inv umem umem_root N D l /\ D !! 0 = Some p /\
  lookup_pte umem.(mem) N 0 = Z.lor (PA2PTE p) (Z.lor (Z.lor (Z.lor PTE_R PTE_U) PTE_W) PTE_V) /\ page_ok p.
Proof.
  destruct umem0_as as (l & Ha & Hn). unfold umem. generalize dependent umem0. intros s Ha.
  destruct (uvmalloc_run s umem_root {[ [] := umem_root ]} ∅ l 0 4096 PTE_W) as (r & s' & N & D & l' & E & Hr);
    [done | lia | by vm_compute | by vm_compute | intros va _ _; by rewrite lookup_root_only |].
  destruct Hr as [[-> Hg]|(_ & _ & Hc & _)].
  2: { change ((PGROUNDUP 4096 - PGROUNDUP 0) / 4096) with 1 in Hc. lia. }
  rewrite E. destruct (gr_new _ _ _ _ _ _ _ _ _ _ _ _ Hg 0) as (p & Hp & He & _); [by vm_compute | done |].
  exists N, D, l', p. split; [done |]. split; [apply Hg |]. split; [done |]. split; [done |].
  apply (as_va _ _ _ _ _ (gr_inv _ _ _ _ _ _ _ _ _ _ _ _ Hg) 0 p Hp).
Qed.

#[global] Opaque demo boot0 boot1 boot2 boot3 umem0 umem_root umem.
