(* ===== verification/Uprintf.v ===== *)
(** * Formatted output of user programs (user/printf.c)

    The characters vprintf() writes to its file descriptor, one write() each.  A number is
    printed from an int: %ld, %lu and %lx print the low 32 bits of their argument. *)

From S2P Require Import Prelude State Sched Uart Printf.

Module Uprintf.

(** digits[d] *)
Definition udigit (d : Z) : Z := if d <? 10 then 48 + d else 65 + (d - 10).

(** do { buf[i++] = digits[x % base]; } while ((x /= base) != 0); *)
Fixpoint udigits_of (fuel : nat) (x base : Z) : list Z :=
  match fuel with
  | O => []
  | S fuel' => udigit (x mod base) :: (if x / base =? 0 then [] else udigits_of fuel' (x / base) base)
  end.

(** [None] is a store past the end of buf[16].  A 32-bit number has at most 32 digits. *)
Definition uprintint (xx base : Z) (sgn : bool) : option (list Z) :=
  let neg := sgn && (xx <? 0) in
  let x := if neg then u32 (- xx) else u32 xx in
  let buf := udigits_of 32 x base ++ (if neg then [45] else []) in
  if (length buf <=? 16)%nat then Some (rev buf) else None.

Fixpoint uprintptr_loop (n : nat) (x : Z) : list Z :=
  match n with O => [] | S n' => udigit (Z.shiftr x 60) :: uprintptr_loop n' (u64 (Z.shiftl x 4)) end.
Definition uprintptr (x : Z) : list Z := [48; 120] ++ uprintptr_loop 16 x.

(** A conversion: what it prints, how many characters it takes after the %, and the arguments left. *)
Definition uconvert (c0 c1 c2 : Z) (ap : list varg) : option (list Z * nat * list varg) :=
  let num_arg (base : Z) (sgn : bool) (n : nat) :=
    match ap with
    | VNum z :: ap' => bs ← uprintint (s32 z) base sgn; Some (bs, n, ap')
    | _ => None
    end in
  let l := 108 in
  if c0 =? 100 then num_arg 10 true 1%nat
  else if (c0 =? l) && (c1 =? 100) then num_arg 10 true 2%nat
  else if (c0 =? l) && (c1 =? l) && (c2 =? 100) then num_arg 10 true 3%nat
  else if c0 =? 117 then num_arg 10 false 1%nat
  else if (c0 =? l) && (c1 =? 117) then num_arg 10 false 2%nat
  else if (c0 =? l) && (c1 =? l) && (c2 =? 117) then num_arg 10 false 3%nat
  else if c0 =? 120 then num_arg 16 false 1%nat
  else if (c0 =? l) && (c1 =? 120) then num_arg 16 false 2%nat
  else if (c0 =? l) && (c1 =? l) && (c2 =? 120) then num_arg 16 false 3%nat
  else if c0 =? 112 then match ap with VNum z :: ap' => Some (uprintptr (u64 z), 1%nat, ap') | _ => None end
  else if c0 =? 115 then
    match ap with
    | VStr None :: ap' => Some ([40; 110; 117; 108; 108; 41], 1%nat, ap')
    | VStr (Some s) :: ap' => Some (s, 1%nat, ap')
    | _ => None
    end
  else if c0 =? 37 then Some ([37], 1%nat, ap)
  else Some ([37; c0], 1%nat, ap).

(** for (i = 0; fmt[i]; i++); [state] is state == '%' *)
Fixpoint vprintf_loop (fuel : nat) (state : bool) (fmt : list Z) (ap : list varg) : option (list Z) :=
  match fuel with
  | O => None
  | S fuel' =>
      match fmt with
      | [] => Some []
      | c0 :: fmt' =>
          if c0 =? 0 then Some [] else
          if negb state then
            if c0 =? 37 then vprintf_loop fuel' true fmt' ap
            else out ← vprintf_loop fuel' false fmt' ap; Some (c0 :: out)
          else
            let c1 := default 0 (fmt !! 1%nat) in
            let c2 := if c1 =? 0 then 0 else default 0 (fmt !! 2%nat) in
            '(bs, n, ap') ← uconvert c0 c1 c2 ap;
            out ← vprintf_loop fuel' false (drop n fmt) ap';
            Some (bs ++ out)
      end
  end.
Definition vprintf (fmt : list Z) (ap : list varg) : option (list Z) := vprintf_loop (S (length fmt)) false fmt ap.

(** ** Numbers *)

(** The digits of the kernel's printf() in upper case. *)
Definition upper (c : Z) : Z := if 97 <=? c then c - 32 else c.

Lemma udigits_upper fuel : forall x base, 2 <= base <= 16 -> udigits_of fuel x base = upper <$> digits_of fuel x base.
Proof.
  induction fuel as [|fuel IH]; intros x base Hb; [done |]. cbn [udigits_of digits_of]. rewrite fmap_cons. f_equal.
  - pose proof (Z.mod_pos_bound x base ltac:(lia)). unfold udigit, upper, digit. repeat case_Z; lia.
  - case_Z; [done | by apply IH].
Qed.

Lemma digits_fuel fuel fuel' : forall x base, 2 <= base -> 0 <= x < base ^ Z.of_nat fuel -> (0 < fuel)%nat -> (fuel <= fuel')%nat -> digits_of fuel x base = digits_of fuel' x base.
Proof.
  revert fuel'. induction fuel as [|fuel IH]; intros [|fuel'] x base Hb Hx Hf Hle; try lia. cbn [digits_of]. f_equal.
  rewrite Nat2Z.inj_succ, Z.pow_succ_r in Hx by lia. assert (0 <= x / base < base ^ Z.of_nat fuel) as Hq by (split; [apply Z.div_pos; lia | apply Z.div_lt_upper_bound; lia]).
  destruct (Z.eqb_spec (x / base) 0) as [|Hne]; [done |]. destruct fuel as [|fuel]; [cbn in Hq; lia |]. apply IH; [done | done | lia | lia].
Qed.

(** printint() never overruns its buffer; it prints what the kernel's printint() prints of
    the same 32-bit number, with the letters of hexadecimal digits in upper case. *)
Lemma uprintint_run xx base sgn : base = 10 \/ base = 16 -> - 2 ^ 31 <= xx < 2 ^ 31 ->
  exists bs, uprintint xx base sgn = Some (upper <$> bs) /\ printint (if sgn then xx else u32 xx) base sgn = Some bs /\
    numeral base bs = if sgn then xx else u32 xx.
Proof.
  intros Hb Hx. pose proof (u32_range xx) as Hu. set (xx' := if sgn then xx else u32 xx) in *.
  assert (- 2 ^ 31 <= xx' < 2 ^ 32) as Hx' by (unfold xx'; destruct sgn; lia). pose proof (printint_run xx' base sgn Hb ltac:(lia)) as Hk. cbn zeta in Hk.
  destruct (printint xx' base sgn) as [bs|] eqn:Ek.
  - exists bs. destruct Hk as [_ Hn]. split_and!; [|done|].
    + unfold printint in Ek. unfold uprintint. assert (sgn && (xx' <? 0) = sgn && (xx <? 0)) as Es by (unfold xx'; by destruct sgn). rewrite Es in Ek.
      set (neg := sgn && (xx <? 0)) in *. assert ((if neg then u64 (- xx') else u64 xx') = if neg then u32 (- xx) else u32 xx) as Ex.
      { unfold neg, xx' in *. destruct sgn; cbn [andb]; [|by rewrite u64_small by lia]. case_Z; [by rewrite u64_small, u32_small by lia | by rewrite u64_small, u32_small by lia]. }
      rewrite Ex in Ek. set (x := if neg then u32 (- xx) else u32 xx) in *. assert (0 <= x < 2 ^ 32) as Hxr by (unfold x; destruct neg; apply u32_range).
      rewrite udigits_upper by lia. rewrite (digits_fuel 32 64) by (lia || (split; [lia |]; eapply Z.lt_le_trans; [apply Hxr |]; destruct Hb as [-> | ->]; apply Z.leb_le; reflexivity)).
      replace (if neg then [45] else []) with (upper <$> (if neg then [45] else [])) in |- * by (by destruct neg).
      rewrite <- fmap_app, length_fmap. unfold buf_size in Ek. revert Ek. generalize (digits_of 64 x base ++ (if neg then [45] else [])). intros l Ek.
      destruct (_ <=? 16)%nat; [|done]. injection Ek as <-. f_equal. symmetry. apply map_rev.
    + rewrite Hn. unfold xx'. destruct sgn; [done |]. by rewrite u64_small by lia.
  - exfalso. destruct (sgn && (xx' <? 0)) eqn:En; [assert (- xx' < 10 ^ 15) by lia | assert (u64 xx' < 10 ^ 16)].
    + apply andb_prop in En as [_ ?%Z.ltb_lt]. destruct Hb as [-> | ->]; lia.
    + destruct sgn; cbn in En; [apply Z.ltb_ge in En |]; rewrite u64_small by lia; lia.
    + destruct Hb as [-> | ->]; lia.
Qed.

(** ** Formats *)

(** What a format consists of, with the arguments of its conversions. *)
Inductive piece :=
| Lit (c : Z)
| Num (ls : nat) (k : Z) (z : Z)        (* %d, %u, %x with up to two l *)
| Ptr (z : Z)
| Str (s : option (list Z))
| Percent.

Definition piece_ok (p : piece) : Prop :=
  match p with Lit c => c <> 0 /\ c <> 37 | Num ls k _ => (ls <= 2)%nat /\ (k = 100 \/ k = 117 \/ k = 120) | _ => True end.
Definition text (p : piece) : list Z :=
  match p with Lit c => [c] | Num ls k _ => [37] ++ replicate ls 108 ++ [k] | Ptr _ => [37; 112] | Str _ => [37; 115] | Percent => [37; 37] end.
Definition vargs (p : piece) : list varg :=
  match p with Num _ _ z => [VNum z] | Ptr z => [VNum z] | Str s => [VStr s] | _ => [] end.
Definition printed (p : piece) : option (list Z) :=
  match p with
  | Lit c => Some [c]
  | Num _ k z => uprintint (s32 z) (if k =? 120 then 16 else 10) (k =? 100)
  | Ptr z => Some (uprintptr (u64 z))
  | Str s => Some (default [40; 110; 117; 108; 108; 41] s)
  | Percent => Some [37]
  end.

Fixpoint all_printed (ps : list piece) : option (list Z) :=
  match ps with [] => Some [] | p :: ps' => bs ← printed p; out ← all_printed ps'; Some (bs ++ out) end.

Lemma vprintf_run ps : Forall piece_ok ps -> forall fuel, (length (concat (text <$> ps)) < fuel)%nat ->
  vprintf_loop fuel false (concat (text <$> ps)) (concat (vargs <$> ps)) = all_printed ps.
Proof.
  induction 1 as [|p ps Hp _ IH]; intros [|fuel] Hf; try (cbn in Hf; lia); [done |]. rewrite !fmap_cons in *. cbn [concat] in *. rewrite length_app in Hf.
  destruct p as [c | ls k z | z | o |]; cbn [text vargs printed all_printed app length] in *.
  - destruct Hp as [H0 H1]. cbn [vprintf_loop negb]. rewrite (proj2 (Z.eqb_neq c 0)), (proj2 (Z.eqb_neq c 37)) by done. rewrite IH by lia. done.
  - destruct Hp as [Hl Hk]. destruct fuel as [|fuel]; [cbn in Hf; lia |]. rewrite length_app, length_replicate in Hf. cbn [length] in Hf.
    destruct ls as [|[|[|?]]]; [| | | lia]; destruct Hk as [-> | [-> | ->]]; cbn -[uprintint];
      (destruct (uprintint (s32 z) _ _) as [bs|]; cbn -[uprintint vprintf_loop]; [|done]); rewrite IH by (cbn in Hf; lia); done.
  - destruct fuel as [|fuel]; [cbn in Hf; lia |]. cbn -[uprintptr]. rewrite IH by (cbn in Hf; lia). done.
  - destruct fuel as [|fuel]; [cbn in Hf; lia |]. destruct o as [s|]; cbn; rewrite IH by (cbn in Hf; lia); done.
  - destruct fuel as [|fuel]; [cbn in Hf; lia |]. cbn. rewrite IH by (cbn in Hf; lia). done.
Qed.

(** printf() prints a format piece by piece: the characters as they are, each conversion
    with its own argument; a number as the numeral of the low 32 bits. *)
Theorem vprintf_spec ps : Forall piece_ok ps -> vprintf (concat (text <$> ps)) (concat (vargs <$> ps)) = all_printed ps.
Proof. intros Hp. apply vprintf_run; [done | lia]. Qed.

(** printint() prints a numeral of its argument, at most eleven characters long. *)
Theorem uprintint_spec xx base sgn : base = 10 \/ base = 16 -> - 2 ^ 31 <= xx < 2 ^ 31 ->
  exists bs, uprintint xx base sgn = Some (upper <$> bs) /\ printint (if sgn then xx else u32 xx) base sgn = Some bs /\
    numeral base bs = if sgn then xx else u32 xx.
Proof. apply uprintint_run. Qed.

End Uprintf.
