(* ===== verification/Ulib.v ===== *)
(** * User library (user/ulib.c)

    A char pointer is the list of the bytes from it to the end of its array; bytes past
    the end, like the one that ends a string, read as NUL. *)

From S2P Require Import Prelude.

Definition chr (s : list Z) : Z := default 0 (head s).

(** The array at [s] after strcpy() *)
Fixpoint strcpy (s t : list Z) : list Z :=
  match t with
  | [] => 0 :: drop 1 s
  | c :: t' => if c =? 0 then 0 :: drop 1 s else c :: strcpy (drop 1 s) t'
  end.

Fixpoint strcmp (p q : list Z) : Z :=
  match p with
  | [] => 0 - u8 (chr q)
  | c :: p' => if negb (c =? 0) && (c =? chr q) then strcmp p' (tail q) else u8 c - u8 (chr q)
  end.

Fixpoint strlen (s : list Z) : Z :=
  match s with
  | [] => 0
  | c :: s' => if c =? 0 then 0 else 1 + strlen s'
  end.

(** The suffix of [s] that starts with [c] *)
Fixpoint strchr (s : list Z) (c : Z) : option (list Z) :=
  match s with
  | [] => None
  | x :: s' => if x =? 0 then None else if x =? c then Some s else strchr s' c
  end.

Fixpoint atoi_loop (n : Z) (s : list Z) : Z :=
  match s with
  | [] => n
  | c :: s' => if (48 <=? c) && (c <=? 57) then atoi_loop (s32 (n * 10 + c - 48)) s' else n
  end.
Definition atoi (s : list Z) : Z := atoi_loop 0 s.

(** gets(); [input] is what read(0, ...) still delivers, a byte at a time; the bytes
    before the final NUL, and the input left. *)
Fixpoint gets_loop (room : nat) (input : list Z) : list Z * list Z :=
  match room, input with
  | S room', c :: input' =>
      if (c =? 10) || (c =? 13) then ([c], input')
      else let '(s, rest) := gets_loop room' input' in (c :: s, rest)
  | _, _ => ([], input)
  end.
Definition gets_ (max : Z) (input : list Z) : list Z * list Z := gets_loop (Z.to_nat (max - 1)) input.

(** ** Memory

    The memory of the process is a function from addresses to bytes. *)

Definition wr (a v : Z) (m : Z -> Z) : Z -> Z := fun a' => if a' =? a then u8 v else m a'.

(** for (i = 0; i < n; i++) cdst[i] = c *)
Fixpoint memset_from (n : nat) (i dst c : Z) (m : Z -> Z) : Z -> Z :=
  match n with O => m | S n' => memset_from n' (i + 1) dst c (wr (dst + i) c m) end.
Definition memset (dst c n : Z) (m : Z -> Z) : Z -> Z := memset_from (Z.to_nat n) 0 dst c m.

(** while (n-- > 0) *dst++ = *src++ *)
Fixpoint copy_up (n : nat) (dst src : Z) (m : Z -> Z) : Z -> Z :=
  match n with O => m | S n' => copy_up n' (dst + 1) (src + 1) (wr dst (m src) m) end.
(** while (n-- > 0) *--dst = *--src *)
Fixpoint copy_down (n : nat) (dst src : Z) (m : Z -> Z) : Z -> Z :=
  match n with O => m | S n' => copy_down n' (dst - 1) (src - 1) (wr (dst - 1) (m (src - 1)) m) end.
Definition memmove (dst src n : Z) (m : Z -> Z) : Z -> Z :=
  if dst <? src then copy_up (Z.to_nat n) dst src m else copy_down (Z.to_nat n) (dst + n) (src + n) m.
Definition memcpy (dst src n : Z) (m : Z -> Z) : Z -> Z := memmove dst src n m.

(** while (n-- > 0); char is unsigned on RISC-V *)
Fixpoint memcmp_from (n : nat) (p1 p2 : Z) (m : Z -> Z) : Z :=
  match n with
  | O => 0
  | S n' => if negb (m p1 =? m p2) then m p1 - m p2 else memcmp_from n' (p1 + 1) (p2 + 1) m
  end.
Definition memcmp (s1 s2 n : Z) (m : Z -> Z) : Z := memcmp_from (Z.to_nat n) s1 s2 m.

Definition bytes (m : Z -> Z) : Prop := forall a, 0 <= m a < 256.

Lemma bytes_wr m a v : bytes m -> bytes (wr a v m).
Proof. intros Hm a'. unfold wr. case_Z; [apply u8_range | apply Hm]. Qed.

Lemma copy_up_at n : forall dst src m a, bytes m -> dst < src ->
  copy_up n dst src m a = if (dst <=? a) && (a <? dst + Z.of_nat n) then m (src + (a - dst)) else m a.
Proof.
  induction n as [|n IH]; intros dst src m a Hm Hlt; cbn [copy_up].
  - by destruct (Z.leb_spec dst a), (Z.ltb_spec a (dst + Z.of_nat 0)); try done; lia.
  - rewrite IH by (done || lia || by apply bytes_wr). unfold wr. rewrite u8_small by apply Hm.
    destruct (Z.eqb_spec a dst) as [->|]; repeat case_Z; cbn [andb]; try lia; f_equal; lia.
Qed.

Lemma copy_down_at n : forall dst src m a, bytes m -> src <= dst ->
  copy_down n dst src m a = if (dst - Z.of_nat n <=? a) && (a <? dst) then m (src + (a - dst)) else m a.
Proof.
  induction n as [|n IH]; intros dst src m a Hm Hlt; cbn [copy_down].
  - by destruct (Z.leb_spec (dst - Z.of_nat 0) a), (Z.ltb_spec a dst); try done; lia.
  - rewrite IH by (done || lia || by apply bytes_wr). unfold wr. rewrite u8_small by apply Hm.
    destruct (Z.eqb_spec a (dst - 1)) as [->|]; repeat case_Z; cbn [andb]; try lia; f_equal; lia.
Qed.

(** memmove() copies the bytes that were at [src], also when the two ranges overlap, and
    changes no other byte. *)
Theorem umemmove_spec dst src n m a : bytes m -> 0 <= n ->
  memmove dst src n m a = if (dst <=? a) && (a <? dst + n) then m (src + (a - dst)) else m a.
Proof.
  intros Hm Hn. unfold memmove. destruct (Z.ltb_spec dst src).
  - rewrite copy_up_at by done. by rewrite Z2Nat.id by lia.
  - rewrite copy_down_at by (done || lia). rewrite Z2Nat.id by lia. replace (dst + n - n) with dst by lia. by replace (src + n + (a - (dst + n))) with (src + (a - dst)) by lia.
Qed.

(** ** Lemmas *)

Definition nonul (s : list Z) : Prop := Forall (fun c => c <> 0) s.

Lemma strlen_nonul s : nonul s -> strlen s = Z.of_nat (length s).
Proof. induction 1 as [|c s Hc _ IH]; [done |]. cbn [strlen length]. rewrite (proj2 (Z.eqb_neq c 0)) by done. lia. Qed.

(** strchr() splits the string at the first [c]. *)
Lemma strchr_spec s c : nonul s -> c <> 0 -> match strchr s c with
  | Some q => exists p, s = p ++ q /\ c ∉ p /\ exists q', q = c :: q'
  | None => c ∉ s
  end.
Proof.
  intros Hs Hc. induction Hs as [|x s Hx Hs IH]; [apply not_elem_of_nil |]. cbn [strchr]. rewrite (proj2 (Z.eqb_neq x 0)) by done.
  destruct (Z.eqb_spec x c) as [->|Hne].
  - exists []. split_and!; [done | apply not_elem_of_nil | by eexists].
  - destruct (strchr s c) as [q|].
    + destruct IH as (p & -> & Hp & Hq). exists (x :: p). split_and!; [done | set_solver | done].
    + set_solver.
Qed.
