(* ===== verification/Utils.v ===== *)
(** * Small user programs (user/cat.c, user/echo.c, user/wc.c)

    What the programs write and how they exit, given what the system calls return: open() of a
    file name, the sequence of its read()s, each with some bytes or the end or an error, and
    whether a write() takes all its bytes. *)

From S2P Require Import Prelude State Sched Uart Printf Ulib Uprintf.

Module Utils.
Import Uprintf.Uprintf.

(** What the reads of a descriptor return: buffers of at least one byte, then 0 or -1. *)
Record stream := mkStream { chunks : list (list Z); failed : bool }.

Class Syscalls := {
  stdin : stream;
  opened : list Z -> option stream;
  accepts : list Z -> bool;   (* write(1, buf, n) == n *)
}.

(** The program goes on, or exits; what it has written to descriptors 1 and 2. *)
Inductive run := Goes (out err : list Z) | Exits (code : Z) (out err : list Z).

Definition message (fmt : string) (ap : list varg) : list Z := default [] (vprintf (chars fmt) ap).

Section programs.
Context {S : Syscalls}.

(** ** cat *)

(** while ((n = read(fd, buf, sizeof(buf))) > 0) *)
Fixpoint cat_loop (l : list (list Z)) (fails : bool) (out err : list Z) : run :=
  match l with
  | [] => if fails then Exits 1 out (err ++ message "cat: read error\n" []) else Goes out err
  | buf :: l' => if accepts buf then cat_loop l' fails (out ++ buf) err else Exits 1 out (err ++ message "cat: write error\n" [])
  end.
Definition cat (fd : stream) (out err : list Z) : run := cat_loop fd.(chunks) fd.(failed) out err.

Fixpoint cat_files (args : list (list Z)) (out err : list Z) : run :=
  match args with
  | [] => Exits 0 out err
  | arg :: args' =>
      match opened arg with
      | None => Exits 1 out (err ++ message "cat: cannot open %s\n" [VStr (Some arg)])
      | Some fd => match cat fd out err with Goes out err => cat_files args' out err | r => r end
      end
  end.
Definition cat_main (args : list (list Z)) : run :=
  match args with
  | [] => match cat stdin [] [] with Goes out err => Exits 0 out err | r => r end
  | _ => cat_files args [] []
  end.

(** ** echo *)

Fixpoint echo_main (args : list (list Z)) : list Z :=
  match args with [] => [] | [arg] => arg ++ [10] | arg :: args' => arg ++ [32] ++ echo_main args' end.

(** ** wc *)

Record counts := mkCounts { wc_l : Z; wc_w : Z; wc_c : Z; inword : bool }.

(** strchr(" \r\t\n\v", c) *)
Definition blank (c : Z) : bool := match strchr [32; 13; 9; 10; 11] c with Some _ => true | None => false end.

(** The body of for (i = 0; i < n; i++) *)
Definition wc_byte (k : counts) (b : Z) : counts :=
  let c := s32 (k.(wc_c) + 1) in
  let l := if b =? 10 then s32 (k.(wc_l) + 1) else k.(wc_l) in
  if blank b then mkCounts l k.(wc_w) c false
  else if negb k.(inword) then mkCounts l (s32 (k.(wc_w) + 1)) c true
  else mkCounts l k.(wc_w) c k.(inword).

Definition wc_chunk (k : counts) (buf : list Z) : counts := foldl wc_byte k buf.

Definition wc (fd : stream) (name out : list Z) : run :=
  let k := foldl wc_chunk (mkCounts 0 0 0 false) fd.(chunks) in
  if fd.(failed) then Exits 1 (out ++ message "wc: read error\n" []) []
  else Goes (out ++ message "%d %d %d %s\n" [VNum k.(wc_l); VNum k.(wc_w); VNum k.(wc_c); VStr (Some name)]) [].

Fixpoint wc_files (args : list (list Z)) (out : list Z) : run :=
  match args with
  | [] => Exits 0 out []
  | arg :: args' =>
      match opened arg with
      | None => Exits 1 (out ++ message "wc: cannot open %s\n" [VStr (Some arg)]) []
      | Some fd => match wc fd arg out with Goes out _ => wc_files args' out | r => r end
      end
  end.
Definition wc_main (args : list (list Z)) : run :=
  match args with
  | [] => match wc stdin [] [] with Goes out _ => Exits 0 out [] | r => r end
  | _ => wc_files args []
  end.

(** ** What they compute *)

Lemma cat_loop_run l : forall out err, Forall (fun b => accepts b = true) l -> cat_loop l false out err = Goes (out ++ concat l) err.
Proof.
  induction l as [|b l IH]; intros out err Hl; cbn [cat_loop concat]; [by rewrite app_nil_r |]. inversion Hl as [|? ? Hb Hl']; subst. rewrite Hb, IH by done. by rewrite <- app_assoc.
Qed.

(** cat writes the files one after the other. *)
Theorem cat_spec args fds : args <> [] -> opened <$> args = Some <$> fds -> Forall (fun fd => fd.(failed) = false /\ Forall (fun b => accepts b = true) fd.(chunks)) fds ->
  cat_main args = Exits 0 (concat ((fun fd => concat fd.(chunks)) <$> fds)) [].
Proof.
  intros Hne. unfold cat_main. destruct args as [|a0 args0] eqn:Ea; [done |]. rewrite <- Ea. clear Hne Ea a0 args0. intros Ho Hf.
  enough (forall out, cat_files args out [] = Exits 0 (out ++ concat ((fun fd => concat fd.(chunks)) <$> fds)) []) as H by apply H.
  revert fds Ho Hf. induction args as [|a args IH]; intros [|fd fds] Ho Hf out; try done; cbn [cat_files].
  - by rewrite app_nil_r.
  - rewrite !fmap_cons in Ho. injection Ho as Ea Eo. inversion Hf as [|? ? [Hn Hw] Hf']; subst. rewrite Ea. unfold cat. rewrite Hn, cat_loop_run by done.
    rewrite (IH fds Eo Hf'), fmap_cons. cbn [concat]. by rewrite <- app_assoc.
Qed.

(** Reference: the lines and the words of a text.  A word starts at a character that is not
    blank and comes first or after a blank. *)
Definition lines (s : list Z) : Z := Z.of_nat (length (filter (fun b => b = 10) s)).
Fixpoint word_starts (after : bool) (s : list Z) : Z :=
  match s with [] => 0 | b :: s' => (if negb (blank b) && negb after then 1 else 0) + word_starts (negb (blank b)) s' end.

Lemma word_starts_bound s : forall after, 0 <= word_starts after s <= Z.of_nat (length s).
Proof. induction s as [|b s IH]; intros after; cbn [word_starts length]; [lia |]. specialize (IH (negb (blank b))). destruct (negb (blank b) && negb after); lia. Qed.

Lemma foldl_chunks k l : foldl wc_chunk k l = foldl wc_byte k (concat l).
Proof. revert k. induction l as [|b l IH]; intros k; [done |]. cbn [foldl concat]. rewrite foldl_app. apply IH. Qed.

Lemma wc_bytes s : forall l w c i, 0 <= l <= c -> 0 <= w <= c -> c + Z.of_nat (length s) < 2 ^ 31 ->
  exists i', foldl wc_byte (mkCounts l w c i) s = mkCounts (l + lines s) (w + word_starts i s) (c + Z.of_nat (length s)) i'.
Proof.
  induction s as [|b s IH]; intros l w c i Hl Hw Hc; cbn [foldl length] in *.
  - exists i. unfold lines. cbn. by rewrite !Z.add_0_r.
  - unfold wc_byte at 2. cbn [wc_l wc_w wc_c inword]. set (l1 := if b =? 10 then s32 (l + 1) else l).
    assert (0 <= l1 <= c + 1 /\ l1 + lines s = l + lines (b :: s)) as [Hl1 El].
    { unfold l1, lines. rewrite filter_cons. case_Z; [rewrite decide_True, s32_small by (done || lia) | rewrite decide_False by done]; cbn [length]; lia. }
    rewrite (s32_small (c + 1)) by lia. cbn [word_starts]. destruct (blank b); cbn [negb andb].
    + destruct (IH l1 w (c + 1) false) as [i' E]; [lia | lia | lia |]. exists i'. rewrite E, El. f_equal; lia.
    + destruct i; cbn [negb].
      * destruct (IH l1 w (c + 1) true) as [i' E]; [lia | lia | lia |]. exists i'. rewrite E, El. f_equal; lia.
      * rewrite s32_small by lia. destruct (IH l1 (w + 1) (c + 1) true) as [i' E]; [lia | lia | lia |]. exists i'. rewrite E, El. f_equal; lia.
Qed.

(** wc counts the lines, words and bytes of a file, however read() splits it. *)
Theorem wc_spec fd name out : fd.(failed) = false -> Z.of_nat (length (concat fd.(chunks))) < 2 ^ 31 ->
  let s := concat fd.(chunks) in
  wc fd name out = Goes (out ++ message "%d %d %d %s\n" [VNum (lines s); VNum (word_starts false s); VNum (Z.of_nat (length s)); VStr (Some name)]) [].
Proof.
  intros Hf Hl s. unfold wc. rewrite Hf, foldl_chunks. destruct (wc_bytes s 0 0 0 false) as [i' E]; [lia | lia | unfold s; lia |]. fold s. rewrite E. done.
Qed.

End programs.
End Utils.
