(* ===== verification/Umalloc.v ===== *)
(** * The user-level allocator (user/umalloc.c)

    Kernighan and Ritchie's malloc(): a circular list of free blocks in address order.
    Pointers are byte addresses; a Header is 16 bytes.  The state is the headers in memory,
    [freep] and the break; [base] is the address of the static header, below the heap. *)

From S2P Require Import Prelude.

Definition HDR : Z := 16.

Record heap := mkHeap {
  h_ptr : gmap Z Z;    (* s.ptr of the header at an address *)
  h_size : gmap Z Z;   (* s.size *)
  freep : Z;
  brk : Z;             (* end of the process's memory *)
  avail : Z;           (* how much more sbrk() will grant *)
}.
Definition set_ptr (p x : Z) (h : heap) : heap := mkHeap (<[p := x]> h.(h_ptr)) h.(h_size) h.(freep) h.(brk) h.(avail).
Definition set_size (p x : Z) (h : heap) : heap := mkHeap h.(h_ptr) (<[p := x]> h.(h_size)) h.(freep) h.(brk) h.(avail).
Definition set_freep (x : Z) (h : heap) : heap := mkHeap h.(h_ptr) h.(h_size) x h.(brk) h.(avail).
Definition set_brk (x a : Z) (h : heap) : heap := mkHeap h.(h_ptr) h.(h_size) h.(freep) x a.

Definition ptr (h : heap) (p : Z) : Z := default 0 (h.(h_ptr) !! p).
Definition size_ (h : heap) (p : Z) : Z := default 0 (h.(h_size) !! p).

Section umalloc.
Variable base : Z.

(** for (p = freep; !(bp > p && bp < p->s.ptr); p = p->s.ptr)
      if (p >= p->s.ptr && (bp > p || bp < p->s.ptr)) break; *)
Fixpoint free_find (fuel : nat) (h : heap) (bp p : Z) : option Z :=
  match fuel with
  | O => None
  | S fuel' =>
      let n := ptr h p in
      if (p <? bp) && (bp <? n) then Some p
      else if (n <=? p) && ((p <? bp) || (bp <? n)) then Some p
      else free_find fuel' h bp n
  end.

(** The rest of free(), after the search. *)
Definition free_link (bp p : Z) (h : heap) : heap :=
  let n := ptr h p in
  let h :=
    if bp + HDR * size_ h bp =? n
    then set_ptr bp (ptr h n) (set_size bp (u32 (size_ h bp + size_ h n)) h)
    else set_ptr bp n h in
  let h :=
    if p + HDR * size_ h p =? bp
    then set_ptr p (ptr h bp) (set_size p (u32 (size_ h p + size_ h bp)) h)
    else set_ptr p bp h in
  set_freep p h.

(** The number of headers bounds the length of the list. *)
Definition ring_fuel (h : heap) : nat := S (size h.(h_ptr)).

Definition free (ap : Z) (h : heap) : option heap :=
  let bp := ap - HDR in
  match free_find (ring_fuel h) h bp h.(freep) with
  | Some p => Some (free_link bp p h)
  | None => None
  end.

(** sbrk(): the old break, or -1 when the memory is not there. A negative size shrinks the
    process, unless it would go below 0. *)
Definition sbrk (n : Z) (h : heap) : Z * heap :=
  if h.(avail) <? n then (-1, h)
  else if h.(brk) + n <? 0 then (h.(brk), h)
  else (h.(brk), set_brk (h.(brk) + n) (h.(avail) - n) h).

(** morecore(): freep, or 0 *)
Definition morecore (nu : Z) (h : heap) : option (Z * heap) :=
  let nu := if nu <? 4096 then 4096 else nu in
  let '(p, h) := sbrk (s32 (nu * HDR)) h in
  if p =? -1 then Some (0, h) else
  match free (p + HDR) (set_size p nu h) with
  | Some h => Some (h.(freep), h)
  | None => None
  end.

(** The block [p] after [prevp] is large enough. *)
Definition malloc_take (nunits prevp p : Z) (h : heap) : Z * heap :=
  if size_ h p =? nunits
  then (p + HDR, set_freep prevp (set_ptr prevp (ptr h p) h))
  else
    let h := set_size p (size_ h p - nunits) h in
    let q := p + HDR * size_ h p in
    (q + HDR, set_freep prevp (set_size q nunits h)).

(** for (p = prevp->s.ptr; ; prevp = p, p = p->s.ptr) *)
Fixpoint malloc_loop (fuel : nat) (nunits prevp p : Z) (h : heap) : option (Z * heap) :=
  match fuel with
  | O => None
  | S fuel' =>
      if nunits <=? size_ h p then Some (malloc_take nunits prevp p h) else
      if p =? h.(freep) then
        match morecore nunits h with
        | None => None
        | Some (p, h) => if p =? 0 then Some (0, h) else malloc_loop fuel' nunits p (ptr h p) h
        end
      else malloc_loop fuel' nunits p (ptr h p) h
  end.

Definition units (nbytes : Z) : Z := u32 ((nbytes + HDR - 1) / HDR + 1).

Definition malloc (nbytes : Z) (h : heap) : option (Z * heap) :=
  let nunits := units nbytes in
  let h := if h.(freep) =? 0 then set_size base 0 (set_freep base (set_ptr base base h)) else h in
  malloc_loop (2 * ring_fuel h + 3) nunits h.(freep) (ptr h h.(freep)) h.
End umalloc.

(** ** The free list *)

Section spec.
Variable base : Z.
Implicit Types (h : heap) (l : list (Z * Z)).

(** The address of the first block, or [e]. *)
Definition first (l : list (Z * Z)) (e : Z) : Z := match l with [] => e | (a, _) :: _ => a end.

(** The headers of the blocks [l] (address, size), linked in order and then to [e]. *)
Fixpoint chain h l (e : Z) : Prop :=
  match l with
  | [] => True
  | (a, n) :: l' => h.(h_ptr) !! a = Some (first l' e) /\ h.(h_size) !! a = Some n /\ chain h l' e
  end.

(** Blocks in address order above [lo], with a gap before each. *)
Fixpoint asc (lo : Z) l : Prop :=
  match l with
  | [] => True
  | (a, n) :: l' => lo < a /\ 0 < n /\ asc (a + HDR * n) l'
  end.

(** The free list: [base], then the blocks [l]. *)
Record ring h l : Prop := {
  rg_chain : chain h ((base, 0) :: l) base;
  rg_asc : asc base l;
  rg_freep : h.(freep) ∈ base :: l.*1;
}.

Lemma first_app l1 l2 e : first (l1 ++ l2) e = first l1 (first l2 e).
Proof. by destruct l1 as [|[a n] l1]. Qed.

Lemma chain_app h l1 l2 e : chain h (l1 ++ l2) e <-> chain h l1 (first l2 e) /\ chain h l2 e.
Proof. induction l1 as [|[a n] l1 IH]; cbn; [tauto |]. rewrite IH, first_app. tauto. Qed.

(** Headers at other addresses do not matter. *)
Lemma chain_frame h h' l e : chain h l e -> (forall a, a ∈ l.*1 -> h'.(h_ptr) !! a = h.(h_ptr) !! a /\ h'.(h_size) !! a = h.(h_size) !! a) -> chain h' l e.
Proof.
  induction l as [|[a n] l IH]; cbn; [done |]. intros (H1 & H2 & H3) Hf. destruct (Hf a ltac:(set_solver +)) as [-> ->].
  split_and!; [done | done |]. apply IH; [done |]. intros b Hb. apply Hf. set_solver.
Qed.

Lemma chain_ptr h l i a n e : chain h l e -> l !! i = Some (a, n) -> ptr h a = first (drop (S i) l) e /\ size_ h a = n.
Proof.
  revert i. induction l as [|[b m] l IH]; intros [|i] Hc Hi; cbn in *; try done.
  - injection Hi as -> ->. destruct Hc as (H1 & H2 & _). unfold ptr, size_. by rewrite H1, H2, drop_0.
  - destruct Hc as (_ & _ & Hc). by apply IH.
Qed.

Lemma asc_app lo l1 l2 : asc lo (l1 ++ l2) <-> asc lo l1 /\ asc (match last l1 with Some (a, n) => a + HDR * n | None => lo end) l2.
Proof.
  revert lo. induction l1 as [|[a n] l1 IH]; intros lo; cbn [app asc]; [cbn; tauto |]. rewrite IH. rewrite last_cons. destruct (last l1) as [[b m]|]; tauto.
Qed.

Lemma asc_in lo l a n : asc lo l -> (a, n) ∈ l -> lo < a /\ 0 < n.
Proof.
  revert lo. induction l as [|[b m] l IH]; intros lo Ha Hin; [set_solver |]. cbn in Ha. destruct Ha as (H1 & H2 & H3). apply elem_of_cons in Hin as [[= -> ->]|Hin]; [done |].
  destruct (IH _ H3 Hin). unfold HDR in *. lia.
Qed.

Lemma asc_mono lo lo' l : asc lo l -> lo' <= lo -> asc lo' l.
Proof. destruct l as [|[a n] l]; cbn; [done |]. intros (? & ? & ?) ?. split_and!; [lia | done | done]. Qed.

(** Blocks before and after an address that is in none. *)
Lemma asc_split lo l bp : asc lo l -> bp ∉ l.*1 -> exists l1 l2, l = l1 ++ l2 /\ (forall a n, (a, n) ∈ l1 -> a < bp) /\ (forall a n, (a, n) ∈ l2 -> bp < a).
Proof.
  revert lo. induction l as [|[a n] l IH]; intros lo Ha Hn; [exists [], []; split_and!; set_solver |]. cbn in Ha. destruct Ha as (H1 & H2 & H3).
  destruct (decide (a < bp)) as [Hlt|Hge].
  - destruct (IH _ H3 ltac:(set_solver)) as (l1 & l2 & -> & G1 & G2). exists ((a, n) :: l1), l2. split_and!; [done | | done].
    intros b m [[= -> ->]|Hb]%elem_of_cons; [done | by eapply G1].
  - exists [], ((a, n) :: l). split_and!; [done | intros b m Hb; by apply not_elem_of_nil in Hb |]. assert (a <> bp) by (intros ->; apply Hn; set_solver +).
    intros b m [[= -> ->]|Hb]%elem_of_cons; [lia |]. destruct (asc_in _ _ _ _ H3 Hb). unfold HDR in *. lia.
Qed.

Lemma asc_next lo l i a n b m : asc lo l -> ((lo, 0) :: l) !! i = Some (a, n) -> l !! i = Some (b, m) -> a + HDR * n < b.
Proof.
  revert lo i. induction l as [|[c k] l IH]; intros lo [|i] Ha Hi Hn; cbn in *; simplify_eq; try lia.
  destruct Ha as (_ & _ & Ha). destruct i as [|i]; cbn in *; simplify_eq.
  - destruct l as [|[d j] l]; cbn in *; simplify_eq. lia.
  - by apply (IH _ (S i) Ha).
Qed.

Definition full l : list (Z * Z) := (base, 0) :: l.

(** The block after which [bp] goes. *)
Definition pred_of (l1 : list (Z * Z)) : Z * Z := default (base, 0) (last l1).

Lemma full_pred l1 l2 : full (l1 ++ l2) !! length l1 = Some (pred_of l1).
Proof.
  unfold full, pred_of. rewrite app_comm_cons, lookup_app_l by (cbn; lia). destruct l1 as [|x l1 _] using rev_ind; [done |].
  rewrite last_snoc, length_app, Nat.add_1_r. cbn [app]. rewrite app_comm_cons. rewrite lookup_app_r by (cbn; lia). cbn [length]. by rewrite Nat.sub_diag.
Qed.

Lemma free_find_run h l1 l2 bp : chain h (full (l1 ++ l2)) base -> asc base (l1 ++ l2) -> base < bp ->
  (forall a n, (a, n) ∈ l1 -> a < bp) -> (forall a n, (a, n) ∈ l2 -> bp < a) ->
  forall fuel i a n, full (l1 ++ l2) !! i = Some (a, n) ->
  ((if decide (i <= length l1)%nat then length l1 - i else S (length (l1 ++ l2)) - i + length l1) < fuel)%nat ->
  free_find fuel h bp a = Some (pred_of l1).1.
Proof.
  intros Hc Ha Hb H1 H2. set (l := l1 ++ l2) in *. set (k := length l1).
  assert (forall i a n, full l !! i = Some (a, n) -> if decide (i <= k)%nat then a < bp else bp < a) as Hside.
  { intros [|i] a n Hi; [injection Hi as <- <-; case_decide; [done | lia] |]. change (l !! i = Some (a, n)) in Hi. case_decide.
    - unfold l in Hi. rewrite lookup_app_l in Hi by (unfold k in *; lia). eapply H1, list_elem_of_lookup_2, Hi.
    - unfold l in Hi. rewrite lookup_app_r in Hi by (unfold k in *; lia). eapply H2, list_elem_of_lookup_2, Hi. }
  induction fuel as [|fuel IH]; intros i a n Hi Hf; [lia |]. cbn [free_find]. destruct (chain_ptr _ _ _ _ _ _ Hc Hi) as [Ep _].
  pose proof (Hside _ _ _ Hi) as Hsd. unfold full in Ep. cbn [drop] in Ep.
  destruct (l !! i) as [[b m]|] eqn:En.
  - rewrite (drop_S _ _ _ En) in Ep. cbn [first] in Ep. rewrite Ep. pose proof (asc_next _ _ _ _ _ _ _ Ha Hi En) as Hlt.
    assert (0 <= n) as Hn by (destruct i as [|i]; [injection Hi; lia | apply (list_elem_of_lookup_2 l i) in Hi; destruct (asc_in _ _ _ _ Ha Hi); lia]).
    pose proof (Hside (S i) b m En) as Hsn. assert (a < b) by (unfold HDR in Hlt; lia). destruct (decide (i = k)) as [->|Hne].
    + rewrite decide_True in Hsd by lia. rewrite decide_False in Hsn by lia. rewrite (proj2 (Z.ltb_lt _ _)), (proj2 (Z.ltb_lt _ _)) by lia. cbn [andb].
      unfold l, k in Hi. rewrite full_pred in Hi. by injection Hi as ->.
    + replace ((a <? bp) && (bp <? b)) with false.
      2: { symmetry. apply andb_false_iff. case_decide; case_decide; lia. }
      rewrite (proj2 (Z.leb_gt b a)) by lia. cbn [andb]. apply (IH (S i) b m); [exact En |]. apply lookup_lt_Some in En. repeat case_decide; lia.
  - rewrite drop_ge in Ep by (by apply lookup_ge_None_1). cbn [first] in Ep. rewrite Ep. apply lookup_ge_None_1 in En. assert (i < S (length l))%nat as Hil by (apply lookup_lt_Some in Hi; done).
    rewrite (proj2 (Z.ltb_ge bp base)) by lia. rewrite andb_false_r, orb_false_r. assert (length l = length l1 + length l2)%nat as El by (unfold l; apply length_app).
    assert (base <= a) as Hba.
    { destruct i as [|i]; [injection Hi; lia | apply (list_elem_of_lookup_2 l i) in Hi; destruct (asc_in _ _ _ _ Ha Hi); lia]. }
    rewrite (proj2 (Z.leb_le base a)) by done. cbn [andb]. destruct (decide (i = k)) as [->|Hne].
    + rewrite decide_True in Hsd by lia. rewrite (proj2 (Z.ltb_lt _ _)) by done. unfold l, k in Hi. rewrite full_pred in Hi. by injection Hi as ->.
    + rewrite decide_False in Hsd by (unfold k in *; lia). rewrite (proj2 (Z.ltb_ge _ _)) by lia. apply (IH 0%nat base 0); [done |]. unfold k in *. repeat case_decide; lia.
Qed.

(** ** free() *)

Definition apart (b c : Z * Z) : Prop := b.1 + HDR * b.2 <= c.1 \/ c.1 + HDR * c.2 <= b.1.

(** The first half of free_link(): [bp] joined with the next block, or linked to it. *)
Definition link_next (bp p : Z) h : heap :=
  let n := ptr h p in
  if bp + HDR * size_ h bp =? n then set_ptr bp (ptr h n) (set_size bp (u32 (size_ h bp + size_ h n)) h) else set_ptr bp n h.
(** The second half: the block before joined with [bp], or linked to it. *)
Definition link_prev (bp p : Z) h : heap :=
  if p + HDR * size_ h p =? bp then set_ptr p (ptr h bp) (set_size p (u32 (size_ h p + size_ h bp)) h) else set_ptr p bp h.

Lemma free_link_eq bp p h : free_link bp p h = set_freep p (link_prev bp p (link_next bp p h)).
Proof. done. Qed.

(** Only the headers at [a] changed. *)
Definition only_at (a : Z) h h' : Prop :=
  (forall b, b <> a -> h'.(h_ptr) !! b = h.(h_ptr) !! b /\ h'.(h_size) !! b = h.(h_size) !! b) /\
  h'.(freep) = h.(freep) /\ h'.(brk) = h.(brk) /\ h'.(avail) = h.(avail).

Lemma only_at_ptr a x h : only_at a h (set_ptr a x h).
Proof. split_and!; try done. intros b Hb. cbn. by rewrite lookup_insert_ne. Qed.

Lemma only_at_both a x y h : only_at a h (set_ptr a x (set_size a y h)).
Proof. split_and!; try done. intros b Hb. cbn. by rewrite !lookup_insert_ne. Qed.

Lemma asc_notin lo l a : asc lo l -> a <= lo -> a ∉ l.*1.
Proof. intros Ha Hle Hin. apply list_elem_of_fmap in Hin as ([b n] & -> & Hin). destruct (asc_in _ _ _ _ Ha Hin). cbn in *. lia. Qed.

Lemma link_next_run h l2 bp p nb lim : chain h l2 base -> ptr h p = first l2 base -> h.(h_size) !! bp = Some nb ->
  base < bp -> 0 < nb -> asc (bp + HDR * nb - 1) l2 -> (forall b, b ∈ (bp, nb) :: l2 -> b.1 + HDR * b.2 <= lim) -> 0 < base -> lim <= 2 ^ 36 ->
  exists nb' l2', let h' := link_next bp p h in
  only_at bp h h' /\ h'.(h_ptr) !! bp = Some (first l2' base) /\ h'.(h_size) !! bp = Some nb' /\ chain h' l2' base /\
  asc (bp + HDR * nb') l2' /\ nb <= nb' /\ (length l2' <= length l2)%nat /\ l2' ⊆ l2 /\ bp + HDR * nb' <= lim /\
  forall x, 0 < x.2 -> apart x (bp, nb) -> (forall b, b ∈ l2 -> apart x b) -> apart x (bp, nb').
Proof.
  intros Hc Hp Hs Hb Hn Ha Hlim Hb0 Hl. assert (size_ h bp = nb) as Es by (unfold size_; by rewrite Hs). unfold link_next. rewrite Es, Hp.
  pose proof (Hlim (bp, nb) ltac:(set_solver +)) as Hlb. cbn in Hlb. destruct l2 as [|[c m] l2]; cbn [first].
  - rewrite (proj2 (Z.eqb_neq _ _)) by (unfold HDR; lia). exists nb, []. cbn zeta. split_and!; try done; [apply only_at_ptr | cbn; by rewrite lookup_insert_eq].
  - cbn in Hc, Ha. destruct Hc as (Hcp & Hcs & Hc), Ha as (Ha1 & Ha2 & Ha3). assert (bp ∉ l2.*1) as Hni by (eapply asc_notin; [exact Ha3 | unfold HDR in *; lia]).
    pose proof (Hlim (c, m) ltac:(set_solver +)) as Hlc. cbn in Hlc. assert (bp < c) as Hbc by (unfold HDR in *; lia).
    destruct (Z.eqb_spec (bp + HDR * nb) c) as [E|E].
    + assert (ptr h c = first l2 base /\ size_ h c = m) as [-> ->] by (unfold ptr, size_; by rewrite Hcp, Hcs).
      rewrite u32_small by (unfold HDR in *; lia). exists (nb + m), l2. cbn zeta. split_and!; [apply only_at_both | cbn; by rewrite lookup_insert_eq | cbn; by rewrite lookup_insert_eq | | | lia | cbn; lia | set_solver + | unfold HDR in *; lia |].
      * eapply chain_frame; [exact Hc |]. intros a Hin. assert (a <> bp) by (intros ->; done). cbn. by rewrite !lookup_insert_ne.
      * eapply asc_mono; [exact Ha3 | unfold HDR in *; lia].
      * intros [x n] Hx H1 H2. specialize (H2 (c, m) ltac:(set_solver +)). unfold apart in *. cbn in *. unfold HDR in *. lia.
    + exists nb, ((c, m) :: l2). cbn zeta. split_and!; [apply only_at_ptr | cbn; by rewrite lookup_insert_eq | done | | | lia | done | done | done | done].
      * eapply (chain_frame h); [done |]. intros a Hin. assert (a <> bp) by (intros ->; cbn in Hin; apply elem_of_cons in Hin as [->|?]; [lia | done]). cbn. by rewrite !lookup_insert_ne.
      * cbn. split_and!; [lia | done | done].
Qed.

Lemma asc_NoDup lo l : asc lo l -> NoDup (lo :: l.*1).
Proof.
  revert lo. induction l as [|[a n] l IH]; intros lo Ha; [apply NoDup_singleton |]. pose proof Ha as (H1 & H2 & H3). cbn [fmap list_fmap].
  constructor; [eapply (asc_notin lo ((a, n) :: l)); [exact Ha | lia] |]. constructor.
  - eapply asc_notin; [exact H3 | cbn; unfold HDR; lia].
  - by apply IH in H3 as ?%NoDup_cons_1_2.
Qed.

(** [full l1] ends in the block before [bp]. *)
Lemma full_snoc l1 : exists r, full l1 = r ++ [pred_of l1] /\ (pred_of l1 = (base, 0) /\ l1 = [] \/ exists l0, l1 = l0 ++ [pred_of l1] /\ r = full l0).
Proof.
  unfold full, pred_of. destruct l1 as [|x l0 _] using rev_ind; [exists []; split; [done | by left] |]. rewrite last_snoc.
  exists ((base, 0) :: l0). split; [done |]. right. by exists l0.
Qed.

Lemma elem_fst a n l : (a, n) ∈ l -> a ∈ base :: l.*1.
Proof. intros Hin. apply list_elem_of_further, list_elem_of_fmap. by exists (a, n). Qed.

Lemma pred_in l1 l2 : (pred_of l1).1 ∈ base :: (l1 ++ l2).*1.
Proof.
  unfold pred_of. destruct (last l1) as [[a n]|] eqn:E; [|apply list_elem_of_here]. apply last_Some in E as [l0 ->]. apply (elem_fst a n). set_solver +.
Qed.

Lemma link_prev_run h l1 l2 bp nb e lim : let p := (pred_of l1).1 in
  chain h (full l1) e -> asc base l1 -> (forall b, b ∈ full l1 -> b.1 + HDR * b.2 <= bp) -> base < bp -> 0 < nb -> 0 < base -> lim <= 2 ^ 36 ->
  h.(h_ptr) !! bp = Some (first l2 base) -> h.(h_size) !! bp = Some nb -> chain h l2 base -> asc (bp + HDR * nb) l2 ->
  (forall b, b ∈ (bp, nb) :: l1 ++ l2 -> b.1 + HDR * b.2 <= lim) ->
  exists l', let h' := link_prev bp p h in
  only_at p h h' /\ chain h' (full l') base /\ asc base l' /\ p ∈ base :: l'.*1 /\ (length l' <= S (length l1 + length l2))%nat /\ (exists b, b ∈ l' /\ nb <= b.2) /\ (forall b, b ∈ l' -> b.1 + HDR * b.2 <= lim) /\
  forall x, 0 < x.2 -> (forall b, b ∈ (bp, nb) :: l1 ++ l2 -> apart x b) -> forall b, b ∈ l' -> apart x b.
Proof.
  intros p Hc Ha Hle Hb Hn Hb0 Hlim Hbp Hbs Hc2 Ha2 Hl. destruct (full_snoc l1) as (r & Er & Hcase). destruct (pred_of l1) as [a n] eqn:Epr. cbn [fst] in p. subst p.
  pose proof (asc_NoDup _ _ Ha) as Hnd. change (base :: l1.*1) with ((full l1).*1) in Hnd. rewrite Er, fmap_app in Hnd. apply NoDup_app in Hnd as (_ & Hnd & _).
  rewrite Er, chain_app in Hc. destruct Hc as [Hr (Hap & Has & _)]. cbn [first] in Hr.
  pose proof (Hle (a, n) ltac:(rewrite Er; set_solver +)) as Hab. cbn in Hab.
  assert (0 <= n /\ base <= a) as [Hn0 Hba].
  { destruct Hcase as [[[= -> ->] _]|(l0 & El & _)]; [lia |]. destruct (asc_in base l1 a n Ha ltac:(rewrite El; set_solver +)). lia. }
  assert (a <= bp) as Habp by (unfold HDR in *; lia). assert (a ∉ l2.*1) as Hal2 by (eapply asc_notin; [exact Ha2 | unfold HDR; lia]).
  assert (forall h', only_at a h h' -> chain h' r a) as Hfr.
  { intros h' [Ho _]. eapply chain_frame; [exact Hr |]. intros b Hb'. apply Ho. intros ->. apply (Hnd a Hb'). set_solver +. }
  assert (forall h', only_at a h h' -> chain h' l2 base) as Hfr2.
  { intros h' [Ho _]. eapply chain_frame; [exact Hc2 |]. intros b Hb'. apply Ho. by intros ->. }
  assert (size_ h a = n /\ ptr h bp = first l2 base /\ size_ h bp = nb) as (Es & Ep & Esb) by (unfold size_, ptr; by rewrite Has, Hbp, Hbs).
  unfold link_prev. rewrite Es, Ep, Esb. destruct (Z.eqb_spec (a + HDR * n) bp) as [E|E].
  - destruct Hcase as [[[= -> ->] _]|(l0 & El & ->)]; [lia |]. pose proof (Hl (bp, nb) ltac:(set_solver +)) as Hlb. cbn in Hlb.
    destruct (asc_in base l1 a n Ha ltac:(rewrite El; set_solver +)) as [Hba' Hn']. rewrite u32_small by (unfold HDR in *; lia).
    pose proof (only_at_both a (first l2 base) (n + nb) h) as Ho. set (h' := set_ptr _ _ _) in *. exists (l0 ++ (a, n + nb) :: l2). cbn zeta. split_and!; [done | | | apply (elem_fst a (n + nb)); set_solver + | rewrite El, !length_app; cbn; lia | exists (a, n + nb); split; [set_solver + | cbn; lia] | |].
    + change (full (l0 ++ (a, n + nb) :: l2)) with (full l0 ++ (a, n + nb) :: l2). rewrite chain_app. split; [by apply Hfr |]. cbn. rewrite !lookup_insert_eq. split_and!; [done | done | by apply Hfr2].
    + rewrite El, asc_app in Ha. apply asc_app. destruct Ha as [Ha0 (Ha1 & _ & _)]. split; [done |]. split_and!; [done | lia |]. eapply asc_mono; [exact Ha2 | unfold HDR in *; lia].
    + intros b [Hb'|[->|Hb']%elem_of_cons]%elem_of_app; [apply Hl; rewrite El; set_solver | cbn; unfold HDR in *; lia | apply Hl; set_solver].
    + intros x Hx Hall b [Hb'|[->|Hb']%elem_of_cons]%elem_of_app; [apply Hall; rewrite El; set_solver | | apply Hall; set_solver].
      pose proof (Hall (a, n) ltac:(rewrite El; set_solver +)). pose proof (Hall (bp, nb) ltac:(set_solver +)). unfold apart in *. cbn in *. unfold HDR in *. lia.
  - pose proof (only_at_ptr a bp h) as Ho. set (h' := set_ptr _ _ _) in *. exists (l1 ++ (bp, nb) :: l2). cbn zeta. split_and!; [done | | | | rewrite length_app; cbn; lia | exists (bp, nb); split; [set_solver + | done] | |].
    + change (full (l1 ++ (bp, nb) :: l2)) with (full l1 ++ (bp, nb) :: l2). rewrite Er, <- app_assoc, chain_app. split; [by apply Hfr |]. cbn [app chain first].
      destruct Ho as [Ho _]. destruct (Ho bp ltac:(unfold HDR in *; lia)) as [-> ->]. cbn. rewrite lookup_insert_eq. split_and!; try done. by apply Hfr2, only_at_ptr.
    + apply asc_app. split; [done |]. destruct Hcase as [[[= -> ->] ->]|(l0 & El & _)]; [cbn; split_and!; done |]. rewrite El, last_snoc. cbn. split_and!; [lia | done | done].
    + destruct Hcase as [[[= -> ->] _]|(l0 & El & _)]; [apply list_elem_of_here |]. apply (elem_fst a n). rewrite El. set_solver +.
    + intros b Hb'. apply Hl. set_solver.
    + intros x Hx Hall b Hb'. apply Hall. set_solver.
Qed.

Lemma chain_size h l e : chain h l e -> NoDup l.*1 -> (length l <= size h.(h_ptr))%nat.
Proof.
  intros Hc Hnd. rewrite <- (length_fmap fst l), <- (size_list_to_set (C := gset Z)) by done. rewrite <- (size_dom (D := gset Z) h.(h_ptr)).
  apply subseteq_size. intros a Ha%elem_of_list_to_set. clear Hnd. induction l as [|[b n] l IH]; [set_solver |]. cbn in Ha. destruct Hc as (Hp & _ & Hc).
  apply elem_of_cons in Ha as [->|Ha]; [by apply elem_of_dom_2 in Hp | by apply IH].
Qed.

Lemma apart_ne x b : apart x b -> 0 < x.2 -> 0 < b.2 -> x.1 <> b.1.
Proof. unfold apart, HDR. lia. Qed.

(** free() of a block that is apart from every free block. *)
Lemma free_run h l bp nb : ring h l -> 0 < base -> h.(brk) <= 2 ^ 36 -> h.(h_size) !! bp = Some nb -> base < bp -> 0 < nb -> bp + HDR * nb <= h.(brk) ->
  (forall b, b ∈ l -> apart (bp, nb) b /\ b.1 + HDR * b.2 <= h.(brk)) ->
  exists h' l', free (bp + HDR) h = Some h' /\ ring h' l' /\ h'.(brk) = h.(brk) /\ h'.(avail) = h.(avail) /\
    (length l' <= S (length l))%nat /\ (exists b, b ∈ l' /\ nb <= b.2) /\ (forall b, b ∈ l' -> b.1 + HDR * b.2 <= h.(brk)) /\ (forall a, a <> bp -> a <> base -> a ∉ l.*1 -> h'.(h_size) !! a = h.(h_size) !! a) /\
    forall x, 0 < x.2 -> apart x (bp, nb) -> (forall b, b ∈ l -> apart x b) -> forall b, b ∈ l' -> apart x b.
Proof.
  intros [Hc Ha Hf] Hb0 Hbrk Hs Hb Hn Hlim Hall. fold (full l) in Hc.
  assert (bp ∉ l.*1) as Hni.
  { intros ([a n] & -> & Hin)%list_elem_of_fmap. destruct (Hall _ Hin) as [Hap _]. destruct (asc_in _ _ _ _ Ha Hin). by apply apart_ne in Hap. }
  destruct (asc_split base l bp Ha Hni) as (l1 & l2 & -> & H1 & H2). pose proof Ha as Ha0. apply asc_app in Ha0 as [Ha1 Ha2].
  assert (free_find (ring_fuel h) h bp h.(freep) = Some (pred_of l1).1) as Hfind.
  { change (base :: (l1 ++ l2).*1) with ((full (l1 ++ l2)).*1) in Hf. apply list_elem_of_fmap in Hf as ([a n] & -> & [i Hi]%list_elem_of_lookup).
    eapply free_find_run; try done. pose proof (chain_size _ _ _ Hc (asc_NoDup _ _ Ha)) as Hsz. cbn in Hsz. unfold ring_fuel. rewrite length_app in *.
    case_decide; lia. }
  unfold free. rewrite Z.add_simpl_r, Hfind, free_link_eq.
  change (full (l1 ++ l2)) with (full l1 ++ l2) in Hc. pose proof Hc as Hcc. rewrite chain_app in Hcc. destruct Hcc as [Hc1 Hc2].
  destruct (link_next_run h l2 bp (pred_of l1).1 nb h.(brk) Hc2) as (nb' & l2' & Ho & Hp' & Hs' & Hc2' & Ha2' & Hn' & Hll & Hsub & Hlim' & Hap'); try done.
  { pose proof (full_pred l1 l2) as E. destruct (pred_of l1) as [a n]. cbn [fst]. destruct (chain_ptr _ _ _ _ _ _ Hc E) as [-> _].
    change (full (l1 ++ l2)) with (full l1 ++ l2). unfold full. cbn [app drop]. by rewrite drop_app_length. }
  { destruct l2 as [|[c m] l2]; cbn in *; [done |]. destruct Ha2 as (_ & Hm & Ha2). split_and!; [|done..]. specialize (H2 c m ltac:(set_solver +)).
    destruct (Hall (c, m) ltac:(set_solver +)) as [Hap _]. unfold apart in Hap. cbn in Hap. unfold HDR in *. lia. }
  { intros b [->|Hb']%elem_of_cons; [done |]. apply Hall. set_solver. }
  set (h1 := link_next bp _ h) in *. destruct Ho as (Ho & Hof & Hobrk & Hoa).
  destruct (link_prev_run h1 l1 l2' bp nb' (first l2 base) h.(brk)) as (l' & Ho2 & Hc' & Ha' & Hpin & Hll2 & Hbig & Hlim2 & Hap2); try done; try lia.
  { eapply chain_frame; [exact Hc1 |]. intros a Hin. apply Ho. intros ->. apply elem_of_cons in Hin as [->|Hin]; [cbn in *; lia |]. apply Hni. rewrite fmap_app. set_solver. }
  { intros [a n] Hin. cbn. apply elem_of_cons in Hin as [[= -> ->]|Hin]; [lia |]. specialize (H1 a n Hin). destruct (Hall (a, n) ltac:(set_solver)) as [Hap _].
    destruct (asc_in _ _ _ _ Ha1 Hin). unfold apart in Hap. cbn in Hap. unfold HDR in *. lia. }
  { intros b [->|[Hb'|Hb']%elem_of_app]%elem_of_cons; [done | apply Hall; set_solver | apply Hall; set_solver]. }
  set (h2 := link_prev bp _ h1) in *. destruct Ho2 as (Ho2 & _ & Hbrk2 & Hav2). exists (set_freep (pred_of l1).1 h2), l'. split_and!; try done.
  - constructor; [eapply chain_frame; [exact Hc' | done] | done | exact Hpin].
  - cbn. congruence.
  - cbn. congruence.
  - rewrite length_app. lia.
  - destruct Hbig as (b & Hb' & Hbn). exists b. split; [done | lia].
  - intros a Hne Hnb Hnl. cbn. destruct (Ho2 a) as [_ ->].
    { intros ->. destruct (full_snoc l1) as (r & _ & [[E _]|(l0 & E & _)]); [rewrite E in Hnb; done |]. apply Hnl, list_elem_of_fmap.
      exists (pred_of l1). split; [done |]. apply elem_of_app. left. rewrite E at 2. set_solver +. }
    by destruct (Ho a Hne) as [_ ->].
  - intros x Hx Hxb Hxl. apply Hap2; [done |]. intros b [->|[Hb'|Hb']%elem_of_app]%elem_of_cons; [|apply Hxl; set_solver | apply Hxl; set_solver].
    apply Hap'; [done | done |]. intros b Hb'. apply Hxl. set_solver.
Qed.

(** ** The invariant of the heap *)

(** [l] are the free blocks, [A] the blocks given out, with their headers. *)
Record heap_ok h l (A : list (Z * Z)) : Prop := {
  hk_base : 0 < base;
  hk_limit : h.(brk) + h.(avail) <= 2 ^ 36;
  hk_avail : 0 <= h.(avail);
  hk_brk : base < h.(brk);
  hk_ring : ring h l;
  hk_free b : b ∈ l -> b.1 + HDR * b.2 <= h.(brk);
  hk_alloc b : b ∈ A -> base < b.1 /\ 0 < b.2 /\ b.1 + HDR * b.2 <= h.(brk) /\ h.(h_size) !! b.1 = Some b.2;
  hk_apart b c : b ∈ A -> c ∈ l -> apart b c;
  hk_disjoint i j b c : i <> j -> A !! i = Some b -> A !! j = Some c -> apart b c;
}.

Lemma apart_sym b c : apart b c -> apart c b.
Proof. unfold apart. tauto. Qed.

Lemma pos_in h l b : ring h l -> b ∈ l -> base < b.1 /\ 0 < b.2.
Proof. intros [_ Ha _]. destruct b as [a n]. by apply asc_in. Qed.

(** A block that is not free is not the address of a free header. *)
Lemma apart_notin h l b : ring h l -> 0 < b.2 -> base < b.1 -> (forall c, c ∈ l -> apart b c) -> b.1 <> base /\ b.1 ∉ l.*1.
Proof.
  intros Hr Hb Hbb Hap. split; [lia |]. intros (c & E & Hin)%list_elem_of_fmap. apply (apart_ne b c); [by apply Hap | done | by eapply pos_in | done].
Qed.

Lemma delete_elem {A} i (l : list A) b x : l !! i = Some b -> x ∈ delete i l -> exists j, j <> i /\ l !! j = Some x.
Proof.
  intros Hi [j Hj]%list_elem_of_lookup. destruct (decide (j < i)%nat).
  - rewrite list_lookup_delete_lt in Hj by done. exists j. split; [lia | done].
  - rewrite list_lookup_delete_ge in Hj by lia. exists (S j). split; [lia | done].
Qed.

Lemma delete_disjoint (A : list (Z * Z)) k : (forall i j b c, i <> j -> A !! i = Some b -> A !! j = Some c -> apart b c) ->
  forall i j b c, i <> j -> delete k A !! i = Some b -> delete k A !! j = Some c -> apart b c.
Proof.
  intros H i j b c Hij. set (f := fun i => if decide (i < k)%nat then i else S i).
  assert (forall i, delete k A !! i = A !! f i) as E.
  { intros m. unfold f. case_decide; [by apply list_lookup_delete_lt | apply list_lookup_delete_ge; lia]. }
  rewrite !E. apply H. unfold f. repeat case_decide; lia.
Qed.

(** free() of a block given out gives it back. *)
Lemma free_ok h l A i b : heap_ok h l A -> A !! i = Some b -> exists h' l', free (b.1 + HDR) h = Some h' /\ heap_ok h' l' (delete i A) /\
    h'.(brk) = h.(brk) /\ h'.(avail) = h.(avail) /\ (length l' <= S (length l))%nat /\ exists c, c ∈ l' /\ b.2 <= c.2.
Proof.
  intros [Hb0 Hl Hav Hbr Hr Hf Ha Hap Hd] Hi. assert (b ∈ A) as Hin by (by eapply list_elem_of_lookup_2). destruct (Ha b Hin) as (H1 & H2 & H3 & H4).
  destruct (free_run h l b.1 b.2) as (h' & l' & E & Hr' & Ebr & Eav & Hlen & Hbig & Hf' & Hsz & Hpre); try done; [lia | |].
  { intros c Hc. split; [|by apply Hf]. specialize (Hap b c Hin Hc). by destruct b. }
  exists h', l'. split_and!; try done. constructor; rewrite ?Ebr, ?Eav; try done.
  - intros c Hc. destruct (delete_elem _ _ _ _ Hi Hc) as (j & Hj & Hcj). destruct (Ha c ltac:(by eapply list_elem_of_lookup_2)) as (G1 & G2 & G3 & G4).
    split_and!; try done. destruct (apart_notin h l c Hr G2 G1) as [? ?]; [intros d Hd'; apply Hap; [by eapply list_elem_of_lookup_2 | done] |].
    rewrite Hsz; try done. apply apart_ne; [by apply (Hd j i) | done | done].
  - intros c d Hc Hd'. destruct (delete_elem _ _ _ _ Hi Hc) as (j & Hj & Hcj). assert (c ∈ A) as HcA by (by eapply list_elem_of_lookup_2).
    apply Hpre; [by apply Ha | | by intros; apply Hap | done]. destruct b as [a n]. by apply (Hd j i).
  - by apply delete_disjoint.
Qed.

(** Headers of other blocks do not matter. *)
Lemma heap_ok_frame h h' l A : heap_ok h l A ->
  (forall a, a ∈ base :: l.*1 -> h'.(h_ptr) !! a = h.(h_ptr) !! a /\ h'.(h_size) !! a = h.(h_size) !! a) ->
  (forall b, b ∈ A -> h'.(h_size) !! b.1 = h.(h_size) !! b.1) -> h'.(freep) ∈ base :: l.*1 ->
  h.(brk) <= h'.(brk) -> h'.(brk) + h'.(avail) <= h.(brk) + h.(avail) -> 0 <= h'.(avail) -> heap_ok h' l A.
Proof.
  intros [Hb0 Hl Hav Hbr Hr Hf Ha Hap Hd] H1 H2 Hfr H3 H4 H5. constructor; try done; try lia.
  - constructor; [|apply Hr | done]. eapply chain_frame; [apply Hr | done].
  - intros b Hb. specialize (Hf b Hb). lia.
  - intros b Hb. destruct (Ha b Hb) as (? & ? & ? & ?). rewrite H2 by done. split_and!; [done | done | lia | done].
Qed.

(** A block that overlaps no other may be given out. *)
Lemma heap_ok_cons h l A b : heap_ok h l A -> base < b.1 -> 0 < b.2 -> b.1 + HDR * b.2 <= h.(brk) -> h.(h_size) !! b.1 = Some b.2 ->
  (forall c, c ∈ l -> apart b c) -> (forall c, c ∈ A -> apart b c) -> heap_ok h l (b :: A).
Proof.
  intros [Hb0 Hl Hav Hbr Hr Hf Ha Hap Hd] H1 H2 H3 H4 H5 H6. constructor; try done.
  - intros c [->|Hc]%elem_of_cons; [done | by apply Ha].
  - intros c d [->|Hc]%elem_of_cons; [apply H5 | by apply Hap].
  - intros [|i] [|j] c d Hij Hi Hj; cbn in *; simplify_eq.
    + by eapply H6, list_elem_of_lookup_2.
    + by eapply apart_sym, H6, list_elem_of_lookup_2.
    + eapply Hd; [|done..]. congruence.
Qed.

(** morecore(): nothing, or a free block that is large enough. *)
Lemma morecore_ok h l A nunits : heap_ok h l A -> let nu := Z.max nunits 4096 in nu * HDR < 2 ^ 31 ->
  if h.(avail) <? nu * HDR then morecore nunits h = Some (0, h)
  else exists h' l', morecore nunits h = Some (h'.(freep), h') /\ heap_ok h' l' A /\ h'.(brk) = h.(brk) + nu * HDR /\ h'.(avail) = h.(avail) - nu * HDR /\
    (length l' <= S (length l))%nat /\ exists c, c ∈ l' /\ nunits <= c.2.
Proof.
  intros Hok nu Hnu. unfold morecore. replace (if nunits <? 4096 then 4096 else nunits) with nu by (unfold nu; destruct (Z.ltb_spec nunits 4096); lia).
  assert (4096 <= nu) by lia. rewrite s32_small by (unfold HDR in *; lia). unfold sbrk. pose proof Hok as [Hb0 Hl Hav Hbr Hr Hf Ha Hap Hd].
  destruct (Z.ltb_spec h.(avail) (nu * HDR)) as [Hlt|Hge]; [done |]. rewrite (proj2 (Z.ltb_ge (h.(brk) + _) 0)) by (unfold HDR; lia).
  rewrite (proj2 (Z.eqb_neq h.(brk) (-1))) by lia. set (h1 := set_size _ _ _).
  assert (heap_ok h1 l A) as Hok1.
  { eapply heap_ok_frame; [exact Hok | | | apply Hr | cbn; unfold HDR; lia | cbn; lia | cbn; lia].
    - intros a Ha'. split; [done |]. cbn. rewrite lookup_insert_ne; [done |]. apply elem_of_cons in Ha' as [->|(b & -> & Hb)%list_elem_of_fmap]; [lia |].
      specialize (Hf b Hb). destruct (pos_in h l b Hr Hb). unfold HDR in *. lia.
    - intros b Hb. cbn. rewrite lookup_insert_ne; [done |]. destruct (Ha b Hb) as (? & ? & ? & _). unfold HDR in *. lia. }
  assert (heap_ok h1 l ((h.(brk), nu) :: A)) as Hok2.
  { apply heap_ok_cons; try done; cbn; [lia | unfold HDR; lia | by rewrite lookup_insert_eq | |].
    - intros c Hc. right. by apply Hf.
    - intros c Hc. right. by apply Ha. }
  destruct (free_ok h1 l _ 0 (h.(brk), nu) Hok2 ltac:(done)) as (h' & l' & E & Hok' & Ebr & Eav & Hlen & c & Hc & Hcn). cbn [fst snd] in *. rewrite E.
  exists h', l'. split_and!; try done. exists c. split; [done | lia].
Qed.

(** ** malloc() *)

(** Taking a whole block out of the list. *)
Lemma ring_take h l1 l2 a n : ring h (l1 ++ (a, n) :: l2) -> let p := (pred_of l1).1 in ring (set_freep p (set_ptr p (ptr h a) h)) (l1 ++ l2).
Proof.
  intros [Hc Ha _] p. change (chain h (full l1 ++ (a, n) :: l2) base) in Hc. rewrite chain_app in Hc. cbn [chain first] in Hc. destruct Hc as (Hc1 & Hp & Hs & Hc2).
  unfold ptr. rewrite Hp. cbn [default]. rewrite asc_app in Ha. destruct Ha as (Ha1 & Ha2 & Hn & Ha3).
  destruct (full_snoc l1) as (r & Er & Hcase). destruct (pred_of l1) as [b m] eqn:Epr. cbn [fst] in p. subst p.
  pose proof (asc_NoDup _ _ Ha1) as Hnd. change (base :: l1.*1) with ((full l1).*1) in Hnd. rewrite Er, fmap_app in Hnd. apply NoDup_app in Hnd as (_ & Hnd & _).
  rewrite Er, chain_app in Hc1. destruct Hc1 as [Hr (Hbp & Hbs & _)]. cbn [first] in Hr.
  assert (b < a) as Hba.
  { destruct Hcase as [[[= -> ->] ->]|(l0 & El & _)]; [done |]. rewrite El, last_snoc in Ha2. destruct (asc_in base l1 b m Ha1 ltac:(rewrite El; set_solver +)). unfold HDR in *. lia. }
  constructor.
  - change (chain (set_freep b (set_ptr b (first l2 base) h)) (full l1 ++ l2) base). rewrite Er, <- app_assoc, chain_app. split.
    + eapply chain_frame; [exact Hr |]. intros c Hc. split; [|done]. cbn. rewrite lookup_insert_ne; [done |]. intros ->. apply (Hnd c Hc). set_solver +.
    + cbn. rewrite lookup_insert_eq. split_and!; [done | done |]. eapply chain_frame; [exact Hc2 |]. intros c Hc. split; [|done]. cbn. rewrite lookup_insert_ne; [done |].
      intros ->. eapply (asc_notin _ _ c Ha3); [unfold HDR; lia | done].
  - apply asc_app. split; [done |]. eapply asc_mono; [exact Ha3 |]. unfold HDR in *. lia.
  - cbn. destruct Hcase as [[[= -> ->] _]|(l0 & El & _)]; [apply list_elem_of_here |]. apply (elem_fst b m). rewrite El. set_solver +.
Qed.

(** Shortening a free block. *)
Lemma ring_cut h l1 l2 a n k : ring h (l1 ++ (a, n) :: l2) -> 0 < k -> k <= n -> ring (set_size a k h) (l1 ++ (a, k) :: l2).
Proof.
  intros [Hc Ha Hf] Hk Hkn. change (chain h (full l1 ++ (a, n) :: l2) base) in Hc. rewrite chain_app in Hc. cbn [chain first] in Hc. destruct Hc as (Hc1 & Hp & Hs & Hc2).
  pose proof (asc_NoDup _ _ Ha) as Hnd. change (base :: (l1 ++ (a, n) :: l2).*1) with ((full (l1 ++ (a, n) :: l2)).*1) in Hnd. unfold full in Hnd. rewrite app_comm_cons, fmap_app in Hnd.
  apply NoDup_app in Hnd as (_ & Hnd & Hnd2). cbn in Hnd2. apply NoDup_cons_1_1 in Hnd2. rewrite asc_app in Ha. destruct Ha as (Ha1 & Ha2 & Hn & Ha3). constructor.
  - change (chain (set_size a k h) (full l1 ++ (a, k) :: l2) base). rewrite chain_app. split.
    + eapply chain_frame; [exact Hc1 |]. intros c Hc. split; [done |]. cbn. rewrite lookup_insert_ne; [done |]. intros ->. apply (Hnd c Hc). set_solver +.
    + cbn. rewrite lookup_insert_eq. split_and!; [done | done |]. eapply chain_frame; [exact Hc2 |]. intros c Hc. split; [done |]. cbn. rewrite lookup_insert_ne; [done |]. by intros ->.
  - apply asc_app. split; [done |]. split_and!; [done | done |]. eapply asc_mono; [exact Ha3 |]. unfold HDR. lia.
  - cbn. rewrite fmap_app in *. exact Hf.
Qed.

Lemma asc_above lo l b : asc lo l -> b ∈ l -> lo < b.1.
Proof. destruct b as [a n]. intros Ha Hb. by destruct (asc_in _ _ _ _ Ha Hb). Qed.

Lemma asc_below lo l c : asc lo l -> c ∈ l -> c.1 + HDR * c.2 <= match last l with Some (a, n) => a + HDR * n | None => lo end.
Proof.
  revert lo. induction l as [|[a n] l IH]; intros lo Ha Hc; [set_solver |]. cbn in Ha. destruct Ha as (H1 & H2 & H3). rewrite last_cons.
  apply elem_of_cons in Hc as [->|Hc].
  - cbn. destruct (last l) as [[b m]|] eqn:El; [|done]. apply last_Some_elem_of in El. destruct (asc_in _ _ _ _ H3 El). unfold HDR in *. lia.
  - specialize (IH _ H3 Hc). by destruct (last l) as [[b m]|].
Qed.

(** Free blocks do not overlap. *)
Lemma asc_apart lo l1 l2 a n c : asc lo (l1 ++ (a, n) :: l2) -> c ∈ l1 ++ l2 -> apart c (a, n).
Proof.
  rewrite asc_app. intros (Ha1 & Ha2 & Hn & Ha3) [Hc|Hc]%elem_of_app.
  - left. cbn. pose proof (asc_below _ _ _ Ha1 Hc). lia.
  - right. cbn. pose proof (asc_above _ _ _ Ha3 Hc). lia.
Qed.

(** The whole block is given out. *)
Lemma take_whole h l1 l2 a n A : heap_ok h (l1 ++ (a, n) :: l2) A ->
  let p := (pred_of l1).1 in heap_ok (set_freep p (set_ptr p (ptr h a) h)) (l1 ++ l2) ((a, n) :: A).
Proof.
  intros [Hb0 Hl Hav Hbr Hr Hf Ha Hap Hd] p. assert ((a, n) ∈ l1 ++ (a, n) :: l2) as Hin by set_solver +.
  assert (forall c, c ∈ l1 ++ l2 -> c ∈ l1 ++ (a, n) :: l2) as Hsub by set_solver +. destruct (pos_in _ _ _ Hr Hin). apply heap_ok_cons; try done.
  - constructor; try done; [by eapply ring_take | intros b Hb; by apply Hf, Hsub | intros b c Hb Hc; by apply Hap, Hsub].
  - cbn. apply (Hf _ Hin).
  - destruct Hr as [Hc _ _]. change (chain h (full l1 ++ (a, n) :: l2) base) in Hc. rewrite chain_app in Hc. apply Hc.
  - intros c Hc. apply apart_sym. eapply asc_apart; [apply Hr | done].
  - intros c Hc. by apply apart_sym, Hap.
Qed.

(** The end of the block is given out. *)
Lemma take_end h l1 l2 a n A nu : heap_ok h (l1 ++ (a, n) :: l2) A -> 0 < nu -> nu < n -> let q := a + HDR * (n - nu) in let p := (pred_of l1).1 in
  heap_ok (set_freep p (set_size q nu (set_size a (n - nu) h))) (l1 ++ (a, n - nu) :: l2) ((q, nu) :: A).
Proof.
  intros Hok Hnu Hlt q p. pose proof Hok as [Hb0 Hl Hav Hbr Hr Hf Ha Hap Hd]. assert ((a, n) ∈ l1 ++ (a, n) :: l2) as Hin by set_solver +.
  destruct (pos_in _ _ _ Hr Hin) as [Hba _]. cbn in Hba. pose proof (Hf _ Hin) as Hend. cbn in Hend. assert (a < q) as Haq by (unfold q, HDR; lia).
  assert (forall c, c ∈ l1 ++ l2 -> apart c (a, n) /\ 0 < c.2 /\ base < c.1) as Hother.
  { intros c Hc. split; [eapply asc_apart; [apply Hr | done] |]. destruct (pos_in h _ c Hr) as [? ?]; [set_solver |]. done. }
  assert (forall c, c ∈ A -> apart c (a, n) /\ 0 < c.2 /\ base < c.1) as HotherA by (intros c Hc; destruct (Ha c Hc) as (? & ? & _); split; [by apply Hap | done]).
  assert (forall c, apart c (a, n) -> 0 < c.2 -> c.1 <> q /\ c.1 <> a /\ apart c (q, nu) /\ apart c (a, n - nu)) as Hne.
  { intros c [Hc|Hc] Hc2; cbn in Hc; unfold apart, q, HDR in *; cbn; split_and!; lia. }
  assert (heap_ok (set_size a (n - nu) h) (l1 ++ (a, n - nu) :: l2) A) as Hok1.
  { constructor; try done; [apply (ring_cut h l1 l2 a n); [done | lia..] | | | ].
    - intros b [Hb|[->|Hb]%elem_of_cons]%elem_of_app; [apply Hf; set_solver | cbn; unfold HDR in *; lia | apply Hf; set_solver].
    - intros b Hb. destruct (HotherA b Hb) as (Hb1 & Hb2 & _). destruct (Hne b Hb1 Hb2) as (_ & ? & _). cbn. rewrite lookup_insert_ne by done. by apply Ha.
    - intros b c Hb [Hc|[->|Hc]%elem_of_cons]%elem_of_app; [apply Hap; set_solver | | apply Hap; set_solver]. destruct (HotherA b Hb) as (Hb1 & Hb2 & _). by apply Hne. }
  apply heap_ok_cons; [| cbn; lia | done | cbn; unfold q, HDR in *; lia | cbn; by rewrite lookup_insert_eq | |].
  - eapply heap_ok_frame; [exact Hok1 | | | | done | done | done].
    + intros b Hb. split; [done |]. cbn. rewrite lookup_insert_ne; [done |]. intros <-. apply elem_of_cons in Hb as [Hb|([c m] & Ec & Hc)%list_elem_of_fmap]; [lia |].
      cbn in Ec. apply elem_of_app in Hc as [Hc|[[= -> ->]|Hc]%elem_of_cons]; [|lia|]; (destruct (Hother (c, m)) as (H1 & H2 & _); [apply elem_of_app; tauto |]; destruct (Hne _ H1 H2) as (H3 & _); cbn in H3; lia).
    + intros b Hb. destruct (HotherA b Hb) as (Hb1 & Hb2 & _). destruct (Hne b Hb1 Hb2) as (? & _). cbn. by rewrite lookup_insert_ne.
    + apply pred_in.
  - intros c [Hc|[->|Hc]%elem_of_cons]%elem_of_app; apply apart_sym; [destruct (Hother c) as (? & ? & _); [apply elem_of_app; tauto |]; by apply Hne | left; cbn; unfold q, HDR; lia |
      destruct (Hother c) as (? & ? & _); [apply elem_of_app; tauto |]; by apply Hne].
  - intros c Hc. destruct (HotherA c Hc) as (? & ? & _). by apply apart_sym, Hne.
Qed.

Lemma take_ok h l1 l2 a n A nu : heap_ok h (l1 ++ (a, n) :: l2) A -> 0 < nu -> nu <= n ->
  exists q h' l', malloc_take nu (pred_of l1).1 a h = (q + HDR, h') /\ heap_ok h' l' ((q, nu) :: A) /\ h'.(brk) = h.(brk) /\ h'.(avail) = h.(avail).
Proof.
  intros Hok Hnu Hle. assert (size_ h a = n) as Es.
  { destruct Hok as [_ _ _ _ [Hc _ _] _ _ _ _]. change (chain h (full l1 ++ (a, n) :: l2) base) in Hc. rewrite chain_app in Hc. cbn in Hc. unfold size_. by destruct Hc as (_ & _ & -> & _). }
  unfold malloc_take. rewrite Es. destruct (Z.eqb_spec n nu) as [->|Hne].
  - eexists a, _, _. split; [done |]. split; [by apply take_whole | done].
  - assert (size_ (set_size a (n - nu) h) a = n - nu) as -> by (unfold size_; cbn; by rewrite lookup_insert_eq).
    eexists _, _, _. split; [done |]. split; [apply take_end; [done | done | lia] | done].
Qed.

(** The [k]-th block of the ring, counting on past its end. *)
Definition blk l (k : nat) : Z * Z := full l !!! (k mod S (length l))%nat.

Lemma blk_lookup l k : full l !! (k mod S (length l))%nat = Some (blk l k).
Proof. apply list_lookup_lookup_total_lt. apply (Nat.mod_upper_bound k (S (length l))). lia. Qed.

Lemma mod_next k n : (S k mod S n = if decide (k mod S n = n) then 0 else S (k mod S n))%nat.
Proof.
  rewrite <- Nat.add_1_r, <- Nat.Div0.add_mod_idemp_l. pose proof (Nat.mod_upper_bound k (S n) ltac:(lia)). case_decide as E.
  - rewrite E, Nat.add_1_r. apply Nat.Div0.mod_same.
  - rewrite Nat.mod_small; lia.
Qed.

Lemma blk_next h l k : ring h l -> ptr h (blk l k).1 = (blk l (S k)).1 /\ size_ h (blk l k).1 = (blk l k).2.
Proof.
  intros [Hc _ _]. pose proof (blk_lookup l k) as E. destruct (blk l k) as [a n]. cbn [fst snd]. destruct (chain_ptr _ _ _ _ _ _ Hc E) as [-> ->]. split; [|done]. cbn [drop].
  unfold blk. rewrite mod_next. case_decide as Ek; [by rewrite Ek, drop_ge |]. pose proof (Nat.mod_upper_bound k (S (length l)) ltac:(lia)).
  destruct (lookup_lt_is_Some_2 l (k mod S (length l))) as [[b m] Eb]; [lia |]. rewrite (drop_S _ _ _ Eb). cbn [first]. by rewrite (list_lookup_total_correct (full l) (S _) (b, m) Eb).
Qed.

Lemma blk_inj l j k : asc base l -> (blk l j).1 = (blk l k).1 -> (j mod S (length l) = k mod S (length l))%nat.
Proof.
  intros Ha E. eapply NoDup_lookup; [apply (asc_NoDup _ _ Ha) | |].
  - change (base :: l.*1) with (full l).*1. by rewrite list_lookup_fmap, blk_lookup.
  - change (base :: l.*1) with (full l).*1. rewrite list_lookup_fmap, blk_lookup. cbn. by rewrite E.
Qed.

(** A block of positive size is not [base]; the block before it is its predecessor in the list. *)
Lemma blk_split l k : 0 < (blk l (S k)).2 -> exists l1 l2, l = l1 ++ blk l (S k) :: l2 /\ pred_of l1 = blk l k.
Proof.
  intros Hpos. pose proof (blk_lookup l (S k)) as E. rewrite mod_next in E. case_decide as Ek; [cbn in E; injection E as E; rewrite <- E in Hpos; cbn in Hpos; lia |].
  set (i := (k mod S (length l))%nat) in *. change (l !! i = Some (blk l (S k))) in E. exists (take i l), (drop (S i) l). pose proof (lookup_lt_Some _ _ _ E). split; [by rewrite take_drop_middle |].
  pose proof (full_pred (take i l) (drop i l)) as Ep. rewrite take_drop, length_take_le in Ep by lia. pose proof (blk_lookup l k) as Eb. fold i in Eb. congruence.
Qed.

(** One turn of malloc()'s loop round the ring, from the block after freep: a block that is large
    enough, or the call of morecore() after all were too small. *)
Lemma malloc_scan h l f nu : ring h l -> h.(freep) = (blk l f).1 -> (f < S (length l))%nat -> forall r t fuel,
  (t + r = S (length l))%nat -> (0 < r)%nat -> (r <= fuel)%nat ->
  (exists k, nu <= (blk l (S k)).2 /\ malloc_loop fuel nu (blk l (f + t)).1 (blk l (S (f + t))).1 h = Some (malloc_take nu (blk l k).1 (blk l (S k)).1 h)) \/
  (forall i, (t <= i < S (length l))%nat -> (blk l (S (f + i))).2 < nu) /\
  malloc_loop fuel nu (blk l (f + t)).1 (blk l (S (f + t))).1 h =
    match morecore nu h with None => None | Some (p, h') => if p =? 0 then Some (0, h') else malloc_loop (fuel - r) nu p (ptr h' p) h' end.
Proof.
  intros Hr Hf Hfl. induction r as [|r IH]; intros t [|fuel] Ht Hr0 Hfu; try lia. cbn [malloc_loop]. destruct (blk_next h l (S (f + t)) Hr) as [Ep Es].
  rewrite Es, Ep. destruct (Z.leb_spec nu (blk l (S (f + t))).2) as [Hle|Hlt]; [left; by exists (f + t)%nat |].
  assert ((blk l (S (f + t))).1 =? h.(freep) = bool_decide (r = 0)%nat) as ->.
  { rewrite Hf. case_bool_decide as E.
    - apply Z.eqb_eq. unfold blk. replace (S (f + t)) with (f + 1 * S (length l))%nat by lia. by rewrite Nat.Div0.mod_add.
    - apply Z.eqb_neq. intros Eb%blk_inj; [|apply Hr]. rewrite (Nat.mod_small f) in Eb by done. destruct (decide (S (f + t) < S (length l))%nat); [rewrite Nat.mod_small in Eb; lia |].
      rewrite (Nat.mod_eq (S (f + t)) (S (length l))) in Eb by lia. assert ((S (f + t) / S (length l))%nat = 1%nat) as E1 by (symmetry; apply (Nat.div_unique _ _ _ (S (f + t) - S (length l))); lia). rewrite E1 in Eb. lia. }
  case_bool_decide as E.
  - subst r. right. split; [intros i Hi; assert (i = t) as -> by lia; done |]. rewrite Nat.sub_succ, Nat.sub_0_r. done.
  - rewrite plus_n_Sm. rewrite Nat.sub_succ. destruct (IH (S t) fuel) as [Hk|[Hall He]]; [lia | lia | lia | by left |]. right. split; [|exact He].
    intros i Hi. destruct (decide (i = t)) as [->|]; [done |]. apply Hall. lia.
Qed.

Lemma freep_blk h l : ring h l -> exists f, (f < S (length l))%nat /\ h.(freep) = (blk l f).1.
Proof.
  intros [_ _ Hf]. change (base :: l.*1) with (full l).*1 in Hf. apply list_elem_of_fmap in Hf as (b & -> & [f Hf]%list_elem_of_lookup). exists f.
  pose proof (lookup_lt_Some _ _ _ Hf) as Hlt. split; [done |]. pose proof (blk_lookup l f) as E. rewrite Nat.mod_small in E by done. congruence.
Qed.

(** One turn of the loop, started at the block after freep. *)
Lemma malloc_turn h l A nu fuel : heap_ok h l A -> 0 < nu -> (S (length l) <= fuel)%nat ->
  (exists q h' l', malloc_loop fuel nu h.(freep) (ptr h h.(freep)) h = Some (q + HDR, h') /\ heap_ok h' l' ((q, nu) :: A) /\ h'.(brk) = h.(brk) /\ h'.(avail) = h.(avail)) \/
  (forall b, b ∈ l -> b.2 < nu) /\
  malloc_loop fuel nu h.(freep) (ptr h h.(freep)) h =
    match morecore nu h with None => None | Some (p, h') => if p =? 0 then Some (0, h') else malloc_loop (fuel - S (length l)) nu p (ptr h' p) h' end.
Proof.
  intros Hok Hnu Hfu. pose proof (hk_ring _ _ _ Hok) as Hr. destruct (freep_blk h l Hr) as (f & Hf & Ef). destruct (blk_next h l f Hr) as [Ep _].
  pose proof (malloc_scan h l f nu Hr Ef Hf (S (length l)) 0 fuel ltac:(lia) ltac:(lia) Hfu) as Hs. rewrite Nat.add_0_r in Hs. rewrite Ef, Ep.
  destruct Hs as [(k & Hk & E)|[Hall E]]; [left | right].
  - destruct (blk_split l k ltac:(lia)) as (l1 & l2 & El & Epr). destruct (blk l (S k)) as [a n] eqn:Eb. cbn [fst snd] in *. rewrite El in Hok.
    destruct (take_ok h l1 l2 a n A nu Hok Hnu Hk) as (q & h' & l' & Et & Hok'). rewrite Epr in Et. exists q, h', l'. rewrite E, Et. done.
  - split; [|exact E]. intros b [j Hj]%list_elem_of_lookup. pose proof (lookup_lt_Some _ _ _ Hj). assert (exists i, (i < S (length l))%nat /\ (S (f + i) mod S (length l) = S j)%nat) as (i & Hi & Ei).
    { destruct (decide (f <= j)%nat); [exists (j - f)%nat; split; [lia | rewrite Nat.mod_small; lia] |]. exists (S (length l) + j - f)%nat. split; [lia |].
      replace (S (f + (S (length l) + j - f))) with (S j + 1 * S (length l))%nat by lia. rewrite Nat.Div0.mod_add. apply Nat.mod_small. lia. }
    specialize (Hall i ltac:(lia)). pose proof (blk_lookup l (S (f + i))) as E'. rewrite Ei in E'. change (l !! j = Some (blk l (S (f + i)))) in E'. congruence.
Qed.

Lemma freep_pos h l A : heap_ok h l A -> 0 < h.(freep).
Proof.
  intros [Hb0 _ _ _ Hr _ _ _ _]. pose proof (rg_freep _ _ Hr) as [->|(b & -> & Hb)%list_elem_of_fmap]%elem_of_cons; [done |]. destruct (pos_in _ _ _ Hr Hb). lia.
Qed.

Lemma ring_size h l : ring h l -> (S (length l) <= size h.(h_ptr))%nat.
Proof. intros [Hc Ha _]. by apply (chain_size _ _ _ Hc (asc_NoDup _ _ Ha)). Qed.

(** malloc() on a list that is set up. *)
Lemma malloc_run h l A nu : heap_ok h l A -> 0 < nu -> nu * HDR < 2 ^ 31 -> exists r h' l',
  malloc_loop (2 * ring_fuel h + 3) nu h.(freep) (ptr h h.(freep)) h = Some (r, h') /\
  (r = 0 /\ h' = h /\ l' = l /\ h.(avail) < Z.max nu 4096 * HDR /\ (forall b, b ∈ l -> b.2 < nu) \/
   exists q, r = q + HDR /\ heap_ok h' l' ((q, nu) :: A) /\ h.(brk) <= h'.(brk) /\ h'.(brk) + h'.(avail) = h.(brk) + h.(avail)).
Proof.
  intros Hok Hnu Hnul. pose proof (ring_size _ _ (hk_ring _ _ _ Hok)) as Hsz. set (fuel := (2 * ring_fuel h + 3)%nat).
  destruct (malloc_turn h l A nu fuel Hok Hnu) as [(q & h' & l' & E & Hok' & Eb & Ea)|[Hall E]]; [unfold fuel, ring_fuel; lia | |].
  { exists (q + HDR), h', l'. split; [exact E |]. right. exists q. split_and!; [done | done | lia | lia]. }
  rewrite E. pose proof (morecore_ok h l A nu Hok ltac:(unfold HDR in *; lia)) as Hm. cbn zeta in Hm. destruct (Z.ltb_spec h.(avail) (Z.max nu 4096 * HDR)) as [Hlt|Hge].
  - rewrite Hm. exists 0, h, l. split; [done |]. left. done.
  - destruct Hm as (h1 & l1 & -> & Hok1 & Eb & Ea & Hlen & c & Hc & Hcn). rewrite (proj2 (Z.eqb_neq h1.(freep) 0)) by (pose proof (freep_pos _ _ _ Hok1); lia).
    destruct (malloc_turn h1 l1 A nu (fuel - S (length l)) Hok1 Hnu) as [(q & h' & l' & E' & Hok' & Eb' & Ea')|[Hall' _]]; [unfold fuel, ring_fuel; lia | |].
    + rewrite E'. exists (q + HDR), h', l'. split; [done |]. right. exists q. split_and!; [done | done | unfold HDR in *; lia | lia].
    + specialize (Hall' c Hc). lia.
Qed.

(** ** The allocator as its callers see it *)

(** [A] lists the blocks the program holds: the header's address and the size in units of [HDR]
    bytes. The block's memory is the [HDR * (n - 1)] bytes after the header. *)
Inductive heap_inv h : list (Z * Z) -> Prop :=
| Fresh : h.(freep) = 0 -> 0 < base -> base < h.(brk) -> h.(brk) + h.(avail) <= 2 ^ 36 -> 0 <= h.(avail) -> heap_inv h []
| Running l A : heap_ok h l A -> heap_inv h A.

(** The number of units holds the header and the bytes asked for. *)
Lemma units_enough nbytes : 0 <= nbytes < 2 ^ 32 -> 1 <= units nbytes /\ nbytes <= HDR * (units nbytes - 1) < nbytes + HDR.
Proof.
  intros Hn. unfold units. pose proof (Z.div_mod (nbytes + HDR - 1) HDR ltac:(done)) as E. pose proof (Z.mod_pos_bound (nbytes + HDR - 1) HDR ltac:(done)).
  rewrite u32_small by (unfold HDR in *; lia). unfold HDR in *. lia.
Qed.

Lemma fresh_ok h : h.(freep) = 0 -> 0 < base -> base < h.(brk) -> h.(brk) + h.(avail) <= 2 ^ 36 -> 0 <= h.(avail) ->
  heap_ok (set_size base 0 (set_freep base (set_ptr base base h))) [] [].
Proof.
  intros Hf Hb Hbr Hl Ha. constructor; try done; try (by intros ? ?%not_elem_of_nil); try (by intros ? ? ?%not_elem_of_nil).
  constructor; [|done | apply list_elem_of_here]. cbn. by rewrite !lookup_insert_eq.
Qed.

Lemma malloc_inv h A nbytes : heap_inv h A -> 0 <= nbytes < 2 ^ 31 - 32 -> exists r h', malloc base nbytes h = Some (r, h') /\
  (r = 0 /\ heap_inv h' A /\ h.(avail) < Z.max (units nbytes) 4096 * HDR \/ exists q, r = q + HDR /\ 0 < q /\ heap_inv h' ((q, units nbytes) :: A)).
Proof.
  intros Hinv Hn. destruct (units_enough nbytes ltac:(lia)) as [Hu1 Hu2]. unfold malloc.
  assert (exists h0 l, (if h.(freep) =? 0 then set_size base 0 (set_freep base (set_ptr base base h)) else h) = h0 /\ heap_ok h0 l A /\ h0.(avail) = h.(avail)) as (h0 & l & -> & Hok & Ea).
  { destruct Hinv as [Hf H1 H2 H3 H4|l A Hok].
    - rewrite (proj2 (Z.eqb_eq _ _) Hf). eexists _, []. split; [done |]. split; [by apply fresh_ok | done].
    - rewrite (proj2 (Z.eqb_neq _ _)) by (pose proof (freep_pos _ _ _ Hok); lia). by exists h, l. }
  destruct (malloc_run h0 l A (units nbytes) Hok ltac:(lia) ltac:(unfold HDR in *; lia)) as (r & h' & l' & E & Hcase). exists r, h'. split; [exact E |].
  destruct Hcase as [(-> & -> & -> & Hav & _)|(q & -> & Hok' & _)]; [left | right; exists q].
  - split_and!; [done | by eapply Running | lia].
  - destruct (hk_alloc _ _ _ Hok' (q, units nbytes) (list_elem_of_here _ _)) as (Hq & _). cbn in Hq. pose proof (hk_base _ _ _ Hok'). split_and!; [done | lia | by eapply Running].
Qed.

Lemma free_inv h A i b : heap_inv h A -> A !! i = Some b -> exists h', free (b.1 + HDR) h = Some h' /\ heap_inv h' (delete i A).
Proof.
  intros [Hf _ _ _ _|l A' Hok] Hi; [by rewrite lookup_nil in Hi |]. destruct (free_ok h l A' i b Hok Hi) as (h' & l' & E & Hok' & _). exists h'. split; [done | by eapply Running].
Qed.

(** Blocks held by the program are above the static data, below the break and do not overlap. *)
Lemma inv_disjoint h A i j b c : heap_inv h A -> A !! i = Some b -> A !! j = Some c ->
  base < b.1 /\ b.1 + HDR * b.2 <= h.(brk) /\ (i <> j -> apart b c).
Proof.
  intros [Hf _ _ _ _|l A' Hok] Hi Hj; [by rewrite lookup_nil in Hi |]. destruct (hk_alloc _ _ _ Hok b ltac:(by eapply list_elem_of_lookup_2)) as (? & _ & ? & _).
  split_and!; [done | done |]. intros Hij. by eapply (hk_disjoint _ _ _ Hok i j).
Qed.

(** *** Programs *)

(** What a program does with the allocator. It frees blocks by their number in [A]. *)
Inductive call := Malloc (nbytes : Z) | Free (i : nat).

(** The calls of a program, with the blocks it holds. *)
Fixpoint calls (cs : list call) (h : heap) (A : list (Z * Z)) : option (heap * list (Z * Z)) :=
  match cs with
  | [] => Some (h, A)
  | Malloc nbytes :: cs =>
      match malloc base nbytes h with
      | Some (r, h) => calls cs h (if r =? 0 then A else (r - HDR, units nbytes) :: A)
      | None => None
      end
  | Free i :: cs =>
      match A !! i with
      | Some b => match free (b.1 + HDR) h with Some h => calls cs h (delete i A) | None => None end
      | None => calls cs h A
      end
  end.

Definition call_ok (c : call) : Prop := match c with Malloc n => 0 <= n < 2 ^ 31 - 32 | Free _ => True end.

Lemma calls_run cs h A : heap_inv h A -> Forall call_ok cs -> exists h' A', calls cs h A = Some (h', A') /\ heap_inv h' A'.
Proof.
  revert h A. induction cs as [|[n|i] cs IH]; intros h A Hinv Hcs; [by exists h, A | |]; apply Forall_cons in Hcs as [Hc Hcs]; cbn [calls].
  - destruct (malloc_inv h A n Hinv Hc) as (r & h' & -> & [(-> & Hinv' & _)|(q & -> & Hq & Hinv')]); [by apply IH |].
    rewrite (proj2 (Z.eqb_neq _ _)) by (unfold HDR; lia). rewrite Z.add_simpl_r. by apply IH.
  - destruct (A !! i) as [b|] eqn:Hi; [|by apply IH]. destruct (free_inv h A i b Hinv Hi) as (h' & -> & Hinv'). by apply IH.
Qed.

(** C37. malloc() of fewer than 2^31 - 32 bytes returns. It returns 0 only when no memory for a
    block of this size is left; otherwise it returns the address of [nbytes] bytes that are inside the
    process, above its static data, and overlap no other block the program holds (header included);
    the blocks it held before are still held, and free() of the new block takes it back. *)
Theorem malloc_spec h A nbytes : heap_inv h A -> 0 <= nbytes < 2 ^ 31 - 32 -> exists r h', malloc base nbytes h = Some (r, h') /\
  (r = 0 /\ heap_inv h' A /\ h.(avail) < Z.max (units nbytes) 4096 * HDR \/
   let b := (r - HDR, units nbytes) in heap_inv h' (b :: A) /\ base + HDR < r /\ r + nbytes <= h'.(brk) /\ (forall c, c ∈ A -> apart b c) /\
   exists h2, free r h' = Some h2 /\ heap_inv h2 A).
Proof.
  intros Hinv Hn. destruct (malloc_inv h A nbytes Hinv Hn) as (r & h' & E & Hcase). exists r, h'. split; [done |].
  destruct Hcase as [?|(q & -> & Hq & Hinv')]; [by left | right]. rewrite Z.add_simpl_r. cbn zeta. destruct (units_enough nbytes ltac:(lia)) as [Hu1 Hu2].
  destruct (inv_disjoint h' _ 0 0 _ _ Hinv' ltac:(done) ltac:(done)) as (Hb & He & _). cbn in Hb, He. split_and!; [done | lia | unfold HDR in *; lia | |].
  - intros c [j Hj]%list_elem_of_lookup. by eapply (inv_disjoint h' _ 0 (S j) _ c Hinv').
  - apply (free_inv h' ((q, units nbytes) :: A) 0 (q, units nbytes) Hinv'). done.
Qed.

(** C38. Whatever a program does with malloc() and free(), as long as it asks for fewer than 2^31 - 32
    bytes at a time ([call_ok]; see [malloc_wraps] for larger requests) and frees only blocks it holds, every
    call returns, and at the end the blocks it holds are inside the process and do not overlap. *)
Theorem malloc_programs cs h : heap_inv h [] -> Forall call_ok cs -> exists h' A, calls cs h [] = Some (h', A) /\
  forall i j b c, A !! i = Some b -> A !! j = Some c -> base < b.1 /\ b.1 + HDR * b.2 <= h'.(brk) /\ (i <> j -> apart b c).
Proof.
  intros Hinv Hcs. destruct (calls_run cs h [] Hinv Hcs) as (h' & A & E & Hinv'). exists h', A. split; [done |]. intros i j b c. by apply inv_disjoint.
Qed.
End spec.

(** A request close to 2^32 bytes wraps round in the argument of sbrk(), an int: 16 bytes are added to the
    process, but malloc() returns a block whose bytes all lie above the new break. *)
Theorem malloc_wraps base b a : 0 < base -> base < b -> b < 2 ^ 36 -> 16 <= a -> exists h',
  malloc base (2 ^ 32 - 1) (mkHeap ∅ ∅ 0 b a) = Some (b + HDR, h') /\ h'.(brk) = b + HDR.
Proof.
  intros Hb Hlt Hlim Ha. unfold malloc. cbn [freep Z.eqb]. change (units (2 ^ 32 - 1)) with 268435457. set (h := set_size _ _ _).
  replace (ptr h (freep h)) with base by (unfold h, ptr; cbn; by rewrite lookup_insert_eq). change (freep h) with base.
  replace (2 * ring_fuel h + 3)%nat with 7%nat by (unfold ring_fuel, h; cbn; by rewrite map_size_insert, map_size_empty). cbn [malloc_loop].
  replace (size_ h base) with 0 by (unfold h, size_; cbn; by rewrite lookup_insert_eq). cbn [Z.leb]. change (freep h) with base. rewrite Z.eqb_refl.
  assert (morecore 268435457 h = Some (base, set_freep base (set_ptr base b (set_ptr b base (set_size b 268435457 (set_brk (b + 16) (a - 16) h)))))) as ->.
  { unfold morecore. change (if 268435457 <? 4096 then 4096 else 268435457) with 268435457. change (s32 _) with 16. unfold sbrk. change (avail h) with a. change (brk h) with b. rewrite (proj2 (Z.ltb_ge a 16)), (proj2 (Z.ltb_ge (b + 16) 0)), (proj2 (Z.eqb_neq b (-1))) by lia.
    unfold free. rewrite Z.add_simpl_r. change (freep (set_size _ _ _)) with base. unfold ring_fuel. cbn [free_find].
    assert (forall x, ptr (set_size b x (set_brk (b + 16) (a - 16) h)) base = base) as Ep by (intros x; unfold ptr; cbn; by rewrite lookup_insert_eq).
    rewrite Ep, (proj2 (Z.ltb_lt base b)), (proj2 (Z.ltb_ge b base)), Z.leb_refl by lia. cbn [andb orb]. unfold free_link. rewrite Ep.
    assert (size_ (set_size b 268435457 (set_brk (b + 16) (a - 16) h)) b = 268435457) as -> by (unfold size_; cbn; by rewrite lookup_insert_eq).
    rewrite (proj2 (Z.eqb_neq (b + _) base)) by (unfold HDR; lia). assert (size_ (set_ptr b base (set_size b 268435457 (set_brk (b + 16) (a - 16) h))) base = 0) as ->
      by (unfold size_; cbn; by rewrite lookup_insert_ne, lookup_insert_eq by lia).
    by rewrite (proj2 (Z.eqb_neq (base + _) b)) by (unfold HDR; lia). }
  rewrite (proj2 (Z.eqb_neq base 0)) by lia. set (h2 := set_freep _ _). assert (ptr h2 base = b) as -> by (unfold ptr; cbn; by rewrite lookup_insert_eq).
  assert (size_ h2 b = 268435457) as E by (unfold size_; cbn; by rewrite lookup_insert_eq). rewrite E. cbn [Z.leb Z.compare]. unfold malloc_take. rewrite E.
  eexists. split; [done |]. done.
Qed.
