(* ===== verification/Grep.v ===== *)
(** * grep (user/grep.c)

    The pattern matcher, and the loop that reads a file line by line.  The matcher is
    proved equivalent to the language of the pattern; the loop prints exactly the lines
    that match. *)

From S2P Require Import Prelude Ulib.

(** ** The matcher *)

(** do { if (matchhere(re, text)) return 1; } while ( *text != 0 && ( *text++ == c || c == '.'));
    [here] is matchhere(re, _) *)
Fixpoint matchstar (c : Z) (here : list Z -> bool) (text : list Z) : bool :=
  if here text then true else
  match text with
  | [] => false
  | t :: text' => if negb (t =? 0) && ((t =? c) || (c =? 46)) then matchstar c here text' else false
  end.

Fixpoint matchhere (re text : list Z) : bool :=
  match re with
  | [] => true
  | c :: re1 =>
      if c =? 0 then true else
      let continue text :=
        if (c =? 36) && (chr re1 =? 0) then chr text =? 0 else
        match text with
        | [] => false
        | t :: text' => if negb (t =? 0) && ((c =? 46) || (c =? t)) then matchhere re1 text' else false
        end in
      match re1 with
      | d :: re2 => if d =? 42 then matchstar c (matchhere re2) text else continue text
      | [] => continue text
      end
  end.

(** do { if (matchhere(re, text)) return 1; } while ( *text++ != 0); *)
Fixpoint match_loop (re text : list Z) : bool :=
  if matchhere re text then true else
  match text with
  | [] => false
  | t :: text' => if t =? 0 then false else match_loop re text'
  end.

(** match() *)
Definition match_ (re text : list Z) : bool :=
  match re with
  | c :: re' => if c =? 94 then matchhere re' text else match_loop re text
  | [] => match_loop re text
  end.

(** ** The language of a pattern *)

Inductive item := One (c : Z) | Star (c : Z).

(** The items of a pattern, and whether it ends in [$]. *)
Fixpoint parse (re : list Z) : list item * bool :=
  match re with
  | [] => ([], false)
  | c :: re1 =>
      match re1 with
      | d :: re2 =>
          if d =? 42 then let '(l, e) := parse re2 in (Star c :: l, e)
          else let '(l, e) := parse re1 in (One c :: l, e)
      | [] => if c =? 36 then ([], true) else ([One c], false)
      end
  end.

(** The character [x] matches [c]; a dot matches every character. *)
Definition sym (c x : Z) : Prop := c = 46 \/ c = x.

Inductive lang : list item -> list Z -> Prop :=
  | lang_nil : lang [] []
  | lang_one c x l s : sym c x -> lang l s -> lang (One c :: l) (x :: s)
  | lang_star c l s1 s2 : Forall (sym c) s1 -> lang l s2 -> lang (Star c :: l) (s1 ++ s2).

(** A prefix of [text] is in the language; with [$], all of it. *)
Definition here (re text : list Z) : Prop :=
  exists s rest, text = s ++ rest /\ lang (parse re).1 s /\ ((parse re).2 = true -> rest = []).

(** Some part of the text matches; with [^], one that starts the text. *)
Definition matches (re text : list Z) : Prop :=
  match re with
  | 94 :: re' => here re' text
  | _ => exists pre text', text = pre ++ text' /\ here re text'
  end.

(** ** Equivalence *)

Lemma here_nil text : here [] text.
Proof. exists [], text. split_and!; [done | constructor | done]. Qed.

Lemma here_dollar text : here [36] text <-> text = [].
Proof.
  split; [|intros ->; exists [], []; split_and!; [done | constructor | done]].
  intros (s & rest & -> & Hl & He). inversion Hl; subst. by rewrite He.
Qed.

Lemma here_star c re text : here (c :: 42 :: re) text <-> exists s1 t, text = s1 ++ t /\ Forall (sym c) s1 /\ here re t.
Proof.
  unfold here. cbn [parse]. rewrite Z.eqb_refl. destruct (parse re) as [l e]. cbn [fst snd]. split.
  - intros (s & rest & -> & Hl & He). inversion Hl; subst. exists s1, (s2 ++ rest). rewrite <- app_assoc. split_and!; try done. by exists s2, rest.
  - intros (s1 & t & -> & Hs & s & rest & -> & Hl & He). exists (s1 ++ s), rest. rewrite <- app_assoc. split_and!; try done. by constructor.
Qed.

Lemma here_one c re text : chr re <> 42 -> ~ (c = 36 /\ re = []) -> here (c :: re) text <-> exists x t, text = x :: t /\ sym c x /\ here re t.
Proof.
  intros Hd Hn. assert ((parse (c :: re)).1 = One c :: (parse re).1 /\ (parse (c :: re)).2 = (parse re).2) as [E1 E2].
  { destruct re as [|d re]; cbn.
    - destruct (Z.eqb_spec c 36) as [->|]; [by destruct Hn | done].
    - rewrite (proj2 (Z.eqb_neq d 42)) by done. by destruct (match re with [] => _ | _ :: _ => _ end). }
  unfold here. rewrite E1, E2. split.
  - intros (s & rest & -> & Hl & He). inversion Hl; subst. exists x, (s0 ++ rest). split_and!; try done. by exists s0, rest.
  - intros (x & t & -> & Hx & s & rest & -> & Hl & He). exists (x :: s), rest. split_and!; try done. by constructor.
Qed.

Lemma sym_dec c x : (c =? 46) || (c =? x) = true <-> sym c x.
Proof. unfold sym. rewrite orb_true_iff, !Z.eqb_eq. done. Qed.

Lemma matchstar_spec c h (H : list Z -> Prop) text : (forall t, nonul t -> h t = true <-> H t) -> nonul text ->
  matchstar c h text = true <-> exists s1 t, text = s1 ++ t /\ Forall (sym c) s1 /\ H t.
Proof.
  intros Hh Ht. induction Ht as [|x text Hx Ht IH]; cbn [matchstar].
  - pose proof (Hh [] ltac:(constructor)) as H0. destruct (h []); [split; [intros _; exists [], []; split_and!; [done | constructor | by apply H0] | done] |].
    split; [done |]. intros (s1 & t & E & _ & Hht). symmetry in E. apply app_eq_nil in E as [-> ->]. by apply H0.
  - assert (nonul (x :: text)) as Hxt by (by constructor). pose proof (Hh _ Hxt) as H0. destruct (h (x :: text)).
    + split; [|done]. intros _. exists [], (x :: text). split_and!; [done | constructor | by apply H0].
    + rewrite (proj2 (Z.eqb_neq x 0)) by done. cbn [negb andb]. rewrite orb_comm, (Z.eqb_sym x c).
      destruct ((c =? 46) || (c =? x)) eqn:E.
      * apply sym_dec in E. rewrite IH. split.
        -- intros (s1 & t & -> & Hs & Hht). exists (x :: s1), t. split_and!; [done | by constructor | done].
        -- intros ([|y s1] & t & Et & Hs & Hht); cbn in Et; [subst t; by apply H0 in Hht |]. injection Et as -> ->. inversion Hs; subst. by exists s1, t.
      * split; [done |]. intros ([|y s1] & t & Et & Hs & Hht); cbn in Et; [subst t; by apply H0 in Hht |]. injection Et as -> ->. inversion Hs; subst.
        assert (sym c y) as E'%sym_dec by done. congruence.
Qed.

(** One character, then the rest of the pattern. *)
Lemma match_one c re text : (forall t, nonul t -> matchhere re t = true <-> here re t) -> nonul text ->
  match text with [] => false | x :: text' => if negb (x =? 0) && ((c =? 46) || (c =? x)) then matchhere re text' else false end = true <->
  exists x t, text = x :: t /\ sym c x /\ here re t.
Proof.
  intros IH Ht. destruct Ht as [|x text Hx Ht]; [naive_solver |]. rewrite (proj2 (Z.eqb_neq x 0)) by done. cbn [negb andb].
  destruct ((c =? 46) || (c =? x)) eqn:E.
  - apply sym_dec in E. rewrite IH by done. naive_solver.
  - split; [done |]. intros (y & t & [= <- <-] & Hs%sym_dec & _). congruence.
Qed.

Lemma matchhere_spec n : forall re text, (length re <= n)%nat -> nonul re -> nonul text -> matchhere re text = true <-> here re text.
Proof.
  induction n as [|n IH]; intros [|c re] text Hlen Hre Ht; try (cbn in Hlen; lia); try (split; [intros _; apply here_nil | done]).
  inversion Hre as [|? ? Hc Hre1]; subst. cbn [length] in Hlen. cbn [matchhere]. rewrite (proj2 (Z.eqb_neq c 0)) by done.
  set (continue := if (c =? 36) && (chr re =? 0) then _ else _).
  assert (chr re <> 42 -> continue = true <-> here (c :: re) text) as Hcont.
  { intros Hd. unfold continue. destruct ((c =? 36) && (chr re =? 0)) eqn:E.
    - apply andb_true_iff in E as [->%Z.eqb_eq E%Z.eqb_eq]. destruct re as [|d re]; [|by inversion Hre1].
      rewrite here_dollar, Z.eqb_eq. destruct Ht; cbn; split; done.
    - rewrite here_one; [|done|]; [apply match_one; [|done]; intros t Ht'; apply IH; done || lia |].
      intros [-> ->]. done. }
  destruct re as [|d re2]; [by apply Hcont |]. destruct (Z.eqb_spec d 42) as [->|Hd]; [|by apply Hcont].
  inversion Hre1; subst. rewrite here_star. apply matchstar_spec; [|done]. intros t Ht'. apply IH; [cbn in Hlen; lia | done | done].
Qed.

Lemma match_loop_spec re text : nonul re -> nonul text -> match_loop re text = true <-> exists pre text', text = pre ++ text' /\ here re text'.
Proof.
  intros Hre Ht. assert (forall t, nonul t -> matchhere re t = true <-> here re t) as Hh by (intros; by apply (matchhere_spec (length re))).
  induction Ht as [|x text Hx Ht IH]; cbn [match_loop].
  - pose proof (Hh [] ltac:(constructor)) as H0. destruct (matchhere re []); [split; [intros _; exists [], []; split; [done | by apply H0] | done] |].
    split; [done |]. intros (pre & t & E & Hht). symmetry in E. apply app_eq_nil in E as [-> ->]. by apply H0.
  - pose proof (Hh (x :: text) ltac:(by constructor)) as H0. destruct (matchhere re (x :: text)).
    + split; [|done]. intros _. exists [], (x :: text). split; [done | by apply H0].
    + rewrite (proj2 (Z.eqb_neq x 0)) by done. rewrite IH. split.
      * intros (pre & t & -> & Hht). by exists (x :: pre), t.
      * intros ([|y pre] & t & Et & Hht); cbn in Et; [subst t; by apply H0 in Hht |]. injection Et as -> ->. by exists pre, t.
Qed.

(** C39. The matcher decides the language of the pattern: match(re, text) returns 1 exactly
    when some part of the text is a sequence of pieces matched by the items of the pattern,
    where [^] ties it to the start and [$] to the end of the text. *)
Theorem match_spec re text : nonul re -> nonul text -> match_ re text = true <-> matches re text.
Proof.
  intros Hre Ht. destruct re as [|c re]; [by apply match_loop_spec |]. unfold match_, matches. destruct (Z.eqb_spec c 94) as [->|Hc].
  - inversion Hre; subst. by apply (matchhere_spec (length re)).
  - rewrite match_loop_spec by done. destruct c as [|p|p]; try done. by repeat (destruct p as [p|p|]; try done).
Qed.

(** ** The file loop *)

(** read() of at most [avail] bytes from a file that has [src] left: the number of bytes
    it returns.  It may return fewer than asked for ([want]), but at least one unless the
    file is at its end or nothing was asked for. *)
Definition read_some (avail want : nat) (src : list Z) : nat := avail `min` (length src `min` (1 `max` want)).

(** while ((q = strchr(p, '\n')) != 0): what is written, and the final [p] *)
Fixpoint grep_lines (fuel : nat) (pattern p out : list Z) : option (list Z * list Z) :=
  match fuel with
  | O => None
  | S fuel' =>
      match strchr p 10 with
      | None => Some (out, p)
      | Some q =>
          let line := take (length p - length q) p in
          let out := if match_ pattern line then out ++ line ++ [10] else out in
          grep_lines fuel' pattern (tail q) out
      end
  end.

(** while ((n = read(fd, buf+m, sizeof(buf)-m-1)) > 0); [buf] holds the first m bytes,
    [wants] what the calls of read() are willing to deliver *)
Fixpoint grep_loop (fuel : nat) (pattern src : list Z) (wants : list nat) (buf out : list Z) : option (list Z) :=
  match fuel with
  | O => None
  | S fuel' =>
      let n := read_some (1024 - length buf - 1) (default 1%nat (head wants)) src in
      if (n =? 0)%nat then Some out else
      let buf := buf ++ take n src in
      match grep_lines (S (length buf)) pattern buf out with
      | None => None
      | Some (out, p) => grep_loop fuel' pattern (drop n src) (tail wants) p out
      end
  end.

(** What grep(pattern, fd) writes for a file with contents [src]. *)
Definition grep (pattern src : list Z) (wants : list nat) : option (list Z) := grep_loop (S (length src)) pattern src wants [] [].

(** The lines of a file that end in a newline. *)
Fixpoint lines (cur s : list Z) : list (list Z) :=
  match s with
  | [] => []
  | c :: s' => if c =? 10 then cur :: lines [] s' else lines (cur ++ [c]) s'
  end.

(** The lines that match, each with its newline. *)
Definition selected (pattern : list Z) (l : list (list Z)) : list Z := concat ((fun x => x ++ [10]) <$> filter (fun x => match_ pattern x = true) l).

Lemma lines_app cur p s : 10 ∉ p -> lines cur (p ++ s) = lines (cur ++ p) s.
Proof.
  revert cur. induction p as [|c p IH]; intros cur Hp; cbn; [by rewrite app_nil_r |]. rewrite (proj2 (Z.eqb_neq c 10)) by set_solver.
  rewrite IH by set_solver. by rewrite <- app_assoc.
Qed.

Lemma lines_prefix cur s l : lines cur s = l -> forall x, l !! 0%nat = Some x -> exists y, x = cur ++ y.
Proof.
  revert cur l. induction s as [|c s IH]; intros cur l <- x Hx; cbn in Hx; [done |]. destruct (c =? 10).
  - injection Hx as <-. exists []. by rewrite app_nil_r.
  - destruct (IH _ _ eq_refl x Hx) as [y ->]. exists ([c] ++ y). by rewrite app_assoc.
Qed.

Lemma selected_cons pattern x l : selected pattern (x :: l) = (if match_ pattern x then x ++ [10] else []) ++ selected pattern l.
Proof. unfold selected. rewrite filter_cons. destruct (match_ pattern x); [by rewrite decide_True | by rewrite decide_False]. Qed.

(** The inner loop writes the complete lines of the buffer and keeps the rest. *)
Lemma grep_lines_spec pattern rest n : forall p out, nonul p -> (length p < n)%nat ->
  exists p', grep_lines n pattern p out = Some (out ++ selected pattern (take (length (lines [] p)) (lines [] (p ++ rest))), p') /\
    10 ∉ p' /\ (length p' <= length p)%nat /\ nonul p' /\ drop (length (lines [] p)) (lines [] (p ++ rest)) = lines [] (p' ++ rest).
Proof.
  induction n as [|n IH]; intros p out Hp Hn; [lia |]. cbn [grep_lines]. pose proof (strchr_spec p 10 Hp ltac:(done)) as Hs. destruct (strchr p 10) as [q|].
  - destruct Hs as (l & -> & Hl & q' & ->). apply Forall_app in Hp as [Hl0 Hq0]. apply Forall_cons in Hq0 as [_ Hq0].
    rewrite length_app in *. cbn [length] in *. replace (length l + S (length q') - S (length q'))%nat with (length l) by lia.
    rewrite take_app_length. cbn [tail]. rewrite <- app_assoc. cbn [app]. rewrite !(lines_app [] l) by done. cbn [lines app]. change (10 =? 10) with true. cbn iota.
    destruct (IH q' (if match_ pattern l then out ++ l ++ [10] else out) Hq0 ltac:(lia)) as (p' & -> & H1 & H2 & H3 & H4).
    exists p'. cbn [length take drop]. rewrite selected_cons, H4. split_and!; try done; [|lia]. f_equal. f_equal. destruct (match_ pattern l); by rewrite <- ?app_assoc.
  - assert (lines [] p = []) as E by (rewrite <- (app_nil_r p), lines_app by done; done).
    exists p. rewrite E. cbn [length take drop]. unfold selected. cbn. rewrite app_nil_r. split_and!; done.
Qed.

Lemma grep_loop_spec pattern fuel : forall src wants buf out, nonul src -> nonul buf -> 10 ∉ buf -> (length src < fuel)%nat -> (length buf <= 1023)%nat ->
  Forall (fun l => (length l < 1023)%nat) (lines [] (buf ++ src)) ->
  grep_loop fuel pattern src wants buf out = Some (out ++ selected pattern (lines [] (buf ++ src))).
Proof.
  induction fuel as [|fuel IH]; intros src wants buf out Hs Hb Hnl Hf Hbl Hl; [lia |]. cbn [grep_loop].
  set (n := read_some _ _ src). assert (n <= length src)%nat as Hn by (unfold n, read_some; lia).
  destruct (Nat.eqb_spec n 0) as [E|E].
  - assert (lines [] (buf ++ src) = []) as ->; [|unfold selected; cbn; by rewrite app_nil_r].
    destruct (decide (length src = 0)%nat) as [->%nil_length_inv|Hne]; [rewrite lines_app by done; done |].
    assert (length buf = 1023)%nat as Hfull by (unfold n, read_some in E; lia). rewrite lines_app in Hl |- * by done. cbn [app] in *.
    destruct (lines buf src) as [|x l] eqn:El; [done |]. exfalso. apply Forall_cons in Hl as [Hx _].
    destruct (lines_prefix buf src _ El x eq_refl) as [y ->]. rewrite length_app in Hx. lia.
  - assert (n <= 1023 - length buf)%nat as Hn2 by (unfold n, read_some; lia).
    assert (nonul (buf ++ take n src)) as Hb2 by (apply Forall_app; split; [done | by apply Forall_take]).
    destruct (grep_lines_spec pattern (drop n src) (S (length (buf ++ take n src))) _ out Hb2 ltac:(lia)) as (p & -> & H1 & H2 & H3 & H4).
    assert ((buf ++ take n src) ++ drop n src = buf ++ src) as Ea by (by rewrite <- app_assoc, take_drop). rewrite Ea in *.
    rewrite length_app, length_take in H2. set (k := length (lines [] (buf ++ take n src))) in *.
    rewrite IH; [| by apply Forall_drop | done | done | rewrite length_drop; lia | lia | rewrite <- H4; by apply Forall_drop].
    rewrite <- app_assoc. f_equal. f_equal. rewrite <- H4. unfold selected. by rewrite <- concat_app, <- fmap_app, <- filter_app, take_drop.
Qed.

(** C40. On a file without NUL bytes whose newline-terminated lines are shorter than 1023 bytes (a
    longer one fills the buffer and ends the loop), grep() writes exactly those lines that match
    the pattern, in order, each with its newline, whatever the sizes in which read() delivers the
    file; a last line without newline is ignored. *)
Theorem grep_spec pattern src wants : nonul src -> Forall (fun l => (length l < 1023)%nat) (lines [] src) ->
  grep pattern src wants = Some (selected pattern (lines [] src)).
Proof. intros Hs Hl. unfold grep. rewrite grep_loop_spec; try done; [constructor | apply not_elem_of_nil | lia | cbn; lia]. Qed.
