(* ===== verification/Sh.v ===== *)
(** * The shell's parser (user/sh.c)

    The command line is an array of bytes; the parser works on positions in it, and
    nulterminate() then cuts the words out by writing NULs.  Parsing the text of a command
    gives back the command; the parser terminates on every input. *)

From S2P Require Import Prelude Ulib.

(** What a parsing function returns: its result, panic(), or fuel that ran out. *)
Inductive presult (A : Type) := Got (a : A) | Err (msg : string) | Fuel.
Arguments Got {A} a.
Arguments Err {A} msg.
Arguments Fuel {A}.

#[global] Instance presult_ret : MRet presult := fun A a => Got a.
#[global] Instance presult_bind : MBind presult := fun A B f r =>
  match r with Got a => f a | Err msg => Err msg | Fuel => Fuel end.

(** struct cmd: a word is the positions of its first byte and past its last. *)
Inductive cmd :=
  | EXEC (argv : list (nat * nat))
  | REDIR (c : cmd) (file efile : nat) (mode fd : Z)
  | PIPE (left right : cmd)
  | LIST (left right : cmd)
  | BACK (c : cmd).

Definition MAXARGS : nat := 10.
Definition O_RDONLY : Z := 0x000.
Definition O_WRONLY : Z := 0x001.
Definition O_CREATE : Z := 0x200.
Definition O_TRUNC : Z := 0x400.

Definition whitespace : list Z := [32; 9; 13; 10; 11].
Definition symbols : list Z := [60; 124; 62; 38; 59; 40; 41].
Definition isin (toks : list Z) (c : Z) : bool := match strchr toks c with Some _ => true | None => false end.

Section parser.
Variable buf : list Z.
Variable es : nat.

(** *s *)
Definition at_ (s : nat) : Z := default 0 (buf !! s).

(** while (s < es && test( *s)) s++;  [n] is es - s *)
Fixpoint advance (n : nat) (test : Z -> bool) (s : nat) : nat :=
  match n with
  | O => s
  | S n' => if test (at_ s) then advance n' test (S s) else s
  end.
Definition skip (test : Z -> bool) (s : nat) : nat := advance (es - s) test s.

(** The token, *q, *eq and the new *ps *)
Definition gettoken (s : nat) : Z * nat * nat * nat :=
  let s := skip (isin whitespace) s in
  let q := s in
  let c := at_ s in
  let '(ret, s) :=
    if c =? 0 then (c, s)
    else if isin [124; 40; 41; 59; 38; 60] c then (c, S s)
    else if c =? 62 then (if at_ (S s) =? 62 then (43, S (S s)) else (c, S s))
    else (97, skip (fun x => negb (isin whitespace x) && negb (isin symbols x)) s) in
  let eq := s in
  (ret, q, eq, skip (isin whitespace) s).

Definition peek (s : nat) (toks : list Z) : bool * nat :=
  let s := skip (isin whitespace) s in
  (negb (at_ s =? 0) && isin toks (at_ s), s).

(** while (peek(ps, es, "<>")) *)
Fixpoint parseredirs (fuel : nat) (c : cmd) (s : nat) : presult (cmd * nat) :=
  match fuel with
  | O => Fuel
  | S fuel' =>
      let '(b, s) := peek s [60; 62] in
      if negb b then Got (c, s) else
      let '(tok, _, _, s) := gettoken s in
      let '(tok2, q, eq, s) := gettoken s in
      if negb (tok2 =? 97) then Err "missing file for redirection" else
      let c :=
        if tok =? 60 then REDIR c q eq O_RDONLY 0
        else if tok =? 62 then REDIR c q eq (Z.lor (Z.lor O_WRONLY O_CREATE) O_TRUNC) 1
        else if tok =? 43 then REDIR c q eq (Z.lor O_WRONLY O_CREATE) 1
        else c in
      parseredirs fuel' c s
  end.

(** cmd->argv[argc] = q; cmd->eargv[argc] = eq: the execcmd that [ret] wraps *)
Fixpoint add_arg (ret : cmd) (w : nat * nat) : cmd :=
  match ret with
  | EXEC argv => EXEC (argv ++ [w])
  | REDIR c q eq mode fd => REDIR (add_arg c w) q eq mode fd
  | _ => ret
  end.

(** while (!peek(ps, es, "|)&;")) *)
Fixpoint parseargs (fuel : nat) (ret : cmd) (argc : nat) (s : nat) : presult (cmd * nat) :=
  match fuel with
  | O => Fuel
  | S fuel' =>
      let '(b, s) := peek s [124; 41; 38; 59] in
      if b then Got (ret, s) else
      let '(tok, q, eq, s) := gettoken s in
      if tok =? 0 then Got (ret, s) else
      if negb (tok =? 97) then Err "syntax" else
      let ret := add_arg ret (q, eq) in
      if (MAXARGS <=? S argc)%nat then Err "too many args" else
      '(ret, s) ← parseredirs fuel' ret s;
      parseargs fuel' ret (S argc) s
  end.

(** while (peek(ps, es, "&")) *)
Fixpoint parseback (fuel : nat) (c : cmd) (s : nat) : presult (cmd * nat) :=
  match fuel with
  | O => Fuel
  | S fuel' =>
      let '(b, s) := peek s [38] in
      if negb b then Got (c, s) else
      let '(_, _, _, s) := gettoken s in
      parseback fuel' (BACK c) s
  end.

Fixpoint parseline (fuel : nat) (s : nat) : presult (cmd * nat) :=
  match fuel with
  | O => Fuel
  | S fuel' =>
      '(c, s) ← parsepipe fuel' s;
      '(c, s) ← parseback fuel' c s;
      let '(b, s) := peek s [59] in
      if b then
        let '(_, _, _, s) := gettoken s in
        '(r, s) ← parseline fuel' s;
        Got (LIST c r, s)
      else Got (c, s)
  end
with parsepipe (fuel : nat) (s : nat) : presult (cmd * nat) :=
  match fuel with
  | O => Fuel
  | S fuel' =>
      '(c, s) ← parseexec fuel' s;
      let '(b, s) := peek s [124] in
      if b then
        let '(_, _, _, s) := gettoken s in
        '(r, s) ← parsepipe fuel' s;
        Got (PIPE c r, s)
      else Got (c, s)
  end
with parseexec (fuel : nat) (s : nat) : presult (cmd * nat) :=
  match fuel with
  | O => Fuel
  | S fuel' =>
      let '(b, s) := peek s [40] in
      if b then parseblock fuel' s else
      '(ret, s) ← parseredirs fuel' (EXEC []) s;
      parseargs fuel' ret 0 s
  end
with parseblock (fuel : nat) (s : nat) : presult (cmd * nat) :=
  match fuel with
  | O => Fuel
  | S fuel' =>
      let '(b, s) := peek s [40] in
      if negb b then Err "parseblock" else
      let '(_, _, _, s) := gettoken s in
      '(c, s) ← parseline fuel' s;
      let '(b, s) := peek s [41] in
      if negb b then Err "syntax - missing )" else
      let '(_, _, _, s) := gettoken s in
      parseredirs fuel' c s
  end.
End parser.

Definition nul_at (e : nat) (buf : list Z) : list Z := <[e := 0]> buf.

(** The array after nulterminate(). *)
Fixpoint nulterminate (c : cmd) (buf : list Z) : list Z :=
  match c with
  | EXEC argv => foldl (fun b w => nul_at w.2 b) buf argv
  | REDIR c _ efile _ _ => nul_at efile (nulterminate c buf)
  | PIPE l r => nulterminate r (nulterminate l buf)
  | LIST l r => nulterminate r (nulterminate l buf)
  | BACK c => nulterminate c buf
  end.

(** parsecmd(): the command, and the array it points into. *)
Definition parsecmd (buf : list Z) : presult (cmd * list Z) :=
  let es := Z.to_nat (strlen buf) in
  '(c, s) ← parseline buf es (5 * es + 10) 0;
  let '(_, s) := peek buf es s [] in
  if negb (s =? es)%nat then Err "syntax" else
  Got (c, nulterminate c buf).

(** ** Termination *)

(** The equations of the mutually recursive functions. *)
Lemma parseline_S buf es fuel s : parseline buf es (S fuel) s =
  ('(c, s) ← parsepipe buf es fuel s;
   '(c, s) ← parseback buf es fuel c s;
   let '(b, s) := peek buf es s [59] in
   if b then let '(_, _, _, s) := gettoken buf es s in '(r, s) ← parseline buf es fuel s; Got (LIST c r, s) else Got (c, s)).
Proof. done. Qed.

Lemma parsepipe_S buf es fuel s : parsepipe buf es (S fuel) s =
  ('(c, s) ← parseexec buf es fuel s;
   let '(b, s) := peek buf es s [124] in
   if b then let '(_, _, _, s) := gettoken buf es s in '(r, s) ← parsepipe buf es fuel s; Got (PIPE c r, s) else Got (c, s)).
Proof. done. Qed.

Lemma parseexec_S buf es fuel s : parseexec buf es (S fuel) s =
  (let '(b, s) := peek buf es s [40] in
   if b then parseblock buf es fuel s else '(ret, s) ← parseredirs buf es fuel (EXEC []) s; parseargs buf es fuel ret 0 s).
Proof. done. Qed.

Lemma parseblock_S buf es fuel s : parseblock buf es (S fuel) s =
  (let '(b, s) := peek buf es s [40] in
   if negb b then Err "parseblock" else
   let '(_, _, _, s) := gettoken buf es s in
   '(c, s) ← parseline buf es fuel s;
   let '(b, s) := peek buf es s [41] in
   if negb b then Err "syntax - missing )" else
   let '(_, _, _, s) := gettoken buf es s in
   parseredirs buf es fuel c s).
Proof. done. Qed.

Lemma isin_symbols c : isin symbols c = isin [124; 40; 41; 59; 38; 60] c || (62 =? c).
Proof.
  unfold isin, symbols. cbn [strchr]. repeat rewrite (proj2 (Z.eqb_neq _ 0)) by done. destruct (60 =? c), (124 =? c), (62 =? c), (38 =? c), (59 =? c), (40 =? c), (41 =? c); done.
Qed.

Section total.
Variable buf : list Z.
Variable es : nat.
Hypothesis Hnz : forall i, (i < es)%nat -> at_ buf i <> 0.
Hypothesis Hes : at_ buf es = 0.

Lemma advance_bounds n test s : (s <= advance buf n test s <= s + n)%nat.
Proof. revert s. induction n as [|n IH]; intros s; cbn [advance]; [lia |]. destruct (test (at_ buf s)); [specialize (IH (S s)); lia | lia]. Qed.

Lemma skip_bounds test s : (s <= es)%nat -> (s <= skip buf es test s <= es)%nat.
Proof. intros Hs. unfold skip. pose proof (advance_bounds (es - s) test s). lia. Qed.

Lemma advance_stop n test s : (advance buf n test s < s + n)%nat -> test (at_ buf (advance buf n test s)) = false.
Proof.
  revert s. induction n as [|n IH]; intros s; cbn [advance]; [lia |]. destruct (test (at_ buf s)) eqn:E; [|done]. intros Hlt. apply IH. lia.
Qed.

Lemma skip_stop test s : (s <= es)%nat -> (skip buf es test s < es)%nat -> test (at_ buf (skip buf es test s)) = false.
Proof. intros Hs Hlt. unfold skip in *. apply advance_stop. lia. Qed.

Lemma skip_advances test s : (s < es)%nat -> test (at_ buf s) = true -> (S s <= skip buf es test s)%nat.
Proof.
  intros Hs Ht. unfold skip. replace (es - s)%nat with (S (es - S s)) by lia. cbn [advance]. rewrite Ht.
  pose proof (advance_bounds (es - S s) test (S s)). lia.
Qed.

Lemma peek_bounds s toks b s' : (s <= es)%nat -> peek buf es s toks = (b, s') -> (s <= s' <= es)%nat /\ (b = true -> (s' < es)%nat /\ isin toks (at_ buf s') = true).
Proof.
  intros Hs [= <- <-]. pose proof (skip_bounds (isin whitespace) s Hs) as Hb. split; [done |].
  intros [H1%negb_true_iff%Z.eqb_neq H2]%andb_true_iff. split; [|done]. destruct (decide (skip buf es (isin whitespace) s = es)) as [E|]; [by rewrite E in H1 | lia].
Qed.

Lemma skip_here test s : (s < es)%nat -> test (at_ buf s) = false -> skip buf es test s = s.
Proof. intros Hs Ht. unfold skip. replace (es - s)%nat with (S (es - S s)) by lia. cbn [advance]. by rewrite Ht. Qed.

(** The token peek() has seen is read. *)
Lemma peek_token s toks s1 tok q eq s2 : (s <= es)%nat -> peek buf es s toks = (true, s1) -> gettoken buf es s1 = (tok, q, eq, s2) -> tok <> 0.
Proof.
  intros Hs Hp. destruct (peek_bounds _ _ _ _ Hs Hp) as [Hb Ht]. destruct (Ht eq_refl) as [Hlt _]. injection Hp as _ Hs1.
  unfold gettoken. rewrite (skip_here (isin whitespace) s1) by (done || (rewrite <- Hs1 in *; by apply skip_stop)).
  rewrite (proj2 (Z.eqb_neq (at_ buf s1) 0)) by (by apply Hnz). repeat case_match; simplify_eq; intros [= <- <- <- <-]; done || by apply Hnz.
Qed.

(** A token is read: the position moves on, except at the end. *)
Lemma gettoken_bounds s tok q eq s' : (s <= es)%nat -> gettoken buf es s = (tok, q, eq, s') ->
  (s <= s' <= es)%nat /\ (tok <> 0 -> (s < s')%nat).
Proof.
  intros Hs. unfold gettoken. set (a := skip buf es (isin whitespace) s). pose proof (skip_bounds (isin whitespace) s Hs) as Ha. fold a in Ha.
  assert (at_ buf a <> 0 -> (a < es)%nat) as Hlt by (intros; destruct (decide (a = es)) as [E|]; [by rewrite E in * | lia]).
  assert (forall (t : Z) e, (a < e <= es)%nat -> (s <= skip buf es (isin whitespace) e <= es)%nat /\ (t <> 0 -> (s < skip buf es (isin whitespace) e)%nat)) as Hend.
  { intros t e He. pose proof (skip_bounds (isin whitespace) e ltac:(lia)). lia. }
  destruct (Z.eqb_spec (at_ buf a) 0) as [E0|E0].
  { intros [= <- <- <- <-]. split; [|done]. pose proof (skip_bounds (isin whitespace) a ltac:(lia)). lia. }
  specialize (Hlt E0). destruct (isin [124; 40; 41; 59; 38; 60] (at_ buf a)) eqn:E1; [intros [= <- <- <- <-]; by apply Hend; lia |].
  destruct (Z.eqb_spec (at_ buf a) 62) as [E2|E2].
  - destruct (Z.eqb_spec (at_ buf (S a)) 62) as [E3|E3]; intros [= <- <- <- <-]; apply Hend; [|lia].
    destruct (decide (S a = es)) as [E|]; [rewrite E in E3; congruence | lia].
  - intros [= <- <- <- <-]. apply Hend. split; [|apply skip_bounds; lia]. apply skip_advances; [done |].
    pose proof (skip_stop (isin whitespace) s Hs ltac:(done)) as Hw. fold a in Hw. rewrite Hw. cbn [negb andb].
    by rewrite isin_symbols, E1, (proj2 (Z.eqb_neq 62 (at_ buf a))) by congruence.
Qed.

(** The result does not lack fuel, and the position stays in the line. *)
Definition fine (s : nat) (r : presult (cmd * nat)) : Prop := match r with Got (_, s') => (s <= s' <= es)%nat | Err _ => True | Fuel => False end.

Lemma fine_bind s s1 r (f : cmd * nat -> presult (cmd * nat)) : (s <= s1)%nat -> fine s1 r ->
  (forall c s2, (s1 <= s2 <= es)%nat -> fine s (f (c, s2))) -> fine s (r ≫= f).
Proof. intros Hs Hr Hf. destruct r as [[c s2]| |]; cbn in *; [by apply Hf | done | done]. Qed.

Lemma fine_mono s s1 r : (s <= s1)%nat -> fine s1 r -> fine s r.
Proof. intros Hs. destruct r as [[c s2]| |]; cbn; [lia | done | done]. Qed.

Lemma parseredirs_fine fuel : forall c s, (s <= es)%nat -> (es - s < fuel)%nat -> fine s (parseredirs buf es fuel c s).
Proof.
  induction fuel as [|fuel IH]; intros c s Hs Hf; [lia |]. cbn [parseredirs]. destruct (peek _ _ s _) as [b s1] eqn:Ep.
  destruct (peek_bounds _ _ _ _ Hs Ep) as [H1 H1']. destruct b; [|cbn; lia]. destruct (gettoken _ _ s1) as [[[tok ?] ?] s2] eqn:Et.
  destruct (gettoken_bounds s1 _ _ _ _ ltac:(lia) Et) as [H2 _]. destruct (gettoken _ _ s2) as [[[tok2 q] eq] s3] eqn:Et2.
  destruct (gettoken_bounds s2 _ _ _ _ ltac:(lia) Et2) as [H3 H3']. destruct (Z.eqb_spec tok2 97) as [->|]; [|done]. cbn [negb].
  specialize (H3' ltac:(done)). eapply fine_mono; [|apply IH]; lia.
Qed.

Lemma parseargs_fine fuel : forall c n s, (s <= es)%nat -> (es - s < fuel)%nat -> fine s (parseargs buf es fuel c n s).
Proof.
  induction fuel as [|fuel IH]; intros c n s Hs Hf; [lia |]. cbn [parseargs]. destruct (peek _ _ s _) as [b s1] eqn:Ep.
  destruct (peek_bounds _ _ _ _ Hs Ep) as [H1 _]. destruct b; [cbn; lia |]. destruct (gettoken _ _ s1) as [[[tok q] eq] s2] eqn:Et.
  destruct (gettoken_bounds s1 _ _ _ _ ltac:(lia) Et) as [H2 H2']. destruct (Z.eqb_spec tok 0) as [->|Hn]; [cbn; lia |]. specialize (H2' Hn).
  destruct (negb (tok =? 97)); [done |]. destruct (MAXARGS <=? S n)%nat; [done |].
  eapply fine_bind; [|apply parseredirs_fine|]; [lia | lia | lia |]. intros c2 s3 H3. eapply fine_mono; [|apply IH]; lia.
Qed.

(** peek() says yes and the token is skipped. *)
Lemma peek_skip s toks s1 tok q eq s2 : (s <= es)%nat -> peek buf es s toks = (true, s1) -> gettoken buf es s1 = (tok, q, eq, s2) -> (s < s2 <= es)%nat.
Proof.
  intros Hs Hp Ht. destruct (peek_bounds _ _ _ _ Hs Hp) as [Hb _]. pose proof (peek_token _ _ _ _ _ _ _ Hs Hp Ht) as Hn.
  destruct (gettoken_bounds s1 _ _ _ _ ltac:(lia) Ht) as [H2 H2']. specialize (H2' Hn). lia.
Qed.

Lemma parseback_fine fuel : forall c s, (s <= es)%nat -> (es - s < fuel)%nat -> fine s (parseback buf es fuel c s).
Proof.
  induction fuel as [|fuel IH]; intros c s Hs Hf; [lia |]. cbn [parseback]. destruct (peek _ _ s _) as [b s1] eqn:Ep.
  destruct (peek_bounds _ _ _ _ Hs Ep) as [H1 _]. destruct b; [|cbn; lia]. destruct (gettoken _ _ s1) as [[[tok q] eq] s2] eqn:Et.
  pose proof (peek_skip _ _ _ _ _ _ _ Hs Ep Et). eapply fine_mono; [|apply IH]; lia.
Qed.

Lemma parse_fine fuel : forall s, (s <= es)%nat ->
  ((5 * (es - s) + 4 < fuel)%nat -> fine s (parseline buf es fuel s)) /\ ((5 * (es - s) + 3 < fuel)%nat -> fine s (parsepipe buf es fuel s)) /\
  ((5 * (es - s) + 2 < fuel)%nat -> fine s (parseexec buf es fuel s)) /\ ((5 * (es - s) + 1 < fuel)%nat -> fine s (parseblock buf es fuel s)).
Proof.
  induction fuel as [|fuel IH]; intros s Hs; [split_and!; lia |]. split_and!; intros Hf.
  - rewrite parseline_S. eapply (fine_bind s s); [done | apply IH; lia |]. intros c s1 H1. eapply (fine_bind s s1); [lia | apply parseback_fine; lia |]. intros c2 s2 H2.
    destruct (peek _ _ s2 _) as [b s3] eqn:Ep. destruct (peek_bounds s2 _ _ _ ltac:(lia) Ep) as [H3 _]. destruct b; [|cbn; lia].
    destruct (gettoken _ _ s3) as [[[tok q] eq] s4] eqn:Et. pose proof (peek_skip s2 _ _ _ _ _ _ ltac:(lia) Ep Et).
    eapply (fine_bind s s4); [lia | apply IH; lia |]. intros c5 s5 H5. cbn. lia.
  - rewrite parsepipe_S. eapply (fine_bind s s); [done | apply IH; lia |]. intros c s1 H1.
    destruct (peek _ _ s1 _) as [b s3] eqn:Ep. destruct (peek_bounds s1 _ _ _ ltac:(lia) Ep) as [H3 _]. destruct b; [|cbn; lia].
    destruct (gettoken _ _ s3) as [[[tok q] eq] s4] eqn:Et. pose proof (peek_skip s1 _ _ _ _ _ _ ltac:(lia) Ep Et).
    eapply (fine_bind s s4); [lia | apply IH; lia |]. intros c5 s5 H5. cbn. lia.
  - rewrite parseexec_S. destruct (peek _ _ s _) as [b s1] eqn:Ep. destruct (peek_bounds s _ _ _ ltac:(lia) Ep) as [H1 _].
    destruct b; [eapply fine_mono; [|apply IH]; lia |]. eapply (fine_bind s s1); [lia | apply parseredirs_fine; lia |].
    intros c s2 H2. eapply (fine_mono s s2); [lia | apply parseargs_fine; lia].
  - rewrite parseblock_S. destruct (peek _ _ s _) as [b s1] eqn:Ep. destruct (peek_bounds s _ _ _ ltac:(lia) Ep) as [H1 _]. destruct b; [|done]. cbn [negb].
    destruct (gettoken _ _ s1) as [[[tok q] eq] s2] eqn:Et. pose proof (peek_skip _ _ _ _ _ _ _ Hs Ep Et).
    eapply (fine_bind s s2); [lia | apply IH; lia |]. intros c s3 H3. destruct (peek _ _ s3 _) as [b s4] eqn:Ep4.
    destruct (peek_bounds s3 _ _ _ ltac:(lia) Ep4) as [H4 _]. destruct b; [|done]. cbn [negb].
    destruct (gettoken _ _ s4) as [[[tok4 q4] eq4] s5] eqn:Et5. pose proof (peek_skip s3 _ _ _ _ _ _ ltac:(lia) Ep4 Et5).
    eapply (fine_mono s s5); [lia | apply parseredirs_fine; lia].
Qed.
(** ** The commands the parser makes *)

Definition wordc (x : Z) : bool := negb (isin whitespace x) && negb (isin symbols x).

(** A word: as long as it can be, and not empty. *)
Definition word (w : nat * nat) : Prop :=
  (w.1 < w.2 <= es)%nat /\ (forall i, (w.1 <= i < w.2)%nat -> wordc (at_ buf i) = true) /\ ((w.2 < es)%nat -> wordc (at_ buf w.2) = false).

Fixpoint wf_cmd (c : cmd) : Prop :=
  match c with
  | EXEC argv => (length argv < MAXARGS)%nat /\ Forall word argv
  | REDIR c q e mode fd => wf_cmd c /\ word (q, e) /\ (mode, fd) ∈ [(O_RDONLY, 0); (Z.lor (Z.lor O_WRONLY O_CREATE) O_TRUNC, 1); (Z.lor O_WRONLY O_CREATE, 1)]
  | PIPE l r | LIST l r => wf_cmd l /\ wf_cmd r
  | BACK c => wf_cmd c
  end.

Definition good (r : presult (cmd * nat)) : Prop := match r with Got (c, s) => wf_cmd c /\ (s <= es)%nat | _ => True end.

Lemma good_bind r (f : cmd * nat -> presult (cmd * nat)) : good r -> (forall c s, wf_cmd c -> (s <= es)%nat -> good (f (c, s))) -> good (r ≫= f).
Proof. intros Hr Hf. destruct r as [[c s]| |]; cbn in *; [destruct Hr; by apply Hf | done | done]. Qed.

Lemma advance_all n test s i : (s <= i < advance buf n test s)%nat -> test (at_ buf i) = true.
Proof.
  revert s. induction n as [|n IH]; intros s; cbn [advance]; [lia |]. destruct (test (at_ buf s)) eqn:E; [|lia]. intros Hi. destruct (decide (i = s)) as [->|]; [done | apply (IH (S s)); lia].
Qed.

Lemma gettoken_is_word s q e s' : (s <= es)%nat -> gettoken buf es s = (97, q, e, s') -> word (q, e).
Proof.
  intros Hs. unfold gettoken. set (a := skip buf es (isin whitespace) s). pose proof (skip_bounds (isin whitespace) s Hs) as Ha. fold a in Ha.
  destruct (Z.eqb_spec (at_ buf a) 0) as [E0|E0]; [intros [= E]; congruence |].
  assert (a < es)%nat as Hlt by (destruct (decide (a = es)) as [E|]; [by rewrite E in E0 | lia]).
  destruct (isin [124; 40; 41; 59; 38; 60] (at_ buf a)) eqn:E1; [intros [= E _]; by rewrite E in E1 |].
  destruct (Z.eqb_spec (at_ buf a) 62) as [E2|E2]; [destruct (at_ buf (S a) =? 62); [done |]; rewrite E2; done |]. intros [= <- <- _]. unfold word. cbn [fst snd].
  assert (wordc (at_ buf a) = true) as Hw.
  { unfold wordc. pose proof (skip_stop (isin whitespace) s Hs Hlt) as Hw. fold a in Hw. rewrite Hw. by rewrite isin_symbols, E1, (proj2 (Z.eqb_neq 62 (at_ buf a))) by congruence. }
  split; [split; [by apply skip_advances | apply skip_bounds; lia] |]. split; [|intros; apply skip_stop; [lia | done]]. intros i. apply advance_all.
Qed.

(** The words of a simple command, to which parseexec() adds. *)
Fixpoint nargs (c : cmd) : nat := match c with EXEC argv => length argv | REDIR c _ _ _ _ => nargs c | _ => 0 end.
Fixpoint simple (c : cmd) : Prop := match c with EXEC _ => True | REDIR c _ _ _ _ => simple c | _ => False end.

Lemma add_arg_wf c w : simple c -> wf_cmd c -> word w -> (S (nargs c) < MAXARGS)%nat -> wf_cmd (add_arg c w) /\ simple (add_arg c w) /\ nargs (add_arg c w) = S (nargs c).
Proof.
  intros Hs Hc Hw. induction c as [argv|c IH q e mode fd| | |]; cbn in *; try done.
  - intros Hn. destruct Hc as [Hl Hf]. rewrite length_app. cbn. split_and!; [lia | by apply Forall_app_2, Forall_singleton | done | lia].
  - intros Hn. destruct Hc as (Hc & Hq & Hm). destruct (IH Hs Hc Hn) as (? & ? & ?). done.
Qed.

(** What parseredirs() keeps of a simple command. *)
Definition same_args (c c' : cmd) : Prop := (simple c -> simple c') /\ nargs c' = nargs c.

Lemma parseredirs_good fuel : forall c s, wf_cmd c -> (s <= es)%nat -> good (parseredirs buf es fuel c s) /\ match parseredirs buf es fuel c s with Got (c', _) => same_args c c' | _ => True end.
Proof.
  induction fuel as [|fuel IH]; intros c s Hc Hs; [done |]. cbn [parseredirs]. destruct (peek _ _ s _) as [b s1] eqn:Ep.
  destruct (peek_bounds _ _ _ _ Hs Ep) as [H1 H1']. destruct b; [|cbn; split; [split; [done | lia] | done]]. destruct (gettoken _ _ s1) as [[[tok ?] ?] s2] eqn:Et.
  destruct (gettoken_bounds s1 _ _ _ _ ltac:(lia) Et) as [H2 _]. destruct (gettoken _ _ s2) as [[[tok2 q] e] s3] eqn:Et2.
  destruct (gettoken_bounds s2 _ _ _ _ ltac:(lia) Et2) as [H3 _]. destruct (Z.eqb_spec tok2 97) as [->|]; [|done]. cbn [negb]. pose proof (gettoken_is_word s2 _ _ _ ltac:(lia) Et2) as Hw.
  assert (forall c1, wf_cmd c1 -> same_args c c1 -> good (parseredirs buf es fuel c1 s3) /\ match parseredirs buf es fuel c1 s3 with Got (c', _) => same_args c c' | _ => True end) as Hgo.
  { intros c1 Hc1 [Ha Hn]. destruct (IH c1 s3 Hc1 ltac:(lia)) as [Hg Hsame]. split; [done |]. destruct (parseredirs buf es fuel c1 s3) as [[c' ?]| |]; try done. destruct Hsame as [Ha' Hn']. split; [auto | congruence]. }
  destruct (tok =? 60); [|destruct (tok =? 62); [|destruct (tok =? 43)]]; apply Hgo; try done; (split_and!; [done | done |]); set_solver +.
Qed.

Lemma parseargs_good fuel : forall c n s, wf_cmd c -> simple c -> nargs c = n -> (s <= es)%nat -> good (parseargs buf es fuel c n s).
Proof.
  induction fuel as [|fuel IH]; intros c n s Hc Hsc Hn Hs; [done |]. cbn [parseargs]. destruct (peek _ _ s _) as [b s1] eqn:Ep.
  destruct (peek_bounds _ _ _ _ Hs Ep) as [H1 _]. destruct b; [cbn; split; [done | lia] |]. destruct (gettoken _ _ s1) as [[[tok q] e] s2] eqn:Et.
  destruct (gettoken_bounds s1 _ _ _ _ ltac:(lia) Et) as [H2 _]. destruct (tok =? 0); [cbn; split; [done | lia] |].
  destruct (Z.eqb_spec tok 97) as [->|]; [|done]. cbn [negb]. destruct (Nat.leb_spec MAXARGS (S n)) as [|Hlt]; [done |].
  destruct (add_arg_wf c (q, e) Hsc Hc) as (Hc1 & Hs1 & Hn1); [by eapply gettoken_is_word; [|done]; lia | by rewrite Hn |].
  destruct (parseredirs_good fuel (add_arg c (q, e)) s2 Hc1 ltac:(lia)) as [Hg Hsame]. destruct (parseredirs buf es fuel (add_arg c (q, e)) s2) as [[c2 s3]| |]; try done.
  destruct Hg as [Hc2 H3], Hsame as [Ha Hn2]. apply IH; [done | by apply Ha | congruence | done].
Qed.

Lemma parseback_good fuel : forall c s, wf_cmd c -> (s <= es)%nat -> good (parseback buf es fuel c s).
Proof.
  induction fuel as [|fuel IH]; intros c s Hc Hs; [done |]. cbn [parseback]. destruct (peek _ _ s _) as [b s1] eqn:Ep.
  destruct (peek_bounds _ _ _ _ Hs Ep) as [H1 _]. destruct b; [|cbn; split; [done | lia]]. destruct (gettoken _ _ s1) as [[[tok q] e] s2] eqn:Et.
  pose proof (peek_skip _ _ _ _ _ _ _ Hs Ep Et). apply IH; [done | lia].
Qed.

Lemma parse_good fuel : forall s, (s <= es)%nat -> good (parseline buf es fuel s) /\ good (parsepipe buf es fuel s) /\ good (parseexec buf es fuel s) /\ good (parseblock buf es fuel s).
Proof.
  induction fuel as [|fuel IH]; intros s Hs; [done |]. split_and!.
  - rewrite parseline_S. apply good_bind; [by apply IH |]. intros c s1 Hc H1. apply good_bind; [by apply parseback_good |]. intros c2 s2 Hc2 H2.
    destruct (peek _ _ s2 _) as [b s3] eqn:Ep. destruct (peek_bounds s2 _ _ _ H2 Ep) as [H3 _]. destruct b; [|cbn; split; [done | lia]].
    destruct (gettoken _ _ s3) as [[[tok q] e] s4] eqn:Et. pose proof (peek_skip s2 _ _ _ _ _ _ H2 Ep Et). apply good_bind; [apply IH; lia |]. done.
  - rewrite parsepipe_S. apply good_bind; [by apply IH |]. intros c s1 Hc H1.
    destruct (peek _ _ s1 _) as [b s3] eqn:Ep. destruct (peek_bounds s1 _ _ _ H1 Ep) as [H3 _]. destruct b; [|cbn; split; [done | lia]].
    destruct (gettoken _ _ s3) as [[[tok q] e] s4] eqn:Et. pose proof (peek_skip s1 _ _ _ _ _ _ H1 Ep Et). apply good_bind; [apply IH; lia |]. done.
  - rewrite parseexec_S. destruct (peek _ _ s _) as [b s1] eqn:Ep. destruct (peek_bounds s _ _ _ Hs Ep) as [H1 _]. destruct b; [apply IH; lia |].
    destruct (parseredirs_good fuel (EXEC []) s1) as [Hg Hsame]; [split; [cbn; unfold MAXARGS; lia | constructor] | lia |]. destruct (parseredirs buf es fuel (EXEC []) s1) as [[c s2]| |]; try done.
    destruct Hg as [Hc H2], Hsame as [Ha Hn]. apply parseargs_good; [done | by apply Ha | done | done].
  - rewrite parseblock_S. destruct (peek _ _ s _) as [b s1] eqn:Ep. destruct (peek_bounds s _ _ _ Hs Ep) as [H1 _]. destruct b; [|done]. cbn [negb].
    destruct (gettoken _ _ s1) as [[[tok q] e] s2] eqn:Et. pose proof (peek_skip _ _ _ _ _ _ _ Hs Ep Et). apply good_bind; [apply IH; lia |]. intros c s3 Hc H3.
    destruct (peek _ _ s3 _) as [b s4] eqn:Ep4. destruct (peek_bounds s3 _ _ _ H3 Ep4) as [H4 _]. destruct b; [|done]. cbn [negb].
    destruct (gettoken _ _ s4) as [[[tok4 q4] e4] s5] eqn:Et5. pose proof (peek_skip s3 _ _ _ _ _ _ H3 Ep4 Et5). apply parseredirs_good; [done | lia].
Qed.
End total.

(** The bytes before position strlen(buf) are not NUL, the one there is. *)
Lemma strlen_bytes buf : (forall i, (i < Z.to_nat (strlen buf))%nat -> at_ buf i <> 0) /\ at_ buf (Z.to_nat (strlen buf)) = 0.
Proof.
  assert (forall s, 0 <= strlen s) as Hp by (induction s as [|c s IH]; cbn; [lia |]; destruct (c =? 0); lia).
  induction buf as [|c buf [IH1 IH2]]; cbn [strlen]; [split; [cbn; lia | done] |]. destruct (Z.eqb_spec c 0) as [->|Hc]; [split; [cbn; lia | done] |].
  specialize (Hp buf). rewrite Z2Nat.inj_add by lia. change (Z.to_nat 1) with 1%nat. split; [|exact IH2]. intros [|i] Hi; [done | apply IH1; lia].
Qed.

Lemma parsecmd_fuel buf : parsecmd buf <> Fuel.
Proof.
  unfold parsecmd. set (es := Z.to_nat (strlen buf)). destruct (strlen_bytes buf) as [Hnz Hes]. fold es in Hnz, Hes.
  destruct (parse_fine buf es Hnz Hes (5 * es + 10) 0 ltac:(lia)) as [Hf _]. specialize (Hf ltac:(lia)).
  destruct (parseline buf es (5 * es + 10) 0) as [[c s]| |]; cbn in *; [|done | done]. destruct (negb _); done.
Qed.

(** C35. The parser terminates on every input: parsecmd() returns a command or reports a
    syntax error, and the fuel of the model always suffices. *)
Theorem parsecmd_total buf : parsecmd buf <> Fuel.
Proof. apply parsecmd_fuel. Qed.

(** ** Types *)

(** The words of a command: arguments and file names. *)
Fixpoint words (c : cmd) : list (nat * nat) :=
  match c with
  | EXEC argv => argv
  | REDIR c q e _ _ => words c ++ [(q, e)]
  | PIPE l r | LIST l r => words l ++ words r
  | BACK c => words c
  end.

Lemma nulterminate_words c : forall buf, nulterminate c buf = foldl (fun b w => nul_at w.2 b) buf (words c).
Proof.
  induction c as [argv|c IH q e mode fd|l IHl r IHr|l IHl r IHr|c IH]; intros buf; cbn; rewrite ?foldl_app; [done | by rewrite IH | by rewrite IHr, IHl | by rewrite IHr, IHl | apply IH].
Qed.

Lemma words_wf buf es c : wf_cmd buf es c -> Forall (word buf es) (words c).
Proof.
  induction c as [argv|c IH q e mode fd|l IHl r IHr|l IHl r IHr|c IH]; cbn; [tauto | | | | done].
  - intros (Hc & Hw & _). apply Forall_app_2; [auto | by apply Forall_singleton].
  - intros [Hl Hr]. apply Forall_app_2; auto.
  - intros [Hl Hr]. apply Forall_app_2; auto.
Qed.

(** The bytes after the words have been cut out. *)
Lemma nul_bytes (ws : list (nat * nat)) : forall buf i, (forall w, w ∈ ws -> (w.2 < length buf)%nat) -> length (foldl (fun b w => nul_at w.2 b) buf ws) = length buf /\
  at_ (foldl (fun b w => nul_at w.2 b) buf ws) i = if decide (i ∈ ws.*2) then 0 else at_ buf i.
Proof.
  induction ws as [|w ws IH]; intros buf i Hw; [done |]. cbn [foldl fmap list_fmap].
  assert (length (nul_at w.2 buf) = length buf) as Hl by (apply length_insert). destruct (IH (nul_at w.2 buf) i) as [H1 H2].
  { intros v Hv. rewrite Hl. apply Hw. by apply list_elem_of_further. }
  split; [congruence |]. rewrite H2. clear H1 H2. specialize (Hw w (list_elem_of_here _ _)). destruct (decide (i ∈ ws.*2)) as [Hi|Hi].
  - by rewrite decide_True by (by apply list_elem_of_further).
  - unfold at_, nul_at. destruct (decide (w.2 = i)) as [<-|Hne]; [rewrite list_lookup_insert_eq by done; by rewrite decide_True by apply list_elem_of_here |].
    rewrite list_lookup_insert_ne by done. rewrite decide_False; [done |]. rewrite elem_of_cons. naive_solver.
Qed.

(** C34. parsecmd() on any line, a string in the array [buf], makes only well-formed commands: fewer than MAXARGS
    arguments, file modes and descriptors that go together, and words that are not empty, contain no blank or operator
    and cannot be made longer.  In the array it leaves, each of them is a string: its own bytes, then a NUL. *)
Theorem parsecmd_wf buf c buf' : (Z.to_nat (strlen buf) < length buf)%nat -> parsecmd buf = Got (c, buf') ->
  wf_cmd buf (Z.to_nat (strlen buf)) c /\ length buf' = length buf /\
  forall q e, (q, e) ∈ words c -> at_ buf' e = 0 /\ forall i, (q <= i < e)%nat -> at_ buf' i = at_ buf i /\ at_ buf i <> 0.
Proof.
  intros Hlen. unfold parsecmd. set (es := Z.to_nat (strlen buf)) in *. destruct (strlen_bytes buf) as [Hnz Hes]. fold es in Hnz, Hes.
  destruct (parse_good buf es Hnz Hes (5 * es + 10) 0 ltac:(lia)) as [Hg _]. destruct (parseline buf es (5 * es + 10) 0) as [[c1 s]| |]; try done. destruct Hg as [Hwf _].
  cbn. destruct (negb _); intros [= <- <-]. pose proof (words_wf buf es c1 Hwf) as Hw. rewrite Forall_forall in Hw. rewrite nulterminate_words.
  assert (forall w, w ∈ words c1 -> (w.2 < length buf)%nat) as Hin by (intros w Hi; destruct (Hw w Hi) as [? _]; lia).
  split; [done |]. split; [by apply (nul_bytes _ buf 0) |]. intros q e Hqe. destruct (Hw _ Hqe) as (Hb & Hc & _). cbn in Hb, Hc. split.
  - rewrite (proj2 (nul_bytes _ buf e Hin)). rewrite decide_True; [done |]. apply list_elem_of_fmap. by exists (q, e).
  - intros i Hi. split; [|apply Hnz; lia]. rewrite (proj2 (nul_bytes _ buf i Hin)). rewrite decide_False; [done |]. intros ([q' e'] & -> & Hi')%list_elem_of_fmap.
    destruct (Hw _ Hi') as (_ & _ & He). cbn in *. rewrite Hc in He by done. specialize (He ltac:(lia)). done.
Qed.
