(* ===== verification/ShPrint.v ===== *)
(** * Text of shell commands (user/sh.c)

    A printer for commands, and the proof that parsecmd() with nulterminate() gives back
    the command that was printed. *)

From S2P Require Import Prelude Ulib Sh.

(** ** Commands as text *)

(** A parsed command with its strings. *)
Inductive shcmd :=
  | SExec (args : list (list Z))
  | SRedir (c : shcmd) (file : list Z) (mode fd : Z)
  | SPipe (left right : shcmd)
  | SList (left right : shcmd)
  | SBack (c : shcmd).

(** The string at position [q]. *)
Fixpoint until_nul (s : list Z) : list Z := match s with [] => [] | c :: s' => if c =? 0 then [] else c :: until_nul s' end.
Definition string_at (buf : list Z) (q : nat) : list Z := until_nul (drop q buf).

(** What runcmd() sees of a command. *)
Fixpoint denote (buf : list Z) (c : cmd) : shcmd :=
  match c with
  | EXEC argv => SExec ((fun w => string_at buf w.1) <$> argv)
  | REDIR c q _ mode fd => SRedir (denote buf c) (string_at buf q) mode fd
  | PIPE l r => SPipe (denote buf l) (denote buf r)
  | LIST l r => SList (denote buf l) (denote buf r)
  | BACK c => SBack (denote buf c)
  end.

Inductive token := Word (w : list Z) | Sym (c : Z) | Append.
Definition token_text (t : token) : list Z := match t with Word w => w | Sym c => [c] | Append => [62; 62] end.

(** Every token is followed by a space. *)
Definition text (l : list token) : list Z := concat ((fun t => token_text t ++ [32]) <$> l).

Inductive redir_token : Z -> Z -> token -> Prop :=
  | redir_in : redir_token O_RDONLY 0 (Sym 60)
  | redir_out : redir_token (Z.lor (Z.lor O_WRONLY O_CREATE) O_TRUNC) 1 (Sym 62)
  | redir_append : redir_token (Z.lor O_WRONLY O_CREATE) 1 Append.

Definition redir_sym (mode fd : Z) : token :=
  if (fd =? 0) then Sym 60 else if mode =? Z.lor O_WRONLY O_CREATE then Append else Sym 62.

Definition paren (b : bool) (l : list token) : list token := if b then [Sym 40] ++ l ++ [Sym 41] else l.

(** The text of a command, as a line (0), as the part before & (1), as a part of a pipe
    line (2) or as a simple command or block (3). *)
Fixpoint print (lv : nat) (c : shcmd) : list token :=
  match c with
  | SExec args => Word <$> args
  | SRedir c file mode fd => print 3 c ++ [redir_sym mode fd; Word file]
  | SPipe l r => paren (2 <? lv)%nat (print 3 l ++ [Sym 124] ++ print 2 r)
  | SBack c => paren (1 <? lv)%nat (print 1 c ++ [Sym 38])
  | SList l r => paren (0 <? lv)%nat (print 1 l ++ [Sym 59] ++ print 0 r)
  end.

(** A byte of a word. *)
Definition word_char (c : Z) : Prop := c <> 0 /\ isin whitespace c = false /\ isin symbols c = false.
Definition word_ok (w : list Z) : Prop := w <> [] /\ Forall word_char w.

(** Commands the grammar has: words, at most nine arguments, the three redirections. *)
Fixpoint sh_ok (c : shcmd) : Prop :=
  match c with
  | SExec args => Forall word_ok args /\ (length args < MAXARGS)%nat
  | SRedir c file mode fd => sh_ok c /\ word_ok file /\ redir_token mode fd (redir_sym mode fd)
  | SPipe l r | SList l r => sh_ok l /\ sh_ok r
  | SBack c => sh_ok c
  end.

(** ** Tokens *)

Definition token_ok (t : token) : Prop := match t with Word w => word_ok w | Sym c => c ∈ symbols | Append => True end.

Lemma isin_elem toks c : nonul toks -> isin toks c = true <-> c ∈ toks.
Proof.
  unfold isin. induction 1 as [|x toks Hx _ IH]; cbn [strchr]; [set_solver |]. rewrite (proj2 (Z.eqb_neq x 0)) by done.
  destruct (Z.eqb_spec x c) as [->|Hne]; [set_solver |]. rewrite IH. set_solver.
Qed.

(** A byte of a word is none of the symbols. *)
Lemma word_char_not toks c : word_char c -> toks ⊆ symbols -> isin toks c = false.
Proof.
  intros (_ & _ & Hs) Hsub. assert (nonul symbols) as Hn by (repeat constructor; done).
  assert (nonul toks) as Ht by (apply Forall_forall; intros x Hx; exact (proj1 (Forall_forall _ _) Hn x (Hsub x Hx))).
  apply not_true_iff_false. intros Hi%isin_elem; [|done]. apply Hsub, isin_elem in Hi; [congruence | done].
Qed.

Section roundtrip.
Variable buf : list Z.
Let es : nat := length buf.

(** The rest of the line from position [s] on is the text of the tokens. *)
Definition at_tokens (s : nat) (l : list token) : Prop := drop s buf = text l /\ Forall token_ok l.

Lemma at_lookup s l c l' : drop s buf = l -> l = c :: l' -> at_ buf s = c /\ (s < es)%nat /\ drop (S s) buf = l'.
Proof.
  intros Hd ->. assert (buf !! s = Some c) as Hc by (rewrite <- (Nat.add_0_r s), <- lookup_drop, Hd; done).
  split_and!; [unfold at_; by rewrite Hc | by eapply lookup_lt_Some | rewrite <- Nat.add_1_r, <- drop_drop, Hd; done].
Qed.

Lemma skip_over test s l1 l2 : drop s buf = l1 ++ l2 -> Forall (fun c => test c = true) l1 ->
  (l2 = [] \/ exists c l3, l2 = c :: l3 /\ test c = false) -> skip buf es test s = (s + length l1)%nat /\ drop (s + length l1) buf = l2.
Proof.
  intros Hd Ht Hl2. split; [|rewrite <- drop_drop, Hd; by rewrite drop_app_length]. revert s Hd. induction Ht as [|c l1 Hc Ht IH]; intros s Hd; cbn in *.
  - rewrite Nat.add_0_r. unfold skip. destruct Hl2 as [->|(c & l3 & -> & Hc)].
    + assert (length (drop s buf) = 0%nat) as Hz by (by rewrite Hd). rewrite length_drop in Hz. fold es in Hz. by rewrite Hz.
    + destruct (at_lookup _ _ _ _ Hd eq_refl) as (Ha & Hlt & _). apply skip_here; [done | by rewrite Ha].
  - destruct (at_lookup _ _ _ _ Hd eq_refl) as (Ha & Hlt & Hd'). specialize (IH _ Hd'). unfold skip in *.
    replace (es - s)%nat with (S (es - S s)) by lia. cbn [advance]. rewrite Ha, Hc, IH. lia.
Qed.

Lemma text_cons t l : text (t :: l) = token_text t ++ [32] ++ text l.
Proof. unfold text. cbn. by rewrite <- app_assoc. Qed.

(** The text of tokens starts with a byte that is not white space. *)
Lemma token_head t : token_ok t -> exists c r, token_text t = c :: r /\ c <> 0 /\ isin whitespace c = false.
Proof.
  destruct t as [w|c|]; cbn.
  - intros [Hne Hw]. destruct Hw as [|c w [H1 [H2 _]] _]; [done |]. by exists c, w.
  - intros Hc. exists c, []. apply list_elem_of_In in Hc. cbn in Hc. by repeat destruct Hc as [<-|Hc]; try done.
  - intros _. by exists 62, [62].
Qed.

Lemma text_head l : Forall token_ok l -> text l = [] \/ exists c r, text l = c :: r /\ isin whitespace c = false.
Proof.
  intros [|t l' Ht _]; [by left |]. right. destruct (token_head t Ht) as (c & r & E & _ & Hw). rewrite text_cons, E. by exists c, (r ++ [32] ++ text l').
Qed.

Lemma at_text s t l : at_tokens s (t :: l) -> token_ok t /\ Forall token_ok l /\ drop s buf = token_text t ++ [32] ++ text l.
Proof. intros [Hd Hok]. apply Forall_cons in Hok as [? ?]. by rewrite Hd, text_cons. Qed.

(** Past the token and the space is the next token. *)
Lemma at_next s t l : at_tokens s (t :: l) -> skip buf es (isin whitespace) (s + length (token_text t)) = S (s + length (token_text t)) /\
  at_tokens (S (s + length (token_text t))) l.
Proof.
  intros (Ht & Hl & Hd)%at_text. assert (drop (s + length (token_text t)) buf = [32] ++ text l) as Hd2 by (rewrite <- drop_drop, Hd; apply drop_app_length).
  destruct (skip_over (isin whitespace) _ [32] (text l) Hd2) as [E1 E2]; [by repeat constructor | | rewrite Nat.add_1_r in E1, E2; by repeat split].
  destruct (text_head l Hl) as [?|(c & r & ? & ?)]; [by left | right; eauto].
Qed.

Definition first_char (t : token) : Z := match t with Word w => chr w | Sym c => c | Append => 62 end.

Lemma at_first s t l : at_tokens s (t :: l) -> at_ buf s = first_char t /\ (s < es)%nat /\ first_char t <> 0 /\ skip buf es (isin whitespace) s = s.
Proof.
  intros (Ht & _ & Hd)%at_text. destruct (token_head t Ht) as (c & r & E & Hc & Hw). rewrite E in Hd.
  assert (first_char t = c) as -> by (destruct t; cbn in *; by simplify_eq). destruct (at_lookup _ _ _ _ Hd eq_refl) as (Ha & Hlt & _).
  split_and!; [done | done | done |]. apply skip_here; [done | by rewrite Ha].
Qed.

Lemma peek_tok s t l toks : at_tokens s (t :: l) -> peek buf es s toks = (isin toks (first_char t), s).
Proof. intros H. destruct (at_first _ _ _ H) as (Ha & _ & Hn & Hs). unfold peek. rewrite Hs, Ha. by rewrite (proj2 (Z.eqb_neq _ _)). Qed.

Lemma at_end s : at_tokens s [] -> at_ buf s = 0 /\ forall test, skip buf es test s = s.
Proof.
  intros [Hd _]. assert (es - s = 0)%nat as Hz by (assert (length (drop s buf) = 0%nat) as E by (by rewrite Hd); rewrite length_drop in E; done).
  split; [unfold at_; rewrite lookup_ge_None_2; [done | unfold es in Hz; lia] | intros test; unfold skip; by rewrite Hz].
Qed.

Lemma peek_end s toks : at_tokens s [] -> peek buf es s toks = (false, s).
Proof. intros [Ha Hs]%at_end. unfold peek. by rewrite Hs, Ha. Qed.

Lemma gettoken_end s : at_tokens s [] -> gettoken buf es s = (0, s, s, s).
Proof. intros [Ha Hs]%at_end. unfold gettoken. rewrite Hs, Ha. cbn. by rewrite Hs. Qed.

Lemma gettoken_word s w l : at_tokens s (Word w :: l) -> exists s', gettoken buf es s = (97, s, (s + length w)%nat, s') /\ at_tokens s' l.
Proof.
  intros H. destruct (at_first _ _ _ H) as (Ha & Hlt & Hn & Hs). destruct (at_next _ _ _ H) as [E1 E2]. destruct (at_text _ _ _ H) as ([Hne Hw] & Hl & Hd).
  cbn [token_text first_char] in *. exists (S (s + length w)). split; [|done]. unfold gettoken. rewrite Hs, Ha, (proj2 (Z.eqb_neq _ _)) by done.
  assert (word_char (chr w)) as Hc by (destruct w as [|x w]; [done | by apply Forall_cons in Hw as [? _]]).
  rewrite (word_char_not [124; 40; 41; 59; 38; 60]) by (done || (unfold symbols; set_solver +)).
  rewrite (proj2 (Z.eqb_neq (chr w) 62)).
  2: { intros E. destruct Hc as (_ & _ & Hc). rewrite E in Hc. done. }
  destruct (skip_over (fun x => negb (isin whitespace x) && negb (isin symbols x)) s w ([32] ++ text l) Hd) as [-> _].
  - eapply Forall_impl; [exact Hw |]. by intros c (_ & -> & ->).
  - right. by exists 32, (text l).
  - by rewrite E1.
Qed.

Lemma gettoken_sym s c l : at_tokens s (Sym c :: l) -> exists s', gettoken buf es s = (c, s, S s, s') /\ at_tokens s' l.
Proof.
  intros H. destruct (at_first _ _ _ H) as (Ha & Hlt & Hn & Hs). destruct (at_next _ _ _ H) as [E1 E2]. destruct (at_text _ _ _ H) as (Hc & Hl & Hd).
  cbn [token_text first_char length] in *. rewrite Nat.add_1_r in *. exists (S (S s)). split; [|done]. unfold gettoken. rewrite Hs, Ha, (proj2 (Z.eqb_neq _ _)) by done.
  destruct (at_lookup _ _ _ _ Hd eq_refl) as (_ & _ & Hd2). destruct (at_lookup _ _ _ _ Hd2 eq_refl) as (Ha2 & _).
  destruct (isin [124; 40; 41; 59; 38; 60] c) eqn:Ei; [by rewrite E1 |]. cbn in Hc. apply isin_elem in Hc; [|repeat constructor; done].
  rewrite isin_symbols, Ei in Hc. cbn [orb] in Hc. apply Z.eqb_eq in Hc as <-. rewrite Z.eqb_refl, Ha2. cbn [Z.eqb Pos.eqb]. by rewrite E1.
Qed.

Lemma gettoken_append s l : at_tokens s (Append :: l) -> exists s', gettoken buf es s = (43, s, S (S s), s') /\ at_tokens s' l.
Proof.
  intros H. destruct (at_first _ _ _ H) as (Ha & Hlt & Hn & Hs). destruct (at_next _ _ _ H) as [E1 E2]. destruct (at_text _ _ _ H) as (_ & Hl & Hd).
  cbn [token_text first_char length] in *. rewrite !Nat.add_succ_r, Nat.add_0_r in *. exists (S (S (S s))). split; [|done].
  destruct (at_lookup _ _ _ _ Hd eq_refl) as (_ & _ & Hd2). destruct (at_lookup _ _ _ _ Hd2 eq_refl) as (Ha2 & _).
  unfold gettoken. rewrite Hs, Ha. cbn. rewrite Ha2. cbn. by rewrite E1.
Qed.

(** ** The parser on tokens *)

(** The word between two positions. *)
Definition good (w : nat * nat) (x : list Z) : Prop := w.2 = (w.1 + length x)%nat /\ word_ok x /\ exists r, drop w.1 buf = x ++ [32] ++ r.

(** The command that was parsed is the command that was printed. *)
Inductive parsed : cmd -> shcmd -> Prop :=
  | parsed_exec argv args : Forall2 good argv args -> parsed (EXEC argv) (SExec args)
  | parsed_redir c c' q e file mode fd : parsed c c' -> good (q, e) file -> parsed (REDIR c q e mode fd) (SRedir c' file mode fd)
  | parsed_pipe l l' r r' : parsed l l' -> parsed r r' -> parsed (PIPE l r) (SPipe l' r')
  | parsed_list l l' r r' : parsed l l' -> parsed r r' -> parsed (LIST l r) (SList l' r')
  | parsed_back c c' : parsed c c' -> parsed (BACK c) (SBack c').

(** The tokens left start with none but these symbols. *)
Definition follow (toks : list Z) (l : list token) : Prop := match l with [] => True | Sym c :: _ => c ∈ toks | _ => False end.
(** ... or with a redirection. *)
Definition stop (l : list token) : Prop := match l with Append :: _ => True | _ => follow [60; 62; 124; 38; 59; 41] l end.

Lemma follow_mono t1 t2 l : follow t1 l -> t1 ⊆ t2 -> follow t2 l.
Proof. destruct l as [|[w|c|] l]; cbn; try done. set_solver. Qed.

Lemma follow_stop toks l : follow toks l -> toks ⊆ [60; 62; 124; 38; 59; 41] -> stop l.
Proof. intros Hf Hs. pose proof (follow_mono _ _ _ Hf Hs). by destruct l as [|[w|c|] l]. Qed.

Lemma peek_no s l toks test : at_tokens s l -> follow toks l -> nonul test -> toks ## test -> peek buf es s test = (false, s).
Proof.
  intros Ha Hf Hn Hd. destruct l as [|[w|c|] l]; cbn in Hf; try done; [by apply peek_end |]. rewrite (peek_tok _ _ _ _ Ha). f_equal.
  apply not_true_iff_false. intros Hi%isin_elem; [|done]. set_solver.
Qed.

Lemma peek_word s w l test : at_tokens s (Word w :: l) -> test ⊆ symbols -> peek buf es s test = (false, s).
Proof.
  intros Ha Hs. rewrite (peek_tok _ _ _ _ Ha). f_equal. destruct (at_text _ _ _ Ha) as ([Hne Hw] & _). apply word_char_not; [|done].
  destruct w as [|x w]; [done | by apply Forall_cons in Hw as [? _]].
Qed.

(** The parser returns [c] and leaves [rest], unless its fuel runs out. *)
Definition got (r : presult (cmd * nat)) (c : shcmd) (rest : list token) : Prop :=
  r = Fuel \/ exists c' s', r = Got (c', s') /\ at_tokens s' rest /\ parsed c' c.

(** What is left to do when a simple command or block has been read: its redirections,
    then [K], which returns at the end of the command. *)
Definition at_redirs (r : presult (cmd * nat)) (c : shcmd) (rest : list token) : Prop :=
  r = Fuel \/ exists f c' s' K, r = K (parseredirs buf es f c' s') /\ at_tokens s' rest /\ parsed c' c /\ K Fuel = Fuel /\
    forall c2 s2 l2, follow [124; 38; 59; 41] l2 -> at_tokens s2 l2 -> K (Got (c2, s2)) = Fuel \/ K (Got (c2, s2)) = Got (c2, s2).

Lemma redirs_done f c s l : at_tokens s l -> follow [124; 38; 59; 41] l -> parseredirs buf es f c s = Fuel \/ parseredirs buf es f c s = Got (c, s).
Proof.
  intros Ha Hf. destruct f as [|f]; [by left |]. right. cbn [parseredirs]. rewrite (peek_no s l [124; 38; 59; 41]); try done; [repeat constructor; done | set_solver +].
Qed.

Lemma at_redirs_got r c rest : at_redirs r c rest -> follow [124; 38; 59; 41] rest -> got r c rest.
Proof.
  intros [->|(f & c' & s' & K & -> & Ha & Hp & Hk & Hd)] Hf; [by left |]. destruct (redirs_done f c' s' rest Ha Hf) as [-> | ->]; [left; exact Hk |].
  destruct (Hd c' s' rest Hf Ha) as [-> | ->]; [by left | right; eauto].
Qed.

Lemma args_done f c n s l : at_tokens s l -> follow [124; 38; 59; 41] l -> parseargs buf es f c n s = Fuel \/ parseargs buf es f c n s = Got (c, s).
Proof.
  intros Ha Hf. destruct f as [|f]; [by left |]. right. cbn [parseargs]. destruct l as [|[w|x|] l]; cbn in Hf; try done.
  - by rewrite peek_end, gettoken_end.
  - rewrite (peek_tok _ _ _ _ Ha). cbn [first_char]. rewrite (proj2 (isin_elem [124; 41; 38; 59] x ltac:(repeat constructor; done))); [done | set_solver].
Qed.

Lemma word_good s w l : at_tokens s (Word w :: l) -> good (s, (s + length w)%nat) w.
Proof. intros (Hw & _ & Hd)%at_text. split_and!; [done | done | by eexists]. Qed.

(** The arguments of a simple command. *)
Lemma args_read args : forall f f2 n argv done_ s rest, Forall word_ok args -> (n + length args < MAXARGS)%nat -> stop rest ->
  at_tokens s ((Word <$> args) ++ rest) -> Forall2 good argv done_ ->
  at_redirs ('(ret, s) ← parseredirs buf es f (EXEC argv) s; parseargs buf es f2 ret n s) (SExec (done_ ++ args)) rest.
Proof.
  induction args as [|w args IH]; intros f f2 n argv done_ s rest Hok Hn Hst Ha Hg; cbn [fmap list_fmap app length] in *.
  - right. exists f, (EXEC argv), s, (fun r => '(ret, s) ← r; parseargs buf es f2 ret n s). rewrite app_nil_r. split_and!; try done; [by constructor |].
    intros c2 s2 l2 Hf Ha2. cbn. by eapply args_done.
  - apply Forall_cons in Hok as [Hw Hok]. destruct f as [|f]; [by left |]. cbn [parseredirs].
    rewrite (peek_word _ _ _ _ Ha) by (unfold symbols; set_solver +). cbn [negb mbind presult_bind].
    destruct f2 as [|f2]; [by left |]. cbn [parseargs]. rewrite (peek_word _ _ _ _ Ha) by (unfold symbols; set_solver +).
    destruct (gettoken_word _ _ _ Ha) as (s' & -> & Ha'). cbn [Z.eqb Pos.eqb negb add_arg].
    rewrite (proj2 (Nat.leb_gt _ _)) by lia. replace (done_ ++ w :: args) with ((done_ ++ [w]) ++ args) by (by rewrite <- app_assoc).
    apply IH; try done; [lia |]. apply Forall2_app; [done |]. constructor; [by eapply word_good | constructor].
Qed.

(** One redirection. *)
Lemma redir_read r c rest t file mode fd : redir_token mode fd t -> at_redirs r c (t :: Word file :: rest) -> at_redirs r (SRedir c file mode fd) rest.
Proof.
  intros Ht [->|(f & c' & s' & K & -> & Ha & Hp & Hk & Hd)]; [by left |]. destruct f as [|f]; [left; exact Hk |]. right.
  assert (exists tok q e s1, gettoken buf es s' = (tok, q, e, s1) /\ at_tokens s1 (Word file :: rest) /\ isin [60; 62] (first_char t) = true /\
    forall q2 e2, (if tok =? 60 then REDIR c' q2 e2 O_RDONLY 0 else if tok =? 62 then REDIR c' q2 e2 (Z.lor (Z.lor O_WRONLY O_CREATE) O_TRUNC) 1
      else if tok =? 43 then REDIR c' q2 e2 (Z.lor O_WRONLY O_CREATE) 1 else c') = REDIR c' q2 e2 mode fd) as (tok & q & e & s1 & Eg & Ha1 & Hi & Hr).
  { destruct Ht; [destruct (gettoken_sym _ _ _ Ha) as (s1 & E & Ha1) | destruct (gettoken_sym _ _ _ Ha) as (s1 & E & Ha1) |
      destruct (gettoken_append _ _ Ha) as (s1 & E & Ha1)]; rewrite E; do 4 eexists; split_and!; done. }
  destruct (gettoken_word _ _ _ Ha1) as (s2 & Eg2 & Ha2).
  exists f, (REDIR c' s1 (s1 + length file)%nat mode fd), s2, K. split_and!; try done.
  - cbn [parseredirs]. rewrite (peek_tok _ _ _ _ Ha), Hi. cbn [negb]. rewrite Eg, Eg2. cbn [Z.eqb Pos.eqb negb]. by rewrite Hr.
  - constructor; [done | by eapply word_good].
Qed.

(** The four levels of the grammar. *)
Definition level3 c : Prop := forall fuel s rest, stop rest -> at_tokens s (print 3 c ++ rest) -> at_redirs (parseexec buf es fuel s) c rest.
Definition level2 c : Prop := forall fuel s rest, follow [38; 59; 41] rest -> at_tokens s (print 2 c ++ rest) -> got (parsepipe buf es fuel s) c rest.
Definition level1 c : Prop := forall fuel fuel2 s rest, follow [38; 59; 41] rest -> at_tokens s (print 1 c ++ rest) ->
  let r := '(c, s) ← parsepipe buf es fuel s; parseback buf es fuel2 c s in
  r = Fuel \/ exists f c' s', r = parseback buf es f c' s' /\ at_tokens s' rest /\ parsed c' c.
Definition level0 c : Prop := forall fuel s rest, follow [41] rest -> at_tokens s (print 0 c ++ rest) -> got (parseline buf es fuel s) c rest.

Lemma level3_got c fuel s rest : level3 c -> follow [124; 38; 59; 41] rest -> at_tokens s (print 3 c ++ rest) -> got (parseexec buf es fuel s) c rest.
Proof. intros H3 Hf Ha. apply at_redirs_got; [|done]. apply H3; [|done]. eapply follow_stop; [done | set_solver +]. Qed.

Lemma level_32 c : print 2 c = print 3 c -> level3 c -> level2 c.
Proof.
  intros E H3 [|fuel] s rest Hf Ha; [by left |]. rewrite E in Ha. rewrite parsepipe_S.
  destruct (level3_got c fuel s rest H3) as [->|(c' & s' & -> & Ha' & Hp)]; [eapply follow_mono; [exact Hf | set_solver +] | done | by left |]. cbn [mbind presult_bind].
  rewrite (peek_no s' rest [38; 59; 41]); try done; [right; eauto | repeat constructor; done | set_solver +].
Qed.

Lemma level_21 c : print 1 c = print 2 c -> level2 c -> level1 c.
Proof.
  intros E H2 fuel fuel2 s rest Hf Ha r. rewrite E in Ha. destruct (H2 fuel s rest Hf Ha) as [Er|(c' & s' & Er & Ha' & Hp)]; unfold r; rewrite Er; [by left |].
  right. eauto 10.
Qed.

Lemma back_done f c s l : at_tokens s l -> follow [59; 41] l -> parseback buf es f c s = Fuel \/ parseback buf es f c s = Got (c, s).
Proof.
  intros Ha Hf. destruct f as [|f]; [by left |]. right. cbn [parseback]. rewrite (peek_no s l [59; 41]); try done; [repeat constructor; done | set_solver +].
Qed.

(** parsepipe() and the ampersands. *)
Lemma level1_got c fuel s rest : level1 c -> follow [59; 41] rest -> at_tokens s (print 1 c ++ rest) ->
  got ('(c, s) ← parsepipe buf es fuel s; parseback buf es fuel c s) c rest.
Proof.
  intros H1 Hf Ha. destruct (H1 fuel fuel s rest) as [->|(f & c' & s' & -> & Ha' & Hp)]; [eapply follow_mono; [exact Hf | set_solver +] | done | by left |].
  destruct (back_done f c' s' rest Ha' Hf) as [-> | ->]; [by left | right; eauto].
Qed.

Lemma parseline_assoc fuel s : parseline buf es (S fuel) s =
  ('(c, s) ← ('(c, s) ← parsepipe buf es fuel s; parseback buf es fuel c s);
   let '(b, s) := peek buf es s [59] in
   if b then let '(_, _, _, s) := gettoken buf es s in '(r, s) ← parseline buf es fuel s; Got (LIST c r, s) else Got (c, s)).
Proof. rewrite parseline_S. by destruct (parsepipe buf es fuel s) as [[c s1]| |]. Qed.

Lemma level_10 c : print 0 c = print 1 c -> level1 c -> level0 c.
Proof.
  intros E H1 [|fuel] s rest Hf Ha; [by left |]. rewrite E in Ha. rewrite parseline_assoc.
  destruct (level1_got c fuel s rest H1) as [->|(c' & s' & -> & Ha' & Hp)]; [eapply follow_mono; [exact Hf | set_solver +] | done | by left |]. cbn [mbind presult_bind].
  rewrite (peek_no s' rest [41]); try done; [right; eauto | repeat constructor; done | set_solver +].
Qed.

(** A block. *)
Lemma level_03 c : print 3 c = [Sym 40] ++ print 0 c ++ [Sym 41] -> level0 c -> level3 c.
Proof.
  intros E H0 [|fuel] s rest Hf Ha; [by left |]. rewrite E in Ha. rewrite <- !app_assoc in Ha. cbn [app] in Ha. rewrite parseexec_S, (peek_tok _ _ _ _ Ha).
  change (isin [40] (first_char (Sym 40))) with true. cbn iota. destruct fuel as [|fuel]; [by left |]. rewrite parseblock_S, (peek_tok _ _ _ _ Ha).
  change (negb (isin [40] (first_char (Sym 40)))) with false. cbn iota. destruct (gettoken_sym _ _ _ Ha) as (s1 & -> & Ha1).
  destruct (H0 fuel s1 (Sym 41 :: rest)) as [->|(c' & s' & -> & Ha' & Hp)]; [cbn; set_solver + | done | by left |]. cbn [mbind presult_bind].
  rewrite (peek_tok _ _ _ _ Ha'). change (negb (isin [41] (first_char (Sym 41)))) with false. cbn iota.
  destruct (gettoken_sym _ _ _ Ha') as (s2 & -> & Ha2). right. exists fuel, c', s2, (fun r => r). split_and!; try done. by right.
Qed.

Lemma exec_levels c : print 0 c = print 1 c -> print 1 c = print 2 c -> print 2 c = print 3 c -> level3 c ->
  level0 c /\ level1 c /\ level2 c /\ level3 c.
Proof.
  intros E0 E1 E2 H3. pose proof (level_32 c E2 H3) as H2. pose proof (level_21 c E1 H2) as H1. by pose proof (level_10 c E0 H1).
Qed.

Lemma level3_exec args : Forall word_ok args -> (length args < MAXARGS)%nat -> level3 (SExec args).
Proof.
  intros Hok Hn [|fuel] s rest Hst Ha; [by left |]. rewrite parseexec_S. cbn [print] in Ha.
  assert (peek buf es s [40] = (false, s)) as ->.
  { destruct args as [|w args]; [|eapply peek_word; [exact Ha | unfold symbols; set_solver +]]. cbn in Ha. destruct rest as [|[w|c|] rest]; try done.
    - by apply peek_end.
    - rewrite (peek_tok _ _ _ _ Ha). f_equal. cbn in *. apply not_true_iff_false. intros Hi%isin_elem; [set_solver | repeat constructor; done].
    - by rewrite (peek_tok _ _ _ _ Ha). }
  apply (args_read args fuel fuel 0 [] []); try done.
Qed.

Lemma level3_redir c file mode fd : redir_token mode fd (redir_sym mode fd) -> level3 c -> level3 (SRedir c file mode fd).
Proof.
  intros Ht H3 fuel s rest Hst Ha. cbn [print] in Ha. rewrite <- app_assoc in Ha. eapply redir_read; [exact Ht |]. apply H3; [|done]. cbn.
  destruct Ht; cbn; set_solver +.
Qed.

Lemma level2_pipe l r : level3 l -> level2 r -> level2 (SPipe l r).
Proof.
  intros H3 H2 [|fuel] s rest Hf Ha; [by left |]. cbn [print] in Ha. change (paren (2 <? 2)%nat ?x) with x in Ha. rewrite <- !app_assoc in Ha. cbn [app] in Ha.
  rewrite parsepipe_S. destruct (level3_got l fuel s (Sym 124 :: print 2 r ++ rest) H3) as [->|(c' & s' & -> & Ha' & Hp)]; [cbn; set_solver + | exact Ha | by left |]. cbn [mbind presult_bind].
  rewrite (peek_tok _ _ _ _ Ha'). change (isin [124] (first_char (Sym 124))) with true. cbn iota. destruct (gettoken_sym _ _ _ Ha') as (s1 & -> & Ha1).
  destruct (H2 fuel s1 rest Hf Ha1) as [->|(r' & s2 & -> & Ha2 & Hp2)]; [by left |]. right. exists (PIPE c' r'), s2. split_and!; [done | done | by constructor].
Qed.

Lemma level1_back c : level1 c -> level1 (SBack c).
Proof.
  intros H1 fuel fuel2 s rest Hf Ha res. cbn [print] in Ha. change (paren (1 <? 1)%nat ?x) with x in Ha. rewrite <- app_assoc in Ha.
  destruct (H1 fuel fuel2 s (Sym 38 :: rest)) as [E|(f & c' & s' & E & Ha' & Hp)]; [cbn; set_solver + | exact Ha | by left |]. unfold res. rewrite E.
  destruct f as [|f]; [by left |]. right. cbn [parseback]. rewrite (peek_tok _ _ _ _ Ha'). change (negb (isin [38] (first_char (Sym 38)))) with false. cbn iota.
  destruct (gettoken_sym _ _ _ Ha') as (s1 & -> & Ha1). exists f, (BACK c'), s1. split_and!; [done | done | by constructor].
Qed.

Lemma level0_list l r : level1 l -> level0 r -> level0 (SList l r).
Proof.
  intros H1 H0 [|fuel] s rest Hf Ha; [by left |]. cbn [print] in Ha. change (paren (0 <? 0)%nat ?x) with x in Ha. rewrite <- !app_assoc in Ha. cbn [app] in Ha.
  rewrite parseline_assoc. destruct (level1_got l fuel s (Sym 59 :: print 0 r ++ rest) H1) as [->|(c' & s' & -> & Ha' & Hp)]; [cbn; set_solver + | exact Ha | by left |].
  cbn [mbind presult_bind]. rewrite (peek_tok _ _ _ _ Ha'). change (isin [59] (first_char (Sym 59))) with true. cbn iota.
  destruct (gettoken_sym _ _ _ Ha') as (s1 & -> & Ha1).
  destruct (H0 fuel s1 rest Hf Ha1) as [->|(r' & s2 & -> & Ha2 & Hp2)]; [by left |]. right. exists (LIST c' r'), s2. split_and!; [done | done | by constructor].
Qed.

Lemma levels c : sh_ok c -> level0 c /\ level1 c /\ level2 c /\ level3 c.
Proof.
  induction c as [args|c IH file mode fd|l IHl r IHr|l IHl r IHr|c IH]; cbn [sh_ok].
  - intros [Hok Hn]. apply exec_levels; try done. by apply level3_exec.
  - intros (Hc & Hw & Ht). destruct (IH Hc) as (_ & _ & _ & H3). apply exec_levels; try done. by apply level3_redir.
  - intros [Hl Hr]. destruct (IHl Hl) as (_ & _ & _ & H3), (IHr Hr) as (_ & _ & H2 & _). pose proof (level2_pipe l r H3 H2) as G2.
    pose proof (level_21 (SPipe l r) eq_refl G2) as G1. pose proof (level_10 (SPipe l r) eq_refl G1) as G0. split_and!; try done. by apply level_03.
  - intros [Hl Hr]. destruct (IHl Hl) as (_ & H1 & _), (IHr Hr) as (H0 & _). pose proof (level0_list l r H1 H0) as G0.
    pose proof (level_03 (SList l r) eq_refl G0) as G3. pose proof (level_32 (SList l r) eq_refl G3) as G2. split_and!; try done. by apply level_21.
  - intros Hc. destruct (IH Hc) as (_ & H1 & _). pose proof (level1_back c H1) as G1. pose proof (level_10 (SBack c) eq_refl G1) as G0.
    pose proof (level_03 (SBack c) eq_refl G0) as G3. split_and!; try done. by apply level_32.
Qed.

(** ** Cutting the words out *)

(** The positions nulterminate() writes. *)
Fixpoint ends (c : cmd) : list nat :=
  match c with
  | EXEC argv => snd <$> argv
  | REDIR c _ e _ _ => ends c ++ [e]
  | PIPE l r | LIST l r => ends l ++ ends r
  | BACK c => ends c
  end.

Definition cut (b : list Z) (e : nat) : list Z := nul_at e b.

Lemma nulterminate_ends c b : nulterminate c b = foldl cut b (ends c).
Proof.
  revert b. induction c as [argv|c IH q e mode fd|l IHl r IHr|l IHl r IHr|c IH]; intros b; cbn [nulterminate ends]; rewrite ?foldl_app, ?IH, ?IHl, ?IHr; try done.
  revert b. induction argv as [|w argv IHa]; intros b; cbn; [done | apply IHa].
Qed.

Lemma cut_lookup l : forall b i, foldl cut b l !! i = if decide (i ∈ l /\ (i < length b)%nat) then Some 0 else b !! i.
Proof.
  induction l as [|e l IH]; intros b i; cbn [foldl].
  - rewrite decide_False; [done |]. intros [Hi _]. by apply not_elem_of_nil in Hi.
  - rewrite IH. unfold cut, nul_at. rewrite length_insert. destruct (decide (i = e)) as [->|Hne].
    + destruct (decide (e < length b)%nat) as [Hlt|Hge].
      * rewrite (decide_True (P := e ∈ e :: l /\ _)) by (split; [set_solver + | done]). case_decide; [done | by rewrite list_lookup_insert_eq].
      * rewrite !decide_False by tauto. by rewrite list_insert_ge by lia.
    + rewrite list_lookup_insert_ne by done. destruct (decide (i ∈ l /\ _)) as [[? ?]|Hn]; [rewrite decide_True; [done | split; [set_solver | done]] |].
      rewrite decide_False; [done |]. intros [Hi ?]. apply Hn. split; [set_solver | done].
Qed.

Lemma until_nul_app x r : nonul x -> until_nul (x ++ 0 :: r) = x.
Proof. induction 1 as [|c x Hc _ IH]; cbn; [done |]. rewrite (proj2 (Z.eqb_neq c 0)) by done. by rewrite IH. Qed.

Lemma good_lookup w x i : good w x -> (i <= length x)%nat -> buf !! (w.1 + i)%nat = (x ++ [32]) !! i.
Proof.
  intros (_ & _ & r & Hd) Hi. rewrite <- lookup_drop, Hd, app_assoc. apply lookup_app_l. rewrite length_app. cbn. lia.
Qed.

(** A word stays whole: NULs are written only where spaces are. *)
Lemma string_cut l w x : good w x -> w.2 ∈ l -> Forall (fun e => buf !! e = Some 32) l -> string_at (foldl cut buf l) w.1 = x.
Proof.
  intros Hg Hin Hl. pose proof Hg as (E2 & [_ Hw] & _). set (b := foldl cut buf l). unfold string_at.
  assert (forall i, (i < length x)%nat -> b !! (w.1 + i)%nat = x !! i) as Hx.
  { intros i Hi. pose proof (good_lookup w x i Hg ltac:(lia)) as Eb. rewrite lookup_app_l in Eb by done. unfold b. rewrite cut_lookup, Eb.
    rewrite decide_False; [done |]. intros [Hel _]. pose proof (proj1 (Forall_forall _ _) Hl _ Hel) as E32. cbn in E32. rewrite Eb in E32.
    apply (Forall_lookup_1 _ _ _ _ Hw) in E32 as (_ & Hws & _). done. }
  assert (b !! w.2 = Some 0) as H0.
  { pose proof (proj1 (Forall_forall _ _) Hl _ Hin) as E32. cbn in E32. unfold b. rewrite cut_lookup, decide_True; [done |]. split; [done | by eapply lookup_lt_Some]. }
  rewrite <- (take_drop (length x) (drop w.1 b)), drop_drop, <- E2, (drop_S b 0 w.2 H0).
  replace (take (length x) (drop w.1 b)) with x; [apply until_nul_app; eapply Forall_impl; [exact Hw | by intros c [? _]] |].
  apply list_eq. intros i. destruct (decide (i < length x)%nat).
  - by rewrite lookup_take_lt, lookup_drop, Hx by done.
  - rewrite lookup_take_ge, lookup_ge_None_2 by lia. done.
Qed.

Lemma parsed_ends c c' : parsed c c' -> Forall (fun e => buf !! e = Some 32) (ends c).
Proof.
  assert (forall w x, good w x -> buf !! w.2 = Some 32) as Hg.
  { intros w x Hg. pose proof Hg as [E _]. rewrite E, (good_lookup _ _ _ Hg) by lia. by rewrite lookup_app_r, Nat.sub_diag by lia. }
  induction 1 as [argv args Ha| | | |]; cbn [ends]; rewrite ?Forall_app; try done.
  - induction Ha; cbn; constructor; [by eapply Hg | done].
  - split; [done |]. constructor; [by apply (Hg (q, e) file) | constructor].
Qed.

Lemma parsed_denote c c' l : parsed c c' -> ends c ⊆ l -> Forall (fun e => buf !! e = Some 32) l -> denote (foldl cut buf l) c = c'.
Proof.
  intros Hp. induction Hp as [argv args Ha| | | |]; cbn [ends denote]; intros Hs Hl.
  - f_equal. induction Ha as [|w x argv args Hg Ha IH]; [done |]. cbn [fmap list_fmap] in *. rewrite IH by set_solver. f_equal. apply string_cut; [done | set_solver | done].
  - rewrite IHHp by (done || set_solver). f_equal. apply (string_cut l (q, e) file); [done | set_solver | done].
  - by rewrite IHHp1, IHHp2 by (done || set_solver).
  - by rewrite IHHp1, IHHp2 by (done || set_solver).
  - by rewrite IHHp by (done || set_solver).
Qed.
End roundtrip.

Lemma print_ok c : sh_ok c -> forall lv, Forall token_ok (print lv c).
Proof.
  assert (forall b l, Forall token_ok l -> Forall token_ok (paren b l)) as Hparen.
  { intros [] l Hl; cbn; [|done]. constructor; [cbn; set_solver +|]. apply Forall_app. split; [done |]. constructor; [cbn; set_solver + | constructor]. }
  induction c as [args|c IH file mode fd|l IHl r IHr|l IHl r IHr|c IH]; cbn [sh_ok print].
  - intros [Hok _] _. apply Forall_fmap. eapply Forall_impl; [exact Hok | done].
  - intros (Hc & Hw & Ht) _. apply Forall_app. split; [by apply IH |]. constructor; [destruct Ht; cbn; set_solver + | constructor; [exact Hw | constructor]].
  - intros [Hl Hr] lv. apply Hparen, Forall_app. split; [by apply IHl |]. constructor; [cbn; set_solver + | by apply IHr].
  - intros [Hl Hr] lv. apply Hparen, Forall_app. split; [by apply IHl |]. constructor; [cbn; set_solver + | by apply IHr].
  - intros Hc lv. apply Hparen, Forall_app. split; [by apply IH |]. constructor; [cbn; set_solver + | constructor].
Qed.

Lemma text_nonul l : Forall token_ok l -> nonul (text l).
Proof.
  induction 1 as [|t l Ht _ IH]; [constructor |]. rewrite text_cons. apply Forall_app. split; [|by constructor].
  destruct t as [w|c|]; cbn in *; [|constructor; [|constructor] | by repeat constructor].
  - destruct Ht as [_ Hw]. eapply Forall_impl; [exact Hw | by intros c [? _]].
  - intros ->. apply list_elem_of_In in Ht. cbn in Ht. naive_solver.
Qed.

Lemma parse_print c : sh_ok c -> exists c' buf, parsecmd (text (print 0 c)) = Got (c', buf) /\ denote buf c' = c.
Proof.
  intros Hok. pose proof (print_ok c Hok 0) as Htok. set (buf := text (print 0 c)). pose proof (text_nonul _ Htok) as Hnn. fold buf in Hnn.
  pose proof (parsecmd_fuel buf) as Htot. unfold parsecmd in *. rewrite (strlen_nonul buf Hnn), Nat2Z.id in *.
  destruct (levels buf c Hok) as (H0 & _). destruct (H0 (5 * length buf + 10)%nat 0%nat []) as [E|(c' & s' & E & Ha & Hp)]; [done | split; [by rewrite app_nil_r | by rewrite app_nil_r] | |].
  - rewrite E in Htot. done.
  - rewrite E. cbn [mbind presult_bind]. pose proof (peek_end buf s' [] Ha) as Ep. rewrite Ep in *. cbn iota beta.
    destruct (parse_fine buf (length buf)) with (fuel := (5 * length buf + 10)%nat) (s := 0%nat) as (Hf & _); [| | lia |].
    + intros i Hi. destruct (lookup_lt_is_Some_2 _ _ Hi) as [x Hx]. unfold at_. rewrite Hx. by apply (Forall_lookup_1 _ _ _ _ Hnn Hx).
    + unfold at_. by rewrite lookup_ge_None_2.
    + specialize (Hf ltac:(lia)). rewrite E in Hf. cbn in Hf. assert (s' = length buf) as ->.
      { destruct Ha as [Hd _]. assert (length (drop s' buf) = 0%nat) as Hz by (by rewrite Hd). rewrite length_drop in Hz. lia. }
      rewrite Nat.eqb_refl. cbn [negb]. eexists c', _. split; [done |]. rewrite nulterminate_ends.
      eapply parsed_denote; [exact Hp | done | by eapply parsed_ends].
Qed.

(** C33. Parsing is the inverse of printing: for every command of the grammar, parsecmd() on
    its text returns a command whose strings, after nulterminate() has written its NULs
    into the line, are those of the command printed; blocks, pipes, lists, background
    commands and redirections nest as they were printed. *)
Theorem parsecmd_print c : sh_ok c -> exists c' buf, parsecmd (text (print 0 c)) = Got (c', buf) /\ denote buf c' = c.
Proof. apply parse_print. Qed.
