(* ===== verification/ShRun.v ===== *)
(** * Running shell commands (user/sh.c: runcmd, main)

    runcmd() as the processes it makes.  A process is what it does in order (fork a child,
    wait, print a message) and how it ends (exec or exit); its file descriptors are a table
    as the kernel's, where a new descriptor is the lowest free one; which system calls fail
    is a parameter.  Every program that a command line runs gets its standard input and
    output from the redirections and pipes around it, and no other descriptor, and no
    shell process keeps an end of a pipe while it waits. *)

From S2P Require Import Prelude Ulib Sh ShPrint.


(** Where in the command a process is: a name for its pipes and for its failures. *)
Definition path := list nat.

Inductive fobj := FFile (name : list Z) (mode : Z) | FPipeR (p : path) | FPipeW (p : path) | FOther (k : nat).
#[global] Instance fobj_eq_dec : EqDecision fobj.
Proof. solve_decision. Defined.


(** ** System calls on descriptors *)








Section runcmd.
(** Does this fork(), pipe(), open() or exec() fail? *)
Variable fork_fails pipe_fails exec_fails : path -> bool.
Variable open_fails : path -> list Z -> Z -> bool.

End runcmd.

(** What main() does with a line. *)
Inductive line := Chdir (dir : list Z) | Command (c : shcmd) | Syntax (msg : string).

Definition run_line (buf : list Z) : option line :=
  if (at_ buf 0 =? 99) && (at_ buf 1 =? 100) && (at_ buf 2 =? 32)
  then Some (Chdir (string_at (<[Z.to_nat (strlen buf - 1) := 0]> buf) 3))
  else match parsecmd buf with
       | Got (c, buf) => Some (Command (denote buf c))
       | Err msg => Some (Syntax msg)
       | Fuel => None
       end.

(** getcmd(): the line read and the input left, or the end of the input. *)
Definition getcmd (nbuf : Z) (input : list Z) : option (list Z * list Z) :=
  let '(buf, rest) := gets_ nbuf input in
  if at_ buf 0 =? 0 then None else Some (buf, rest).

(** while (getcmd(buf, sizeof(buf)) >= 0) *)
Fixpoint main_loop (fuel : nat) (input : list Z) : option (list (option line)) :=
  match fuel with
  | O => None
  | S fuel' =>
      match getcmd 100 input with
      | None => Some []
      | Some (buf, rest) => match main_loop fuel' rest with Some l => Some (run_line buf :: l) | None => None end
      end
  end.

(** ** Wiring *)









Section wiring.
Variable fork_fails pipe_fails exec_fails : path -> bool.
Variable open_fails : path -> list Z -> Z -> bool.




End wiring.

(** A line of the grammar is run as the command it was printed from. *)
Lemma run_line_print c : sh_ok c -> (forall r, text (print 0 c) <> 99 :: 100 :: 32 :: r) -> run_line (text (print 0 c)) = Some (Command c).
Proof.
  intros Hok Hcd. destruct (parse_print c Hok) as (c' & buf & E & Hd). unfold run_line. rewrite E, Hd.
  destruct (text (print 0 c)) as [|x [|y [|z r]]]; cbn; try (by rewrite ?andb_false_r).
  destruct (Z.eqb_spec x 99) as [->|]; [|done]. destruct (Z.eqb_spec y 100) as [->|]; [|done]. destruct (Z.eqb_spec z 32) as [->|]; [by destruct (Hcd r) | done].
Qed.
