(* ===== verification/FsMachine.v ===== *)
(** * A concrete file-system machine

    The machine of Machine.v with one process, zeroed buffers and a small disk: a
    bitmap, a directory and a file.  [fs_demo] is the state after boot and a transaction
    that has written block 50 and is ready to commit; [fs_tree] is in a transaction that
    has written nothing, with the directory and the file in the inode table. *)

From S2P Require Import Prelude State Mem Bytes Riscv Kalloc Vm PageTable Uvm UvmAlloc UvmFree Sched Sleeplock Bio Bcache Log LogSpec Crash Txn Uart Printf Proc ProcVm ProcAlloc ProcGrow Fs FsPath FsBlock FsInode FsDir Machine.

#[export] Instance demo_patience : Patience := 0%nat.

Definition demo_sb : superblock := mkSb 0 2000 1954 200 30 2 32 45.
Definition zero_block : list Z := replicate 1024 0.
Definition new_block : list Z := replicate 1024 7.


(** Blocks 0 to 47 are in use; block 46 is the root directory, block 47 a file. *)
Definition bitmap_block : list Z := replicate 6 255 ++ replicate 1018 0.
Definition dirent (inum : Z) (name : list Z) : list Z := le_bytes 2 inum ++ name ++ replicate (14 - length name) 0.
Definition dir_block : list Z := dirent 1 [46] ++ dirent 1 [46; 46] ++ dirent 0 [97] ++ dirent 2 [97; 98] ++ replicate 960 0.
Definition demo_disk : gmap Z (list Z) := <[45 := bitmap_block]> (<[46 := dir_block]> (<[47 := new_block]> ∅)).

Definition fs0 : kernel :=
  set_disk demo_disk (set_bufs (replicate NBUF (mkBuf 0 0 0 0 zero_block)) (set_log (mkLog 0 0 0 0 0 0 (replicate 30 0))
    (running (alter (set_p_pid 1) 0%nat init_procs)))).
Definition fs1 : kernel := final fs0 (binit fs0).
Definition fs2 : kernel := final fs0 (initlog ROOTDEV demo_sb fs1).
Definition fs3 : kernel := final fs0 (begin_op fs2).

(** A step of the file system: block 50 gets new contents. *)
Definition write_50 : M kernel unit :=
  b ← bread ROOTDEV 50; upd_buf b (set_b_data new_block);; log_write b;; brelse b.
Definition fs_demo : kernel := final fs0 (write_50 fs3).

Lemma final_wp {A} (m : M kernel A) (Q : A -> kernel -> Prop) s s0 : wp m Q s -> exists a, m s = Ok a (final s0 (m s)) /\ Q a (final s0 (m s)).
Proof. intros (a & s' & E & HQ)%wp_inv. exists a. by rewrite E. Qed.

Lemma fs0_env : env fs0 1.
Proof.
  constructor.
  - exists 0%nat. eexists. split_and!; [reflexivity | reflexivity | reflexivity].
  - unfold procs_ok. reflexivity.
  - intros i. apply not_elem_of_empty.
  - intros l. apply not_elem_of_empty.
  - apply not_elem_of_empty.
Qed.

Lemma demo_disk_length bn : length (disk_block demo_disk bn) = 1024%nat.
Proof.
  unfold disk_block, demo_disk. destruct (decide (bn = 45)) as [->|H1]; [by rewrite lookup_insert_eq |]. rewrite lookup_insert_ne by congruence.
  destruct (decide (bn = 46)) as [->|H2]; [by rewrite lookup_insert_eq |]. rewrite lookup_insert_ne by congruence.
  destruct (decide (bn = 47)) as [->|H3]; [by rewrite lookup_insert_eq |]. by rewrite lookup_insert_ne by congruence.
Qed.

Lemma fs1_bc : bc_inv fs1 1 ∅ ∅ /\ fs1 = set_blru fs1.(blru) (set_slocks fs1.(slocks) fs0).
Proof.
  assert (wp binit (fun _ s' => bc_inv s' 1 ∅ ∅ /\ s' = set_blru s'.(blru) (set_slocks s'.(slocks) fs0)) fs0) as H.
  { apply (binit_run fs0 1 (mkBuf 0 0 0 0 zero_block) fs0_env); try reflexivity. intros bn. apply demo_disk_length. }
  destruct (final_wp _ _ _ fs0 H) as (a & _ & HQ). exact HQ.
Qed.

Lemma header_zero : header_n zero_block = 0.
Proof. reflexivity. Qed.

Lemma demo_geo : geo 2 30 [].
Proof. constructor; done || (cbn; lia) || apply NoDup_nil_2. Qed.

Lemma fs1_recovers : recovers_to fs1.(disk) 2 30 (disk_block demo_disk).
Proof.
  destruct fs1_bc as [_ ->]. cbn [disk set_blru set_slocks]. eapply recovers_empty; [exact demo_geo | |].
  - split; [exact header_zero | intros i b Hb; by rewrite lookup_nil in Hb].
  - intros bn _. reflexivity.
Qed.

Lemma fs1_fields : length fs1.(log).(lh_block) = 30%nat /\ fs1.(log).(log_outstanding) = 0 /\ fs1.(log).(log_committing) = 0 /\ LkLog ∉ fs1.(held).
Proof. destruct fs1_bc as [_ ->]. split_and!; try reflexivity. apply not_elem_of_empty. Qed.

Lemma fs2_idle : idle fs2 1 /\ fs2.(log).(log_start) = 2 /\ fs2.(log).(log_size) = 30 /\
  forall bn, ~ (2 <= bn < 32) -> disk_block fs2.(disk) bn = disk_block demo_disk bn.
Proof.
  destruct fs1_fields as (H1 & H2 & H3 & H4).
  pose proof (initlog_idle fs1 1 demo_sb _ H1 (proj1 fs1_bc) fs1_recovers H2 H3 H4) as H.
  destruct (final_wp _ _ _ fs0 H) as (a & _ & Hi & Hs & Hz & Hf). split_and!; [exact Hi | exact Hs | exact Hz |].
  exact Hf.
Qed.

Lemma fs3_txn : txn fs3 1 ∅ [] /\ fs3.(log).(log_start) = 2 /\ fs3.(log).(log_size) = 30.
Proof.
  destruct fs2_idle as (Hi & Hs & Hz & _). destruct (final_wp _ _ _ fs0 (begin_op_run fs2 1 Hi)) as (a & _ & Ht & Ho & _).
  destruct Ho as (_ & _ & _ & E1 & E2). split_and!; [exact Ht | by rewrite <- Hs | by rewrite <- Hz].
Qed.

(** Outside the log, the file system sees [demo_disk]. *)
Lemma fs3_view bn : ~ (2 <= bn < 32) -> view fs3 bn = disk_block demo_disk bn.
Proof.
  intros Hbn. destruct fs2_idle as (Hi & _ & _ & Hf). destruct (final_wp _ _ _ fs0 (begin_op_run fs2 1 Hi)) as (a & _ & Ht & (_ & Hd & _) & _).
  fold fs3 in Ht, Hd. destruct (tx_clean fs3 1 ∅ [] bn Ht) as [[]%not_elem_of_nil| ->]; [apply not_held_empty |]. rewrite Hd. by apply Hf.
Qed.

Lemma write_50_run s : txn s 1 ∅ [] -> s.(log).(log_start) = 2 -> s.(log).(log_size) = 30 ->
  wp write_50 (fun _ s' => txn s' 1 ∅ [50] /\ tx_only s s') s.
Proof.
  intros Ht Hs Hz. pose proof Ht as [Hg Hsz Hout Hidle Hi Hlk Hh]. unfold write_50. apply wp_bind.
  eapply wp_mono; [apply (bread_run s 1 ∅ _ 50 Hi); [rewrite size_empty; cbn; rewrite size_empty; unfold NBUF; lia | apply not_held_empty] |].
  intros i s1 (_ & Hi1 & Hio1 & Hd1 & Hw1 & Hat & _ & Hv1). apply wp_bind.
  eapply wp_mono; [eapply (put_data_run s1 1 _ _ i 50 _ new_block Hi1); [set_solver + | exact Hat | apply length_replicate] |].
  intros _ s2 ((Hi2 & Hio2 & Hv2) & Hat2 & Hd2 & Hw2 & _). apply wp_bind.
  assert (Hio12 := io_only_trans _ _ _ Hio1 Hio2). pose proof (io_only_log _ _ Hio12) as G2. pose proof (io_only_held _ _ Hio12) as K2.
  assert (txn s2 1 ({[i]} ∪ ∅) []) as Ht2 by (constructor; rewrite ?G2, ?K2, ?Hd2, ?Hd1; done).
  eapply wp_mono; [eapply (log_write_run s2 1 _ [] i 50 new_block Ht2); [set_solver + | exact Hat2 | lia | |]; rewrite G2; cbn; lia |].
  intros _ s3 (Ht3 & Ho3 & Hat3 & _). change (log_add 50 []) with [50] in Ht3. pose proof Ht3 as [Hg3 ? ? ? Hi3 ? ?].
  eapply wp_mono; [eapply (brelse_run s3 1 _ _ i 50 new_block Hi3); [set_solver + | exact Hat3 | left; set_solver +] |].
  intros _ s4 (Hi4 & Hio4 & Hd4 & Hw4 & _). pose proof (io_only_log _ _ Hio4) as G4. pose proof (io_only_held _ _ Hio4) as K4. split.
  - constructor; rewrite ?G4, ?K4, ?Hd4; try done. replace ∅ with (({[i]} ∪ (∅ : gset nat)) ∖ {[i]}) by set_solver +. done.
  - eapply tx_only_trans; [apply (tx_io s s2 Hio12); congruence |]. eapply tx_only_trans; [exact Ho3 |]. by apply tx_io.
Qed.

Lemma fs_demo_txn : txn fs_demo 1 ∅ [50] /\ fs_demo.(log).(log_start) = 2 /\ fs_demo.(log).(log_size) = 30.
Proof.
  destruct fs3_txn as (Ht & Hs & Hz). destruct (final_wp _ _ _ fs0 (write_50_run fs3 Ht Hs Hz)) as (a & _ & Ht' & Ho).
  destruct Ho as (_ & _ & _ & E1 & E2). split_and!; [exact Ht' | by rewrite <- Hs | by rewrite <- Hz].
Qed.

(** ** A directory and a file *)

Definition root_inode : inode := mkInode ROOTDEV 1 1 1 T_DIR 0 0 1 64 (46 :: replicate 12 0).
Definition file_inode : inode := mkInode ROOTDEV 2 1 1 T_FILE 0 0 1 100 (47 :: replicate 12 0).
Definition demo_itable : list inode := [root_inode; file_inode] ++ replicate 48 (mkInode 0 0 0 0 0 0 0 0 0 (replicate 13 0)).
Definition fs_tree : kernel := set_cons (set_dev_idle (replicate 22 true) fs3.(cons)) (set_itable demo_itable (set_sb demo_sb fs3)).

Lemma txn_sb b s pid H L : txn s pid H L -> txn (set_sb b s) pid H L.
Proof.
  intros [? ? ? ? Hb ? ?]. constructor; try done. pose proof (bc_env _ _ _ _ Hb) as [? ? ? ? ?]. destruct Hb. by constructor.
Qed.

Lemma txn_cons c s pid H L : txn s pid H L -> txn (set_cons c s) pid H L.
Proof.
  intros [? ? ? ? Hb ? ?]. constructor; try done. pose proof (bc_env _ _ _ _ Hb) as [? ? ? ? ?]. destruct Hb. by constructor.
Qed.

(** What the witnesses use of [fs_tree]. *)
Record tree_facts s : Prop := {
  tf_txn : txn s 1 ∅ [];
  tf_start : s.(log).(log_start) = 2;
  tf_size : s.(log).(log_size) = 30;
  tf_sb : s.(sb) = demo_sb;
  tf_itable : s.(itable) = demo_itable;
  tf_lock : LkItable ∉ s.(held);
  tf_pr : LkPr ∉ s.(held);
  tf_uart : (22 <= ready s.(cons).(dev_idle))%nat;
  tf_view bn : ~ (2 <= bn < 32) -> view s bn = disk_block demo_disk bn;
}.

Lemma fs2_held : fs2.(held) = fs1.(held).
Proof.
  destruct fs1_fields as (H1 & _ & _ & Hlk). pose proof (initlog_recovers fs1 1 demo_sb _ Hlk H1 (proj1 fs1_bc) fs1_recovers) as H.
  destruct (final_wp _ _ _ fs0 H) as (a & _ & R & _ & Hh & _). exact Hh.
Qed.

Lemma fs3_eq : fs3 = set_log (set_log_outstanding 1 fs2.(log)) fs2.
Proof. destruct fs2_idle as (Hi & _). destruct (final_wp _ _ _ fs0 (begin_op_run fs2 1 Hi)) as (b & _ & _ & _ & E). exact E. Qed.

Lemma fs3_held : fs3.(held) = ∅.
Proof.
  assert (fs1.(held) = ∅) as E by (by destruct fs1_bc as [_ ->]). pose proof fs2_held as Hh. rewrite E in Hh. rewrite fs3_eq. revert Hh. generalize fs2.
  intros s Hh. cbn [held set_log]. exact Hh.
Qed.

Lemma fs_tree_facts : tree_facts fs_tree.
Proof.
  destruct fs3_txn as (Ht & Hs & Hz). pose proof fs3_held as Hh. pose proof fs3_view as Hv. unfold fs_tree. revert Ht Hs Hz Hh Hv.
  generalize fs3. intros s Ht Hs Hz Hh Hv. constructor; cbn [held set_cons set_itable set_sb]; rewrite ?Hh; try apply not_elem_of_empty; try done.
  by apply txn_cons, (txn_itable demo_itable (set_sb demo_sb s)), txn_sb.
Qed.

Lemma bitmap_free b : 0 <= b < 2000 -> bit_free bitmap_block b = (48 <=? b).
Proof.
  intros Hb. destruct (Z.leb_spec 48 b) as [H|H].
  - unfold bit_free, get_u8, get_bytes, bitmap_block. rewrite drop_app_ge, drop_replicate by (rewrite length_replicate; dlia).
    rewrite take_replicate. rewrite Nat.min_l by (rewrite length_replicate; dlia). reflexivity.
  - assert (forallb (fun b => negb (bit_free bitmap_block b)) (seqZ 0 48) = true) as E by reflexivity.
    rewrite forallb_forall in E. apply negb_true_iff, E, list_elem_of_In, elem_of_seqZ. lia.
Qed.

Lemma tree_bits s b : tree_facts s -> 0 <= b < 2000 -> BBLOCK b s.(sb) = 45 /\ bit_used (view s) s.(sb) b = (b <? 48).
Proof.
  intros Hf Hb. rewrite (tf_sb _ Hf). assert (BBLOCK b demo_sb = 45) as E by (unfold BBLOCK; change BPB with 8192; cbn [sb_bmapstart demo_sb]; rewrite u32_small; dlia).
  split; [done |]. unfold bit_used. rewrite E, (tf_view _ Hf) by lia. change (disk_block demo_disk 45) with bitmap_block. change BPB with 8192.
  rewrite Z.mod_small, bitmap_free by lia. destruct (Z.leb_spec 48 b), (Z.ltb_spec b 48); done || lia.
Qed.

Lemma tree_loggable s bn : tree_facts s -> 32 <= bn < 2 ^ 31 -> loggable s bn.
Proof. intros Hf Hb. split; [lia |]. rewrite (tf_start _ Hf), (tf_size _ Hf). lia. Qed.

Lemma tree_ready s : tree_facts s -> balloc_ready s ∅ [].
Proof.
  intros Hf. pose proof (tf_sb _ Hf) as E. constructor.
  - constructor; rewrite ?E; [rewrite BPB_eq; cbn; lia | cbn; lia |]. intros b Hb. rewrite <- E. destruct (tree_bits s b Hf Hb) as [-> _]. apply tree_loggable; [done | lia].
  - intros b Hb Hu. rewrite E in Hb. destruct (tree_bits s b Hf Hb) as [_ Eu]. rewrite Eu in Hu. apply Z.ltb_ge in Hu. split_and!.
    + apply tree_loggable; [done | cbn in Hb; lia].
    + apply not_held_empty.
    + intros b' Hb'. rewrite E in Hb'. destruct (tree_bits s b' Hf Hb') as [-> _]. lia.
  - intros b _. apply not_held_empty.
  - rewrite size_empty. cbn. unfold NBUF. lia.
  - rewrite (tf_size _ Hf). cbn. lia.
  - apply (tf_pr _ Hf).
  - apply (tf_uart _ Hf).
Qed.

(** The directory and the file have one block each. *)
Lemma tree_addr f n : 0 <= n < 1 -> file_addr f root_inode n = 46 /\ file_addr f file_inode n = 47.
Proof. intros Hn. replace n with 0 by lia. done. Qed.

Lemma tree_dir s : tree_facts s -> directory s ∅ 0 root_inode 4.
Proof.
  intros Hf. constructor; try done.
  - constructor; try done; [by rewrite (tf_itable _ Hf) |]. intros n Hn. destruct (tree_addr (view s) n Hn) as [-> _].
    split; [done | apply not_held_empty].
  - intros o n Ho Hon. cbn in Hon. apply Forall_fmap, Forall_forall. intros z [Hz Hz2]%elem_of_seqZ. cbn. unfold file_byte. change BSIZE with 1024.
    rewrite Z.div_small, Z.mod_small by lia. rewrite (proj1 (tree_addr (view s) 0 ltac:(lia))), (tf_view _ Hf) by lia.
    change (disk_block demo_disk 46) with dir_block. apply Forall_lookup_total_1; [|cbn; lia].
    assert (forallb (fun c => (0 <=? c) && (c <? 256)) dir_block = true) as E by reflexivity. rewrite forallb_forall in E.
    apply Forall_forall. intros c Hc%list_elem_of_In%E. apply andb_true_iff in Hc as [?%Z.leb_le ?%Z.ltb_lt]. lia.
Qed.

Lemma tree_dirent s o : tree_facts s -> 0 <= o <= 48 -> file_bytes (view s) root_inode o 16 = get_bytes dir_block o 16.
Proof.
  intros Hf Ho. assert (o / BSIZE = 0 /\ o mod BSIZE = o) as [E1 E2] by (change BSIZE with 1024; rewrite Z.div_small, Z.mod_small; lia).
  assert (view s 46 = dir_block) as Ev by (by rewrite (tf_view _ Hf) by lia). destruct (tree_addr (view s) 0 ltac:(lia)) as [Ea _].
  rewrite <- block_bytes; rewrite ?E1, ?E2, ?Ea, ?Ev; [done | done | lia | change BSIZE with 1024; lia].
Qed.

Lemma tree_file s n : tree_facts s -> 0 <= n < 1024 -> may_write s ∅ [] 1 file_inode 1 n.
Proof.
  intros Hf Hn. assert (IBLOCK (i_inum file_inode) s.(sb) = 32) as E by (by rewrite (tf_sb _ Hf)). constructor; rewrite ?E.
  - constructor; try done; [by rewrite (tf_itable _ Hf) |]. intros i Hi. destruct (tree_addr (view s) i Hi) as [_ ->].
    split; [done | apply not_held_empty].
  - constructor; [intros; lia | done].
  - intros i Hi. destruct (tree_addr (view s) i Hi) as [_ ->]. by apply tree_loggable.
  - constructor; rewrite ?E; [done | done | by apply tree_loggable | apply not_held_empty].
  - intros i Hi. by destruct (tree_addr (view s) i Hi) as [_ ->].
  - done.
  - change BSIZE with 1024. rewrite Z.div_small, size_empty by lia. done.
  - change BSIZE with 1024. rewrite Z.div_small, (tf_size _ Hf) by lia. done.
Qed.
#[global] Opaque fs1 fs2 fs3 fs_demo fs_tree.
