(* ===== verification/Witnesses.v ===== *)
(** * Witnesses

    Each theorem with hypotheses, applied at a concrete input: the machine [demo] of
    Machine.v (two user pages, one process, free memory left), or a small state
    written out here.  They show that the hypotheses can hold together. *)

From S2P Require Import Prelude State Spinlock Mem Riscv Kalloc Vm PageTable Uvm UvmAlloc UvmFree Sched SleepWakeup Pipe Sem Proc ProcVm ProcAlloc ProcGrow Sleeplock Bio Bcache Log LogSpec Crash Txn Console Printf File Process Fork Fs FsPath FsBlock FsInode FsDir Machine FsMachine.

(** ** Locks *)

Definition cpu0 : Spinlock.cpu := Spinlock.mkCpu 0 true true.
Definition machine0 : Spinlock.machine :=
  Spinlock.mkMachine (fun _ => cpu0) (fun _ => Spinlock.mkLock 0 "lock" None).
Definition mp0 : Spinlock.mp := Spinlock.mkMp machine0 (fun _ => Spinlock.Run) (fun _ => ∅).

Lemma push_pop_nesting_witness :
  wp (Spinlock.pushes 3 0;; Spinlock.pops 3 0) (fun _ s' =>
    Spinlock.noff (Spinlock.cpus s' 0%nat) = 0 /\ Spinlock.sie (Spinlock.cpus s' 0%nat) = true) machine0.
Proof.
  eapply wp_mono; [apply (Spinlock.push_pop_nesting 0 3 3 machine0); [split; [done | by intros ?] | lia | lia] |].
  intros _ s' (Hn & Hs & _). split; [exact Hn | exact Hs].
Defined.

Lemma mp_initial : Spinlock.initial mp0.
Proof. split; [intros c; done | intros l; done]. Qed.

Lemma mp_acquire : exists s', rtc Spinlock.step mp0 s' /\ Spinlock.owns s' 0 LkKmem.
Proof.
  eexists. split.
  - eapply rtc_l; [eapply (Spinlock.step_acquire _ 0 LkKmem); reflexivity |].
    eapply rtc_l; [eapply (Spinlock.step_spin _ 0 LkKmem); reflexivity |].
    eapply rtc_l; [eapply (Spinlock.step_set_cpu _ 0 LkKmem); reflexivity |]. apply rtc_refl.
  - unfold Spinlock.owns. left. apply (bool_decide_unpack _). vm_compute. exact I.
Qed.

(** CPU 0 has acquired the lock of the page allocator: no other CPU owns it. *)
Lemma mutual_exclusion_witness : exists s', rtc Spinlock.step mp0 s' /\ Spinlock.owns s' 0 LkKmem /\
  forall c, Spinlock.owns s' c LkKmem -> c = 0%nat.
Proof.
  destruct mp_acquire as (s' & Hs & Ho). exists s'. split; [exact Hs |]. split; [exact Ho |].
  intros c Hc. exact (proj1 (Spinlock.mutual_exclusion mp0 s' mp_initial Hs) c 0%nat LkKmem Hc Ho).
Defined.

Lemma acquire_refines_witness :
  exists m', Spinlock.acquire 1 0 LkKmem machine0 = Ok tt m' /\ Spinlock.abs 0 m' {[LkKmem]}.
Proof.
  pose proof (Spinlock.acquire_refines 0 machine0 (set_held ∅ power_on) LkKmem 0) as H.
  rewrite (acquire_Ok LkKmem (set_held ∅ power_on)) in H by apply not_elem_of_empty. cbn in H.
  destruct H as (m' & E & Ha).
  - split; [|done | split; [done | by intros ?]]. intros l. split; [intros []%not_elem_of_empty | intros [[] _]; done].
  - exists m'. split; [exact E |]. rewrite (right_id_L ∅ (∪)) in Ha. exact Ha.
Defined.

(** The machine with CPU 0 holding the allocator's lock. *)
Definition machine1 : Spinlock.machine :=
  Spinlock.mkMachine (fun _ => Spinlock.mkCpu 1 true false)
    (fun l => if decide (l = LkKmem) then Spinlock.mkLock 1 "kmem" (Some 0%nat) else Spinlock.mkLock 0 "lock" None).

Lemma release_refines_witness :
  exists m', Spinlock.release 0 LkKmem machine1 = Ok tt m' /\ Spinlock.locked (Spinlock.locks m' LkKmem) = 0.
Proof.
  pose proof (Spinlock.release_refines 0 machine1 (set_held {[LkKmem]} power_on) LkKmem) as H.
  rewrite (release_Ok LkKmem (set_held {[LkKmem]} power_on)) in H by (cbn; set_solver +).
  destruct H as (m' & E & _ & Hl).
  - split; [|done | split; [done | by intros ?]]. intros l. cbn. rewrite elem_of_singleton.
    destruct (decide (l = LkKmem)) as [->|]; cbn; [by split | split; [done | intros [[] _]; done]].
  - exists m'. split; [exact E | exact Hl].
Defined.

(** ** Memory *)

Definition hello : gmap Z Z := store_bytes ∅ 100 [104; 105; 0].

Lemma safestrcpy_spec_witness : exists k, 0 <= k < 16 /\ load8 (safestrcpy hello 200 100 16) (200 + k) = 0.
Proof.
  destruct (safestrcpy_spec hello 200 100 16) as (k & Hk & _ & Hz & _); [lia | lia |]. exists k. split; [exact Hk | exact Hz].
Defined.

Lemma allocator_partition_witness : memfree (S npages) boot0 = Ok (4096 * (Z.of_nat npages - 0)) boot0.
Proof.
  apply (allocator_partition power_on boot0 boot0 [] (S npages));
    [reflexivity | apply not_elem_of_empty | exact boot0_kinit | apply rtc_refl | lia].
Defined.

(** ** Page tables and user memory *)

Lemma mappages_spec_witness : exists root N l r s', pt_inv demo root N l /\
  mappages root 8192 4096 KERNBASE PTE_R demo = Ok r s'.
Proof.
  destruct demo_facts as (tf & pt & N & D & l & H). pose proof (as_pt _ _ _ _ _ (demo_as H)) as Hp.
  destruct (mappages_spec demo pt N l 8192 4096 KERNBASE PTE_R) as (r & s' & N' & u & rest & k & E & _);
    [exact Hp | lia | done | lia | done | by vm_compute | by vm_compute | by vm_compute | by vm_compute | |].
  - intros v Hv. apply (demo_gap H v). lia.
  - exists pt, N, l, r, s'. split; [exact Hp | exact E].
Defined.

Lemma umem_writable N p :
  lookup_pte umem.(mem) N 0 = Z.lor (PA2PTE p) (Z.lor (Z.lor (Z.lor PTE_R PTE_U) PTE_W) PTE_V) -> page_ok p ->
  forall va, 0 <= va < 4096 -> uwritable umem.(mem) N va.
Proof.
  intros E Hp va Hva. unfold uwritable. rewrite (PGROUNDDOWN_in 0 va) by (done || lia). split; [by vm_compute |].
  rewrite E. unfold writable. pose proof (page_56 p Hp). by rewrite !has_mk by (done || by vm_compute).
Qed.

Lemma copyout_spec_witness : exists s', copyout umem_root 10 [104; 105; 0] umem = Ok 0 s'.
Proof.
  destruct umem_as as (N & D & l & p & _ & Ha & _ & He & Hp).
  destruct (copyout_spec umem umem_root N D l 10 [104; 105; 0]) as (r & s' & k & E & _ & _ & _ & _ & _ & _ & Hr);
    [exact Ha | lia |].
  exists s'. destruct Hr as [[-> _]|(_ & Hk & Hn)]; [exact E |].
  destruct Hn. apply (umem_writable N p He Hp). change (length [104; 105; 0]) with 3%nat in Hk. lia.
Defined.

Lemma copyin_spec_witness : exists root N D l r bs, as_inv demo root N D l /\ copyin root 0 100 demo = Ok (r, bs) demo.
Proof.
  destruct demo_facts as (tf & pt & N & D & l & H).
  destruct (copyin_spec demo pt N D l 0 100) as (r & bs & E & _); [exact (demo_as H) | lia | lia |].
  exists pt, N, D, l, r, bs. split; [exact (demo_as H) | exact E].
Defined.

Lemma umem_copyout : exists s', copyout umem_root 10 [104; 105; 0] umem = Ok 0 s'.
Proof.
  destruct umem_as as (N & D & l & p & _ & Ha & _ & He & Hp).
  destruct (copyout_loop_spec umem_root N D l 5 [104; 105; 0] 10 umem) as (r & s' & k & E & _ & Hr); [exact Ha | lia | cbn; lia |].
  exists s'. destruct Hr as [[-> _]|(_ & Hk & Hn)]; [exact E |].
  destruct Hn. apply (umem_writable N p He Hp). change (length [104; 105; 0]) with 3%nat in Hk. lia.
Qed.

Lemma copyout_copyin_witness : exists s', copyout umem_root 10 [104; 105; 0] umem = Ok 0 s' /\
  copyin umem_root 10 3 s' = Ok (0, [104; 105; 0]) s'.
Proof.
  destruct umem_as as (N & D & l & p & _ & Ha & _). destruct umem_copyout as (s' & E).
  exists s'. split; [exact E |]. apply (copyout_copyin umem s' umem_root N D l 10 [104; 105; 0]); [exact Ha | lia | exact E].
Defined.

Lemma uvmalloc_spec_witness : exists root N D l r s', as_inv demo root N D l /\
  uvmalloc root 8192 12288 PTE_W demo = Ok r s' /\ (r = 12288 \/ r = 0).
Proof.
  destruct demo_facts as (tf & pt & N & D & l & H).
  destruct (uvmalloc_spec demo pt N D l 8192 12288 PTE_W) as (r & s' & N' & D' & l' & E & Hr);
    [exact (demo_as H) | lia | by vm_compute | by vm_compute | intros va Hva; exact (demo_gap H va Hva) |].
  exists pt, N, D, l, r, s'. split; [exact (demo_as H) |]. split; [exact E |]. destruct Hr as [[-> _]|[-> _]]; [by left | by right].
Defined.

Lemma umem_root_unmapped va : has (lookup_pte umem0.(mem) {[ [] := umem_root ]} va) PTE_V = false.
Proof. generalize umem0. intros s. rewrite lookup_root_only. reflexivity. Qed.

Lemma PTE_W_range : 0 <= PTE_W < 1024.
Proof. by vm_compute. Qed.

Lemma page_MAXVA : 4096 <= MAXVA.
Proof. by vm_compute. Qed.

Lemma uvmalloc_uvmdealloc_witness : exists s2 N2 l2, uvmdealloc umem_root 4096 0 umem = Ok 0 s2 /\
  as_inv s2 umem_root N2 ∅ l2.
Proof.
  destruct umem0_as as (l & Ha & _). destruct umem_as as (_ & _ & _ & _ & E & _).
  destruct (uvmalloc_uvmdealloc umem0 umem_root {[ [] := umem_root ]} ∅ l 0 4096 PTE_W umem Ha
    ltac:(lia) page_MAXVA PTE_W_range (fun va _ _ => umem_root_unmapped va) E)
    as (s2 & N2 & l2 & E2 & H2 & _).
  exists s2, N2, l2. split; [exact E2 | exact H2].
Defined.

Lemma uvmfree_spec_witness : exists s' l l', uvmfree umem_root 0 umem0 = Ok tt s' /\
  released umem0 s' {[ [] := umem_root ]} ∅ l l'.
Proof.
  destruct umem0_as as (l & Ha & _).
  destruct (uvmfree_spec umem0 umem_root {[ [] := umem_root ]} ∅ l 0) as (s' & l' & E & Hr);
    [exact Ha | by vm_compute | apply empty_only_user; intros va _ _; exact (umem_root_unmapped va) |].
  exists s', l, l'. split; [exact E | exact Hr].
Defined.

(** ** Processes, sleep and wakeup *)

Lemma kill_spec_witness : kill 1 demo = Ok 0 (set_procs (alter kill_proc 0%nat demo.(procs)) demo).
Proof.
  destruct demo_facts as (tf & pt & N & D & l & H).
  rewrite (kill_spec 1 demo); [|exact (demo_len H) | intros i; exact (demo_unlocked H (LkProc i))].
  rewrite (demo_procs _ _ _ _ _ _ H) at 1. reflexivity.
Defined.

Lemma sleep_spec_witness : exists k, sleep (Some ChTicks) LkTicks (set_held {[LkTicks]} demo) =
  Sleep (sleeping 0 (Some ChTicks) (set_held {[LkTicks]} demo)) k.
Proof.
  destruct demo_facts as (tf & pt & N & D & l & H).
  pose proof (demo_cur _ _ _ _ _ _ H) as Hc. pose proof (demo_slot0 H) as Hp. clear H. revert Hc Hp. generalize demo. intros s Hc Hp.
  pose proof (sleep_spec 0 (new_proc tf pt 8192) (Some ChTicks) LkTicks (set_held {[LkTicks]} s) Hc Hp) as Hs.
  rewrite decide_True in Hs by reflexivity. destruct Hs as (k & E & _); [set_solver + | set_solver + |].
  exists k. exact E.
Defined.

Definition sw_table : list proc := replicate NPROC (new_proc 0 0 0).

Definition sw0 : SleepWakeup.st :=
  SleepWakeup.mkSt (set_procs sw_table power_on) ∅ (fun _ => false)
    (fun _ => SleepWakeup.mkThread SleepWakeup.On [] None).

Definition ticks_lock (_ : chan) : lockid := LkTicks.

Lemma sw0_initial : SleepWakeup.initial sw0.
Proof.
  split; [reflexivity |]. split; [|split; reflexivity].
  intros i p Hp. apply lookup_replicate in Hp as [-> _]. discriminate.
Qed.

(** A state reached from [sw0] in which process 0 is at [th], a timer interrupt is at
    [th'], they hold [L] and [L'], and the table and the condition are as given. *)
Record sw_at (s : SleepWakeup.st) (th th' : SleepWakeup.thread) (L L' : gset lockid) (ps : list proc) (b : bool) : Prop := {
  sw_reach : rtc (SleepWakeup.step ticks_lock) sw0 s;
  sw_thr : SleepWakeup.thr s 0 = th /\ SleepWakeup.thr s NPROC = th';
  sw_locks t : SleepWakeup.locks s t = if decide (t = 0%nat) then L else if decide (t = NPROC) then L' else ∅;
  sw_procs : (SleepWakeup.kern s).(procs) = ps;
  sw_cond : SleepWakeup.cond s ChTicks = b;
}.

Section sleeper.
Notation On k td := (SleepWakeup.mkThread SleepWakeup.On k td).
Context (k : list stmt) (td : option (lockid * list SleepWakeup.act)) (th' : SleepWakeup.thread).
Context (L L' : gset lockid) (ps : list proc) (b : bool).

(** Process 0 executes a statement. *)
Lemma sw_run s x k' :
  sw_at s (On (x :: k) td) th' L L' ps b -> (forall l, x = SAcquire l -> l ∉ L /\ l ∉ L') ->
  do_stmt x (SleepWakeup.view s 0) = Ok tt k' ->
  sw_at (SleepWakeup.move 0 (On k td) k'.(held) k' s) (On k td) th' k'.(held) L' k'.(procs) b.
Proof.
  intros [R [T1 T2] Hl Hp Hc] Hf E. constructor; try done.
  - eapply rtc_r; [exact R |]. eapply SleepWakeup.st_run; [exact T1 | | exact E].
    intros l -> t. destruct (Hf l eq_refl). rewrite Hl. repeat case_decide; [done | done | set_solver +].
  - intros t. rewrite SleepWakeup.locks_move, Hl. by repeat case_decide.
Qed.

Lemma sw_acquire l : (exists s, sw_at s (On (SAcquire l :: k) td) th' L L' ps b) -> l ∉ L -> l ∉ L' ->
  exists s, sw_at s (On k td) th' ({[l]} ∪ L) L' ps b.
Proof.
  intros [s H] H1 H2. assert (SleepWakeup.locks s 0 = L) as El by (by rewrite (sw_locks _ _ _ _ _ _ _ H)).
  eapply sw_run in H as H'; [|by intros ? [= <-] |apply acquire_Ok; simpl; by rewrite El].
  eexists. simpl in H'. rewrite El, (sw_procs _ _ _ _ _ _ _ H) in H'. exact H'.
Qed.

Lemma sw_release l : (exists s, sw_at s (On (SRelease l :: k) td) th' L L' ps b) -> l ∈ L ->
  exists s, sw_at s (On k td) th' (L ∖ {[l]}) L' ps b.
Proof.
  intros [s H] H1. assert (SleepWakeup.locks s 0 = L) as El by (by rewrite (sw_locks _ _ _ _ _ _ _ H)).
  eapply sw_run in H as H'; [|done |apply release_Ok; simpl; by rewrite El].
  eexists. simpl in H'. rewrite El, (sw_procs _ _ _ _ _ _ _ H) in H'. exact H'.
Qed.

Lemma sw_upd x g : do_stmt x = upd_proc 0 g -> (forall l, x <> SAcquire l) ->
  (exists s, sw_at s (On (x :: k) td) th' L L' ps b) -> exists s, sw_at s (On k td) th' L L' (alter g 0%nat ps) b.
Proof.
  intros Hx Hn [s H]. assert (SleepWakeup.locks s 0 = L) as El by (by rewrite (sw_locks _ _ _ _ _ _ _ H)).
  eapply sw_run in H as H'; [|by intros l ->; destruct (Hn l) |rewrite Hx; reflexivity].
  eexists. simpl in H'. rewrite El, (sw_procs _ _ _ _ _ _ _ H) in H'. exact H'.
Qed.
End sleeper.

Lemma sw_set s th th' th1 L L' ps b :
  sw_at s th th' L L' ps b -> SleepWakeup.step ticks_lock s (SleepWakeup.set_thr 0 th1 s) ->
  sw_at (SleepWakeup.set_thr 0 th1 s) th1 th' L L' ps b.
Proof. intros [R [T1 T2] Hl Hp Hc] Hs. constructor; try done. eapply rtc_r; [exact R | exact Hs]. Qed.

Definition sleepy : list proc :=
  alter (set_p_state SLEEPING) 0%nat (alter (set_p_chan (Some ChTicks)) 0%nat sw_table).

Definition sw_wait : option (lockid * list SleepWakeup.act) := Some (LkTicks, [SleepWakeup.Wait ChTicks]).

(** Process 0 is about to go to sleep on the tick counter. *)
Lemma sw_falls : exists s, sw_at s
  (SleepWakeup.mkThread SleepWakeup.On (drop 4 (sleep_code 0 (Some ChTicks) LkTicks)) sw_wait)
  (SleepWakeup.mkThread SleepWakeup.On [] None) {[LkProc 0]} ∅ sleepy false.
Proof.
  assert (sw_at sw0 (SleepWakeup.mkThread SleepWakeup.On [] None) (SleepWakeup.mkThread SleepWakeup.On [] None) ∅ ∅
    sw_table false) as H0.
  { constructor; try done. intros t. unfold SleepWakeup.locks.
    change (SleepWakeup.lkm sw0) with (∅ : gmap nat (gset lockid)). rewrite lookup_total_empty. by repeat case_decide. }
  assert (SleepWakeup.section_ok ticks_lock 0 LkTicks [SleepWakeup.Wait ChTicks]) as Hok.
  { split; [done |]. split_and!; [done | vm_compute; lia | done]. }
  pose proof (sw_set _ _ _ _ _ _ _ _ H0 (SleepWakeup.st_enter ticks_lock sw0 0 LkTicks [SleepWakeup.Wait ChTicks] eq_refl Hok)) as H1.
  destruct (sw_acquire _ _ _ _ _ _ _ LkTicks (ex_intro _ _ H1)) as [s2 H2]; [set_solver + | set_solver + |].
  pose proof (SleepWakeup.st_wait ticks_lock s2 0 LkTicks ChTicks [] (proj1 (sw_thr _ _ _ _ _ _ _ H2))) as Hst.
  rewrite (sw_cond _ _ _ _ _ _ _ H2) in Hst. pose proof (sw_set _ _ _ _ _ _ _ _ H2 Hst) as H3. cbv iota in H3.
  destruct (sw_acquire _ _ _ _ _ _ _ (LkProc 0) (ex_intro _ _ H3)) as [s4 H4]; [set_solver + | set_solver + |].
  pose proof (sw_release _ _ _ _ _ _ _ LkTicks (ex_intro _ _ H4) ltac:(set_solver +)) as H5.
  pose proof (sw_upd _ _ _ _ _ _ _ (SChan 0 (Some ChTicks)) _ eq_refl ltac:(done) H5) as H6.
  destruct (sw_upd _ _ _ _ _ _ _ (SState 0 SLEEPING) _ eq_refl ltac:(done) H6) as [s7 H7]. exists s7.
  replace {[LkProc 0]} with (({[LkProc 0]} ∪ ({[LkTicks]} ∪ ∅)) ∖ {[LkTicks]} : gset lockid) by set_solver +. exact H7.
Qed.

(** Then, before it has left its CPU, a timer interrupt makes the condition true. *)
Lemma sw_tick : exists s, rtc (SleepWakeup.step ticks_lock) sw0 s /\ SleepWakeup.asleep s 0 ChTicks /\
  SleepWakeup.cond s ChTicks = true.
Proof.
  destruct sw_falls as [s [R [_ T] Hl Hp _]].
  set (acts := [SleepWakeup.Assign ChTicks true; SleepWakeup.Wakeup ChTicks 0]).
  assert (SleepWakeup.section_ok ticks_lock NPROC LkTicks acts) as Hok.
  { split; [done |]. split_and!; [done | | done]. intros _. left. split; [done | lia]. }
  pose proof (SleepWakeup.st_enter ticks_lock s NPROC LkTicks acts T Hok) as S1. set (s1 := SleepWakeup.set_thr _ _ s) in S1.
  assert (SleepWakeup.thr s1 NPROC = SleepWakeup.mkThread SleepWakeup.On [SAcquire LkTicks] (Some (LkTicks, acts))) as T1
    by apply SleepWakeup.fn_insert_eq.
  assert (SleepWakeup.free s1 LkTicks) as Hf.
  { intros t. change (LkTicks ∉ SleepWakeup.locks s t). rewrite Hl. repeat case_decide; set_solver +. }
  pose proof (SleepWakeup.st_run ticks_lock s1 NPROC (SAcquire LkTicks) [] _ _ T1 ltac:(by intros ? [= <-])
    (acquire_Ok LkTicks (SleepWakeup.view s1 NPROC) (Hf NPROC))) as S2. set (s2 := SleepWakeup.move _ _ _ _ s1) in S2.
  assert (SleepWakeup.thr s2 NPROC = SleepWakeup.mkThread SleepWakeup.On [] (Some (LkTicks, acts))) as T2
    by (unfold s2; by rewrite SleepWakeup.thr_move, decide_True).
  pose proof (SleepWakeup.st_assign ticks_lock s2 NPROC LkTicks ChTicks true [SleepWakeup.Wakeup ChTicks 0] T2) as S3.
  eexists. split; [eapply rtc_r; [eapply rtc_r; [eapply rtc_r; [exact R | exact S1] | exact S2] | exact S3] |].
  split; [|reflexivity]. exists (set_p_state SLEEPING (set_p_chan (Some ChTicks) (new_proc 0 0 0))).
  split; [|by split]. change (procs (SleepWakeup.kern s) !! 0%nat = Some (set_p_state SLEEPING (set_p_chan (Some ChTicks) (new_proc 0 0 0)))).
  by rewrite Hp.
Qed.

Lemma no_lost_wakeup_witness : exists s s', SleepWakeup.asleep s 0 ChTicks /\
  rtc (SleepWakeup.step ticks_lock) s s' /\ SleepWakeup.runnable s' 0.
Proof.
  destruct sw_tick as (s & Hr & Ha & Hc).
  destruct (SleepWakeup.no_lost_wakeup ticks_lock sw0 s 0 ChTicks sw0_initial Hr Ha Hc) as (_ & s' & Hr' & _ & Hs').
  exists s, s'. split; [exact Ha |]. split; [exact Hr' | exact Hs'].
Defined.

(** ** Pipes *)

Definition pipe0 : pipe := mkPipe (replicate 512 0) 0 0 1 1.

Lemma pipe0_ok : pipe_ok pipe0.
Proof. split; [done | done | done | by vm_compute]. Qed.

(** A process with one page of memory that holds the lock of a pipe. *)
Definition pipe_user (pi : pipe) (s : kernel) : kernel :=
  set_pipes {[ KERNBASE := pi ]} (set_held {[LkPipe KERNBASE]} (set_cur (Some 0%nat)
    (set_procs (replicate NPROC (new_proc 0 umem_root 4096)) s))).

Lemma pipe_user_caller pi s N D l :
  as_inv s umem_root N D l ->
  pipe_caller (pipe_user pi s) KERNBASE 0 (new_proc 0 umem_root 4096) umem_root N D l.
Proof.
  intros Ha. constructor; [|done..]. eapply as_inv_ext; [exact Ha | done | done |]. cbn. set_solver +.
Qed.

(** It puts a byte into the pipe and takes it out again. *)
Lemma pipe_echo : exists s b, rtc (turn KERNBASE) (pipe_user pipe0 umem, [], []) (s, [b], [Delivered (Some b)]).
Proof.
  destruct umem_as as (N & D & l & p & _ & Ha & _ & He & Hp).
  pose proof (umem_writable N p He Hp 0 ltac:(lia)) as Hw. revert Ha Hw. clear He. generalize umem. intros s Ha Hw.
  pose proof (pipewrite_turn_run _ _ _ _ _ _ _ _ 0 0 _ (pipe_user_caller pipe0 s N D l Ha) (lookup_singleton_eq _ _)) as H1.
  rewrite bool_decide_eq_false_2 in H1 by (cbn; lia). change (pipe_full pipe0) with false in H1. cbv iota in H1.
  change (u64 (0 + 0)) with 0 in H1.
  assert (ureadable s.(mem) N 0) as Hr by (destruct Hw; split; [done | by apply writable_readable]).
  destruct H1 as [(b & _ & Hb & E1)|[Hn _]]; [|by destruct (Hn Hr)].
  assert (set_pipe KERNBASE (pipe_put b pipe0) (pipe_user pipe0 s) = pipe_user (pipe_put b pipe0) s) as Es.
  { unfold set_pipe, pipe_user. cbn [pipes set_pipes]. by rewrite insert_singleton_eq. }
  rewrite Es in E1.
  pose proof (piperead_turn_run _ _ _ _ _ _ 0 0 _ (c_as _ _ _ _ _ _ _ _ (pipe_user_caller (pipe_put b pipe0) s N D l Ha))
    (lookup_singleton_eq _ _)) as H2.
  change (pipe_empty (pipe_put b pipe0)) with false in H2. cbv iota in H2. change (u64 (0 + 0)) with 0 in H2.
  destruct H2 as (s2 & [[E2 Hu]|(_ & _ & Hn)]); [|by destruct (Hn Hw)].
  change (pipe_byte (pipe_put b pipe0)) with b in Hu.
  pose proof (uw_byte _ _ _ _ _ _ _ _ Hu 0 ltac:(lia)) as Hb2. rewrite decide_True in Hb2 by (cbn; lia). change (u8 <$> _) with (Some (u8 b)) in Hb2.
  rewrite (ubyte_u8 _ _ _ _ Hb) in Hb2.
  exists (set_pipe KERNBASE (pipe_get (pipe_put b pipe0)) s2), b.
  eapply rtc_l; [exact (turn_write _ _ _ _ _ _ _ _ _ _ _ _ [] [] (pipe_user_caller pipe0 s N D l Ha) E1) |].
  change (u64 (0 + 0)) with 0. rewrite Hb.
  eapply rtc_l; [exact (turn_read _ _ _ _ _ _ _ _ _ _ _ _ [b] [] (pipe_user_caller (pipe_put b pipe0) s N D l Ha) E2) |].
  change (u64 (0 + 0)) with 0. change (mem (set_pipe _ _ s2)) with (mem s2). rewrite Hb2. apply rtc_refl.
Qed.

Lemma pipe_fifo_witness : exists s b pi, s.(pipes) !! KERNBASE = Some pi /\ [b] = [b] ++ contents pi.
Proof.
  destruct pipe_echo as (s & b & Hr). exists s, b.
  destruct (pipe_fifo KERNBASE (pipe_user pipe0 umem) pipe0 s [b] [Delivered (Some b)]) as (pi & got & Hpi & _ & _ & E & Hf);
    [reflexivity | exact pipe0_ok | reflexivity | exact Hr |].
  exists pi. split; [exact Hpi |]. destruct got as [|x [|]]; inversion Hf as [|? ? ? ? Hx Hf']; [|inversion Hf'].
  destruct Hx as [[= ->]|[=]]. exact E.
Defined.

Section demo_pipe.
Context {s tf pt N D l} (H : demo_is s tf pt N D l).

Lemma demo_pipe_as x : as_inv (set_pipes x s) pt N D l.
Proof. apply as_inv_pipes, (demo_as H). Qed.
End demo_pipe.

Lemma pipewrite_spec_witness : exists bs pi',
  Z.of_nat (length bs) <= 3 /\ pipe_ok pi' /\ contents pi' = contents pipe0 ++ bs.
Proof.
  destruct demo_facts as (tf & pt & N & D & l & H). revert H. generalize demo. intros s H.
  destruct (pipewrite_spec 4 KERNBASE 0 3 (set_pipes {[ KERNBASE := pipe0 ]} s) 0 (new_proc tf pt 8192) N D l pipe0)
    as (bs & pi' & _ & Hk & Hok & Hc & _).
  - exact (demo_pipe_as H _).
  - exact (demo_held _ _ _ _ _ _ H).
  - exact (demo_cur _ _ _ _ _ _ H).
  - exact (demo_len H).
  - exact (demo_slot0 H).
  - reflexivity.
  - apply lookup_singleton_eq.
  - exact pipe0_ok.
  - done.
  - lia.
  - exists bs, pi'. split; [exact Hk |]. split; [exact Hok | exact Hc].
Defined.

(** Reading from the empty pipe sleeps. *)
Lemma piperead_spec_witness : exists s k, piperead 1 KERNBASE 0 3 s = Sleep (sleeping 0 (Some (ChNread KERNBASE)) s) k.
Proof.
  destruct demo_facts as (tf & pt & N & D & l & H). exists (set_pipes {[ KERNBASE := pipe0 ]} demo).
  revert H. generalize demo. intros s H.
  destruct (piperead_spec 0 KERNBASE 0 3 (set_pipes {[ KERNBASE := pipe0 ]} s) 0 (new_proc tf pt 8192) N D l pipe0)
    as (k & E & _).
  - exact (demo_pipe_as H _).
  - exact (demo_held _ _ _ _ _ _ H).
  - exact (demo_cur _ _ _ _ _ _ H).
  - exact (demo_len H).
  - exact (demo_slot0 H).
  - reflexivity.
  - apply lookup_singleton_eq.
  - exact pipe0_ok.
  - lia.
  - lia.
  - lia.
  - exists k. exact E.
Defined.

(** ** Semaphores *)

Lemma sem_repr_zero : sem_repr (mkSem 0 (replicate NPROC None) 0 0) 0 [].
Proof. split; try done; cbn; unfold NPROC; lia. Qed.

Section demo_sem.
Context {s tf pt N D l} (H : demo_is s tf pt N D l).

Lemma demo_quiet : quiet s 0.
Proof.
  split; [exact (demo_held _ _ _ _ _ _ H) | exact (demo_cur _ _ _ _ _ _ H) | exact (demo_len H) | unfold NPROC; lia].
Qed.

Lemma demo_sem_repr : sem_repr s.(all_sem) 0 [].
Proof. rewrite (demo_sem _ _ _ _ _ _ H). exact sem_repr_zero. Qed.

Lemma demo_no_chan j q k : s.(procs) !! j = Some q -> q.(p_chan) = Some (ChProc k) -> j = k.
Proof. intros Hq Hc. apply (demo_slots H) in Hq as [[-> ->]|(_ & -> & _)]; discriminate Hc. Qed.
End demo_sem.

(** sem_wait() on a semaphore of value 0 sleeps. *)
Lemma sem_wait_spec_witness : exists m' k, sem_wait demo = Sleep (sleeping 0 (Some (ChProc 0)) (set_all_sem m' demo)) k /\
  sem_repr m' 0 [0%nat].
Proof.
  destruct demo_facts as (tf & pt & N & D & l & H). revert H. generalize demo. intros s H.
  destruct (sem_wait_spec s 0 0 [] (demo_quiet H) (demo_sem_repr H)) as (m' & k & E & Hr & _); [cbn; unfold NPROC; lia |].
  exists m', k. split; [exact E | exact Hr].
Defined.

Lemma sem_post_spec_witness : exists m', sem_post demo = Ok 0 (set_all_sem m' demo) /\ sem_repr m' 1 [].
Proof.
  destruct demo_facts as (tf & pt & N & D & l & H). revert H. generalize demo. intros s H.
  destruct (sem_post_spec s 0 0 [] (demo_quiet H) (demo_sem_repr H)) as (m' & E & Hr); [lia | exact (demo_no_chan H) |].
  exists m'. split; [exact E | exact Hr].
Defined.

Lemma demo_sem_sleeps : exists m' k, sem_wait demo = Sleep (sleeping 0 (Some (ChProc 0)) (set_all_sem m' demo)) k.
Proof.
  destruct demo_facts as (tf & pt & N & D & l & H). revert H. generalize demo. intros s H.
  pose proof (sem_wait_run s 0 0 [] (demo_quiet H) (demo_sem_repr H)) as Hw.
  destruct Hw as (m' & k & E & _); [cbn; unfold NPROC; lia |]. exists m', k. exact E.
Qed.

Lemma sem_wait_spurious_witness : exists m' k s3, sem_wait demo = Sleep (sleeping 0 (Some (ChProc 0)) (set_all_sem m' demo)) k /\
  s3.(all_sem) = m' /\ sem_repr m' 0 [0%nat].
Proof.
  destruct demo_sem_sleeps as (m' & k & E). destruct demo_facts as (tf & pt & N & D & l & H).
  revert E H. generalize demo. intros s E H.
  destruct (sem_wait_spurious s 0 1 [] (new_proc tf pt 8192) m' k (demo_quiet H) (demo_sem_repr H)) as (s2 & _ & _ & _ & s3 & _ & Hs3 & Hr);
    [cbn; unfold NPROC; lia | lia | exact (demo_slot0 H) | exact E |].
  exists m', k, s3. split; [exact E |]. split; [exact Hs3 | exact Hr].
Defined.

Lemma sem_destroy_spec_witness : exists m', sem_destroy demo = Ok 0 (set_all_sem m' demo) /\ sem_repr m' 0 [].
Proof.
  destruct demo_facts as (tf & pt & N & D & l & H). revert H. generalize demo. intros s H.
  exact (sem_destroy_spec s 0 0 [] (demo_quiet H) (demo_sem_repr H)).
Defined.

(** ** Process slots *)

Lemma freeproc_spec_witness : exists s', freeproc 0 demo = Ok tt s'.
Proof.
  destruct demo_facts as (tf & pt & N & D & l & H). revert H. generalize demo. intros s H.
  destruct (freeproc_spec s 0 (new_proc tf pt 8192) N D l (demo_proc_res _ _ _ _ _ _ H) (demo_slot0 H) (demo_unlocked H LkKmem))
    as (s' & l' & E & _).
  exists s'. exact E.
Defined.

Lemma demo_find {s tf pt N D l} : demo_is s tf pt N D l ->
  list_find (fun p => p.(p_state) = UNUSED) s.(procs) = Some (1%nat, init_proc 1).
Proof. intros H. rewrite (demo_procs _ _ _ _ _ _ H). generalize tf, pt. reflexivity. Qed.

Lemma allocproc_spec_witness : exists r s', allocproc demo = Ok r s' /\ (r = Some 1%nat \/ r = None).
Proof.
  destruct demo_facts as (tf & pt & N & D & l & H). revert H. generalize demo. intros s H.
  pose proof (allocproc_spec s l (demo_kmem H) (demo_len H) (demo_clean H) (fun i => demo_unlocked H (LkProc i))
    (demo_unlocked H LkKmem) (demo_unlocked H LkPid)) as Ha.
  rewrite (demo_find H) in Ha. destruct Ha as (r & s' & E & _ & Hr). exists r, s'. split; [exact E |].
  destruct Hr as [[-> _]|[-> _]]; [by left | by right].
Defined.

Lemma demo_pids {s tf pt N D l} : demo_is s tf pt N D l ->
  forall j q, s.(procs) !! j = Some q -> q.(p_state) = UNUSED <-> q.(p_pid) = 0.
Proof. intros H j q Hq. apply (demo_slots H) in Hq as [[-> ->]|(_ & -> & _)]; done. Qed.

Lemma kill_zero_dooms_next_witness : exists s1, kill 0 demo = Ok 0 s1.
Proof.
  destruct demo_facts as (tf & pt & N & D & l & H). revert H. generalize demo. intros s H.
  destruct (kill_zero_dooms_next s l 1 (init_proc 1) (demo_kmem H) (demo_len H) (demo_clean H)
    (fun i => demo_unlocked H (LkProc i)) (demo_unlocked H LkKmem) (demo_unlocked H LkPid) (demo_pids H) (demo_find H))
    as (s1 & E & _).
  exists s1. exact E.
Defined.

Lemma sig_handlers_inherited_witness : exists s1, freeproc 0 demo = Ok tt s1 /\
  forall r s2, allocproc s1 = Ok (Some r) s2 -> r = 0%nat.
Proof.
  destruct demo_facts as (tf & pt & N & D & l & H). revert H. generalize demo. intros s H.
  destruct (sig_handlers_inherited s 0 (new_proc tf pt 8192) N D l (demo_proc_res _ _ _ _ _ _ H) (demo_slot0 H)
    (demo_len H) (demo_clean H) (fun i => demo_unlocked H (LkProc i)) (demo_unlocked H LkKmem) (demo_unlocked H LkPid))
    as (s1 & E & Hr); [intros j q Hj; lia |].
  exists s1. split; [exact E |]. intros r s2 E2. exact (proj1 (Hr r s2 E2)).
Defined.

Lemma growproc_spec_witness : exists r s', growproc 4096 demo = Ok r s' /\ (r = 0 \/ r = -1).
Proof.
  destruct demo_facts as (tf & pt & N & D & l & H). revert H. generalize demo. intros s H.
  destruct (growproc_spec s 0 (new_proc tf pt 8192) N D l 4096 (demo_proc_res _ _ _ _ _ _ H) (demo_slot0 H)
    (demo_cur _ _ _ _ _ _ H)) as (r & s' & N' & D' & l' & E & Hr); [lia | by vm_compute |].
  exists r, s'. split; [exact E |]. destruct Hr as [[-> _]|[-> _]]; [by left | by right].
Defined.

(** The process has a current directory. *)
Definition in_root (s : kernel) : kernel := set_procs (alter (set_p_cwd (Some 0%nat)) 0%nat s.(procs)) s.

Lemma demo_can_fork {s tf pt N D l} : demo_is s tf pt N D l -> can_fork (in_root s) 0 (set_p_cwd (Some 0%nat) (new_proc tf pt 8192)) 0 N D l.
Proof.
  intros H. assert (forall j q, (in_root s).(procs) !! j = Some q -> (j = 0%nat /\ q = set_p_cwd (Some 0%nat) (new_proc tf pt 8192)) \/ (j <> 0%nat /\ q = init_proc j)) as Hs.
  { intros j q. cbn. destruct (decide (0%nat = j)) as [<-|Hj].
    - rewrite list_lookup_alter_eq, (demo_slot0 H). intros [= <-]. by left.
    - rewrite list_lookup_alter_ne by done. intros Hq. apply (demo_slots H) in Hq as [[-> _]|(? & -> & _)]; [done | by right]. }
  split; try done.
  - exact (demo_cur _ _ _ _ _ _ H).
  - cbn. by rewrite list_lookup_alter_eq, (demo_slot0 H).
  - exact (demo_held _ _ _ _ _ _ H).
  - unfold procs_ok. cbn. rewrite length_alter. exact (demo_len H).
  - intros j q Hq Hu. apply Hs in Hq as [[-> ->]|[_ ->]]; done.
  - intros j q Hq Hu. apply Hs in Hq as [[-> ->]|[_ ->]]; done.
  - destruct (demo_proc_res _ _ _ _ _ _ H) as [Ha Ht Hu Hz Hf]. constructor; try done. by apply as_inv_procs.
  - intros f Hf. change (p_ofile _) with (replicate NOFILE (@None nat)) in Hf. by apply elem_of_replicate in Hf as [? _].
Qed.

Lemma fork_spec_witness : exists r s', fork (in_root demo) = Ok r s' /\ s'.(held) = ∅ /\ (r = -1 \/ r = 2).
Proof.
  destruct demo_facts as (tf & pt & N & D & l & H). revert H. generalize demo. intros s H.
  destruct (fork_spec (in_root s) 0 _ 0 N D l (demo_can_fork H)) as (r & s' & l' & E & Hh & _ & _ & Hr).
  exists r, s'. split; [exact E |]. split; [exact Hh |]. assert ((in_root s).(nextpid) = 2) as Hn by exact (demo_nextpid _ _ _ _ _ _ H).
  destruct (list_find _ _) as [[np q]|]; [|left; exact (proj1 Hr)]. destruct Hr as [[Hr _ _ _]|[Hr _]]; [by left | right; by rewrite Hr].
Defined.

(** ** The log *)

Lemma commit_atomic_witness : exists s', commit fs_demo = Ok tt s' /\ disk_block s'.(disk) 50 = view fs_demo 50.
Proof.
  destruct fs_demo_txn as ([Hg Hsz _ _ Hi _ Hh] & Hs & Hz). revert Hg Hsz Hi Hh Hs Hz. generalize fs_demo. intros s Hg Hsz Hi Hh Hs Hz.
  destruct (commit_atomic s 1 [50] Hg Hsz ltac:(discriminate) Hi Hh) as (T & Hw & _).
  destruct (wp_inv _ _ _ Hw) as ([] & s' & E & _ & _ & _ & Hd). exists s'. split; [exact E |]. apply Hd. rewrite Hs, Hz. lia.
Defined.

Lemma recovery_survives_crashes_witness : exists s', initlog ROOTDEV demo_sb fs1 = Ok tt s' /\ disk_block s'.(disk) 50 = zero_block.
Proof.
  pose proof fs1_recovers as Hr. pose proof (proj1 fs1_bc) as Hi. destruct fs1_fields as (Hl & _ & _ & Hlk). revert Hr Hi Hl Hlk. generalize fs1. intros s Hr Hi Hl Hlk.
  pose proof (recovery_survives_crashes demo_sb s.(disk) s.(disk) _ s 1 Hr (crashes_none demo_sb s.(disk)) eq_refl Hi Hl Hlk) as Hw.
  destruct (wp_inv _ _ _ Hw) as ([] & s' & E & _ & _ & Hd). exists s'. split; [exact E |]. apply Hd. cbn. lia.
Defined.

(** ** The file system *)

Lemma balloc_spec_witness : exists s', balloc ROOTDEV fs_tree = Ok 48 s' /\ view s' 48 = zero_block.
Proof.
  pose proof fs_tree_facts as Hf. revert Hf. generalize fs_tree. intros s Hf. pose proof (tree_ready s Hf) as Hr.
  assert (s.(sb).(sb_size) = 2000) as Ez by (by rewrite (tf_sb _ Hf)).
  pose proof (balloc_spec s 1 ∅ [] Hr (tf_txn _ Hf) (proj2 (tree_bits s 0 Hf ltac:(lia)))) as Hw.
  destruct (wp_inv _ _ _ Hw) as (r & s' & E & Hp). rewrite Ez in Hp. destruct (Z.eqb_spec r 0) as [->|Hne].
  - destruct Hp as [Hall _]. specialize (Hall 48 ltac:(lia)). rewrite (proj2 (tree_bits s 48 Hf ltac:(lia))) in Hall. discriminate.
  - destruct Hp as (Hlt & Hu & Hall & _ & Hz & _). rewrite (proj2 (tree_bits s r Hf ltac:(lia))) in Hu. apply Z.ltb_ge in Hu.
    destruct (decide (48 < r)) as [Hgt|].
    + specialize (Hall 48 ltac:(lia)). rewrite (proj2 (tree_bits s 48 Hf ltac:(lia))) in Hall. discriminate.
    + replace r with 48 in * by lia. exists s'. split; [exact E | exact Hz].
Defined.

Lemma balloc_bfree_witness : exists s', (r ← balloc ROOTDEV; when (negb (r =? 0)) (bfree ROOTDEV r)) fs_tree = Ok tt s' /\ bit_used (view s') demo_sb 48 = false.
Proof.
  pose proof fs_tree_facts as Hf. revert Hf. generalize fs_tree. intros s Hf. pose proof (tree_ready s Hf) as Hr.
  pose proof (balloc_bfree s 1 ∅ [] Hr (tf_txn _ Hf) (proj2 (tree_bits s 0 Hf ltac:(lia))) ltac:(rewrite size_empty; cbn; unfold NBUF; lia)
    ltac:(rewrite (tf_size _ Hf); cbn; lia)) as Hw.
  destruct (wp_inv _ _ _ Hw) as ([] & s' & E & Hp). exists s'. split; [exact E |]. rewrite (tf_sb _ Hf) in Hp. rewrite (Hp 48 ltac:(cbn; lia)).
  rewrite <- (tf_sb _ Hf). exact (proj2 (tree_bits s 48 Hf ltac:(lia))).
Defined.

Lemma skipelem_elements_witness : fname <$> names 7 [47; 97; 47; 47; 98; 99] (replicate 14 0) = [[97]; [98; 99]].
Proof.
  pose proof (skipelem_elements [47; 97; 47; 47; 98; 99] (replicate 14 0) ltac:(repeat constructor; lia) eq_refl) as H. exact H.
Defined.


Lemma writei_spec_witness : exists s', writei 1 (FromLocal [104; 105]) 99 2 fs_tree = Ok 2 s' /\
  file_byte (view s') file_inode 100 = 105 /\ s'.(itable) !! 1%nat = Some (set_i_size 101 file_inode).
Proof.
  pose proof fs_tree_facts as Hf. revert Hf. generalize fs_tree. intros s Hf.
  pose proof (writei_spec s 1 ∅ [] 1 file_inode 1 99 [104; 105] (tf_txn _ Hf) (tree_file s 2 Hf ltac:(lia)) ltac:(cbn; lia) ltac:(by apply Z.leb_le)) as Hw.
  destruct (wp_inv _ _ _ Hw) as (r & s' & E & -> & Hr). exists s'. split; [exact E | split].
  - rewrite (wt_bytes _ _ _ _ _ _ _ _ _ _ Hr) by (change BSIZE with 1024; lia). reflexivity.
  - rewrite (wt_inode _ _ _ _ _ _ _ _ _ _ Hr), (tf_itable _ Hf). reflexivity.
Defined.

Lemma writei_readi_witness : exists s', (r ← writei 1 (FromLocal [104; 105]) 99 2; '(r', got) ← readi 1 ToLocal 99 2; mret (r, r', got)) fs_tree = Ok (2, 2, [104; 105]) s'.
Proof.
  pose proof fs_tree_facts as Hf. revert Hf. generalize fs_tree. intros s Hf.
  pose proof (writei_readi s 1 ∅ [] 1 file_inode 99 [104; 105] (tf_txn _ Hf) (tree_file s 2 Hf ltac:(lia)) ltac:(cbn; lia) ltac:(by apply Z.ltb_lt)) as Hw.
  destruct (wp_inv _ _ _ Hw) as (res & s' & E & ->). exists s'. exact E.
Defined.

Lemma dinode_roundtrip_witness : i_addrs (get_dinode 64 (put_dinode 64 file_inode zero_block) root_inode) = 47 :: replicate 12 0.
Proof.
  assert (inode_ok file_inode) as Hok by (constructor; [done.. | split; [done | repeat constructor; done]]).
  pose proof (dinode_roundtrip 1 file_inode root_inode zero_block eq_refl Hok) as H. change (1 mod IPB * sizeof_dinode) with 64 in H. rewrite H. reflexivity.
Defined.

Lemma demo_it_uniq : it_uniq demo_itable.
Proof.
  assert (forall i x, demo_itable !! i = Some x -> 0 < x.(i_ref) -> (i = 0%nat /\ x = root_inode) \/ (i = 1%nat /\ x = file_inode)) as H.
  { intros [|[|i]] x Hx Hr; [left; by injection Hx as <- | right; by injection Hx as <- |]. apply (lookup_replicate 48 _ x i) in Hx as [-> _]. cbn in Hr. lia. }
  intros i j x y dev inum Hi Hj (Hx & _ & Ex) (Hy & _ & Ey). destruct (H i x Hi Hx) as [[-> ->]|[-> ->]], (H j y Hj Hy) as [[-> ->]|[-> ->]]; done || (cbn in *; lia).
Qed.

Lemma iget_spec_witness : exists s', iget ROOTDEV 2 fs_tree = Ok 1%nat s' /\ s'.(itable) !! 1%nat = Some (set_i_ref 2 file_inode).
Proof.
  pose proof fs_tree_facts as Hf. revert Hf. generalize fs_tree. intros s Hf. pose proof (tf_itable _ Hf) as Et.
  pose proof (iget_spec s ROOTDEV 2 (tf_lock _ Hf) ltac:(rewrite Et; exact demo_it_uniq)) as H. destruct (iget ROOTDEV 2 s) as [ip s'|msg| |]; [| | done..].
  - destruct H as (x & y & Hx & He & _ & -> & _). rewrite Et in *. destruct He as [[Hi ->]|(Hno & _)].
    + assert (ip = 1%nat) as ->. { apply (demo_it_uniq ip 1%nat x file_inode ROOTDEV 2); try done. }
      injection Hx as <-. eexists. split; [reflexivity | reflexivity].
    + exfalso. by apply (Hno 1%nat file_inode).
  - destruct H as [_ H]. exfalso. rewrite Et in H. by apply (H 1%nat file_inode).
Defined.

Lemma dirlookup_spec_witness : exists s', dirlookup 0 [97; 98] fs_tree = Ok (Some (1%nat, 48)) s'.
Proof.
  pose proof fs_tree_facts as Hf. revert Hf. generalize fs_tree. intros s Hf. pose proof (tf_itable _ Hf) as Et.
  assert (exists j z, s.(itable) !! j = Some z /\ z.(i_ref) = 0) as Hfree by (rewrite Et; exists 2%nat; eexists; split; reflexivity).
  pose proof (dirlookup_spec s 1 ∅ [] 0 root_inode 4 [97; 98] (tf_txn _ Hf) (tree_dir s Hf) ltac:(rewrite size_empty; cbn; unfold NBUF; lia) (tf_lock _ Hf) Hfree
    ltac:(repeat constructor; lia)) as Hw.
  assert (dir_find (view s) root_inode [97; 98] 4 0 = Some (2, 48)) as Ef.
  { cbn [dir_find]. rewrite !(tree_dirent s) by (done || lia). reflexivity. }
  rewrite Ef in Hw. destruct (wp_inv _ _ _ Hw) as (r & s' & E & s1 & ip & a & y & _ & -> & Ha & He & _). rewrite Et in *. exists s'. rewrite E.
  destruct He as [[Hi _]|(Hno & _)]; [|exfalso; by apply (Hno 1%nat file_inode)].
  assert (ip = 1%nat) as -> by (by apply (demo_it_uniq ip 1%nat a file_inode ROOTDEV 2)). reflexivity.
Defined.

(** ** printf() *)

Lemma printint_spec_witness : printint (-42) 10 true = Some [45; 52; 50] /\ numeral 10 [45; 52; 50] = -42.
Proof.
  pose proof (printint_spec (-42) 10 true (or_introl eq_refl) ltac:(lia)) as H.
  assert (printint (-42) 10 true = Some [45; 52; 50]) as E by reflexivity. rewrite E in H. split; [exact E | exact (proj2 H)].
Defined.

Lemma printf_u_overflow_witness : printf_loop 3 [37; 117] [VNum 4294967295] = Overrun.
Proof.
  pose proof (printf_u_overflow 4294967295 ltac:(lia)) as H.
  destruct (printf_loop 3 [37; 117] [VNum 4294967295]) as [bs| | |]; [|reflexivity | destruct H | destruct H].
  destruct H as [H _]. discriminate H.
Defined.
