(* ===== verification/UserWitnesses.v ===== *)
(** * Instances of the theorems on user programs

    Each theorem of the user-level components that has hypotheses, applied to a concrete
    input. *)

From S2P Require Import Prelude State Bytes Fs FsPath FsInode FsDir Mkfs MkfsSpec MkfsImage Ulib Umalloc Grep Sh ShPrint ShRun.

(** [a*b$] in the line [xaab] *)
Lemma match_spec_witness : match_ [97; 42; 98; 36] [120; 97; 97; 98] = true /\ matches [97; 42; 98; 36] [120; 97; 97; 98].
Proof.
  split; [reflexivity |]. apply (match_spec [97; 42; 98; 36] [120; 97; 97; 98]); [repeat constructor; lia | repeat constructor; lia | reflexivity].
Defined.

(** grep for [b] in a file of two lines that arrives in pieces *)
Lemma grep_spec_witness : grep [98] [97; 98; 10; 99; 10; 100] [1%nat; 3%nat] = Some [97; 98; 10].
Proof.
  rewrite (grep_spec [98] [97; 98; 10; 99; 10; 100] [1%nat; 3%nat]); [reflexivity | repeat constructor; lia | repeat constructor; cbn; lia].
Defined.

(** [( a | b > f ) & ; c] *)
Definition demo_command : shcmd := SList (SBack (SPipe (SExec [[97]]) (SRedir (SExec [[98]]) [102] 0x601 1))) (SExec [[99]]).

Lemma demo_command_ok : sh_ok demo_command.
Proof. cbn. repeat split; repeat constructor; try done; cbn; lia. Qed.

Lemma parsecmd_print_witness : exists c buf, parsecmd (text (print 0 demo_command)) = Got (c, buf) /\ denote buf c = demo_command.
Proof. exact (parsecmd_print demo_command demo_command_ok). Defined.

(** [a >> f] *)
Definition demo_line : list Z := [97; 32; 62; 62; 32; 102; 10; 0].
Definition demo_cmd : cmd := REDIR (EXEC [(0, 1)%nat]) 5 6 0x201 1.
Lemma demo_line_parsed : parsecmd demo_line = Got (demo_cmd, [97; 0; 62; 62; 32; 102; 0; 0]).
Proof. vm_compute. reflexivity. Qed.
Lemma parsecmd_wf_witness : word demo_line 7 (5, 6)%nat /\ at_ [97; 0; 62; 62; 32; 102; 0; 0] 6 = 0.
Proof.
  destruct (parsecmd_wf demo_line _ _ ltac:(apply Nat.ltb_lt; vm_compute; reflexivity) demo_line_parsed) as (Hc & _ & Hw). split; [apply Hc |]. apply (Hw 5%nat 6%nat). right. left.
Defined.


(** A process of two pages that may grow by a megabyte, its static header at 0x1000. *)
Definition demo_heap : heap := mkHeap ∅ ∅ 0 0x2000 0x100000.

Lemma demo_heap_inv : heap_inv 0x1000 demo_heap [].
Proof. by apply Fresh. Qed.

Lemma malloc_spec_witness : exists r h', malloc 0x1000 100 demo_heap = Some (r, h') /\ r = 0x11f90 /\ r + 100 <= h'.(brk).
Proof.
  destruct (malloc_spec 0x1000 demo_heap [] 100 demo_heap_inv ltac:(lia)) as (r & h' & E & H). exists r, h'. split; [exact E |].
  assert (r = 0x11f90) as Hr by (vm_compute in E; injection E; lia). split; [exact Hr |].
  destruct H as [(H0 & _)|(_ & _ & H & _)]; [rewrite Hr in H0; discriminate H0 | exact H].
Defined.

Lemma malloc_programs_witness : exists h' A, calls 0x1000 [Malloc 100; Malloc 50; Free 0; Malloc 70000] demo_heap [] = Some (h', A) /\ length A = 2%nat /\
  forall i j b c, A !! i = Some b -> A !! j = Some c -> 0x1000 < b.1 /\ b.1 + HDR * b.2 <= h'.(brk) /\ (i <> j -> apart b c).
Proof.
  destruct (malloc_programs 0x1000 [Malloc 100; Malloc 50; Free 0; Malloc 70000] demo_heap demo_heap_inv) as (h' & A & E & H).
  - repeat constructor; cbn; lia.
  - exists h', A. split; [exact E |]. split; [|exact H]. vm_compute in E. injection E as _ <-. reflexivity.
Defined.

(** ** mkfs with two files, user/_cat and README *)

Definition cat_arg : list Z := [117; 115; 101; 114; 47; 95; 99; 97; 116].
Definition readme_arg : list Z := [82; 69; 65; 68; 77; 69].

#[export] Instance demo_host : Host := {|
  creat := fun _ => true;
  input := fun name => if decide (name = cat_arg) then Some [[127; 69; 76; 70]] else if decide (name = readme_arg) then Some [[104; 105]; [10]] else None;
|}.

Lemma demo_args : MkfsImage.args_ok [cat_arg; readme_arg].
Proof.
  constructor; [|cbn; lia | apply Z.leb_le; vm_compute; reflexivity]. repeat constructor; try (cbn; lia); try (apply Z.leb_le; vm_compute; reflexivity).
  - exists [[127; 69; 76; 70]]. split; [reflexivity | by repeat constructor].
  - apply (bool_decide_unpack _). vm_compute. exact I.
  - exists [[104; 105]; [10]]. split; [reflexivity | by repeat constructor].
  - apply (bool_decide_unpack _). vm_compute. exact I.
Qed.

Lemma mkfs_formats_witness : exists s', Mkfs.main [[109]; [105]; cat_arg; readme_arg] (Mkfs.start (mkSb 0 0 0 0 0 0 0 0)) = Ok tt s' /\
  let f := MkfsSpec.sector s'.(Mkfs.img) in
  file_bytes f (MkfsImage.disk_inode f 3) 0 3 = [104; 105; 10] /\ dir_find f (MkfsImage.disk_inode f 1) [99; 97; 116] 64 0 = Some (2, 32).
Proof.
  destruct (MkfsImage.mkfs_formats (H := demo_host) (mkSb 0 0 0 0 0 0 0 0) [109] [105] [cat_arg; readme_arg] eq_refl demo_args) as (s' & E & _ & Hf). exists s'. split; [exact E |].
  destruct (MkfsImage.fm_file _ _ Hf 1%nat readme_arg eq_refl) as (_ & _ & Es & Eb). destruct (MkfsImage.fm_root _ _ Hf) as (_ & _ & Er & Hd). split.
  - change 3 with (MkfsSpec.len (MkfsSpec.contents readme_arg)) at 2. rewrite <- Es. exact Eb.
  - specialize (Hd [99; 97; 116]). rewrite Er in Hd. exact Hd.
Defined.
