(* ===== verification/DevWitnesses.v ===== *)
(** * Instances of the theorems on the disk driver and on the kernel's page table

    A disk held in a map, a run of a write request on it, and a machine with the memory a
    real one has. *)

From S2P Require Import Prelude State Mem Riscv Kalloc Vm PageTable Sched Scheduler Proc ProcVm Kvm Board Boot DiskInit BootSpec Machine Virtio VirtioSpec VirtioDisk.

(** ** A disk *)

Definition byte_at (d : gmap Z Z) (a : Z) : Z := default 0 (d !! a).
Fixpoint put_from (d : gmap Z Z) (a : Z) (bs : list Z) : gmap Z Z :=
  match bs with [] => d | b :: bs' => <[a := b]> (put_from d (a + 1) bs') end.
Definition get_from (d : gmap Z Z) (a : Z) (n : nat) : list Z := (fun i => byte_at d (a + Z.of_nat i)) <$> seq 0 n.

#[export] Instance map_storage : Storage := {|
  store := gmap Z Z; dev_read d sec n := get_from d (sec * 512) n; dev_write d sec bs := put_from d (sec * 512) bs |}.

Lemma byte_at_put bs : forall d a b, byte_at (put_from d a bs) b = if decide (a <= b < a + Z.of_nat (length bs)) then default 0 (bs !! Z.to_nat (b - a)) else byte_at d b.
Proof.
  induction bs as [|x bs IH]; intros d a b; cbn [put_from length]; [by rewrite decide_False by lia |]. unfold byte_at in *. destruct (decide (a = b)) as [->|Hne].
  - rewrite lookup_insert_eq, decide_True by lia. by rewrite Z.sub_diag.
  - rewrite lookup_insert_ne by done. rewrite IH. repeat case_decide; try lia; try done. by replace (Z.to_nat (b - a)) with (S (Z.to_nat (b - (a + 1)))) by lia.
Qed.

#[export] Instance map_storage_laws : StorageLaws map_storage.
Proof.
  split; cbn; intros.
  - unfold get_from. by rewrite length_fmap, length_seq.
  - apply list_eq. intros i. unfold get_from. rewrite list_lookup_fmap. destruct (decide (i < length bs)%nat) as [Hi|Hi].
    + rewrite lookup_seq_lt by done. cbn. rewrite byte_at_put, decide_True by lia. replace (Z.to_nat _) with i by lia. apply lookup_lt_is_Some_2 in Hi as [x Hx]. by rewrite Hx.
    + rewrite lookup_seq_ge by lia. symmetry. apply lookup_ge_None_2. lia.
  - apply list_fmap_ext. intros i x Hi. apply lookup_seq in Hi. rewrite byte_at_put, decide_False; [done | lia].
Qed.

(** ** Runs *)

Import Virtio VirtioSpec VirtioDisk.

Definition next (l : label) (s : vdisk) : option vdisk := match exec l s with Some (Ok _ s') => Some s' | _ => None end.
Fixpoint play (ls : list label) (s : vdisk) : option (list event * vdisk) :=
  match ls with
  | [] => Some ([], s)
  | l :: ls' =>
      match next l s with
      | None => None
      | Some s1 => match play ls' s1 with None => None | Some (tr, s2) => Some (option_list (visible l s1) ++ tr, s2) end
      end
  end.

Lemma next_exec l s s' : next l s = Some s' -> exec l s = Some (Ok tt s').
Proof. unfold next. destruct (exec l s) as [[[] s1| | |]|]; congruence. Qed.

Lemma play_runs ls : forall s tr s', play ls s = Some (tr, s') -> runs s tr s' /\ rtc step s s'.
Proof.
  induction ls as [|l ls IH]; intros s tr s' E; cbn in E; [simplify_eq; split; constructor |].
  destruct (next l s) as [s1|] eqn:E1; [|done]. destruct (play ls s1) as [[tr1 s2]|] eqn:E2; [|done]. simplify_eq. apply next_exec in E1. destruct (IH _ _ _ E2) as [Hr Hs].
  split; [by econstructor | eapply rtc_l; [by exists l | done]].
Qed.

(** Process 0 writes buffer 0, block 3, and process 1 reads it into buffer 1; the device serves the requests in turn. *)
Definition demo_data : list Z := replicate (Z.to_nat BSIZE) 7.
Definition demo_bufs : list vbuf := [mkVbuf 0 3 demo_data; mkVbuf 0 3 (replicate (Z.to_nat BSIZE) 0)].
Definition disk0 : vdisk := initial 3 demo_bufs ∅.
Definition half : list label := [LStart 0 0 true; LRun 0; LStart 1 1 false; LRun 0; LFetch; LRun 1; LServe 0; LRun 1].
Definition whole : list label := half ++ [LIntr; LTurn; LTurn; LRun 0; LFetch; LServe 0; LIntr; LTurn; LTurn; LRun 1].

Lemma demo_bufs_ok : Forall buf_ok demo_bufs.
Proof. repeat constructor; cbn; try lia; by rewrite length_replicate. Qed.

(** The states these runs end in. *)
Definition half_end : vdisk := from_option snd disk0 (play half disk0).
Definition whole_end : vdisk := from_option snd disk0 (play whole disk0).

Lemma play_end ls (tr : list event) : bool_decide (fst <$> play ls disk0 = Some tr) = true -> play ls disk0 = Some (tr, from_option snd disk0 (play ls disk0)).
Proof. intros E%bool_decide_eq_true. destruct (play ls disk0) as [[tr' s]|]; [|discriminate]. cbn in *. by injection E as ->. Qed.

Lemma half_run : play half disk0 = Some ([EStart 0 0 true; EStart 1 1 false], half_end).
Proof. apply play_end. vm_compute. reflexivity. Qed.

Lemma half_chains : act half_end 0 = Some (mkChain 0 1 2, 0%nat, true) /\ act half_end 1 = Some (mkChain 3 4 5, 1%nat, false).
Proof. split; vm_compute; reflexivity. Qed.

(** The device fails the request of process 0 with VIRTIO_BLK_S_IOERR, and the handler is entered. *)
Fixpoint play_any (ms : list move) (s : vdisk) : option vdisk :=
  match ms with
  | [] => Some s
  | m :: ms' => match exec_any m s with Some (Ok tt s1) => play_any ms' s1 | _ => None end
  end.

Lemma play_any_runs ms : forall s s', play_any ms s = Some s' -> rtc step_any s s'.
Proof.
  induction ms as [|m ms IH]; intros s s' E; cbn [play_any] in E; [by injection E as -> |]. destruct (exec_any m s) as [[[] s1| | |]|] eqn:E1; try done.
  eapply rtc_l; [by exists m | by apply IH].
Qed.

Definition failing : list move := (MStep <$> [LStart 0 0 true; LRun 0; LStart 1 1 false; LRun 0; LFetch; LRun 1]) ++ [MFail 0 1 (replicate (Z.to_nat BSIZE) 9)] ++ (MStep <$> [LRun 1; LIntr]).
Definition failed_end : vdisk := default disk0 (play_any failing disk0).

Lemma failing_run : rtc step_any disk0 failed_end.
Proof. apply (play_any_runs failing). unfold failed_end. assert (is_Some (play_any failing disk0)) as [s ->]; [apply (bool_decide_unpack _); vm_compute; exact I | done]. Qed.

Lemma failed_chains : act failed_end 0 = Some (mkChain 0 1 2, 0%nat, true) /\ act failed_end 1 = Some (mkChain 3 4 5, 1%nat, false).
Proof. split; vm_compute; reflexivity. Qed.

Lemma failed_reported : reported failed_end.
Proof. exists 0%nat, [], (Some 0%nat), 1. split_and!; [vm_compute; reflexivity | vm_compute; reflexivity | done]. Qed.

Lemma failed_turn : is_Some (exec_any (MStep LTurn) failed_end).
Proof. apply (bool_decide_unpack _). vm_compute. exact I. Qed.

Lemma virtio_safe_witness : rtc step_any disk0 failed_end /\ exec_any (MStep LTurn) failed_end = Some (Panic "virtio_disk_intr status") /\ ~ rtc step disk0 failed_end /\
  forall i, i ∈ descs (mkChain 0 1 2) -> i ∉ descs (mkChain 3 4 5).
Proof.
  destruct failed_turn as [o Eo], failed_chains as [H0 H1].
  destruct (virtio_safe 3 demo_bufs ∅ failed_end (MStep LTurn) o demo_bufs_ok failing_run Eo) as (Hp & _ & Hn & Hd). split; [exact failing_run |].
  split; [rewrite Eo; f_equal; exact (Hp eq_refl failed_reported) |]. split; [intros Hs; exact (Hn Hs failed_reported) |]. exact (proj2 (Hd 0%nat 1%nat _ _ _ _ _ _ ltac:(lia) H0 H1)).
Defined.

Lemma whole_run : play whole disk0 = Some ([EStart 0 0 true; EStart 1 1 false; EReturn 0; EReturn 1], whole_end).
Proof. apply play_end. vm_compute. reflexivity. Qed.

Lemma whole_buf : ((fun x => (x.(v_blockno), x.(v_data))) <$> whole_end.(vbufs)) !! 1%nat = Some (3, demo_data).
Proof. apply (bool_decide_unpack _). vm_compute. exact I. Qed.

(** The block process 0 wrote is in the buffer of process 1. *)
Lemma virtio_refines_witness : exists a, aruns (ainitial 3 demo_bufs ∅) [EStart 0 0 true; EStart 1 1 false; EReturn 0; EReturn 1] a /\ a.(a_bufs) !! 1%nat = Some (3, demo_data).
Proof.
  destruct (play_runs _ _ _ _ whole_run) as [Hr _]. destruct (virtio_refines 3 demo_bufs ∅ _ whole_end demo_bufs_ok Hr) as (a & Ha & [_ Hb _]). exists a. split; [exact Ha |]. rewrite Hb. exact whole_buf.
Defined.

Lemma virtio_progress_witness : exists s', rtc step disk0 half_end /\ act half_end 0 = Some (mkChain 0 1 2, 0%nat, true) /\ rtc goes_on half_end s' /\ Forall (fun th => th = TIdle) s'.(threads).
Proof.
  destruct (play_runs _ _ _ _ half_run) as [_ Hr]. destruct (virtio_progress 3 demo_bufs ∅ half_end demo_bufs_ok Hr) as (s' & Hg & Hi). exists s'. split; [exact Hr |]. split; [exact (proj1 half_chains) |]. split; [exact Hg | exact Hi].
Defined.

(** ** A machine with 127 megabytes of free memory *)

Lemma big_end_range : KERNBASE <= KERNBASE + 0x100000 < PHYSTOP.
Proof. done. Qed.
Definition big_linker : Linker := {| end_ := KERNBASE + 0x100000; end_range := big_end_range |}.

Lemma big_trampoline_range : KERNBASE <= KERNBASE + 0x7000 < @end_ big_linker.
Proof. done. Qed.
Lemma big_trampoline_page : (KERNBASE + 0x7000) mod 4096 = 0.
Proof. done. Qed.
Definition big_symbols : @Symbols big_linker :=
  @Build_Symbols big_linker (KERNBASE + 0x7000) big_trampoline_page big_trampoline_range (KERNBASE + 0x2000).

Lemma big_etext_range : KERNBASE + 0x7000 + 4096 <= KERNBASE + 0x8000 <= @end_ big_linker.
Proof. done. Qed.
Lemma big_etext_page : (KERNBASE + 0x8000) mod 4096 = 0.
Proof. done. Qed.
Definition big_text : @Text big_linker big_symbols := @Build_Text big_linker big_symbols (KERNBASE + 0x8000) big_etext_page big_etext_range.

(** The state after kinit(). *)
Lemma big_kmem : exists s l, @kmem_inv big_linker s l /\ LkKmem ∉ s.(held) /\ (700 <= length l)%nat.
Proof.
  destruct (@kinit_run big_linker power_on (S (@npages big_linker))) as (s & _ & Hk & Ho); [done | set_solver + | lia |].
  exists s, (rev (@all_pages big_linker)). split; [exact Hk |]. rewrite (only_mem_held _ _ Ho). split; [set_solver + |].
  rewrite length_rev. unfold all_pages, page_seq. rewrite length_fmap, length_seq. apply Nat.leb_le. vm_compute. reflexivity.
Qed.

Lemma kvmmake_spec_witness : exists s root s' (stacks : list Z), @kvmmake big_linker big_symbols big_text s = Ok root s' /\ length stacks = NPROC /\ NoDup stacks.
Proof.
  destruct big_kmem as (s & l & Hk & Hh & Hl). destruct (@kvmmake_spec big_linker big_symbols big_text s l Hk Hh Hl) as (root & s' & N & stacks & rest & E & _ & _ & _ & Hn & Hd & _).
  exists s, root, s', stacks. split; [exact E |]. split; [exact Hn | exact Hd].
Defined.

Lemma kvmmake_protects_witness : exists s root s' N rest, @kvmmake big_linker big_symbols big_text s = Ok root s' /\
  @pt_inv big_linker s' root N rest /\ has (lookup_pte s'.(mem) N KERNBASE) PTE_W = false.
Proof.
  destruct big_kmem as (s & l & Hk & Hh & Hl). destruct (@kvmmake_protects big_linker big_symbols big_text s l Hk Hh Hl) as (root & s' & N & rest & E & Hpt & Hp & _).
  exists s, root, s', N, rest. split; [exact E |]. split; [exact Hpt |]. destruct (Hp KERNBASE) as (_ & _ & Ht); [done | done |]. exact (proj2 (Ht ltac:(done))).
Defined.

(** ** A board with a disk *)

(** The disk offers every feature, and queues of up to 1024 descriptors; the other devices answer zero. *)
Definition offered : Z := 2 ^ 32 - 1.
Definition qemu_disk : Devices := fun tr a =>
  if a =? R VIRTIO_MMIO_MAGIC_VALUE then 0x74726976 else if a =? R VIRTIO_MMIO_VERSION then 2 else if a =? R VIRTIO_MMIO_DEVICE_ID then 2
  else if a =? R VIRTIO_MMIO_VENDOR_ID then 0x554d4551 else if a =? R VIRTIO_MMIO_DEVICE_FEATURES then offered else if a =? R VIRTIO_MMIO_STATUS then default 0 (written tr a)
  else if a =? R VIRTIO_MMIO_QUEUE_READY then queue_ready tr else if a =? R VIRTIO_MMIO_QUEUE_NUM_MAX then 1024 else 0.

Lemma qemu_disk_blk : @VirtioBlk qemu_disk offered 1024.
Proof. split; try done. intros tr f v _ _ Hw. change (device tr (R VIRTIO_MMIO_STATUS)) with (default 0 (written tr (R VIRTIO_MMIO_STATUS))). by rewrite Hw. Qed.

Definition entries0 : Entries := {| main_addr := KERNBASE + 0x1000; kernelvec := KERNBASE + 0x5000 |}.
Definition patience0 : Sleeplock.Patience := 0%nat.

(** The kernel's variables when it starts, the transmitter ready whenever it is asked, and three shared memory segments in use. *)
Definition seg_used (i : Z) : shmseg := mkSeg (i + 7) 4096 (KERNBASE + 0x200000 + 4096 * i) 0 1 i [].
Definition reset_kernel : kernel := set_shm_segments (seg_used <$> seqZ 0 10) (set_itable (replicate 50 (mkInode 0 0 0 0 0 0 0 0 0 (replicate 13 0)))
  (set_cons (set_dev_idle (replicate 32 true) power_on.(cons)) power_on)).
Definition board0 : board := mkBoard reset_kernel 0 0 0 (mkVq 0 0 0 (replicate NUM 0)) {[Ctp := 0]} 1 0 [] ∅.
Definition board1 : board := mkBoard reset_kernel (KERNBASE + 0x300000) 1 1 (mkVq 0 0 0 (replicate NUM 0)) {[Ctp := 3]} 1 0 [] ∅.

Lemma reset_kernel_reset : reset reset_kernel.
Proof.
  split; try done.
  - intros i p Hi. change (procs reset_kernel) with (replicate NPROC zero_proc) in Hi. apply lookup_replicate in Hi as [-> _]. done.
  - exists (mkInode 0 0 0 0 0 0 0 0 0 (replicate 13 0)). done.
Qed.

Lemma big_npages : (720 <= @npages big_linker)%nat.
Proof. apply Nat.leb_le. vm_compute. reflexivity. Qed.

Lemma main_boots_witness : exists m', @main big_linker big_symbols big_text patience0 qemu_disk entries0 board0 = Ok tt m' /\ m'.(started) = 1 /\ m'.(kern).(held) = ∅.
Proof.
  destruct (@main_boots big_linker big_symbols big_text patience0 qemu_disk entries0 offered 1024 board0 qemu_disk_blk reset_kernel_reset) as (m' & E & Hb); [reflexivity | exact big_npages | apply Nat.leb_le; reflexivity | reflexivity |].
  exists m'. split; [exact E |]. destruct Hb. split; assumption.
Defined.





Lemma virtio_disk_init_spec_witness : exists s m', let b := mkBoard s 0 0 0 (mkVq 0 0 0 (replicate NUM 0)) ∅ 1 0 [] ∅ in @virtio_disk_init qemu_disk b = Ok tt m' /\ Z.testbit (mask_features offered) 28 = false.
Proof.
  destruct big_kmem as (s & l & Hk & Hh & Hl). destruct l as [|d [|a [|u l]]]; [exfalso; cbn in Hl; lia .. |].
  destruct (@virtio_disk_init_spec big_linker qemu_disk offered 1024 (mkBoard (set_held ∅ s) 0 0 0 (mkVq 0 0 0 (replicate NUM 0)) ∅ 1 0 [] ∅) d a u l qemu_disk_blk) as (m' & E & _ & Hf); [exact Hk | apply not_elem_of_empty | apply not_elem_of_empty | reflexivity |].
  exists (set_held ∅ s), m'. split; [exact E |]. rewrite Hf by lia. reflexivity.
Defined.

(** The hart that comes late erases the keys of segments in use. *)
Lemma main_secondary_witness : exists m', @main big_linker big_symbols big_text patience0 qemu_disk entries0 board1 = Ok tt m' /\ seg_key <$> m'.(kern).(shm_segments) = replicate 10 0.
Proof.
  destruct (@main_secondary big_linker big_symbols big_text patience0 qemu_disk entries0 board1 3) as (m' & E & _ & _ & _ & _ & Hs & _); [reflexivity | lia | reflexivity | reflexivity | reflexivity | apply Nat.leb_le; reflexivity |].
  exists m'. split; [exact E |]. rewrite Hs. reflexivity.
Defined.

(** ** Two CPUs *)

Fixpoint perform (ls : list Scheduler.label) (s : Scheduler.st) : option Scheduler.st :=
  match ls with [] => Some s | l :: ls' => match Scheduler.exec l s with Some s' => perform ls' s' | None => None end end.

Lemma perform_steps ls : forall s s', perform ls s = Some s' -> rtc Scheduler.step s s'.
Proof.
  induction ls as [|l ls IH]; intros s s' E; cbn in E; [by injection E as -> |]. destruct (Scheduler.exec l s) as [s1|] eqn:E1; [|done]. eapply rtc_l; [by exists l | by apply IH].
Qed.

(** CPU 0 switches to the first process, which forks; CPU 1 switches to the child. *)
Definition two_run : list Scheduler.label :=
  replicate 7 (Scheduler.Next 0) ++ [Scheduler.Do 0 1 Scheduler.Alloc; Scheduler.Next 0; Scheduler.Next 0; Scheduler.Do 0 1 Scheduler.Fork; Scheduler.Next 0; Scheduler.Next 0] ++ replicate 10 (Scheduler.Next 1).
Definition two_end : Scheduler.st := default Scheduler.initial (perform two_run Scheduler.initial).

Lemma perform_end ls : bool_decide (is_Some (perform ls Scheduler.initial)) = true -> rtc Scheduler.step Scheduler.initial (default Scheduler.initial (perform ls Scheduler.initial)).
Proof. intros [s E]%bool_decide_eq_true. rewrite E. by apply (perform_steps ls). Qed.

Lemma one_cpu_per_process_witness : Scheduler.runs (Scheduler.at_ (Scheduler.cpus two_end 0%nat)) = Some 0%nat /\ Scheduler.runs (Scheduler.at_ (Scheduler.cpus two_end 1%nat)) = Some 1%nat /\
  Scheduler.pstate two_end 1%nat = RUNNING /\ exists c, Scheduler.runs (Scheduler.at_ (Scheduler.cpus two_end c)) = Some 1%nat.
Proof.
  assert (rtc Scheduler.step Scheduler.initial two_end) as Hr by (apply perform_end; vm_compute; reflexivity).
  destruct (Scheduler.one_cpu_per_process two_end Hr) as (_ & _ & Hc & _). split; [vm_compute; reflexivity |]. split; [vm_compute; reflexivity |].
  assert (Scheduler.pstate two_end 1%nat = RUNNING) as H1 by (vm_compute; reflexivity). split; [exact H1 | exact (Hc _ H1)].
Defined.

(** CPU 0 runs the first process while CPU 1 goes through its loop twice. *)
Definition rounds_run : list Scheduler.label := replicate 7 (Scheduler.Next 0) ++ replicate 200 (Scheduler.Next 1).
Definition rounds_end : Scheduler.st := default Scheduler.initial (perform rounds_run Scheduler.initial).

Lemma scheduler_fair_witness : exists t, rtc Scheduler.step Scheduler.initial t /\ rtc Scheduler.step t rounds_end /\ Scheduler.pstate t 0%nat = RUNNING.
Proof.
  assert (rtc Scheduler.step Scheduler.initial rounds_end) as Hr by (apply perform_end; vm_compute; reflexivity).
  apply (Scheduler.scheduler_fair Scheduler.initial rounds_end 0 1); [apply rtc_refl | reflexivity | apply Nat.ltb_lt; reflexivity | exact Hr | apply Nat.leb_le; vm_compute; reflexivity].
Defined.
